(* ===== verification/_CoqProject ===== *)
-Q . S2P
Prelude.v
Kmalloc.v
Array.v
Queue.v
Bitmap.v
Ram.v
Kheap.v
Thread.v
ThreadInv.v
Synch.v
SynchInv.v
Boot.v
Vm.v
VmInv.v
Uio.v
Blockdev.v
Lhd.v
Vnode.v
Vfs.v
VfsPath.v
VfsList.v
Sfs.v
Mksfs.v
Devfs.v
SfsBlock.v
SfsFile.v
SfsIo.v
SfsTrunc.v
SfsDir.v
SfsVol.v
MksfsVol.v
FsKernel.v
Emu.v
EmuSpec.v
EmuHandles.v
EmuKernel.v
Libc.v
LibcStr.v
Printf.v
PrintfSpec.v
Kgets.v
Menu.v
MenuSpec.v
Loadelf.v
LoadelfSpec.v
Runprogram.v
RunprogramSpec.v
Stoplight.v
StoplightInv.v
Examples.v
ExamplesFs.v
ExamplesVm.v
ExamplesVfs.v
ExamplesMk.v
ExamplesStop.v
ExamplesLib.v
ExamplesMenu.v
ExamplesProg.v
ExamplesEmu.v
