(* ===== verification/Prelude.v ===== *)
(** * OS/161 1.11: a verification library

    OS/161 is a small kernel for a MIPS machine.  The development models its memory
    allocators, threads, synchronization, virtual memory, disk driver, file system and
    name space, the loader of programs and the menu, the program that makes file systems, the C library that
    kernel and programs share, and an exercise built on the threads, and proves them correct.

    ** The parts and how they interact

    The heap ([kmalloc], [kfree]) takes pages from the boot-time page allocator.  Arrays and
    queues live on the heap; the thread system keeps the sleeping and dead threads in
    arrays and the ready ones in a queue; semaphores and locks put threads to sleep on
    their addresses.  An address space takes runs of frames from the page allocator, and the
    TLB caches its translations.  The simple file system (SFS) keeps its loaded
    vnodes in an array and its free blocks in a bitmap, protects the reference
    counts of vnodes by locks, and reads and writes sectors through the disk driver.  The name
    space (VFS) finds, for a path, the device or the volume it starts at, and calls the operations of
    its vnodes.  mksfs writes the volumes that SFS mounts.  The loader reads an executable from a file into
    an address space.  The menu reads lines and calls the commands, which use the name space.  The intersection exercise runs vehicles as
    threads that take locks and sleep.

    Each component is proved against an interface of what is below it, a type class
    of operations and a type class of their laws, and the laws are discharged by the component
    below: [KmallocSpec] (Kmalloc.v) by Kheap.v and FsKernel.v, [DeviceSpec] (Blockdev.v) by
    Lhd.v, [Locks] (Vnode.v) by FsKernel.v from Synch.v, [FileSystems] (Vfs.v) with its laws
    [VoidOps] and [VolNames] by Devfs.v, [LockSpec] and [LockFrame] (Vnode.v) by EmuKernel.v, [Program] with its laws [ProgramSpec] (Loadelf.v, LoadelfSpec.v) by Runprogram.v and
    RunprogramSpec.v.  A disk is [Sound], its writes complete, or [Worn], where a write may fail ([wear], Blockdev.v; the card
    of Lhd.v is [card_sound] or not): what is proved of reading holds for both, what is proved of writing to a volume for a
    sound disk, since the file system reports a write that failed as done ([sfs_wblock_loses_write]).  What is outside the sources is a parameter: the disk card
    ([LhdCard], Lhd.v), the card of the emulator file system ([EmuCard], Emu.v), the system calls of the host ([Host], Mksfs.v), the function
    [Waiting_zone_produce] that the intersection exercise calls and no file defines (Stoplight.v).

    ** Conventions

    A routine is a function of the monad [M S]: it returns a value, returns an error number (its effects
    persist), panics, has undefined behaviour, or exceeds the fuel of a loop.  The state [S]
    is a record for each component; a part of it is reached by a [lens] and [zoom].  Integers
    are [Z] with their wrap-around written out ([u8], [u16], [u32], [s32]).  Pointers are
    addresses, 0 for [NULL]; the structures behind them are in finite maps by address, so
    that aliasing and use after free are visible.  [assert] is [kassert]; console
    output is left out.

    ** Files

    - Prelude.v: the monad, machine integers, shared lemmas and tactics, the hint bases.
    - Kmalloc.v: the interface of the heap, and its frame rule.
    - Array.v (kern/lib/array.c), Queue.v (queue.c), Bitmap.v (bitmap.c): one definition for each
      function; they refine lists, FIFO queues and sets of bits.
    - Ram.v (kern/arch/mips/mips/ram.c, [getppages] of dumbvm.c), Kheap.v (kern/lib/kheap.c): the
      page allocator and the subpage allocator over a memory of words, with the page reference tables
      and the free lists threaded through the pages.
    - Thread.v (kern/thread/thread.c, scheduler.c, spl.c, pcb.c): threads; [mi_switch] is cut where
      the stack changes, into [mi_switch_out] and [mi_switch_in].  ThreadInv.v: the
      invariant, the abstract scheduler it refines.  Boot.v: the start of the thread system.
    - Synch.v (kern/thread/synch.c, hardclock.c, the timer part of interrupt.c and trap.c): semaphores, locks,
      the clock; a call that sleeps is recorded in [waits] and goes on when its thread is switched
      in.  SynchInv.v: runs of the kernel as sequences of steps and the theorems about all of them.
    - Vm.v (kern/arch/mips/mips/dumbvm.c, tlb_mips1.S, the callers in thread.c, runprogram.c and trap.c):
      address spaces, faults, the TLB, and the loads and stores of a running program.  VmInv.v: its
      invariant and theorems.
    - Uio.v (kern/userprog/uio.c, kern/lib/copyinout.c): transfers between kernel and user memory.
    - Blockdev.v (kern/include/dev.h), Lhd.v (kern/dev/lamebus/lhd.c): disks.
    - Vnode.v (kern/fs/vfs/vnode.c): reference and open counts.
    - Vfs.v (kern/fs/vfs/vfslist.c, vfslookup.c, vfscwd.c, vfspath.c): the name space.
      VfsPath.v: references and paths.  VfsList.v: the table of devices.
    - Sfs.v (kern/fs/sfs/sfs_io.c, sfs_vnode.c, sfs_fs.c): the file system.  SfsBlock.v, SfsFile.v, SfsIo.v,
      SfsTrunc.v, SfsDir.v, SfsVol.v: its theorems, from blocks to volumes.
    - Devfs.v (kern/fs/vfs/device.c, devnull.c): device vnodes, and the world of devices and SFS
      volumes that the name space runs on.
    - Mksfs.v, MksfsVol.v (sbin/mksfs/mksfs.c, disk.c): making a file system.
    - FsKernel.v: the interfaces of the file system discharged by the kernel below it.
    - Emu.v (kern/dev/lamebus/emu.c): the emulator file system, from the registers of its card to its vnodes.
      EmuSpec.v: reads and writes.  EmuHandles.v: the handles that are open on the card.  EmuKernel.v: its locks,
      from Synch.v.
    - Libc.v, LibcStr.v (lib/libc: mem*.c, bzero.c, str*.c, atoi.c): blocks of memory, strings and numbers,
      over a memory of bytes.  Printf.v (lib/libc/__printf.c, snprintf.c): formatted output, a state machine that
      reads the format.  PrintfSpec.v: what a format denotes, and that the machine prints it.
    - Kgets.v (kern/lib/kgets.c): line editing.  Menu.v (kern/main/menu.c): the command table, the
      dispatch of a line, and the commands.  MenuSpec.v: what a line runs.
    - Loadelf.v (kern/userprog/loadelf.c, kern/include/elf.h): the loader.  LoadelfSpec.v: the image that a
      file denotes, and that it is what gets loaded.  Runprogram.v (kern/userprog/runprogram.c): the memory of
      the running process as the target of the loader, and [runprogram].  RunprogramSpec.v: its theorems.
    - Stoplight.v (kern/asst1/stoplight.c): the intersection, as resumptions that stop where a thread
      waits for a lock or sleeps.  StoplightInv.v: its queues and vehicles.
    - Examples.v, ExamplesFs.v, ExamplesVm.v, ExamplesVfs.v, ExamplesMk.v, ExamplesLib.v, ExamplesStop.v,
      ExamplesMenu.v, ExamplesProg.v, ExamplesEmu.v: inputs,
      most of them built by running the definitions, at which the hypotheses of the theorems hold.

    ** What the theorems show

    - Heap: blocks are aligned, in memory and disjoint, [kfree] frees exactly one, over all
      sequences of calls and stores of a client.
    - Threads: every thread is in exactly one of the states, and each call does to the lists what
      its name says; a fork that fails leaves no block allocated.  Synchronization: mutual exclusion, counts of semaphores, and no lost
      wakeup, in every run, with preemption by the clock; a thread that waits for a lock it holds itself waits for ever.
    - Virtual memory: a program's loads and stores go to its own bytes and no other's, for regions whose bounds do
      not wrap around; [as_copy] copies
      exactly, the reset of the TLB ends.
    - File system: reads, writes and truncation on the bytes of a file, with every other file untouched;
      lookup, link and unlink on the names of a directory; mount after sync, with the inodes of the loaded vnodes, and mount after
      mksfs, give the volume back.  The disk driver always returns.
    - Emulator file system: reads and writes of files of the host, in whatever pieces the card transfers them; a handle
      that is opened belongs to a vnode or is closed again.
    - Name space: every call gives up the references it gets, except that [vfs_adddev] and [vfs_addfs] can leave over that of the vnode they make; paths are split by their shape;
      the table of devices keeps names distinct on [vfs_adddev], and a lookup is right when they are.
    - C library: [memmove] equals its specification for overlapping blocks; [snprintf] prints what the manual says
      the format denotes within its buffer, but for three formats where it departs from the manual (ExamplesLib.v), and [atoi] reads printed numbers back.
    - Programs: the bytes a process sees are those of the segments of its file, with the rest cleared, each stored through
      the TLB; a file with one segment panics the kernel, and segments of more than 64 pages are [EFAULT]; files
      are closed on every path.  Menu: a line runs the commands it spells, in order; the line is
      what the keys edit, within the buffer.
    - Intersection: where its queues keep locks, lose vehicles or wait for ever, and that a vehicle
      panics when it first sleeps.
    - Transfers: the bytes asked for up to the length of the data block, [EFAULT] exactly for what is not mapped.
    - Defects of the code, each shown at a general input: the [..._panics], [..._wraps],
      [..._loses_write], [..._keeps_block] and [..._hides] theorems.

    ** Fuel

    Loops over a list or a count recurse on it.  The others have fuel, and a theorem that it is
    enough: the scan of the page lists of the heap (their length, by the invariant of
    Kheap.v), [wakeup_loop] and [drop_all] (the number of sleepers or slots), [uiomove] (the
    bytes left), the transfers of the emulator file system (the bytes left, since a piece has one or is the last), [TLB_Reset] (128: at most 64 entries can collide with the address tried),
    [user_access] (2: the second try hits), the transfers of mksfs (512 bytes and the
    interruptions that the host allows itself), the scans of strings (one more than the bytes of memory: each turn
    looks at a new address), the digits of a number (32, a bit or more each).  [kgets] recurses on the keys typed: without a return it has
    no line yet.  The loops of the menu over a line have one turn for each byte of memory and one more.  The loops of Stoplight.v over a
    queue take their fuel as an argument; the theorems hold for all of it, or when the queue is no longer than it.  [rw_retry] counts the ten retries of the code.

    ** Not modelled

    - Blocking inside a file system call: the model of FsKernel.v follows the calls that find their locks
      free; waiting for locks is covered by Synch.v on its own.
    - The system call dispatcher, which has one call, and the assembly that enters user mode and
      switches stacks.
    - Drivers other than those of the disk and the emulator file system, the bus, the console and the
      tests: input and output on registers and text.  What a command of the menu prints.
    - The user programs other than mksfs, and the parts of the C library that call the system.
    - Condition variables are modelled, but wait, signal and broadcast are empty in the source. *)

From Stdlib Require Export ZArith Lia.
From stdpp Require Export base gmap list strings numbers.
Export list_basics.list list_relations.list list_monad.list list_misc.list list_numbers.list.

#[global] Open Scope Z_scope.

(** ** Error numbers: kern/include/kern/errno.h *)

Inductive errno :=
  | EINVAL | EFAULT | ENAMETOOLONG | ENOMEM | EIO | ENOENT | ENOTDIR
  | EISDIR | EEXIST | EXDEV | EAGAIN | ESPIPE | EUNIMP | ENXIO | ENODEV
  | EBUSY | EIOCTL | ENOTEMPTY | ERANGE | ENOSPC | EMFILE | ENFILE
  | ENOSYS | ENOEXEC | E2BIG | EBADF.

#[global] Instance errno_eq_dec : EqDecision errno.
Proof. solve_decision. Defined.

(** ** Machine integers

    [int] and [off_t] are 32-bit signed, [size_t], [u_int32_t] and
    [vaddr_t] 32-bit unsigned, on the only port (kern/arch/mips). *)

Definition u8 (z : Z) : Z := z mod 2 ^ 8.
Definition u16 (z : Z) : Z := z mod 2 ^ 16.
Definition u32 (z : Z) : Z := z mod 2 ^ 32.
Definition s32 (z : Z) : Z := (z + 2 ^ 31) mod 2 ^ 32 - 2 ^ 31.

(** [DIVROUNDUP] of kern/include/lib.h, on [u_int32_t] operands. *)
Definition DIVROUNDUP (a b : Z) : Z := u32 (a + b - 1) / b.

(** ** Outcomes

    A kernel routine either returns normally, returns an error number
    (its effects on the state persist), panics (a failed [assert] or a call
    of [panic]), has undefined behaviour (an access outside an object), or,
    for a loop translated with fuel, exceeds the fuel. *)

Inductive outcome (S A : Type) : Type :=
  | Done (a : A) (s : S)
  | Fail (e : errno) (s : S)
  | Panic
  | Undef
  | NoFuel.
Arguments Done {S A} a s.
Arguments Fail {S A} e s.
Arguments Panic {S A}.
Arguments Undef {S A}.
Arguments NoFuel {S A}.

Definition M (S A : Type) : Type := S -> outcome S A.

#[global] Instance M_ret S : MRet (M S) := fun A a s => Done a s.

#[global] Instance M_bind S : MBind (M S) := fun A B k m s =>
  match m s with
  | Done a s' => k a s'
  | Fail e s' => Fail e s'
  | Panic => Panic
  | Undef => Undef
  | NoFuel => NoFuel
  end.

Definition gets {S A} (f : S -> A) : M S A := fun s => Done (f s) s.
Definition modify {S} (f : S -> S) : M S unit := fun s => Done tt (f s).
Definition fail {S A} (e : errno) : M S A := fun s => Fail e s.
Definition panic {S A} : M S A := fun _ => Panic.
Definition undef {S A} : M S A := fun _ => Undef.
Definition nofuel {S A} : M S A := fun _ => NoFuel.

(** [assert(x)] of kern/include/lib.h: panics when the condition is false. *)
Definition kassert {S} (b : bool) : M S unit :=
  fun s => if b then Done tt s else Panic.

(** [result = f(...)] followed by an inspection of [result]: the error number
    becomes a value. *)
Definition attempt {S A} (m : M S A) : M S (errno + A) := fun s =>
  match m s with
  | Done a s' => Done (inr a) s'
  | Fail e s' => Done (inl e) s'
  | Panic => Panic
  | Undef => Undef
  | NoFuel => NoFuel
  end.

(** Access to an object: absent means outside it. *)
Definition access {S A} (o : option A) : M S A :=
  fun s => match o with Some a => Done a s | None => Undef end.

(** A routine of a component run on that component's part of the state. *)
Record lens (S T : Type) := Lens { lget : S -> T; lset : T -> S -> S }.
Arguments Lens {S T} _ _.
Arguments lget {S T} _ _.
Arguments lset {S T} _ _ _.

Definition zoom {S T A} (l : lens S T) (m : M T A) : M S A := fun s =>
  match m (lget l s) with
  | Done a t => Done a (lset l t s)
  | Fail e t => Fail e (lset l t s)
  | Panic => Panic
  | Undef => Undef
  | NoFuel => NoFuel
  end.

Class LensLaws {S T} (l : lens S T) : Prop := {
  lget_lset : forall t s, lget l (lset l t s) = t;
  lset_lget : forall s, lset l (lget l s) s = s;
  lset_lset : forall t1 t2 s, lset l t1 (lset l t2 s) = lset l t1 s;
}.

(** Conditional statement without an else branch. *)
Definition when {S} (b : bool) (m : M S unit) : M S unit :=
  if b then m else mret tt.

(** [for (i = lo; n iterations; i++) body(i)]. *)
Fixpoint for_n {S} (n : nat) (i : Z) (body : Z -> M S unit) : M S unit :=
  match n with
  | O => mret tt
  | Datatypes.S n' => body i ;; for_n n' (i + 1) body
  end.

(** Array element by a C index: negative or large indices are outside. *)
Definition zlookup {A} (l : list A) (i : Z) : option A :=
  if decide (0 <= i) then l !! Z.to_nat i else None.
Definition zinsert {A} (l : list A) (i : Z) (x : A) : option (list A) :=
  if decide (0 <= i < Z.of_nat (length l)) then Some (<[Z.to_nat i := x]> l) else None.

(** Neither panics, nor has undefined behaviour, nor runs out of fuel. *)
Definition safe {S A} (o : outcome S A) : Prop :=
  match o with Done _ _ | Fail _ _ => True | _ => False end.

(** A routine of type [void]: it reports no error. *)
Definition nofail {S A} (m : M S A) : Prop := forall s e s', m s <> Fail e s'.

(** ** Generic lemmas *)

Lemma bind_Done {S A B} (m : M S A) (k : A -> M S B) s a s' :
  m s = Done a s' -> (m ≫= k) s = k a s'.
Proof. unfold mbind, M_bind. by intros ->. Qed.

Lemma bind_Fail {S A B} (m : M S A) (k : A -> M S B) s e s' :
  m s = Fail e s' -> (m ≫= k) s = Fail e s'.
Proof. unfold mbind, M_bind. by intros ->. Qed.

Lemma bind_Done_inv {S A B} (m : M S A) (k : A -> M S B) s b s' :
  (m ≫= k) s = Done b s' -> exists a s1, m s = Done a s1 /\ k a s1 = Done b s'.
Proof. unfold mbind, M_bind. destruct (m s); naive_solver. Qed.

Lemma bind_Panic {S A B} (m : M S A) (k : A -> M S B) s : m s = Panic -> (m ≫= k) s = Panic.
Proof. unfold mbind, M_bind. by intros ->. Qed.

Lemma bind_assoc_eq {S A B C} (m : M S A) (f : A -> M S B) (g : B -> M S C) s :
  ((m ≫= f) ≫= g) s = (m ≫= (fun a => f a ≫= g)) s.
Proof. unfold mbind, M_bind. by destruct (m s). Qed.

Lemma attempt_Done {S A} (m : M S A) s a s' : m s = Done a s' -> attempt m s = Done (inr a) s'.
Proof. unfold attempt. by intros ->. Qed.

Lemma attempt_Fail {S A} (m : M S A) s e s' : m s = Fail e s' -> attempt m s = Done (inl e) s'.
Proof. unfold attempt. by intros ->. Qed.

Lemma u32_small z : 0 <= z < 2 ^ 32 -> u32 z = z.
Proof. intros. unfold u32. by apply Z.mod_small. Qed.

Lemma u32_range z : 0 <= u32 z < 2 ^ 32.
Proof. unfold u32. apply Z.mod_pos_bound. lia. Qed.

Lemma s32_small z : - 2 ^ 31 <= z < 2 ^ 31 -> s32 z = z.
Proof. intros. unfold s32. rewrite Z.mod_small; lia. Qed.

Lemma s32_range z : - 2 ^ 31 <= s32 z < 2 ^ 31.
Proof. unfold s32. pose proof (Z.mod_pos_bound (z + 2 ^ 31) (2 ^ 32)). lia. Qed.

Lemma zlookup_Some {A} (l : list A) i x :
  zlookup l i = Some x <-> 0 <= i /\ l !! Z.to_nat i = Some x.
Proof. unfold zlookup. case_decide; naive_solver. Qed.

Lemma zlookup_lt {A} (l : list A) i :
  0 <= i < Z.of_nat (length l) -> is_Some (zlookup l i).
Proof.
  intros. unfold zlookup. rewrite decide_True by lia. apply lookup_lt_is_Some. lia.
Qed.

Lemma zlookup_nat {A} (l : list A) (i : nat) : zlookup l (Z.of_nat i) = l !! i.
Proof. unfold zlookup. rewrite decide_True by lia. by rewrite Nat2Z.id. Qed.

Lemma zinsert_in {A} (l : list A) i x :
  0 <= i < Z.of_nat (length l) -> zinsert l i x = Some (<[Z.to_nat i := x]> l).
Proof. intros. unfold zinsert. by rewrite decide_True. Qed.

(** ** Automation *)

(** Unfold one layer of the monad. *)
Ltac munfold :=
  unfold mbind, M_bind, mret, M_ret, gets, modify, fail, panic, undef, nofuel,
    kassert, access, when, attempt in *.

(** Take the branch of a decision whose condition is arithmetically known. *)
Ltac decide_branch :=
  match goal with
  | |- context [decide ?P] =>
      first [ rewrite (decide_True (P := P)) by lia
            | rewrite (decide_False (P := P)) by lia ]
  | |- context [bool_decide ?P] =>
      first [ rewrite (bool_decide_eq_true_2 P) by lia
            | rewrite (bool_decide_eq_false_2 P) by lia ]
  end.

(** [lia] with quotients and remainders by constants. *)
Ltac dlia := zify; Z.to_euclidean_division_equations; lia.

(** ** Routines that report no error *)

Lemma nofail_ret {S A} (a : A) : nofail (S := S) (mret a).
Proof. done. Qed.
Lemma nofail_gets {S A} (f : S -> A) : nofail (gets f).
Proof. done. Qed.
Lemma nofail_modify {S} (f : S -> S) : nofail (modify f).
Proof. done. Qed.
Lemma nofail_panic {S A} : nofail (S := S) (A := A) panic.
Proof. done. Qed.
Lemma nofail_undef {S A} : nofail (S := S) (A := A) undef.
Proof. done. Qed.
Lemma nofail_nofuel {S A} : nofail (S := S) (A := A) nofuel.
Proof. done. Qed.
Lemma nofail_kassert {S} b : nofail (S := S) (kassert b).
Proof. intros s e s'. unfold kassert. by destruct b. Qed.
Lemma nofail_access {S A} (o : option A) : nofail (S := S) (access o).
Proof. intros s e s'. unfold access. by destruct o. Qed.
Lemma nofail_attempt {S A} (m : M S A) : nofail (attempt m).
Proof. intros s e s'. unfold attempt. by destruct (m s). Qed.
Lemma nofail_bind {S A B} (m : M S A) (k : A -> M S B) : nofail m -> (forall a, nofail (k a)) -> nofail (m ≫= k).
Proof.
  intros Hm Hk s e s'. unfold mbind, M_bind. pose proof (Hm s) as H. destruct (m s); try done; [apply Hk|]. by destruct (H e0 s0).
Qed.
Lemma nofail_zoom {S T A} (l : lens S T) (m : M T A) : nofail m -> nofail (zoom l m).
Proof. intros Hm s e s'. unfold zoom. pose proof (Hm (lget l s)) as H. destruct (m (lget l s)); try done. by destruct (H e0 s0). Qed.

Create HintDb nofail.
#[export] Hint Resolve nofail_ret nofail_gets nofail_modify nofail_panic nofail_undef nofail_nofuel nofail_kassert
  nofail_access nofail_attempt : nofail.

(** Goes through a routine; the calls are left to the hints. *)
Ltac nofail :=
  repeat lazymatch goal with
  | |- nofail (_ ≫= _) => apply nofail_bind; [|intros ?]
  | |- nofail (zoom _ _) => apply nofail_zoom
  | |- nofail (match ?x with _ => _ end) => destruct x
  end; eauto with nofail.

(** ** Routines that leave a part of the state alone *)

(** [m] leaves [f] of the state as it is, with or without an error. *)
Definition keeps_fn {S X A} (f : S -> X) (m : M S A) : Prop :=
  forall s, match m s with Done _ s' | Fail _ s' => f s' = f s | _ => True end.

Section keeps.
Context {S X : Type} (f : S -> X).

Lemma keeps_ret {A} (a : A) : keeps_fn f (mret a).
Proof. by intros s. Qed.
Lemma keeps_fail {A} e : keeps_fn (A := A) f (fail e).
Proof. by intros s. Qed.
Lemma keeps_gets {A} (g : S -> A) : keeps_fn f (gets g).
Proof. by intros s. Qed.
Lemma keeps_bind {A B} (m : M S A) (k : A -> M S B) : keeps_fn f m -> (forall a, keeps_fn f (k a)) -> keeps_fn f (m ≫= k).
Proof.
  intros Hm Hk s. unfold mbind, M_bind. specialize (Hm s). destruct (m s) as [a s'|e s'| | |]; try done.
  specialize (Hk a s'). destruct (k a s'); try done; congruence.
Qed.
Lemma keeps_panic {A} : keeps_fn (A := A) f panic.
Proof. by intros s. Qed.
Lemma keeps_kassert b : keeps_fn f (kassert b).
Proof. intros s. unfold kassert. by destruct b. Qed.
Lemma keeps_access {A} (o : option A) : keeps_fn f (access o).
Proof. intros s. unfold access. by destruct o. Qed.
Lemma keeps_attempt {A} (m : M S A) : keeps_fn f m -> keeps_fn f (attempt m).
Proof. intros H s. unfold attempt. specialize (H s). by destruct (m s). Qed.
Lemma keeps_zoom {T A} (l : lens S T) (m : M T A) : (forall t s, f (lset l t s) = f s) -> keeps_fn f (zoom l m).
Proof. intros H s. unfold zoom. by destruct (m (lget l s)). Qed.
Lemma keeps_for n i (body : Z -> M S unit) : (forall j, keeps_fn f (body j)) -> keeps_fn f (for_n n i body).
Proof. intros H. revert i. induction n as [|n IH]; intros i; cbn [for_n]; [apply keeps_ret|]. by apply keeps_bind; [|intros _]. Qed.

End keeps.

Create HintDb keeps_fn.
#[export] Hint Resolve keeps_ret keeps_fail keeps_gets keeps_panic keeps_kassert keeps_access keeps_attempt keeps_for : keeps_fn.
Ltac keeps_fn :=
  repeat lazymatch goal with
  | |- keeps_fn _ (_ ≫= _) => apply keeps_bind; [|intros ?]
  | |- keeps_fn _ (match ?x with _ => _ end) => destruct x
  end; eauto with keeps_fn.

Create HintDb os161.
#[export] Hint Resolve u32_range s32_range : os161.
