(* ===== verification/Kmalloc.v ===== *)
(** * The kernel heap as its clients see it

    The interface of kern/lib/kheap.c ([kmalloc], [kfree]): the operations, and
    what they promise.  Components that allocate are proved against this
    interface; Kheap.v discharges it for the subpage allocator. *)

From S2P Require Import Prelude.

(** Sizes for which the allocator's 32-bit arithmetic does not wrap. *)
Definition KMALLOC_MAX : Z := 2 ^ 31.

Class Kmalloc (H : Type) := {
  (** Address of the new block, 0 standing for [NULL]. *)
  kmalloc : Z -> M H Z;
  kfree : Z -> M H unit;
}.

(** [heap_rep h B]: in heap state [h] the live blocks are those of [B], which
    maps the address of a block to the size it was requested with. *)
Class KmallocSpec (H : Type) `{!Kmalloc H} := {
  heap_rep : H -> gmap Z Z -> Prop;
  heap_rep_range : forall h B p n, heap_rep h B -> B !! p = Some n ->
    0 < p < 2 ^ 32;
  heap_rep_disjoint : forall h B p n q m, heap_rep h B ->
    B !! p = Some n -> B !! q = Some m -> p < q -> p + n <= q;
  kmalloc_spec : forall h B sz, heap_rep h B -> 0 <= sz <= KMALLOC_MAX ->
    (exists h', kmalloc sz h = Done 0 h' /\ heap_rep h' B) \/
    (exists p h', kmalloc sz h = Done p h' /\ p <> 0 /\ B !! p = None /\
       heap_rep h' (<[p := sz]> B));
  kfree_spec : forall h B p n, heap_rep h B -> B !! p = Some n ->
    exists h', kfree p h = Done tt h' /\ heap_rep h' (delete p B);
  kfree_null : forall h B, heap_rep h B -> kfree 0 h = Done tt h;
}.

(** The heap part of a component state that carries the heap beside it. *)
Definition heapL {H X} : lens (H * X) H := Lens fst (fun h s => (h, s.2)).
Definition objL {H X} : lens (H * X) X := Lens snd (fun x s => (s.1, x)).

#[export] Instance heapL_laws {H X} : LensLaws (@heapL H X).
Proof. split; [done | by intros [] | done]. Qed.

(** ** The frame rule

    Whatever is proved of a component against the interface holds while other
    components own the blocks of [F]: with those set aside, the heap still
    satisfies the interface. *)
Section framed.
Context {H : Type} `{!Kmalloc H, !KmallocSpec H}.

Definition framed_rep (F : gmap Z Z) (h : H) (B : gmap Z Z) : Prop := B ##ₘ F /\ heap_rep h (B ∪ F).

Lemma framed_lookup F h B p n : framed_rep F h B -> B !! p = Some n -> (B ∪ F) !! p = Some n.
Proof. intros _ HB. by apply lookup_union_Some_l. Qed.

#[refine] Definition framed_spec (F : gmap Z Z) : KmallocSpec H := {| heap_rep := framed_rep F |}.
Proof.
  - intros h B p n R HB. eapply heap_rep_range; [apply R|]. by eapply framed_lookup.
  - intros h B p n q m R Hp Hq. eapply heap_rep_disjoint; [apply R|by eapply framed_lookup..].
  - intros h B sz [D R] Hsz. destruct (kmalloc_spec h _ sz R Hsz) as [(h' & E & R')|(p & h' & E & Hp & HB & R')].
    + left. exists h'. done.
    + right. exists p, h'. apply lookup_union_None in HB as [HB HF].
      split; [done|]. split; [done|]. split; [done|]. split; [by apply map_disjoint_insert_l_2|].
      by rewrite <- insert_union_l.
  - intros h B p n [D R] HB. destruct (kfree_spec h _ p n R) as (h' & E & R'); [by apply lookup_union_Some_l|].
    exists h'. split; [done|]. split; [by apply map_disjoint_delete_l|].
    rewrite delete_union, (delete_id F) in R'; [done|]. by eapply map_disjoint_Some_l.
  - intros h B [D R]. by eapply kfree_null.
Defined.

Lemma framed_move F h B p n :
  framed_rep F h (<[p := n]> B) -> B !! p = None -> framed_rep (<[p := n]> F) h B.
Proof.
  intros [D R] HB. apply map_disjoint_insert_l in D as [HF D]. split.
  - by apply map_disjoint_insert_r.
  - rewrite <- insert_union_r, insert_union_l by done. done.
Qed.

Lemma framed_unmove F h B p n :
  framed_rep F h B -> F !! p = Some n -> framed_rep (delete p F) h (<[p := n]> B).
Proof.
  intros [D R] HF. assert (HB : B !! p = None) by (by eapply map_disjoint_Some_r). split.
  - apply map_disjoint_insert_l. split; [apply lookup_delete_eq|]. by apply map_disjoint_delete_r.
  - rewrite <- insert_union_l, insert_union_r by done. by rewrite insert_delete_id.
Qed.

End framed.
