(* ===== verification/Array.v ===== *)
(** * Resizable arrays of pointers: kern/lib/array.c

    The [struct array] with the words of its block [v]; a word is [None] until
    it is first written.  The operations run on the heap and one array.  The
    theorems show that the array implements a list: see [contents]. *)

From S2P Require Import Prelude Kmalloc.

Module Array.

Record array (V : Type) := mkarray {
  self : Z;                  (* address of the structure *)
  num : Z;
  max : Z;
  v : Z;                     (* address of the block, 0 for NULL *)
  vdata : list (option V);   (* words of that block *)
}.
Arguments mkarray {V} _ _ _ _ _.
Arguments self {V} _.
Arguments num {V} _.
Arguments max {V} _.
Arguments v {V} _.
Arguments vdata {V} _.

Definition sizeof_array : Z := 12.
Definition sizeof_ptr : Z := 4.

Section ops.
Context {H V : Type} `{!Kmalloc H}.

Abbreviation AM := (M (H * array V)).

Definition set_num (n : Z) (a : array V) : array V :=
  mkarray (self a) n (max a) (v a) (vdata a).
Definition set_data (d : list (option V)) (a : array V) : array V :=
  mkarray (self a) (num a) (max a) (v a) d.

Definition getA {A} (f : array V -> A) : AM A := gets (fun s => f s.2).
Definition modA (f : array V -> array V) : AM unit := modify (fun s => (s.1, f s.2)).

(** A fresh block of [n] words, none of them written. *)
Definition uninit (n : Z) : list (option V) := replicate (Z.to_nat n) None.

(** [array_create]: [None] when out of memory. *)
Definition array_create : M H (option (array V)) :=
  a ← kmalloc sizeof_array;
  if decide (a = 0) then mret None
  else mret (Some (mkarray a 0 0 0 [])).

Definition array_getnum : AM Z := getA num.

Definition array_getguy (index : Z) : AM (option V) :=
  a ← getA id;
  kassert (bool_decide (num a <= max a)) ;;
  kassert (bool_decide (0 <= index /\ index < num a)) ;;
  access (zlookup (vdata a) index).

(** [while (nguys > newmax) newmax = (newmax+1)*2;] *)
Fixpoint grow_max (fuel : nat) (nguys newmax : Z) : option Z :=
  if decide (nguys > newmax) then
    match fuel with
    | O => None
    | S f => grow_max f nguys (s32 (s32 (newmax + 1) * 2))
    end
  else Some newmax.

(** [for (i=0; i<num; i++) newv[i] = oldv[i];] *)
Fixpoint copy_words (n : nat) (i : Z) (src dst : list (option V)) : option (list (option V)) :=
  match n with
  | O => Some dst
  | S n' => w ← zlookup src i; dst' ← zinsert dst i w; copy_words n' (i + 1) src dst'
  end.

(** The growth loop doubles, so 32 rounds exhaust the 32-bit range. *)
Definition grow_fuel : nat := 32.

Definition array_preallocate (nguys : Z) : AM unit :=
  a ← getA id;
  kassert (bool_decide (0 <= num a /\ num a <= max a)) ;;
  newmax ← match grow_max grow_fuel nguys (max a) with
           | Some m => mret m | None => nofuel end;
  newv ← zoom heapL (kmalloc (u32 (newmax * sizeof_ptr)));
  if decide (newv = 0) then fail ENOMEM
  else
    d ← access (copy_words (Z.to_nat (num a)) 0 (vdata a) (uninit newmax));
    (if decide (v a <> 0) then zoom heapL (kfree (v a)) else mret tt) ;;
    modA (fun a => mkarray (self a) (num a) newmax newv d).

Definition array_setsize (nguys : Z) : AM unit :=
  a ← getA id;
  kassert (bool_decide (0 <= num a /\ num a <= max a)) ;;
  (if decide (nguys > max a) then array_preallocate nguys
   else if decide (nguys = 0 /\ max a > 16) then
     kassert (bool_decide (v a <> 0)) ;;
     zoom heapL (kfree (v a)) ;;
     modA (fun a => mkarray (self a) (num a) 0 0 [])
   else mret tt) ;;
  modA (set_num nguys).

Definition array_setguy (index : Z) (ptr : V) : AM unit :=
  a ← getA id;
  kassert (bool_decide (num a <= max a)) ;;
  kassert (bool_decide (0 <= index /\ index < num a)) ;;
  d ← access (zinsert (vdata a) index (Some ptr));
  modA (set_data d).

Definition array_add (guy : V) : AM unit :=
  ix ← getA num;
  array_setsize (s32 (ix + 1)) ;;
  a ← getA id;
  d ← access (zinsert (vdata a) ix (Some guy));
  modA (set_data d).

(** [memmove(v+index, v+index+1, nmove words)]: the destination is
    below the source, so the words are copied upwards. *)
Fixpoint move_down (n : nat) (i : Z) (d : list (option V)) : option (list (option V)) :=
  match n with
  | O => Some d
  | S n' => w ← zlookup d (i + 1); d' ← zinsert d i w; move_down n' (i + 1) d'
  end.

Definition array_remove (index : Z) : AM unit :=
  a ← getA id;
  kassert (bool_decide (num a <= max a)) ;;
  kassert (bool_decide (0 <= index /\ index < num a)) ;;
  let nmove := num a - (index + 1) in
  d ← access (move_down (Z.to_nat nmove) index (vdata a));
  modA (fun a => set_num (num a - 1) (set_data d a)).

Definition array_destroy : AM unit :=
  a ← getA id;
  (if decide (v a <> 0) then zoom heapL (kfree (v a)) else mret tt) ;;
  zoom heapL (kfree (self a)).

End ops.

(** ** Abstraction and invariant *)

(** The calls a client can make on an array, and their meaning on lists. *)
Inductive aop (V : Type) :=
  | OAdd (guy : V)
  | ORemove (index : Z)
  | OSetguy (index : Z) (ptr : V)
  | OSetsize (nguys : Z)
  | OPreallocate (nguys : Z).
Arguments OAdd {V} _.
Arguments ORemove {V} _.
Arguments OSetguy {V} _ _.
Arguments OSetsize {V} _.
Arguments OPreallocate {V} _.

Definition run_op {H V} `{!Kmalloc H} (o : aop V) : M (H * array V) unit :=
  match o with
  | OAdd g => array_add g
  | ORemove i => array_remove i
  | OSetguy i p => array_setguy i p
  | OSetsize n => array_setsize n
  | OPreallocate n => array_preallocate n
  end.

(** The list the array stands for. *)
Definition contents {V} (a : array V) : list (option V) :=
  take (Z.to_nat (num a)) (vdata a).

(** Largest element count considered: the sizes computed from it stay in
    32 bits. *)
Definition MAXGUYS : Z := 2 ^ 28.

(** Calls within the contract: indices in range, counts that fit. *)
Definition spec_ok {V} (l : list (option V)) (o : aop V) : Prop :=
  match o with
  | OAdd _ => Z.of_nat (length l) < MAXGUYS
  | ORemove i | OSetguy i _ => 0 <= i < Z.of_nat (length l)
  | OSetsize n => 0 <= n <= MAXGUYS
  | OPreallocate n => n <= MAXGUYS
  end.

(** What a successful call does to the list; growing with [array_setsize]
    leaves the new elements unspecified. *)
Definition spec_step {V} (l : list (option V)) (o : aop V) (l' : list (option V)) : Prop :=
  match o with
  | OAdd g => l' = l ++ [Some g]
  | ORemove i => l' = delete (Z.to_nat i) l
  | OSetguy i p => l' = <[Z.to_nat i := Some p]> l
  | OSetsize n => length l' = Z.to_nat n /\
      forall j, (j < Z.to_nat n)%nat -> (j < length l)%nat -> l' !! j = l !! j
  | OPreallocate _ => l' = l
  end.

Record wf {V} (a : array V) : Prop := {
  wf_num : 0 <= num a <= max a;
  wf_max : max a <= 2 * MAXGUYS;
  wf_len : Z.of_nat (length (vdata a)) = max a;
  wf_null : v a = 0 -> max a = 0;
}.

(** The blocks of the array among the live blocks [B] of the heap. *)
Record owned {V} (B : gmap Z Z) (a : array V) : Prop := {
  own_self : B !! self a = Some sizeof_array;
  own_v : v a <> 0 -> B !! v a = Some (max a * sizeof_ptr);
  own_ne : v a <> self a;
}.

(** The live blocks once the block of [a] is accounted for. *)
Definition add_block {V} (a : array V) (B : gmap Z Z) : gmap Z Z :=
  if decide (v a = 0) then B else <[v a := max a * sizeof_ptr]> B.

(** An operation took the array [a] to [a'] and the live blocks [B] to [B'],
    keeping the invariant and releasing exactly the block it replaced. *)
Record evolves {V} (B : gmap Z Z) (a : array V) (B' : gmap Z Z) (a' : array V) : Prop := {
  ev_wf : wf a';
  ev_own : owned B' a';
  ev_self : self a' = self a;
  ev_blocks : B' = add_block a' (delete (v a) B);
  ev_fresh : v a' = v a \/ v a' = 0 \/ B !! v a' = None;
}.

(** ** Loops *)

Lemma grow_max_enough fuel nguys newmax :
  0 <= newmax <= 2 * MAXGUYS -> nguys <= MAXGUYS ->
  nguys <= (newmax + 2) * 2 ^ Z.of_nat fuel - 2 ->
  exists m, grow_max fuel nguys newmax = Some m /\ nguys <= m /\ newmax <= m /\
    m <= 2 * MAXGUYS.
Proof.
  unfold MAXGUYS. revert newmax. induction fuel as [|f IH]; intros newmax Hn Hg Hf; simpl.
  - rewrite decide_False by lia. exists newmax. split; [done|lia].
  - destruct (decide (nguys > newmax)).
    + rewrite (s32_small (newmax + 1)), s32_small by lia.
      destruct (IH ((newmax + 1) * 2)) as (m & -> & ? & ? & ?); [lia..| |].
      * rewrite Nat2Z.inj_succ, Z.pow_succ_r in Hf by lia. nia.
      * exists m. split; [done|]. lia.
    + exists newmax. split; [done|]. lia.
Qed.

Lemma copy_words_lookup {V} n i (src dst : list (option V)) :
  0 <= i -> i + Z.of_nat n <= Z.of_nat (length src) ->
  i + Z.of_nat n <= Z.of_nat (length dst) ->
  exists l, copy_words n i src dst = Some l /\ length l = length dst /\
    forall j, l !! j = if decide (i <= Z.of_nat j < i + Z.of_nat n) then src !! j else dst !! j.
Proof.
  revert i dst. induction n as [|n IH]; intros i dst Hi Hs Hd; simpl.
  - exists dst. split_and!; try done. intros j. by rewrite decide_False by lia.
  - destruct (zlookup_lt src i) as [w Hw]; [lia|]. rewrite Hw. simpl.
    rewrite zinsert_in by lia. simpl.
    destruct (IH (i + 1) (<[Z.to_nat i := w]> dst)) as (l & -> & Hl & Hj);
      [lia | lia | rewrite length_insert; lia |].
    exists l. rewrite length_insert in Hl. split_and!; [done | done |].
    apply zlookup_Some in Hw as [_ Hw].
    intros j. rewrite Hj, list_lookup_insert. repeat case_decide; try lia; try done.
    destruct_and?. replace (Z.to_nat i) with j in Hw by lia. by rewrite Hw.
Qed.

Lemma move_down_lookup {V} n i (d : list (option V)) :
  0 <= i -> i + Z.of_nat n < Z.of_nat (length d) ->
  exists l, move_down n i d = Some l /\ length l = length d /\
    forall j, l !! j = if decide (i <= Z.of_nat j < i + Z.of_nat n) then d !! S j else d !! j.
Proof.
  revert i d. induction n as [|n IH]; intros i d Hi Hd; simpl.
  - exists d. split_and!; try done. intros j. by rewrite decide_False by lia.
  - destruct (zlookup_lt d (i + 1)) as [w Hw]; [lia|]. rewrite Hw. simpl.
    rewrite zinsert_in by lia. simpl.
    destruct (IH (i + 1) (<[Z.to_nat i := w]> d)) as (l & -> & Hl & Hj);
      [lia | rewrite length_insert; lia |].
    exists l. rewrite length_insert in Hl. split_and!; [done | done |].
    apply zlookup_Some in Hw as [_ Hw].
    intros j. rewrite Hj, !list_lookup_insert. repeat case_decide; try lia; try done.
    destruct_and?. replace (S j) with (Z.to_nat (i + 1)) by lia. done.
Qed.

#[global] Arguments grow_max : simpl never.
#[global] Arguments copy_words : simpl never.
#[global] Arguments move_down : simpl never.

(** ** Operations *)

Section spec.
Context {H V : Type} `{!Kmalloc H} `{!KmallocSpec H}.
Implicit Types (a : array V) (h : H) (B : gmap Z Z).

Lemma heap_rep_null h B : heap_rep h B -> B !! 0 = None.
Proof.
  intros Hr. destruct (B !! 0) eqn:E; [|done].
  apply (heap_rep_range h) in E; [lia | done].
Qed.

(** Data changes inside the block, which keep [v] and [max]. *)
Lemma evolves_same_block h B a a' :
  heap_rep h B -> owned B a -> wf a' -> self a' = self a -> v a' = v a -> max a' = max a ->
  evolves B a B a'.
Proof.
  intros Hr [Hs Hv Hne] Hwf Es Ev Em. split; [done | | done | | by left].
  - split; rewrite ?Es, ?Ev, ?Em; auto.
  - unfold add_block. rewrite Ev, Em. case_decide as Hz.
    + rewrite Hz. symmetry. apply delete_id, (heap_rep_null h); done.
    + rewrite insert_delete_eq, insert_id; auto.
Qed.

(** Replacing the block by a fresh one at [p]. *)
Lemma evolves_new_block h B a a' :
  heap_rep h B -> owned B a -> wf a' -> self a' = self a -> v a' <> 0 -> B !! v a' = None ->
  evolves B a (add_block a' (delete (v a) B)) a'.
Proof.
  intros Hr [Hs Hv Hne] Hwf Es Hnz Hfresh. split; [done | | done | done | by right; right].
  unfold add_block. rewrite decide_False by done.
  split; rewrite ?Es.
  - rewrite lookup_insert_ne, lookup_delete_ne; congruence.
  - intros _. apply lookup_insert_eq.
  - congruence.
Qed.

Lemma array_preallocate_spec h B a nguys :
  heap_rep h B -> wf a -> owned B a -> nguys <= MAXGUYS ->
  (exists h', array_preallocate nguys (h, a) = Fail ENOMEM (h', a) /\ heap_rep h' B) \/
  (exists h' B' a', array_preallocate nguys (h, a) = Done tt (h', a') /\
     heap_rep h' B' /\ evolves B a B' a' /\ contents a' = contents a /\
     num a' = num a /\ nguys <= max a' /\ max a <= max a').
Proof.
  intros Hr Hwf Hown Hn. pose proof Hwf as [Hnum Hmax Hlen Hnull].
  destruct (grow_max_enough grow_fuel nguys (max a)) as (m & Hm & Hnm & Hmm & Hm2);
    [unfold MAXGUYS in *; lia | done | unfold grow_fuel, MAXGUYS in *; simpl Z.of_nat; nia |].
  assert (Hsz : u32 (m * sizeof_ptr) = m * sizeof_ptr).
  { unfold sizeof_ptr, MAXGUYS in *. apply u32_small. lia. }
  unfold array_preallocate, getA, modA. munfold.
  rewrite bool_decide_eq_true_2 by (simpl; lia). simpl. rewrite Hm, Hsz.
  unfold zoom. simpl.
  destruct (kmalloc_spec h B (m * sizeof_ptr)) as [(h' & -> & Hr')|(p & h' & -> & Hp & Hfresh & Hr')].
  { done. } { unfold sizeof_ptr, KMALLOC_MAX, MAXGUYS in *. lia. }
  { left. exists h'. done. }
  right. simpl. rewrite decide_False by done.
  destruct (copy_words_lookup (Z.to_nat (num a)) 0 (vdata a) (uninit m)) as (d & -> & Hdl & Hd);
    [lia | lia | unfold uninit; rewrite length_replicate; lia |].
  unfold uninit in Hdl. rewrite length_replicate in Hdl.
  set (a' := mkarray (self a) (num a) m p d).
  assert (Hwf' : wf a'). { split; simpl; try lia; unfold MAXGUYS in *; lia. }
  assert (Hc : contents a' = contents a).
  { unfold contents. simpl. apply list_eq. intros j. rewrite !lookup_take, Hd.
    case_decide; [|done]. by rewrite decide_True by lia. }
  assert (Hev : evolves B a (add_block a' (delete (v a) B)) a') by (by eapply evolves_new_block).
  assert (HB : delete (v a) (<[p := m * sizeof_ptr]> B) = add_block a' (delete (v a) B)
               \/ v a = 0).
  { destruct (decide (v a = 0)); [by right | left]. unfold add_block. rewrite decide_False by done.
    apply delete_insert_ne. intros E. simpl in E. rewrite <- E in Hfresh. by rewrite (own_v _ _ Hown) in Hfresh. }
  destruct (decide (v a <> 0)) as [Hva|Hva].
  - destruct HB as [HB|]; [|done].
    destruct (kfree_spec h' (<[p := m * sizeof_ptr]> B) (v a) (max a * sizeof_ptr)) as (h'' & Hf & Hr'').
    { done. } { rewrite lookup_insert_ne; [by apply own_v | intros ->]. by rewrite (own_v _ _ Hown) in Hfresh. }
    simpl. rewrite Hf. rewrite HB in Hr''. eexists h'', _, a'. split_and!; done || lia.
  - apply dec_stable in Hva. eexists h', _, a'. split; [done|].
    split; [|split_and!; done || lia].
    unfold add_block. rewrite decide_False by done.
    by rewrite Hva, delete_id by (by eapply heap_rep_null).
Qed.

Lemma array_setsize_spec h B a nguys :
  heap_rep h B -> wf a -> owned B a -> 0 <= nguys <= MAXGUYS ->
  (exists h', max a < nguys /\ array_setsize nguys (h, a) = Fail ENOMEM (h', a) /\ heap_rep h' B) \/
  (exists h' B' a', array_setsize nguys (h, a) = Done tt (h', a') /\
     heap_rep h' B' /\ evolves B a B' a' /\ num a' = nguys /\ (nguys <> 0 -> max a <= max a') /\
     (nguys <= max a -> h' = h \/ nguys = 0) /\
     forall j, (j < Z.to_nat nguys)%nat -> (j < Z.to_nat (num a))%nat ->
       vdata a' !! j = vdata a !! j).
Proof.
  intros Hr Hwf Hown Hn. pose proof Hwf as [Hnum Hmax Hlen Hnull].
  unfold array_setsize. munfold. unfold getA at 1, gets. simpl.
  rewrite bool_decide_eq_true_2 by lia.
  destruct (decide (nguys > max a)) as [Hgt|Hle].
  - destruct (array_preallocate_spec h B a nguys) as
      [(h' & -> & Hr')|(h' & B' & a' & -> & Hr' & Hev & Hc & Hna & Hle & Hma)]; try done; [lia|..].
    { left. exists h'. split_and!; [lia | done..]. }
    right. simpl. eexists h', B', _. split_and!; [done | done | | done | simpl; lia | lia |].
    + destruct Hev as [Hw Ho Hs Hb Hfr]. split; [| | done | done | done].
      * destruct Hw. split; simpl; lia.
      * destruct Ho. by split.
    + intros j Hj1 Hj2. simpl.
      assert (E : contents a' !! j = contents a !! j) by (by rewrite Hc).
      unfold contents in E. rewrite Hna, !lookup_take_lt in E by done. done.
  - right. destruct (decide (nguys = 0 /\ max a > 16)) as [[-> H16]|Hno].
    + assert (Hva : v a <> 0) by (intros ?%Hnull; lia).
      rewrite bool_decide_eq_true_2 by done. unfold zoom. simpl.
      destruct (kfree_spec h B (v a) (max a * sizeof_ptr)) as (h' & -> & Hr'); [done | by apply own_v |].
      eexists h', _, _. split_and!; [done | exact Hr' | | done | lia | by right | intros; simpl in *; lia].
      destruct Hown as [Hs Hv Hne].
      split; simpl; [| | done | by unfold add_block; simpl | by right; left].
      * split; simpl; unfold MAXGUYS; lia.
      * split; simpl; [| done |].
        -- by rewrite lookup_delete_ne.
        -- intros E. rewrite <- E in Hs. by rewrite (heap_rep_null h B) in Hs.
    + eexists h, B, _. split_and!; [done | done | | done | simpl; lia | by left | done].
      eapply evolves_same_block; try done. split; simpl; lia.
Qed.

Lemma contents_length a : wf a -> length (contents a) = Z.to_nat (num a).
Proof. intros [? ? ? ?]. unfold contents. rewrite length_take. lia. Qed.

Lemma zinsert_wf a i x :
  wf a -> 0 <= i < max a -> zinsert (vdata a) i x = Some (<[Z.to_nat i := x]> (vdata a)).
Proof. intros [? ? ? ?] ?. apply zinsert_in. lia. Qed.

Lemma array_add_spec h B a guy :
  heap_rep h B -> wf a -> owned B a -> num a < MAXGUYS ->
  (exists h', max a <= num a /\ array_add guy (h, a) = Fail ENOMEM (h', a) /\ heap_rep h' B) \/
  (exists h' B' a', array_add guy (h, a) = Done tt (h', a') /\
     heap_rep h' B' /\ evolves B a B' a' /\ (num a < max a -> h' = h) /\
     contents a' = contents a ++ [Some guy] /\ max a <= max a').
Proof.
  intros Hr Hwf Hown Hn. pose proof Hwf as [Hnum Hmax Hlen Hnull].
  unfold array_add. munfold. unfold getA at 1, gets. simpl.
  rewrite s32_small by (unfold MAXGUYS in *; lia).
  destruct (array_setsize_spec h B a (num a + 1)) as
    [(h' & Hlt & -> & Hr')|(h' & B' & a' & -> & Hr' & Hev & Hna & Hmx & Hh & Hd)]; try done; [lia| |].
  { left. exists h'. split_and!; [lia | done..]. }
  right. simpl. pose proof Hev as [Hw Ho Hs Hb Hfr]. pose proof Hw as [Hnum' Hmax' Hlen' Hnull'].
  unfold getA, gets. simpl. rewrite zinsert_wf by (done || lia).
  eexists h', B', _. split_and!; [done | done | | intros; destruct Hh; [lia | done | lia] | | simpl; apply Hmx; lia].
  - split; simpl; [| | done | done | done].
    + split; simpl; rewrite ?length_insert; lia.
    + destruct Ho. by split.
  - unfold contents, set_data. simpl. rewrite Hna.
    replace (Z.to_nat (num a + 1)) with (S (Z.to_nat (num a))) by lia.
    rewrite (take_S_r _ _ (Some guy)) by (apply list_lookup_insert_eq; lia).
    f_equal. rewrite take_insert_ge by lia.
    apply list_eq. intros j. rewrite !lookup_take. case_decide; [|done]. apply Hd; lia.
Qed.

Lemma array_remove_spec h B a index :
  heap_rep h B -> wf a -> owned B a -> 0 <= index < num a ->
  exists a', array_remove index (h, a) = Done tt (h, a') /\ evolves B a B a' /\
    contents a' = delete (Z.to_nat index) (contents a) /\ max a' = max a.
Proof.
  intros Hr Hwf Hown Hi. pose proof Hwf as [Hnum Hmax Hlen Hnull].
  unfold array_remove, getA, modA. munfold. simpl.
  rewrite (bool_decide_eq_true_2 (num a <= max a)), bool_decide_eq_true_2 by lia.
  destruct (move_down_lookup (Z.to_nat (num a - (index + 1))) index (vdata a)) as (d & -> & Hdl & Hd);
    [lia..|].
  eexists. split; [done|]. split.
  - eapply evolves_same_block; try done. split; simpl; lia.
  - unfold contents. simpl. split; [|done]. apply list_eq. intros j.
    rewrite list_lookup_delete, !lookup_take, Hd.
    repeat case_decide; try lia; done.
Qed.

Lemma array_setguy_spec h B a index ptr :
  heap_rep h B -> wf a -> owned B a -> 0 <= index < num a ->
  exists a', array_setguy index ptr (h, a) = Done tt (h, a') /\ evolves B a B a' /\
    contents a' = <[Z.to_nat index := Some ptr]> (contents a).
Proof.
  intros Hr Hwf Hown Hi. pose proof Hwf as [Hnum Hmax Hlen Hnull].
  unfold array_setguy, getA, modA. munfold. simpl.
  rewrite (bool_decide_eq_true_2 (num a <= max a)), bool_decide_eq_true_2 by lia.
  rewrite zinsert_wf by (done || lia). eexists. split; [done|]. split.
  - eapply evolves_same_block; try done. split; simpl; rewrite ?length_insert; lia.
  - unfold contents, set_data. simpl. apply take_insert_lt. lia.
Qed.

(** C36: The array implements the list: from a well-formed array, a call within the
    contract either returns ENOMEM with the array untouched and no block
    gained or lost, or does to the list what [spec_step] says, keeping the
    invariant and the heap blocks in order. *)
Theorem array_refines_list h B a o :
  heap_rep h B -> wf a -> owned B a -> spec_ok (contents a) o ->
  (exists h', run_op o (h, a) = Fail ENOMEM (h', a) /\ heap_rep h' B) \/
  (exists h' B' a', run_op o (h, a) = Done tt (h', a') /\ heap_rep h' B' /\
     evolves B a B' a' /\ spec_step (contents a) o (contents a')).
Proof.
  intros Hr Hwf Hown Hok. pose proof (contents_length a Hwf) as Hcl.
  pose proof (wf_num a Hwf). destruct o as [g|i|i p|n|n]; simpl in *; rewrite ?Hcl in Hok.
  - destruct (array_add_spec h B a g) as [?|?]; [done..|lia| |]; naive_solver.
  - destruct (array_remove_spec h B a i) as (? & ? & ? & ? & _); [done..|lia|]. naive_solver.
  - destruct (array_setguy_spec h B a i p) as (? & ? & ? & ?); [done..|lia|]. naive_solver.
  - destruct (array_setsize_spec h B a n) as [?|(h' & B' & a' & ? & ? & Hev & Hna & _ & _ & Hd)];
      [done..|naive_solver|].
    right. exists h', B', a'. split_and!; try done.
    + rewrite contents_length by apply Hev. by rewrite Hna.
    + intros j Hj1 Hj2. unfold contents. rewrite Hna, !lookup_take_lt by lia. apply Hd; lia.
  - destruct (array_preallocate_spec h B a n) as [?|?]; [done..|by left|]. right. naive_solver.
Qed.

(** [array_getguy] reads the list, and the three indexed calls panic exactly
    outside it. *)
Theorem array_index_bounds h a index :
  wf a ->
  (0 <= index < num a ->
     exists x, array_getguy index (h, a) = Done x (h, a) /\ contents a !! Z.to_nat index = Some x) /\
  (~ (0 <= index < num a) ->
     array_getguy index (h, a) = Panic /\ array_remove index (h, a) = Panic /\
     forall p, array_setguy index p (h, a) = Panic).
Proof.
  intros [Hnum Hmax Hlen Hnull]. split; intros Hi.
  - unfold array_getguy, getA. munfold. simpl.
    rewrite (bool_decide_eq_true_2 (num a <= max a)), bool_decide_eq_true_2 by lia.
    destruct (zlookup_lt (vdata a) index) as [x Hx]; [lia|]. rewrite Hx.
    apply zlookup_Some in Hx as [_ Hx]. exists x. split; [done|].
    unfold contents. rewrite lookup_take_lt by lia. done.
  - unfold array_getguy, array_remove, array_setguy, getA. munfold. simpl.
    rewrite (bool_decide_eq_true_2 (num a <= max a)), bool_decide_eq_false_2 by lia. done.
Qed.

(** Room obtained in advance is enough: while the element count is below the
    allocated maximum, [array_add] succeeds and does not touch the heap. *)
Theorem array_add_preallocated h B a guy :
  heap_rep h B -> wf a -> owned B a -> num a < max a -> num a < MAXGUYS ->
  exists a', array_add guy (h, a) = Done tt (h, a') /\ wf a' /\
    contents a' = contents a ++ [Some guy].
Proof.
  intros Hr Hwf Hown Hlt Hmx.
  destruct (array_add_spec h B a guy) as [(? & ? & _)|(h' & B' & a' & Ha & ? & Hev & Hh & ? & _)];
    try done; [lia|].
  rewrite Hh in Ha by done. exists a'. split_and!; [done | apply Hev | done].
Qed.

(** An array that was created and destroyed leaves the heap blocks as they
    were. *)
Theorem array_create_destroy h B :
  heap_rep h B ->
  (exists h', array_create (V := V) h = Done None h' /\ heap_rep h' B) \/
  (exists h' B' a, array_create h = Done (Some a) h' /\ heap_rep h' B' /\
     wf (V := V) a /\ owned B' a /\ contents a = [] /\
     exists h'', array_destroy (h', a) = Done tt (h'', a) /\ heap_rep h'' B).
Proof.
  intros Hr. unfold array_create. munfold.
  destruct (kmalloc_spec h B sizeof_array) as [(h' & -> & Hr')|(p & h' & -> & Hp & Hf & Hr')];
    [done | unfold sizeof_array, KMALLOC_MAX; lia | by left; exists h' |].
  right. rewrite decide_False by done. eexists h', _, _. split; [done|]. split; [exact Hr'|].
  split_and!.
  - split; simpl; unfold MAXGUYS; try done; lia.
  - split; simpl; [apply lookup_insert_eq | done | done].
  - done.
  - unfold array_destroy, getA. munfold. unfold zoom. simpl.
    destruct (kfree_spec h' (<[p := sizeof_array]> B) p sizeof_array) as (h'' & -> & Hr'');
      [done | apply lookup_insert_eq |].
    exists h''. split; [done|]. by rewrite delete_insert_id in Hr''.
Qed.

End spec.

End Array.
