(* ===== verification/Queue.v ===== *)
(** * Ring-buffer queues of pointers: kern/lib/queue.c

    The [struct queue] with the words of its ring.  [q_addtail] and [q_grow]
    call each other; the recursion is bounded because the ring [q_grow] fills
    is larger than what it puts there.  The theorems show that the ring
    implements a first-in first-out list: see [qcontents]. *)

From S2P Require Import Prelude Kmalloc.

Module Queue.

Record queue (V : Type) := mkqueue {
  qself : Z;
  size : Z;
  nextwrite : Z;
  nextread : Z;
  data : Z;
  qdata : list (option V);
}.
Arguments mkqueue {V} _ _ _ _ _ _.
Arguments qself {V} _.
Arguments size {V} _.
Arguments nextwrite {V} _.
Arguments nextread {V} _.
Arguments data {V} _.
Arguments qdata {V} _.

Definition sizeof_queue : Z := 16.
Definition sizeof_word : Z := 4.

Section ops.
Context {H V : Type} `{!Kmalloc H}.

Abbreviation QM := (M (H * queue V)).

Definition getQ {A} (f : queue V -> A) : QM A := gets (fun s => f s.2).
Definition modQ (f : queue V -> queue V) : QM unit := modify (fun s => (s.1, f s.2)).

Definition q_empty : QM bool := getQ (fun q => bool_decide (nextwrite q = nextread q)).

(** [while (nsize < targetsize) { nsize *= 2; assert(nsize > 0); }] *)
Fixpoint grow_size (fuel : nat) (targetsize nsize : Z) : QM Z :=
  if decide (nsize < targetsize) then
    match fuel with
    | O => nofuel
    | S f =>
        let nsize' := s32 (nsize * 2) in
        kassert (bool_decide (nsize' > 0)) ;;
        grow_size f targetsize nsize'
    end
  else mret nsize.

(** [for (i=onr; i!=onw; i = (i+1)%osize) { q_addtail(q, olddata[i]); ... }] *)
Fixpoint move_loop (fuel : nat) (addtail : option V -> QM unit)
    (osize onw : Z) (olddata : list (option V)) (i : Z) : QM unit :=
  if decide (i = onw) then mret tt
  else
    match fuel with
    | O => nofuel
    | S f =>
        w ← access (zlookup olddata i);
        r ← attempt (addtail w);
        kassert (match r with inl _ => false | inr _ => true end) ;;
        move_loop f addtail osize onw olddata ((i + 1) mod osize)
    end.

Definition grow_fuel : nat := 32.

(** [q_grow], with the [q_addtail] it calls as an argument. *)
Definition q_grow_with (addtail : option V -> QM unit) (targetsize : Z) : QM unit :=
  q ← getQ id;
  nsize ← grow_size grow_fuel targetsize (size q);
  ndata ← zoom heapL (kmalloc (u32 (nsize * sizeof_word)));
  if decide (ndata = 0) then fail ENOMEM
  else
    modQ (fun q => mkqueue (qself q) nsize 0 0 ndata (replicate (Z.to_nat nsize) None)) ;;
    move_loop (Z.to_nat (size q)) addtail (size q) (nextwrite q) (qdata q) (nextread q) ;;
    zoom heapL (kfree (data q)).

Fixpoint q_addtail_depth (depth : nat) (ptr : option V) : QM unit :=
  q0 ← getQ id;
  kassert (bool_decide (size q0 > 0)) ;;
  let nextnext := (nextwrite q0 + 1) mod size q0 in
  (if decide (nextnext = nextread q0) then
     match depth with
     | O => nofuel
     | S d => q_grow_with (q_addtail_depth d) (s32 (size q0 + 1))
     end
   else mret tt) ;;
  q ← getQ id;
  let nextnext := (nextwrite q + 1) mod size q in
  d ← access (zinsert (qdata q) (nextwrite q) ptr);
  modQ (fun q => mkqueue (qself q) (size q) nextnext (nextread q) (data q) d).

Definition q_addtail (ptr : V) : QM unit := q_addtail_depth 2 (Some ptr).
Definition q_grow (targetsize : Z) : QM unit := q_grow_with (q_addtail_depth 1) targetsize.

(** [q_create]: [None] when out of memory. *)
Definition q_create (sz : Z) : M H (option (queue V)) :=
  q ← kmalloc sizeof_queue;
  if decide (q = 0) then mret None
  else
    d ← kmalloc (u32 (sz * sizeof_word));
    if decide (d = 0) then kfree q ;; mret None
    else mret (Some (mkqueue q sz 0 0 d (replicate (Z.to_nat sz) None))).

Definition q_preallocate (sz : Z) : QM unit :=
  q ← getQ id;
  kassert (bool_decide (size q > 0)) ;;
  if decide (sz > size q) then q_grow sz else mret tt.

Definition q_remhead : QM (option V) :=
  q ← getQ id;
  kassert (bool_decide (size q > 0)) ;;
  e ← q_empty;
  kassert (negb e) ;;
  ret ← access (zlookup (qdata q) (nextread q));
  modQ (fun q => mkqueue (qself q) (size q) (nextwrite q) ((nextread q + 1) mod size q)
                   (data q) (qdata q)) ;;
  mret ret.

Definition q_destroy : QM unit :=
  e ← q_empty;
  kassert e ;;
  q ← getQ id;
  zoom heapL (kfree (data q)) ;;
  zoom heapL (kfree (qself q)).

Definition q_getstart : QM Z := getQ nextread.
Definition q_getend : QM Z := getQ nextwrite.
Definition q_getsize : QM Z := getQ size.

Definition q_getguy (index : Z) : QM (option V) :=
  q ← getQ id;
  kassert (bool_decide (0 <= index /\ index < size q)) ;;
  access (zlookup (qdata q) index).

End ops.

(** ** Abstraction and invariant *)

(** The calls a client can make on a queue, with what they return. *)
Inductive qop (V : Type) :=
  | QAddtail (ptr : V)
  | QRemhead
  | QPreallocate (sz : Z).
Arguments QAddtail {V} _.
Arguments QRemhead {V}.
Arguments QPreallocate {V} _.

Definition run_qop {H V} `{!Kmalloc H} (o : qop V) : M (H * queue V) (option V) :=
  match o with
  | QAddtail p => q_addtail p ;; mret (Some p)
  | QRemhead => q_remhead
  | QPreallocate n => q_preallocate n ;; mret None
  end.

(** First-in first-out lists. *)
Definition fifo_step {V} (l : list (option V)) (o : qop V) (ret : option V)
    (l' : list (option V)) : Prop :=
  match o with
  | QAddtail p => l' = l ++ [Some p]
  | QRemhead => l = ret :: l'
  | QPreallocate _ => l' = l
  end.

(** [n] words of the ring from slot [i] on. *)
Fixpoint ring {V} (n : nat) (i sz : Z) (d : list (option V)) : list (option V) :=
  match n with
  | O => []
  | S n' => default None (zlookup d i) :: ring n' ((i + 1) mod sz) sz d
  end.

Definition qlen {V} (q : queue V) : Z := (nextwrite q - nextread q) mod size q.

(** The elements, head first. *)
Definition qcontents {V} (q : queue V) : list (option V) :=
  ring (Z.to_nat (qlen q)) (nextread q) (size q) (qdata q).

Definition MAXQ : Z := 2 ^ 28.

Record qwf {V} (q : queue V) : Prop := {
  qwf_size : 0 < size q <= 2 * MAXQ;
  qwf_r : 0 <= nextread q < size q;
  qwf_w : 0 <= nextwrite q < size q;
  qwf_len : Z.of_nat (length (qdata q)) = size q;
}.

Record qowned {V} (B : gmap Z Z) (q : queue V) : Prop := {
  qown_self : B !! qself q = Some sizeof_queue;
  qown_data : B !! data q = Some (size q * sizeof_word);
  qown_ne : data q <> qself q;
}.

Record qevolves {V} (B : gmap Z Z) (q : queue V) (B' : gmap Z Z) (q' : queue V) : Prop := {
  qev_wf : qwf q';
  qev_own : qowned B' q';
  qev_self : qself q' = qself q;
  qev_blocks : B' = <[data q' := size q' * sizeof_word]> (delete (data q) B);
  qev_fresh : data q' = data q \/ B !! data q' = None;
}.

(** ** The ring *)

Lemma ring_length {V} n i sz (d : list (option V)) : length (ring n i sz d) = n.
Proof. revert i. induction n; intros; simpl; auto. Qed.

Lemma ring_lookup {V} n i sz (d : list (option V)) k :
  0 <= i < sz -> (k < n)%nat ->
  ring n i sz d !! k = Some (default None (zlookup d ((i + Z.of_nat k) mod sz))).
Proof.
  revert i k. induction n as [|n IH]; intros i k Hi Hk; [lia|]. destruct k as [|k]; simpl.
  - rewrite Z.add_0_r, Z.mod_small by lia. done.
  - rewrite IH by (try lia; apply Z.mod_pos_bound; lia).
    rewrite Zplus_mod_idemp_l.
    by replace (i + 1 + Z.of_nat k) with (i + Z.of_nat (S k)) by lia.
Qed.

Lemma ring_snoc {V} n i sz (d : list (option V)) :
  0 <= i < sz ->
  ring (S n) i sz d = ring n i sz d ++ [default None (zlookup d ((i + Z.of_nat n) mod sz))].
Proof.
  revert i. induction n as [|n IH]; intros i Hi.
  - simpl. rewrite Z.add_0_r, Z.mod_small by lia. done.
  - change (ring (S (S n)) i sz d) with (default None (zlookup d i) :: ring (S n) ((i + 1) mod sz) sz d).
    rewrite IH by (apply Z.mod_pos_bound; lia). simpl. rewrite Zplus_mod_idemp_l.
    by replace (i + 1 + Z.of_nat n) with (i + Z.of_nat (S n)) by lia.
Qed.

Lemma mod_offset_inj sz i a b :
  0 < sz -> 0 <= a < sz -> 0 <= b < sz -> (i + a) mod sz = (i + b) mod sz -> a = b.
Proof.
  intros Hs Ha Hb E.
  assert (E' : (a - b) mod sz = 0).
  { replace (a - b) with ((i + a) - (i + b)) by lia. rewrite Zminus_mod, E, Z.sub_diag. done. }
  apply Z.mod_divide in E' as [k Hk]; [|lia].
  assert (k = 0 \/ k <= -1 \/ 1 <= k) as [->|[?|?]] by lia; nia.
Qed.

(** Writing the slot just past the occupied part leaves that part alone. *)
Lemma ring_insert_past {V} n i sz (d : list (option V)) w :
  0 <= i < sz -> Z.of_nat n < sz -> Z.of_nat (length d) = sz ->
  ring n i sz (<[Z.to_nat ((i + Z.of_nat n) mod sz) := w]> d) = ring n i sz d.
Proof.
  intros Hi Hn Hl. apply list_eq. intros k. destruct (decide (k < n)%nat).
  - rewrite !ring_lookup by done. f_equal. f_equal.
    pose proof (Z.mod_pos_bound (i + Z.of_nat k) sz).
    pose proof (Z.mod_pos_bound (i + Z.of_nat n) sz).
    unfold zlookup. rewrite !decide_True by lia. apply list_lookup_insert_ne.
    intros E. apply Z2Nat.inj in E; [|lia..].
    apply mod_offset_inj in E; lia.
  - rewrite !lookup_ge_None_2; rewrite ?ring_length; lia || done.
Qed.

Lemma nextwrite_offset {V} (q : queue V) :
  qwf q -> (nextread q + qlen q) mod size q = nextwrite q.
Proof.
  intros [Hs Hr Hw Hl]. unfold qlen. rewrite Zplus_mod_idemp_r.
  replace (nextread q + (nextwrite q - nextread q)) with (nextwrite q) by lia.
  apply Z.mod_small. lia.
Qed.

Lemma qlen_range {V} (q : queue V) : qwf q -> 0 <= qlen q < size q.
Proof. intros [Hs Hr Hw Hl]. unfold qlen. apply Z.mod_pos_bound. lia. Qed.

Lemma qcontents_length {V} (q : queue V) : qwf q -> Z.of_nat (length (qcontents q)) = qlen q.
Proof. intros Hq. unfold qcontents. rewrite ring_length. pose proof (qlen_range q Hq). lia. Qed.

(** The full test of [q_addtail] says that one slot is left. *)
Lemma full_iff {V} (q : queue V) :
  qwf q -> (nextwrite q + 1) mod size q = nextread q <-> qlen q + 1 = size q.
Proof.
  intros Hq. pose proof (qlen_range q Hq). pose proof Hq as [Hs Hr Hw Hl].
  rewrite <- (nextwrite_offset q Hq) at 1. rewrite Zplus_mod_idemp_l. split; intros E.
  - destruct (decide (qlen q + 1 = size q)) as [|Hne]; [done|].
    replace (nextread q + qlen q + 1) with (nextread q + (qlen q + 1)) in E by lia.
    assert (E' : (nextread q + (qlen q + 1)) mod size q = (nextread q + 0) mod size q)
      by (rewrite E, Z.add_0_r, Z.mod_small; lia).
    apply mod_offset_inj in E'; lia.
  - replace (nextread q + qlen q + 1) with (nextread q + 1 * size q) by lia.
    rewrite Z.mod_add by lia. apply Z.mod_small. lia.
Qed.

(** The queue after [w] was stored in a ring with room. *)
Definition pushed {V} (w : option V) (q : queue V) : queue V :=
  mkqueue (qself q) (size q) ((nextwrite q + 1) mod size q) (nextread q) (data q)
    (<[Z.to_nat (nextwrite q) := w]> (qdata q)).

Lemma pushed_spec {V} (w : option V) (q : queue V) :
  qwf q -> qlen q + 1 < size q ->
  qwf (pushed w q) /\ qlen (pushed w q) = qlen q + 1 /\
  qcontents (pushed w q) = qcontents q ++ [w].
Proof.
  intros Hq Hroom. pose proof (qlen_range q Hq) as Hlen. pose proof Hq as [Hs Hr Hw Hl].
  assert (El : qlen (pushed w q) = qlen q + 1).
  { unfold qlen, pushed. simpl. rewrite Zminus_mod_idemp_l.
    replace (nextwrite q + 1 - nextread q) with ((nextwrite q - nextread q) + 1) by lia.
    rewrite <- Zplus_mod_idemp_l. fold (qlen q). apply Z.mod_small. lia. }
  split; [|split; [done|]].
  - split; simpl; rewrite ?length_insert; try lia. apply Z.mod_pos_bound. lia.
  - unfold qcontents. rewrite El.
    replace (Z.to_nat (qlen q + 1)) with (S (Z.to_nat (qlen q))) by lia.
    unfold pushed. simpl size. simpl nextread. simpl qdata. rewrite ring_snoc by lia.
    rewrite Z2Nat.id by lia. rewrite nextwrite_offset by done.
    rewrite <- (nextwrite_offset q Hq) at 1.
    replace (qlen q) with (Z.of_nat (Z.to_nat (qlen q))) at 2 by lia.
    rewrite ring_insert_past by lia. f_equal. f_equal.
    unfold zlookup. rewrite decide_True by lia. by rewrite list_lookup_insert_eq by lia.
Qed.

(** ** Operations *)

Section spec.
Context {H V : Type} `{!Kmalloc H} `{!KmallocSpec H}.
Implicit Types (q : queue V) (h : H) (B : gmap Z Z).

Lemma q_addtail_room h q w depth :
  qwf q -> qlen q + 1 < size q ->
  q_addtail_depth depth w (h, q) = Done tt (h, pushed w q).
Proof.
  intros Hq Hroom. pose proof Hq as [Hs Hr Hw Hl].
  destruct depth; simpl; unfold getQ, modQ; munfold; simpl;
    rewrite bool_decide_eq_true_2 by lia; (rewrite decide_False by (rewrite full_iff by done; lia));
    simpl; rewrite zinsert_in by lia; done.
Qed.

Lemma q_addtail_full h q w d :
  qwf q -> qlen q + 1 = size q ->
  match q_grow_with (q_addtail_depth d) (s32 (size q + 1)) (h, q) with
  | Done _ (h', q') => qwf q' -> q_addtail_depth (S d) w (h, q) = Done tt (h', pushed w q')
  | Fail e s => q_addtail_depth (S d) w (h, q) = Fail e s
  | _ => True
  end.
Proof.
  intros Hq Hfull. pose proof Hq as [Hs Hr Hw Hl].
  cbn [q_addtail_depth]. unfold getQ, modQ. munfold. simpl.
  rewrite bool_decide_eq_true_2 by lia. rewrite decide_True by (by rewrite full_iff).
  destruct (q_grow_with _ _ _) as [? [h' q']|? [h' q']| | |]; try done. simpl.
  intros [? ? ? ?]. rewrite zinsert_in by lia. done.
Qed.

Lemma move_loop_spec h q d n i osize onw od :
  0 <= i < osize -> 0 <= onw < osize -> (onw - i) mod osize = Z.of_nat n ->
  Z.of_nat (length od) = osize -> qwf q -> qlen q + Z.of_nat n < size q ->
  forall fuel, (n <= fuel)%nat ->
  exists q', move_loop fuel (q_addtail_depth d) osize onw od i (h, q) = Done tt (h, q') /\
    qwf q' /\ qcontents q' = qcontents q ++ ring n i osize od /\
    qself q' = qself q /\ size q' = size q /\ data q' = data q /\
    qlen q' = qlen q + Z.of_nat n.
Proof.
  intros Hi Ho En Hod. revert i q Hi En.
  induction n as [|n IH]; intros i q Hi En Hq Hroom fuel Hf.
  - assert (i = onw) as ->.
    { apply Z.mod_divide in En as [k Hk]; [|lia].
      assert (k = 0 \/ k <= -1 \/ 1 <= k) as [->|[?|?]] by lia; nia. }
    exists q. rewrite app_nil_r. destruct fuel; simpl; rewrite decide_True by done;
      (split_and!; [done.. | lia]).
  - assert (Hne : i <> onw).
    { intros ->. rewrite Z.sub_diag, Z.mod_0_l in En; lia. }
    destruct fuel as [|fuel]; [lia|]. simpl move_loop. rewrite decide_False by done.
    destruct (zlookup_lt od i) as [w Hw]; [lia|]. rewrite Hw. munfold. cbn -[q_addtail_depth move_loop].
    rewrite q_addtail_room by (done || lia). cbn -[q_addtail_depth move_loop].
    destruct (pushed_spec w q) as (Hq' & Hl' & Hc'); [done | lia |].
    destruct (IH ((i + 1) mod osize) (pushed w q)) with (fuel := fuel)
      as (q' & Hm & Hw' & Hc & ? & ? & ? & ?); [| | done | simpl; lia | lia |].
    + apply Z.mod_pos_bound. lia.
    + rewrite Zminus_mod_idemp_r. replace (onw - (i + 1)) with ((onw - i) - 1) by lia.
      pose proof (Z.mod_pos_bound (onw - i) osize).
      rewrite <- Zminus_mod_idemp_l, En. rewrite Z.mod_small; lia.
    + exists q'. split; [exact Hm|]. split_and!; simpl in *; try done; try congruence; [|lia].
      rewrite Hc, Hc', <- app_assoc. simpl. by rewrite Hw.
Qed.

Lemma grow_size_spec (s : H * queue V) fuel target n :
  0 < n <= 2 * MAXQ -> target <= MAXQ -> target <= n * 2 ^ Z.of_nat fuel ->
  exists m, grow_size fuel target n s = Done m s /\ target <= m /\ n <= m <= 2 * MAXQ /\
    m <= Z.max n (2 * target).
Proof.
  unfold MAXQ. revert n. induction fuel as [|f IH]; intros n Hn Ht Hf; simpl.
  - rewrite decide_False by lia. exists n. split; [done | lia].
  - destruct (decide (n < target)).
    + rewrite s32_small by lia. munfold. rewrite bool_decide_eq_true_2 by lia.
      destruct (IH (n * 2)) as (m & -> & ? & ? & ?); [lia | lia | |].
      * rewrite Nat2Z.inj_succ, Z.pow_succ_r in Hf by lia. lia.
      * exists m. split; [done | lia].
    + exists n. split; [done | lia].
Qed.

Lemma grow_size_double (s : H * queue V) n :
  0 < n < 2 ^ 30 -> grow_size grow_fuel (n + 1) n s = Done (n * 2) s.
Proof.
  intros Hn. change grow_fuel with (S (S 30)). generalize 30%nat. intros f. simpl. munfold.
  rewrite s32_small by lia. rewrite decide_True, bool_decide_eq_true_2, decide_False by lia. done.
Qed.

#[local] Arguments grow_size : simpl never.
#[local] Arguments move_loop : simpl never.
#[local] Arguments q_addtail_depth : simpl never.

Lemma q_grow_spec h B q d target :
  heap_rep h B -> qwf q -> qowned B q -> target <= MAXQ ->
  (exists h', q_grow_with (q_addtail_depth d) target (h, q) = Fail ENOMEM (h', q) /\ heap_rep h' B) \/
  (exists h' B' q', q_grow_with (q_addtail_depth d) target (h, q) = Done tt (h', q') /\
     heap_rep h' B' /\ qevolves B q B' q' /\ qcontents q' = qcontents q /\
     qlen q' = qlen q /\ target <= size q' /\ size q <= size q' /\
     size q' <= Z.max (size q) (2 * target)).
Proof.
  intros Hr Hq Hown Ht. pose proof (qlen_range q Hq) as Hlen. pose proof Hq as [Hs Hrd Hwr Hl].
  unfold q_grow_with, getQ, modQ. munfold. simpl.
  destruct (grow_size_spec (h, q) grow_fuel target (size q)) as (m & -> & Hm1 & Hm2 & Hm3);
    [done | done | unfold grow_fuel, MAXQ in *; simpl Z.of_nat; lia |].
  rewrite u32_small by (unfold MAXQ, sizeof_word in *; lia). unfold zoom. simpl.
  destruct (kmalloc_spec h B (m * sizeof_word)) as [(h' & -> & Hr')|(p & h' & -> & Hp & Hf & Hr')];
    [done | unfold KMALLOC_MAX, MAXQ, sizeof_word in *; lia | by left; exists h' |].
  right. simpl. rewrite decide_False by done.
  set (q1 := mkqueue (V:=V) (qself q) m 0 0 p (replicate (Z.to_nat m) None)).
  assert (Hq1 : qwf q1).
  { split; simpl; rewrite ?length_replicate; lia. }
  assert (Hl1 : qlen q1 = 0) by (unfold qlen; simpl; apply Z.mod_0_l; lia).
  destruct (move_loop_spec h' q1 d (Z.to_nat (qlen q)) (nextread q) (size q) (nextwrite q) (qdata q))
    with (fuel := Z.to_nat (size q)) as (q' & Hm & Hq' & Hc & Hs' & Hsz & Hd & Hl');
    try done; [unfold qlen in *; lia | rewrite Hl1; simpl; lia | lia |].
  simpl. fold q1. rewrite Hm. simpl in Hs', Hsz, Hd.
  assert (Hpd : p <> data q) by (intros ->; by rewrite (qown_data _ _ Hown) in Hf).
  assert (Hps : p <> qself q) by (intros ->; by rewrite (qown_self _ _ Hown) in Hf).
  destruct (kfree_spec h' (<[p := m * sizeof_word]> B) (data q) (size q * sizeof_word)) as (h'' & Hfr & Hr'');
    [done | rewrite lookup_insert_ne by done; apply Hown |].
  simpl. rewrite Hfr. rewrite delete_insert_ne in Hr'' by done.
  eexists h'', _, q'. split; [done|]. split; [exact Hr''|].
  assert (Hc1 : qcontents q1 = []) by (unfold qcontents; by rewrite Hl1).
  split_and!; [| by rewrite Hc, Hc1 | lia | lia | lia | lia].
  split; [done | | done | by rewrite Hd, Hsz | right; by rewrite Hd].
  split; rewrite ?Hs', ?Hd, ?Hsz; [| apply lookup_insert_eq | done].
  rewrite lookup_insert_ne, lookup_delete_ne by (done || apply Hown). apply Hown.
Qed.

Lemma qevolves_same h B q q' :
  qwf q' -> qowned B q -> qself q' = qself q -> data q' = data q -> size q' = size q ->
  qevolves B q B q'.
Proof.
  intros Hw [Hs Hd Hn] Es Ed Ez. split; [done | | done | | by left].
  - split; rewrite ?Es, ?Ed, ?Ez; done.
  - rewrite Ed, Ez, insert_delete_eq, insert_id; done.
Qed.

Lemma q_addtail_spec h B q ptr :
  heap_rep h B -> qwf q -> qowned B q -> size q < MAXQ ->
  (exists h', qlen q + 1 = size q /\ q_addtail ptr (h, q) = Fail ENOMEM (h', q) /\ heap_rep h' B) \/
  (exists h' B' q', q_addtail ptr (h, q) = Done tt (h', q') /\ heap_rep h' B' /\
     qevolves B q B' q' /\ qcontents q' = qcontents q ++ [Some ptr] /\
     size q <= size q' /\ (size q' = size q \/ size q = qlen q + 1 /\ size q' <= 2 * (size q + 1)) /\
     (qlen q + 1 < size q -> h' = h /\ size q' = size q)).
Proof.
  intros Hr Hq Hown Hmx. pose proof (qlen_range q Hq) as Hlen. pose proof Hq as [Hs Hrd Hwr Hl].
  destruct (decide (qlen q + 1 = size q)) as [Hfull|Hroom].
  - unfold q_addtail. pose proof (q_addtail_full h q (Some ptr) 1 Hq Hfull) as Hadd.
    rewrite s32_small in Hadd by (unfold MAXQ in *; lia).
    destruct (q_grow_spec h B q 1 (size q + 1)) as
      [(h' & Hg & Hr')|(h' & B' & q' & Hg & Hr' & Hev & Hc & Hlq & Hsz & Hsz2 & Hsz3)]; try done; [lia|..];
      rewrite Hg in Hadd.
    + left. by exists h'.
    + right. pose proof Hev as [Hw' [? ? ?] ? ? ?].
      destruct (pushed_spec (Some ptr) q') as (Hp1 & Hp2 & Hp3); [done | lia |].
      eexists h', B', _. rewrite Hadd by done.
      split_and!; [done | done | | by rewrite Hp3, Hc | done | right; simpl; lia | lia].
      by split; [|split| | |].
  - right. unfold q_addtail. rewrite q_addtail_room by (done || lia).
    destruct (pushed_spec (Some ptr) q) as (Hp1 & Hp2 & Hp3); [done | lia |].
    eexists h, B, _. split_and!; try done; [by eapply qevolves_same | by left].
Qed.

Lemma q_empty_eq (h : H) (q : queue V) :
  qwf q -> q_empty (h, q) = Done (bool_decide (qlen q = 0)) (h, q).
Proof.
  intros Hq. unfold q_empty, getQ. munfold. simpl. f_equal. apply bool_decide_ext. split.
  - intros E. unfold qlen. rewrite E, Z.sub_diag. apply Z.mod_0_l. pose proof (qwf_size q Hq). lia.
  - intros E. pose proof (nextwrite_offset q Hq) as Ew.
    by rewrite E, Z.add_0_r, Z.mod_small in Ew by apply Hq.
Qed.

Lemma q_preallocate_spec h B q n :
  heap_rep h B -> qwf q -> qowned B q -> n <= MAXQ ->
  (exists h', q_preallocate n (h, q) = Fail ENOMEM (h', q) /\ heap_rep h' B) \/
  (exists h' B' q', q_preallocate n (h, q) = Done tt (h', q') /\ heap_rep h' B' /\
     qevolves B q B' q' /\ qcontents q' = qcontents q /\
     n <= size q' /\ size q <= size q' <= Z.max (size q) (2 * n)).
Proof.
  intros Hr Hq Hown Ht. pose proof (qwf_size q Hq).
  unfold q_preallocate, q_grow, getQ. munfold. simpl. rewrite bool_decide_eq_true_2 by lia.
  destruct (decide (n > size q)).
  - destruct (q_grow_spec h B q 1 n) as [(h' & -> & ?)|(h' & B' & q' & -> & ? & ? & ? & ? & ? & ? & ?)];
      try done; [left; eauto | right]. exists h', B', q'. split_and!; done || lia.
  - right. exists h, B, q. split_and!; try done; try lia. by eapply qevolves_same.
Qed.

Lemma q_remhead_spec h q :
  qwf q -> 0 < qlen q ->
  exists x q', q_remhead (h, q) = Done x (h, q') /\ qwf q' /\ qcontents q = x :: qcontents q' /\
    qself q' = qself q /\ size q' = size q /\ data q' = data q /\ qlen q' = qlen q - 1.
Proof.
  intros Hq Hpos. pose proof (qlen_range q Hq) as Hlen. pose proof Hq as [Hs Hr Hw Hl].
  assert (Hne : nextwrite q <> nextread q).
  { intros E. unfold qlen in Hpos. rewrite E, Z.sub_diag, Z.mod_0_l in Hpos; lia. }
  unfold q_remhead, q_empty, getQ, modQ. munfold. simpl.
  rewrite bool_decide_eq_true_2, bool_decide_eq_false_2 by (done || lia). simpl.
  destruct (zlookup_lt (qdata q) (nextread q)) as [x Hx]; [lia|]. rewrite Hx.
  eexists x, _. split; [done|].
  assert (El : (nextwrite q - (nextread q + 1) mod size q) mod size q = qlen q - 1).
  { rewrite Zminus_mod_idemp_r.
    replace (nextwrite q - (nextread q + 1)) with ((nextwrite q - nextread q) - 1) by lia.
    rewrite <- Zminus_mod_idemp_l. fold (qlen q). apply Z.mod_small. lia. }
  split_and!; try done.
  - split; simpl; try lia. apply Z.mod_pos_bound. lia.
  - unfold qcontents. simpl. unfold qlen at 2. simpl. rewrite El.
    replace (Z.to_nat (qlen q)) with (S (Z.to_nat (qlen q - 1))) by lia.
    simpl. by rewrite Hx.
Qed.

(** C37: The ring implements a first-in first-out list: each call either returns
    ENOMEM, leaving the queue and the heap blocks as they were, or does what
    [fifo_step] says; taking from an empty queue panics. *)
Theorem queue_refines_fifo h B q o :
  heap_rep h B -> qwf q -> qowned B q -> size q < MAXQ ->
  match o with QPreallocate n => n <= MAXQ | _ => True end ->
  (exists h', run_qop o (h, q) = Fail ENOMEM (h', q) /\ heap_rep h' B) \/
  (o = QRemhead /\ qcontents q = [] /\ run_qop o (h, q) = Panic) \/
  (exists ret h' B' q', run_qop o (h, q) = Done ret (h', q') /\ heap_rep h' B' /\
     qevolves B q B' q' /\ fifo_step (qcontents q) o ret (qcontents q')).
Proof.
  intros Hr Hq Hown Hmx Ho. pose proof (qlen_range q Hq) as Hlen. pose proof (qwf_size q Hq).
  destruct o as [p| |n]; simpl.
  - munfold. destruct (q_addtail_spec h B q p) as [(h' & _ & -> & ?)|(h' & B' & q' & -> & ? & ? & ? & _)];
      try done; [left | right; right]; eauto 10.
  - destruct (decide (0 < qlen q)).
    + destruct (q_remhead_spec h q) as (x & q' & -> & ? & ? & ? & ? & ? & _); try done.
      right; right. eexists x, h, B, q'. split_and!; try done. by eapply qevolves_same.
    + right; left. assert (E : qlen q = 0) by lia. split; [done|].
      split; [unfold qcontents; by rewrite E|].
      pose proof (nextwrite_offset q Hq) as Ew. rewrite E, Z.add_0_r, Z.mod_small in Ew by apply Hq.
      unfold q_remhead, q_empty, getQ. munfold. simpl.
      by rewrite !bool_decide_eq_true_2 by (done || lia).
  - munfold. destruct (q_preallocate_spec h B q n) as
      [(h' & -> & ?)|(h' & B' & q' & -> & ? & ? & ? & _)]; try done; [left | right; right]; eauto 10.
Qed.

(** A full ring needs the heap. *)
Lemma q_addtail_nomem h h' q ptr :
  qwf q -> size q < MAXQ -> qlen q = size q - 1 -> kmalloc (2 * size q * sizeof_word) h = Done 0 h' ->
  q_addtail ptr (h, q) = Fail ENOMEM (h', q).
Proof.
  intros Hq Hmx Hl Hno. pose proof (qwf_size q Hq). unfold q_addtail.
  pose proof (q_addtail_full h q (Some ptr) 1 Hq ltac:(lia)) as Hadd.
  unfold q_grow_with, getQ in Hadd. munfold. simpl in Hadd.
  rewrite s32_small in Hadd by (unfold MAXQ in *; lia).
  pose proof (grow_size_double (h, q) (size q) ltac:(unfold MAXQ in *; lia)) as Hm.
  rewrite Hm in Hadd. unfold zoom in Hadd. simpl in Hadd.
  replace (u32 (size q * 2 * sizeof_word)) with (2 * size q * sizeof_word) in Hadd
    by (unfold MAXQ, sizeof_word in *; rewrite u32_small; lia).
  by rewrite Hno in Hadd.
Qed.

(** How far preallocation goes: after [q_preallocate n] a ring of [size]
    slots takes elements without the heap as long as fewer than [size - 1]
    are queued, and a further one needs a new block: if the heap has none,
    [q_addtail] fails.  A ring of [n] slots thus holds [n - 1] elements. *)
Theorem q_ring_capacity h h' B q ptr :
  heap_rep h B -> qwf q -> qowned B q -> size q < MAXQ ->
  (qlen q < size q - 1 ->
     exists q', q_addtail ptr (h, q) = Done tt (h, q') /\ size q' = size q /\
       qcontents q' = qcontents q ++ [Some ptr]) /\
  (qlen q = size q - 1 -> kmalloc (2 * size q * sizeof_word) h = Done 0 h' ->
     q_addtail ptr (h, q) = Fail ENOMEM (h', q)).
Proof.
  intros Hr Hq Hown Hmx. pose proof (qwf_size q Hq). split.
  - intros Hl. unfold q_addtail. rewrite q_addtail_room by (done || lia).
    destruct (pushed_spec (Some ptr) q) as (_ & _ & Hp); [done | lia |]. eauto.
  - intros. by apply q_addtail_nomem.
Qed.

(** A created queue is empty and well formed; destroying it returns both its
    blocks; a failed creation keeps none. *)
Theorem q_create_destroy h B sz :
  heap_rep h B -> 0 < sz <= MAXQ ->
  (exists h', q_create (V := V) sz h = Done None h' /\ heap_rep h' B) \/
  (exists h' B' q, q_create (V := V) sz h = Done (Some q) h' /\ heap_rep h' B' /\
     qwf q /\ qowned B' q /\ qcontents q = [] /\ size q = sz /\
     exists h'', q_destroy (h', q) = Done tt (h'', q) /\ heap_rep h'' B).
Proof.
  intros Hr Hsz. unfold q_create. munfold.
  destruct (kmalloc_spec h B sizeof_queue) as [(h1 & -> & Hr1)|(p & h1 & -> & Hp & Hf & Hr1)];
    [done | unfold sizeof_queue, KMALLOC_MAX; lia | by left; exists h1 |].
  rewrite decide_False by done. rewrite u32_small by (unfold sizeof_word, MAXQ in *; lia).
  destruct (kmalloc_spec h1 (<[p := sizeof_queue]> B) (sz * sizeof_word))
    as [(h2 & -> & Hr2)|(d & h2 & -> & Hd & Hfd & Hr2)];
    [done | unfold sizeof_word, KMALLOC_MAX, MAXQ in *; lia | left | right].
  { destruct (kfree_spec h2 (<[p := sizeof_queue]> B) p sizeof_queue) as (h3 & E & Hr3);
      [done | apply lookup_insert_eq |].
    simpl. rewrite E. exists h3. split; [done|]. by rewrite delete_insert_id in Hr3. }
  rewrite decide_False by done.
  assert (Hdp : d <> p) by (intros ->; by rewrite lookup_insert_eq in Hfd).
  eexists h2, _, _. split; [done|]. split; [exact Hr2|].
  assert (El : qlen (mkqueue (V := V) p sz 0 0 d (replicate (Z.to_nat sz) None)) = 0)
    by (apply Z.mod_0_l; simpl; lia).
  split_and!.
  - split; simpl; rewrite ?length_replicate; unfold MAXQ in *; lia.
  - split; simpl; [by rewrite lookup_insert_ne, lookup_insert_eq | apply lookup_insert_eq | done].
  - unfold qcontents. by rewrite El.
  - done.
  - unfold q_destroy, q_empty, getQ. munfold. unfold zoom. simpl.
    destruct (kfree_spec h2 (<[d := sz * sizeof_word]> (<[p := sizeof_queue]> B)) d (sz * sizeof_word))
      as (h3 & E3 & Hr3); [done | apply lookup_insert_eq |].
    rewrite E3. rewrite delete_insert_id in Hr3 by done. simpl.
    destruct (kfree_spec h3 (<[p := sizeof_queue]> B) p sizeof_queue) as (h4 & E4 & Hr4);
      [done | apply lookup_insert_eq |].
    rewrite E4. exists h4. split; [done|]. by rewrite delete_insert_id in Hr4.
Qed.

End spec.

End Queue.
