(* ===== verification/Bitmap.v ===== *)
(** * Arrays of bits: kern/lib/bitmap.c

    The [struct bitmap] with its bytes.  The theorems show that it keeps a set
    of bit numbers below [nbits]: [bitmap_alloc] takes the least free one, and
    fails exactly when none is free. *)

From S2P Require Import Prelude Kmalloc.

Module Bitmap.

Definition BITS_PER_WORD : Z := 8.
Definition WORD_ALLBITS : Z := 255.
Definition sizeof_bitmap : Z := 8.

Record bitmap := mkbitmap {
  bself : Z;       (* address of the structure *)
  nbits : Z;
  vaddr : Z;       (* address of the bytes *)
  v : list Z;      (* the bytes *)
}.

Definition set_v (d : list Z) (b : bitmap) : bitmap :=
  mkbitmap (bself b) (nbits b) (vaddr b) d.

Abbreviation BM := (M bitmap).

(** [v[ix] = f(v[ix])] *)
Definition update_word (ix : Z) (f : Z -> Z) : BM unit :=
  b ← gets id;
  w ← access (zlookup (v b) ix);
  d ← access (zinsert (v b) ix (f w));
  modify (set_v d).

Definition bitmap_translate (bitno : Z) : Z * Z :=
  let ix := bitno / BITS_PER_WORD in
  let offset := bitno mod BITS_PER_WORD in
  (ix, u8 (Z.shiftl 1 offset)).

(** [for (j=overbits; j<BITS_PER_WORD; j++) b->v[ix] |= 1 << j;] *)
Fixpoint mark_over (n : nat) (ix j : Z) : BM unit :=
  match n with
  | O => mret tt
  | S n' =>
      update_word ix (fun w => u8 (Z.lor w (Z.shiftl 1 j))) ;;
      mark_over n' ix (j + 1)
  end.

(** The initialisation of the bytes, after both blocks were allocated. *)
Definition bitmap_setup (words : Z) : BM unit :=
  b ← gets id;
  if decide (nbits b / BITS_PER_WORD < words) then
    let ix := words - 1 in
    let overbits := nbits b - ix * BITS_PER_WORD in
    kassert (bool_decide (nbits b / BITS_PER_WORD = words - 1)) ;;
    kassert (bool_decide (overbits > 0 /\ overbits < BITS_PER_WORD)) ;;
    mark_over (Z.to_nat (BITS_PER_WORD - overbits)) ix overbits
  else mret tt.

Section heap.
Context {H : Type} `{!Kmalloc H}.

(** [bitmap_create]: [None] when out of memory. *)
Definition bitmap_create (n : Z) : M H (option bitmap) :=
  let words := DIVROUNDUP n BITS_PER_WORD in
  b ← kmalloc sizeof_bitmap;
  if decide (b = 0) then mret None
  else
    vp ← kmalloc words;
    if decide (vp = 0) then kfree b ;; mret None
    else fun h =>
      match bitmap_setup words (mkbitmap b n vp (replicate (Z.to_nat words) 0)) with
      | Done _ bm => Done (Some bm) h
      | Fail e _ => Fail e h
      | Panic => Panic
      | Undef => Undef
      | NoFuel => NoFuel
      end.

Definition bitmap_destroy (b : bitmap) : M H unit :=
  kfree (vaddr b) ;; kfree (bself b).

End heap.

Definition bitmap_getdata (b : bitmap) : list Z := v b.

(** The two loops of [bitmap_alloc]: over the bits of byte [ix] from
    [offset] on, and over the bytes from [ix] on. *)
Fixpoint alloc_bit (n : nat) (ix offset : Z) : BM Z :=
  match n with
  | O => panic
  | S n' =>
      b ← gets id;
      w ← access (zlookup (v b) ix);
      let mask := u8 (Z.shiftl 1 offset) in
      if decide (Z.land w mask = 0) then
        update_word ix (fun w => Z.lor w mask) ;;
        let index := u32 (ix * BITS_PER_WORD + offset) in
        kassert (bool_decide (index < nbits b)) ;;
        mret index
      else alloc_bit n' ix (offset + 1)
  end.

Fixpoint alloc_word (n : nat) (ix : Z) : BM Z :=
  match n with
  | O => fail ENOSPC
  | S n' =>
      b ← gets id;
      w ← access (zlookup (v b) ix);
      if decide (w <> WORD_ALLBITS) then alloc_bit (Z.to_nat BITS_PER_WORD) ix 0
      else alloc_word n' (ix + 1)
  end.

Definition bitmap_alloc : BM Z :=
  b ← gets id;
  alloc_word (Z.to_nat (DIVROUNDUP (nbits b) BITS_PER_WORD)) 0.

Definition bitmap_mark (index : Z) : BM unit :=
  b ← gets id;
  kassert (bool_decide (index < nbits b)) ;;
  let '(ix, mask) := bitmap_translate index in
  w ← access (zlookup (v b) ix);
  kassert (bool_decide (Z.land w mask = 0)) ;;
  update_word ix (fun w => Z.lor w mask).

Definition bitmap_unmark (index : Z) : BM unit :=
  b ← gets id;
  kassert (bool_decide (index < nbits b)) ;;
  let '(ix, mask) := bitmap_translate index in
  w ← access (zlookup (v b) ix);
  kassert (bool_decide (Z.land w mask <> 0)) ;;
  update_word ix (fun w => u8 (Z.land w (Z.lnot mask))).

Definition bitmap_isset (index : Z) : BM Z :=
  b ← gets id;
  let '(ix, mask) := bitmap_translate index in
  w ← access (zlookup (v b) ix);
  mret (Z.land w mask).

(** ** Abstraction and invariant *)

Definition bit (b : bitmap) (i : Z) : bool :=
  match zlookup (v b) (i / BITS_PER_WORD) with
  | Some w => Z.testbit w (i mod BITS_PER_WORD)
  | None => false
  end.

Definition MAXBITS : Z := 2 ^ 32 - 8.

Record wf (b : bitmap) : Prop := {
  wf_nbits : 0 <= nbits b <= MAXBITS;
  wf_len : Z.of_nat (length (v b)) = DIVROUNDUP (nbits b) BITS_PER_WORD;
  wf_bytes : Forall (fun w => 0 <= w < 256) (v b);
  (* the unused bits of the last byte are marked *)
  wf_over : forall i, nbits b <= i < BITS_PER_WORD * Z.of_nat (length (v b)) -> bit b i = true;
}.

(** [b'] is [b] with bit [i] set to [x]. *)
Record bit_set (b : bitmap) (i : Z) (x : bool) (b' : bitmap) : Prop := {
  bs_nbits : nbits b' = nbits b;
  bs_self : bself b' = bself b;
  bs_vaddr : vaddr b' = vaddr b;
  bs_len : length (v b') = length (v b);
  bs_bit : bit b' i = x;
  bs_other : forall j, 0 <= j -> j <> i -> bit b' j = bit b j;
}.

(** ** Bytes *)

Lemma mask_pow2 k : 0 <= k < 8 -> u8 (Z.shiftl 1 k) = 2 ^ k.
Proof.
  intros. rewrite Z.shiftl_1_l. unfold u8. apply Z.mod_small. split; [lia|].
  apply Z.pow_lt_mono_r; lia.
Qed.

Lemma testbit_pow2 k n : 0 <= k -> Z.testbit (2 ^ k) n = bool_decide (n = k).
Proof.
  intros. case_bool_decide as E; [subst; by apply Z.pow2_bits_true | by apply Z.pow2_bits_false].
Qed.

Lemma land_pow2_0 w k : 0 <= k -> Z.land w (2 ^ k) = 0 <-> Z.testbit w k = false.
Proof.
  intros Hk. split; intros E.
  - assert (T : Z.testbit (Z.land w (2 ^ k)) k = false) by (rewrite E; apply Z.bits_0).
    rewrite Z.land_spec, Z.pow2_bits_true in T by done. by destruct (Z.testbit w k).
  - apply Z.bits_inj'. intros n Hn. rewrite Z.land_spec, testbit_pow2, Z.bits_0 by done.
    case_bool_decide; [by subst; rewrite E | by rewrite andb_false_r].
Qed.

Lemma byte_testbit_high w n : 0 <= w < 256 -> 8 <= n -> Z.testbit w n = false.
Proof.
  intros Hw Hn. destruct (decide (w = 0)) as [->|]; [apply Z.bits_0|].
  apply Z.bits_above_log2; [lia|]. apply Z.log2_lt_pow2; [lia|].
  apply Z.lt_le_trans with (2 ^ 8); [lia|]. apply Z.pow_le_mono_r; lia.
Qed.

Lemma byte_of_bits w : 0 <= w -> (forall n, 8 <= n -> Z.testbit w n = false) -> w < 256.
Proof.
  intros Hw Hb. destruct (decide (w < 256)) as [|Hge]; [done|]. exfalso.
  assert (8 <= Z.log2 w) by (apply Z.log2_le_pow2; lia).
  pose proof (Z.bit_log2 w ltac:(lia)) as T. by rewrite Hb in T.
Qed.

Lemma lor_byte w k : 0 <= w < 256 -> 0 <= k < 8 -> 0 <= Z.lor w (2 ^ k) < 256.
Proof.
  intros Hw Hk. assert (0 <= Z.lor w (2 ^ k)) by (apply Z.lor_nonneg; lia). split; [done|].
  apply byte_of_bits; [done|]. intros n Hn. rewrite Z.lor_spec, testbit_pow2 by lia.
  rewrite byte_testbit_high, bool_decide_eq_false_2 by lia. done.
Qed.

Lemma land_lnot_byte w k : 0 <= w < 256 -> 0 <= k < 8 -> 0 <= Z.land w (Z.lnot (2 ^ k)) < 256.
Proof.
  intros Hw Hk. assert (0 <= Z.land w (Z.lnot (2 ^ k))) by (apply Z.land_nonneg; lia).
  split; [done|]. apply byte_of_bits; [done|]. intros n Hn.
  by rewrite Z.land_spec, byte_testbit_high by lia.
Qed.

Lemma byte_full w : 0 <= w < 256 -> w <> 255 -> exists k, 0 <= k < 8 /\ Z.testbit w k = false.
Proof.
  intros Hw Hne.
  destruct (decide (Forall (fun k => Z.testbit w k = true) (seqZ 0 8))) as [Hall|Hno].
  - exfalso. apply Hne. apply Z.bits_inj'. intros n Hn. destruct (decide (n < 8)).
    + rewrite Forall_forall in Hall. rewrite Hall by (apply elem_of_seqZ; lia).
      change 255 with (Z.ones 8). by rewrite Z.ones_spec_low by lia.
    + rewrite !byte_testbit_high by lia. done.
  - apply not_Forall_Exists in Hno; [|apply _]. apply Exists_exists in Hno as (k & Hk & Ht).
    apply elem_of_seqZ in Hk. exists k. split; [lia|].
    by apply not_true_is_false.
Qed.

Lemma set_clear_byte w k :
  0 <= k -> Z.testbit w k = false -> Z.land (Z.lor w (2 ^ k)) (Z.lnot (2 ^ k)) = w.
Proof.
  intros Hk T. apply Z.bits_inj'. intros n Hn.
  rewrite Z.land_spec, Z.lnot_spec, Z.lor_spec, testbit_pow2 by done.
  case_bool_decide; subst; simpl; [by rewrite T, andb_false_r|].
  by rewrite orb_false_r, andb_true_r.
Qed.

(** ** Bits *)

Lemma index_split i : 0 <= i -> i = i / 8 * 8 + i mod 8 /\ 0 <= i mod 8 < 8 /\ 0 <= i / 8.
Proof.
  intros. pose proof (Z.div_mod i 8 ltac:(lia)). pose proof (Z.mod_pos_bound i 8 ltac:(lia)).
  pose proof (Z.div_pos i 8 ltac:(lia) ltac:(lia)). lia.
Qed.

Lemma bit_at b ix k w :
  0 <= k < 8 -> zlookup (v b) ix = Some w -> bit b (ix * 8 + k) = Z.testbit w k.
Proof.
  intros Hk L. unfold bit, BITS_PER_WORD.
  rewrite (Z.add_comm (ix * 8)), Z.div_add, Z.div_small, Z.add_0_l, L by lia.
  by rewrite Z.mod_add, Z.mod_small by lia.
Qed.

Lemma wf_word b ix :
  wf b -> 0 <= ix < Z.of_nat (length (v b)) ->
  exists w, zlookup (v b) ix = Some w /\ 0 <= w < 256.
Proof.
  intros W Hix. destruct (zlookup_lt (v b) ix Hix) as [w Hw]. exists w. split; [done|].
  destruct W as [_ _ F _]. rewrite Forall_lookup in F.
  apply zlookup_Some in Hw as [? ?]. eauto.
Qed.

(** Every bit below [nbits] lies in a byte of the map. *)
Lemma wf_in_range b i : wf b -> 0 <= i < nbits b -> 0 <= i / 8 < Z.of_nat (length (v b)).
Proof.
  intros W Hi. destruct (wf_nbits _ W) as [? ?]. pose proof (wf_len _ W) as L.
  unfold DIVROUNDUP, BITS_PER_WORD, MAXBITS in *. rewrite u32_small in L by lia.
  rewrite L. destruct (index_split i) as (? & ? & ?); [lia|].
  split; [done|]. apply Z.div_lt_upper_bound; [lia|].
  pose proof (Z.div_mod (nbits b + 8 - 1) 8 ltac:(lia)).
  pose proof (Z.mod_pos_bound (nbits b + 8 - 1) 8 ltac:(lia)). lia.
Qed.

Lemma zinsert_lookup {A} (l l' : list A) i j x :
  zinsert l i x = Some l' -> zlookup l' j = (if decide (j = i) then Some x else zlookup l j).
Proof.
  unfold zinsert, zlookup. intros E. case_decide; [|done]. injection E as <-.
  destruct (decide (j = i)) as [->|].
  - rewrite decide_True, list_lookup_insert_eq by lia. done.
  - case_decide; [|done]. rewrite list_lookup_insert_ne by lia. done.
Qed.

(** Updating byte [i / 8] by a function that changes bit [i mod 8] only. *)
Lemma update_word_spec (f : Z -> Z) b i x w :
  wf b -> 0 <= i -> 0 <= i / 8 < Z.of_nat (length (v b)) ->
  zlookup (v b) (i / 8) = Some w ->
  0 <= f w < 256 ->
  (forall n, 0 <= n < 8 -> Z.testbit (f w) n = if decide (n = i mod 8) then x else Z.testbit w n) ->
  exists b', update_word (i / 8) f b = Done tt b' /\ bit_set b i x b' /\
    v b' = <[Z.to_nat (i / 8) := f w]> (v b).
Proof.
  intros W Hi Hix L Hf Hb. exists (set_v (<[Z.to_nat (i / 8) := f w]> (v b)) b).
  pose proof (zinsert_in (v b) (i / 8) (f w) Hix) as E.
  split; [unfold update_word; munfold; unfold id; by rewrite L, E|]. split; [|done].
  destruct (index_split i Hi) as (Ei & Hm & _).
  split; simpl; try done; [by rewrite length_insert|..].
  - unfold bit, BITS_PER_WORD. simpl. rewrite (zinsert_lookup _ _ _ _ _ E), decide_True by done.
    rewrite Hb by done. by rewrite decide_True.
  - intros j Hj Hne. unfold bit, BITS_PER_WORD. simpl. rewrite (zinsert_lookup _ _ _ _ _ E).
    destruct (index_split j Hj) as (Ej & Hmj & _).
    case_decide as D; [|done]. rewrite D, L, Hb by done. rewrite decide_False; [done|lia].
Qed.

Lemma bit_set_wf b i x b' w :
  wf b -> 0 <= i < nbits b -> bit_set b i x b' ->
  v b' = <[Z.to_nat (i / 8) := w]> (v b) -> 0 <= w < 256 -> wf b'.
Proof.
  intros W Hi [En _ _ El _ Eo] Ev Hw. destruct W as [W1 W2 W3 W4].
  split; rewrite ?En, ?El; try done.
  - rewrite Ev. by apply Forall_insert.
  - intros j Hj. rewrite Eo by lia. by apply W4.
Qed.

Lemma set_bits w k n :
  0 <= k -> Z.testbit (Z.lor w (2 ^ k)) n = if decide (n = k) then true else Z.testbit w n.
Proof.
  intros. rewrite Z.lor_spec, testbit_pow2 by done.
  destruct (decide (n = k)) as [->|].
  - by rewrite bool_decide_eq_true_2, orb_true_r.
  - by rewrite bool_decide_eq_false_2, orb_false_r.
Qed.

Lemma clear_bits w k n :
  0 <= k -> 0 <= n ->
  Z.testbit (Z.land w (Z.lnot (2 ^ k))) n = if decide (n = k) then false else Z.testbit w n.
Proof.
  intros. rewrite Z.land_spec, Z.lnot_spec, testbit_pow2 by done.
  destruct (decide (n = k)) as [->|].
  - by rewrite bool_decide_eq_true_2, andb_false_r.
  - by rewrite bool_decide_eq_false_2, andb_true_r.
Qed.

(** Setting a bit below [nbits] of a well-formed map. *)
Lemma set_word_spec b i w :
  wf b -> 0 <= i < nbits b -> zlookup (v b) (i / 8) = Some w -> 0 <= w < 256 ->
  exists b', update_word (i / 8) (fun w => Z.lor w (2 ^ (i mod 8))) b = Done tt b' /\
    bit_set b i true b' /\ wf b' /\ v b' = <[Z.to_nat (i / 8) := Z.lor w (2 ^ (i mod 8))]> (v b).
Proof.
  intros W Hi L Hw. pose proof (wf_in_range b i W Hi) as R.
  destruct (index_split i) as (Ei & Hm & _); [lia|].
  destruct (update_word_spec (fun w => Z.lor w (2 ^ (i mod 8))) b i true w)
    as (b' & E & B & V); auto using lor_byte; [lia|intros; apply set_bits; lia|].
  exists b'. split_and!; try done. eapply bit_set_wf; eauto using lor_byte.
Qed.

Lemma clear_word_spec b i w :
  wf b -> 0 <= i < nbits b -> zlookup (v b) (i / 8) = Some w -> 0 <= w < 256 ->
  exists b', update_word (i / 8) (fun w => u8 (Z.land w (Z.lnot (2 ^ (i mod 8))))) b = Done tt b' /\
    bit_set b i false b' /\ wf b' /\
    v b' = <[Z.to_nat (i / 8) := Z.land w (Z.lnot (2 ^ (i mod 8)))]> (v b).
Proof.
  intros W Hi L Hw. pose proof (wf_in_range b i W Hi) as R.
  destruct (index_split i) as (Ei & Hm & _); [lia|].
  pose proof (land_lnot_byte w (i mod 8) Hw Hm) as Hb.
  assert (E8 : u8 (Z.land w (Z.lnot (2 ^ (i mod 8)))) = Z.land w (Z.lnot (2 ^ (i mod 8))))
    by (unfold u8; apply Z.mod_small; lia).
  destruct (update_word_spec (fun w => u8 (Z.land w (Z.lnot (2 ^ (i mod 8))))) b i false w)
    as (b' & E & B & V); auto; [lia|by rewrite E8|intros; rewrite E8; apply clear_bits; lia|].
  rewrite E8 in V. exists b'. split_and!; try done. eapply bit_set_wf; eauto.
Qed.

Lemma translate_eq i : 0 <= i -> bitmap_translate i = (i / 8, 2 ^ (i mod 8)).
Proof.
  intros. destruct (index_split i) as (_ & Hm & _); [done|].
  unfold bitmap_translate, BITS_PER_WORD. by rewrite mask_pow2.
Qed.

Lemma bit_word b i w :
  0 <= i -> zlookup (v b) (i / 8) = Some w -> bit b i = Z.testbit w (i mod 8).
Proof. intros Hi L. unfold bit, BITS_PER_WORD. by rewrite L. Qed.

Lemma div_mod_at ix k : 0 <= k < 8 -> (ix * 8 + k) / 8 = ix /\ (ix * 8 + k) mod 8 = k.
Proof.
  intros. rewrite (Z.add_comm (ix * 8)), Z.div_add, Z.div_small by lia.
  rewrite Z.mod_add, Z.mod_small by lia. lia.
Qed.

(** A clear bit of a byte is a bit of the map, by [wf_over]. *)
Lemma clear_in_range b ix k w :
  wf b -> 0 <= ix < Z.of_nat (length (v b)) -> zlookup (v b) ix = Some w ->
  0 <= k < 8 -> Z.testbit w k = false -> 0 <= ix * 8 + k < nbits b.
Proof.
  intros W Hix L Hk T. split; [lia|].
  destruct (decide (ix * 8 + k < nbits b)) as [|Hge]; [done|]. exfalso.
  pose proof (wf_over _ W (ix * 8 + k)) as O. rewrite (bit_at _ _ _ _ Hk L), T in O.
  unfold BITS_PER_WORD in O. assert (false = true) by (apply O; lia). done.
Qed.

Definition first_free (b : bitmap) (i : Z) : Prop :=
  0 <= i < nbits b /\ bit b i = false /\ forall j, 0 <= j < i -> bit b j = true.

Lemma alloc_bit_spec b ix w n offset :
  wf b -> 0 <= ix < Z.of_nat (length (v b)) -> zlookup (v b) ix = Some w -> 0 <= w < 256 ->
  Z.of_nat n = 8 - offset -> 0 <= offset ->
  (forall j, 0 <= j < ix * 8 + offset -> bit b j = true) ->
  (exists k, offset <= k < 8 /\ Z.testbit w k = false) ->
  exists i b', alloc_bit n ix offset b = Done i b' /\ first_free b i /\ bit_set b i true b' /\ wf b'.
Proof.
  intros W Hix L Hw. revert offset. induction n as [|n IH]; intros offset Hn Ho Hset (k & Hk & T).
  { lia. }
  simpl. munfold. unfold id. rewrite L, mask_pow2 by lia. case_decide as D.
  - apply land_pow2_0 in D; [|done].
    pose proof (clear_in_range b ix offset w W Hix L ltac:(lia) D) as R.
    destruct (div_mod_at ix offset) as [Ed Em]; [lia|].
    destruct (set_word_spec b (ix * 8 + offset) w) as (b' & E & B & W' & _);
      rewrite ?Ed; try done. rewrite Ed, Em in E. rewrite E.
    destruct (wf_nbits _ W) as [_ Hmax]. unfold MAXBITS in Hmax.
    unfold BITS_PER_WORD. rewrite u32_small by lia. decide_branch.
    exists (ix * 8 + offset), b'. unfold first_free. split_and!; try (done || lia).
    by rewrite (bit_at b ix offset w) by (done || lia).
  - rewrite land_pow2_0 in D by done. apply not_false_is_true in D.
    apply IH; [lia|lia|..].
    + intros j Hj. destruct (decide (j = ix * 8 + offset)) as [->|]; [|apply Hset; lia].
      by rewrite (bit_at b ix offset w) by (done || lia).
    + exists k. split; [|done]. assert (k <> offset) by congruence. lia.
Qed.

Lemma alloc_word_spec b n ix :
  wf b -> 0 <= ix -> Z.of_nat n = Z.of_nat (length (v b)) - ix ->
  (forall j, 0 <= j < ix * 8 -> bit b j = true) ->
  (exists i b', alloc_word n ix b = Done i b' /\ first_free b i /\ bit_set b i true b' /\ wf b') \/
  (alloc_word n ix b = Fail ENOSPC b /\ forall j, 0 <= j < nbits b -> bit b j = true).
Proof.
  intros W. revert ix. induction n as [|n IH]; intros ix Hix Hn Hset.
  - right. split; [done|]. intros j Hj. apply Hset.
    pose proof (wf_in_range b j W Hj). pose proof (index_split j). lia.
  - destruct (wf_word b ix W) as (w & L & Hw); [lia|].
    cbn [alloc_word]. munfold. unfold id, WORD_ALLBITS. rewrite L. case_decide as D.
    + left. eapply alloc_bit_spec; eauto; [lia|lia|intros; apply Hset; lia|].
      destruct (byte_full w Hw D) as (k & ? & ?). exists k. split; [lia|done].
    + apply IH; [lia|lia|]. intros j Hj.
      destruct (decide (j < ix * 8)); [apply Hset; lia|].
      replace j with (ix * 8 + (j - ix * 8)) by lia.
      rewrite (bit_at b ix (j - ix * 8) w) by (done || lia).
      rewrite D. change 255 with (Z.ones 8).
      rewrite Z.ones_spec_low by lia. done.
Qed.

Lemma bitmap_alloc_spec b :
  wf b ->
  (exists i b', bitmap_alloc b = Done i b' /\ first_free b i /\ bit_set b i true b' /\ wf b') \/
  (bitmap_alloc b = Fail ENOSPC b /\ forall i, 0 <= i < nbits b -> bit b i = true).
Proof.
  intros W. unfold bitmap_alloc. munfold. unfold id.
  apply alloc_word_spec; [done|lia| |intros; lia].
  rewrite <- (wf_len _ W). lia.
Qed.

(** [bitmap_alloc] marks the least free bit and returns its number; it fails
    with ENOSPC exactly when every bit is marked, leaving the map as it was.
    Neither of its assertions can fail. *)
Theorem bitmap_alloc_least (b : bitmap) :
  wf b ->
  (exists i b', bitmap_alloc b = Done i b' /\ first_free b i /\ bit_set b i true b' /\ wf b') \/
  (bitmap_alloc b = Fail ENOSPC b /\ forall i, 0 <= i < nbits b -> bit b i = true).
Proof. apply bitmap_alloc_spec. Qed.

Lemma bitmap_unmark_spec b i :
  wf b -> 0 <= i < nbits b -> bit b i = true ->
  exists b', bitmap_unmark i b = Done tt b' /\ bit_set b i false b' /\ wf b'.
Proof.
  intros W Hi Hb. pose proof (wf_in_range b i W Hi) as R.
  destruct (index_split i) as (Ei & Hm & _); [lia|].
  destruct (wf_word b (i / 8) W R) as (w & L & Hw).
  rewrite (bit_word b i w) in Hb by (done || lia).
  destruct (clear_word_spec b i w W Hi L Hw) as (b1 & E1 & B1 & W1 & V1).
  exists b1. split; [|done]. unfold bitmap_unmark. munfold. unfold id. decide_branch. rewrite translate_eq by lia.
  rewrite L. rewrite bool_decide_eq_true_2 by (rewrite land_pow2_0 by lia; congruence). done.
Qed.

Lemma bitmap_mark_free b i :
  wf b -> 0 <= i < nbits b -> bit b i = false ->
  exists b', bitmap_mark i b = Done tt b' /\ bit_set b i true b' /\ wf b' /\
    bitmap_unmark i b' = Done tt b.
Proof.
  intros W Hi Hb. pose proof (wf_in_range b i W Hi) as R.
  destruct (index_split i) as (Ei & Hm & _); [lia|].
  destruct (wf_word b (i / 8) W R) as (w & L & Hw).
  rewrite (bit_word b i w) in Hb by (done || lia).
  destruct (set_word_spec b i w W Hi L Hw) as (b1 & E1 & B1 & W1 & V1).
  assert (L1 : zlookup (v b1) (i / 8) = Some (Z.lor w (2 ^ (i mod 8)))).
  { rewrite V1. apply zlookup_Some. split; [lia|]. apply list_lookup_insert_eq. lia. }
  exists b1. rewrite <- (bs_nbits _ _ _ _ B1) in Hi.
  destruct (clear_word_spec b1 i _ W1 Hi L1) as (b2 & E2 & B2 & W2 & V2); [by apply lor_byte|].
  rewrite (bs_nbits _ _ _ _ B1) in Hi.
  split_and!; try done.
  - unfold bitmap_mark. munfold. unfold id. decide_branch. rewrite translate_eq by lia.
    rewrite L. rewrite bool_decide_eq_true_2 by (apply land_pow2_0; [lia|done]). done.
  - unfold bitmap_unmark. munfold. unfold id. rewrite (bs_nbits _ _ _ _ B1). decide_branch.
    rewrite translate_eq by lia. rewrite L1, bool_decide_eq_true_2, E2.
    2:{ rewrite land_pow2_0, set_bits by lia. by rewrite decide_True. }
    f_equal. rewrite set_clear_byte in V2 by (done || lia).
    rewrite V1, list_insert_insert_eq, list_insert_id in V2.
    2:{ by apply zlookup_Some in L as [_ ?]. }
    destruct B1 as [? ? ? _ _ _], B2 as [? ? ? _ _ _], b, b1, b2; simpl in *; congruence.
Qed.

(** [bitmap_mark] sets a clear bit of the map and nothing else, and
    [bitmap_unmark] then restores the map to the byte; marking a bit outside the
    map or already set panics, and so does unmarking a clear one. *)
Theorem bitmap_mark_unmark (b : bitmap) (i : Z) :
  wf b -> 0 <= i ->
  (i < nbits b -> bit b i = false ->
     exists b', bitmap_mark i b = Done tt b' /\ bit_set b i true b' /\ wf b' /\
       bitmap_unmark i b' = Done tt b) /\
  (nbits b <= i \/ bit b i = true -> bitmap_mark i b = Panic) /\
  (nbits b <= i \/ bit b i = false -> bitmap_unmark i b = Panic).
Proof.
  intros W Hi. split; [intros; by apply bitmap_mark_free|].
  destruct (decide (i < nbits b)) as [Hlt|Hge].
  - destruct (wf_word b (i / 8) W) as (w & L & Hw); [by apply wf_in_range|].
    destruct (index_split i Hi) as (_ & Hm & _). rewrite (bit_word b i w) by done.
    unfold bitmap_mark, bitmap_unmark. munfold. unfold id. decide_branch.
    rewrite translate_eq, L by done.
    split; (intros [|T]; [lia|]).
    + rewrite bool_decide_eq_false_2; [done|]. rewrite land_pow2_0 by lia. congruence.
    + rewrite bool_decide_eq_false_2; [done|]. rewrite land_pow2_0 by lia. congruence.
  - unfold bitmap_mark, bitmap_unmark. munfold. unfold id.
    rewrite bool_decide_eq_false_2 by lia. done.
Qed.

(** [bitmap_isset] tells a marked bit from a clear one. *)
Lemma bitmap_isset_spec b i :
  wf b -> 0 <= i < nbits b ->
  exists x, bitmap_isset i b = Done x b /\ (x <> 0 <-> bit b i = true).
Proof.
  intros W Hi. destruct (wf_word b (i / 8) W) as (w & L & Hw); [by apply wf_in_range|].
  destruct (index_split i) as (_ & Hm & _); [lia|].
  exists (Z.land w (2 ^ (i mod 8))). unfold bitmap_isset. munfold. unfold id.
  rewrite translate_eq, L by lia. split; [done|].
  rewrite land_pow2_0, (bit_word b i w) by (done || lia). by rewrite not_false_iff_true.
Qed.

(** ** Creation *)

Lemma mark_over_spec n ix j b w :
  zlookup (v b) ix = Some w -> 0 <= w < 256 -> 0 <= j -> Z.of_nat n = 8 - j ->
  exists w', mark_over n ix j b = Done tt (set_v (<[Z.to_nat ix := w']> (v b)) b) /\
    0 <= w' < 256 /\
    forall k, 0 <= k < 8 -> Z.testbit w' k = if decide (j <= k) then true else Z.testbit w k.
Proof.
  revert j b w. induction n as [|n IH]; intros j b w L Hw Hj Hn.
  { exists w. simpl. munfold. apply zlookup_Some in L as [Hix L]. rewrite list_insert_id by done.
    split; [by destruct b|]. split; [done|]. intros. by rewrite decide_False by lia. }
  pose proof (zlookup_Some (v b) ix w) as [Z1 _]. destruct (Z1 L) as [Hix L'].
  pose proof (lookup_lt_Some _ _ _ L') as Hlt.
  pose proof (lor_byte w j Hw ltac:(lia)) as Hb.
  assert (E8 : u8 (Z.lor w (Z.shiftl 1 j)) = Z.lor w (2 ^ j))
    by (rewrite Z.shiftl_1_l; unfold u8; apply Z.mod_small; lia).
  simpl. unfold update_word. munfold. unfold id. rewrite L, zinsert_in, E8 by lia.
  destruct (IH (j + 1) (set_v (<[Z.to_nat ix:=Z.lor w (2 ^ j)]> (v b)) b) (Z.lor w (2 ^ j)))
    as (w' & E & Hw' & T); [|done|lia|lia|].
  { simpl. apply zlookup_Some. split; [done|]. by apply list_lookup_insert_eq. }
  exists w'. rewrite E. unfold set_v. simpl. rewrite list_insert_insert_eq. split; [done|].
  split; [done|]. intros k Hk. rewrite T, set_bits by lia.
  repeat case_decide; done || lia.
Qed.

Lemma bit_replicate n i nb a p :
  bit (mkbitmap a nb p (replicate n 0)) i = false.
Proof.
  unfold bit. simpl. destruct (zlookup _ _) as [w|] eqn:L; [|done].
  apply zlookup_Some in L as [_ L]. apply lookup_replicate in L as [-> _]. apply Z.bits_0.
Qed.

(** Every bit of the map is clear. *)
Definition all_clear (b : bitmap) : Prop := forall i, 0 <= i < nbits b -> bit b i = false.

Lemma bitmap_setup_spec a n p :
  0 <= n <= MAXBITS ->
  exists b, bitmap_setup (DIVROUNDUP n BITS_PER_WORD)
      (mkbitmap a n p (replicate (Z.to_nat (DIVROUNDUP n BITS_PER_WORD)) 0)) = Done tt b /\
    wf b /\ all_clear b /\ nbits b = n /\ bself b = a /\ vaddr b = p.
Proof.
  intros Hn. set (b0 := mkbitmap _ _ _ _).
  assert (Ew : DIVROUNDUP n BITS_PER_WORD = (n + 7) / 8).
  { unfold DIVROUNDUP, BITS_PER_WORD, MAXBITS in *. rewrite u32_small by lia. f_equal. lia. }
  pose proof (Z.div_mod n 8 ltac:(lia)) as D. pose proof (Z.mod_pos_bound n 8 ltac:(lia)) as R.
  pose proof (Z.div_mod (n + 7) 8 ltac:(lia)). pose proof (Z.mod_pos_bound (n + 7) 8 ltac:(lia)).
  assert (F0 : Forall (fun w => 0 <= w < 256) (v b0)) by (apply Forall_replicate; lia).
  assert (L0 : Z.of_nat (length (v b0)) = (n + 7) / 8).
  { simpl. rewrite length_replicate, Ew. lia. }
  unfold bitmap_setup. munfold. unfold id. simpl (nbits _). rewrite Ew in *.
  unfold BITS_PER_WORD. case_decide as C.
  - repeat decide_branch.
    destruct (zlookup_lt (v b0) ((n + 7) / 8 - 1)) as [w L]; [lia|].
    assert (w = 0) as ->.
    { apply zlookup_Some in L as [_ L]. by apply lookup_replicate in L as [-> _]. }
    edestruct (mark_over_spec (Z.to_nat (8 - (n - ((n + 7) / 8 - 1) * 8))) ((n + 7) / 8 - 1)
      (n - ((n + 7) / 8 - 1) * 8) b0 0 L) as (w' & E & Hw' & T); [lia..|].
    rewrite E. eexists. split; [reflexivity|].
    pose proof (zinsert_in (v b0) ((n + 7) / 8 - 1) w' ltac:(lia)) as I.
    assert (B : forall i, 0 <= i < 8 * ((n + 7) / 8) ->
      bit (set_v (<[Z.to_nat ((n + 7) / 8 - 1) := w']> (v b0)) b0) i = bool_decide (n <= i)).
    { intros i Hi. destruct (index_split i) as (Ei & Hm & Hd); [lia|].
      unfold bit, BITS_PER_WORD. simpl. rewrite (zinsert_lookup _ _ _ _ _ I).
      case_decide as Di.
      - rewrite T, Z.bits_0 by done. case_decide; case_bool_decide; done || lia.
      - rewrite bool_decide_eq_false_2 by lia. apply (bit_replicate _ i n a p). }
    split_and!; try done.
    + split; change (nbits (set_v ?d b0)) with n; change (v (set_v ?d b0)) with d; try done.
      * rewrite length_insert, L0. by rewrite <- Ew.
      * by apply Forall_insert.
      * rewrite length_insert, L0. intros i Hi. rewrite B by (unfold BITS_PER_WORD in Hi; lia).
        by rewrite bool_decide_eq_true_2 by lia.
    + intros i Hi. simpl in Hi. rewrite B by lia. by rewrite bool_decide_eq_false_2 by lia.
  - exists b0. split_and!; try done.
    + split; simpl (nbits _); try done; [by rewrite L0|].
      intros i Hi. unfold BITS_PER_WORD in Hi. lia.
    + intros i _. apply bit_replicate.
Qed.

Section create.
Context {H : Type} `{!Kmalloc H, !KmallocSpec H}.

Lemma bitmap_create_spec (h : H) (B : gmap Z Z) (n : Z) :
  heap_rep h B -> 0 <= n <= MAXBITS ->
  exists r h', bitmap_create n h = Done r h' /\
    match r with
    | None => heap_rep h' B
    | Some b => wf b /\ all_clear b /\ nbits b = n /\ B !! bself b = None /\
        <[bself b := sizeof_bitmap]> B !! vaddr b = None /\
        heap_rep h' (<[vaddr b := DIVROUNDUP n BITS_PER_WORD]> (<[bself b := sizeof_bitmap]> B))
    end.
Proof.
  intros R Hn. unfold bitmap_create. munfold.
  assert (Hw : 0 <= DIVROUNDUP n BITS_PER_WORD <= KMALLOC_MAX).
  { unfold DIVROUNDUP, BITS_PER_WORD, KMALLOC_MAX, MAXBITS in *. rewrite u32_small by lia.
    split; [apply Z.div_pos; lia|]. apply Z.div_le_upper_bound; lia. }
  destruct (kmalloc_spec h B sizeof_bitmap R) as [(h1 & E & R1)|(p & h1 & E & Hp & Bp & R1)];
    [unfold sizeof_bitmap, KMALLOC_MAX; lia|..]; rewrite E.
  { by exists None, h1. }
  rewrite decide_False by done.
  destruct (kmalloc_spec h1 _ (DIVROUNDUP n BITS_PER_WORD) R1 Hw)
    as [(h2 & E2 & R2)|(q & h2 & E2 & Hq & Bq & R2)]; rewrite E2.
  - simpl. destruct (kfree_spec h2 _ p sizeof_bitmap R2) as (h3 & E3 & R3);
      [apply lookup_insert_eq|]. rewrite E3. exists None, h3. split; [done|].
    by rewrite delete_insert_id in R3.
  - rewrite decide_False by done.
    destruct (bitmap_setup_spec p n q Hn) as (b & Eb & W & C & En & Es & Ev). rewrite Eb.
    exists (Some b), h2. subst p q. by split_and!.
Qed.

Lemma bitmap_destroy_spec (h : H) (B : gmap Z Z) (b : bitmap) w z :
  heap_rep h (<[vaddr b := w]> (<[bself b := z]> B)) -> B !! bself b = None -> <[bself b := z]> B !! vaddr b = None ->
  exists h', bitmap_destroy b h = Done tt h' /\ heap_rep h' B.
Proof.
  intros R Hs Hv. unfold bitmap_destroy. munfold.
  destruct (kfree_spec h _ _ _ R (lookup_insert_eq _ _ _)) as (h3 & E3 & R3). rewrite E3.
  rewrite delete_insert_id in R3 by done.
  destruct (kfree_spec h3 _ _ _ R3 (lookup_insert_eq _ _ _)) as (h4 & E4 & R4). rewrite E4.
  rewrite delete_insert_id in R4 by done. eauto.
Qed.

End create.

End Bitmap.
