(* ===== verification/Ram.v ===== *)
(** * Physical memory before a VM system: kern/arch/mips/mips/ram.c

    The bump allocator [ram_stealmem] and, on top of it, the page allocator of
    kern/arch/mips/mips/dumbvm.c.  The theorems show that the page runs handed
    out are page aligned, inside RAM and pairwise disjoint, for requests whose
    byte size does not wrap, and exhibit a request that wraps. *)

From S2P Require Import Prelude.

Module Ram.

(** kern/arch/mips/include/vm.h *)
Definition PAGE_SIZE : Z := 4096.
Definition PAGE_FRAME : Z := 4294963200.   (* 0xfffff000 *)
Definition MIPS_KUSEG : Z := 0.
Definition MIPS_KSEG0 : Z := 2147483648.   (* 0x80000000 *)
Definition MIPS_KSEG1 : Z := 2684354560.   (* 0xa0000000 *)
Definition USERTOP : Z := MIPS_KSEG0.
Definition USERSTACK : Z := USERTOP.
Definition PADDR_TO_KVADDR (paddr : Z) : Z := u32 (paddr + MIPS_KSEG0).

Record ram := mkram { firstpaddr : Z; lastpaddr : Z }.

(** [ramsize] is what the LAMEbus reports, [firstfree] what start.S saved. *)
Definition ram_bootstrap (ramsize firstfree : Z) : ram :=
  let ramsize := if decide (ramsize > 508 * 1024 * 1024) then 508 * 1024 * 1024 else ramsize in
  mkram (u32 (firstfree - MIPS_KSEG0)) ramsize.

Definition ram_stealmem (npages : Z) : M ram Z :=
  r ← gets id;
  let size := u32 (npages * PAGE_SIZE) in
  if decide (u32 (firstpaddr r + size) > lastpaddr r) then mret 0
  else
    let paddr := firstpaddr r in
    modify (fun r => mkram (u32 (firstpaddr r + size)) (lastpaddr r)) ;;
    mret paddr.

Definition ram_getsize : M ram (Z * Z) :=
  r ← gets id;
  modify (fun _ => mkram 0 0) ;;
  mret (firstpaddr r, lastpaddr r).

(** dumbvm.c; [splhigh]/[splx] make the call atomic. *)
Definition getppages (npages : Z) : M ram Z := ram_stealmem (u32 npages).

Definition alloc_kpages (npages : Z) : M ram Z :=
  pa ← getppages npages;
  if decide (pa = 0) then mret 0 else mret (PADDR_TO_KVADDR pa).

Definition free_kpages (addr : Z) : M ram unit := mret tt.

(** ** Invariant *)

Definition RAM_MAX : Z := 508 * 1024 * 1024.
(** Page counts whose size in bytes cannot wrap past the end of memory. *)
Definition MAXPAGES : Z := 918527.

Record wf (r : ram) : Prop := {
  wf_first : 0 < firstpaddr r <= lastpaddr r;
  wf_last : lastpaddr r <= RAM_MAX;
  wf_align : firstpaddr r mod PAGE_SIZE = 0;
}.

(** Byte [a] belongs to the run of [n] pages at [p]. *)
Definition in_run (p n a : Z) : Prop := p <= a < p + n * PAGE_SIZE.

(** The page runs handed out by a sequence of calls, [0] for a failed one. *)
Fixpoint steal_all (ns : list Z) : M ram (list Z) :=
  match ns with
  | [] => mret []
  | n :: ns' => p ← ram_stealmem n; ps ← steal_all ns'; mret (p :: ps)
  end.

(** ** Theorems *)

Lemma ram_stealmem_cases r n :
  wf r -> 0 <= n <= MAXPAGES ->
  (lastpaddr r < firstpaddr r + n * PAGE_SIZE /\ ram_stealmem n r = Done 0 r) \/
  (firstpaddr r + n * PAGE_SIZE <= lastpaddr r /\
   ram_stealmem n r = Done (firstpaddr r) (mkram (firstpaddr r + n * PAGE_SIZE) (lastpaddr r)) /\
   wf (mkram (firstpaddr r + n * PAGE_SIZE) (lastpaddr r))).
Proof.
  intros [W1 W2 W3] Hn. unfold ram_stealmem, RAM_MAX, MAXPAGES, PAGE_SIZE in *. munfold. unfold id.
  rewrite (u32_small (n * 4096)), (u32_small (firstpaddr r + n * 4096)) by lia.
  case_decide; [left; split; [lia|done]|]. right.
  split; [lia|]. split; [simpl; by rewrite (u32_small (firstpaddr r + n * 4096)) by lia|]. split; simpl; unfold RAM_MAX, PAGE_SIZE; try lia.
  by rewrite Z.mod_add.
Qed.

(** A successful boot leaves page-aligned free memory of at most 508 MB. *)
Theorem ram_bootstrap_wf (ramsize firstfree : Z) :
  MIPS_KSEG0 < firstfree -> firstfree - MIPS_KSEG0 <= ramsize ->
  firstfree - MIPS_KSEG0 <= RAM_MAX -> firstfree mod PAGE_SIZE = 0 ->
  wf (ram_bootstrap ramsize firstfree).
Proof.
  unfold ram_bootstrap, RAM_MAX, MIPS_KSEG0, PAGE_SIZE. intros H1 H2 H3 H4.
  rewrite u32_small by lia. split; simpl; unfold RAM_MAX, PAGE_SIZE; repeat case_decide; try lia.
  all: rewrite Zminus_mod, H4; done.
Qed.

Lemma steal_all_spec ns r :
  wf r -> Forall (fun n => 0 < n <= MAXPAGES) ns ->
  exists ps r', steal_all ns r = Done ps r' /\ wf r' /\ length ps = length ns /\
    firstpaddr r <= firstpaddr r' /\ lastpaddr r' = lastpaddr r /\
    forall i p n, ps !! i = Some p -> ns !! i = Some n -> p <> 0 ->
      p mod PAGE_SIZE = 0 /\ firstpaddr r <= p /\ p + n * PAGE_SIZE <= firstpaddr r' /\
      forall j q m, ps !! j = Some q -> ns !! j = Some m -> q <> 0 -> i <> j ->
        forall a, ~ (in_run p n a /\ in_run q m a).
Proof.
  revert r. induction ns as [|n ns IH]; intros r W F.
  { exists [], r. simpl. split_and!; try done; lia. }
  apply list.Forall_cons in F as [Hn F]. simpl. munfold.
  assert (Hstep : exists p r1, ram_stealmem n r = Done p r1 /\ wf r1 /\ lastpaddr r1 = lastpaddr r /\
    firstpaddr r <= firstpaddr r1 /\
    (p <> 0 -> p = firstpaddr r /\ firstpaddr r1 = p + n * PAGE_SIZE)).
  { destruct (ram_stealmem_cases r n W ltac:(lia)) as [(? & E)|(? & E & W')]; rewrite E.
    - exists 0, r. split_and!; try done; lia.
    - eexists _, _. split_and!; try done. simpl. unfold PAGE_SIZE. lia. }
  destruct Hstep as (p & r1 & E & W1 & El & Ef & Ep). rewrite E.
  destruct (IH r1 W1 F) as (ps & r2 & E2 & W2 & L2 & F2 & La & P). rewrite E2.
  exists (p :: ps), r2. simpl. split_and!; try done; [lia|lia|congruence|].
  assert (Hin : forall j q m, ps !! j = Some q -> ns !! j = Some m -> q <> 0 -> firstpaddr r1 <= q).
  { intros j q m Hq Hm Hne. destruct (P j q m Hq Hm Hne) as (? & ? & _). done. }
  intros [|i] x k; simpl; intros; simplify_eq.
  - destruct (Ep ltac:(done)) as [-> Ep2]. destruct W. split_and!; [done|lia|lia|].
    intros [|j] q m; simpl; intros Hq Hm Hne Hij a; [done|]. unfold in_run.
    specialize (Hin j q m Hq Hm Hne). lia.
  - destruct (P i x k) as (? & ? & ? & Hd); try done. split_and!; [done|lia|lia|].
    intros [|j] q m; simpl; intros Hq Hm Hne Hij a; [|by apply (Hd j q m); auto].
    simplify_eq. destruct (Ep Hne) as [-> Ep2]. unfold in_run. lia.
Qed.

(** Over any sequence of requests the runs handed out are page aligned, inside
    the memory that was free at the start, and pairwise disjoint. *)
Theorem ram_stealmem_disjoint (ns : list Z) (r : ram) :
  wf r -> Forall (fun n => 0 < n <= MAXPAGES) ns ->
  exists ps r', steal_all ns r = Done ps r' /\ wf r' /\ length ps = length ns /\
    forall i p n, ps !! i = Some p -> ns !! i = Some n -> p <> 0 ->
      p mod PAGE_SIZE = 0 /\ firstpaddr r <= p /\ p + n * PAGE_SIZE <= lastpaddr r /\
      forall j q m, ps !! j = Some q -> ns !! j = Some m -> q <> 0 -> i <> j ->
        forall a, ~ (in_run p n a /\ in_run q m a).
Proof.
  intros W F. destruct (steal_all_spec ns r W F) as (ps & r' & E & W' & L & _ & El & P).
  exists ps, r'. split_and!; try done. intros i p n Hp Hn Hne.
  destruct (P i p n Hp Hn Hne) as (? & ? & ? & ?). destruct W'. split_and!; try done. lia.
Qed.

(** The bound check of [ram_stealmem] is done on the wrapped sum: a request
    for 2^20-1 pages succeeds on every memory, and moves the start of free
    memory one page down, onto a page in use. *)
Theorem ram_stealmem_wraps (r : ram) :
  wf r -> PAGE_SIZE <= firstpaddr r ->
  ram_stealmem (2 ^ 20 - 1) r =
    Done (firstpaddr r) (mkram (firstpaddr r - PAGE_SIZE) (lastpaddr r)).
Proof.
  intros [W1 W2 W3] Hp. unfold ram_stealmem, PAGE_SIZE, RAM_MAX in *. munfold. unfold id.
  change (u32 ((2 ^ 20 - 1) * 4096)) with (2 ^ 32 - 4096).
  assert (E : u32 (firstpaddr r + (2 ^ 32 - 4096)) = firstpaddr r - 4096).
  { unfold u32. replace (firstpaddr r + (2 ^ 32 - 4096)) with (firstpaddr r - 4096 + 1 * 2 ^ 32) by lia.
    rewrite Z.mod_add, Z.mod_small by lia. done. }
  rewrite E, decide_False by lia. simpl. by rewrite E.
Qed.

Lemma PADDR_TO_KVADDR_small p : 0 <= p <= RAM_MAX -> PADDR_TO_KVADDR p = p + MIPS_KSEG0.
Proof. intros. unfold PADDR_TO_KVADDR, RAM_MAX, MIPS_KSEG0 in *. apply u32_small. lia. Qed.

(** [alloc_kpages] in the cases its callers distinguish. *)
Lemma alloc_kpages_cases r n :
  wf r -> 0 <= n <= MAXPAGES ->
  alloc_kpages n r = Done 0 r \/
  (alloc_kpages n r = Done (firstpaddr r + MIPS_KSEG0)
     (mkram (firstpaddr r + n * PAGE_SIZE) (lastpaddr r)) /\
   wf (mkram (firstpaddr r + n * PAGE_SIZE) (lastpaddr r))).
Proof.
  intros W Hn. unfold alloc_kpages, getppages. munfold.
  rewrite (u32_small n) by (unfold MAXPAGES in *; lia).
  destruct (ram_stealmem_cases r n W Hn) as [(_ & E)|(? & E & W')]; rewrite E; [by left|right].
  destruct W. rewrite decide_False by lia. by rewrite PADDR_TO_KVADDR_small by lia.
Qed.

End Ram.
