(* ===== verification/Kheap.v ===== *)
(** * The kernel heap: kern/lib/kheap.c

    The pool-based subpage allocator over the page allocator of Ram.v: the
    table of [struct pageref], its in-use bitmap, the lists by block size and of
    all pages, and the free lists threaded through the free blocks themselves.
    The invariant [rep] ties this state to the map of live blocks; the main
    theorems show that [kmalloc] and [kfree] maintain it, that no assertion of
    the allocator can fail, and that live blocks never overlap.  This
    discharges the interface of Kmalloc.v. *)

From S2P Require Import Prelude Kmalloc Bitmap Ram.
Import Ram Bitmap(byte_testbit_high, testbit_pow2, land_pow2_0, set_bits, clear_bits).

Module Kheap.

(** ** Data *)

Definition NSIZES : Z := 8.
Definition sizes : list Z := [16; 32; 64; 128; 256; 512; 1024; 2048].
Definition LARGEST_SUBPAGE_SIZE : Z := 2048.
Definition INVALID_OFFSET : Z := 65535.
Definition NPAGEREFS : nat := 256.
Definition INUSE_WORDS : nat := 8.

(** Pointers to pagerefs are indices of the table; [None] is NULL. *)
Record pageref := mkpr {
  next_samesize : option nat;
  next_all : option nat;
  pageaddr_and_blocktype : Z;
  freelist_offset : Z;
  nfree : Z;
}.

Definition PR_PAGEADDR (pr : pageref) : Z := Z.land (pageaddr_and_blocktype pr) PAGE_FRAME.
Definition PR_BLOCKTYPE (pr : pageref) : Z :=
  Z.land (pageaddr_and_blocktype pr) (u32 (Z.lnot PAGE_FRAME)).
Definition MKPAB (pa blk : Z) : Z :=
  Z.lor (Z.land pa PAGE_FRAME) (Z.land blk (u32 (Z.lnot PAGE_FRAME))).

Record kheap := mkkheap {
  pagerefs : list pageref;
  pagerefs_inuse : list Z;
  sizebases : list (option nat);
  allbase : option nat;
  mem : gmap Z Z;    (* the words of memory *)
  phys : ram;        (* the page allocator *)
}.

Abbreviation KM := (M kheap).

Definition set_pagerefs d h :=
  mkkheap d (pagerefs_inuse h) (sizebases h) (allbase h) (mem h) (phys h).
Definition set_inuse d h :=
  mkkheap (pagerefs h) d (sizebases h) (allbase h) (mem h) (phys h).
Definition set_sizebases d h :=
  mkkheap (pagerefs h) (pagerefs_inuse h) d (allbase h) (mem h) (phys h).
Definition set_allbase d h :=
  mkkheap (pagerefs h) (pagerefs_inuse h) (sizebases h) d (mem h) (phys h).
Definition set_mem d h :=
  mkkheap (pagerefs h) (pagerefs_inuse h) (sizebases h) (allbase h) d (phys h).
Definition set_phys d h :=
  mkkheap (pagerefs h) (pagerefs_inuse h) (sizebases h) (allbase h) (mem h) d.

Definition physL : lens kheap ram := Lens phys set_phys.

(** [*a] and [*a = w] on words of directly mapped memory. *)
Definition load (a : Z) : KM Z := h ← gets id; access (mem h !! a).
Definition store (a w : Z) : KM unit :=
  h ← gets id;
  if decide (MIPS_KSEG0 <= a /\ a + 4 <= MIPS_KSEG0 + lastpaddr (phys h) /\ a mod 4 = 0) then
    modify (set_mem (<[a := w]> (mem h)))
  else undef.

Definition get_pr (i : nat) : KM pageref := h ← gets id; access (pagerefs h !! i).
Definition upd_pr (i : nat) (f : pageref -> pageref) : KM unit :=
  pr ← get_pr i; modify (fun h => set_pagerefs (<[i := f pr]> (pagerefs h)) h).

Definition set_nfree n pr :=
  mkpr (next_samesize pr) (next_all pr) (pageaddr_and_blocktype pr) (freelist_offset pr) n.
Definition set_offset o pr :=
  mkpr (next_samesize pr) (next_all pr) (pageaddr_and_blocktype pr) o (nfree pr).
Definition set_pab a pr :=
  mkpr (next_samesize pr) (next_all pr) a (freelist_offset pr) (nfree pr).
Definition set_next_samesize n pr :=
  mkpr n (next_all pr) (pageaddr_and_blocktype pr) (freelist_offset pr) (nfree pr).
Definition set_next_all n pr :=
  mkpr (next_samesize pr) n (pageaddr_and_blocktype pr) (freelist_offset pr) (nfree pr).

(** ** Operations *)

Definition fill_deadbeef (vptr len : Z) : KM unit :=
  for_n (Z.to_nat (len / 4)) 0 (fun i => store (vptr + i * 4) 3735928559).

(** The inner loop of [allocpageref], [k] shifted out of its 32 bits at its end. *)
Fixpoint alloc_ref_bit (fuel : nat) (i : nat) (k : Z) (j : nat) : KM nat :=
  match fuel with
  | O => nofuel
  | S fuel' =>
      if decide (k = 0) then panic
      else
        h ← gets id;
        w ← access (pagerefs_inuse h !! i);
        if decide (Z.land w k = 0) then
          modify (set_inuse (<[i := Z.lor w k]> (pagerefs_inuse h))) ;;
          mret (i * 32 + j)%nat
        else alloc_ref_bit fuel' i (u32 (Z.shiftl k 1)) (S j)
  end.

Fixpoint alloc_ref_word (n : nat) (i : nat) : KM (option nat) :=
  match n with
  | O => mret None
  | S n' =>
      h ← gets id;
      w ← access (pagerefs_inuse h !! i);
      if decide (w = 4294967295) then alloc_ref_word n' (S i)
      else j ← alloc_ref_bit 33 i 1 0; mret (Some j)
  end.

Definition allocpageref : KM (option nat) := alloc_ref_word INUSE_WORDS 0.

Definition freepageref (j : nat) : KM unit :=
  kassert (bool_decide (j < NPAGEREFS)%nat) ;;
  let i := (j / 32)%nat in
  let k := Z.shiftl 1 (Z.of_nat (j mod 32)) in
  h ← gets id;
  w ← access (pagerefs_inuse h !! i);
  kassert (bool_decide (Z.land w k <> 0)) ;;
  modify (set_inuse (<[i := Z.land w (u32 (Z.lnot k))]> (pagerefs_inuse h))).

(** The two linked lists, and the places [guy] points at while one of
    them is walked: its base or the next field of a member. *)
Inductive which := SameSize (blktype : nat) | AllPages.
Inductive guy := Base | NextOf (i : nat).

Definition deref (w : which) (g : guy) : KM (option nat) :=
  match w, g with
  | SameSize b, Base => h ← gets id; access (sizebases h !! b)
  | AllPages, Base => gets allbase
  | SameSize _, NextOf i => pr ← get_pr i; mret (next_samesize pr)
  | AllPages, NextOf i => pr ← get_pr i; mret (next_all pr)
  end.

Definition assign (w : which) (g : guy) (x : option nat) : KM unit :=
  match w, g with
  | SameSize b, Base => modify (fun h => set_sizebases (<[b := x]> (sizebases h)) h)
  | AllPages, Base => modify (set_allbase x)
  | SameSize _, NextOf i => upd_pr i (set_next_samesize x)
  | AllPages, NextOf i => upd_pr i (set_next_all x)
  end.

Fixpoint unlink (fuel : nat) (w : which) (g : guy) (pr : nat) : KM unit :=
  match fuel with
  | O => nofuel
  | S fuel' =>
      cur ← deref w g;
      match cur with
      | None => mret tt
      | Some c =>
          if decide (c = pr) then n ← deref w (NextOf pr); assign w g n
          else unlink fuel' w (NextOf c) pr
      end
  end.

(** Every list is shorter than the table. *)
Definition list_fuel : nat := S NPAGEREFS.

Definition remove_lists (pr : nat) (blktype : Z) : KM unit :=
  kassert (bool_decide (blktype >= 0 /\ blktype < NSIZES)) ;;
  unlink list_fuel (SameSize (Z.to_nat blktype)) Base pr ;;
  unlink list_fuel AllPages Base pr.

Fixpoint blocktype_from (l : list Z) (i : nat) (sz : Z) : KM nat :=
  match l with
  | [] => panic
  | s :: l' => if decide (sz <= s) then mret i else blocktype_from l' (S i) sz
  end.

Definition blocktype (sz : Z) : KM nat := blocktype_from sizes 0 sz.

(** The search of [subpage_kmalloc] for a page with a free block. *)
Fixpoint find_free (fuel : nat) (blktype : nat) (pr : option nat) : KM (option nat) :=
  match fuel with
  | O => nofuel
  | S fuel' =>
      match pr with
      | None => mret None
      | Some i =>
          p ← get_pr i;
          kassert (bool_decide (PR_BLOCKTYPE p = Z.of_nat blktype)) ;;
          if decide (nfree p > 0) then mret (Some i)
          else find_free fuel' blktype (next_samesize p)
      end
  end.

(** The code at the label [doalloc]. *)
Definition doalloc (i : nat) : KM Z :=
  pr ← get_pr i;
  kassert (bool_decide (freelist_offset pr < PAGE_SIZE)) ;;
  let prpage := PR_PAGEADDR pr in
  let fla := u32 (prpage + freelist_offset pr) in
  fl ← load fla;
  upd_pr i (fun pr => set_nfree (u16 (nfree pr - 1)) pr) ;;
  pr ← get_pr i;
  (if decide (fl <> 0) then
     kassert (bool_decide (nfree pr > 0)) ;;
     kassert (bool_decide (u32 (fl - prpage) < PAGE_SIZE)) ;;
     upd_pr i (set_offset (u16 (u32 (fl - prpage))))
   else
     kassert (bool_decide (nfree pr = 0)) ;;
     upd_pr i (set_offset INVALID_OFFSET)) ;;
  mret fla.

(** The loop that threads the free list through a fresh page; [n] iterations
    are left, and [fl] is the last block linked. *)
Fixpoint init_freelist (n : nat) (i fla sz fl : Z) : KM Z :=
  match n with
  | O => mret fl
  | S n' =>
      let fl := u32 (fla + i * sz) in
      let next := u32 (fla + (i - 1) * sz) in
      store fl next ;;
      kassert (bool_decide (fl <> next)) ;;
      init_freelist n' (i + 1) fla sz fl
  end.

(** A fresh page of blocks of type [blktype]: its pageref, or [None] when the
    table or the memory is exhausted. *)
Definition new_page (blktype : nat) (sz : Z) : KM (option nat) :=
  r ← allocpageref;
  match r with
  | None => mret None
  | Some i =>
      prpage ← zoom physL (alloc_kpages 1);
      if decide (prpage = 0) then freepageref i ;; mret None
      else
        upd_pr i (set_pab (MKPAB prpage (Z.of_nat blktype))) ;;
        upd_pr i (set_nfree (u16 (PAGE_SIZE / sz))) ;;
        pr ← get_pr i;
        store prpage 0 ;;
        fl ← init_freelist (Z.to_nat (nfree pr - 1)) 1 prpage sz prpage;
        upd_pr i (set_offset (u16 (u32 (fl - prpage)))) ;;
        pr ← get_pr i;
        kassert (bool_decide (freelist_offset pr = (nfree pr - 1) * sz)) ;;
        h ← gets id;
        b ← access (sizebases h !! blktype);
        upd_pr i (set_next_samesize b) ;;
        modify (fun h => set_sizebases (<[blktype := Some i]> (sizebases h)) h) ;;
        upd_pr i (set_next_all (allbase h)) ;;
        modify (set_allbase (Some i)) ;;
        mret (Some i)
  end.

Definition subpage_kmalloc (sz : Z) : KM Z :=
  blktype ← blocktype sz;
  sz ← access (sizes !! blktype);
  h ← gets id;
  base ← access (sizebases h !! blktype);
  r ← find_free list_fuel blktype base;
  match r with
  | Some i => doalloc i
  | None =>
      r ← new_page blktype sz;
      match r with Some i => doalloc i | None => mret 0 end
  end.

(** The search of [subpage_kfree] for the page a pointer is on. *)
Fixpoint find_page (fuel : nat) (ptraddr : Z) (pr : option nat) : KM (option nat) :=
  match fuel with
  | O => nofuel
  | S fuel' =>
      match pr with
      | None => mret None
      | Some i =>
          p ← get_pr i;
          let prpage := PR_PAGEADDR p in
          kassert (bool_decide (PR_BLOCKTYPE p >= 0 /\ PR_BLOCKTYPE p < NSIZES)) ;;
          if decide (ptraddr >= prpage /\ ptraddr < u32 (prpage + PAGE_SIZE)) then mret (Some i)
          else find_page fuel' ptraddr (next_all p)
      end
  end.

(** [false] when the pointer is on none of the allocator's pages. *)
Definition subpage_kfree (ptraddr : Z) : KM bool :=
  base ← gets allbase;
  r ← find_page list_fuel ptraddr base;
  match r with
  | None => mret false
  | Some i =>
      pr ← get_pr i;
      let prpage := PR_PAGEADDR pr in
      let blktype := PR_BLOCKTYPE pr in
      sz ← access (zlookup sizes blktype);
      let offset := u32 (ptraddr - prpage) in
      if decide (offset >= PAGE_SIZE \/ offset mod sz <> 0) then panic
      else
        fill_deadbeef ptraddr sz ;;
        let fla := u32 (prpage + offset) in
        (if decide (freelist_offset pr = INVALID_OFFSET) then store fla 0
         else store fla (u32 (prpage + freelist_offset pr))) ;;
        upd_pr i (set_offset (u16 offset)) ;;
        upd_pr i (fun pr => set_nfree (u16 (nfree pr + 1)) pr) ;;
        pr ← get_pr i;
        kassert (bool_decide (nfree pr <= PAGE_SIZE / sz)) ;;
        (if decide (nfree pr = PAGE_SIZE / sz) then
           remove_lists i blktype ;;
           zoom physL (free_kpages prpage) ;;
           freepageref i
         else mret tt) ;;
        mret true
  end.

Definition kmalloc (sz : Z) : KM Z :=
  if decide (sz >= LARGEST_SUBPAGE_SIZE) then
    let npages := u32 (sz + PAGE_SIZE - 1) / PAGE_SIZE in
    zoom physL (alloc_kpages (s32 npages))
  else subpage_kmalloc sz.

Definition kfree (ptr : Z) : KM unit :=
  if decide (ptr = 0) then mret tt
  else
    b ← subpage_kfree ptr;
    if b : bool then mret tt
    else
      kassert (bool_decide (ptr mod PAGE_SIZE = 0)) ;;
      zoom physL (free_kpages ptr).

(** The heap at boot: BSS is zero. *)
Definition kheap_init (r : ram) : kheap :=
  mkkheap (replicate NPAGEREFS (mkpr None None 0 0 0)) (replicate INUSE_WORDS 0)
    (replicate (Z.to_nat NSIZES) None) None ∅ r.

#[export] Instance kheap_Kmalloc : Kmalloc kheap := {
  Kmalloc.kmalloc := kmalloc;
  Kmalloc.kfree := kfree;
}.

(** ** The invariant *)

(** What the table says of a page: its address, block type, and the offsets of
    its free blocks in the order of its free list. *)
Record pinfo := mkpinfo { pg : Z; bt : nat; fl : list Z }.

Definition bsize (b : nat) : Z := 16 * 2 ^ Z.of_nat b.

Definition set_fl (F : list Z) (x : pinfo) : pinfo := mkpinfo (pg x) (bt x) F.

Fixpoint chain (nx : pageref -> option nat) (prs : list pageref) (hd : option nat)
    (l : list nat) : Prop :=
  match l with
  | [] => hd = None
  | i :: l' => hd = Some i /\ exists pr, prs !! i = Some pr /\ chain nx prs (nx pr) l'
  end.

Definition fl_head (page : Z) (F : list Z) : Z :=
  match F with [] => 0 | o :: _ => page + o end.

Fixpoint fl_links (m : gmap Z Z) (page : Z) (F : list Z) : Prop :=
  match F with
  | [] => True
  | o :: F' => m !! (page + o) = Some (fl_head page F') /\ fl_links m page F'
  end.

Definition valid_off (b : nat) (o : Z) : Prop := 0 <= o < PAGE_SIZE /\ o mod bsize b = 0.

(** One past the last byte of memory ever handed out. *)
Definition top (h : kheap) : Z := MIPS_KSEG0 + firstpaddr (phys h).

Record page_ok (h : kheap) (pr : pageref) (x : pinfo) : Prop := {
  po_bt : (bt x < 8)%nat;
  po_align : pg x mod PAGE_SIZE = 0;
  po_range : MIPS_KSEG0 < pg x /\ pg x + PAGE_SIZE <= top h;
  po_pab : pageaddr_and_blocktype pr = pg x + Z.of_nat (bt x);
  po_nfree : nfree pr = Z.of_nat (length (fl x));
  po_off : freelist_offset pr = match fl x with [] => INVALID_OFFSET | o :: _ => o end;
  po_links : fl_links (mem h) (pg x) (fl x);
  po_valid : Forall (valid_off (bt x)) (fl x);
  po_nodup : NoDup (fl x);
}.

Definition npages (n : Z) : Z := (n + PAGE_SIZE - 1) / PAGE_SIZE.

(** A live block of [n] bytes at [p] inside a page of blocks. *)
Definition small_block (x : pinfo) (p n : Z) : Prop :=
  pg x <= p < pg x + PAGE_SIZE /\ valid_off (bt x) (p - pg x) /\ ((p - pg x) ∉ fl x) /\
  0 <= n <= bsize (bt x).

(** A live block that is a run of whole pages. *)
Definition big_block (h : kheap) (G : gmap nat pinfo) (p n : Z) : Prop :=
  LARGEST_SUBPAGE_SIZE <= n /\ p mod PAGE_SIZE = 0 /\ MIPS_KSEG0 < p /\
  p + npages n * PAGE_SIZE <= top h /\
  forall i x, G !! i = Some x -> pg x + PAGE_SIZE <= p \/ p + npages n * PAGE_SIZE <= pg x.

(** The bitmap [u] marks the pagerefs in [P]. *)
Definition inuse_ok (u : list Z) (P : nat -> Prop) : Prop :=
  length u = INUSE_WORDS /\ Forall (fun w => 0 <= w < 2 ^ 32) u /\
  forall i, (i < NPAGEREFS)%nat ->
    exists w, u !! (i / 32)%nat = Some w /\ (Z.testbit w (Z.of_nat (i mod 32)) = true <-> P i).

(** The lists and the bitmap hold the pagerefs of [T], which gives the block
    type of each: [L] is the list of all of them, [SZ] the lists by type. *)
Record tables (h : kheap) (T : gmap nat nat) (L : list nat) (SZ : nat -> list nat) : Prop := {
  t_lenp : length (pagerefs h) = NPAGEREFS;
  t_all : chain next_all (pagerefs h) (allbase h) L;
  t_all_nodup : NoDup L;
  t_all_dom : forall i, i ∈ L <-> is_Some (T !! i);
  t_size : forall b, (b < 8)%nat ->
    exists hd, sizebases h !! b = Some hd /\ chain next_samesize (pagerefs h) hd (SZ b);
  t_size_nodup : forall b, (b < 8)%nat -> NoDup (SZ b);
  t_size_dom : forall b i, (b < 8)%nat -> (i ∈ SZ b <-> T !! i = Some b);
  t_inuse : inuse_ok (pagerefs_inuse h) (fun i => is_Some (T !! i));
}.

(** Each page of blocks is as its pageref says, and no two are the same. *)
Record pages_ok (h : kheap) (G : gmap nat pinfo) : Prop := {
  p_page : forall i x, G !! i = Some x ->
    exists pr, pagerefs h !! i = Some pr /\ page_ok h pr x;
  p_disj : forall i j x y, G !! i = Some x -> G !! j = Some y -> pg x = pg y -> i = j;
}.

(** The live blocks [B] are those of the pages that are not on a free list,
    and runs of pages of their own. *)
Record blocks_ok (h : kheap) (B : gmap Z Z) (G : gmap nat pinfo) : Prop := {
  b_live : forall p n, B !! p = Some n ->
    (exists i x, G !! i = Some x /\ small_block x p n) \/ big_block h G p n;
  b_big : forall p n q m, B !! p = Some n -> B !! q = Some m ->
    big_block h G p n -> big_block h G q m -> p < q -> p + npages n * PAGE_SIZE <= q;
  b_acct : forall i x o, G !! i = Some x -> valid_off (bt x) o -> o ∉ fl x ->
    is_Some (B !! (pg x + o));
}.

Record rep (h : kheap) (B : gmap Z Z) (G : gmap nat pinfo) (L : list nat)
    (SZ : nat -> list nat) : Prop := {
  r_ram : Ram.wf (phys h);
  r_tables : tables h (bt <$> G) L SZ;
  r_pages : pages_ok h G;
  r_blocks : blocks_ok h B G;
}.

(** Between calls no page of blocks is entirely free. *)
Definition no_idle (G : gmap nat pinfo) : Prop :=
  forall i x, G !! i = Some x -> Z.of_nat (length (fl x)) < PAGE_SIZE / bsize (bt x).

Definition kheap_rep (h : kheap) (B : gmap Z Z) : Prop :=
  exists G L SZ, rep h B G L SZ /\ no_idle G.

(** ** Block sizes and page addresses *)

Lemma sizes_lookup b : (b < 8)%nat -> sizes !! b = Some (bsize b).
Proof. intros. do 8 (destruct b as [|b]; [done|]). lia. Qed.

Lemma bsize_cases b : (b < 8)%nat ->
  bsize b ∈ sizes /\ 16 <= bsize b <= 2048 /\ PAGE_SIZE mod bsize b = 0 /\
  (PAGE_SIZE / bsize b) * bsize b = PAGE_SIZE /\ 2 <= PAGE_SIZE / bsize b <= 256 /\
  bsize b mod 4 = 0.
Proof.
  intros. split; [eapply list_elem_of_lookup_2; by apply sizes_lookup|].
  do 8 (destruct b as [|b]; [unfold bsize, PAGE_SIZE; simpl; split_and!; lia || done|]). lia.
Qed.

Lemma land_high a : 0 <= a < 2 ^ 32 -> Z.land a PAGE_FRAME = a - a mod PAGE_SIZE.
Proof.
  intros Ha. unfold PAGE_FRAME, PAGE_SIZE.
  replace 4294963200 with (Z.shiftl (Z.ones 20) 12) by done.
  replace (a - a mod 4096) with (Z.shiftl (Z.shiftr a 12) 12).
  2:{ rewrite Z.shiftl_mul_pow2, Z.shiftr_div_pow2 by lia. change (2 ^ 12) with 4096.
      pose proof (Z.div_mod a 4096). lia. }
  apply Z.bits_inj'. intros n Hn. rewrite Z.land_spec, !Z.shiftl_spec by done.
  destruct (decide (n < 12)).
  { rewrite !(Z.testbit_neg_r _ (n - 12)) by lia. by rewrite andb_false_r. }
  rewrite Z.shiftr_spec by lia. replace (n - 12 + 12) with n by lia.
  destruct (decide (n < 32)); [rewrite Z.ones_spec_low by lia; by rewrite andb_true_r|].
  rewrite Z.ones_spec_high, andb_false_r by lia. symmetry.
  destruct (decide (a = 0)) as [->|]; [apply Z.bits_0|].
  apply Z.bits_above_log2; [lia|]. apply Z.log2_lt_pow2; [lia|].
  apply Z.lt_le_trans with (2 ^ 32); [lia|]. apply Z.pow_le_mono_r; lia.
Qed.

Lemma land_low a : Z.land a (u32 (Z.lnot PAGE_FRAME)) = a mod PAGE_SIZE.
Proof.
  change (u32 (Z.lnot PAGE_FRAME)) with (Z.ones 12). by rewrite Z.land_ones by lia.
Qed.

Lemma pab_fields pr p b :
  pageaddr_and_blocktype pr = p + Z.of_nat b -> (b < 8)%nat -> p mod PAGE_SIZE = 0 ->
  0 <= p -> p + PAGE_SIZE <= 2 ^ 32 ->
  PR_PAGEADDR pr = p /\ PR_BLOCKTYPE pr = Z.of_nat b.
Proof.
  intros E Hb Hp Hr1 Hr2. unfold PR_PAGEADDR, PR_BLOCKTYPE. rewrite E, land_low.
  unfold PAGE_SIZE in *. rewrite land_high by lia. unfold PAGE_SIZE.
  rewrite Zplus_mod, Hp, Z.add_0_l, Z.mod_mod, Z.mod_small by lia. lia.
Qed.

Lemma MKPAB_eq p b :
  (b < 8)%nat -> p mod PAGE_SIZE = 0 -> 0 <= p -> p + PAGE_SIZE <= 2 ^ 32 ->
  MKPAB p (Z.of_nat b) = p + Z.of_nat b.
Proof.
  intros Hb Hp Hr1 Hr2. unfold MKPAB. rewrite land_low. unfold PAGE_SIZE in *.
  rewrite land_high by lia. unfold PAGE_SIZE. rewrite Hp, Z.sub_0_r, Z.mod_small by lia.
  rewrite <- Z.add_lor_land.
  assert (Z.land p (Z.of_nat b) = 0) as ->; [|lia].
  apply Z.bits_inj'. intros n Hn. rewrite Z.land_spec, Z.bits_0.
  destruct (decide (n < 12)).
  - pose proof (Z.div_exact p 4096 ltac:(lia)) as [_ D]. rewrite (D Hp), Z.mul_comm.
    change 4096 with (2 ^ 12). by rewrite Z.mul_pow2_bits_low.
  - rewrite (byte_testbit_high (Z.of_nat b)), andb_false_r by lia. done.
Qed.

(** ** Linked lists *)

Lemma chain_ext nx prs prs' hd l :
  (forall i, i ∈ l -> nx <$> prs' !! i = nx <$> prs !! i) -> chain nx prs hd l -> chain nx prs' hd l.
Proof.
  revert hd. induction l as [|i l IH]; simpl; intros hd E; [done|].
  intros (-> & pr & Hi & C). split; [done|].
  pose proof (E i ltac:(left)) as Ei. rewrite Hi in Ei. simpl in Ei.
  destruct (prs' !! i) as [pr'|] eqn:Hi'; simplify_eq/=. exists pr'. split; [done|].
  rewrite Ei. apply IH; [|done]. intros j Hj. apply E. by right.
Qed.

Lemma chain_lookup nx prs hd l i : chain nx prs hd l -> i ∈ l -> is_Some (prs !! i).
Proof.
  revert hd. induction l as [|j l IH]; simpl; intros hd C Hi; [by apply elem_of_nil in Hi|].
  destruct C as (_ & pr & Hj & C). apply elem_of_cons in Hi as [->|Hi]; [by rewrite Hj|eauto].
Qed.

Lemma chain_head nx prs hd l : chain nx prs hd l -> hd = head l.
Proof. destruct l; simpl; [done|]. by intros [-> _]. Qed.

Lemma chain_insert_notin nx prs hd l k pr :
  k ∉ l -> chain nx prs hd l -> chain nx (<[k := pr]> prs) hd l.
Proof.
  intros Hk. apply chain_ext. intros i Hi. rewrite list_lookup_insert_ne; [done|]. by intros ->.
Qed.

(** Dropping the successor [x] of [k]. *)
Lemma chain_drop nx prs hd l1 k x l2 (f : pageref -> pageref) prk :
  NoDup (l1 ++ k :: x :: l2) -> prs !! k = Some prk -> nx (f prk) = head l2 ->
  chain nx prs hd (l1 ++ k :: x :: l2) ->
  chain nx (<[k := f prk]> prs) hd (l1 ++ k :: l2).
Proof.
  intros N Hk Hf. revert hd. induction l1 as [|i l1 IH]; simpl in *; intros hd (-> & pr & Hi & C).
  - split; [done|]. rewrite Hk in Hi. injection Hi as <-. exists (f prk). destruct C as (_ & prx & Hx & C).
    rewrite list_lookup_insert_eq by (by eapply lookup_lt_Some). split; [done|].
    rewrite Hf, <- (chain_head _ _ _ _ C). apply chain_insert_notin; [|done].
    apply NoDup_cons in N as [N _]. intros ?. apply N. by right.
  - apply NoDup_cons in N as [N1 N2]. split; [done|]. exists pr. split; [|by apply IH].
    rewrite list_lookup_insert_ne; [done|]. intros <-. apply N1, elem_of_app. right. left.
Qed.

Definition nxt (w : which) : pageref -> option nat :=
  match w with SameSize _ => next_samesize | AllPages => next_all end.
Definition set_nxt (w : which) (x : option nat) : pageref -> pageref :=
  match w with SameSize _ => set_next_samesize x | AllPages => set_next_all x end.
Definition place (g : guy) (l1 : list nat) : guy :=
  match last l1 with Some k => NextOf k | None => g end.

Lemma deref_next w i pr h :
  pagerefs h !! i = Some pr -> deref w (NextOf i) h = Done (nxt w pr) h.
Proof. intros E. destruct w; simpl; unfold get_pr; munfold; unfold id; by rewrite E. Qed.

(** [unlink] stops at the first occurrence, and assigns its successor to the
    place that pointed at it. *)
Lemma unlink_run w h x l2 l1 g hd fuel :
  deref w g h = Done hd h -> chain (nxt w) (pagerefs h) hd (l1 ++ x :: l2) ->
  x ∉ l1 -> (length l1 < fuel)%nat ->
  unlink fuel w g x h = assign w (place g l1) (head l2) h.
Proof.
  revert g hd fuel. induction l1 as [|i l1 IH]; intros g hd [|fuel] D C Hx Hf;
    try (simpl in Hf; lia); simpl in C; destruct C as (-> & pr & Hi & C).
  - simpl. munfold. rewrite D, decide_True, (deref_next w x pr h Hi) by done.
    by rewrite (chain_head _ _ _ _ C).
  - rewrite not_elem_of_cons in Hx. simpl. munfold. rewrite D, decide_False by naive_solver.
    rewrite (IH (NextOf i) (nxt w pr) fuel); [|by apply deref_next|done|naive_solver|simpl in Hf; lia].
    unfold place. f_equal. rewrite last_cons. by destruct (last l1).
Qed.

Arguments unlink : simpl never.

Lemma chain_length nx prs hd l : chain nx prs hd l -> NoDup l -> (length l <= length prs)%nat.
Proof.
  intros C N. rewrite <- (length_seq (length prs) 0). apply submseteq_length.
  apply NoDup_submseteq; [done|]. intros i Hi. apply elem_of_seq.
  destruct (chain_lookup _ _ _ _ _ C Hi) as [pr Hpr]. apply lookup_lt_Some in Hpr. lia.
Qed.

(** ** The searches *)

Lemma find_free_spec b h l hd fuel :
  chain next_samesize (pagerefs h) hd l ->
  (forall i pr, i ∈ l -> pagerefs h !! i = Some pr -> PR_BLOCKTYPE pr = Z.of_nat b) ->
  (length l < fuel)%nat ->
  exists r, find_free fuel b hd h = Done r h /\
    match r with
    | Some i => i ∈ l /\ exists pr, pagerefs h !! i = Some pr /\ nfree pr > 0
    | None => forall i pr, i ∈ l -> pagerefs h !! i = Some pr -> nfree pr <= 0
    end.
Proof.
  revert hd fuel. induction l as [|i l IH]; intros hd [|fuel] C T Hf; try (simpl in Hf; lia).
  { simpl in C. subst hd. exists None. split; [done|]. intros i pr Hi. by apply elem_of_nil in Hi. }
  destruct C as (-> & pr & Hi & C). simpl. unfold get_pr. munfold. unfold id. rewrite Hi.
  rewrite bool_decide_eq_true_2 by (apply (T i); [left|done]). case_decide as D.
  - exists (Some i). split; [done|]. split; [left|]. eauto.
  - destruct (IH (next_samesize pr) fuel C) as (r & E & P);
      [intros j q Hj; apply T; by right|simpl in Hf; lia|].
    rewrite E. exists r. split; [done|]. destruct r as [j|].
    + destruct P as [Hj P]. split; [by right|done].
    + intros j q Hj Hq. apply elem_of_cons in Hj as [->|Hj]; [|by eapply P].
      simplify_eq. lia.
Qed.

(** [i] is on the page of [a]. *)
Definition on_page (h : kheap) (i : nat) (a : Z) : Prop :=
  exists pr, pagerefs h !! i = Some pr /\ PR_PAGEADDR pr <= a < PR_PAGEADDR pr + PAGE_SIZE.

Lemma find_page_spec a h l hd fuel :
  chain next_all (pagerefs h) hd l ->
  (forall i pr, i ∈ l -> pagerefs h !! i = Some pr ->
     0 <= PR_BLOCKTYPE pr < NSIZES /\ 0 <= PR_PAGEADDR pr /\ PR_PAGEADDR pr + PAGE_SIZE < 2 ^ 32) ->
  (length l < fuel)%nat ->
  exists r, find_page fuel a hd h = Done r h /\
    match r with
    | Some i => i ∈ l /\ on_page h i a
    | None => forall i, i ∈ l -> ~ on_page h i a
    end.
Proof.
  revert hd fuel. induction l as [|i l IH]; intros hd [|fuel] C T Hf; try (simpl in Hf; lia).
  { simpl in C. subst hd. exists None. split; [done|]. intros i Hi. by apply elem_of_nil in Hi. }
  destruct C as (-> & pr & Hi & C). simpl. unfold get_pr. munfold. unfold id. rewrite Hi.
  destruct (T i pr ltac:(left) Hi) as (T1 & T2 & T3). unfold PAGE_SIZE in T3.
  rewrite bool_decide_eq_true_2 by lia. unfold PAGE_SIZE. rewrite u32_small by lia.
  case_decide as D.
  - exists (Some i). split; [done|]. split; [left|]. exists pr. unfold PAGE_SIZE. split; [done|lia].
  - destruct (IH (next_all pr) fuel C) as (r & E & P);
      [intros j q Hj; apply T; by right|simpl in Hf; lia|].
    rewrite E. exists r. split; [done|]. destruct r as [j|].
    + destruct P as [Hj P]. split; [by right|done].
    + intros j Hj. apply elem_of_cons in Hj as [->|Hj]; [|by apply P].
      intros (q & Hq & Hr). simplify_eq. unfold PAGE_SIZE in Hr. lia.
Qed.

Arguments find_free : simpl never.
Arguments find_page : simpl never.

(** ** The table of pagerefs *)

Lemma word_testbit_high n w k : 0 <= n -> 0 <= w < 2 ^ n -> n <= k -> Z.testbit w k = false.
Proof.
  intros Hn Hw Hk. destruct (decide (w = 0)) as [->|]; [apply Z.bits_0|].
  apply Z.bits_above_log2; [lia|]. apply Z.log2_lt_pow2; [lia|].
  apply Z.lt_le_trans with (2 ^ n); [lia|]. apply Z.pow_le_mono_r; lia.
Qed.

Lemma word_of_bits n w : 0 <= n -> 0 <= w -> (forall k, n <= k -> Z.testbit w k = false) -> w < 2 ^ n.
Proof.
  intros Hn Hw Hb. destruct (decide (w < 2 ^ n)) as [|Hge]; [done|]. exfalso.
  pose proof (Z.pow_pos_nonneg 2 n ltac:(lia) Hn).
  assert (n <= Z.log2 w) by (apply Z.log2_le_pow2; lia).
  pose proof (Z.bit_log2 w ltac:(lia)) as T. by rewrite Hb in T.
Qed.

Lemma word_full n w :
  0 <= n -> 0 <= w < 2 ^ n -> w <> Z.ones n -> exists k, 0 <= k < n /\ Z.testbit w k = false.
Proof.
  intros Hn Hw Hne.
  destruct (decide (Forall (fun k => Z.testbit w k = true) (seqZ 0 n))) as [Hall|Hno].
  - exfalso. apply Hne. apply Z.bits_inj'. intros k Hk. destruct (decide (k < n)).
    + rewrite Forall_forall in Hall. rewrite Hall by (apply elem_of_seqZ; lia).
      by rewrite Z.ones_spec_low by lia.
    + rewrite (word_testbit_high n), Z.ones_spec_high by lia. done.
  - apply not_Forall_Exists in Hno; [|apply _]. apply Exists_exists in Hno as (k & Hk & Ht).
    apply elem_of_seqZ in Hk. exists k. split; [lia|]. by apply not_true_is_false.
Qed.

Lemma lor_word w k : 0 <= w < 2 ^ 32 -> 0 <= k < 32 -> 0 <= Z.lor w (2 ^ k) < 2 ^ 32.
Proof.
  intros Hw Hk. assert (0 <= Z.lor w (2 ^ k)) by (apply Z.lor_nonneg; lia). split; [done|].
  apply word_of_bits; [lia|done|]. intros n Hn. rewrite set_bits by lia.
  rewrite decide_False by lia. apply (word_testbit_high 32); lia.
Qed.

Lemma alloc_ref_bit_spec h i w c j fuel :
  pagerefs_inuse h !! i = Some w -> 0 <= w < 2 ^ 32 ->
  (j <= c < 32)%nat -> Z.testbit w (Z.of_nat c) = false -> (33 <= fuel + j)%nat ->
  exists j', alloc_ref_bit fuel i (2 ^ Z.of_nat j) j h =
      Done (i * 32 + j')%nat
        (set_inuse (<[i := Z.lor w (2 ^ Z.of_nat j')]> (pagerefs_inuse h)) h) /\
    (j' < 32)%nat /\ Z.testbit w (Z.of_nat j') = false.
Proof.
  intros Hi Hw. revert j. induction fuel as [|fuel IH]; intros j Hj Hc Hf; [lia|].
  cbn [alloc_ref_bit]. munfold. unfold id.
  pose proof (Z.pow_pos_nonneg 2 (Z.of_nat j) ltac:(lia) ltac:(lia)).
  rewrite decide_False by lia. cbv beta. rewrite Hi. case_decide as D.
  - exists j. split; [done|]. split; [lia|]. apply land_pow2_0 in D; [done|lia].
  - rewrite land_pow2_0 in D by lia.
    assert (c <> j) by (intros ->; congruence).
    assert (Z.of_nat j + 1 < 32) by lia.
    assert (2 ^ (Z.of_nat j + 1) < 2 ^ 32) by (apply Z.pow_lt_mono_r; lia).
    assert (E : u32 (Z.shiftl (2 ^ Z.of_nat j) 1) = 2 ^ Z.of_nat (S j)).
    { rewrite Z.shiftl_mul_pow2, <- Z.pow_add_r, Nat2Z.inj_succ by lia. apply u32_small.
      split; [apply Z.pow_nonneg|]; lia. }
    rewrite E. apply IH; [lia|done|lia].
Qed.

(** The index of bit [c] of word [i]. *)
Lemma word_bit_index i c : (c < 32)%nat -> ((i * 32 + c) / 32 = i /\ (i * 32 + c) mod 32 = c)%nat.
Proof.
  intros. split.
  - rewrite Nat.add_comm, Nat.div_add, Nat.div_small by lia. lia.
  - rewrite Nat.add_comm, Nat.Div0.mod_add, Nat.mod_small by lia. lia.
Qed.

Lemma index_word_bit i : (i = (i / 32) * 32 + i mod 32 /\ i mod 32 < 32)%nat.
Proof.
  pose proof (Nat.div_mod i 32 ltac:(lia)). pose proof (Nat.mod_upper_bound i 32 ltac:(lia)). lia.
Qed.

Lemma inuse_update u P (Q : nat -> Prop) j w w' (b : bool) :
  inuse_ok u P -> (j < NPAGEREFS)%nat -> u !! (j / 32)%nat = Some w -> 0 <= w' < 2 ^ 32 ->
  (forall k, 0 <= k ->
     Z.testbit w' k = if decide (k = Z.of_nat (j mod 32)) then b else Z.testbit w k) ->
  (b = true <-> Q j) -> (forall i, i <> j -> P i <-> Q i) ->
  inuse_ok (<[(j / 32)%nat := w']> u) Q.
Proof.
  intros (Hl & Hr & Hu) Hj Hw Hw' Hb Hq Hpq. split; [by rewrite length_insert|].
  split; [by apply Forall_insert|]. intros i Hi. destruct (Hu i Hi) as (wi & Hwi & Ti).
  destruct (index_word_bit i) as [Ei Mi], (index_word_bit j) as [Ej Mj].
  destruct (decide (i / 32 = j / 32)%nat) as [Eq|Ne].
  - rewrite Eq, list_lookup_insert_eq by (rewrite Hl; by eapply lookup_lt_Some in Hw; lia).
    exists w'. split; [done|]. rewrite Hb by lia. rewrite Eq in Hwi. simplify_eq.
    case_decide as D.
    + assert (i = j) as -> by lia. done.
    + rewrite Ti. apply Hpq. intros ->. done.
  - rewrite list_lookup_insert_ne by done. exists wi. split; [done|]. rewrite Ti. apply Hpq.
    intros ->. done.
Qed.

Lemma alloc_ref_word_spec h P n i :
  inuse_ok (pagerefs_inuse h) P -> (i + n = INUSE_WORDS)%nat ->
  exists r h', alloc_ref_word n i h = Done r h' /\
    match r with
    | None => h' = h
    | Some j => (j < NPAGEREFS)%nat /\ ~ P j /\
        exists u, h' = set_inuse u h /\ inuse_ok u (fun i => i = j \/ P i)
    end.
Proof.
  intros U. pose proof U as (Hl & Hr & Hu). revert i.
  induction n as [|n IH]; intros i Hn; [by exists None, h|].
  destruct (lookup_lt_is_Some_2 (pagerefs_inuse h) i) as [w Hw]; [lia|].
  cbn [alloc_ref_word]. munfold. unfold id. rewrite Hw. case_decide as D; [apply IH; lia|].
  pose proof (Forall_lookup_1 _ _ _ _ Hr Hw) as Rw. simpl in Rw.
  destruct (word_full 32 w) as (c & Hc & Tc); [lia|lia|done|].
  destruct (alloc_ref_bit_spec h i w (Z.to_nat c) 0 33) as (j & E & Hj & Tj);
    rewrite ?Z2Nat.id by lia; [done|done|lia|done|lia|].
  change (2 ^ Z.of_nat 0) with 1 in E. rewrite E. destruct (word_bit_index i j Hj) as [Ed Em].
  eexists (Some (i * 32 + j)%nat), _. split; [done|].
  unfold NPAGEREFS, INUSE_WORDS in *. split; [lia|].
  destruct (Hu (i * 32 + j)%nat) as (w0 & Hw0 & T0); [lia|]. rewrite Ed in Hw0.
  rewrite Em in T0. assert (w0 = w) as -> by congruence. split; [by rewrite <- T0, Tj|].
  eexists. split; [done|]. rewrite <- Ed at 1.
  eapply (inuse_update _ _ _ _ w _ true U); rewrite ?Ed, ?Em; [unfold NPAGEREFS; lia|done|..].
  - apply lor_word; lia.
  - intros k Hk. apply set_bits. lia.
  - split; [by left|done].
  - intros j' Hj'. split; [by right|]. by intros [->|?].
Qed.

Arguments alloc_ref_bit : simpl never.
Arguments alloc_ref_word : simpl never.

Lemma freepageref_spec h P j :
  inuse_ok (pagerefs_inuse h) P -> (j < NPAGEREFS)%nat -> P j ->
  exists u, freepageref j h = Done tt (set_inuse u h) /\ inuse_ok u (fun i => i <> j /\ P i).
Proof.
  intros U Hj HP. pose proof U as (Hl & Hr & Hu). destruct (Hu j Hj) as (w & Hw & T).
  pose proof (Forall_lookup_1 _ _ _ _ Hr Hw) as Rw. simpl in Rw.
  destruct (index_word_bit j) as [Ej Mj].
  unfold freepageref. munfold. unfold id. rewrite bool_decide_eq_true_2 by done.
  rewrite Hw, Z.shiftl_1_l, bool_decide_eq_true_2.
  2:{ rewrite land_pow2_0 by lia. destruct T as [_ T]. rewrite T; done. }
  eexists. split; [done|].
  assert (Eb : forall k, 0 <= k -> Z.testbit (Z.land w (u32 (Z.lnot (2 ^ Z.of_nat (j mod 32))))) k =
    if decide (k = Z.of_nat (j mod 32)) then false else Z.testbit w k).
  { intros k Hk. unfold u32. rewrite Z.land_spec. destruct (decide (k < 32)).
    - rewrite Z.mod_pow2_bits_low by lia. rewrite <- Z.land_spec. apply clear_bits; lia.
    - rewrite (word_testbit_high 32 w) by lia. by case_decide. }
  eapply (inuse_update _ _ _ _ w _ false U); try done.
  - split; [apply Z.land_nonneg; lia|]. apply word_of_bits; [lia|apply Z.land_nonneg; lia|].
    intros k Hk. rewrite Eb, (word_testbit_high 32 w) by lia. by case_decide.
  - naive_solver.
  - naive_solver.
Qed.

(** ** Consequences of the invariant *)

Lemma fl_links_ext m m' page F :
  (forall o, o ∈ F -> m' !! (page + o) = m !! (page + o)) -> fl_links m page F -> fl_links m' page F.
Proof.
  induction F as [|o F IH]; simpl; [done|]. intros E [H1 H2].
  split; [by rewrite E by left|]. apply IH; [|done]. intros o' Ho'. apply E. by right.
Qed.

(** Page-aligned runs that share a byte share a page. *)
Lemma aligned_disjoint p q :
  p mod PAGE_SIZE = 0 -> q mod PAGE_SIZE = 0 -> p <> q -> p + PAGE_SIZE <= q \/ q + PAGE_SIZE <= p.
Proof.
  unfold PAGE_SIZE. intros Hp Hq Hne.
  pose proof (Z.div_mod p 4096 ltac:(lia)). pose proof (Z.div_mod q 4096 ltac:(lia)). lia.
Qed.

Lemma npages_enough n : LARGEST_SUBPAGE_SIZE <= n -> n <= npages n * PAGE_SIZE /\ 1 <= npages n.
Proof.
  unfold npages, PAGE_SIZE, LARGEST_SUBPAGE_SIZE. intros.
  pose proof (Z.div_mod (n + 4096 - 1) 4096 ltac:(lia)).
  pose proof (Z.mod_pos_bound (n + 4096 - 1) 4096 ltac:(lia)). lia.
Qed.

Lemma top_bound h : Ram.wf (phys h) -> top h <= MIPS_KSEG0 + lastpaddr (phys h) /\ top h + PAGE_SIZE < 2 ^ 32.
Proof. intros [? ? ?]. unfold top, MIPS_KSEG0, PAGE_SIZE, RAM_MAX in *. lia. Qed.

Lemma page_ok_fields h pr x :
  Ram.wf (phys h) -> page_ok h pr x ->
  PR_PAGEADDR pr = pg x /\ PR_BLOCKTYPE pr = Z.of_nat (bt x) /\
  0 < pg x /\ pg x + 2 * PAGE_SIZE < 2 ^ 32.
Proof.
  intros W P. pose proof (top_bound h W) as [_ T].
  destruct P as [P1 P2 P3 P4 _ _ _ _ _]. unfold MIPS_KSEG0, PAGE_SIZE in *.
  destruct (pab_fields pr (pg x) (bt x)) as [-> ->]; unfold PAGE_SIZE; try done; lia.
Qed.

Lemma pages_index h G i x :
  length (pagerefs h) = NPAGEREFS -> pages_ok h G -> G !! i = Some x -> (i < NPAGEREFS)%nat.
Proof.
  intros El P Hi. destruct (p_page _ _ P i x Hi) as (pr & Hpr & _).
  apply lookup_lt_Some in Hpr. by rewrite El in Hpr.
Qed.

Lemma page_ok_frame h h' pr x :
  page_ok h pr x -> top h <= top h' ->
  (forall a, pg x <= a < pg x + PAGE_SIZE -> mem h' !! a = mem h !! a) -> page_ok h' pr x.
Proof.
  intros [P1 P2 P3 P4 P5 P6 P7 P8 P9] T E. split; try done; [lia|].
  apply fl_links_ext with (mem h); [|done]. intros o Ho.
  rewrite Forall_forall in P8. destruct (P8 o Ho) as [? _]. apply E. lia.
Qed.

Lemma pages_apart h G i j x y :
  pages_ok h G -> G !! i = Some x -> G !! j = Some y -> i <> j ->
  pg x + PAGE_SIZE <= pg y \/ pg y + PAGE_SIZE <= pg x.
Proof.
  intros [P D] Hi Hj Hne. destruct (P i x Hi) as (pr & _ & Px). destruct (P j y Hj) as (pr' & _ & Py).
  apply aligned_disjoint; [apply Px|apply Py|]. eauto.
Qed.

Lemma big_block_mono h h' G G' p n :
  top h <= top h' ->
  (forall i x', G' !! i = Some x' -> exists x, G !! i = Some x /\ pg x = pg x') ->
  big_block h G p n -> big_block h' G' p n.
Proof.
  intros T E (H1 & H2 & H3 & H4 & H5). unfold big_block. split_and!; try done; [lia|].
  intros i x' Hx'. destruct (E i x' Hx') as (x & Hx & <-). eauto.
Qed.

Lemma big_not_on_page h G p n i x :
  big_block h G p n -> G !! i = Some x -> ~ (pg x <= p < pg x + PAGE_SIZE).
Proof.
  intros (H1 & _ & _ & _ & H5) Hi Hp. destruct (npages_enough n H1) as [_ ?].
  unfold PAGE_SIZE in *. destruct (H5 i x Hi); lia.
Qed.

(** A live block that starts on a page of blocks is one of its blocks. *)
Lemma block_on_page h B G i x p n :
  pages_ok h G -> blocks_ok h B G -> G !! i = Some x -> B !! p = Some n ->
  pg x <= p < pg x + PAGE_SIZE -> small_block x p n.
Proof.
  intros P Bl Hi Hn Hp. destruct (b_live _ _ _ Bl _ _ Hn) as [(j & y & Hj & S)|Hb].
  - destruct (decide (i = j)) as [<-|Hij]; [by simplify_eq|].
    destruct S as (S & _). destruct (pages_apart h G i j x y P Hi Hj Hij); lia.
  - by apply (big_not_on_page _ _ _ _ i x Hb Hi) in Hp.
Qed.

(** ** Changing the free list of one page *)

Lemma tables_same h h' T L SZ :
  tables h T L SZ ->
  length (pagerefs h') = length (pagerefs h) ->
  (forall i, next_all <$> pagerefs h' !! i = next_all <$> pagerefs h !! i) ->
  (forall i, next_samesize <$> pagerefs h' !! i = next_samesize <$> pagerefs h !! i) ->
  pagerefs_inuse h' = pagerefs_inuse h -> sizebases h' = sizebases h -> allbase h' = allbase h ->
  tables h' T L SZ.
Proof.
  intros [] El Ea Es Eu Eb Ec. split; rewrite ?El, ?Eu, ?Eb, ?Ec; try done.
  - eapply chain_ext; [|done]. auto.
  - intros b Hb. destruct (t_size0 b Hb) as (hd & ? & ?). exists hd. split; [done|].
    eapply chain_ext; [|done]. auto.
Qed.

Lemma pages_update h h' G i x pr' F :
  pages_ok h G -> G !! i = Some x ->
  pagerefs h' = <[i := pr']> (pagerefs h) -> top h' = top h ->
  (forall a, ~ (pg x <= a < pg x + PAGE_SIZE) -> mem h' !! a = mem h !! a) ->
  page_ok h' pr' (set_fl F x) -> pages_ok h' (<[i := set_fl F x]> G).
Proof.
  intros PO Hi Ep Et Hm P. pose proof PO as [Pp Pd]. split.
  - intros j y Hj. apply lookup_insert_Some in Hj as [[<- <-]|[Hne Hj]].
    + exists pr'. split; [|done]. rewrite Ep. apply list_lookup_insert_eq.
      destruct (Pp i x Hi) as (q & Hq & _). by eapply lookup_lt_Some.
    + destruct (Pp j y Hj) as (q & Hq & Pq). exists q.
      split; [by rewrite Ep, list_lookup_insert_ne|].
      eapply page_ok_frame; [done|lia|]. intros a Ha. apply Hm.
      destruct (pages_apart h G i j x y) as [?|?]; auto; lia.
  - assert (Eg : forall j y', <[i := set_fl F x]> G !! j = Some y' ->
      exists y, G !! j = Some y /\ pg y = pg y').
    { intros j y' Hj. apply lookup_insert_Some in Hj as [[<- <-]|[Hne Hj]]; eauto. }
    intros j k y z Hj Hk E. destruct (Eg j y Hj) as (y0 & ? & ?).
    destruct (Eg k z Hk) as (z0 & ? & ?). eapply Pd; eauto. congruence.
Qed.

Lemma blocks_update h h' B B' G i x F :
  pages_ok h G -> blocks_ok h B G -> G !! i = Some x -> top h' = top h ->
  (forall p, ~ (pg x <= p < pg x + PAGE_SIZE) -> B' !! p = B !! p) ->
  (forall p n, pg x <= p < pg x + PAGE_SIZE -> B' !! p = Some n -> small_block (set_fl F x) p n) ->
  (forall o, valid_off (bt x) o -> o ∉ F -> is_Some (B' !! (pg x + o))) ->
  blocks_ok h' B' (<[i := set_fl F x]> G).
Proof.
  intros PO [Bl Bb Ba] Hi Et Hout Hin Hacct.
  assert (Eg : forall j y', <[i := set_fl F x]> G !! j = Some y' ->
    exists y, G !! j = Some y /\ pg y = pg y').
  { intros j y' Hj. apply lookup_insert_Some in Hj as [[<- <-]|[Hne Hj]]; eauto. }
  assert (Eg' : forall j y, G !! j = Some y ->
    exists y', <[i := set_fl F x]> G !! j = Some y' /\ pg y' = pg y).
  { intros j y Hj. destruct (decide (i = j)) as [<-|].
    - exists (set_fl F x). rewrite lookup_insert_eq, Hi in *. by simplify_eq.
    - exists y. by rewrite lookup_insert_ne. }
  assert (Hbig : forall p n, B' !! p = Some n -> big_block h' (<[i := set_fl F x]> G) p n ->
    B !! p = Some n /\ big_block h G p n).
  { intros p n Hp Hb. rewrite <- Hout.
    - split; [done|]. eapply big_block_mono; [| |done]; [lia|done].
    - apply (big_not_on_page _ _ _ _ i (set_fl F x) Hb). apply lookup_insert_eq. }
  split.
  - intros p n Hp. destruct (decide (pg x <= p < pg x + PAGE_SIZE)) as [Hx|Hx].
    + left. exists i, (set_fl F x). split; [apply lookup_insert_eq|auto].
    + rewrite Hout in Hp by done. destruct (Bl p n Hp) as [(j & y & Hj & S)|Hb].
      * left. exists j, y. split; [|done]. rewrite lookup_insert_ne; [done|].
        intros <-. simplify_eq. apply Hx. apply S.
      * right. eapply big_block_mono; [| |done]; [lia|done].
  - intros p n q m Hp Hq Hbp Hbq. destruct (Hbig p n Hp Hbp), (Hbig q m Hq Hbq). eauto.
  - intros j y o Hj Hv Ho. apply lookup_insert_Some in Hj as [[<- <-]|[Hne Hj]]; [by apply Hacct|].
    rewrite Hout; [by eapply Ba|]. destruct Hv as [? _].
    destruct (pages_apart h G i j x y) as [?|?]; auto; lia.
Qed.

Lemma rep_update_page h h' B B' G L SZ i x pr pr' F :
  rep h B G L SZ -> G !! i = Some x -> pagerefs h !! i = Some pr ->
  next_samesize pr' = next_samesize pr -> next_all pr' = next_all pr ->
  h' = set_mem (mem h') (set_pagerefs (<[i := pr']> (pagerefs h)) h) ->
  (forall a, ~ (pg x <= a < pg x + PAGE_SIZE) -> mem h' !! a = mem h !! a) ->
  page_ok h' pr' (set_fl F x) ->
  (forall p, ~ (pg x <= p < pg x + PAGE_SIZE) -> B' !! p = B !! p) ->
  (forall p n, pg x <= p < pg x + PAGE_SIZE -> B' !! p = Some n -> small_block (set_fl F x) p n) ->
  (forall o, valid_off (bt x) o -> o ∉ F -> is_Some (B' !! (pg x + o))) ->
  rep h' B' (<[i := set_fl F x]> G) L SZ.
Proof.
  intros [W T P B0] Hi Hpr Hs Ha Eh Hm Pk Hout Hin Hacct.
  assert (Et : top h' = top h) by (rewrite Eh; done).
  assert (El : forall nx : pageref -> option nat, nx pr' = nx pr ->
     forall j, nx <$> pagerefs h' !! j = nx <$> pagerefs h !! j).
  { intros nx E j. rewrite Eh. simpl. destruct (decide (j = i)) as [->|].
    - rewrite list_lookup_insert_eq by (by eapply lookup_lt_Some). rewrite Hpr. simpl. by rewrite E.
    - by rewrite list_lookup_insert_ne. }
  split.
  - by rewrite Eh.
  - rewrite fmap_insert. simpl. rewrite insert_id by (by rewrite lookup_fmap, Hi).
    apply (tables_same h); [done| |by apply El|by apply El|by rewrite Eh|by rewrite Eh|by rewrite Eh].
    rewrite Eh. apply length_insert.
  - eapply pages_update; eauto. by rewrite Eh.
  - eapply blocks_update; eauto.
Qed.

Lemma block_fits b o : (b < 8)%nat -> valid_off b o -> o + bsize b <= PAGE_SIZE.
Proof.
  intros Hb [Ho Hm]. destruct (bsize_cases b Hb) as (_ & Hs & _ & Em & _ & _).
  apply Z.mod_divide in Hm as [k Hk]; [|lia].
  assert (k < PAGE_SIZE / bsize b) by nia. nia.
Qed.

(** ** Taking a block from a page *)

(** The offsets of the blocks of a page, in the order of a fresh free list. *)
Definition offs (b : nat) (n : Z) : list Z := (fun k => k * bsize b) <$> reverse (seqZ 0 n).
Definition all_offs (b : nat) : list Z := offs b (PAGE_SIZE / bsize b).

Lemma elem_of_all_offs b o : (b < 8)%nat -> o ∈ all_offs b <-> valid_off b o.
Proof.
  intros Hb. destruct (bsize_cases b Hb) as (_ & Hs & _ & Em & Hn & _).
  unfold all_offs, offs, valid_off. rewrite list_elem_of_fmap. split.
  - intros (k & -> & Hk). rewrite elem_of_reverse, elem_of_seqZ in Hk.
    rewrite Z.mod_mul by lia. split; [|done]. nia.
  - intros [Ho Hd]. apply Z.mod_divide in Hd as [k Hk]; [|lia]. exists k. split; [done|].
    rewrite elem_of_reverse, elem_of_seqZ. nia.
Qed.

Lemma length_all_offs b : length (all_offs b) = Z.to_nat (PAGE_SIZE / bsize b).
Proof. unfold all_offs, offs. by rewrite length_fmap, length_reverse, length_seqZ. Qed.

Lemma NoDup_all_offs b : (b < 8)%nat -> NoDup (all_offs b).
Proof.
  intros Hb. destruct (bsize_cases b Hb) as (_ & Hs & _).
  apply NoDup_fmap_2_strong; [intros; nia|]. rewrite reverse_Permutation. apply NoDup_seqZ.
Qed.

(** A page has no more free blocks than blocks, and all of them when as many. *)
Lemma free_count b F :
  (b < 8)%nat -> Forall (valid_off b) F -> NoDup F ->
  Z.of_nat (length F) <= PAGE_SIZE / bsize b /\
  (Z.of_nat (length F) = PAGE_SIZE / bsize b -> forall o, valid_off b o -> o ∈ F).
Proof.
  intros Hb V N. destruct (bsize_cases b Hb) as (_ & _ & _ & _ & Hn & _).
  assert (S : F ⊆+ all_offs b).
  { apply NoDup_submseteq; [done|]. intros o Ho. apply elem_of_all_offs; [done|].
    rewrite Forall_forall in V. auto. }
  pose proof (submseteq_length _ _ S) as HL. rewrite length_all_offs in HL. split; [lia|].
  intros E o Ho. apply elem_of_all_offs in Ho; [|done].
  apply submseteq_length_Permutation in S; [|rewrite length_all_offs; lia]. by rewrite S.
Qed.

Definition first_off (F : list Z) : Z := match F with [] => INVALID_OFFSET | o :: _ => o end.

Lemma get_pr_eq i h pr : pagerefs h !! i = Some pr -> get_pr i h = Done pr h.
Proof. intros E. unfold get_pr. munfold. unfold id. by rewrite E. Qed.

Lemma upd_pr_eq i f h pr :
  pagerefs h !! i = Some pr -> upd_pr i f h = Done tt (set_pagerefs (<[i := f pr]> (pagerefs h)) h).
Proof. intros E. unfold upd_pr. munfold. by rewrite (get_pr_eq i h pr E). Qed.

Lemma u16_small z : 0 <= z < 2 ^ 16 -> u16 z = z.
Proof. intros. unfold u16. by apply Z.mod_small. Qed.

Lemma insert_lookup_pr i (h : kheap) pr pr' :
  pagerefs h !! i = Some pr -> <[i := pr']> (pagerefs h) !! i = Some pr'.
Proof. intros E. apply list_lookup_insert_eq. by eapply lookup_lt_Some. Qed.

Lemma get_pr_upd i h pr pr' :
  pagerefs h !! i = Some pr ->
  get_pr i (set_pagerefs (<[i := pr']> (pagerefs h)) h) =
  Done pr' (set_pagerefs (<[i := pr']> (pagerefs h)) h).
Proof. intros E. apply get_pr_eq. by eapply insert_lookup_pr. Qed.

(** Two successive updates of a pageref. *)
Lemma upd_pr_twice i f h pr pr' :
  pagerefs h !! i = Some pr ->
  upd_pr i f (set_pagerefs (<[i := pr']> (pagerefs h)) h) =
  Done tt (set_pagerefs (<[i := f pr']> (pagerefs h)) h).
Proof.
  intros E. rewrite (upd_pr_eq i f _ pr'); [|by eapply insert_lookup_pr].
  simpl. by rewrite list_insert_insert_eq.
Qed.

Lemma doalloc_run h i pr x o F :
  Ram.wf (phys h) -> pagerefs h !! i = Some pr -> page_ok h pr x -> fl x = o :: F ->
  doalloc i h = Done (pg x + o)
    (set_pagerefs (<[i := set_offset (first_off F) (set_nfree (Z.of_nat (length F)) pr)]> (pagerefs h)) h).
Proof.
  intros W Hpr P EF. destruct (page_ok_fields h pr x W P) as (Ea & _ & G1 & G2).
  destruct P as [P1 P2 P3 P4 P5 P6 P7 P8 P9]. rewrite EF in *.
  destruct (free_count (bt x) (o :: F) P1 P8 P9) as [Hc _].
  destruct (bsize_cases (bt x) P1) as (_ & _ & _ & _ & Hn & _).
  apply Forall_cons in P8 as [[Ho _] P8]. simpl in P5, Hc. destruct P7 as [Pl _].
  unfold PAGE_SIZE in *. unfold doalloc. munfold.
  rewrite (get_pr_eq i h pr Hpr), P6, Ea, (u32_small (pg x + o)) by lia.
  unfold PAGE_SIZE. rewrite bool_decide_eq_true_2 by lia.
  unfold load. munfold. unfold id. rewrite Pl, (upd_pr_eq i _ h pr Hpr).
  rewrite (get_pr_upd i h pr _ Hpr).
  simpl (nfree _). rewrite P5, u16_small by lia.
  replace (Z.of_nat (S (length F)) - 1) with (Z.of_nat (length F)) by lia.
  destruct F as [|o' F]; simpl fl_head.
  - rewrite decide_False by (intros []; done). rewrite bool_decide_eq_true_2 by done.
    by rewrite (upd_pr_twice i _ h pr _ Hpr).
  - apply Forall_cons in P8 as [[Ho' _] _]. unfold PAGE_SIZE in Ho'.
    rewrite decide_True, bool_decide_eq_true_2 by (simpl; lia).
    replace (fl_head (pg x) (o' :: F) - pg x) with o' by (simpl; lia). rewrite u32_small, bool_decide_eq_true_2 by lia.
    rewrite u16_small by lia. by rewrite (upd_pr_twice i _ h pr _ Hpr).
Qed.

Lemma doalloc_spec h B G L SZ i x o F sz :
  rep h B G L SZ -> G !! i = Some x -> fl x = o :: F -> 0 <= sz <= bsize (bt x) ->
  exists h', doalloc i h = Done (pg x + o) h' /\ 0 < pg x + o /\ B !! (pg x + o) = None /\
    rep h' (<[pg x + o := sz]> B) (<[i := set_fl F x]> G) L SZ.
Proof.
  intros R Hi EF Hsz. pose proof R as [W T P Bl]. destruct (p_page _ _ P i x Hi) as (pr & Hpr & Px).
  destruct (page_ok_fields h pr x W Px) as (_ & _ & G1 & G2).
  eexists. split; [by apply doalloc_run|]. pose proof Px as [P1 P2 P3 P4 P5 P6 P7 P8 P9].
  rewrite EF in *. apply Forall_cons in P8 as [Vo P8]. apply NoDup_cons in P9 as [No P9].
  destruct Vo as [Ro Do]. split; [unfold PAGE_SIZE in *; lia|].
  split.
  { destruct (B !! (pg x + o)) as [n|] eqn:E; [exfalso|done].
    destruct (block_on_page h B G i x _ _ P Bl Hi E) as (_ & _ & S & _); [lia|].
    apply S. rewrite EF. replace (pg x + o - pg x) with o by lia. left. }
  eapply (rep_update_page h _ B _ G L SZ i x pr
    (set_offset (first_off F) (set_nfree (Z.of_nat (length F)) pr))); try done.
  - split; simpl; try done; destruct Px; try done. by destruct P7.
  - intros p Hp. apply lookup_insert_ne. lia.
  - intros p n Hp. rewrite lookup_insert_Some. unfold small_block. simpl.
    intros [[<- <-]|[Hne Hn]].
    + replace (pg x + o - pg x) with o by lia. split_and!; try done; lia.
    + destruct (block_on_page h B G i x _ _ P Bl Hi Hn Hp) as (S1 & S2 & S3 & S4).
      rewrite EF in S3. by apply not_elem_of_cons in S3 as [_ S3].
  - intros o' Vo' Ho'. destruct (decide (o' = o)) as [->|Hne]; [rewrite lookup_insert_eq; eauto|].
    rewrite lookup_insert_ne by lia. eapply (b_acct _ _ _ Bl); try done.
    rewrite EF. apply not_elem_of_cons. done.
Qed.

(** ** A fresh page *)

Lemma offs_snoc b n : 0 <= n -> offs b (n + 1) = n * bsize b :: offs b n.
Proof.
  intros Hn. unfold offs. rewrite seqZ_app by lia. rewrite reverse_app. done.
Qed.

Lemma store_eq h a w :
  MIPS_KSEG0 <= a -> a + 4 <= MIPS_KSEG0 + lastpaddr (phys h) -> a mod 4 = 0 ->
  store a w h = Done tt (set_mem (<[a := w]> (mem h)) h).
Proof. intros. unfold store. munfold. unfold id. by rewrite decide_True. Qed.

Lemma page_block_aligned b page k :
  (b < 8)%nat -> page mod PAGE_SIZE = 0 -> (page + k * bsize b) mod 4 = 0.
Proof.
  intros Hb Hp. destruct (bsize_cases b Hb) as (_ & _ & _ & _ & _ & H4).
  apply Z.mod_divide in H4 as [q Hq]; [|lia]. rewrite Hq.
  apply Z.mod_divide in Hp as [r Hr]; [|unfold PAGE_SIZE; lia]. unfold PAGE_SIZE in Hr. rewrite Hr.
  replace (r * 4096 + k * (q * 4)) with ((r * 1024 + k * q) * 4) by lia. by apply Z.mod_mul.
Qed.

(** The run of a page inside memory that the stores of the allocator need. *)
Definition page_in_ram (r : ram) (page : Z) : Prop :=
  page mod PAGE_SIZE = 0 /\ MIPS_KSEG0 < page /\ page + PAGE_SIZE <= MIPS_KSEG0 + lastpaddr r /\
  page + 2 * PAGE_SIZE < 2 ^ 32.

Lemma init_freelist_spec b page n i h :
  (b < 8)%nat -> page_in_ram (phys h) page -> 1 <= i -> i + Z.of_nat n <= PAGE_SIZE / bsize b ->
  fl_links (mem h) page (offs b i) ->
  exists m, init_freelist n i page (bsize b) (page + (i - 1) * bsize b) h =
      Done (page + (i + Z.of_nat n - 1) * bsize b) (set_mem m h) /\
    fl_links m page (offs b (i + Z.of_nat n)) /\
    forall a, ~ (page <= a < page + PAGE_SIZE) -> m !! a = mem h !! a.
Proof.
  intros Hb (Q1 & Q2 & Q3 & Q4). destruct (bsize_cases b Hb) as (_ & Hs & _ & Em & Hn & _).
  revert i h Q3. induction n as [|n IH]; intros i h Q3 Hi Hin HF.
  { exists (mem h). simpl. rewrite Z.add_0_r. split_and!; try done. by destruct h. }
  cbn [init_freelist]. munfold. unfold PAGE_SIZE in *.
  assert (Hk : 0 <= (i - 1) * bsize b /\ i * bsize b + bsize b <= 4096) by nia.
  assert (0 < page) by (unfold MIPS_KSEG0 in Q2; lia).
  rewrite (u32_small (page + i * bsize b)), (u32_small (page + (i - 1) * bsize b)) by lia.
  rewrite store_eq by (lia || by apply page_block_aligned).
  rewrite bool_decide_eq_true_2 by lia.
  edestruct (IH (i + 1) (set_mem (<[page + i * bsize b := page + (i - 1) * bsize b]> (mem h)) h))
    as (m & E & Hm & Ho); [done|lia|lia|..].
  - rewrite offs_snoc by lia. simpl. rewrite lookup_insert_eq. split.
    + replace i with (i - 1 + 1) at 2 by lia. by rewrite offs_snoc by lia.
    + eapply fl_links_ext; [|done]. intros o Ho. rewrite lookup_insert_ne; [done|].
      unfold offs in Ho. apply list_elem_of_fmap in Ho as (k & -> & Hk').
      apply elem_of_reverse, elem_of_seqZ in Hk'. nia.
  - exists m. replace (page + (i + 1 - 1) * bsize b) with (page + i * bsize b) in E by lia. rewrite E.
    replace (i + Z.of_nat (S n)) with (i + 1 + Z.of_nat n) by lia. split; [done|].
    split; [done|]. intros a Ha. rewrite Ho by done. simpl. apply lookup_insert_ne. lia.
Qed.

Definition cons_size (SZ : nat -> list nat) (b i : nat) : nat -> list nat :=
  fun b' => if decide (b' = b) then i :: SZ b else SZ b'.

Lemma tables_add h h' T L SZ i b hd pr' :
  tables h T L SZ -> (b < 8)%nat -> (i < NPAGEREFS)%nat -> T !! i = None ->
  sizebases h !! b = Some hd ->
  pagerefs h' = <[i := pr']> (pagerefs h) -> next_all pr' = allbase h -> next_samesize pr' = hd ->
  sizebases h' = <[b := Some i]> (sizebases h) -> allbase h' = Some i ->
  inuse_ok (pagerefs_inuse h') (fun j => j = i \/ is_Some (T !! j)) ->
  tables h' (<[i := b]> T) (i :: L) (cons_size SZ b i).
Proof.
  intros [] Hb Hi HT Hhd Ep Ea Es Esb Eab Eu.
  assert (HL : i ∉ L) by (rewrite t_all_dom0, HT; by intros []).
  assert (HS : forall b', (b' < 8)%nat -> i ∉ SZ b') by (intros; rewrite t_size_dom0, HT; done).
  assert (Hpr : pagerefs h' !! i = Some pr').
  { rewrite Ep. apply list_lookup_insert_eq. lia. }
  split.
  - by rewrite Ep, length_insert.
  - rewrite Eab. split; [done|]. exists pr'. split; [done|]. rewrite Ea, Ep.
    by apply chain_insert_notin.
  - by apply NoDup_cons.
  - intros j. rewrite elem_of_cons, t_all_dom0, lookup_insert_is_Some.
    destruct (decide (i = j)); naive_solver.
  - intros b' Hb'. unfold cons_size. case_decide as D.
    + subst b'. exists (Some i). rewrite Esb, list_lookup_insert_eq by (by eapply lookup_lt_Some).
      split; [done|]. split; [done|]. exists pr'. split; [done|]. rewrite Es, Ep.
      apply chain_insert_notin; [auto|]. destruct (t_size0 b Hb) as (hd' & ? & ?). by simplify_eq.
    + destruct (t_size0 b' Hb') as (hd' & ? & ?). exists hd'. rewrite Esb, list_lookup_insert_ne by done.
      split; [done|]. rewrite Ep. by apply chain_insert_notin; [apply HS|].
  - intros b' Hb'. unfold cons_size. case_decide; [subst; apply NoDup_cons|]; auto.
  - intros b' j Hb'. unfold cons_size. rewrite lookup_insert_Some.
    case_decide as D; [subst b'; rewrite elem_of_cons|]; rewrite t_size_dom0 by done;
      destruct (decide (i = j)) as [<-|]; naive_solver.
  - destruct Eu as (? & ? & U). split_and!; try done. intros j Hj.
    destruct (U j Hj) as (w & ? & E). exists w. split; [done|]. rewrite E, lookup_insert_is_Some.
    destruct (decide (i = j)); naive_solver.
Qed.

Lemma pages_add h h' G i x pr' :
  pages_ok h G -> (i < length (pagerefs h))%nat -> G !! i = None ->
  pagerefs h' = <[i := pr']> (pagerefs h) -> top h <= pg x -> top h <= top h' ->
  (forall a, ~ (pg x <= a < pg x + PAGE_SIZE) -> mem h' !! a = mem h !! a) ->
  page_ok h' pr' x -> pages_ok h' (<[i := x]> G).
Proof.
  intros [Pp Pd] Hi HG Ep Hx Ht Hm P. split.
  - intros j y Hj. apply lookup_insert_Some in Hj as [[<- <-]|[Hne Hj]].
    + exists pr'. split; [|done]. rewrite Ep. by apply list_lookup_insert_eq.
    + destruct (Pp j y Hj) as (q & Hq & Pq). exists q.
      split; [by rewrite Ep, list_lookup_insert_ne|].
      eapply page_ok_frame; [done|lia|]. intros a Ha. apply Hm. destruct (po_range _ _ _ Pq). lia.
  - assert (D : forall j y, G !! j = Some y -> pg y <> pg x).
    { intros j y Hj E. destruct (Pp j y Hj) as (q & _ & Pq). destruct (po_range _ _ _ Pq).
      unfold PAGE_SIZE in *. lia. }
    intros j k y z Hj Hk E. apply lookup_insert_Some in Hj as [[<- <-]|[? Hj]];
      apply lookup_insert_Some in Hk as [[<- <-]|[? Hk]]; try done.
    + by destruct (D k z Hk).
    + by destruct (D j y Hj).
    + eapply Pd; eauto.
Qed.

Lemma blocks_add h h' B G i x :
  blocks_ok h B G -> G !! i = None -> top h <= pg x -> top h <= top h' ->
  (forall o, valid_off (bt x) o -> o ∈ fl x) -> blocks_ok h' B (<[i := x]> G).
Proof.
  intros [Bl Bb Ba] HG Hx Ht Hfree.
  assert (Hbig : forall p n, big_block h G p n -> big_block h' (<[i := x]> G) p n).
  { intros p n (H1 & H2 & H3 & H4 & H5). split_and!; try done; [lia|]. intros j y Hj.
    apply lookup_insert_Some in Hj as [[<- <-]|[_ Hj]]; [right; lia|by apply (H5 j)]. }
  assert (Hbig' : forall p n, B !! p = Some n -> big_block h' (<[i := x]> G) p n -> big_block h G p n).
  { intros p n Hp Hb. destruct (Bl p n Hp) as [(j & y & Hj & S)|]; [exfalso|done].
    destruct S as (S & _). eapply (big_not_on_page _ _ _ _ j y Hb); [|done].
    rewrite lookup_insert_ne; [done|]. intros ->. congruence. }
  split.
  - intros p n Hp. destruct (Bl p n Hp) as [(j & y & Hj & S)|Hb]; [left|right; auto].
    exists j, y. split; [|done]. rewrite lookup_insert_ne; [done|]. intros ->. congruence.
  - intros p n q m Hp Hq Hbp Hbq. apply Bb with m; auto.
  - intros j y o Hj Hv Ho. apply lookup_insert_Some in Hj as [[<- <-]|[_ Hj]]; [|by eapply Ba].
    by destruct Ho; apply Hfree.
Qed.

Lemma inuse_ext u P Q : (forall i, P i <-> Q i) -> inuse_ok u P -> inuse_ok u Q.
Proof.
  intros E (? & ? & U). split_and!; try done. intros i Hi. destruct (U i Hi) as (w & ? & T).
  exists w. by rewrite T.
Qed.

(** The state after [new_page] has initialised pageref [i] for the page at
    [page], in terms of the state before. *)
Definition with_page (h : kheap) (i b : nat) (page : Z) (u : list Z) (m : gmap Z Z) (r : ram)
    (hd : option nat) : kheap :=
  mkkheap
    (<[i := mkpr hd (allbase h) (page + Z.of_nat b)
              ((PAGE_SIZE / bsize b - 1) * bsize b) (PAGE_SIZE / bsize b)]> (pagerefs h))
    u (<[b := Some i]> (sizebases h)) (Some i) m r.

Lemma upd_mk i f pr prs u sb ab m r :
  (i < length prs)%nat ->
  upd_pr i f (mkkheap (<[i := pr]> prs) u sb ab m r) =
  Done tt (mkkheap (<[i := f pr]> prs) u sb ab m r).
Proof.
  intros Hi. rewrite (upd_pr_eq i f _ pr) by (by apply list_lookup_insert_eq).
  unfold set_pagerefs. simpl. by rewrite list_insert_insert_eq.
Qed.

Lemma get_mk i pr prs u sb ab m r :
  (i < length prs)%nat ->
  get_pr i (mkkheap (<[i := pr]> prs) u sb ab m r) =
  Done pr (mkkheap (<[i := pr]> prs) u sb ab m r).
Proof. intros Hi. apply get_pr_eq. by apply list_lookup_insert_eq. Qed.

Ltac kheap_simpl :=
  unfold set_pagerefs, set_inuse, set_sizebases, set_allbase, set_mem, set_phys;
  cbn [pagerefs pagerefs_inuse sizebases allbase mem phys].

Lemma new_page_run h i b u r pr hd page :
  (b < 8)%nat -> allocpageref h = Done (Some i) (set_inuse u h) ->
  alloc_kpages 1 (phys h) = Done page r -> page_in_ram r page ->
  pagerefs h !! i = Some pr -> sizebases h !! b = Some hd ->
  exists m, new_page b (bsize b) h = Done (Some i) (with_page h i b page u m r hd) /\
    fl_links m page (all_offs b) /\
    forall a, ~ (page <= a < page + PAGE_SIZE) -> m !! a = mem h !! a.
Proof.
  intros Hb Ea Ek Hp Hpr Hhd. destruct h as [prs u0 sb ab m0 r0]. simpl in Ek, Hpr, Hhd.
  destruct (bsize_cases b Hb) as (_ & Hs & _ & Em & Hn & _). pose proof Hp as (Q1 & Q2 & Q3 & Q4).
  pose proof (lookup_lt_Some _ _ _ Hpr) as Hi.
  assert (0 < page) by (unfold MIPS_KSEG0 in Q2; lia).
  edestruct (init_freelist_spec b page (Z.to_nat (PAGE_SIZE / bsize b - 1)) 1
    (mkkheap (<[i := set_nfree (PAGE_SIZE / bsize b) (set_pab (page + Z.of_nat b) pr)]> prs)
       u sb ab (<[page := 0]> m0) r)) as (m & E & Hm & Ho); [done|done|lia|lia| |].
  { split; [|done]. simpl. rewrite Z.mul_0_l, Z.add_0_r, lookup_insert_eq. done. }
  unfold new_page. munfold. rewrite Ea. unfold zoom. cbn [lget lset physL]. kheap_simpl.
  rewrite Ek, decide_False by lia. rewrite MKPAB_eq by (done || unfold PAGE_SIZE in *; lia).
  rewrite (upd_pr_eq _ _ _ pr) by done. kheap_simpl.
  rewrite upd_mk, get_mk by done. simpl (nfree _). rewrite u16_small by lia.
  rewrite store_eq by (simpl; unfold PAGE_SIZE in *; lia ||
    (replace page with (page + 0 * bsize b) by lia; by apply page_block_aligned)).
  kheap_simpl. replace (page + (1 - 1) * bsize b) with page in E by lia. rewrite E.
  rewrite (Z2Nat.id (PAGE_SIZE / bsize b - 1)) in * by lia. kheap_simpl.
  assert (Eo : u16 (u32 (page + (1 + (PAGE_SIZE / bsize b - 1) - 1) * bsize b - page)) =
    (PAGE_SIZE / bsize b - 1) * bsize b).
  { replace (page + _ - page) with ((PAGE_SIZE / bsize b - 1) * bsize b) by lia.
    unfold PAGE_SIZE in *. rewrite u32_small, u16_small by nia. done. }
  rewrite upd_mk, get_mk by done. rewrite Eo. rewrite bool_decide_eq_true_2 by done.
  unfold id. kheap_simpl. rewrite Hhd. rewrite !upd_mk by done. kheap_simpl.
  rewrite upd_mk by done. exists m. split; [done|].
  replace (1 + (PAGE_SIZE / bsize b - 1)) with (PAGE_SIZE / bsize b) in Hm by lia.
  split; [done|]. intros a Ha. rewrite Ho by done. simpl. apply lookup_insert_ne.
  unfold PAGE_SIZE in Ha. lia.
Qed.

Lemma set_inuse_rep h B G L SZ u :
  rep h B G L SZ -> inuse_ok u (fun i => is_Some (G !! i)) -> rep (set_inuse u h) B G L SZ.
Proof.
  intros [W T [Pp Pd] [Bl Bb Ba]] U. split; [done| |split|by split].
  - destruct T. split; try done. eapply inuse_ext; [|done]. intros i. by rewrite lookup_fmap, fmap_is_Some.
  - intros i x Hi. destruct (Pp i x Hi) as (pr & ? & P). exists pr. split; [done|].
    eapply page_ok_frame; [done|done|done].
  - done.
Qed.

Lemma rep_add_page h B G L SZ i b u m hd page pr :
  rep h B G L SZ -> (b < 8)%nat -> pagerefs h !! i = Some pr -> sizebases h !! b = Some hd ->
  G !! i = None -> inuse_ok u (fun j => j = i \/ is_Some (G !! j)) ->
  page = firstpaddr (phys h) + MIPS_KSEG0 ->
  wf (mkram (firstpaddr (phys h) + 1 * PAGE_SIZE) (lastpaddr (phys h))) ->
  fl_links m page (all_offs b) ->
  (forall a, ~ (page <= a < page + PAGE_SIZE) -> m !! a = mem h !! a) ->
  rep (with_page h i b page u m (mkram (firstpaddr (phys h) + 1 * PAGE_SIZE) (lastpaddr (phys h))) hd)
    B (<[i := mkpinfo page b (all_offs b)]> G) (i :: L) (cons_size SZ b i).
Proof.
  intros [W T P Bl] Hb Hpr Hhd HG U Ep W' Hm Ho. pose proof (lookup_lt_Some _ _ _ Hpr) as Hi.
  destruct (bsize_cases b Hb) as (_ & _ & _ & _ & Hn & _).
  assert (Et : top h = page) by (unfold top; lia).
  pose proof (t_lenp _ _ _ _ T) as El. destruct W as [W1 W2 W3].
  split; [done|..].
  - rewrite fmap_insert. eapply tables_add; try done; [lia|by rewrite lookup_fmap, HG|].
    eapply inuse_ext; [|done]. intros j. by rewrite lookup_fmap, fmap_is_Some.
  - eapply (pages_add h); try done; simpl; try lia; [unfold top; simpl; unfold PAGE_SIZE; lia|].
    split; simpl; try done.
    + rewrite Ep, Zplus_mod, W3. done.
    + unfold top, MIPS_KSEG0, PAGE_SIZE in *. simpl. lia.
    + rewrite length_all_offs. lia.
    + unfold all_offs. replace (PAGE_SIZE / bsize b) with (PAGE_SIZE / bsize b - 1 + 1) by lia.
      by rewrite offs_snoc, Z.add_simpl_r by lia.
    + apply Forall_forall. intros o. by apply elem_of_all_offs.
    + by apply NoDup_all_offs.
  - eapply (blocks_add h); try done; simpl; [lia|unfold top; simpl; unfold PAGE_SIZE; lia|].
    intros o Hv. by apply elem_of_all_offs.
Qed.

Lemma new_page_spec h B G L SZ b :
  rep h B G L SZ -> (b < 8)%nat ->
  (exists h', new_page b (bsize b) h = Done None h' /\ rep h' B G L SZ) \/
  (exists i page h' L' SZ', new_page b (bsize b) h = Done (Some i) h' /\ G !! i = None /\
     rep h' B (<[i := mkpinfo page b (all_offs b)]> G) L' SZ').
Proof.
  intros R Hb. pose proof R as [W T P Bl].
  assert (U : inuse_ok (pagerefs_inuse h) (fun i => is_Some (G !! i))).
  { eapply inuse_ext; [|apply T]. intros i. simpl. by rewrite lookup_fmap, fmap_is_Some. }
  destruct (alloc_ref_word_spec h _ INUSE_WORDS 0 U eq_refl) as (r & h1 & E & Hr).
  destruct r as [i|].
  2:{ left. subst h1. exists h. unfold new_page. munfold. unfold allocpageref. by rewrite E. }
  destruct Hr as (Hi & HG & u & -> & Hu). apply eq_None_not_Some in HG.
  destruct (lookup_lt_is_Some_2 (pagerefs h) i) as [pr Hpr]; [by rewrite (t_lenp _ _ _ _ T)|].
  destruct (t_size _ _ _ _ T b Hb) as (hd & Hhd & _).
  destruct (alloc_kpages_cases (phys h) 1 W) as [Ek|(Ek & W')]; [unfold MAXPAGES; lia|..].
  - left. unfold new_page. munfold. unfold allocpageref. rewrite E. unfold zoom. simpl (lget _ _).
    rewrite Ek, decide_True by done.
    destruct (freepageref_spec (set_inuse u h) (fun j => j = i \/ is_Some (G !! j)) i Hu Hi)
      as (u' & E' & Hu'); [by left|].
    simpl (lset _ _ _). change (set_phys (phys h) (set_inuse u h)) with (set_inuse u h).
    rewrite E'. eexists. split; [done|]. change (rep (set_inuse u' h) B G L SZ).
    apply set_inuse_rep; [done|]. eapply inuse_ext; [|done]. intros j. simpl. split; [tauto|].
    intros Hj. split; [|by right]. intros ->. by rewrite HG in Hj; destruct Hj.
  - right. destruct (wf_align _ W'), W as [W1 W2 W3].
    destruct (new_page_run h i b u (mkram (firstpaddr (phys h) + 1 * PAGE_SIZE) (lastpaddr (phys h)))
      pr hd (firstpaddr (phys h) + MIPS_KSEG0)) as (m & E' & Hm & Ho); try done.
    { destruct W' as [V1 V2 V3]. unfold page_in_ram, MIPS_KSEG0, PAGE_SIZE, RAM_MAX in *. simpl in V1, V2, V3 |- *.
      rewrite Zplus_mod, W3. split_and!; try done; lia. }
    eexists i, _, _, _, _. split; [exact E'|]. split; [done|]. by eapply rep_add_page.
Qed.

(** ** Allocation *)

Lemma sizebase_blocktype h B G L SZ b i pr :
  rep h B G L SZ -> (b < 8)%nat -> i ∈ SZ b -> pagerefs h !! i = Some pr ->
  exists x, G !! i = Some x /\ bt x = b /\ page_ok h pr x /\ PR_BLOCKTYPE pr = Z.of_nat b.
Proof.
  intros [W T P _] Hb Hi Hpr. apply (t_size_dom _ _ _ _ T) in Hi; [|done].
  rewrite lookup_fmap, fmap_Some in Hi. destruct Hi as (x & Hx & ->).
  destruct (p_page _ _ P i x Hx) as (pr' & Hpr' & Px). assert (pr' = pr) as -> by congruence.
  destruct (page_ok_fields h pr x W Px) as (_ & ? & _). eauto.
Qed.

Lemma blocktype_spec h sz :
  0 <= sz <= LARGEST_SUBPAGE_SIZE ->
  exists b, blocktype sz h = Done b h /\ (b < 8)%nat /\ sz <= bsize b.
Proof.
  unfold LARGEST_SUBPAGE_SIZE, blocktype. intros Hsz. simpl. munfold.
  repeat (case_decide; [eexists; split; [done|]; split; [lia|]; unfold bsize; simpl; lia|]). lia.
Qed.

Lemma subpage_kmalloc_spec h B sz :
  kheap_rep h B -> 0 <= sz < LARGEST_SUBPAGE_SIZE ->
  (exists h', subpage_kmalloc sz h = Done 0 h' /\ kheap_rep h' B) \/
  (exists p h', subpage_kmalloc sz h = Done p h' /\ 0 < p /\ B !! p = None /\
     kheap_rep h' (<[p := sz]> B)).
Proof.
  intros (G & L & SZ & R & I) Hsz. pose proof R as [W T P Bl].
  destruct (blocktype_spec h sz) as (b & Eb & Hb & Hs); [lia|].
  destruct (bsize_cases b Hb) as (_ & _ & _ & _ & Hn & _).
  destruct (t_size _ _ _ _ T b Hb) as (hd & Hhd & C).
  destruct (find_free_spec b h (SZ b) hd list_fuel) as (r & Ef & Hr); [done|..].
  { intros i pr Hi Hpr. by destruct (sizebase_blocktype _ _ _ _ _ _ _ _ R Hb Hi Hpr) as (_ & _ & _ & _ & ?). }
  { pose proof (chain_length _ _ _ _ C (t_size_nodup _ _ _ _ T b Hb)) as HL.
    rewrite (t_lenp _ _ _ _ T) in HL. unfold list_fuel. lia. }
  unfold subpage_kmalloc. munfold. rewrite Eb, sizes_lookup by done. unfold id. rewrite Hhd, Ef.
  destruct r as [i|].
  - right. destruct Hr as (Hi & pr & Hpr & Hfree).
    destruct (sizebase_blocktype _ _ _ _ _ _ _ _ R Hb Hi Hpr) as (x & Hx & <- & Px & _).
    rewrite (po_nfree _ _ _ Px) in Hfree. destruct (fl x) as [|o F] eqn:EF; [simpl in Hfree; lia|].
    destruct (doalloc_spec h B G L SZ i x o F sz) as (h' & E & Hp & HB & R'); [done..|lia|].
    exists (pg x + o), h'. split_and!; try done. exists (<[i := set_fl F x]> G), L, SZ. split; [done|].
    intros j y Hj. apply lookup_insert_Some in Hj as [[<- <-]|[_ Hj]]; [|by eapply I].
    simpl. pose proof (I i x Hx) as Ix. rewrite EF in Ix. simpl in Ix. lia.
  - destruct (new_page_spec h B G L SZ b R Hb)
      as [(h1 & E1 & R1)|(i & page & h1 & L1 & SZ1 & E1 & HG & R1)]; rewrite E1.
    + left. exists h1. split; [done|]. by exists G, L, SZ.
    + right. destruct (all_offs b) as [|o F] eqn:EF.
      { pose proof (length_all_offs b) as HL. rewrite EF in HL. simpl in HL. lia. }
      destruct (doalloc_spec h1 B _ L1 SZ1 i (mkpinfo page b (o :: F)) o F sz R1)
        as (h' & E & Hp & HB & R'); [by rewrite lookup_insert_eq|done|simpl; lia|].
      eexists _, h'. split_and!; try done. eexists _, _, _. split; [exact R'|].
      rewrite insert_insert_eq. intros j y Hj.
      apply lookup_insert_Some in Hj as [[<- <-]|[_ Hj]]; [|by eapply I].
      simpl. pose proof (length_all_offs b) as HL. rewrite EF in HL. simpl in HL. lia.
Qed.

(** A run of pages off the end of the memory in use becomes a live block. *)
Lemma rep_add_big h B G L SZ sz :
  let r' := mkram (firstpaddr (phys h) + npages sz * PAGE_SIZE) (lastpaddr (phys h)) in
  rep h B G L SZ -> LARGEST_SUBPAGE_SIZE <= sz -> wf r' ->
  B !! top h = None /\ rep (set_phys r' h) (<[top h := sz]> B) G L SZ.
Proof.
  intros r' [W T P Bl] Hsz W'. destruct (npages_enough sz Hsz) as [_ Hn].
  assert (Et : top (set_phys r' h) = top h + npages sz * PAGE_SIZE) by (unfold top; simpl; lia).
  assert (Hpos : 0 < npages sz * PAGE_SIZE) by (unfold PAGE_SIZE; lia).
  assert (Hpg : forall i x, G !! i = Some x -> pg x + PAGE_SIZE <= top h).
  { intros i x Hi. destruct (p_page _ _ P i x Hi) as (pr & _ & Px). apply (po_range _ _ _ Px). }
  assert (Hlow : forall p n, B !! p = Some n -> p < top h /\
    (big_block h G p n -> p + npages n * PAGE_SIZE <= top h)).
  { intros p n Hp. split; [|by intros (_ & _ & _ & ? & _)].
    destruct (b_live _ _ _ Bl p n Hp) as [(i & x & Hi & S)|Hb].
    - destruct S as (S & _). specialize (Hpg i x Hi). lia.
    - destruct Hb as (H1 & _ & _ & H4 & _). destruct (npages_enough n H1).
      unfold PAGE_SIZE, LARGEST_SUBPAGE_SIZE in *. lia. }
  assert (Hback : forall p n, big_block (set_phys r' h) G p n -> B !! p = Some n -> big_block h G p n).
  { intros p n Hb Hp. destruct (b_live _ _ _ Bl p n Hp) as [(i & x & Hi & (S & _))|]; [exfalso|done].
    by apply (big_not_on_page _ _ _ _ _ _ Hb Hi). }
  assert (HN : B !! top h = None).
  { destruct (B !! top h) as [n|] eqn:E; [|done]. destruct (Hlow _ _ E). lia. }
  split; [done|]. split; [done|by destruct T|..].
  - destruct P as [Pp Pd]. split; [|done]. intros i x Hi. destruct (Pp i x Hi) as (pr & ? & Px).
    exists pr. split; [done|]. eapply page_ok_frame; [done|lia|done].
  - destruct Bl as [Bl Bb Ba]. split.
    + intros p n. rewrite lookup_insert_Some. intros [[<- <-]|[_ Hp]].
      * right. split_and!; try done; [|unfold top; destruct W as [W1 _ _]; unfold top; lia|lia|eauto].
        unfold top. rewrite Zplus_mod, (wf_align _ W). done.
      * destruct (Bl p n Hp) as [|Hb]; [by left|right].
        eapply big_block_mono; [| |done]; [lia|eauto].
    + intros p n q m. rewrite !lookup_insert_Some.
      intros [[<- <-]|[_ Hp]] [[<- <-]|[_ Hq]] Hbp Hbq Hlt; [lia|..].
      * destruct (Hlow q m Hq). lia.
      * by apply (Hlow p n Hp), Hback.
      * apply Bb with m; auto.
    + intros i x o Hi Hv Ho. rewrite lookup_insert_is_Some.
      destruct (decide (top h = pg x + o)); [by left|right]. split; [done|]. by eapply Ba.
Qed.

Lemma kmalloc_rep h B sz :
  kheap_rep h B -> 0 <= sz <= KMALLOC_MAX ->
  (exists h', kmalloc sz h = Done 0 h' /\ kheap_rep h' B) \/
  (exists p h', kmalloc sz h = Done p h' /\ 0 < p /\ B !! p = None /\
     kheap_rep h' (<[p := sz]> B)).
Proof.
  intros R Hsz. unfold kmalloc. case_decide as D; [|apply subpage_kmalloc_spec; [done|lia]].
  destruct R as (G & L & SZ & R & I). pose proof (r_ram _ _ _ _ _ R) as W.
  assert (En : u32 (sz + PAGE_SIZE - 1) / PAGE_SIZE = npages sz).
  { unfold npages, PAGE_SIZE, KMALLOC_MAX in *. by rewrite u32_small by lia. }
  assert (Hn : 1 <= npages sz <= MAXPAGES).
  { split; [apply npages_enough; lia|]. unfold npages, PAGE_SIZE, KMALLOC_MAX, MAXPAGES in *.
    apply Z.div_le_upper_bound; lia. }
  rewrite En, s32_small by (unfold MAXPAGES in Hn; lia).
  unfold zoom. simpl (lget _ _).
  destruct (alloc_kpages_cases (phys h) (npages sz) W) as [E|(E & W')]; [lia|..]; rewrite E.
  - left. exists h. split; [by destruct h|]. by exists G, L, SZ.
  - right. destruct (rep_add_big h B G L SZ sz R ltac:(lia) W') as [HN R'].
    exists (top h). eexists. split; [unfold top; by rewrite Z.add_comm|].
    destruct W as [W1 _ _]. split; [unfold top, MIPS_KSEG0; lia|]. split; [done|].
    by exists G, L, SZ.
Qed.

(** ** Taking a page off the lists *)

(** [h'] is [h] with the links of list [w] changed at its base and at members
    in [S] only. *)
Record links_only (w : which) (S : list nat) (h h' : kheap) : Prop := {
  lo_mem : mem h' = mem h;
  lo_phys : phys h' = phys h;
  lo_inuse : pagerefs_inuse h' = pagerefs_inuse h;
  lo_base : match w with
            | SameSize b => allbase h' = allbase h /\
                forall b', b' <> b -> sizebases h' !! b' = sizebases h !! b'
            | AllPages => sizebases h' = sizebases h
            end;
  lo_len : length (pagerefs h') = length (pagerefs h);
  lo_pr : forall j, pagerefs h' !! j = pagerefs h !! j \/
    (j ∈ S /\ exists pr y, pagerefs h !! j = Some pr /\ pagerefs h' !! j = Some (set_nxt w y pr));
}.

Lemma assign_next w k y h pr :
  pagerefs h !! k = Some pr ->
  assign w (NextOf k) y h = Done tt (set_pagerefs (<[k := set_nxt w y pr]> (pagerefs h)) h).
Proof. intros E. destruct w; simpl; by apply upd_pr_eq. Qed.

Lemma nxt_set w y pr : nxt w (set_nxt w y pr) = y.
Proof. by destruct w. Qed.

Lemma deref_base w y h h' hd :
  assign w Base y h = Done tt h' -> deref w Base h = Done hd h -> deref w Base h' = Done y h'.
Proof.
  destruct w as [b|]; simpl; munfold; unfold id; intros E D; simplify_eq; [|done].
  destruct (sizebases h !! b) eqn:Eb; simplify_eq/=.
  rewrite list_lookup_insert_eq; [done|]. by eapply lookup_lt_Some.
Qed.

Lemma deref_base_prs w prs h hd :
  deref w Base h = Done hd h -> deref w Base (set_pagerefs prs h) = Done hd (set_pagerefs prs h).
Proof.
  destruct w as [b|]; simpl; munfold; unfold id; simpl; intros D; [|by simplify_eq].
  destruct (sizebases h !! b); by simplify_eq.
Qed.

Lemma unlink_spec w h l1 x l2 hd :
  length (pagerefs h) = NPAGEREFS ->
  deref w Base h = Done hd h -> chain (nxt w) (pagerefs h) hd (l1 ++ x :: l2) ->
  NoDup (l1 ++ x :: l2) ->
  exists h' hd', unlink list_fuel w Base x h = Done tt h' /\ deref w Base h' = Done hd' h' /\
    chain (nxt w) (pagerefs h') hd' (l1 ++ l2) /\ links_only w l1 h h'.
Proof.
  intros El D C N. pose proof (chain_length _ _ _ _ C N) as HL. rewrite El, length_app in HL.
  assert (Hx : x ∉ l1). { apply NoDup_app in N as (_ & N & _). intros Hx. apply (N x Hx). left. }
  rewrite (unlink_run w h x l2 l1 Base hd); [|done..|unfold list_fuel; lia]. unfold place.
  destruct (last l1) as [k|] eqn:Ek.
  - apply last_Some in Ek as [l1' ->]. rewrite <- app_assoc in *. simpl in *.
    destruct (chain_lookup _ _ _ _ k C) as [prk Hk]; [set_solver|].
    rewrite (assign_next w k (head l2) h prk Hk). eexists _, hd. split; [done|].
    split; [by apply deref_base_prs|]. split; [eapply chain_drop; try done; apply nxt_set|].
    split; try done; simpl; [by destruct w|by rewrite length_insert|].
    intros j. destruct (decide (k = j)) as [<-|]; [|left; by rewrite list_lookup_insert_ne].
    right. split; [set_solver|]. exists prk, (head l2). split; [done|].
    apply list_lookup_insert_eq. by eapply lookup_lt_Some.
  - apply last_None in Ek as ->. simpl in *. destruct C as (-> & prx & Hx' & C).
    assert (E : exists h', assign w Base (head l2) h = Done tt h' /\ pagerefs h' = pagerefs h /\
      links_only w [] h h').
    { destruct w as [b|]; simpl; munfold; eexists; (split; [done|]); (split; [done|]); split; try done; auto.
      split; [done|]. intros b' Hb'. simpl. by rewrite list_lookup_insert_ne. }
    destruct E as (h' & E & Ep & LO). exists h', (head l2). split; [done|].
    split; [by eapply deref_base|]. split; [|done]. rewrite Ep. by rewrite <- (chain_head _ _ _ _ C).
Qed.

Lemma links_only_fields w S h h' i pr' :
  links_only w S h h' -> pagerefs h' !! i = Some pr' ->
  exists pr, pagerefs h !! i = Some pr /\
    pageaddr_and_blocktype pr' = pageaddr_and_blocktype pr /\
    freelist_offset pr' = freelist_offset pr /\ nfree pr' = nfree pr.
Proof.
  intros LO Hi. destruct (lo_pr _ _ _ _ LO i) as [E|(_ & pr & y & E & E')].
  - rewrite Hi in E. by exists pr'.
  - exists pr. rewrite E' in Hi. injection Hi as <-. by destruct w.
Qed.

(** The links of the other lists are as they were. *)
Lemma links_only_other w S h h' (nx : pageref -> option nat) :
  links_only w S h h' -> (forall y pr, nx (set_nxt w y pr) = nx pr) ->
  forall j, nx <$> pagerefs h' !! j = nx <$> pagerefs h !! j.
Proof.
  intros LO Hn j. destruct (lo_pr _ _ _ _ LO j) as [->|(_ & pr & y & -> & ->)]; [done|].
  simpl. by rewrite Hn.
Qed.

Lemma links_only_out w S h h' j : links_only w S h h' -> j ∉ S -> pagerefs h' !! j = pagerefs h !! j.
Proof. intros LO Hj. by destruct (lo_pr _ _ _ _ LO j) as [|[? _]]. Qed.

(** A pageref without regard to its links. *)
Definition same_page (h h' : kheap) : Prop :=
  mem h' = mem h /\ phys h' = phys h /\ pagerefs_inuse h' = pagerefs_inuse h /\
  length (pagerefs h') = length (pagerefs h) /\
  forall i pr', pagerefs h' !! i = Some pr' ->
    exists pr, pagerefs h !! i = Some pr /\
      pageaddr_and_blocktype pr' = pageaddr_and_blocktype pr /\
      freelist_offset pr' = freelist_offset pr /\ nfree pr' = nfree pr.

Lemma links_only_same_page w S h h' : links_only w S h h' -> same_page h h'.
Proof.
  intros LO. split_and!; try apply LO. intros i pr'. by apply links_only_fields with w S.
Qed.

Lemma same_page_trans h1 h2 h3 : same_page h1 h2 -> same_page h2 h3 -> same_page h1 h3.
Proof.
  intros (A1 & A2 & A3 & A4 & A5) (B1 & B2 & B3 & B4 & B5). split_and!; try congruence.
  intros i pr' Hi. destruct (B5 i pr' Hi) as (pr & Hp & ? & ? & ?).
  destruct (A5 i pr Hp) as (pr0 & Hp0 & ? & ? & ?). exists pr0. split_and!; congruence.
Qed.

Lemma NoDup_split_out (l1 l2 : list nat) x :
  NoDup (l1 ++ x :: l2) -> NoDup (l1 ++ l2) /\ forall j, j ∈ l1 ++ l2 <-> j ∈ l1 ++ x :: l2 /\ j <> x.
Proof.
  rewrite <- Permutation_middle, NoDup_cons. intros [Hx N]. split; [done|]. intros j.
  rewrite <- Permutation_middle, elem_of_cons. naive_solver.
Qed.

Lemma unlink_size h T L SZ i b :
  tables h T L SZ -> T !! i = Some b -> (b < 8)%nat ->
  exists h' l, unlink list_fuel (SameSize b) Base i h = Done tt h' /\
    same_page h h' /\ allbase h' = allbase h /\
    (forall j, next_all <$> pagerefs h' !! j = next_all <$> pagerefs h !! j) /\
    NoDup l /\ (forall j, j ∈ l <-> j ∈ SZ b /\ j <> i) /\
    forall b', (b' < 8)%nat -> exists hd, sizebases h' !! b' = Some hd /\
      chain next_samesize (pagerefs h') hd (if decide (b' = b) then l else SZ b').
Proof.
  intros [] Hi Hb. destruct (t_size0 b Hb) as (hd & Hhd & C).
  assert (Hin : i ∈ SZ b) by (by rewrite t_size_dom0).
  apply list_elem_of_split in Hin as (s1 & s2 & Es). pose proof (t_size_nodup0 b Hb) as N.
  rewrite Es in C, N. destruct (NoDup_split_out _ _ _ N) as [N' E'].
  destruct (unlink_spec (SameSize b) h s1 i s2 hd) as (h' & hd' & E & D & C' & LO); try done.
  { simpl. munfold. unfold id. by rewrite Hhd. }
  exists h', (s1 ++ s2). split; [done|]. split; [by eapply links_only_same_page|].
  destruct (lo_base _ _ _ _ LO) as [Eb Es']. split; [done|].
  split; [by apply (links_only_other _ _ _ _ _ LO)|]. split; [done|].
  split; [intros j; by rewrite E', Es|]. intros b' Hb'. case_decide as Db.
  - subst b'. simpl in D. munfold. unfold id in D.
    destruct (sizebases h' !! b) as [hd''|]; simplify_eq. eauto.
  - destruct (t_size0 b' Hb') as (hd'' & ? & C''). exists hd''. split; [by rewrite Es'|].
    eapply chain_ext; [|done]. intros j Hj. rewrite (links_only_out _ _ _ _ _ LO); [done|].
    intros Hj'. assert (Hjb : j ∈ SZ b) by (rewrite Es; set_solver).
    rewrite t_size_dom0 in Hj, Hjb by done. congruence.
Qed.

Lemma remove_lists_spec h T L SZ i b :
  tables h T L SZ -> T !! i = Some b -> (b < 8)%nat ->
  exists h' L' SZ', remove_lists i (Z.of_nat b) h = Done tt h' /\ same_page h h' /\
    forall u, inuse_ok u (fun j => j <> i /\ is_Some (T !! j)) ->
      tables (set_inuse u h') (delete i T) L' SZ'.
Proof.
  intros T0 Hi Hb. destruct (unlink_size h T L SZ i b T0 Hi Hb)
    as (h1 & l & E1 & S1 & A1 & NA & Nl & El & C1).
  destruct T0. pose proof S1 as (_ & _ & _ & L1 & _).
  assert (Hin : i ∈ L) by (rewrite t_all_dom0, Hi; eauto).
  apply list_elem_of_split in Hin as (l1 & l2 & ->).
  destruct (NoDup_split_out _ _ _ t_all_nodup0) as [N' E'].
  destruct (unlink_spec AllPages h1 l1 i l2 (allbase h1)) as (h2 & hd2 & E2 & D2 & C2 & LO2);
    [congruence|done| |done|].
  { rewrite A1. eapply chain_ext; [|done]. auto. }
  exists h2, (l1 ++ l2), (fun b' => if decide (b' = b) then l else SZ b').
  split.
  { unfold remove_lists. munfold. unfold NSIZES. rewrite bool_decide_eq_true_2 by lia.
    by rewrite Nat2Z.id, E1, E2. }
  split; [eapply same_page_trans; [done|by eapply links_only_same_page]|].
  intros u U. simpl in D2. munfold. simplify_eq. split; simpl; try done.
  - rewrite (lo_len _ _ _ _ LO2). congruence.
  - intros j. rewrite E', t_all_dom0, lookup_delete_is_Some. naive_solver.
  - intros b' Hb'. destruct (C1 b' Hb') as (hd & Hhd & C). exists hd.
    rewrite (lo_base _ _ _ _ LO2). split; [done|].
    eapply chain_ext; [|done]. intros j _. by apply (links_only_other _ _ _ _ _ LO2).
  - intros b' Hb'. case_decide; auto.
  - intros b' j Hb'. rewrite lookup_delete_Some. case_decide as D.
    + subst b'. rewrite El, t_size_dom0 by done. naive_solver.
    + rewrite t_size_dom0 by done. split; [|tauto]. intros Hj. split; [|done].
      intros <-. congruence.
  - eapply inuse_ext; [|done]. intros j. simpl. rewrite lookup_delete_is_Some. naive_solver.
Qed.

Lemma pages_drop h h' G i : pages_ok h G -> same_page h h' -> pages_ok h' (delete i G).
Proof.
  intros [Pp Pd] (Em & Er & _ & El & Es). split.
  - intros j y Hj. apply lookup_delete_Some in Hj as [_ Hj].
    destruct (Pp j y Hj) as (pr & Hpr & P).
    destruct (lookup_lt_is_Some_2 (pagerefs h') j) as [pr' Hpr'];
      [rewrite El; by eapply lookup_lt_Some|].
    exists pr'. split; [done|]. destruct (Es j pr' Hpr') as (q & Hq & E1 & E2 & E3).
    assert (q = pr) as -> by congruence.
    destruct P as [P1 P2 P3 P4 P5 P6 P7 P8 P9]. split; try done; rewrite ?E1, ?E2, ?E3, ?Em; try done.
    unfold top. by rewrite Er.
  - intros j k y z Hj Hk. apply lookup_delete_Some in Hj as [_ Hj].
    apply lookup_delete_Some in Hk as [_ Hk]. eauto.
Qed.

Lemma blocks_drop h h' B G i x :
  blocks_ok h B G -> G !! i = Some x -> (forall o, valid_off (bt x) o -> o ∈ fl x) ->
  top h' = top h -> blocks_ok h' B (delete i G).
Proof.
  intros [Bl Bb Ba] Hi Hfree Et.
  assert (Hs : forall p n, B !! p = Some n ->
    (exists j y, delete i G !! j = Some y /\ small_block y p n) \/ big_block h G p n).
  { intros p n Hp. destruct (Bl p n Hp) as [(j & y & Hj & S)|]; [left|by right].
    exists j, y. split; [|done]. rewrite lookup_delete_ne; [done|]. intros <-.
    simplify_eq. destruct S as (_ & S2 & S3 & _). auto. }
  assert (Hup : forall p n, big_block h G p n -> big_block h' (delete i G) p n).
  { intros p n Hb. eapply big_block_mono; [| |done]; [lia|].
    intros j y Hj. apply lookup_delete_Some in Hj as [_ Hj]. eauto. }
  split.
  - intros p n Hp. destruct (Hs p n Hp); [by left|right; auto].
  - assert (Hdn : forall p n, B !! p = Some n -> big_block h' (delete i G) p n -> big_block h G p n).
    { intros p n Hp Hb. destruct (Hs p n Hp) as [(j & y & Hj & S)|]; [|done].
      exfalso. destruct S as (S & _). by apply (big_not_on_page _ _ _ _ _ _ Hb Hj). }
    intros p n q m Hp Hq Hbp Hbq. apply Bb with m; auto.
  - intros j y o Hj. apply lookup_delete_Some in Hj as [_ Hj]. by apply (Ba j).
Qed.

(** Giving back a page all of whose blocks are free. *)
Lemma rep_drop_page h B G L SZ i x :
  rep h B G L SZ -> G !! i = Some x -> (forall o, valid_off (bt x) o -> o ∈ fl x) ->
  exists h' L' SZ',
    (remove_lists i (Z.of_nat (bt x)) ;; zoom physL (free_kpages (pg x)) ;; freepageref i) h =
      Done tt h' /\
    rep h' B (delete i G) L' SZ'.
Proof.
  intros [W T P Bl] Hi Hfree. destruct (p_page _ _ P i x Hi) as (pr & _ & Px).
  assert (HT : (bt <$> G) !! i = Some (bt x)) by (by rewrite lookup_fmap, Hi).
  destruct (remove_lists_spec h _ L SZ i (bt x) T HT (po_bt _ _ _ Px))
    as (h1 & L1 & SZ1 & E1 & S1 & T1). pose proof S1 as (Em & Er & Eu & _ & _).
  pose proof (pages_index _ _ _ _ (t_lenp _ _ _ _ T) P Hi) as Hlt.
  destruct (freepageref_spec h1 (fun j => is_Some ((bt <$> G) !! j)) i) as (u & E2 & U).
  { rewrite Eu. apply (t_inuse _ _ _ _ T). } { done. } { rewrite HT. eauto. }
  exists (set_inuse u h1), L1, SZ1. split.
  { munfold. rewrite E1. unfold zoom, free_kpages. munfold. simpl (lget _ _). simpl (lset _ _ _).
    replace (set_phys (phys h1) h1) with h1 by (by destruct h1). by rewrite E2. }
  split.
  - simpl. by rewrite Er.
  - rewrite fmap_delete. by apply T1.
  - eapply pages_drop in P; [|done]. destruct P as [Pp Pd]. split; [|done].
    intros j y Hj. destruct (Pp j y Hj) as (q & ? & ?). exists q. split; [done|].
    by eapply page_ok_frame.
  - eapply blocks_drop; eauto. unfold top. simpl. by rewrite Er.
Qed.

(** ** Freeing a block *)

Lemma fill_deadbeef_spec p n i h :
  MIPS_KSEG0 <= p -> 0 <= i -> p + (i + Z.of_nat n) * 4 <= MIPS_KSEG0 + lastpaddr (phys h) ->
  p mod 4 = 0 ->
  exists m, for_n n i (fun i => store (p + i * 4) 3735928559) h = Done tt (set_mem m h) /\
    forall a, ~ (p <= a < p + (i + Z.of_nat n) * 4) -> m !! a = mem h !! a.
Proof.
  intros Hp Hi. revert i h Hi. induction n as [|n IH]; intros i h Hi Hr Ha.
  { exists (mem h). split; [by destruct h|done]. }
  cbn [for_n]. munfold. rewrite store_eq; [|lia|lia|rewrite Z.mod_add by lia; done].
  destruct (IH (i + 1) (set_mem (<[p + i * 4 := 3735928559]> (mem h)) h)) as (m & E & Hm);
    [lia|simpl; lia|done|].
  exists m. rewrite E. split; [done|]. intros a Hna. rewrite Hm by lia. simpl.
  apply lookup_insert_ne. lia.
Qed.

Lemma find_page_rep h B G L SZ a :
  rep h B G L SZ ->
  exists r, find_page list_fuel a (allbase h) h = Done r h /\
    match r with
    | Some i => exists x, G !! i = Some x /\ pg x <= a < pg x + PAGE_SIZE
    | None => forall i x, G !! i = Some x -> ~ (pg x <= a < pg x + PAGE_SIZE)
    end.
Proof.
  intros [W T P Bl].
  assert (HL : forall i, i ∈ L <-> is_Some (G !! i)).
  { intros i. rewrite (t_all_dom _ _ _ _ T). by rewrite lookup_fmap, fmap_is_Some. }
  assert (HP : forall i x pr, G !! i = Some x -> pagerefs h !! i = Some pr ->
    PR_PAGEADDR pr = pg x /\ 0 <= PR_BLOCKTYPE pr < NSIZES /\ 0 <= pg x /\ pg x + PAGE_SIZE < 2 ^ 32).
  { intros i x pr Hi Hpr. destruct (p_page _ _ P i x Hi) as (pr' & Hpr' & Px).
    assert (pr' = pr) as -> by congruence. pose proof (po_bt _ _ _ Px).
    destruct (page_ok_fields h pr x W Px) as (-> & -> & ? & ?). unfold NSIZES, PAGE_SIZE in *. lia. }
  destruct (find_page_spec a h L (allbase h) list_fuel) as (r & E & Hr); [apply T|..].
  { intros i pr Hi Hpr. apply HL in Hi as [x Hx]. destruct (HP i x pr Hx Hpr) as (-> & ? & ? & ?). done. }
  { pose proof (chain_length _ _ _ _ (t_all _ _ _ _ T) (t_all_nodup _ _ _ _ T)) as HLe.
    rewrite (t_lenp _ _ _ _ T) in HLe. unfold list_fuel. lia. }
  exists r. split; [done|]. destruct r as [i|].
  - destruct Hr as (Hi & pr & Hpr & Ha). apply HL in Hi as [x Hx].
    destruct (HP i x pr Hx Hpr) as (Ep & _). rewrite Ep in Ha. eauto.
  - intros i x Hx Ha. destruct (p_page _ _ P i x Hx) as (pr & Hpr & _).
    destruct (HP i x pr Hx Hpr) as (Ep & _). apply (Hr i); [apply HL; eauto|].
    exists pr. by rewrite Ep.
Qed.

(** What [subpage_kfree] does with the page, once it is found and the block
    is on its free list. *)
Definition kfree_finish (i b : nat) (page : Z) (nf : Z) : KM bool :=
  (if decide (nf = PAGE_SIZE / bsize b) then
     remove_lists i (Z.of_nat b) ;; zoom physL (free_kpages page) ;; freepageref i
   else mret tt) ;; mret true.

Lemma subpage_kfree_run h p i x pr :
  Ram.wf (phys h) -> find_page list_fuel p (allbase h) h = Done (Some i) h ->
  pagerefs h !! i = Some pr -> page_ok h pr x ->
  pg x <= p < pg x + PAGE_SIZE -> valid_off (bt x) (p - pg x) ->
  Z.of_nat (length (fl x)) < PAGE_SIZE / bsize (bt x) ->
  exists m, subpage_kfree p h =
      kfree_finish i (bt x) (pg x) (Z.of_nat (length (fl x)) + 1)
        (set_mem (<[p := fl_head (pg x) (fl x)]> m)
          (set_pagerefs (<[i := set_nfree (Z.of_nat (length (fl x)) + 1)
             (set_offset (p - pg x) pr)]> (pagerefs h)) h)) /\
    forall a, ~ (p <= a < p + bsize (bt x)) -> m !! a = mem h !! a.
Proof.
  intros W Ef Hpr P Hp [Vo Vm] Hlt. destruct (page_ok_fields h pr x W P) as (Ea & Eb & G1 & G2).
  destruct P as [P1 P2 P3 P4 P5 P6 P7 P8 P9]. destruct (top_bound h W) as [Tb _].
  destruct (bsize_cases (bt x) P1) as (_ & Hs & _ & Em & Hn & H4).
  pose proof (block_fits (bt x) (p - pg x) P1 (conj Vo Vm)) as Hfit.
  assert (Hal : p mod 4 = 0).
  { apply Z.mod_divide in Vm as [k Hk]; [|lia]. replace p with (pg x + k * bsize (bt x)) by lia.
    by apply page_block_aligned. }
  destruct (fill_deadbeef_spec p (Z.to_nat (bsize (bt x) / 4)) 0 h) as (m & E & Hm);
    [unfold MIPS_KSEG0 in *; lia|lia| |done|].
  { rewrite Z2Nat.id by (apply Z.div_pos; lia). pose proof (Z.div_mod (bsize (bt x)) 4). lia. }
  exists m. unfold PAGE_SIZE in *.
  assert (Hsz : zlookup sizes (Z.of_nat (bt x)) = Some (bsize (bt x)))
    by (rewrite zlookup_nat; by apply sizes_lookup).
  split.
  2:{ intros a Ha. apply Hm. rewrite Z2Nat.id by (apply Z.div_pos; lia).
      pose proof (Z.div_mod (bsize (bt x)) 4). lia. }
  unfold subpage_kfree. munfold. rewrite Ef, (get_pr_eq i h pr Hpr), Ea, Eb, Hsz.
  rewrite (u32_small (p - pg x)) by lia.
  rewrite decide_False by (unfold PAGE_SIZE; lia). unfold fill_deadbeef. rewrite E.
  replace (u32 (pg x + (p - pg x))) with p by (rewrite u32_small; lia).
  assert (Est : (if decide (freelist_offset pr = INVALID_OFFSET) then store p 0
     else store p (u32 (pg x + freelist_offset pr))) (set_mem m h) =
     Done tt (set_mem (<[p := fl_head (pg x) (fl x)]> m) h)).
  { rewrite P6. destruct (fl x) as [|o F]; simpl fl_head.
    - rewrite decide_True by done. rewrite store_eq; [done|unfold MIPS_KSEG0 in *; lia|simpl; lia|done].
    - apply Forall_cons in P8 as [[Ro _] _]. unfold PAGE_SIZE in Ro.
      rewrite decide_False by (unfold INVALID_OFFSET; lia). rewrite u32_small by lia.
      rewrite store_eq; [done|unfold MIPS_KSEG0 in *; lia|simpl; lia|done]. }
  rewrite Est. rewrite (upd_pr_eq i _ _ pr) by done. kheap_simpl.
  rewrite upd_mk, get_mk by (by eapply lookup_lt_Some).
  rewrite (u16_small (p - pg x)) by lia. simpl (nfree _). rewrite P5, u16_small by lia.
  rewrite bool_decide_eq_true_2 by (unfold PAGE_SIZE; lia). done.
Qed.

(** Two blocks of a page are a block size apart. *)
Lemma offs_apart b o o' :
  (b < 8)%nat -> valid_off b o -> valid_off b o' -> o <> o' -> o + bsize b <= o' \/ o' + bsize b <= o.
Proof.
  intros Hb [_ H1] [_ H2] Hne. destruct (bsize_cases b Hb) as (_ & Hs & _).
  apply Z.mod_divide in H1 as [k Hk]; [|lia]. apply Z.mod_divide in H2 as [l Hl]; [|lia].
  assert (k <> l) by congruence. destruct (decide (k < l)); [left|right]; nia.
Qed.

(** The heap after a block was put back on the free list of its page. *)
Lemma rep_push h B G L SZ i x pr p n m :
  rep h B G L SZ -> G !! i = Some x -> pagerefs h !! i = Some pr -> page_ok h pr x ->
  B !! p = Some n -> small_block x p n ->
  (forall a, ~ (p <= a < p + bsize (bt x)) -> m !! a = mem h !! a) ->
  rep (set_mem (<[p := fl_head (pg x) (fl x)]> m)
        (set_pagerefs (<[i := set_nfree (Z.of_nat (length (fl x)) + 1)
           (set_offset (p - pg x) pr)]> (pagerefs h)) h))
    (delete p B) (<[i := set_fl (p - pg x :: fl x) x]> G) L SZ.
Proof.
  intros R Hi Hpr P HB (S1 & S2 & S3 & S4) Hm. pose proof P as [P1 P2 P3 P4 P5 P6 P7 P8 P9].
  destruct (bsize_cases (bt x) P1) as (_ & Hs & _ & _ & _ & _).
  pose proof (block_fits _ _ P1 S2) as Hfit.
  eapply (rep_update_page h _ B _ G L SZ i x pr
    (set_nfree (Z.of_nat (length (fl x)) + 1) (set_offset (p - pg x) pr))); try done; simpl.
  - intros a Ha. rewrite lookup_insert_ne by lia. apply Hm. lia.
  - split; simpl; try done; [lia|..].
    + replace (pg x + (p - pg x)) with p by lia. rewrite lookup_insert_eq. split; [done|].
      eapply fl_links_ext; [|done]. intros o Ho. rewrite Forall_forall in P8.
      destruct (offs_apart (bt x) o (p - pg x)) as [?|?]; auto; [by intros ->|..];
        rewrite lookup_insert_ne by lia; apply Hm; lia.
    + by apply Forall_cons.
    + by apply NoDup_cons.
  - intros q Hq. apply lookup_delete_ne. intros ->. lia.
  - intros q k Hq. rewrite lookup_delete_Some. intros [Hne Hk].
    destruct R as [_ _ Po Bl]. destruct (block_on_page h B G i x q k Po Bl Hi Hk Hq) as (? & ? & ? & ?).
    unfold small_block. simpl. split_and!; try done; try lia. apply not_elem_of_cons. split; [lia|done].
  - intros o Vo Ho. apply not_elem_of_cons in Ho as [Hne Ho].
    rewrite lookup_delete_ne by lia. destruct R as [_ _ _ Bl]. by eapply (b_acct _ _ _ Bl).
Qed.

Lemma subpage_kfree_small h B G L SZ p n i x :
  rep h B G L SZ -> no_idle G -> B !! p = Some n -> G !! i = Some x -> small_block x p n ->
  exists h', subpage_kfree p h = Done true h' /\ kheap_rep h' (delete p B).
Proof.
  intros R I HB Hi S. pose proof R as [W T Po Bl]. pose proof S as (S1 & S2 & S3 & S4).
  destruct (find_page_rep h B G L SZ p R) as (r & Ef & Hr).
  assert (r = Some i) as ->.
  { destruct r as [j|]; [|by destruct (Hr i x Hi)]. destruct Hr as (y & Hj & Hy). f_equal.
    destruct (decide (i = j)) as [|Hne]; [done|].
    destruct (pages_apart h G i j x y Po Hi Hj Hne); lia. }
  destruct (p_page _ _ Po i x Hi) as (pr & Hpr & P).
  destruct (subpage_kfree_run h p i x pr W Ef Hpr P S1 S2 (I i x Hi)) as (m & E & Hm). rewrite E.
  pose proof (rep_push h B G L SZ i x pr p n m R Hi Hpr P HB S Hm) as R1.
  unfold kfree_finish. case_decide as D.
  - destruct (rep_drop_page _ _ _ L SZ i (set_fl (p - pg x :: fl x) x) R1) as (h2 & L2 & SZ2 & E2 & R2).
    { apply lookup_insert_eq. }
    { destruct (p_page _ _ (r_pages _ _ _ _ _ R1) i (set_fl (p - pg x :: fl x) x)) as (q & _ & Q);
        [apply lookup_insert_eq|].
      apply (free_count (bt x)); [apply Q|apply (po_valid _ _ _ Q)|apply (po_nodup _ _ _ Q)|].
      simpl. lia. }
    rewrite delete_insert_eq in R2. exists h2. split.
    { simpl in E2. munfold. by rewrite E2. }
    exists (delete i G), L2, SZ2. split; [done|].
    intros j y Hj. apply lookup_delete_Some in Hj as [_ Hj]. by eapply I.
  - eexists. split; [done|]. eexists _, L, SZ. split; [done|].
    intros j y Hj. apply lookup_insert_Some in Hj as [[<- <-]|[_ Hj]]; [|by eapply I].
    simpl. pose proof (I i x Hi). lia.
Qed.

Lemma kheap_rep_pos h B p n : kheap_rep h B -> B !! p = Some n -> MIPS_KSEG0 < p < 2 ^ 32.
Proof.
  intros (G & L & SZ & [W T Po Bl] & _) HB. destruct (top_bound h W) as [_ Tb].
  destruct (b_live _ _ _ Bl p n HB) as [(i & x & Hi & S)|Hb].
  - destruct (p_page _ _ Po i x Hi) as (pr & _ & P). destruct (po_range _ _ _ P), S as (S & _).
    unfold PAGE_SIZE in *. lia.
  - destruct Hb as (H1 & _ & H3 & H4 & _). destruct (npages_enough n H1). unfold PAGE_SIZE in *. lia.
Qed.

Lemma rep_delete_big h B G L SZ p n :
  rep h B G L SZ -> B !! p = Some n -> big_block h G p n -> rep h (delete p B) G L SZ.
Proof.
  intros [W T Po [Bl Bb Ba]] HB Hb. split; [done..|]. split.
  - intros q k Hq. apply lookup_delete_Some in Hq as [_ Hq]. auto.
  - intros q k q' k' Hq Hq'. apply lookup_delete_Some in Hq as [_ Hq].
    apply lookup_delete_Some in Hq' as [_ Hq']. eauto.
  - intros i x o Hi Vo Ho. rewrite lookup_delete_ne; [by eapply Ba|].
    intros ->. apply (big_not_on_page _ _ _ _ _ _ Hb Hi). destruct Vo. lia.
Qed.

(** [subpage_kfree] refuses addresses off the pages of blocks. *)
Lemma subpage_kfree_off_pages h B G L SZ p :
  rep h B G L SZ -> (forall i x, G !! i = Some x -> ~ (pg x <= p < pg x + PAGE_SIZE)) ->
  subpage_kfree p h = Done false h.
Proof.
  intros R Hoff. destruct (find_page_rep h B G L SZ p R) as (r & E & Hr).
  destruct r as [i|]; [destruct Hr as (x & Hi & Hx); by destruct (Hoff i x Hi)|].
  unfold subpage_kfree. munfold. by rewrite E.
Qed.

Lemma kfree_rep h B p n :
  kheap_rep h B -> B !! p = Some n ->
  exists h', kfree p h = Done tt h' /\ kheap_rep h' (delete p B).
Proof.
  intros KR HB. pose proof (kheap_rep_pos h B p n KR HB) as Hp.
  destruct KR as (G & L & SZ & R & I). unfold kfree.
  rewrite decide_False by (unfold MIPS_KSEG0 in Hp; lia). munfold.
  destruct (b_live _ _ _ (r_blocks _ _ _ _ _ R) p n HB) as [(i & x & Hi & S)|Hb].
  - destruct (subpage_kfree_small h B G L SZ p n i x R I HB Hi S) as (h' & E & R'). rewrite E. eauto.
  - rewrite (subpage_kfree_off_pages h B G L SZ p R)
      by (intros i x; apply (big_not_on_page _ _ _ _ _ _ Hb)).
    rewrite bool_decide_eq_true_2 by apply Hb. exists h.
    split; [by destruct h|]. exists G, L, SZ. split; [by eapply rep_delete_big|done].
Qed.

(** ** Theorems *)

(** Live blocks do not overlap. *)
Lemma kheap_rep_disjoint h B p n q m :
  kheap_rep h B -> B !! p = Some n -> B !! q = Some m -> p < q -> p + n <= q.
Proof.
  intros (G & L & SZ & [W T Po Bl] & _) Hp Hq Hlt.
  destruct (b_live _ _ _ Bl p n Hp) as [(i & x & Hi & S)|Hb],
    (b_live _ _ _ Bl q m Hq) as [(j & y & Hj & S')|Hb'].
  - destruct (p_page _ _ Po i x Hi) as (pr & _ & P). pose proof (po_bt _ _ _ P) as Hbt.
    destruct S as (S1 & S2 & S3 & S4), S' as (S1' & S2' & S3' & S4').
    pose proof (block_fits _ _ Hbt S2). destruct (decide (i = j)) as [<-|Hne].
    + assert (y = x) as -> by congruence.
      destruct (bsize_cases (bt x) Hbt) as (_ & Hs & _).
      destruct (offs_apart (bt x) (p - pg x) (q - pg x) Hbt S2 S2'); lia.
    + destruct (pages_apart h G i j x y Po Hi Hj Hne); lia.
  - destruct (p_page _ _ Po i x Hi) as (pr & _ & P). pose proof (po_bt _ _ _ P) as Hbt.
    destruct S as (S1 & S2 & S3 & S4). pose proof (block_fits _ _ Hbt S2).
    destruct Hb' as (N1 & _ & _ & _ & H5). destruct (npages_enough m N1).
    unfold LARGEST_SUBPAGE_SIZE in *. destruct (H5 i x Hi); lia.
  - destruct Hb as (N1 & _ & _ & _ & H5). destruct (npages_enough n N1).
    destruct S' as (S1' & _). destruct (H5 j y Hj); lia.
  - pose proof (b_big _ _ _ Bl p n q m Hp Hq Hb Hb' Hlt). destruct Hb as (N1 & _).
    destruct (npages_enough n N1). lia.
Qed.

#[export] Instance kheap_KmallocSpec : KmallocSpec kheap.
Proof.
  refine {| heap_rep := kheap_rep |}.
  - intros h B p n R HB. pose proof (kheap_rep_pos h B p n R HB). unfold MIPS_KSEG0 in *. lia.
  - apply kheap_rep_disjoint.
  - intros h B sz R Hsz. destruct (kmalloc_rep h B sz R Hsz) as [|(p & h' & ? & ? & ? & ?)]; [by left|].
    right. exists p, h'. split_and!; try done. lia.
  - apply kfree_rep.
  - done.
Defined.

(** Where a block may lie: above the kernel image, below the end of memory,
    on a 16-byte boundary. *)
Lemma kheap_rep_place h B p n :
  kheap_rep h B -> B !! p = Some n ->
  MIPS_KSEG0 < p /\ p + n <= MIPS_KSEG0 + lastpaddr (phys h) /\ p mod 16 = 0.
Proof.
  intros (G & L & SZ & [W T Po Bl] & _) HB. destruct (top_bound h W) as [Tb _].
  assert (H16 : forall a, a mod PAGE_SIZE = 0 -> a mod 16 = 0).
  { unfold PAGE_SIZE. intros a Ha. apply Z.mod_divide in Ha as [k ->]; [|lia].
    replace (k * 4096) with (k * 256 * 16) by lia. by apply Z.mod_mul. }
  destruct (b_live _ _ _ Bl p n HB) as [(i & x & Hi & S)|Hb].
  - destruct (p_page _ _ Po i x Hi) as (pr & _ & P). destruct (po_range _ _ _ P).
    destruct S as (S1 & S2 & _ & S4). pose proof (block_fits _ _ (po_bt _ _ _ P) S2).
    split_and!; [lia|lia|]. destruct S2 as [_ Hm].
    replace p with (p - pg x + pg x) by lia. rewrite Zplus_mod, (H16 _ (po_align _ _ _ P)).
    assert ((p - pg x) mod 16 = 0) as ->; [|done].
    unfold bsize in Hm. apply Z.mod_divide in Hm as [k Hk]; [|lia].
    rewrite Hk. replace (k * (16 * 2 ^ Z.of_nat (bt x))) with (k * 2 ^ Z.of_nat (bt x) * 16) by lia.
    by apply Z.mod_mul.
  - destruct Hb as (N1 & Na & Nb & Nc & _). destruct (npages_enough n N1). split_and!; [lia|lia|auto].
Qed.

Lemma kheap_init_rep r : Ram.wf r -> kheap_rep (kheap_init r) ∅.
Proof.
  intros W. exists ∅, [], (fun _ => []). split; [|done].
  split; [done|..].
  - rewrite fmap_empty. split; simpl; try done.
    + by apply NoDup_nil.
    + intros i. rewrite elem_of_nil, lookup_empty. split; [done|by intros []].
    + intros b Hb. exists None. split; [|done]. by do 8 (destruct b as [|b]; [done|]); lia.
    + intros. by apply NoDup_nil.
    + intros b i _. rewrite elem_of_nil, lookup_empty. done.
    + split_and!; [done|by repeat constructor|]. intros i Hi. exists 0.
      rewrite Z.bits_0, lookup_empty. split; [|split; [done|by intros []]].
      change [0; 0; 0; 0; 0; 0; 0; 0] with (replicate 8 0). apply lookup_replicate_2.
      unfold NPAGEREFS in Hi. apply Nat.Div0.div_lt_upper_bound; lia.
  - by split.
  - by split.
Qed.

(** C3: [kmalloc] returns NULL and leaves the live blocks as they were, or a new
    block: inside memory, on a 16-byte boundary, overlapping no live block.  No
    assertion of the allocator fails, for every size up to 2^31. *)
Theorem kmalloc_correct (h : kheap) (B : gmap Z Z) (sz : Z) :
  kheap_rep h B -> 0 <= sz <= KMALLOC_MAX ->
  (exists h', kmalloc sz h = Done 0 h' /\ kheap_rep h' B) \/
  (exists p h', kmalloc sz h = Done p h' /\ kheap_rep h' (<[p := sz]> B) /\
     MIPS_KSEG0 < p /\ p + sz <= MIPS_KSEG0 + lastpaddr (phys h') /\ p mod 16 = 0 /\
     forall q n, B !! q = Some n -> p + sz <= q \/ q + n <= p).
Proof.
  intros R Hsz. destruct (kmalloc_rep h B sz R Hsz) as [|(p & h' & E & Hp & HB & R')]; [by left|].
  right. exists p, h'. destruct (kheap_rep_place h' _ p sz R' (lookup_insert_eq _ _ _)) as (? & ? & ?).
  split_and!; try done. intros q n Hq. assert (q <> p) by congruence.
  assert (Hq' : <[p := sz]> B !! q = Some n) by (by rewrite lookup_insert_ne).
  destruct (decide (p < q)); [left|right].
  - by apply (kheap_rep_disjoint _ _ _ _ _ _ R' (lookup_insert_eq _ _ _) Hq').
  - apply (kheap_rep_disjoint _ _ _ _ _ _ R' Hq' (lookup_insert_eq _ _ _)). lia.
Qed.

(** C4: [kfree] of a live block removes that block and no other, whether it is a
    subpage block or a run of pages, without failing an assertion. *)
Theorem kfree_correct (h : kheap) (B : gmap Z Z) (p n : Z) :
  kheap_rep h B -> B !! p = Some n ->
  exists h', kfree p h = Done tt h' /\ kheap_rep h' (delete p B).
Proof. apply kfree_rep. Qed.

Lemma store_rep h B p n a w :
  kheap_rep h B -> B !! p = Some n -> p <= a -> a + 4 <= p + n ->
  kheap_rep (set_mem (<[a := w]> (mem h)) h) B.
Proof.
  intros (G & L & SZ & [W T Po Bl] & I) HB Hlo Hhi. exists G, L, SZ. split; [|done].
  split; [done|by destruct T| |by destruct Bl]. split; [|apply Po].
  intros i x Hi. destruct (p_page _ _ Po i x Hi) as (pr & Hpr & P). exists pr. split; [done|].
  pose proof P as [P1 P2 P3 P4 P5 P6 P7 P8 P9]. split; try done.
  eapply fl_links_ext; [|done]. intros o Ho. simpl. apply lookup_insert_ne. intros ->.
  rewrite Forall_forall in P8. pose proof (P8 o Ho) as Vo. pose proof (block_fits _ _ P1 Vo).
  destruct (bsize_cases (bt x) P1) as (_ & Hs & _).
  destruct (decide (pg x <= p < pg x + PAGE_SIZE)) as [Hon|Hoff].
  - destruct (block_on_page h B G i x p n Po Bl Hi HB Hon) as (_ & Vp & Hnf & Hn).
    assert (o <> p - pg x) by (by intros ->).
    destruct (offs_apart (bt x) o (p - pg x) P1 Vo Vp); lia.
  - destruct Vo as [Ro _]. destruct (b_live _ _ _ Bl p n HB) as [(j & y & Hj & S)|Hb].
    + assert (i <> j) as Hne by (intros <-; simplify_eq; apply Hoff, S).
      destruct (p_page _ _ Po j y Hj) as (q & _ & Q). destruct S as (S1 & S2 & _ & S4).
      pose proof (block_fits _ _ (po_bt _ _ _ Q) S2).
      destruct (pages_apart h G i j x y Po Hi Hj Hne); lia.
    + destruct Hb as (N1 & _ & _ & _ & H5). destruct (npages_enough n N1). destruct (H5 i x Hi); lia.
Qed.

Lemma store_live h B p n a w :
  kheap_rep h B -> B !! p = Some n -> p <= a -> a + 4 <= p + n -> a mod 4 = 0 ->
  store a w h = Done tt (set_mem (<[a := w]> (mem h)) h).
Proof.
  intros KR HB Hlo Hhi Ha. destruct (kheap_rep_place h B p n KR HB) as (K1 & K2 & _).
  apply store_eq; done || lia.
Qed.

(** A client may store into any word of a live block: the allocator's own data,
    which lives in the free blocks, is not there. *)
Theorem client_store_preserves (h : kheap) (B : gmap Z Z) (p n a w : Z) :
  kheap_rep h B -> B !! p = Some n -> p <= a -> a + 4 <= p + n -> a mod 4 = 0 ->
  exists h', store a w h = Done tt h' /\ load a h' = Done w h' /\ kheap_rep h' B.
Proof.
  intros KR HB Hlo Hhi Ha. eexists. split; [by eapply store_live|].
  split; [unfold load; munfold; unfold id; simpl; by rewrite lookup_insert_eq|].
  by eapply store_rep.
Qed.

(** The use of the heap by clients that free and store to only what they hold. *)
Inductive heap_op := OMalloc (sz : Z) | OFree (p : Z) | OStore (a w : Z).

Definition run_heap_op (op : heap_op) : KM Z :=
  match op with
  | OMalloc sz => kmalloc sz
  | OFree p => kfree p ;; mret 0
  | OStore a w => store a w ;; mret 0
  end.

Definition op_allowed (B : gmap Z Z) (op : heap_op) : Prop :=
  match op with
  | OMalloc sz => 0 <= sz <= KMALLOC_MAX
  | OFree p => p = 0 \/ is_Some (B !! p)
  | OStore a w => a mod 4 = 0 /\ exists p n, B !! p = Some n /\ p <= a /\ a + 4 <= p + n
  end.

Definition blocks_after (B : gmap Z Z) (op : heap_op) (r : Z) : gmap Z Z :=
  match op with
  | OMalloc sz => if decide (r = 0) then B else <[r := sz]> B
  | OFree p => delete p B
  | OStore _ _ => B
  end.

Inductive heap_reachable (r : ram) : kheap -> gmap Z Z -> Prop :=
  | reach_init : heap_reachable r (kheap_init r) ∅
  | reach_step h B op v h' :
      heap_reachable r h B -> op_allowed B op -> run_heap_op op h = Done v h' ->
      heap_reachable r h' (blocks_after B op v).

Lemma heap_op_spec h B op :
  kheap_rep h B -> op_allowed B op ->
  exists v h', run_heap_op op h = Done v h' /\ kheap_rep h' (blocks_after B op v).
Proof.
  intros R A. destruct op as [sz|p|a w]; simpl in *; munfold.
  - destruct (kmalloc_rep h B sz R A) as [(h' & E & R')|(p & h' & E & ? & ? & R')]; rewrite E.
    + exists 0, h'. by rewrite decide_True.
    + exists p, h'. by rewrite decide_False by lia.
  - destruct A as [->|[n HB]].
    + exists 0, h. split; [done|]. rewrite delete_id; [done|].
      destruct (B !! 0) as [n|] eqn:E; [|done].
      pose proof (kheap_rep_pos h B 0 n R E). unfold MIPS_KSEG0 in *. lia.
    + destruct (kfree_rep h B p n R HB) as (h' & E & R'). rewrite E. eauto.
  - destruct A as (Ha & p & n & HB & ? & ?). rewrite (store_live h B p n a w) by done.
    eexists _, _. split; [done|]. by eapply store_rep.
Qed.

Lemma heap_reachable_rep r h B : Ram.wf r -> heap_reachable r h B -> kheap_rep h B.
Proof.
  intros W. induction 1 as [|h B op v h' _ IH A E]; [by apply kheap_init_rep|].
  destruct (heap_op_spec h B op IH A) as (v' & h'' & E' & R'). rewrite E in E'. by simplify_eq.
Qed.

(** C18: From boot, whatever sequence of allocations, frees of blocks held and stores
    into blocks held the kernel performs, the live blocks stay disjoint and the
    next such operation completes: no panic, no access outside memory, no
    endless search. *)
Theorem kheap_reachable_safe (r : ram) (h : kheap) (B : gmap Z Z) :
  Ram.wf r -> heap_reachable r h B ->
  (forall p n q m, B !! p = Some n -> B !! q = Some m -> p < q -> p + n <= q) /\
  (forall op, op_allowed B op -> exists v h', run_heap_op op h = Done v h').
Proof.
  intros W Hr. pose proof (heap_reachable_rep r h B W Hr) as R. split.
  - intros p n q m. by apply kheap_rep_disjoint with h.
  - intros op A. destruct (heap_op_spec h B op R A) as (v & h' & ? & _). eauto.
Qed.

Lemma no_blocks_no_pages h G L SZ i : rep h ∅ G L SZ -> no_idle G -> G !! i = None.
Proof.
  intros [W T Po Bl] I. destruct (G !! i) as [x|] eqn:Hi; [exfalso|done].
  destruct (p_page _ _ Po i x Hi) as (pr & _ & P). pose proof (I i x Hi) as Hlt.
  destruct (bsize_cases (bt x) (po_bt _ _ _ P)) as (_ & _ & _ & _ & Hn & _).
  destruct (decide (Forall (fun o => o ∈ fl x) (all_offs (bt x)))) as [Hall|Hno].
  - assert (HS : all_offs (bt x) ⊆+ fl x).
    { apply NoDup_submseteq; [apply NoDup_all_offs, P|]. by rewrite Forall_forall in Hall. }
    apply submseteq_length in HS. rewrite length_all_offs in HS. lia.
  - apply not_Forall_Exists in Hno; [|apply _]. apply Exists_exists in Hno as (o & Ho & Hn').
    apply elem_of_all_offs in Ho; [|apply P].
    destruct (b_acct _ _ _ Bl i x o Hi Ho Hn') as [n Hb]. by rewrite lookup_empty in Hb.
Qed.

Lemma inuse_none u P : inuse_ok u P -> (forall i, ~ P i) -> u = replicate INUSE_WORDS 0.
Proof.
  intros (Hl & Hr & U) HP. apply list_eq_same_length with INUSE_WORDS;
    [by rewrite length_replicate|done|].
  intros i w w' Hi Hw Hw'. apply lookup_replicate in Hw' as [-> _].
  pose proof (Forall_lookup_1 _ _ _ _ Hr Hw) as Rw. simpl in Rw.
  apply Z.bits_inj'. intros k Hk. rewrite Z.bits_0. destruct (decide (k < 32)).
  - destruct (word_bit_index i (Z.to_nat k)) as [Ed Em]; [lia|].
    destruct (U (i * 32 + Z.to_nat k)%nat) as (w0 & Hw0 & Tw); [unfold NPAGEREFS, INUSE_WORDS in *; lia|].
    rewrite Ed in Hw0. rewrite Em, Z2Nat.id in Tw by lia.
    assert (w0 = w) as -> by congruence. apply not_true_is_false. intros Tt.
    by apply Tw, HP in Tt.
  - apply (word_testbit_high 32); lia.
Qed.

(** When every block has been freed, no page is left on any list and every
    pageref is free: the accounting leaks nothing. *)
Theorem kheap_empty_clean (h : kheap) :
  kheap_rep h ∅ ->
  allbase h = None /\ (forall b, (b < 8)%nat -> sizebases h !! b = Some None) /\
  pagerefs_inuse h = replicate INUSE_WORDS 0.
Proof.
  intros (G & L & SZ & R & I). pose proof (fun i => no_blocks_no_pages h G L SZ i R I) as HG.
  destruct R as [W T Po Bl].
  assert (HT : forall i, ~ is_Some ((bt <$> G) !! i)).
  { intros i. rewrite lookup_fmap, HG. by intros []. }
  split_and!.
  - rewrite (chain_head _ _ _ _ (t_all _ _ _ _ T)). destruct L as [|i L]; [done|exfalso].
    apply (HT i), (t_all_dom _ _ _ _ T). left.
  - intros b Hb. destruct (t_size _ _ _ _ T b Hb) as (hd & Hhd & C). rewrite Hhd.
    f_equal. rewrite (chain_head _ _ _ _ C). destruct (SZ b) as [|i l] eqn:E; [done|exfalso].
    apply (HT i). exists b. apply (t_size_dom _ _ _ _ T b i Hb). rewrite E. left.
  - by apply (inuse_none _ _ (t_inuse _ _ _ _ T)).
Qed.

(** [kfree] of an address that is not a block boundary panics: one inside a
    page of blocks in the subpage allocator, any other in the alignment check
    of [kfree] itself. *)
Lemma kfree_misaligned (h : kheap) (B : gmap Z Z) (p : Z) :
  kheap_rep h B -> p <> 0 -> p mod 16 <> 0 -> kfree p h = Panic.
Proof.
  intros (G & L & SZ & R & I) Hp Hm. pose proof R as [W T Po Bl].
  destruct (find_page_rep h B G L SZ p R) as (r & E & Hr).
  unfold kfree. rewrite decide_False by done. munfold. unfold subpage_kfree. munfold. rewrite E.
  destruct r as [i|].
  - destruct Hr as (x & Hi & Hx). destruct (p_page _ _ Po i x Hi) as (pr & Hpr & P).
    destruct (page_ok_fields h pr x W P) as (Ea & Eb & G1 & G2).
    rewrite (get_pr_eq i h pr Hpr), Ea, Eb, zlookup_nat, sizes_lookup by apply P.
    rewrite u32_small by (unfold PAGE_SIZE in *; lia). rewrite decide_True; [done|]. right.
    intros Hd. apply Hm. pose proof (po_align _ _ _ P) as Ha. unfold bsize, PAGE_SIZE in *.
    apply Z.mod_divide in Hd as [k Hk]; [|lia]. apply Z.mod_divide in Ha as [l Hl]; [|lia].
    replace p with ((k * 2 ^ Z.of_nat (bt x) + l * 256) * 16) by lia. by apply Z.mod_mul.
  - rewrite bool_decide_eq_false_2; [done|]. intros Ha. apply Hm. unfold PAGE_SIZE in Ha.
    apply Z.mod_divide in Ha as [l Hl]; [|lia]. replace p with (l * 256 * 16) by lia.
    by apply Z.mod_mul.
Qed.

(** The rounding of a size to pages wraps: a request for 2^32-1 bytes is
    granted without reserving a single page, at the address the next page
    allocation will return too. *)
Theorem kmalloc_size_wraps (h : kheap) :
  Ram.wf (phys h) ->
  kmalloc (2 ^ 32 - 1) h = Done (top h) h /\
  (firstpaddr (phys h) + PAGE_SIZE <= lastpaddr (phys h) ->
   exists h', kmalloc PAGE_SIZE h = Done (top h) h').
Proof.
  intros W. assert (R : forall n, 0 <= n <= MAXPAGES -> firstpaddr (phys h) + n * PAGE_SIZE <= lastpaddr (phys h) ->
    alloc_kpages n (phys h) = Done (top h) (mkram (firstpaddr (phys h) + n * PAGE_SIZE) (lastpaddr (phys h)))).
  { intros n Hn Hle. unfold alloc_kpages, getppages. munfold.
    rewrite u32_small by (unfold MAXPAGES in *; lia).
    destruct (ram_stealmem_cases (phys h) n W Hn) as [(? & _)|(_ & E & _)]; [lia|]. rewrite E.
    destruct W. rewrite decide_False by lia. rewrite PADDR_TO_KVADDR_small by lia.
    unfold top. by rewrite Z.add_comm. }
  unfold kmalloc, zoom, physL. simpl lget. rewrite !decide_True by (unfold LARGEST_SUBPAGE_SIZE, PAGE_SIZE; lia).
  split.
  - change (s32 (u32 (2 ^ 32 - 1 + PAGE_SIZE - 1) / PAGE_SIZE)) with 0.
    destruct W. rewrite R by (unfold MAXPAGES; lia). simpl. rewrite Z.add_0_r. by destruct h as [????? []].
  - intros Hle. change (s32 (u32 (PAGE_SIZE + PAGE_SIZE - 1) / PAGE_SIZE)) with 1.
    rewrite R by (unfold MAXPAGES; lia). eauto.
Qed.

End Kheap.
