(* ===== verification/Thread.v ===== *)
(** * Threads and the scheduler: kern/thread/thread.c, kern/thread/scheduler.c

    The whole state of the thread system: the thread structures by address,
    the tables of sleepers and zombies (Array.v), the run queue (Queue.v), the
    thread count, the interrupt level of kern/arch/mips/mips/spl.c and the
    saved interrupt flag of kern/arch/mips/mips/pcb.c.  [mi_switch] is cut where
    the processor changes stacks: the part that puts the current thread away,
    the scheduler, and the part the next thread executes, which depends on
    where that thread left off ([pcb]). *)

From S2P Require Import Prelude Kmalloc Array Queue.
Import Array Queue.

Module Thread.

(** ** Data *)

(** Where a thread continues when it is switched to: at [mi_threadstart], or
    after the [mi_switch] of [thread_yield] (with its saved spl) or of
    [thread_sleep]. *)
Inductive resume := AtStart | AfterYield (spl : Z) | AfterSleep.

Record pcb := mkpcb { pcb_resume : resume; pcb_ininterrupt : Z }.

Record thread := mkthread {
  t_pcb : pcb;
  t_name : Z;              (* address of the copy of the name *)
  t_namelen : Z;           (* bytes of that copy *)
  t_sleepaddr : Z;
  t_stack : Z;             (* 0 for the boot stack *)
  t_magic : list Z;        (* the first bytes of the stack *)
  t_vmspace : Z;
  t_cwd : Z;
}.

Definition STACK_SIZE : Z := 4096.
(** Fifteen words of pcb and five of pointers. *)
Definition sizeof_thread : Z := 80.
Definition SPL_HIGH : Z := 15.
Definition stack_magic : list Z := [174; 17; 218; 51].

Inductive threadstate := S_RUN | S_READY | S_SLEEP | S_ZOMB.

(** The vnode reference counts the thread system touches. *)
Class VnodeRefs (V : Type) := {
  VOP_INCREF : Z -> M V unit;
  VOP_DECREF : Z -> M V unit;
}.

(** Dropping a reference just taken restores the counts. *)
Class VnodeRefsLaws (V : Type) `{!VnodeRefs V} := {
  decref_incref : forall v s s', VOP_INCREF v s = Done tt s' -> VOP_DECREF v s' = Done tt s;
}.

Record tsys (H V : Type) := mktsys {
  heap : H;
  threads : gmap Z thread;
  curthread : Z;                    (* 0 while the scheduler runs *)
  switching : Z;                    (* [cur] of the [mi_switch] in progress *)
  sleepers : option (array Z);
  zombies : option (array Z);
  runqueue : option (queue Z);
  numthreads : Z;
  curspl : Z;
  in_interrupt : Z;
  vnodes : V;
}.
Arguments mktsys {H V} _ _ _ _ _ _ _ _ _ _ _.
Arguments heap {H V} _.
Arguments threads {H V} _.
Arguments curthread {H V} _.
Arguments switching {H V} _.
Arguments sleepers {H V} _.
Arguments zombies {H V} _.
Arguments runqueue {H V} _.
Arguments numthreads {H V} _.
Arguments curspl {H V} _.
Arguments in_interrupt {H V} _.
Arguments vnodes {H V} _.

Section ops.
Context {H V : Type} `{!Kmalloc H, !VnodeRefs V}.

Abbreviation TM := (M (tsys H V)).

Definition set_heap x (s : tsys H V) : tsys H V := mktsys x (threads s) (curthread s) (switching s)
  (sleepers s) (zombies s) (runqueue s) (numthreads s) (curspl s) (in_interrupt s) (vnodes s).
Definition set_threads x (s : tsys H V) : tsys H V := mktsys (heap s) x (curthread s) (switching s)
  (sleepers s) (zombies s) (runqueue s) (numthreads s) (curspl s) (in_interrupt s) (vnodes s).
Definition set_curthread x (s : tsys H V) : tsys H V := mktsys (heap s) (threads s) x (switching s)
  (sleepers s) (zombies s) (runqueue s) (numthreads s) (curspl s) (in_interrupt s) (vnodes s).
Definition set_switching x (s : tsys H V) : tsys H V := mktsys (heap s) (threads s) (curthread s) x
  (sleepers s) (zombies s) (runqueue s) (numthreads s) (curspl s) (in_interrupt s) (vnodes s).
Definition set_sleepers x (s : tsys H V) : tsys H V := mktsys (heap s) (threads s) (curthread s) (switching s)
  x (zombies s) (runqueue s) (numthreads s) (curspl s) (in_interrupt s) (vnodes s).
Definition set_zombies x (s : tsys H V) : tsys H V := mktsys (heap s) (threads s) (curthread s) (switching s)
  (sleepers s) x (runqueue s) (numthreads s) (curspl s) (in_interrupt s) (vnodes s).
Definition set_runqueue x (s : tsys H V) : tsys H V := mktsys (heap s) (threads s) (curthread s) (switching s)
  (sleepers s) (zombies s) x (numthreads s) (curspl s) (in_interrupt s) (vnodes s).
Definition set_numthreads x (s : tsys H V) : tsys H V := mktsys (heap s) (threads s) (curthread s) (switching s)
  (sleepers s) (zombies s) (runqueue s) x (curspl s) (in_interrupt s) (vnodes s).
Definition set_curspl x (s : tsys H V) : tsys H V := mktsys (heap s) (threads s) (curthread s) (switching s)
  (sleepers s) (zombies s) (runqueue s) (numthreads s) x (in_interrupt s) (vnodes s).
Definition set_in_interrupt x (s : tsys H V) : tsys H V := mktsys (heap s) (threads s) (curthread s) (switching s)
  (sleepers s) (zombies s) (runqueue s) (numthreads s) (curspl s) x (vnodes s).
Definition set_vnodes x (s : tsys H V) : tsys H V := mktsys (heap s) (threads s) (curthread s) (switching s)
  (sleepers s) (zombies s) (runqueue s) (numthreads s) (curspl s) (in_interrupt s) x.

Definition theapL : lens (tsys H V) H := Lens heap set_heap.
Definition vnodesL : lens (tsys H V) V := Lens vnodes set_vnodes.

(** A routine of array.c or queue.c on one of the tables; the pointer to the
    table may be NULL. *)
Definition on_array {A} (get : tsys H V -> option (array Z)) (set : option (array Z) -> tsys H V -> tsys H V)
    (m : M (H * array Z) A) : TM A := fun s =>
  match get s with
  | None => Undef
  | Some a =>
      match m (heap s, a) with
      | Done x (h, a') => Done x (set (Some a') (set_heap h s))
      | Fail e (h, a') => Fail e (set (Some a') (set_heap h s))
      | Panic => Panic
      | Undef => Undef
      | NoFuel => NoFuel
      end
  end.
Definition on_sleepers {A} (m : M (H * array Z) A) : TM A := on_array sleepers set_sleepers m.
Definition on_zombies {A} (m : M (H * array Z) A) : TM A := on_array zombies set_zombies m.

Definition on_runqueue {A} (m : M (H * queue Z) A) : TM A := fun s =>
  match runqueue s with
  | None => Undef
  | Some q =>
      match m (heap s, q) with
      | Done x (h, q') => Done x (set_runqueue (Some q') (set_heap h s))
      | Fail e (h, q') => Fail e (set_runqueue (Some q') (set_heap h s))
      | Panic => Panic
      | Undef => Undef
      | NoFuel => NoFuel
      end
  end.

Definition get_thread (t : Z) : TM thread := s ← gets id; access (threads s !! t).
Definition upd_thread (t : Z) (f : thread -> thread) : TM unit :=
  th ← get_thread t; modify (fun s => set_threads (<[t := f th]> (threads s)) s).

Definition set_pcb x th : thread := mkthread x (t_name th) (t_namelen th) (t_sleepaddr th) (t_stack th)
  (t_magic th) (t_vmspace th) (t_cwd th).
Definition set_sleepaddr x th : thread := mkthread (t_pcb th) (t_name th) (t_namelen th) x (t_stack th)
  (t_magic th) (t_vmspace th) (t_cwd th).
Definition set_stack x th : thread := mkthread (t_pcb th) (t_name th) (t_namelen th) (t_sleepaddr th) x
  (t_magic th) (t_vmspace th) (t_cwd th).
Definition set_magic x th : thread := mkthread (t_pcb th) (t_name th) (t_namelen th) (t_sleepaddr th)
  (t_stack th) x (t_vmspace th) (t_cwd th).
Definition set_vmspace x th : thread := mkthread (t_pcb th) (t_name th) (t_namelen th) (t_sleepaddr th)
  (t_stack th) (t_magic th) x (t_cwd th).
Definition set_cwd x th : thread := mkthread (t_pcb th) (t_name th) (t_namelen th) (t_sleepaddr th)
  (t_stack th) (t_magic th) (t_vmspace th) x.

(** ** Interrupt level: spl.c *)

Definition splx (newspl : Z) : TM Z :=
  oldspl ← gets curspl;
  modify (set_curspl newspl) ;;
  mret oldspl.
Definition splhigh : TM Z := splx SPL_HIGH.
Definition spl0 : TM Z := splx 0.

Definition assert_spl : TM unit := s ← gets curspl; kassert (bool_decide (s > 0)).

(** ** Scheduler *)

Definition scheduler_bootstrap : TM unit :=
  r ← zoom theapL (q_create 32);
  match r with
  | None => panic
  | Some q => modify (set_runqueue (Some q))
  end.

Definition scheduler_preallocate (nthreads : Z) : TM unit :=
  assert_spl ;; on_runqueue (q_preallocate nthreads).

(** [while (!q_empty(runqueue)) q_remhead(runqueue);] *)
Fixpoint drop_all (fuel : nat) : TM unit :=
  match fuel with
  | O => nofuel
  | S fuel' =>
      e ← on_runqueue q_empty;
      if e : bool then mret tt
      else
        t ← on_runqueue q_remhead;
        t ← access t;
        _ ← get_thread t;
        drop_all fuel'
  end.

(** The queue holds fewer threads than it has slots. *)
Definition scheduler_killall : TM unit :=
  assert_spl ;;
  s ← gets id;
  drop_all (match runqueue s with Some q => Z.to_nat (size q) | None => 1%nat end).

Definition scheduler_shutdown : TM unit :=
  scheduler_killall ;;
  assert_spl ;;
  on_runqueue q_destroy ;;
  modify (set_runqueue None).

(** One turn of the scheduler: [None] when nothing is ready, and [cpu_idle]
    waits for an interrupt. *)
Definition scheduler : TM (option Z) :=
  assert_spl ;;
  e ← on_runqueue q_empty;
  if e : bool then mret None
  else t ← on_runqueue q_remhead; t ← access t; mret (Some t).

Definition make_runnable (t : Z) : TM unit :=
  assert_spl ;; on_runqueue (q_addtail t).

(** ** Creation and destruction *)

Definition kstrdup (len : Z) : TM Z := zoom theapL (kmalloc (u32 (len + 1))).

(** [thread_create], for a name of [len] characters. *)
Definition thread_create (len : Z) : TM (option Z) :=
  thread ← zoom theapL (kmalloc sizeof_thread);
  if decide (thread = 0) then mret None
  else
    nm ← kstrdup len;
    if decide (nm = 0) then zoom theapL (kfree thread) ;; mret None
    else
      modify (fun s => set_threads
        (<[thread := mkthread (mkpcb AtStart 0) nm (u32 (len + 1)) 0 0 [] 0 0]> (threads s)) s) ;;
      mret (Some thread).

Definition thread_destroy (thread : Z) : TM unit :=
  cur ← gets curthread;
  kassert (bool_decide (thread <> cur)) ;;
  th ← get_thread thread;
  kassert (bool_decide (t_vmspace th = 0)) ;;
  kassert (bool_decide (t_cwd th = 0)) ;;
  (if decide (t_stack th <> 0) then zoom theapL (kfree (t_stack th)) else mret tt) ;;
  zoom theapL (kfree (t_name th)) ;;
  zoom theapL (kfree thread) ;;
  modify (fun s => set_threads (delete thread (threads s)) s).

(** The loop of [exorcise], [n] zombies to go from index [i]. *)
Fixpoint exorcise_loop (n : nat) (i : Z) : TM unit :=
  match n with
  | O => mret tt
  | S n' =>
      z ← on_zombies (array_getguy i);
      z ← access z;
      cur ← gets curthread;
      kassert (bool_decide (z <> cur)) ;;
      thread_destroy z ;;
      exorcise_loop n' (i + 1)
  end.

Definition exorcise : TM unit :=
  assert_spl ;;
  n ← on_zombies array_getnum;
  exorcise_loop (Z.to_nat n) 0 ;;
  r ← attempt (on_zombies (array_setsize 0));
  match r with inr _ => mret tt | inl _ => panic end.

Fixpoint killall_loop (n : nat) (i : Z) : TM unit :=
  match n with
  | O => mret tt
  | S n' =>
      t ← on_sleepers (array_getguy i);
      t ← access t;
      _ ← get_thread t;
      killall_loop n' (i + 1)
  end.

Definition thread_killall : TM unit :=
  assert_spl ;;
  n ← on_sleepers array_getnum;
  killall_loop (Z.to_nat n) 0 ;;
  r ← attempt (on_sleepers (array_setsize 0));
  match r with inr _ => mret tt | inl _ => panic end.

Definition thread_panic : TM unit :=
  assert_spl ;; thread_killall ;; scheduler_killall.

(** [len] is the length of the name of the boot thread. *)
Definition thread_bootstrap : TM Z :=
  r ← zoom theapL array_create;
  match r with
  | None => panic
  | Some a =>
      modify (set_sleepers (Some a)) ;;
      r ← zoom theapL array_create;
      match r with
      | None => panic
      | Some a =>
          modify (set_zombies (Some a)) ;;
          me ← thread_create 11;
          match me with
          | None => panic
          | Some me =>
              upd_thread me (set_pcb (mkpcb AtStart 0)) ;;
              modify (set_curthread me) ;;
              modify (set_numthreads 1) ;;
              mret me
          end
      end
  end.

Definition thread_shutdown : TM unit :=
  on_sleepers array_destroy ;;
  modify (set_sleepers None) ;;
  on_zombies array_destroy ;;
  modify (set_zombies None).

(** The new thread inherits the current directory. *)
Definition fork_cwd (newguy : Z) : TM unit :=
  cur ← gets curthread;
  me ← get_thread cur;
  if decide (t_cwd me <> 0) then
    zoom vnodesL (VOP_INCREF (t_cwd me)) ;; upd_thread newguy (set_cwd (t_cwd me))
  else mret tt.

(** Magic number, directory and pcb of the new thread. *)
Definition fork_setup (newguy : Z) : TM unit :=
  upd_thread newguy (set_magic stack_magic) ;;
  fork_cwd newguy ;;
  upd_thread newguy (set_pcb (mkpcb AtStart 0)).

(** The calls of [thread_fork] that may fail once interrupts are off. *)
Definition fork_reserve (newguy : Z) : TM unit :=
  n ← gets numthreads;
  on_sleepers (array_preallocate (s32 (n + 1))) ;;
  on_zombies (array_preallocate (s32 (n + 1))) ;;
  scheduler_preallocate (s32 (n + 1)) ;;
  make_runnable newguy.

(** The code at the label [fail], after [splx]. *)
Definition fork_undo (newguy : Z) : TM unit :=
  th ← get_thread newguy;
  (if decide (t_cwd th <> 0) then zoom vnodesL (VOP_DECREF (t_cwd th)) else mret tt) ;;
  zoom theapL (kfree (t_stack th)) ;;
  zoom theapL (kfree (t_name th)) ;;
  zoom theapL (kfree newguy) ;;
  modify (fun s => set_threads (delete newguy (threads s)) s).

(** [thread_fork] once the stack is there. *)
Definition fork_finish (newguy : Z) : TM Z :=
  fork_setup newguy ;;
  s ← splhigh;
  r ← attempt (fork_reserve newguy);
  match r with
  | inr _ =>
      modify (fun s => set_numthreads (s32 (numthreads s + 1)) s) ;;
      splx s ;;
      mret newguy
  | inl e => splx s ;; fork_undo newguy ;; fail e
  end.

(** [thread_fork]; the arguments of the new thread's function travel in its
    switchframe, which is not part of this state. *)
Definition thread_fork (len : Z) : TM Z :=
  r ← thread_create len;
  match r with
  | None => fail ENOMEM
  | Some newguy =>
      st ← zoom theapL (kmalloc STACK_SIZE);
      upd_thread newguy (set_stack st) ;;
      if decide (st = 0) then
        th ← get_thread newguy;
        zoom theapL (kfree (t_name th)) ;;
        zoom theapL (kfree newguy) ;;
        modify (fun s => set_threads (delete newguy (threads s)) s) ;;
        fail ENOMEM
      else
        fork_finish newguy
  end.

(** ** Context switch *)

(** The four assertions on the magic number at the bottom of the stack. *)
Definition assert_stack (th : thread) : TM unit :=
  if decide (t_stack th <> 0) then kassert (bool_decide (t_magic th = stack_magic)) else mret tt.

Definition check_magic (t : Z) : TM unit :=
  if decide (t <> 0) then th ← get_thread t; assert_stack th else mret tt.

(** The list [cur] goes on. *)
Definition stash (nextstate : threadstate) (cur : Z) : TM unit :=
  match nextstate with
  | S_READY => make_runnable cur
  | S_SLEEP => on_sleepers (array_add cur)
  | _ =>
      kassert (match nextstate with S_ZOMB => true | _ => false end) ;;
      on_zombies (array_add cur)
  end.

(** [mi_switch] up to the call of the scheduler; [false] when it is entered
    from an interrupt in the idle loop and returns at once. *)
Definition mi_switch_out (nextstate : threadstate) (r : resume) : TM bool :=
  assert_spl ;;
  cur ← gets curthread;
  check_magic cur ;;
  if decide (cur = 0) then mret false
  else
    modify (set_switching cur) ;;
    modify (set_curthread 0) ;;
    res ← attempt (stash nextstate cur);
    kassert (match res with inr _ => true | inl _ => false end) ;;
    upd_thread cur (fun th => set_pcb (mkpcb r (pcb_ininterrupt (t_pcb th))) th) ;;
    mret true.

(** [md_switch]: the interrupt flag is per thread. *)
Definition md_switch (old nu : Z) : TM unit :=
  if decide (old = nu) then mret tt
  else
    i ← gets in_interrupt;
    upd_thread old (fun th => set_pcb (mkpcb (pcb_resume (t_pcb th)) i) th) ;;
    th ← get_thread nu;
    modify (set_in_interrupt (pcb_ininterrupt (t_pcb th))).

(** What the thread just switched to does before it is back in its own code;
    [as_activate] loads the MMU and does not touch this state. *)
Definition resume_thread (r : resume) : TM unit :=
  match r with
  | AtStart => _ ← spl0; mret tt
  | AfterYield spl => exorcise ;; _ ← splx spl; mret tt
  | AfterSleep => exorcise ;; cur ← gets curthread; upd_thread cur (set_sleepaddr 0)
  end.

(** [mi_switch] from the call of the scheduler on: [false] when nothing is
    ready yet. *)
Definition mi_switch_in : TM bool :=
  next ← scheduler;
  match next with
  | None => mret false
  | Some next =>
      modify (set_curthread next) ;;
      cur ← gets switching;
      md_switch cur next ;;
      th ← get_thread next;
      resume_thread (pcb_resume (t_pcb th)) ;;
      mret true
  end.

(** The address space and the current directory of an exiting thread. *)
Definition exit_vmspace (cur : Z) (th : thread) : TM unit :=
  if decide (t_vmspace th <> 0) then
    upd_thread cur (set_vmspace 0) ;; zoom theapL (kfree (t_vmspace th))
  else mret tt.
Definition exit_cwd (cur : Z) (th : thread) : TM unit :=
  if decide (t_cwd th <> 0) then
    zoom vnodesL (VOP_DECREF (t_cwd th)) ;; upd_thread cur (set_cwd 0)
  else mret tt.

(** The callers of [mi_switch], up to the switch. *)
Definition thread_exit : TM bool :=
  cur ← gets curthread;
  th ← get_thread cur;
  assert_stack th ;;
  _ ← splhigh;
  exit_vmspace cur th ;;
  exit_cwd cur th ;;
  n ← gets numthreads;
  kassert (bool_decide (n > 0)) ;;
  modify (set_numthreads (n - 1)) ;;
  mi_switch_out S_ZOMB AtStart.

Definition thread_yield : TM bool :=
  spl ← splhigh;
  sl ← gets sleepers;
  kassert (bool_decide (is_Some sl)) ;;
  b ← mi_switch_out S_READY (AfterYield spl);
  if b : bool then mret true else _ ← splx spl; mret false.

Definition thread_sleep (addr : Z) : TM bool :=
  i ← gets in_interrupt;
  kassert (bool_decide (i = 0)) ;;
  cur ← gets curthread;
  upd_thread cur (set_sleepaddr addr) ;;
  mi_switch_out S_SLEEP AfterSleep.

(** The loop of [thread_wakeup]: either an element is removed or [i] advances,
    so it runs once per sleeper. *)
Fixpoint wakeup_loop (fuel : nat) (i addr : Z) : TM unit :=
  n ← on_sleepers array_getnum;
  if decide (i < n) then
    match fuel with
    | O => nofuel
    | S fuel' =>
        t ← on_sleepers (array_getguy i);
        t ← access t;
        th ← get_thread t;
        if decide (t_sleepaddr th = addr) then
          on_sleepers (array_remove i) ;;
          r ← attempt (make_runnable t);
          kassert (match r with inr _ => true | inl _ => false end) ;;
          wakeup_loop fuel' i addr
        else wakeup_loop fuel' (i + 1) addr
    end
  else mret tt.

Definition thread_wakeup (addr : Z) : TM unit :=
  assert_spl ;;
  n ← on_sleepers array_getnum;
  wakeup_loop (Z.to_nat n) 0 addr.

Fixpoint hassleepers_loop (n : nat) (i addr : Z) : TM Z :=
  match n with
  | O => mret 0
  | S n' =>
      t ← on_sleepers (array_getguy i);
      t ← access t;
      th ← get_thread t;
      if decide (t_sleepaddr th = addr) then mret 1 else hassleepers_loop n' (i + 1) addr
  end.

Definition thread_hassleepers (addr : Z) : TM Z :=
  assert_spl ;;
  n ← on_sleepers array_getnum;
  hassleepers_loop (Z.to_nat n) 0 addr.

End ops.

End Thread.
