(* ===== verification/ThreadInv.v ===== *)
(** * The thread system: invariant and theorems

    Every thread structure is in exactly one place (running, on the run queue,
    asleep, or a zombie), the count of threads is right, and the heap blocks
    of the tables and threads are live and distinct.  The theorems show that
    every operation of Thread.v keeps this, and what each does to the queues. *)

From S2P Require Import Prelude Kmalloc Array Queue Thread.
Import Array Queue Thread.

Module ThreadInv.

(** ** Blocks *)

Definition sizeof_addrspace : Z := 28.

Definition array_blocks (a : array Z) : list (Z * Z) :=
  (self a, sizeof_array) :: (if decide (v a = 0) then [] else [(v a, max a * sizeof_ptr)]).
Definition queue_blocks (q : queue Z) : list (Z * Z) :=
  [(qself q, sizeof_queue); (data q, size q * sizeof_word)].
Definition thread_blocks (t : Z) (th : thread) : list (Z * Z) :=
  (t, sizeof_thread) :: (t_name th, t_namelen th) ::
  (if decide (t_stack th = 0) then [] else [(t_stack th, STACK_SIZE)]) ++
  (if decide (t_vmspace th = 0) then [] else [(t_vmspace th, sizeof_addrspace)]).
Definition threads_blocks (T : gmap Z thread) : list (Z * Z) :=
  map_to_list T ≫= (fun p => thread_blocks p.1 p.2).

(** The blocks of [l] are live and distinct. *)
Definition owns (B : gmap Z Z) (l : list (Z * Z)) : Prop :=
  NoDup l.*1 /\ forall a n, (a, n) ∈ l -> B !! a = Some n.

#[export] Instance owns_proper B : Proper (Permutation ==> iff) (owns B).
Proof.
  intros l l' E. unfold owns. split; intros [N HB]; (split; [by rewrite <- ?E, ?E in *|]);
    intros a n Hin; apply HB; by rewrite ?E in *.
Qed.

Section blocks.
Context {H : Type} `{!Kmalloc H, !KmallocSpec H}.

Lemma owns_cons B a n l :
  owns B ((a, n) :: l) <-> B !! a = Some n /\ (a ∉ l.*1) /\ owns B l.
Proof.
  unfold owns. simpl. rewrite NoDup_cons. split.
  - intros [[? ?] HB]. split_and!; try done; [apply HB; left|]. intros. apply HB. by right.
  - intros (? & ? & ? & HB). split; [done|]. intros a' n'. rewrite elem_of_cons.
    intros [[= -> ->]|]; auto.
Qed.

Lemma owns_app_r B l1 l2 : owns B (l1 ++ l2) -> owns B l2.
Proof. induction l1 as [|[a n] l1 IH]; simpl; [done|]. rewrite owns_cons. naive_solver. Qed.

Lemma owns_alloc B p n l : B !! p = None -> owns B l -> owns (<[p := n]> B) ((p, n) :: l).
Proof.
  intros HB [N O]. apply owns_cons. rewrite lookup_insert_eq. split; [done|].
  assert (p ∉ l.*1).
  { rewrite list_elem_of_fmap. intros ([a m] & -> & Hin). apply O in Hin. simpl in HB. congruence. }
  split; [done|]. split; [done|]. intros a m Hin. rewrite lookup_insert_ne; [by apply O|].
  intros <-. apply H0. apply list_elem_of_fmap. by exists (p, m).
Qed.

Lemma owns_free B p n l : owns B ((p, n) :: l) -> owns (delete p B) l.
Proof.
  rewrite owns_cons. intros (_ & Hp & N & O). split; [done|]. intros a m Hin.
  rewrite lookup_delete_ne; [by apply O|]. intros <-. apply Hp, list_elem_of_fmap. by exists (p, m).
Qed.

(** Blocks that are not touched stay. *)
Lemma owns_frame B B' l :
  owns B l -> (forall a n, (a, n) ∈ l -> B' !! a = B !! a) -> owns B' l.
Proof. intros [N O] E. split; [done|]. intros a n Hin. rewrite (E a n Hin). by apply O. Qed.

Lemma owns_array h B a l : heap_rep h B -> owns B (array_blocks a ++ l) -> owned B a.
Proof.
  intros R O. unfold array_blocks in O. simpl in O. apply owns_cons in O as (Hs & Hn & O).
  split; [done|..].
  - intros Hv. rewrite decide_False in O by done. by apply owns_cons in O as (? & _).
  - intros E. destruct (decide (v a = 0)) as [Ez|Ez].
    + rewrite <- E, Ez, (heap_rep_null h B R) in Hs. done.
    + apply Hn. rewrite <- E. left.
Qed.

Lemma owns_array_step h B B' a a' l :
  heap_rep h B -> owns B (array_blocks a ++ l) -> evolves B a B' a' -> owns B' (array_blocks a' ++ l).
Proof.
  intros R O [W [Os Ov On] Es Eb Ef].
  assert (Ol : owns B l) by (by eapply owns_app_r).
  assert (Hk : forall p n, (p, n) ∈ l -> p <> self a /\ (v a <> 0 -> p <> v a)).
  { intros p n Hin. assert (Hp : p ∈ l.*1) by (apply list_elem_of_fmap; by exists (p, n)).
    unfold array_blocks in O. simpl in O. apply owns_cons in O as (_ & Hn & O).
    split; [intros ->; apply Hn; rewrite fmap_app; set_solver|]. intros Hv ->.
    rewrite decide_False in O by done. simpl in O. by apply owns_cons in O as (_ & ? & _). }
  assert (Hnew : forall p n, (p, n) ∈ l -> v a' <> 0 -> p <> v a').
  { intros p n Hin Hv ->. destruct (Hk _ _ Hin) as [_ Hva]. destruct Ef as [E|[E|E]]; [|done|].
    - rewrite E in *. by apply Hva.
    - destruct Ol as [_ Ol]. apply Ol in Hin. congruence. }
  assert (Ol' : owns B' l).
  { eapply owns_frame; [done|]. intros p n Hin. rewrite Eb. unfold add_block.
    destruct (Hk p n Hin) as [_ Hva]. destruct Ol as [_ Ol]. apply Ol in Hin as HB.
    assert (Hd : p <> v a).
    { intros ->. destruct (decide (v a = 0)) as [Ez|]; [|by apply Hva].
      rewrite Ez, (heap_rep_null h B R) in HB. done. }
    case_decide; [by apply lookup_delete_ne|].
    rewrite lookup_insert_ne; [by apply lookup_delete_ne|]. intros <-. by eapply Hnew. }
  assert (Hnl : v a' <> 0 -> owns B' ([(v a', max a' * sizeof_ptr)] ++ l)).
  { intros Hv. simpl. apply owns_cons. split; [auto|]. split; [|done]. rewrite list_elem_of_fmap.
    intros ([p n] & Ep & Hin). simpl in Ep. by eapply Hnew. }
  unfold array_blocks. simpl. apply owns_cons. split; [done|]. rewrite Es.
  assert (Hsl : self a ∉ l.*1).
  { rewrite list_elem_of_fmap. intros ([p n] & Ep & Hin). simpl in Ep. by destruct (Hk p n Hin). }
  case_decide as D; [done|]. split; [|by apply Hnl]. simpl. rewrite not_elem_of_cons.
  split; [|done]. rewrite <- Es. congruence.
Qed.

Lemma owns_queue B q l : owns B (queue_blocks q ++ l) -> qowned B q.
Proof.
  unfold queue_blocks. simpl. rewrite !owns_cons. simpl. rewrite not_elem_of_cons.
  intros (? & [? _] & ? & _ & _). by split; [| |congruence].
Qed.

Lemma owns_queue_step B B' q q' l :
  owns B (queue_blocks q ++ l) -> qevolves B q B' q' -> owns B' (queue_blocks q' ++ l).
Proof.
  unfold queue_blocks. simpl. rewrite !owns_cons. simpl. rewrite !not_elem_of_cons.
  intros (Hs & [Hne Hsl] & Hd & Hdl & Ol) [W [Os Od On] Es Eb Ef]. rewrite Es in *.
  assert (Hnew : data q' ∉ l.*1).
  { destruct Ef as [->|Ef]; [done|]. rewrite list_elem_of_fmap. intros ([p n] & Ep & Hin).
    simpl in Ep. subst p. destruct Ol as [_ Ol]. apply Ol in Hin. congruence. }
  split_and!; try done; try congruence. eapply owns_frame; [done|]. intros p n Hin. rewrite Eb.
  assert (Hp : p ∈ l.*1) by (apply list_elem_of_fmap; by exists (p, n)).
  rewrite lookup_insert_ne, lookup_delete_ne; [done| |]; intros E; by rewrite <- E in Hp.
Qed.

(** The live blocks outside [l], among those of [B], are the ones outside [l']
    among those of [B']. *)
Definition same_spare (B : gmap Z Z) (l : list (Z * Z)) (B' : gmap Z Z) (l' : list (Z * Z)) : Prop :=
  forall p n, (B !! p = Some n /\ p ∉ l.*1) <-> (B' !! p = Some n /\ p ∉ l'.*1).

Lemma same_spare_trans B1 l1 B2 l2 B3 l3 :
  same_spare B1 l1 B2 l2 -> same_spare B2 l2 B3 l3 -> same_spare B1 l1 B3 l3.
Proof. intros E1 E2 p n. by rewrite (E1 p n). Qed.

Lemma same_spare_perm B l l' : l ≡ₚ l' -> same_spare B l B l'.
Proof. intros E p n. by rewrite E. Qed.

Lemma spare_alloc B p n l : B !! p = None -> same_spare B l (<[p := n]> B) ((p, n) :: l).
Proof.
  intros HB q m. simpl. rewrite not_elem_of_cons.
  destruct (decide (p = q)) as [<-|]; [rewrite HB|rewrite lookup_insert_ne by done]; naive_solver.
Qed.

Lemma spare_free B p n l : owns B ((p, n) :: l) -> same_spare B ((p, n) :: l) (delete p B) l.
Proof.
  intros O q m. simpl. rewrite not_elem_of_cons.
  destruct (decide (p = q)) as [<-|]; [rewrite lookup_delete_eq|rewrite lookup_delete_ne by done]; naive_solver.
Qed.

Lemma spare_array h B B' a a' l :
  heap_rep h B -> evolves B a B' a' ->
  same_spare B (array_blocks a ++ l) B' (array_blocks a' ++ l).
Proof.
  intros R [_ _ Es Eb Ef] p n. pose proof (heap_rep_null h B R) as H0.
  unfold array_blocks. rewrite Es, Eb. unfold add_block. simpl. rewrite !not_elem_of_cons, !fmap_app, !not_elem_of_app.
  assert (Hne : B !! p = Some n -> p <> 0) by congruence.
  assert (Hnew : B !! p = Some n -> p = v a' -> p = v a) by naive_solver congruence.
  destruct (decide (v a = 0)) as [D|D], (decide (v a' = 0)) as [D'|D']; simpl;
    rewrite ?not_elem_of_cons, ?lookup_insert_Some, ?lookup_delete_Some, ?D in *;
    pose proof (not_elem_of_nil p); destruct (decide (p = v a')), (decide (p = v a)); intuition congruence.
Qed.

Lemma spare_queue B B' q q' l :
  qevolves B q B' q' -> same_spare B (queue_blocks q ++ l) B' (queue_blocks q' ++ l).
Proof.
  intros [_ _ Es Eb Ef] p n. unfold queue_blocks. rewrite Es, Eb. simpl.
  rewrite !not_elem_of_cons, lookup_insert_Some, lookup_delete_Some. naive_solver.
Qed.

Lemma threads_blocks_insert T t th :
  T !! t = None -> threads_blocks (<[t := th]> T) ≡ₚ thread_blocks t th ++ threads_blocks T.
Proof.
  intros HT. unfold threads_blocks. rewrite map_to_list_insert by done. done.
Qed.

Lemma threads_blocks_delete T t th :
  T !! t = Some th -> threads_blocks T ≡ₚ thread_blocks t th ++ threads_blocks (delete t T).
Proof.
  intros HT. rewrite <- (insert_delete_id T t th) at 1 by done.
  apply threads_blocks_insert, lookup_delete_eq.
Qed.

(** Changes of a thread structure that keep its blocks. *)
Lemma threads_blocks_update T t th th' :
  T !! t = Some th -> thread_blocks t th' = thread_blocks t th ->
  threads_blocks (<[t := th']> T) ≡ₚ threads_blocks T.
Proof.
  intros HT E. rewrite (threads_blocks_delete T t th HT), <- insert_delete_eq.
  rewrite threads_blocks_insert by apply lookup_delete_eq. by rewrite E.
Qed.

End blocks.

(** ** The tables *)

(** The number of threads considered; far beyond what memory can hold. *)
Definition MAXTHREADS : Z := 2 ^ 20.
Definition MAXRQ : Z := 2 ^ 22.

Section inv.
Context {H V : Type} `{!Kmalloc H, !KmallocSpec H, !VnodeRefs V}.
Implicit Types s : tsys H V.

(** The tables hold [S] asleep, [Zs] zombies and [R] ready, and their blocks and
    those of the threads are live and distinct. *)
Record tbl s (B : gmap Z Z) (sl zs : array Z) (rq : queue Z) (R S Zs : list Z) : Prop := {
  tb_heap : heap_rep (heap s) B;
  tb_sleepers : sleepers s = Some sl;
  tb_zombies : zombies s = Some zs;
  tb_runqueue : runqueue s = Some rq;
  tb_wf_sl : wf sl;
  tb_wf_zs : wf zs;
  tb_wf_rq : qwf rq;
  tb_S : contents sl = Some <$> S;
  tb_Z : contents zs = Some <$> Zs;
  tb_R : qcontents rq = Some <$> R;
  tb_size : size rq <= MAXRQ;
  tb_owns : owns B (array_blocks sl ++ array_blocks zs ++ queue_blocks rq ++ threads_blocks (threads s));
}.

(** [s'] differs from [s] in the heap and the tables only. *)
Record same_rest s s' : Prop := {
  sr_threads : threads s' = threads s;
  sr_cur : curthread s' = curthread s;
  sr_switching : switching s' = switching s;
  sr_num : numthreads s' = numthreads s;
  sr_spl : curspl s' = curspl s;
  sr_int : in_interrupt s' = in_interrupt s;
  sr_vnodes : vnodes s' = vnodes s;
}.

#[local] Instance same_rest_preorder : PreOrder same_rest.
Proof.
  split; [by intros s; split|]. intros s1 s2 s3 [] []. split; congruence.
Qed.

Lemma num_length (a : array Z) (l : list Z) :
  wf a -> contents a = Some <$> l -> num a = Z.of_nat (length l).
Proof.
  intros W E. pose proof (contents_length a W) as L. rewrite E, length_fmap in L.
  pose proof (wf_num a W). lia.
Qed.

Lemma qlen_length (q : queue Z) (l : list Z) :
  qwf q -> qcontents q = Some <$> l -> qlen q = Z.of_nat (length l).
Proof.
  intros W E. pose proof (qcontents_length q W) as L. rewrite E, length_fmap in L.
  pose proof (qlen_range q W). lia.
Qed.

Lemma owns_zs_first B sl zs rq T :
  owns B (array_blocks sl ++ array_blocks zs ++ queue_blocks rq ++ T) <->
  owns B (array_blocks zs ++ array_blocks sl ++ queue_blocks rq ++ T).
Proof. by rewrite (Permutation_app_swap_app (array_blocks sl)). Qed.

Lemma owns_rq_first B sl zs rq T :
  owns B (array_blocks sl ++ array_blocks zs ++ queue_blocks rq ++ T) <->
  owns B (queue_blocks rq ++ array_blocks sl ++ array_blocks zs ++ T).
Proof.
  rewrite (Permutation_app_swap_app (array_blocks zs)).
  by rewrite (Permutation_app_swap_app (array_blocks sl) (queue_blocks rq)).
Qed.

Lemma add_sleeper_spec s B sl zs rq R S Zs t :
  tbl s B sl zs rq R S Zs -> Z.of_nat (length S) < MAXGUYS ->
  (max sl <= Z.of_nat (length S) /\ exists s', on_sleepers (array_add t) s = Fail ENOMEM s') \/
  (exists s' B' sl', on_sleepers (array_add t) s = Done tt s' /\ same_rest s s' /\
     tbl s' B' sl' zs rq R (S ++ [t]) Zs /\ max sl <= max sl').
Proof.
  intros [] HS. pose proof (num_length sl S tb_wf_sl0 tb_S0) as En.
  destruct (array_add_spec (heap s) B sl t) as
    [(h' & Hm & E & _)|(h' & B' & sl' & E & R' & Ev & _ & Hc & Hmx)];
    [done|done|by eapply owns_array|lia|..].
  - left. split; [lia|]. unfold on_sleepers, on_array. rewrite tb_sleepers0, E. eauto.
  - right. eexists _, B', sl'. unfold on_sleepers, on_array. rewrite tb_sleepers0, E.
    split; [done|]. split; [by split|]. split; [|done]. split; try done.
    + apply Ev.
    + rewrite Hc, tb_S0, fmap_app. done.
    + by eapply (owns_array_step (heap s) B).
Qed.

Lemma add_zombie_spec s B sl zs rq R S Zs t :
  tbl s B sl zs rq R S Zs -> Z.of_nat (length Zs) < MAXGUYS ->
  (max zs <= Z.of_nat (length Zs) /\ exists s', on_zombies (array_add t) s = Fail ENOMEM s') \/
  (exists s' B' zs', on_zombies (array_add t) s = Done tt s' /\ same_rest s s' /\
     tbl s' B' sl zs' rq R S (Zs ++ [t])).
Proof.
  intros [] HS. pose proof (num_length zs Zs tb_wf_zs0 tb_Z0) as En.
  rewrite owns_zs_first in tb_owns0.
  destruct (array_add_spec (heap s) B zs t) as
    [(h' & Hm & E & _)|(h' & B' & zs' & E & R' & Ev & _ & Hc & Hmx)];
    [done|done|by eapply owns_array|lia|..].
  - left. split; [lia|]. unfold on_zombies, on_array. rewrite tb_zombies0, E. eauto.
  - right. eexists _, B', zs'. unfold on_zombies, on_array. rewrite tb_zombies0, E.
    split; [done|]. split; [by split|]. split; try done.
    + apply Ev.
    + rewrite Hc, tb_Z0, fmap_app. done.
    + apply owns_zs_first. by eapply (owns_array_step (heap s) B).
Qed.

Lemma make_runnable_spec s B sl zs rq R S Zs t :
  tbl s B sl zs rq R S Zs -> curspl s > 0 -> Z.of_nat (length R) < MAXTHREADS ->
  (size rq = Z.of_nat (length R) + 1 /\ exists s', make_runnable t s = Fail ENOMEM s' /\
     same_rest s s' /\ tbl s' B sl zs rq R S Zs) \/
  (exists s' B' rq', make_runnable t s = Done tt s' /\ same_rest s s' /\
     tbl s' B' sl zs rq' (R ++ [t]) S Zs /\
     (Z.of_nat (length R) + 1 < size rq -> heap s' = heap s /\ size rq' = size rq)).
Proof.
  intros [] Hspl HR. pose proof (qlen_length rq R tb_wf_rq0 tb_R0) as En.
  pose proof tb_owns0 as Ho. rewrite owns_rq_first in Ho.
  unfold make_runnable, assert_spl, on_runqueue. munfold.
  rewrite bool_decide_eq_true_2 by lia. rewrite tb_runqueue0.
  destruct (q_addtail_spec (heap s) B rq t) as
    [(h' & Hl & E & R')|(h' & B' & rq' & E & R' & Ev & Hc & Hs1 & Hs2 & Hh)];
    [done|done|by eapply owns_queue|unfold MAXRQ, MAXQ in *; lia|..]; rewrite E.
  - left. split; [lia|]. eexists. split; [done|]. split; [by split|]. by split.
  - right. eexists _, B', rq'. split; [done|]. split; [by split|].
    split; [|intros; apply Hh; lia]. split; try done.
    + apply Ev.
    + rewrite Hc, tb_R0, fmap_app. done.
    + unfold MAXRQ, MAXTHREADS in *. lia.
    + apply owns_rq_first. by eapply owns_queue_step.
Qed.

Lemma remove_sleeper_spec s B sl zs rq R S Zs i :
  tbl s B sl zs rq R S Zs -> 0 <= i < Z.of_nat (length S) ->
  exists s' sl', on_sleepers (array_remove i) s = Done tt s' /\ same_rest s s' /\ heap s' = heap s /\
    tbl s' B sl' zs rq R (delete (Z.to_nat i) S) Zs /\ max sl' = max sl.
Proof.
  intros [] HS. pose proof (num_length sl S tb_wf_sl0 tb_S0) as En.
  destruct (array_remove_spec (heap s) B sl i) as (sl' & E & Ev & Hc & Hm);
    [done|done|by eapply owns_array|lia|].
  eexists _, sl'. unfold on_sleepers, on_array. rewrite tb_sleepers0, E.
  split; [done|]. split; [by split|]. split; [done|]. split; [|done]. split; try done.
  - apply Ev.
  - rewrite Hc, tb_S0. by rewrite list_fmap_delete.
  - by eapply (owns_array_step (heap s) B).
Qed.

Lemma array_getguy_eq (h : H) (a : array Z) (l : list Z) i t :
  wf a -> contents a = Some <$> l -> 0 <= i -> l !! Z.to_nat i = Some t ->
  array_getguy i (h, a) = Done (Some t) (h, a).
Proof.
  intros W Hc Hi Hl. pose proof (num_length a l W Hc). pose proof (wf_num a W).
  pose proof (lookup_lt_Some _ _ _ Hl). unfold array_getguy, getA. munfold. simpl.
  rewrite !bool_decide_eq_true_2 by lia.
  assert (Hc' : contents a !! Z.to_nat i = Some (Some t)) by (rewrite Hc, list_lookup_fmap, Hl; done).
  unfold contents in Hc'. apply lookup_take_Some in Hc' as [Hc' _].
  unfold zlookup. rewrite decide_True by lia. by rewrite Hc'.
Qed.

Lemma set_sleepers_id s sl : sleepers s = Some sl -> set_sleepers (Some sl) (set_heap (heap s) s) = s.
Proof. intros <-. by destruct s. Qed.
Lemma set_zombies_id s zs : zombies s = Some zs -> set_zombies (Some zs) (set_heap (heap s) s) = s.
Proof. intros <-. by destruct s. Qed.

Lemma getguy_sleeper s B sl zs rq R S Zs i t :
  tbl s B sl zs rq R S Zs -> 0 <= i -> S !! Z.to_nat i = Some t ->
  on_sleepers (array_getguy i) s = Done (Some t) s.
Proof.
  intros [] Hi HS. unfold on_sleepers, on_array.
  by rewrite tb_sleepers0, (array_getguy_eq _ _ S i t), set_sleepers_id.
Qed.

Lemma getguy_zombie s B sl zs rq R S Zs i t :
  tbl s B sl zs rq R S Zs -> 0 <= i -> Zs !! Z.to_nat i = Some t ->
  on_zombies (array_getguy i) s = Done (Some t) s.
Proof.
  intros [] Hi HS. unfold on_zombies, on_array.
  by rewrite tb_zombies0, (array_getguy_eq _ _ Zs i t), set_zombies_id.
Qed.

Lemma getnum_zombies s B sl zs rq R S Zs :
  tbl s B sl zs rq R S Zs -> on_zombies array_getnum s = Done (Z.of_nat (length Zs)) s.
Proof.
  intros []. pose proof (num_length zs Zs tb_wf_zs0 tb_Z0) as En.
  unfold on_zombies, on_array, array_getnum, getA. munfold. rewrite tb_zombies0. simpl. rewrite En.
  by rewrite set_zombies_id.
Qed.

Lemma getnum_sleepers s B sl zs rq R S Zs :
  tbl s B sl zs rq R S Zs -> on_sleepers array_getnum s = Done (Z.of_nat (length S)) s.
Proof.
  intros []. pose proof (num_length sl S tb_wf_sl0 tb_S0) as En.
  unfold on_sleepers, on_array, array_getnum, getA. munfold. rewrite tb_sleepers0. simpl. rewrite En.
  by rewrite set_sleepers_id.
Qed.

Lemma pop_spec s B sl zs rq R S Zs t :
  tbl s B sl zs rq (t :: R) S Zs -> curspl s > 0 ->
  exists s' rq', scheduler s = Done (Some t) s' /\ same_rest s s' /\ heap s' = heap s /\
    tbl s' B sl zs rq' R S Zs /\ size rq' = size rq.
Proof.
  intros [] Hspl. pose proof (qlen_length rq (t :: R) tb_wf_rq0 tb_R0) as En. simpl in En.
  pose proof tb_owns0 as Ho. rewrite owns_rq_first in Ho.
  destruct (q_remhead_spec (heap s) rq) as (x & rq' & E & W & Hc & Es & Ez & Ed & _); [done|lia|].
  rewrite tb_R0 in Hc. injection Hc as <- Hc.
  unfold scheduler, assert_spl, on_runqueue. munfold. rewrite bool_decide_eq_true_2 by lia.
  rewrite tb_runqueue0, q_empty_eq, bool_decide_eq_false_2 by (done || lia). simpl. rewrite E. simpl.
  eexists _, rq'. split; [done|]. split; [by split|]. split; [done|]. split; [|done].
  split; try done.
  - simpl. lia.
  - apply owns_rq_first. eapply owns_queue_step; [exact Ho|]. eapply qevolves_same; try done.
    by eapply owns_queue.
Qed.

Lemma scheduler_empty s B sl zs rq S Zs :
  tbl s B sl zs rq [] S Zs -> curspl s > 0 -> scheduler s = Done None s.
Proof.
  intros [] Hspl. pose proof (qlen_length rq [] tb_wf_rq0 tb_R0) as En. simpl in En.
  unfold scheduler, assert_spl, on_runqueue. munfold. rewrite bool_decide_eq_true_2 by lia.
  rewrite tb_runqueue0, q_empty_eq, bool_decide_eq_true_2 by done. f_equal.
  destruct s; simpl in *. unfold set_runqueue, set_heap. simpl. by subst.
Qed.

(** ** Wakeup *)

(** The sleepers of [S] that [thread_wakeup addr] finds, and the others. *)
Definition on_addr s (addr : Z) (S : list Z) : list Z :=
  filter (fun t => t_sleepaddr <$> threads s !! t = Some addr) S.
Definition off_addr s (addr : Z) (S : list Z) : list Z :=
  filter (fun t => t_sleepaddr <$> threads s !! t <> Some addr) S.

Lemma get_thread_eq s t th : threads s !! t = Some th -> get_thread t s = Done th s.
Proof. intros E. unfold get_thread. munfold. unfold id. by rewrite E. Qed.

Lemma wakeup_loop_spec addr zs Zs S2 s B sl rq R S1 fuel :
  tbl s B sl zs rq R (S1 ++ S2) Zs -> curspl s > 0 ->
  (forall t, t ∈ S2 -> is_Some (threads s !! t)) -> (length S2 <= fuel)%nat ->
  Z.of_nat (length R + length S2) <= MAXTHREADS ->
  (size rq <= Z.of_nat (length R + length (on_addr s addr S2)) /\
     wakeup_loop fuel (Z.of_nat (length S1)) addr s = Panic) \/
  (exists s' B' sl' rq', wakeup_loop fuel (Z.of_nat (length S1)) addr s = Done tt s' /\
     same_rest s s' /\ max sl' = max sl /\
     (Z.of_nat (length R + length (on_addr s addr S2)) < size rq -> size rq' = size rq) /\
     tbl s' B' sl' zs rq' (R ++ on_addr s addr S2) (S1 ++ off_addr s addr S2) Zs).
Proof.
  revert s B sl rq R S1 fuel. induction S2 as [|t S2 IH]; intros s B sl rq R S1 fuel T Hspl Hth Hf Hb.
  { right. exists s, B, sl, rq. rewrite !app_nil_r in *.
    split; [|done]. destruct fuel; simpl; munfold; rewrite (getnum_sleepers _ _ _ _ _ _ _ _ T);
      rewrite decide_False by lia; done. }
  destruct fuel as [|fuel]; [simpl in Hf; lia|]. simpl in Hf, Hb.
  assert (Ht : is_Some (threads s !! t)) by (apply Hth; left). destruct Ht as [th Ht].
  cbn [wakeup_loop]. munfold. rewrite (getnum_sleepers _ _ _ _ _ _ _ _ T).
  rewrite decide_True by (rewrite length_app; simpl; lia).
  rewrite (getguy_sleeper _ _ _ _ _ _ _ _ _ t T); [|lia|].
  2:{ rewrite Nat2Z.id, lookup_app_r, Nat.sub_diag by lia. done. }
  rewrite (get_thread_eq s t th Ht). unfold on_addr, off_addr. rewrite !filter_cons, Ht. simpl.
  destruct (decide (t_sleepaddr th = addr)) as [Ea|Ea].
  - rewrite (decide_True (P := Some (t_sleepaddr th) = Some addr)) by congruence.
    rewrite (decide_False (P := Some (t_sleepaddr th) <> Some addr)) by congruence.
    destruct (remove_sleeper_spec _ _ _ _ _ _ _ _ (Z.of_nat (length S1)) T)
      as (s1 & sl1 & E1 & SR1 & _ & T1 & M1); [rewrite length_app; simpl; lia|].
    rewrite E1. rewrite Nat2Z.id, delete_middle in T1.
    destruct (make_runnable_spec _ _ _ _ _ _ _ _ t T1) as
      [(Hfull & s2 & E2 & _)|(s2 & B2 & rq2 & E2 & SR2 & T2 & Hsz)];
      [rewrite (sr_spl _ _ SR1); lia|lia|..]; rewrite E2.
    + left. simpl. split; [lia|done].
    + simpl. assert (SR : same_rest s s2) by (by etrans).
      destruct (IH s2 B2 sl1 rq2 (R ++ [t]) S1 fuel T2) as [(Hx & Ep)|(s3 & B3 & sl3 & rq3 & E3 & SR3 & M3 & Q3 & T3)].
      { rewrite (sr_spl _ _ SR). lia. }
      { intros t' Ht'. rewrite (sr_threads _ _ SR). apply Hth. by right. }
      { lia. } { rewrite length_app. simpl. lia. }
      * left. split; [|done]. unfold on_addr in Hx. rewrite (sr_threads _ _ SR), length_app in Hx.
        simpl in Hx. destruct (decide (Z.of_nat (length R) + 1 < size rq)); [|lia].
        destruct Hsz as [_ Hsz]; [done|]. lia.
      * right. exists s3, B3, sl3, rq3. split; [done|]. split; [by etrans|]. split; [congruence|].
        split; [|unfold on_addr, off_addr in T3; rewrite (sr_threads _ _ SR), <- app_assoc in T3; done].
        intros Hlt. destruct Hsz as [_ Hsz]; [lia|]. rewrite <- Hsz. apply Q3.
        unfold on_addr. rewrite (sr_threads _ _ SR), length_app. simpl. unfold on_addr in Hlt. lia.
  - rewrite (decide_False (P := Some (t_sleepaddr th) = Some addr)) by congruence.
    rewrite (decide_True (P := Some (t_sleepaddr th) <> Some addr)) by congruence.
    replace (Z.of_nat (length S1) + 1) with (Z.of_nat (length (S1 ++ [t]))) by (rewrite length_app; simpl; lia).
    replace (S1 ++ t :: S2) with ((S1 ++ [t]) ++ S2) in T by (by rewrite <- app_assoc).
    destruct (IH s B sl rq R (S1 ++ [t]) fuel T) as [(Hx & Ep)|(s3 & B3 & sl3 & rq3 & E3 & SR3 & M3 & Q3 & T3)];
      [done|intros t' Ht'; apply Hth; by right|lia|lia|..].
    + left. split; [|done]. done.
    + right. exists s3, B3, sl3, rq3. split_and!; try done.
      unfold off_addr in T3. rewrite <- app_assoc in T3. done.
Qed.

(** ** The invariant *)

Definition cur_list s : list Z := if decide (curthread s = 0) then [] else [curthread s].

(** Every thread is in exactly one place. *)
Record part s (R S Zs : list Z) : Prop := {
  pt_nodup : NoDup (cur_list s ++ R ++ S ++ Zs);
  pt_dom : forall t, t ∈ cur_list s ++ R ++ S ++ Zs <-> is_Some (threads s !! t);
  pt_magic : forall t th, threads s !! t = Some th -> t_stack th <> 0 -> t_magic th = stack_magic;
  pt_zomb : forall t th, t ∈ Zs -> threads s !! t = Some th -> t_vmspace th = 0 /\ t_cwd th = 0;
  pt_count : numthreads s = Z.of_nat (length (cur_list s ++ R ++ S));
  pt_bound : Z.of_nat (length (cur_list s ++ R ++ S ++ Zs)) <= MAXTHREADS;
  pt_idle : curthread s = 0 -> curspl s > 0 /\ is_Some (threads s !! switching s);
}.

Record tinv_at s (B : gmap Z Z) (sl zs : array Z) (rq : queue Z) (R S Zs : list Z) : Prop := {
  ti_tbl : tbl s B sl zs rq R S Zs;
  ti_part : part s R S Zs;
  (* what thread_fork preallocates *)
  ti_cap : 1 < numthreads s -> numthreads s <= max sl;
}.

(** [R] ready in queue order, [S] asleep, [Zs] zombies. *)
Definition tinv s (R S Zs : list Z) : Prop :=
  exists B sl zs rq, tinv_at s B sl zs rq R S Zs.

Lemma threads_nonzero s B sl zs rq R S Zs t th :
  tbl s B sl zs rq R S Zs -> threads s !! t = Some th -> t <> 0.
Proof.
  intros [] Ht ->. rewrite (threads_blocks_delete _ _ _ Ht) in tb_owns0.
  do 3 apply owns_app_r in tb_owns0. unfold thread_blocks in tb_owns0. simpl in tb_owns0.
  apply owns_cons in tb_owns0 as (Hb & _). by rewrite (heap_rep_null _ _ tb_heap0) in Hb.
Qed.

(** Updating a thread structure without touching its blocks. *)
Lemma tbl_upd_thread s B sl zs rq R S Zs t th th' :
  tbl s B sl zs rq R S Zs -> threads s !! t = Some th -> thread_blocks t th' = thread_blocks t th ->
  tbl (set_threads (<[t := th']> (threads s)) s) B sl zs rq R S Zs.
Proof.
  intros [] Ht E. split; try done. simpl threads.
  by rewrite (threads_blocks_update _ _ _ _ Ht E).
Qed.

Lemma tbl_same s s' B sl zs rq R S Zs :
  tbl s B sl zs rq R S Zs -> heap s' = heap s -> threads s' = threads s -> sleepers s' = sleepers s ->
  zombies s' = zombies s -> runqueue s' = runqueue s -> tbl s' B sl zs rq R S Zs.
Proof. intros [] E1 E2 E3 E4 E5. split; congruence. Qed.

Lemma tbl_upd_thread_vn s B sl zs rq R S Zs t th th' vn :
  tbl s B sl zs rq R S Zs -> threads s !! t = Some th -> thread_blocks t th' = thread_blocks t th ->
  tbl (set_vnodes vn (set_threads (<[t := th']> (threads s)) s)) B sl zs rq R S Zs.
Proof.
  intros T Ht E. apply (tbl_same (set_threads (<[t := th']> (threads s)) s)); try done.
  by eapply tbl_upd_thread.
Qed.

Lemma upd_thread_eq s t f th :
  threads s !! t = Some th -> upd_thread t f s = Done tt (set_threads (<[t := f th]> (threads s)) s).
Proof. intros E. unfold upd_thread. munfold. by rewrite (get_thread_eq s t th E). Qed.

Lemma cur_thread s R S Zs :
  part s R S Zs -> curthread s <> 0 -> exists th, threads s !! curthread s = Some th.
Proof.
  intros P Hc. apply (pt_dom _ _ _ _ P). unfold cur_list. rewrite decide_False by done. left.
Qed.

Lemma assert_stack_ok s th :
  (t_stack th <> 0 -> t_magic th = stack_magic) -> assert_stack th s = Done tt s.
Proof.
  intros Hm. unfold assert_stack. case_decide; [|done]. munfold.
  by rewrite bool_decide_eq_true_2 by auto.
Qed.

Lemma check_magic_ok s R S Zs t :
  part s R S Zs -> is_Some (threads s !! t) -> check_magic t s = Done tt s.
Proof.
  intros P [th Ht]. unfold check_magic. case_decide as D; [|done]. munfold.
  rewrite (get_thread_eq s t th Ht). apply assert_stack_ok. by eapply pt_magic.
Qed.

Lemma check_magic_cur s R S Zs :
  part s R S Zs -> curthread s <> 0 -> check_magic (curthread s) s = Done tt s.
Proof. intros P Hc. eapply check_magic_ok; [done|]. by eapply cur_thread. Qed.

Lemma mi_switch_out_eq st r s s1 th :
  check_magic (curthread s) s = Done tt s -> curspl s > 0 -> curthread s <> 0 ->
  stash st (curthread s) (set_curthread 0 (set_switching (curthread s) s)) = Done tt s1 ->
  threads s1 !! curthread s = Some th ->
  mi_switch_out st r s =
    Done true (set_threads (<[curthread s := set_pcb (mkpcb r (pcb_ininterrupt (t_pcb th))) th]> (threads s1)) s1).
Proof.
  intros Hm Hspl Hc Est Hth. unfold mi_switch_out, assert_spl. munfold.
  rewrite bool_decide_eq_true_2 by lia. rewrite Hm.
  rewrite decide_False by done. rewrite Est. simpl.
  by rewrite (upd_thread_eq _ _ _ th Hth).
Qed.

Lemma mi_switch_out_fail st r s e s1 :
  check_magic (curthread s) s = Done tt s -> curspl s > 0 -> curthread s <> 0 ->
  stash st (curthread s) (set_curthread 0 (set_switching (curthread s) s)) = Fail e s1 ->
  mi_switch_out st r s = Panic.
Proof.
  intros Hm Hspl Hc Est. unfold mi_switch_out, assert_spl. munfold.
  rewrite bool_decide_eq_true_2 by lia. rewrite Hm.
  rewrite decide_False by done. by rewrite Est.
Qed.

Lemma perm_to_R (R S Zs : list Z) c : (R ++ [c]) ++ S ++ Zs ≡ₚ c :: R ++ S ++ Zs.
Proof. rewrite <- (Permutation_cons_append R). done. Qed.
Lemma perm_to_S (R S Zs : list Z) c : R ++ (S ++ [c]) ++ Zs ≡ₚ c :: R ++ S ++ Zs.
Proof. rewrite <- (Permutation_cons_append S). simpl. by rewrite <- Permutation_middle. Qed.
Lemma perm_to_Z (R S Zs : list Z) c : R ++ S ++ Zs ++ [c] ≡ₚ c :: R ++ S ++ Zs.
Proof. rewrite !app_assoc. by rewrite <- Permutation_cons_append. Qed.

(** [s0] is [s] when [mi_switch] is entered, [s1] after the current thread was
    put on a list. *)
Lemma part_stash s s0 s1 R S Zs R' S' Zs' th th0 p :
  let c := curthread s in
  part s R S Zs -> c <> 0 -> threads s !! c = Some th ->
  curthread s0 = c -> threads s0 = <[c := th0]> (threads s) -> curspl s0 > 0 ->
  t_stack th0 = t_stack th -> t_magic th0 = t_magic th ->
  same_rest (set_curthread 0 (set_switching c s0)) s1 ->
  R' ++ S' ++ Zs' ≡ₚ c :: R ++ S ++ Zs -> numthreads s0 = Z.of_nat (length (R' ++ S')) ->
  (Zs' = Zs \/ t_vmspace th0 = 0 /\ t_cwd th0 = 0 /\ Zs' = Zs ++ [c]) ->
  part (set_threads (<[c := set_pcb p th0]> (threads s1)) s1) R' S' Zs'.
Proof.
  intros c [] Hc Hth Ec Et Hspl Es Em [] HP Hn Hz. simpl in *.
  assert (Ecl : cur_list s = [c]) by (unfold cur_list; by rewrite decide_False).
  rewrite Ecl in *. rewrite sr_threads0, Et.
  assert (HcZ : c ∉ Zs) by (apply NoDup_cons in pt_nodup0 as [Hni _]; set_solver).
  split; unfold cur_list; simpl; rewrite ?sr_cur0; simpl; rewrite ?insert_insert_eq.
  - by rewrite HP.
  - intros t. rewrite HP, lookup_insert_is_Some. simpl in pt_dom0. rewrite pt_dom0.
    destruct (decide (c = t)) as [<-|]; [|naive_solver]. rewrite Hth. naive_solver.
  - intros t th1. rewrite lookup_insert_Some. intros [[<- <-]|[_ Ht]]; [|by eapply pt_magic0].
    simpl. rewrite Es, Em. by eapply pt_magic0.
  - intros t th1 Ht. rewrite lookup_insert_Some. intros [[<- <-]|[Hne Ht']].
    + destruct Hz as [->|(? & ? & _)]; [|done]. done.
    + eapply pt_zomb0; [|done]. destruct Hz as [->|(_ & _ & ->)]; [done|]. set_solver.
  - congruence.
  - rewrite HP. done.
  - intros _. rewrite sr_spl0, sr_switching0, lookup_insert_eq. eauto.
Qed.

Lemma part_cur_lengths s R S Zs :
  part s R S Zs -> curthread s <> 0 ->
  numthreads s = 1 + Z.of_nat (length R) + Z.of_nat (length S) /\
  1 + Z.of_nat (length R) + Z.of_nat (length S) + Z.of_nat (length Zs) <= MAXTHREADS.
Proof.
  intros [] Hc. unfold cur_list in *. rewrite decide_False in * by done.
  simpl in *. rewrite !length_app in *. lia.
Qed.

(** The current thread structure after an update that keeps blocks and magic. *)
Lemma pcb_blocks t p th : thread_blocks t (set_pcb p th) = thread_blocks t th.
Proof. done. Qed.

Lemma tinv_cur_nz s R S Zs t : tinv s R S Zs -> is_Some (threads s !! t) -> t <> 0.
Proof. intros (B & sl & zs & rq & [T _ _]) [th Ht]. by eapply threads_nonzero. Qed.

(** What is left of the running thread when it was switched out. *)
Definition switched_out s s' (th' : thread) : Prop :=
  threads s' = <[curthread s := th']> (threads s) /\ in_interrupt s' = in_interrupt s /\
  switching s' = curthread s /\ vnodes s' = vnodes s.

Lemma thread_yield_inv s B sl zs rq R S Zs :
  tinv_at s B sl zs rq R S Zs -> curthread s <> 0 ->
  (size rq = Z.of_nat (length R) + 1 /\ thread_yield s = Panic) \/
  (exists s' th, thread_yield s = Done true s' /\ curthread s' = 0 /\
     tinv s' (R ++ [curthread s]) S Zs /\ threads s !! curthread s = Some th /\
     switched_out s s' (set_pcb (mkpcb (AfterYield (curspl s)) (pcb_ininterrupt (t_pcb th))) th)).
Proof.
  intros [T P C] Hc. destruct (cur_thread _ _ _ _ P Hc) as [th Hth].
  destruct (part_cur_lengths _ _ _ _ P Hc) as [Hn Hb].
  set (s0 := set_curspl SPL_HIGH s).
  assert (P0 : part s0 R S Zs) by (destruct P; split; done).
  pose proof (check_magic_cur s0 R S Zs P0 Hc) as Hm.
  assert (T0 : tbl (set_curthread 0 (set_switching (curthread s0) s0)) B sl zs rq R S Zs)
    by (by eapply tbl_same).
  unfold thread_yield, splhigh, splx. munfold. fold s0.
  rewrite bool_decide_eq_true_2 by (rewrite (tb_sleepers _ _ _ _ _ _ _ _ T0 : sleepers s0 = _); eauto).
  destruct (make_runnable_spec _ _ _ _ _ _ _ _ (curthread s) T0) as
    [(Hf & s1 & E & _)|(s1 & B1 & rq1 & E & SR & T1 & _)]; [done|lia|..].
  - left. split; [done|].
    by rewrite (mi_switch_out_fail S_READY (AfterYield (curspl s)) s0 ENOMEM s1).
  - right. assert (Hth1 : threads s1 !! curthread s0 = Some th) by (by rewrite (sr_threads _ _ SR)).
    rewrite (mi_switch_out_eq S_READY (AfterYield (curspl s)) s0 s1 th) by done.
    eexists _, th. split; [done|]. split; [apply (sr_cur _ _ SR)|].
    split; [|split; [done|destruct SR; simpl in *; split_and!; simpl; congruence]].
    exists B1, sl, zs, rq1. split.
    + by eapply tbl_upd_thread.
    + eapply (part_stash s s0 s1 R S Zs _ _ _ th th); try done.
      * by rewrite insert_id.
      * apply perm_to_R.
      * simpl. rewrite !length_app. simpl. lia.
      * by left.
    + simpl. rewrite (sr_num _ _ SR). done.
Qed.

Lemma part_upd_thread s R S Zs t th th' :
  part s R S Zs -> threads s !! t = Some th -> t_stack th' = t_stack th -> t_magic th' = t_magic th ->
  t_vmspace th' = t_vmspace th -> t_cwd th' = t_cwd th ->
  part (set_threads (<[t := th']> (threads s)) s) R S Zs.
Proof.
  intros [] Ht Es Em Ev Ew. split; try done; simpl.
  - intros t'. change (cur_list (set_threads _ s)) with (cur_list s).
    rewrite lookup_insert_is_Some, (pt_dom0 t'). destruct (decide (t = t')) as [<-|];
      [rewrite Ht|]; naive_solver.
  - intros t' th0. rewrite lookup_insert_Some. intros [[<- <-]|[_ ?]]; [|by eapply pt_magic0].
    rewrite Es, Em. by eapply pt_magic0.
  - intros t' th0 Hz. rewrite lookup_insert_Some. intros [[<- <-]|[_ ?]]; [|by eapply pt_zomb0].
    rewrite Ev, Ew. by eapply pt_zomb0.
  - intros E. destruct (pt_idle0 E) as [? Hs]. split; [done|]. rewrite lookup_insert_is_Some.
    destruct (decide (t = switching s)); auto.
Qed.

Lemma sleepaddr_blocks t x th : thread_blocks t (set_sleepaddr x th) = thread_blocks t th.
Proof. done. Qed.

Lemma thread_sleep_inv s B sl zs rq R S Zs addr :
  tinv_at s B sl zs rq R S Zs -> curthread s <> 0 -> curspl s > 0 -> in_interrupt s = 0 ->
  (max sl <= Z.of_nat (length S) /\ thread_sleep addr s = Panic) \/
  (exists s' th, thread_sleep addr s = Done true s' /\ curthread s' = 0 /\
     tinv s' R (S ++ [curthread s]) Zs /\ threads s !! curthread s = Some th /\
     switched_out s s'
       (set_pcb (mkpcb AfterSleep (pcb_ininterrupt (t_pcb th))) (set_sleepaddr addr th))).
Proof.
  intros [T P C] Hc Hspl Hint. destruct (cur_thread _ _ _ _ P Hc) as [th Hth].
  destruct (part_cur_lengths _ _ _ _ P Hc) as [Hn Hb].
  unfold thread_sleep. munfold. rewrite bool_decide_eq_true_2 by done.
  rewrite (upd_thread_eq s _ _ th Hth).
  set (s0 := set_threads (<[curthread s := set_sleepaddr addr th]> (threads s)) s).
  assert (Tu : tbl s0 B sl zs rq R S Zs) by (by eapply tbl_upd_thread).
  assert (P0 : part s0 R S Zs) by (by eapply part_upd_thread).
  pose proof (check_magic_cur s0 R S Zs P0 Hc) as Hm.
  assert (T0 : tbl (set_curthread 0 (set_switching (curthread s0) s0)) B sl zs rq R S Zs)
    by (by eapply tbl_same).
  destruct (add_sleeper_spec _ _ _ _ _ _ _ _ (curthread s) T0) as
    [(Hf & s1 & E)|(s1 & B1 & sl1 & E & SR & T1 & Hmx)]; [unfold MAXTHREADS, MAXGUYS in *; lia|..].
  - left. split; [done|]. by rewrite (mi_switch_out_fail S_SLEEP AfterSleep s0 ENOMEM s1).
  - right. assert (Hth1 : threads s1 !! curthread s0 = Some (set_sleepaddr addr th))
      by (rewrite (sr_threads _ _ SR); apply lookup_insert_eq).
    rewrite (mi_switch_out_eq S_SLEEP AfterSleep s0 s1 _ Hm Hspl Hc E Hth1).
    eexists _, th. split; [done|]. split; [apply (sr_cur _ _ SR)|]. split.
    + exists B1, sl1, zs, rq. split.
      * by eapply tbl_upd_thread.
      * eapply (part_stash s s0 s1 R S Zs _ _ _ th (set_sleepaddr addr th)); try done.
        -- apply perm_to_S.
        -- simpl. rewrite !length_app. simpl. lia.
        -- by left.
      * simpl. rewrite (sr_num _ _ SR). simpl. intros. specialize (C H0). lia.
    + split; [done|]. destruct SR; simpl in *. split_and!; simpl; try congruence.
      rewrite sr_threads0. apply insert_insert_eq.
Qed.

Lemma vmspace_blocks t th :
  t_vmspace th <> 0 ->
  thread_blocks t th ≡ₚ (t_vmspace th, sizeof_addrspace) :: thread_blocks t (set_vmspace 0 th).
Proof.
  intros Hv. unfold thread_blocks. simpl. rewrite (decide_False (P := t_vmspace th = 0)) by done.
  rewrite app_nil_r. symmetry. apply (Permutation_cons_append (_ :: _ :: _)).
Qed.

(** [thread_exit] up to [mi_switch]: the address space and the directory of the
    dying thread are gone. *)
Lemma tbl_drop_vmspace s B sl zs rq R S Zs t th :
  tbl s B sl zs rq R S Zs -> threads s !! t = Some th -> t_vmspace th <> 0 ->
  exists h', kfree (t_vmspace th) (heap s) = Done tt h' /\
    tbl (set_heap h' (set_threads (<[t := set_vmspace 0 th]> (threads s)) s))
      (delete (t_vmspace th) B) sl zs rq R S Zs.
Proof.
  intros [] Ht Hv. rewrite (threads_blocks_delete _ _ _ Ht) in tb_owns0.
  rewrite (vmspace_blocks t th Hv), <- app_comm_cons in tb_owns0.
  rewrite <- !Permutation_middle in tb_owns0.
  pose proof tb_owns0 as Ho. apply owns_cons in Ho as (HB & _).
  destruct (kfree_spec _ _ _ _ tb_heap0 HB) as (h' & E & R'). exists h'. split; [done|].
  split; try done. simpl threads. apply owns_free in tb_owns0.
  rewrite <- insert_delete_eq, threads_blocks_insert by apply lookup_delete_eq.
  done.
Qed.

Lemma drop_vmspace_run s B sl zs rq R S Zs t th :
  tbl s B sl zs rq R S Zs -> threads s !! t = Some th ->
  exists h' B',
    exit_vmspace t th s = Done tt (set_heap h' (set_threads (<[t := set_vmspace 0 th]> (threads s)) s)) /\
    tbl (set_heap h' (set_threads (<[t := set_vmspace 0 th]> (threads s)) s)) B' sl zs rq R S Zs.
Proof.
  intros T Ht. unfold exit_vmspace. case_decide as D.
  - destruct (tbl_drop_vmspace _ _ _ _ _ _ _ _ _ _ T Ht D) as (h' & E & T').
    eexists h', _. split; [|exact T']. munfold. rewrite (upd_thread_eq s t _ th Ht).
    unfold zoom. simpl. by rewrite E.
  - exists (heap s), B.
    assert (E : set_heap (heap s) (set_threads (<[t := set_vmspace 0 th]> (threads s)) s) = s).
    { replace (set_vmspace 0 th) with th by (destruct th; simpl in *; by subst).
      rewrite insert_id by done. by destruct s. }
    rewrite E. split; done.
Qed.

Lemma drop_cwd_run s B sl zs rq R S Zs t th :
  tbl s B sl zs rq R S Zs -> threads s !! t = Some th ->
  (t_cwd th <> 0 -> exists vn, VOP_DECREF (t_cwd th) (vnodes s) = Done tt vn) ->
  exists vn,
    exit_cwd t th s = Done tt (set_vnodes vn (set_threads (<[t := set_cwd 0 th]> (threads s)) s)) /\
    tbl (set_vnodes vn (set_threads (<[t := set_cwd 0 th]> (threads s)) s)) B sl zs rq R S Zs.
Proof.
  intros T Ht Hv. unfold exit_cwd. case_decide as D.
  - destruct (Hv D) as [vn E]. exists vn. munfold. unfold zoom. simpl. rewrite E.
    rewrite (upd_thread_eq _ t _ th) by done. split; [done|].
    by eapply tbl_upd_thread_vn.
  - exists (vnodes s).
    assert (E : set_vnodes (vnodes s) (set_threads (<[t := set_cwd 0 th]> (threads s)) s) = s).
    { replace (set_cwd 0 th) with th by (destruct th; simpl in *; by subst).
      rewrite insert_id by done. by destruct s. }
    rewrite E. split; done.
Qed.

Lemma thread_exit_inv s B sl zs rq R S Zs :
  tinv_at s B sl zs rq R S Zs -> curthread s <> 0 ->
  (forall th, threads s !! curthread s = Some th -> t_cwd th <> 0 ->
     exists vn, VOP_DECREF (t_cwd th) (vnodes s) = Done tt vn) ->
  (max zs <= Z.of_nat (length Zs) /\ thread_exit s = Panic) \/
  (exists s' th', thread_exit s = Done true s' /\ curthread s' = 0 /\
     tinv s' R S (Zs ++ [curthread s]) /\ threads s' = <[curthread s := th']> (threads s) /\
     in_interrupt s' = in_interrupt s /\ switching s' = curthread s).
Proof.
  intros [T P C] Hc Hv. destruct (cur_thread _ _ _ _ P Hc) as [th Hth].
  destruct (part_cur_lengths _ _ _ _ P Hc) as [Hn Hb]. specialize (Hv th Hth).
  pose proof (pt_magic _ _ _ _ P _ _ Hth) as Hmag.
  assert (Ts : tbl (set_curspl SPL_HIGH s) B sl zs rq R S Zs) by (by eapply tbl_same).
  destruct (drop_vmspace_run _ _ _ _ _ _ _ _ _ th Ts Hth) as (h1 & B1 & E1 & T1).
  destruct (drop_cwd_run _ _ _ _ _ _ _ _ (curthread s) (set_vmspace 0 th) T1) as (vn & E2 & T2);
    [apply lookup_insert_eq|done|].
  change (exit_cwd (curthread s) (set_vmspace 0 th)) with
    (exit_cwd (H := H) (curthread s) th) in E2.
  unfold thread_exit, splhigh, splx. munfold. rewrite (get_thread_eq s _ th Hth).
  rewrite assert_stack_ok by done. rewrite E1, E2. clear E1 E2. simpl numthreads.
  rewrite bool_decide_eq_true_2 by lia.
  set (s0 := set_numthreads (numthreads s - 1) _). set (th0 := set_cwd 0 (set_vmspace 0 th)) in *.
  assert (Ht0 : threads s0 = <[curthread s := th0]> (threads s)) by (simpl; by rewrite insert_insert_eq).
  assert (Hm : check_magic (curthread s0) s0 = Done tt s0).
  { unfold check_magic. case_decide; [|done]. munfold. rewrite (get_thread_eq _ _ th0).
    - by apply assert_stack_ok.
    - rewrite Ht0. apply lookup_insert_eq. }
  assert (T3 : tbl (set_curthread 0 (set_switching (curthread s0) s0)) B1 sl zs rq R S Zs)
    by (by eapply tbl_same).
  destruct (add_zombie_spec _ _ _ _ _ _ _ _ (curthread s) T3) as
    [(Hf & s1 & E)|(s1 & B4 & zs1 & E & SR & T4)]; [unfold MAXTHREADS, MAXGUYS in *; lia|..].
  - left. split; [done|]. by rewrite (mi_switch_out_fail S_ZOMB AtStart s0 ENOMEM s1).
  - right. assert (Hth1 : threads s1 !! curthread s0 = Some th0).
    { rewrite (sr_threads _ _ SR). change (threads s0 !! curthread s = Some th0).
      rewrite Ht0. apply lookup_insert_eq. }
    rewrite (mi_switch_out_eq S_ZOMB AtStart s0 s1 th0) by done.
    eexists _, _. split; [done|]. split; [apply (sr_cur _ _ SR)|].
    split; [|destruct SR; simpl in sr_threads0, sr_int0, sr_switching0; simpl;
      rewrite sr_threads0, sr_int0, sr_switching0, !insert_insert_eq; done].
    exists B4, sl, zs1, rq. split.
    + by eapply tbl_upd_thread.
    + eapply (part_stash s s0 s1 R S Zs _ _ _ th th0); try done.
      * apply perm_to_Z.
      * simpl. rewrite !length_app. simpl. lia.
      * right. by split_and!.
    + simpl. rewrite (sr_num _ _ SR). simpl. intros. lia.
Qed.

(** ** Disposing of threads *)

(** The blocks of the tables and of the threads. *)
Definition sys_blocks s : list (Z * Z) :=
  from_option array_blocks [] (sleepers s) ++ from_option array_blocks [] (zombies s) ++
  from_option queue_blocks [] (runqueue s) ++ threads_blocks (threads s).

(** The live blocks outside the thread system are the same in both states. *)
Definition spares s (B : gmap Z Z) s' (B' : gmap Z Z) : Prop :=
  same_spare B (sys_blocks s) B' (sys_blocks s').

Lemma sys_blocks_eq s B sl zs rq R S Zs :
  tbl s B sl zs rq R S Zs ->
  sys_blocks s = array_blocks sl ++ array_blocks zs ++ queue_blocks rq ++ threads_blocks (threads s).
Proof. intros []. unfold sys_blocks. by rewrite tb_sleepers0, tb_zombies0, tb_runqueue0. Qed.

(** The same blocks, with the threads changed in a way that keeps theirs. *)
Lemma spares_same s s' B sl zs rq R S Zs R' S' Zs' :
  tbl s B sl zs rq R S Zs -> tbl s' B sl zs rq R' S' Zs' ->
  threads_blocks (threads s) ≡ₚ threads_blocks (threads s') -> spares s B s' B.
Proof.
  intros T T' E. unfold spares. rewrite (sys_blocks_eq _ _ _ _ _ _ _ _ T), (sys_blocks_eq _ _ _ _ _ _ _ _ T').
  apply same_spare_perm. by rewrite E.
Qed.

Lemma perm_rev3 {A} (a b c : A) l : a :: b :: c :: l ≡ₚ c :: b :: a :: l.
Proof.
  etrans; [symmetry; apply (Permutation_middle [a; b])|]. simpl. constructor. apply perm_swap.
Qed.

Lemma free_block h B p n l :
  heap_rep h B -> owns B ((p, n) :: l) ->
  exists h', kfree p h = Done tt h' /\ heap_rep h' (delete p B) /\ owns (delete p B) l /\
    same_spare B ((p, n) :: l) (delete p B) l.
Proof.
  intros R O. apply owns_cons in O as O'. destruct O' as (HB & _).
  destruct (kfree_spec _ _ _ _ R HB) as (h' & E & R'). exists h'. split_and!; try done.
  - by eapply owns_free. - by apply spare_free.
Qed.

(** The blocks of a thread without an address space can be freed in order. *)
Lemma free_thread_blocks h B t th l :
  heap_rep h B -> owns B (thread_blocks t th ++ l) -> t_vmspace th = 0 ->
  exists h1 h2 h3 B3,
    (if decide (t_stack th <> 0) then kfree (t_stack th) else mret tt) h = Done tt h1 /\
    kfree (t_name th) h1 = Done tt h2 /\ kfree t h2 = Done tt h3 /\
    heap_rep h3 B3 /\ owns B3 l /\ same_spare B (thread_blocks t th ++ l) B3 l.
Proof.
  intros R O Hv. unfold thread_blocks in *. rewrite (decide_True (P := t_vmspace th = 0)) in * by done.
  rewrite app_nil_r in *. simpl in *.
  assert (S1 : exists h1 B1, (if decide (t_stack th <> 0) then kfree (t_stack th) else mret tt) h = Done tt h1 /\
    heap_rep h1 B1 /\ owns B1 ((t_name th, t_namelen th) :: (t, sizeof_thread) :: l) /\
    same_spare B ((t, sizeof_thread) :: (t_name th, t_namelen th) ::
      (if decide (t_stack th = 0) then [] else [(t_stack th, STACK_SIZE)]) ++ l)
      B1 ((t_name th, t_namelen th) :: (t, sizeof_thread) :: l)).
  { destruct (decide (t_stack th = 0)) as [D|D]; simpl in *.
    - rewrite decide_False by (by intros []). exists h, B. split_and!; try done.
      + by rewrite Permutation_swap. + apply same_spare_perm, Permutation_swap.
    - rewrite decide_True by done. rewrite perm_rev3 in O.
      apply owns_cons in O as O'. destruct O' as (HB & _).
      destruct (kfree_spec _ _ _ _ R HB) as (h1 & E & R1). exists h1, (delete (t_stack th) B).
      split_and!; try done; [by eapply owns_free|].
      eapply same_spare_trans; [apply same_spare_perm, perm_rev3|by apply spare_free]. }
  destruct S1 as (h1 & B1 & E1 & R1 & O1 & X1).
  destruct (free_block _ _ _ _ _ R1 O1) as (h2 & E2 & R2 & O2 & X2).
  destruct (free_block _ _ _ _ _ R2 O2) as (h3 & E3 & R3 & O3 & X3).
  eexists h1, h2, h3, _. split_and!; try done. by do 2 (eapply same_spare_trans; [done|]).
Qed.

(** [s'] differs from [s] in the heap, the tables and the thread structures. *)
Definition same_ctx s s' : Prop :=
  curthread s' = curthread s /\ switching s' = switching s /\ numthreads s' = numthreads s /\
  curspl s' = curspl s /\ in_interrupt s' = in_interrupt s /\ vnodes s' = vnodes s.

Lemma same_ctx_trans s1 s2 s3 : same_ctx s1 s2 -> same_ctx s2 s3 -> same_ctx s1 s3.
Proof. unfold same_ctx. intros (?&?&?&?&?&?) (?&?&?&?&?&?). split_and!; congruence. Qed.

Lemma owns_thread_first B L t th T :
  T !! t = Some th -> owns B (L ++ threads_blocks T) <-> owns B (thread_blocks t th ++ L ++ threads_blocks (delete t T)).
Proof.
  intros HT. rewrite (threads_blocks_delete _ _ _ HT).
  by rewrite (Permutation_app_swap_app L).
Qed.

Lemma owns_thread_insert B L t th T :
  T !! t = None ->
  owns B (L ++ threads_blocks (<[t := th]> T)) <-> owns B (thread_blocks t th ++ L ++ threads_blocks T).
Proof.
  intros HT. rewrite (threads_blocks_insert _ _ _ HT). by rewrite (Permutation_app_swap_app L).
Qed.

Lemma tables_assoc {A} (a b c d : list A) : a ++ b ++ c ++ d = (a ++ b ++ c) ++ d.
Proof. by rewrite <- !app_assoc. Qed.

Lemma thread_destroy_spec s B sl zs rq R S Zs t th :
  tbl s B sl zs rq R S Zs -> threads s !! t = Some th -> t <> curthread s ->
  t_vmspace th = 0 -> t_cwd th = 0 ->
  exists s' B', thread_destroy t s = Done tt s' /\ same_ctx s s' /\
    threads s' = delete t (threads s) /\ tbl s' B' sl zs rq R S Zs.
Proof.
  intros [] Ht Hc Hv Hw. pose proof tb_owns0 as O.
  rewrite tables_assoc, (owns_thread_first _ _ t th _ Ht) in O.
  destruct (free_thread_blocks _ _ _ _ _ tb_heap0 O Hv) as (h1 & h2 & h3 & B3 & E1 & E2 & E3 & R3 & O3 & X3).
  unfold thread_destroy. munfold. rewrite bool_decide_eq_true_2 by done.
  rewrite (get_thread_eq s t th Ht), !bool_decide_eq_true_2 by done.
  replace ((if decide (t_stack th <> 0) then zoom theapL (kfree (t_stack th)) else (fun s => Done tt s)) s)
    with (Done (S := tsys H V) tt (set_heap h1 s)).
  2:{ case_decide; munfold; [unfold zoom; simpl; by rewrite E1|]. injection E1 as <-. by destruct s. }
  unfold zoom. simpl. rewrite E2. simpl. rewrite E3. simpl.
  eexists _, B3. split; [done|]. split; [done|]. split; [done|].
  split; try done. simpl threads. by rewrite tables_assoc.
Qed.

Lemma exorcise_loop_spec zs Zs n i s B sl rq R S :
  tbl s B sl zs rq R S Zs -> length Zs = (i + n)%nat -> NoDup Zs ->
  (forall t, t ∈ drop i Zs -> t <> curthread s /\
     exists th, threads s !! t = Some th /\ t_vmspace th = 0 /\ t_cwd th = 0) ->
  exists s' B', exorcise_loop n (Z.of_nat i) s = Done tt s' /\ same_ctx s s' /\
    tbl s' B' sl zs rq R S Zs /\
    forall t, threads s' !! t = if decide (t ∈ drop i Zs) then None else threads s !! t.
Proof.
  revert i s B. induction n as [|n IH]; intros i s B T Hl N Hz.
  { exists s, B. split; [done|]. split; [done|]. split; [done|]. intros t.
    rewrite drop_ge by lia. rewrite decide_False; [done|]. rewrite elem_of_nil. tauto. }
  destruct (lookup_lt_is_Some_2 Zs i) as [t Ht]; [lia|].
  rewrite (drop_S _ _ _ Ht) in Hz. destruct (Hz t ltac:(left)) as (Hc & th & Hth & Hv & Hw).
  cbn [exorcise_loop]. munfold. rewrite (getguy_zombie _ _ _ _ _ _ _ _ _ t T);
    [|lia|by rewrite Nat2Z.id]. rewrite bool_decide_eq_true_2 by done.
  destruct (thread_destroy_spec _ _ _ _ _ _ _ _ t th T Hth Hc Hv Hw) as (s1 & B1 & E1 & C1 & Et & T1).
  rewrite E1. replace (Z.of_nat i + 1) with (Z.of_nat (Datatypes.S i)) by lia.
  assert (Hni : t ∉ drop (Datatypes.S i) Zs).
  { rewrite <- (take_drop i Zs) in N. rewrite (drop_S _ _ _ Ht) in N.
    apply NoDup_app in N as (_ & _ & N). by apply NoDup_cons in N as [? _]. }
  destruct (IH (Datatypes.S i) s1 B1 T1) as (s2 & B2 & E2 & C2 & T2 & D2); [lia|done|..].
  { intros t' Ht'. destruct (Hz t' ltac:(by right)) as (Hc' & th' & ? & ? & ?).
    split; [by rewrite (proj1 C1)|]. exists th'. rewrite Et, lookup_delete_ne by (intros ->; done). done. }
  exists s2, B2. split; [done|]. split; [by eapply same_ctx_trans|]. split; [done|].
  intros t'. rewrite D2, Et, (drop_S _ _ _ Ht). destruct (decide (t' = t)) as [->|].
  - rewrite (decide_True (P := t ∈ t :: _)) by left. by rewrite decide_False, lookup_delete_eq.
  - rewrite lookup_delete_ne by done. destruct (decide (t' ∈ drop (Datatypes.S i) Zs)).
    + rewrite decide_True by (by right). done.
    + rewrite decide_False; [done|]. by rewrite elem_of_cons; intros [|].
Qed.

Lemma part_exorcise s s' R S Zs :
  part s R S Zs -> curthread s <> 0 -> curthread s' = curthread s -> numthreads s' = numthreads s ->
  (forall t, threads s' !! t = if decide (t ∈ Zs) then None else threads s !! t) ->
  part s' R S [].
Proof.
  intros [Pn Pd Pm Pz Pk Pb Pi] Hc Ec En Et.
  assert (El : cur_list s' = cur_list s) by (unfold cur_list; by rewrite Ec).
  assert (Hsub : forall t th, threads s' !! t = Some th -> threads s !! t = Some th).
  { intros t th. rewrite Et. by case_decide. }
  split; rewrite ?El, ?En, ?app_nil_r.
  - rewrite !app_assoc in Pn. apply NoDup_app in Pn as [Pn _]. by rewrite app_assoc.
  - intros t. specialize (Pd t). rewrite Et.
    assert (Hd : t ∈ Zs -> t ∉ cur_list s ++ R ++ S).
    { intros Hz Hin. rewrite !app_assoc in Pn. apply NoDup_app in Pn as (_ & Pn & _).
      apply (Pn t); [by rewrite <- !app_assoc|done]. }
    case_decide as D; [|set_solver]. split; [|by intros []]. intros Hin. by destruct (Hd D).
  - eauto.
  - intros t th Ht. by apply elem_of_nil in Ht.
  - done.
  - rewrite !length_app in *. lia.
  - intros. congruence.
Qed.

(** [exorcise] destroys the zombies and nothing else. *)
Lemma exorcise_inv s B sl zs rq R S Zs :
  tinv_at s B sl zs rq R S Zs -> curthread s <> 0 -> curspl s > 0 ->
  exists s' B' zs', exorcise s = Done tt s' /\ same_ctx s s' /\ tinv_at s' B' sl zs' rq R S [] /\
    forall t, t ∉ Zs -> threads s' !! t = threads s !! t.
Proof.
  intros [T P C] Hc Hspl. pose proof P as [Pn Pd Pm Pz Pk Pb Pi].
  unfold cur_list in *. rewrite decide_False in * by done.
  destruct (exorcise_loop_spec zs Zs (length Zs) 0 s B sl rq R S T) as (s1 & B1 & E1 & C1 & T1 & D1);
    [done|by do 3 apply NoDup_app in Pn as (_ & _ & Pn)|..].
  { intros t Ht. rewrite drop_0 in Ht. split.
    - intros ->. apply NoDup_app in Pn as (_ & Pn & _). apply (Pn (curthread s)); set_solver.
    - destruct (Pd t) as [[th Hth] _]; [set_solver|]. exists th. split; [done|]. by eapply Pz. }
  destruct T1.
  destruct (array_setsize_spec (heap s1) B1 zs 0) as
    [(h' & Hlt & _)|(h' & B' & zs' & E & R' & Ev & Hn & _)];
    [done|done|eapply owns_array; [done|by apply owns_zs_first]|unfold MAXGUYS; lia|..].
  { pose proof (wf_num zs tb_wf_zs0). lia. }
  exists (set_zombies (Some zs') (set_heap h' s1)), B', zs'.
  destruct C1 as (Cc & Cs & Cn & Cp & Ci & Cv). split.
  { unfold exorcise, assert_spl. munfold. rewrite bool_decide_eq_true_2 by lia.
    rewrite (getnum_zombies _ _ _ _ _ _ _ _ T), Nat2Z.id. change 0 with (Z.of_nat 0). rewrite E1.
    unfold on_zombies, on_array. rewrite tb_zombies0. change (Z.of_nat 0) with 0. by rewrite E. }
  split; [done|]. rewrite drop_0 in D1.
  split; [|intros t Ht; simpl; by rewrite D1, decide_False].
  split; simpl.
  - split; try done; [apply Ev| |].
    + assert (HL : length (contents zs') = 0%nat).
      { rewrite contents_length by apply Ev. by rewrite Hn. }
      by apply nil_length_inv in HL as ->.
    + apply owns_zs_first. apply owns_zs_first in tb_owns0. by eapply (owns_array_step (heap s1) B1).
  - apply (part_exorcise s _ R S Zs P Hc); try done.
  - rewrite Cn. done.
Qed.

(** ** Switching in *)

Lemma part_pop s R S Zs t :
  part s (t :: R) S Zs -> curthread s = 0 -> t <> 0 -> part (set_curthread t s) R S Zs.
Proof.
  intros [Pn Pd Pm Pz Pk Pb Pi] Hc Ht.
  assert (El : cur_list s = []) by (unfold cur_list; by rewrite decide_True).
  assert (El' : cur_list (set_curthread t s) = [t]) by (unfold cur_list; simpl; by rewrite decide_False).
  rewrite El in *. split; rewrite ?El'; try done.
Qed.

Lemma part_same s s' R S Zs :
  part s R S Zs -> threads s' = threads s -> curthread s' = curthread s ->
  numthreads s' = numthreads s -> (curthread s = 0 -> curspl s' > 0 /\ switching s' = switching s) ->
  part s' R S Zs.
Proof.
  intros [Pn Pd Pm Pz Pk Pb Pi] Et Ec En Hi.
  assert (El : cur_list s' = cur_list s) by (unfold cur_list; by rewrite Ec).
  split; rewrite ?El, ?Et, ?En; try done. rewrite Ec. intros E. destruct (Hi E) as [? ->].
  split; [done|]. by apply Pi.
Qed.

(** The interrupt flag changes hands in a switch. *)
Definition switched_in s s' (old nu : Z) : Prop :=
  (forall th, threads s !! nu = Some th ->
     in_interrupt s' = if decide (old = nu) then in_interrupt s else pcb_ininterrupt (t_pcb th)) /\
  forall t th, threads s !! t = Some th -> exists th', threads s' !! t = Some th' /\
    pcb_resume (t_pcb th') = pcb_resume (t_pcb th) /\ t_sleepaddr th' = t_sleepaddr th /\
    pcb_ininterrupt (t_pcb th') =
      if decide (t = old /\ old <> nu) then in_interrupt s else pcb_ininterrupt (t_pcb th).

Lemma md_switch_inv s B sl zs rq R S Zs old nu :
  tinv_at s B sl zs rq R S Zs -> is_Some (threads s !! old) -> is_Some (threads s !! nu) ->
  curthread s <> 0 ->
  exists s', md_switch old nu s = Done tt s' /\ tinv_at s' B sl zs rq R S Zs /\
    curthread s' = curthread s /\ curspl s' = curspl s /\ numthreads s' = numthreads s /\ switched_in s s' old nu.
Proof.
  intros [T P C] [tho Ho] [thn Hnu] Hc. unfold md_switch. case_decide as D.
  { exists s. split; [done|]. split; [done|]. split; [done|]. split; [done|]. split; [done|]. split.
    - intros. by rewrite decide_True.
    - intros t th Ht. exists th. rewrite decide_False by naive_solver. done. }
  munfold. rewrite (upd_thread_eq s old _ tho Ho).
  rewrite (get_thread_eq _ nu thn) by (simpl; by rewrite lookup_insert_ne).
  eexists. split; [done|]. split; [|split; [done|split; [done|split; [done|]]]].
  - set (s1 := set_threads _ s). split; [| |done].
    + apply (tbl_same s1); try done. by eapply tbl_upd_thread.
    + apply (part_same s1); try done. by eapply part_upd_thread.
  - split; simpl; [intros th Hth; rewrite decide_False by done; congruence|].
    intros t th Ht. destruct (decide (t = old)) as [->|].
    + rewrite lookup_insert_eq, decide_True by done. eexists. split; [done|]. by simplify_eq.
    + rewrite lookup_insert_ne, decide_False by naive_solver. eauto.
Qed.

Lemma mi_switch_in_inv s B sl zs rq R S Zs t :
  tinv_at s B sl zs rq (t :: R) S Zs -> curthread s = 0 ->
  exists s' th, mi_switch_in s = Done true s' /\ curthread s' = t /\ threads s !! t = Some th /\
    tinv s' R S (match pcb_resume (t_pcb th) with AtStart => Zs | _ => [] end) /\
    match pcb_resume (t_pcb th) with
    | AtStart => curspl s' = 0
    | AfterYield spl => curspl s' = spl
    | AfterSleep => curspl s' = curspl s
    end /\
    sleepers s' = Some sl /\ numthreads s' = numthreads s /\
    in_interrupt s' = (if decide (switching s = t) then in_interrupt s else pcb_ininterrupt (t_pcb th)) /\
    forall t' th', threads s !! t' = Some th' -> t' ∉ Zs -> exists th'', threads s' !! t' = Some th'' /\
      pcb_resume (t_pcb th'') = pcb_resume (t_pcb th') /\
      (t' <> t -> t_sleepaddr th'' = t_sleepaddr th') /\
      pcb_ininterrupt (t_pcb th'') =
        if decide (t' = switching s /\ switching s <> t) then in_interrupt s else pcb_ininterrupt (t_pcb th').
Proof.
  intros [T P C] Hc. destruct (pt_idle _ _ _ _ P Hc) as [Hspl Hsw].
  destruct (pop_spec _ _ _ _ _ _ _ _ _ T Hspl) as (s1 & rq1 & E1 & SR & _ & T1 & Hsz).
  assert (Ht : is_Some (threads s !! t)).
  { apply (pt_dom _ _ _ _ P). unfold cur_list. rewrite decide_True by done. left. }
  destruct Ht as [th Ht]. assert (Hnz : t <> 0) by exact (threads_nonzero _ _ _ _ _ _ _ _ _ _ T Ht).
  assert (P1 : part (set_curthread t s1) R S Zs).
  { apply (part_same (set_curthread t s)); simpl; try apply SR; [by apply part_pop|done|done]. }
  assert (I1 : tinv_at (set_curthread t s1) B sl zs rq1 R S Zs).
  { split; [by eapply tbl_same|done|]. simpl. by rewrite (sr_num _ _ SR). }
  destruct (md_switch_inv _ _ _ _ _ _ _ _ (switching s1) t I1) as (s2 & E2 & I2 & Ec2 & Es2 & En2 & Hi2 & Hth2).
  { simpl. by rewrite (sr_threads _ _ SR), (sr_switching _ _ SR). }
  { simpl. rewrite (sr_threads _ _ SR). eauto. } { done. }
  simpl in Ec2, Es2, En2, Hi2, Hth2. destruct SR as [S1 S2 S3 S4 S5 S6 S7].
  rewrite S1, S3, S6 in *. rewrite S5 in Es2. rewrite S4 in En2. specialize (Hi2 th Ht).
  destruct (Hth2 t th Ht) as (th2 & Ht2 & Er & _).
  unfold mi_switch_in. munfold. rewrite E1. simpl switching.
  rewrite S3, E2, (get_thread_eq s2 t th2 Ht2), Er.
  destruct (pcb_resume (t_pcb th)) as [|spl|] eqn:Ep; unfold resume_thread, spl0, splx; munfold.
  - exists (set_curspl 0 s2), th. split; [done|]. split; [done|]. split; [done|].
    rewrite Ep. split; [|split; [done|split; [apply I2|split; [simpl; congruence|split; [done|]]]]].
    + exists B, sl, zs, rq1. destruct I2 as [T2 P2 C2].
      split; [by eapply tbl_same| |done]. apply (part_same s2); try done. by rewrite Ec2.
    + intros t' th' Ht' _. destruct (Hth2 t' th' Ht') as (th'' & ? & ? & ? & ?). by exists th''.
  - destruct (exorcise_inv _ _ _ _ _ _ _ _ I2)
      as (s3 & B3 & zs3 & E3 & (C1 & _ & Cn & _ & C5 & _) & [T3 P3 C3] & Hk); [by rewrite Ec2|lia|].
    rewrite E3. exists (set_curspl spl s3), th. split; [done|]. split; [simpl; congruence|].
    split; [done|]. rewrite Ep.
    split; [|split; [done|split; [apply T3|split; [simpl; congruence|split; [simpl; congruence|]]]]].
    + exists B3, sl, zs3, rq1.
      split; [by eapply tbl_same| |done]. apply (part_same s3); try done. rewrite C1, Ec2. done.
    + intros t' th' Ht' Hz. destruct (Hth2 t' th' Ht') as (th'' & ? & ? & ? & ?). exists th''.
      simpl. by rewrite Hk.
  - destruct (exorcise_inv _ _ _ _ _ _ _ _ I2)
      as (s3 & B3 & zs3 & E3 & (C1 & _ & Cn & C4 & C5 & _) & [T3 P3 C3] & Hk); [by rewrite Ec2|lia|].
    assert (Hct : curthread s3 = t) by congruence.
    assert (Ht3 : exists th3, threads s3 !! t = Some th3).
    { rewrite <- Hct. by eapply cur_thread; [|rewrite Hct]. }
    destruct Ht3 as [th3 Ht3]. rewrite E3, Hct, (upd_thread_eq s3 t _ th3 Ht3).
    eexists _, th. split; [done|]. split; [done|]. split; [done|]. rewrite Ep.
    split; [|split; [simpl; congruence|split; [apply T3|split; [simpl; congruence|split; [simpl; congruence|]]]]].
    + exists B3, sl, zs3, rq1. split; [by eapply tbl_upd_thread|by eapply part_upd_thread|done].
    + intros t' th' Ht' Hz. destruct (Hth2 t' th' Ht') as (th'' & Hx & ? & ? & ?).
      rewrite <- Hk in Hx by done. simpl. destruct (decide (t' = t)) as [->|Hne].
      * rewrite lookup_insert_eq. eexists. split; [done|]. by simplify_eq.
      * rewrite lookup_insert_ne by done. by exists th''.
Qed.

Lemma thread_wakeup_inv s B sl zs rq R S Zs addr :
  tinv_at s B sl zs rq R S Zs -> curspl s > 0 ->
  (size rq <= Z.of_nat (length R + length (on_addr s addr S)) /\ thread_wakeup addr s = Panic) \/
  (exists s', thread_wakeup addr s = Done tt s' /\ same_rest s s' /\
     tinv s' (R ++ on_addr s addr S) (off_addr s addr S) Zs /\
     (Z.of_nat (length R + length (on_addr s addr S)) < size rq ->
        exists rq', runqueue s' = Some rq' /\ size rq' = size rq)).
Proof.
  intros [T P C] Hspl. pose proof P as [Pn Pd Pm Pz Pk Pb Pi].
  destruct (wakeup_loop_spec addr zs Zs S s B sl rq R [] (length S) T Hspl) as
    [(Hf & E)|(s' & B' & sl' & rq' & E & SR & Hm & Hq & T')].
  { intros t Ht. apply Pd. set_solver. } { done. } { rewrite !length_app in Pb. lia. }
  - left. split; [done|]. unfold thread_wakeup, assert_spl. munfold.
    rewrite bool_decide_eq_true_2 by lia. by rewrite (getnum_sleepers _ _ _ _ _ _ _ _ T), Nat2Z.id.
  - right. exists s'. split.
    { unfold thread_wakeup, assert_spl. munfold.
      rewrite bool_decide_eq_true_2 by lia. by rewrite (getnum_sleepers _ _ _ _ _ _ _ _ T), Nat2Z.id. }
    split; [done|]. split; [|intros; exists rq'; split; [apply T'|auto]]. exists B', sl', zs, rq'.
    assert (HP : on_addr s addr S ++ off_addr s addr S ≡ₚ S) by apply filter_app_complement.
    assert (El : cur_list s' = cur_list s) by (unfold cur_list; by rewrite (sr_cur _ _ SR)).
    assert (HA : (R ++ on_addr s addr S) ++ off_addr s addr S ++ Zs ≡ₚ R ++ S ++ Zs).
    { rewrite <- app_assoc, (app_assoc (on_addr _ _ _)), HP. done. }
    split; [done| |rewrite (sr_num _ _ SR), Hm; done].
    split; rewrite ?El, ?(sr_threads _ _ SR), ?(sr_num _ _ SR), ?(sr_cur _ _ SR), ?(sr_spl _ _ SR),
      ?(sr_switching _ _ SR); try done.
    + by rewrite HA.
    + intros t. rewrite HA. apply Pd.
    + rewrite Pk. rewrite <- app_assoc, HP. done.
    + by rewrite HA.
Qed.

Lemma hassleepers_loop_spec s B sl zs rq R S Zs addr n i :
  tbl s B sl zs rq R S Zs -> (forall t, t ∈ S -> is_Some (threads s !! t)) ->
  (i + n = length S)%nat ->
  hassleepers_loop n (Z.of_nat i) addr s =
    Done (if decide (on_addr s addr (drop i S) = []) then 0 else 1) s.
Proof.
  intros T Hth. revert i. induction n as [|n IH]; intros i Hn.
  { simpl. rewrite drop_ge by lia. done. }
  destruct (lookup_lt_is_Some_2 S i) as [t Ht]; [lia|].
  destruct (Hth t) as [th Hth']; [by eapply list_elem_of_lookup_2|].
  cbn [hassleepers_loop]. munfold. rewrite (getguy_sleeper _ _ _ _ _ _ _ _ _ t T);
    [|lia|by rewrite Nat2Z.id]. rewrite (get_thread_eq s t th Hth').
  rewrite (drop_S _ _ _ Ht). unfold on_addr. rewrite filter_cons, Hth'. simpl.
  destruct (decide (t_sleepaddr th = addr)) as [Ea|Ea].
  - rewrite (decide_True (P := Some (t_sleepaddr th) = Some addr)) by congruence. done.
  - rewrite (decide_False (P := Some (t_sleepaddr th) = Some addr)) by congruence.
    replace (Z.of_nat i + 1) with (Z.of_nat (Datatypes.S i)) by lia. apply IH. lia.
Qed.

(** ** Fork *)

Lemma spare_zs_first B B' sl zs zs' rq T :
  same_spare B (array_blocks zs ++ sl ++ rq ++ T) B' (array_blocks zs' ++ sl ++ rq ++ T) ->
  same_spare B (sl ++ array_blocks zs ++ rq ++ T) B' (sl ++ array_blocks zs' ++ rq ++ T).
Proof. intros E p n. specialize (E p n). rewrite !fmap_app, !not_elem_of_app in *. tauto. Qed.

Lemma spare_rq_first B B' sl zs rq rq' T :
  same_spare B (queue_blocks rq ++ sl ++ zs ++ T) B' (queue_blocks rq' ++ sl ++ zs ++ T) ->
  same_spare B (sl ++ zs ++ queue_blocks rq ++ T) B' (sl ++ zs ++ queue_blocks rq' ++ T).
Proof. intros E p n. specialize (E p n). rewrite !fmap_app, !not_elem_of_app in *. tauto. Qed.

Lemma prealloc_sleepers s B sl zs rq R S Zs n :
  tbl s B sl zs rq R S Zs -> n <= MAXGUYS ->
  (exists s', on_sleepers (array_preallocate n) s = Fail ENOMEM s' /\ same_rest s s' /\
     tbl s' B sl zs rq R S Zs) \/
  (exists s' B' sl', on_sleepers (array_preallocate n) s = Done tt s' /\ same_rest s s' /\
     tbl s' B' sl' zs rq R S Zs /\ n <= max sl' /\ max sl <= max sl' /\ spares s B s' B').
Proof.
  intros [] Hn. unfold on_sleepers, on_array. rewrite tb_sleepers0.
  destruct (array_preallocate_spec (heap s) B sl n) as
    [(h' & E & R')|(h' & B' & sl' & E & R' & Ev & Hc & _ & Hm & Hm')];
    [done|done|by eapply owns_array|done|..]; rewrite E.
  - left. eexists. split; [done|]. split; [by split|]. by split.
  - right. eexists _, B', sl'. split; [done|]. split; [by split|].
    split; [|split_and!; try done; unfold spares, sys_blocks; simpl; rewrite tb_sleepers0; by eapply spare_array].
    split; try done; [apply Ev|congruence|]. by eapply (owns_array_step (heap s) B).
Qed.

Lemma prealloc_zombies s B sl zs rq R S Zs n :
  tbl s B sl zs rq R S Zs -> n <= MAXGUYS ->
  (exists s', on_zombies (array_preallocate n) s = Fail ENOMEM s' /\ same_rest s s' /\
     tbl s' B sl zs rq R S Zs) \/
  (exists s' B' zs', on_zombies (array_preallocate n) s = Done tt s' /\ same_rest s s' /\
     tbl s' B' sl zs' rq R S Zs /\ n <= max zs' /\ spares s B s' B').
Proof.
  intros [] Hn. pose proof tb_owns0 as O. rewrite owns_zs_first in O.
  unfold on_zombies, on_array. rewrite tb_zombies0.
  destruct (array_preallocate_spec (heap s) B zs n) as
    [(h' & E & R')|(h' & B' & zs' & E & R' & Ev & Hc & _ & Hm & Hm')];
    [done|done|by eapply owns_array|done|..]; rewrite E.
  - left. eexists. split; [done|]. split; [by split|]. by split.
  - right. eexists _, B', zs'. split; [done|]. split; [by split|].
    split; [|split; [done|unfold spares, sys_blocks; simpl; rewrite tb_zombies0; by eapply spare_zs_first, spare_array]].
    split; try done; [apply Ev|congruence|]. apply owns_zs_first.
    by eapply (owns_array_step (heap s) B).
Qed.

Lemma prealloc_runqueue s B sl zs rq R S Zs n :
  tbl s B sl zs rq R S Zs -> curspl s > 0 -> n <= MAXTHREADS + 1 ->
  (exists s', scheduler_preallocate n s = Fail ENOMEM s' /\ same_rest s s' /\
     tbl s' B sl zs rq R S Zs) \/
  (exists s' B' rq', scheduler_preallocate n s = Done tt s' /\ same_rest s s' /\
     tbl s' B' sl zs rq' R S Zs /\ n <= size rq' /\ spares s B s' B').
Proof.
  intros [] Hspl Hn. pose proof tb_owns0 as O. rewrite owns_rq_first in O.
  unfold scheduler_preallocate, assert_spl, on_runqueue. munfold.
  rewrite bool_decide_eq_true_2 by lia. rewrite tb_runqueue0.
  destruct (q_preallocate_spec (heap s) B rq n) as
    [(h' & E & R')|(h' & B' & rq' & E & R' & Ev & Hc & Hm & Hm')];
    [done|done|by eapply owns_queue|unfold MAXTHREADS, MAXQ in *; lia|..]; rewrite E.
  - left. eexists. split; [done|]. split; [by split|]. by split.
  - right. eexists _, B', rq'. split; [done|]. split; [by split|].
    split; [|split; [done|unfold spares, sys_blocks; simpl; rewrite tb_runqueue0; by apply spare_rq_first, spare_queue]].
    split; try done; [apply Ev|congruence|unfold MAXRQ, MAXTHREADS in *; lia|].
    apply owns_rq_first. by eapply owns_queue_step.
Qed.

Lemma thread_create_spec s B sl zs rq R S Zs len :
  tbl s B sl zs rq R S Zs -> 0 <= len < 2 ^ 30 ->
  (exists s', thread_create len s = Done None s' /\ same_rest s s' /\ tbl s' B sl zs rq R S Zs) \/
  (exists t nm s' B', thread_create len s = Done (Some t) s' /\ same_ctx s s' /\
     threads s !! t = None /\ t <> 0 /\
     threads s' = <[t := mkthread (mkpcb AtStart 0) nm (len + 1) 0 0 [] 0 0]> (threads s) /\
     tbl s' B' sl zs rq R S Zs /\ spares s B s' B').
Proof.
  intros T Hlen. pose proof T as []. unfold thread_create, kstrdup. munfold. unfold zoom. simpl lget.
  destruct (kmalloc_spec (heap s) B sizeof_thread tb_heap0) as [(h1 & E1 & R1)|(t & h1 & E1 & Ht & Bt & R1)];
    [unfold sizeof_thread, KMALLOC_MAX; lia|..]; rewrite E1.
  { left. eexists. split; [done|]. split; [by split|]. by split. }
  rewrite decide_False by done. simpl lget. rewrite u32_small by lia. simpl heap.
  destruct (kmalloc_spec h1 _ (len + 1) R1) as [(h2 & E2 & R2)|(nm & h2 & E2 & Hn & Bn & R2)];
    [unfold KMALLOC_MAX; lia|..]; rewrite E2; simpl.
  - destruct (kfree_spec h2 _ t sizeof_thread R2) as (h3 & E3 & R3); [apply lookup_insert_eq|].
    rewrite E3. left. eexists. split; [done|]. split; [by split|].
    rewrite delete_insert_id in R3 by done. by split.
  - rewrite decide_False by done. right. eexists t, nm, _, _. split; [done|]. split; [done|].
    assert (HT : threads s !! t = None).
    { destruct (threads s !! t) as [th|] eqn:E; [|done]. do 3 apply owns_app_r in tb_owns0.
      rewrite (threads_blocks_delete _ _ _ E) in tb_owns0. unfold thread_blocks in tb_owns0.
      simpl in tb_owns0. apply owns_cons in tb_owns0 as (HB & _). congruence. }
    split; [done|]. split; [done|]. split; [done|].
    assert (Eb : thread_blocks t (mkthread (mkpcb AtStart 0) nm (len + 1) 0 0 [] 0 0) =
      [(t, sizeof_thread); (nm, len + 1)]) by done.
    split; [split; try done; simpl threads|].
    + rewrite tables_assoc, owns_thread_insert, Eb by done. rewrite tables_assoc in tb_owns0. simpl app at 1.
      rewrite perm_swap. apply owns_alloc; [done|]. by apply owns_alloc.
    + eapply same_spare_trans; [by apply (spare_alloc B t sizeof_thread)|].
      eapply same_spare_trans; [by apply (spare_alloc _ nm (len + 1))|]. apply same_spare_perm.
      unfold sys_blocks. simpl threads. rewrite !app_assoc, threads_blocks_insert, Eb by done.
      rewrite (Permutation_app_swap_app (_ ++ _)). apply perm_swap.
Qed.

Lemma fork_reserve_spec s B sl zs rq R S Zs t n :
  tbl s B sl zs rq R S Zs -> curspl s > 0 -> numthreads s = n -> 0 <= n < MAXTHREADS ->
  Z.of_nat (length R) < MAXTHREADS ->
  (exists s' B' sl' zs' rq', fork_reserve t s = Fail ENOMEM s' /\ same_rest s s' /\
     tbl s' B' sl' zs' rq' R S Zs /\ max sl <= max sl' /\ spares s B s' B') \/
  (exists s' B' sl' zs' rq', fork_reserve t s = Done tt s' /\ same_rest s s' /\
     tbl s' B' sl' zs' rq' (R ++ [t]) S Zs /\ n + 1 <= max sl').
Proof.
  intros T Hspl En Hn HR. unfold fork_reserve. munfold. rewrite En, s32_small by (unfold MAXTHREADS in *; lia).
  destruct (prealloc_sleepers _ _ _ _ _ _ _ _ (n + 1) T) as
    [(s1 & E1 & SR1 & T1)|(s1 & B1 & sl1 & E1 & SR1 & T1 & M1 & M1' & X1)];
    [unfold MAXTHREADS, MAXGUYS in *; lia|..]; rewrite E1.
  { left. exists s1, B, sl, zs, rq. split_and!; try done. eapply spares_same; [done..|]. by rewrite (sr_threads _ _ SR1). }
  destruct (prealloc_zombies _ _ _ _ _ _ _ _ (n + 1) T1) as
    [(s2 & E2 & SR2 & T2)|(s2 & B2 & zs2 & E2 & SR2 & T2 & M2 & X2)];
    [unfold MAXTHREADS, MAXGUYS in *; lia|..]; rewrite E2.
  { left. exists s2, B1, sl1, zs, rq. split_and!; try done; [by etrans|].
    eapply same_spare_trans; [done|]. eapply spares_same; [done..|]. by rewrite (sr_threads _ _ SR2). }
  assert (SR12 : same_rest s s2) by (by etrans).
  destruct (prealloc_runqueue _ _ _ _ _ _ _ _ (n + 1) T2) as
    [(s3 & E3 & SR3 & T3)|(s3 & B3 & rq3 & E3 & SR3 & T3 & M3 & X3)];
    [rewrite (sr_spl _ _ SR12); lia|lia|..]; rewrite E3.
  { left. exists s3, B2, sl1, zs2, rq. split_and!; try done; [by etrans|].
    eapply same_spare_trans; [exact X1|]. eapply same_spare_trans; [exact X2|].
    eapply spares_same; [done..|]. by rewrite (sr_threads _ _ SR3). }
  assert (SR13 : same_rest s s3) by (by etrans).
  destruct (make_runnable_spec _ _ _ _ _ _ _ _ t T3) as
    [(_ & s4 & E4 & SR4 & T4)|(s4 & B4 & rq4 & E4 & SR4 & T4 & _)];
    [rewrite (sr_spl _ _ SR13); lia|lia|..]; rewrite E4.
  - left. exists s4, B3, sl1, zs2, rq3. split_and!; try done; [by etrans|].
    eapply same_spare_trans; [exact X1|]. eapply same_spare_trans; [exact X2|].
    eapply same_spare_trans; [exact X3|]. eapply spares_same; [done..|]. by rewrite (sr_threads _ _ SR4).
  - right. exists s4, B4, sl1, zs2, rq4. split_and!; try done. by etrans.
Qed.

Lemma fork_setup_spec s B sl zs rq R S Zs t th c me :
  tbl s B sl zs rq R S Zs -> threads s !! t = Some th -> c = curthread s -> t <> c ->
  threads s !! c = Some me ->
  (t_cwd me <> 0 -> exists vn, VOP_INCREF (t_cwd me) (vnodes s) = Done tt vn) -> t_cwd th = 0 ->
  exists vn th', fork_setup t s = Done tt (set_vnodes vn (set_threads (<[t := th']> (threads s)) s)) /\
    tbl (set_vnodes vn (set_threads (<[t := th']> (threads s)) s)) B sl zs rq R S Zs /\
    t_stack th' = t_stack th /\ t_magic th' = stack_magic /\ t_vmspace th' = t_vmspace th /\
    t_cwd th' = t_cwd me /\ t_pcb th' = mkpcb AtStart 0 /\
    thread_blocks t th' = thread_blocks t th /\ (t_cwd me = 0 -> vn = vnodes s) /\
    (t_cwd me <> 0 -> VOP_INCREF (t_cwd me) (vnodes s) = Done tt vn).
Proof.
  intros T Ht -> Hne Hme Hinc Hcw. unfold fork_setup, fork_cwd. munfold.
  rewrite (upd_thread_eq s t _ th Ht). simpl curthread.
  rewrite (get_thread_eq _ (curthread s) me) by (simpl; by rewrite lookup_insert_ne).
  case_decide as D.
  - destruct (Hinc D) as [vn E]. unfold zoom. simpl. rewrite E.
    rewrite (upd_thread_eq _ t _ (set_magic stack_magic th)) by (apply lookup_insert_eq).
    rewrite (upd_thread_eq _ t _ (set_cwd (t_cwd me) (set_magic stack_magic th)))
      by (apply lookup_insert_eq).
    exists vn. eexists. split; [simpl; unfold set_threads, set_vnodes; simpl; by rewrite !insert_insert_eq|].
    split; [|done]. by eapply tbl_upd_thread_vn.
  - rewrite (upd_thread_eq _ t _ (set_magic stack_magic th)) by (apply lookup_insert_eq).
    exists (vnodes s). eexists. split; [unfold set_threads, set_vnodes; simpl; by rewrite !insert_insert_eq|].
    split; [by eapply tbl_upd_thread_vn|].
    simpl. split_and!; try done. congruence.
Qed.

(** Freeing the blocks of a thread and dropping it from the thread system. *)
Lemma spare_thread s s' sl zs rq B B' t th :
  sleepers s = Some sl -> zombies s = Some zs -> runqueue s = Some rq ->
  sleepers s' = Some sl -> zombies s' = Some zs -> runqueue s' = Some rq ->
  threads s !! t = Some th -> threads s' = delete t (threads s) ->
  same_spare B (thread_blocks t th ++ (array_blocks sl ++ array_blocks zs ++ queue_blocks rq) ++
    threads_blocks (delete t (threads s)))
    B' ((array_blocks sl ++ array_blocks zs ++ queue_blocks rq) ++ threads_blocks (delete t (threads s))) ->
  spares s B s' B'.
Proof.
  intros E1 E2 E3 E1' E2' E3' Ht Et X. unfold spares, sys_blocks. rewrite E1, E2, E3, E1', E2', E3', Et.
  cbn [from_option]. rewrite !tables_assoc. eapply same_spare_trans; [apply same_spare_perm|exact X].
  rewrite (threads_blocks_delete _ _ _ Ht). by rewrite (Permutation_app_swap_app (_ ++ _)).
Qed.

Lemma fork_undo_spec s B sl zs rq R S Zs t th :
  tbl s B sl zs rq R S Zs -> threads s !! t = Some th -> t_stack th <> 0 -> t_vmspace th = 0 ->
  (t_cwd th <> 0 -> exists vn, VOP_DECREF (t_cwd th) (vnodes s) = Done tt vn) ->
  exists s' B', fork_undo t s = Done tt s' /\ tbl s' B' sl zs rq R S Zs /\
    threads s' = delete t (threads s) /\ curthread s' = curthread s /\ switching s' = switching s /\
    numthreads s' = numthreads s /\ curspl s' = curspl s /\ in_interrupt s' = in_interrupt s /\
    (t_cwd th = 0 -> vnodes s' = vnodes s) /\
    (t_cwd th <> 0 -> VOP_DECREF (t_cwd th) (vnodes s) = Done tt (vnodes s')) /\ spares s B s' B'.
Proof.
  intros [] Ht Hst Hv Hd. pose proof tb_owns0 as O.
  rewrite tables_assoc, (owns_thread_first _ _ t th _ Ht) in O.
  destruct (free_thread_blocks _ _ _ _ _ tb_heap0 O Hv) as (h1 & h2 & h3 & B3 & E1 & E2 & E3 & R3 & O3 & X3).
  rewrite decide_True in E1 by done.
  assert (Hc : exists vn, (if decide (t_cwd th <> 0) then zoom vnodesL (VOP_DECREF (t_cwd th)) else mret tt) s =
    Done tt (set_vnodes vn s) /\ (t_cwd th = 0 -> vn = vnodes s) /\
    (t_cwd th <> 0 -> VOP_DECREF (t_cwd th) (vnodes s) = Done tt vn)).
  { case_decide as D.
    - destruct (Hd D) as [vn E]. exists vn. unfold zoom. simpl. rewrite E. split_and!; try done.
    - exists (vnodes s). split_and!; try done. by destruct s. }
  destruct Hc as (vn & Ec & Hv0 & Hv1).
  unfold fork_undo. unfold mbind at 1, M_bind at 1. rewrite (get_thread_eq s t th Ht).
  unfold mbind at 1, M_bind at 1. rewrite Ec. unfold zoom. munfold. simpl. rewrite E1. simpl.
  rewrite E2. simpl. rewrite E3. simpl. eexists _, B3. split; [done|].
  split; [split; try done; simpl threads; by rewrite tables_assoc|]. split_and!; try done.
  by eapply spare_thread.
Qed.

(** A thread is added to the ready ones. *)
Lemma part_add s s' R S Zs t th :
  part s R S Zs -> threads s !! t = None -> threads s' = <[t := th]> (threads s) ->
  (t_stack th <> 0 -> t_magic th = stack_magic) -> curthread s' = curthread s ->
  numthreads s' = numthreads s + 1 -> curthread s <> 0 ->
  Z.of_nat (length (cur_list s ++ R ++ S ++ Zs)) < MAXTHREADS ->
  part s' (R ++ [t]) S Zs.
Proof.
  intros [Pn Pd Pm Pz Pk Pb Pi] Ht Et Hm Ec En Hc Hlt.
  assert (El : cur_list s' = cur_list s) by (unfold cur_list; by rewrite Ec).
  assert (HP : cur_list s ++ (R ++ [t]) ++ S ++ Zs ≡ₚ t :: cur_list s ++ R ++ S ++ Zs).
  { rewrite perm_to_R. by rewrite <- Permutation_middle. }
  assert (Hni : t ∉ cur_list s ++ R ++ S ++ Zs) by (rewrite Pd, Ht; by intros []).
  split; rewrite ?El.
  - rewrite HP. by apply NoDup_cons.
  - intros t'. rewrite HP, elem_of_cons, Pd, Et, lookup_insert_is_Some.
    destruct (decide (t = t')); naive_solver.
  - intros t' th'. rewrite Et, lookup_insert_Some. intros [[<- <-]|[_ ?]]; [done|by eapply Pm].
  - intros t' th' Hz. rewrite Et, lookup_insert_Some. intros [[<- <-]|[_ ?]]; [|by eapply Pz].
    destruct Hni. set_solver.
  - rewrite En, Pk, !length_app. simpl. lia.
  - rewrite HP. simpl. lia.
  - rewrite Ec. done.
Qed.

Lemma stack_blocks t th st :
  t_stack th = 0 -> st <> 0 -> thread_blocks t (set_stack st th) ≡ₚ (st, STACK_SIZE) :: thread_blocks t th.
Proof.
  intros H0 Hst. unfold thread_blocks. simpl. rewrite decide_False, (decide_True (P := t_stack th = 0)) by done.
  simpl. etrans; [apply perm_rev3|]. by rewrite (perm_swap (t, sizeof_thread)).
Qed.

Lemma tbl_set_stack s h' B sl zs rq R S Zs t th st :
  tbl s B sl zs rq R S Zs -> threads s !! t = Some th -> t_stack th = 0 -> st <> 0 ->
  B !! st = None -> heap_rep h' (<[st := STACK_SIZE]> B) ->
  tbl (set_threads (<[t := set_stack st th]> (threads s)) (set_heap h' s))
    (<[st := STACK_SIZE]> B) sl zs rq R S Zs.
Proof.
  intros [] Ht H0 Hst HB R'. split; try done. simpl threads.
  rewrite tables_assoc, <- (insert_delete_eq (threads s)), owns_thread_insert by apply lookup_delete_eq.
  rewrite tables_assoc, (owns_thread_first _ _ t th _ Ht) in tb_owns0.
  rewrite stack_blocks by done. by apply owns_alloc.
Qed.

Lemma tbl_set_stack_spare s h' B t th st :
  threads s !! t = Some th -> t_stack th = 0 -> st <> 0 -> B !! st = None ->
  spares s B (set_threads (<[t := set_stack st th]> (threads s)) (set_heap h' s)) (<[st := STACK_SIZE]> B).
Proof.
  intros Ht H0 Hst HB. eapply same_spare_trans; [by apply spare_alloc|]. apply same_spare_perm.
  unfold sys_blocks. cbn [sleepers zombies runqueue threads set_threads set_heap]. rewrite <- (insert_delete_eq (threads s)), threads_blocks_insert by apply lookup_delete_eq.
  rewrite (threads_blocks_delete _ _ _ Ht), stack_blocks, !tables_assoc by done.
  change (((st, STACK_SIZE) :: ?l) ++ ?l') with ((st, STACK_SIZE) :: l ++ l'). apply Permutation_middle.
Qed.

(** The state after a failed fork: the threads are as before, and so is every
    live block outside the thread system, so what the fork allocated for the new
    thread is free again.  The tables may have grown. *)
Definition fork_undone s s' : Prop :=
  threads s' = threads s /\ curthread s' = curthread s /\ switching s' = switching s /\
  numthreads s' = numthreads s /\ curspl s' = curspl s /\ in_interrupt s' = in_interrupt s /\
  vnodes s' = vnodes s /\
  exists B B', heap_rep (heap s) B /\ heap_rep (heap s') B' /\ spares s B s' B'.

Lemma fork_undone_inv s s' B sl zs rq (sl0 : array Z) R S Zs :
  part s R S Zs -> fork_undone s s' -> tbl s' B sl zs rq R S Zs ->
  (1 < numthreads s -> numthreads s <= max sl0) -> max sl0 <= max sl -> curthread s <> 0 ->
  tinv s' R S Zs.
Proof.
  intros P (Et & Ec & Es & En & Ep & Ei & Ev & _) T C Hm Hc. exists B, sl, zs, rq. split; [done| |].
  - by eapply (part_same s).
  - rewrite En. intros Hn. specialize (C Hn). lia.
Qed.

(** The blocks of a thread whose stack could not be allocated. *)
Lemma fork_no_stack s B sl zs rq R S Zs t th :
  tbl s B sl zs rq R S Zs -> threads s !! t = Some th -> t_stack th = 0 -> t_vmspace th = 0 ->
  exists h1 h2 B2, kfree (t_name th) (heap s) = Done tt h1 /\ kfree t h1 = Done tt h2 /\
    tbl (set_threads (delete t (threads s)) (set_heap h2 s)) B2 sl zs rq R S Zs /\
    spares s B (set_threads (delete t (threads s)) (set_heap h2 s)) B2.
Proof.
  intros [] Ht Hst Hv. pose proof tb_owns0 as O.
  rewrite tables_assoc, (owns_thread_first _ _ t th _ Ht) in O.
  destruct (free_thread_blocks _ _ _ _ _ tb_heap0 O Hv) as (h1 & h2 & h3 & B3 & E1 & E2 & E3 & R3 & O3 & X3).
  rewrite decide_False in E1 by (by intros []). injection E1 as <-.
  exists h2, h3, B3. split; [done|]. split; [done|].
  split; [split; try done; simpl threads; by rewrite tables_assoc|]. by eapply spare_thread.
Qed.

(** ** Laws of the reference counts *)

Context `{!VnodeRefsLaws V}.

(** The outcomes of a fork. *)
Definition fork_result s R S Zs (o : outcome (tsys H V) Z) : Prop :=
  (exists s', o = Fail ENOMEM s' /\ fork_undone s s' /\ tinv s' R S Zs) \/
  (exists t s', o = Done t s' /\ threads s !! t = None /\ curspl s' = curspl s /\
     curthread s' = curthread s /\ numthreads s' = numthreads s + 1 /\ tinv s' (R ++ [t]) S Zs /\
     in_interrupt s' = in_interrupt s /\
     exists th, threads s' = <[t := th]> (threads s) /\ t_pcb th = mkpcb AtStart 0).

Lemma fork_finish_spec s B s2 B2 sl zs rq R S Zs t th me :
  part s R S Zs -> (1 < numthreads s -> numthreads s <= max sl) -> curthread s <> 0 ->
  heap_rep (heap s) B -> spares s B s2 B2 ->
  Z.of_nat (length (cur_list s ++ R ++ S ++ Zs)) < MAXTHREADS ->
  same_ctx s s2 -> threads s !! t = None -> t <> 0 -> threads s2 = <[t := th]> (threads s) ->
  tbl s2 B2 sl zs rq R S Zs -> t_stack th <> 0 -> t_vmspace th = 0 -> t_cwd th = 0 ->
  threads s !! curthread s = Some me ->
  (t_cwd me <> 0 -> exists vn, VOP_INCREF (t_cwd me) (vnodes s) = Done tt vn) ->
  fork_result s R S Zs (fork_finish t s2).
Proof.
  intros P C Hc Hr X2 Hlt (A1 & A2 & A3 & A4 & A5 & A6) Ht Hnz Et2 T2 Hst Hvm Hcw Hme Hinc.
  destruct (part_cur_lengths _ _ _ _ P Hc) as [Hn Hb].
  pose proof Hlt as Hlt'. unfold cur_list in Hlt'. rewrite decide_False in Hlt' by done.
  simpl in Hlt'. rewrite !length_app in Hlt'.
  assert (Htc : t <> curthread s) by congruence. rewrite <- A6 in Hinc.
  destruct (fork_setup_spec s2 B2 sl zs rq R S Zs t th (curthread s) me T2)
    as (vn & th' & E3 & T3 & F1 & F2 & F3 & F4 & Fp & Fb & Fv0 & Fv1); try done.
  { by rewrite Et2, lookup_insert_eq. } { by rewrite Et2, lookup_insert_ne. }
  unfold fork_finish, splhigh, splx. munfold. rewrite E3. clear E3.
  set (s3 := set_vnodes vn _) in *.
  assert (Et3 : threads s3 = <[t := th']> (threads s)) by (simpl; by rewrite Et2, insert_insert_eq).
  destruct (fork_reserve_spec (set_curspl SPL_HIGH s3) B2 sl zs rq R S Zs t (numthreads s))
    as [(s4 & B4 & sl4 & zs4 & rq4 & E4 & SR & T4 & Hm & X4)|(s4 & B4 & sl4 & zs4 & rq4 & E4 & SR & T4 & Hm)];
    [by eapply tbl_same|done|done|lia|lia|..]; rewrite E4; destruct SR as [B1 B2' B3 B5 B6 B7 B8];
    simpl in *.
  - left. destruct (fork_undo_spec (set_curspl (curspl s2) s4) B4 sl4 zs4 rq4 R S Zs t th')
      as (s5 & B5' & E5 & T5 & G1 & G2 & G3 & G4 & G5 & Gi & G6 & G7 & X5); [by eapply tbl_same|..].
    { simpl. by rewrite B1, Et3, lookup_insert_eq. } { congruence. } { congruence. }
    { intros Hw. exists (vnodes s2). simpl. rewrite B8. apply decref_incref.
      rewrite F4 in *. auto. }
    rewrite E5. exists s5. split; [done|].
    assert (Hu : fork_undone s s5).
    { unfold fork_undone. rewrite G1, G2, G3, G4, G5, Gi. simpl. rewrite B1, B2', B3, B5, Et3.
      rewrite delete_insert_id by done. split_and!; try congruence;
        [|exists B, B5'; split; [done|]; split; [apply T5|]; eapply same_spare_trans; [exact X2|];
          eapply same_spare_trans; [|exact X5]; eapply same_spare_trans; [|exact X4];
          eapply spares_same; [exact T2|by eapply tbl_same|]; simpl; rewrite Et2, insert_insert_eq;
          by rewrite !threads_blocks_insert, Fb].
      simpl in G6, G7. rewrite F4, B8 in *. destruct (decide (t_cwd me = 0)) as [D|D].
      - rewrite G6, Fv0 by done. done.
      - specialize (G7 D). rewrite (decref_incref _ _ _ (Fv1 D)) in G7. congruence. }
    split; [done|]. eapply fork_undone_inv; [done|done|done|done|lia|done].
  - right. eexists t, _. split; [done|]. split; [done|]. simpl.
    rewrite B5, s32_small by (unfold MAXTHREADS in *; lia).
    split; [done|]. split; [congruence|]. split; [congruence|].
    split; [|split; [congruence|exists th'; by rewrite B1, Et3]].
    exists B4, sl4, zs4, rq4. split; [by eapply tbl_same| |simpl; lia].
    eapply (part_add s _ R S Zs t th'); try done; simpl; congruence.
Qed.

Lemma thread_fork_inv s B sl zs rq R S Zs len :
  tinv_at s B sl zs rq R S Zs -> curthread s <> 0 -> 0 <= len < 2 ^ 30 ->
  Z.of_nat (length (cur_list s ++ R ++ S ++ Zs)) < MAXTHREADS ->
  (forall me, threads s !! curthread s = Some me -> t_cwd me <> 0 ->
     exists vn, VOP_INCREF (t_cwd me) (vnodes s) = Done tt vn) ->
  fork_result s R S Zs (thread_fork len s).
Proof.
  intros [T P C] Hc Hlen Hlt Hinc. destruct (cur_thread _ _ _ _ P Hc) as [me Hme].
  specialize (Hinc me Hme). unfold thread_fork. munfold.
  destruct (thread_create_spec _ _ _ _ _ _ _ _ len T Hlen) as
    [(s1 & E1 & [] & T1)|(t & nm & s1 & B1 & E1 & (A1 & A2 & A3 & A4 & A5 & A6) & Ht & Hnz & Et1 & T1 & X1)];
    rewrite E1.
  { left. exists s1. split; [done|]. assert (Hu : fork_undone s s1).
    { unfold fork_undone. split_and!; try done. exists B, B. split; [apply T|]. split; [apply T1|].
      eapply spares_same; [done..|]. by rewrite sr_threads0. }
    split; [done|].
    eapply fork_undone_inv; done || lia. }
  set (th1 := mkthread _ _ _ _ _ _ _ _) in *.
  assert (Ht1 : threads s1 !! t = Some th1) by (by rewrite Et1, lookup_insert_eq).
  destruct (kmalloc_spec (heap s1) B1 STACK_SIZE) as [(h2 & E2 & R2)|(st & h2 & E2 & Hst & Bst & R2)];
    [apply T1|unfold STACK_SIZE, KMALLOC_MAX; lia|..]; unfold zoom; simpl lget; rewrite E2; simpl lset.
  - assert (T2 : tbl (set_heap h2 s1) B1 sl zs rq R S Zs) by (destruct T1; by split).
    rewrite (upd_thread_eq _ t _ th1) by done. rewrite decide_True by done.
    change (set_stack 0 th1) with th1.
    rewrite (get_thread_eq _ t th1) by (apply lookup_insert_eq). simpl threads. rewrite insert_id by done.
    destruct (fork_no_stack _ _ _ _ _ _ _ _ t th1 T2 Ht1) as (h3 & h4 & B4 & E3 & E4 & T4 & X4); try done.
    simpl in E3. simpl. rewrite E3. simpl. rewrite E4. simpl. left. eexists. split; [done|].
    assert (Ed : delete t (threads s1) = threads s) by (by rewrite Et1, delete_insert_id).
    match goal with |- fork_undone s ?x /\ _ => assert (Hu : fork_undone s x) end.
    { unfold fork_undone. split_and!; try done. exists B, B4. split; [apply T|]. split; [apply T4|].
      eapply same_spare_trans; [exact X1|]. exact X4. }
    split; [done|]. eapply fork_undone_inv; [done|done| |done|done|done]. by eapply tbl_same.
  - rewrite (upd_thread_eq _ t _ th1) by done. rewrite decide_False by done.
    eapply (fork_finish_spec s B _ _ sl zs rq R S Zs t (set_stack st th1)); try done.
    + apply T.
    + eapply same_spare_trans; [exact X1|]. exact (tbl_set_stack_spare s1 h2 B1 t th1 st Ht1 eq_refl Hst Bst).
    + simpl. by rewrite Et1, insert_insert_eq.
    + by apply (tbl_set_stack s1 h2 B1 sl zs rq R S Zs t th1 st).
Qed.

(** ** The thread system as a state machine *)

Inductive top :=
  | TFork (len : Z)       (* thread_fork, for a name of [len] characters *)
  | TYield                (* thread_yield, up to the switch *)
  | TSleep (addr : Z)     (* thread_sleep, up to the switch *)
  | TExit                 (* thread_exit, up to the switch *)
  | TWakeup (addr : Z)    (* thread_wakeup, by a thread or an interrupt *)
  | TSwitchIn.            (* the scheduler picks a thread and it resumes *)

Definition run_top (op : top) : M (tsys H V) unit :=
  match op with
  | TFork len => _ ← thread_fork len; mret tt
  | TYield => _ ← thread_yield; mret tt
  | TSleep addr => _ ← thread_sleep addr; mret tt
  | TExit => _ ← thread_exit; mret tt
  | TWakeup addr => thread_wakeup addr
  | TSwitchIn => _ ← mi_switch_in; mret tt
  end.

(** When the kernel may make the call: a thread is running, or, for the last
    two, interrupts are off; the reference counts of the directory involved
    are in order. *)
Definition top_ok s (op : top) : Prop :=
  match op with
  | TFork len => curthread s <> 0 /\ 0 <= len < 2 ^ 30 /\ Z.of_nat (base.size (threads s)) < MAXTHREADS /\
      forall me, threads s !! curthread s = Some me -> t_cwd me <> 0 ->
        exists vn, VOP_INCREF (t_cwd me) (vnodes s) = Done tt vn
  | TYield => curthread s <> 0
  | TSleep _ => curthread s <> 0 /\ curspl s > 0 /\ in_interrupt s = 0
  | TExit => curthread s <> 0 /\
      forall me, threads s !! curthread s = Some me -> t_cwd me <> 0 ->
        exists vn, VOP_DECREF (t_cwd me) (vnodes s) = Done tt vn
  | TWakeup _ => curspl s > 0
  | TSwitchIn => curthread s = 0
  end.

(** The table a call needs has no room left and would have to grow. *)
Definition table_full s (op : top) (R S Zs : list Z) : Prop :=
  match op with
  | TYield => exists q, runqueue s = Some q /\ Queue.size q = Z.of_nat (length R) + 1
  | TWakeup addr => exists q, runqueue s = Some q /\
      Queue.size q <= Z.of_nat (length R + length (on_addr s addr S))
  | TSleep _ => exists a, sleepers s = Some a /\ max a <= Z.of_nat (length S)
  | TExit => exists a, zombies s = Some a /\ max a <= Z.of_nat (length Zs)
  | _ => False
  end.

(** What a call does to the three lists. *)
Definition abs_step s (op : top) (s' : tsys H V) (R S Zs R' S' Zs' : list Z) : Prop :=
  let c := curthread s in
  match op with
  | TFork _ => exists t, threads s !! t = None /\ R' = R ++ [t] /\ S' = S /\ Zs' = Zs /\ curthread s' = c
  | TYield => R' = R ++ [c] /\ S' = S /\ Zs' = Zs /\ curthread s' = 0
  | TSleep addr => R' = R /\ S' = S ++ [c] /\ Zs' = Zs /\ curthread s' = 0 /\
      t_sleepaddr <$> threads s' !! c = Some addr
  | TExit => R' = R /\ S' = S /\ Zs' = Zs ++ [c] /\ curthread s' = 0
  | TWakeup addr => R' = R ++ on_addr s addr S /\ S' = off_addr s addr S /\ Zs' = Zs /\ curthread s' = c
  | TSwitchIn =>
      match R with
      | [] => s' = s /\ R' = R /\ S' = S /\ Zs' = Zs
      | t :: R0 => curthread s' = t /\ R' = R0 /\ S' = S /\ (Zs' = Zs \/ Zs' = [])
      end
  end.

Lemma part_size s R S Zs : part s R S Zs -> base.size (threads s) = length (cur_list s ++ R ++ S ++ Zs).
Proof.
  intros P. rewrite <- size_dom. erewrite <- (size_list_to_set (C := gset Z)) by apply P.
  f_equal. apply set_eq. intros t. rewrite elem_of_list_to_set, elem_of_dom. symmetry. apply P.
Qed.

Lemma run_top_spec s op R S Zs :
  tinv s R S Zs -> top_ok s op ->
  (run_top op s = Panic /\ table_full s op R S Zs) \/
  (exists s', run_top op s = Fail ENOMEM s' /\ fork_undone s s' /\ tinv s' R S Zs) \/
  (exists s' R' S' Zs', run_top op s = Done tt s' /\ tinv s' R' S' Zs' /\
     abs_step s op s' R S Zs R' S' Zs').
Proof.
  intros (B & sl & zs & rq & I) Hok. pose proof (ti_tbl _ _ _ _ _ _ _ _ I) as T.
  destruct op as [len| |addr| |addr|]; simpl in *; unfold table_full, abs_step; munfold.
  - destruct Hok as (Hc & Hlen & Hsz & Hinc). rewrite (part_size s R S Zs) in Hsz by apply I.
    destruct (thread_fork_inv _ _ _ _ _ _ _ _ len I Hc Hlen Hsz Hinc)
      as [(s' & E & U & I')|(t & s' & E & Ht & _ & Hc' & _ & I' & _)]; rewrite E; [eauto 10|].
    right; right. exists s', (R ++ [t]), S, Zs. split_and!; try done. by exists t.
  - destruct (thread_yield_inv _ _ _ _ _ _ _ _ I Hok) as [(Hf & E)|(s' & th & E & Hc & I' & _)]; rewrite E.
    + left. split; [done|]. exists rq. split; [apply T|done].
    + right; right. eexists s', _, _, _. split_and!; try done.
  - destruct Hok as (Hc & Hspl & Hint).
    destruct (thread_sleep_inv _ _ _ _ _ _ _ _ addr I Hc Hspl Hint)
      as [(Hf & E)|(s' & th & E & Hc' & I' & Hth & Ha & _)]; rewrite E.
    + left. split; [done|]. exists sl. split; [apply T|done].
    + right; right. eexists s', _, _, _. split_and!; try done. by rewrite Ha, lookup_insert_eq.
  - destruct Hok as (Hc & Hd).
    destruct (thread_exit_inv _ _ _ _ _ _ _ _ I Hc Hd) as [(Hf & E)|(s' & th' & E & Hc' & I' & _)]; rewrite E.
    + left. split; [done|]. exists zs. split; [apply T|done].
    + right; right. eexists s', _, _, _. split_and!; try done.
  - destruct (thread_wakeup_inv _ _ _ _ _ _ _ _ addr I Hok) as [(Hf & E)|(s' & E & SR & I' & _)]; rewrite E.
    + left. split; [done|]. exists rq. split; [apply T|done].
    + right; right. eexists s', _, _, _. split_and!; try done. apply SR.
  - right; right. destruct R as [|t R].
    + exists s, [], S, Zs. unfold mi_switch_in. munfold.
      rewrite (scheduler_empty _ _ _ _ _ _ _ T) by (by apply (pt_idle _ _ _ _ (ti_part _ _ _ _ _ _ _ _ I))).
      split_and!; try done. by exists B, sl, zs, rq.
    + destruct (mi_switch_in_inv _ _ _ _ _ _ _ _ _ I Hok) as (s' & th & E & Hc & Hth & I' & _).
      rewrite E. eexists s', R, S, _. split; [done|]. split; [exact I'|]. split; [done|].
      split; [done|]. split; [done|]. destruct (pcb_resume (t_pcb th)); auto.
Qed.

(** C11: Each call of the thread system does to the ready, sleeping and dead
    threads what its name says: it appends to and removes from the right list, in
    order, and keeps every thread in exactly one place.  A fork that fails
    leaves the threads and every reference count as they were and gives back every
    block it allocated for the new thread; the only panics are those of a table
    that must grow. *)
Theorem thread_ops_refine s op R S Zs :
  tinv s R S Zs -> top_ok s op ->
  (run_top op s = Panic /\ table_full s op R S Zs) \/
  (exists s', run_top op s = Fail ENOMEM s' /\ fork_undone s s' /\ tinv s' R S Zs) \/
  (exists s' R' S' Zs', run_top op s = Done tt s' /\ tinv s' R' S' Zs' /\
     abs_step s op s' R S Zs R' S' Zs').
Proof. apply run_top_spec. Qed.

(** Once a second thread has been forked, [thread_sleep] cannot fail, as its
    comment says: the table of sleepers has room for every thread. *)
Theorem thread_sleep_never_fails s R S Zs addr :
  tinv s R S Zs -> curthread s <> 0 -> curspl s > 0 -> in_interrupt s = 0 -> 1 < numthreads s ->
  exists s', thread_sleep addr s = Done true s' /\ tinv s' R (S ++ [curthread s]) Zs /\
    t_sleepaddr <$> threads s' !! curthread s = Some addr.
Proof.
  intros (B & sl & zs & rq & I) Hc Hspl Hint Hn. destruct (part_cur_lengths _ _ _ _ (ti_part _ _ _ _ _ _ _ _ I) Hc).
  destruct (thread_sleep_inv _ _ _ _ _ _ _ _ addr I Hc Hspl Hint)
    as [(Hf & _)|(s' & th & E & _ & I' & Hth & Ha & _)].
  - pose proof (ti_cap _ _ _ _ _ _ _ _ I Hn). lia.
  - exists s'. by rewrite Ha, lookup_insert_eq.
Qed.

(** The run queue has a slot less than the threads it was preallocated for:
    when every other thread is ready and fills it, a [thread_yield] of the running
    one needs memory, and panics if there is none.  The comment in [mi_switch]
    says this cannot happen, because of the preallocation in [thread_fork]. *)
Theorem thread_yield_can_panic s R S Zs rq h' :
  tinv s R S Zs -> curthread s <> 0 -> runqueue s = Some rq ->
  Queue.size rq = Z.of_nat (length R) + 1 ->
  kmalloc (2 * Queue.size rq * sizeof_word) (heap s) = Done 0 h' ->
  thread_yield s = Panic.
Proof.
  intros (B & sl & zs & rq' & [T P C]) Hc Hq Hsz Hno.
  assert (rq' = rq) as -> by (pose proof (tb_runqueue _ _ _ _ _ _ _ _ T); congruence).
  set (s0 := set_curspl SPL_HIGH s).
  assert (P0 : part s0 R S Zs) by (destruct P; split; done).
  unfold thread_yield, splhigh, splx. munfold. fold s0.
  rewrite bool_decide_eq_true_2 by (rewrite (tb_sleepers _ _ _ _ _ _ _ _ T : sleepers s0 = _); eauto).
  rewrite (mi_switch_out_fail S_READY (AfterYield (curspl s)) s0 ENOMEM
    (set_curthread 0 (set_switching (curthread s) (set_heap h' s0)))); try done.
  { by eapply check_magic_cur. }
  simpl. unfold make_runnable, assert_spl, on_runqueue. munfold. simpl.
  destruct T. pose proof (qlen_length rq R tb_wf_rq0 tb_R0).
  rewrite Hq, (q_addtail_nomem (heap s) h' rq); [|done|unfold MAXRQ, MAXQ in *; lia|lia|done].
  f_equal. unfold set_runqueue, set_heap. simpl. by rewrite <- Hq.
Qed.

(** [thread_hassleepers] says whether a thread sleeps on the address. *)
Lemma thread_hassleepers_spec s R S Zs addr :
  tinv s R S Zs -> curspl s > 0 ->
  thread_hassleepers addr s = Done (if decide (on_addr s addr S = []) then 0 else 1) s.
Proof.
  intros (B & sl & zs & rq & [T P C]) Hspl. unfold thread_hassleepers, assert_spl. munfold.
  rewrite bool_decide_eq_true_2 by lia. rewrite (getnum_sleepers _ _ _ _ _ _ _ _ T), Nat2Z.id.
  apply (hassleepers_loop_spec _ _ _ _ _ _ _ _ addr (length S) 0 T); [|done].
  intros t Ht. apply (pt_dom _ _ _ _ P). set_solver.
Qed.

(** The states the thread system can get to from a state satisfying the
    invariant. *)
Inductive treach : tsys H V -> tsys H V -> Prop :=
  | treach_refl s : treach s s
  | treach_done s s1 op s2 : treach s s1 -> top_ok s1 op -> run_top op s1 = Done tt s2 -> treach s s2
  | treach_fail s s1 op e s2 : treach s s1 -> top_ok s1 op -> run_top op s1 = Fail e s2 -> treach s s2.

Lemma treach_inv s s' R S Zs :
  tinv s R S Zs -> treach s s' -> exists R' S' Zs', tinv s' R' S' Zs'.
Proof.
  intros I Hr. revert R S Zs I. induction Hr as [s|s s1 op s2 _ IH Hok E|s s1 op e s2 _ IH Hok E];
    intros R S Zs I; [eauto|..]; destruct (IH R S Zs I) as (R1 & S1 & Z1 & I1);
    destruct (run_top_spec s1 op R1 S1 Z1 I1 Hok) as
      [(E' & _)|[(s3 & E' & _ & I3)|(s3 & R3 & S3 & Z3 & E' & I3 & _)]]; rewrite E in E'; simplify_eq; eauto.
Qed.

(** C10: In every reachable state each thread is running, ready, asleep or a zombie,
    in exactly one of these, and [numthreads] counts the first three. *)
Theorem threads_partitioned s s' R S Zs :
  tinv s R S Zs -> treach s s' ->
  exists R' S' Zs',
    NoDup (cur_list s' ++ R' ++ S' ++ Zs') /\
    (forall t, t ∈ cur_list s' ++ R' ++ S' ++ Zs' <-> is_Some (threads s' !! t)) /\
    numthreads s' = Z.of_nat (length (cur_list s' ++ R' ++ S')) /\
    (exists sl, sleepers s' = Some sl /\ contents sl = Some <$> S') /\
    (exists zs, zombies s' = Some zs /\ contents zs = Some <$> Zs') /\
    (exists rq, runqueue s' = Some rq /\ qcontents rq = Some <$> R').
Proof.
  intros I Hr. destruct (treach_inv _ _ _ _ _ I Hr) as (R' & S' & Zs' & B & sl & zs & rq & [[] [] _]).
  exists R', S', Zs'. split_and!; eauto.
Qed.

(** ** Boot *)

(** The thread system before it is set up, and the set-up done by
    kern/main/main.c. *)
Definition tsys_init (h : H) (vn : V) : tsys H V :=
  mktsys h ∅ 0 0 None None None 0 SPL_HIGH 0 vn.
Definition boot_threads : M (tsys H V) Z := scheduler_bootstrap ;; thread_bootstrap.

Lemma owns_nil B : owns B [].
Proof. split; [constructor|]. intros a n Hin. by apply elem_of_nil in Hin. Qed.

Lemma array_create_spec h B :
  heap_rep h B ->
  (exists h', array_create (V := Z) h = Done None h') \/
  (exists h' p, array_create (V := Z) h = Done (Some (mkarray p 0 0 0 [])) h' /\ p <> 0 /\ B !! p = None /\
     heap_rep h' (<[p := sizeof_array]> B)).
Proof.
  intros R. unfold array_create. munfold.
  destruct (kmalloc_spec h B sizeof_array R) as [(h' & E & _)|(p & h' & E & Hp & HB & R')];
    [unfold sizeof_array, KMALLOC_MAX; lia|..]; rewrite E; [eauto|].
  right. rewrite decide_False by done. eauto 10.
Qed.

Lemma q_create_blocks h B :
  heap_rep h B ->
  (exists h', q_create (V := Z) 32 h = Done None h') \/
  (exists h' q B', q_create (V := Z) 32 h = Done (Some q) h' /\ qwf q /\ qcontents q = [] /\
     Queue.size q = 32 /\ heap_rep h' B' /\ owns B' (queue_blocks q)).
Proof.
  intros R. unfold q_create. munfold.
  destruct (kmalloc_spec h B sizeof_queue R) as [(h1 & E1 & R1)|(p & h1 & E1 & Hp & HB & R1)];
    [unfold sizeof_queue, KMALLOC_MAX; lia|..]; rewrite E1; [eauto|].
  rewrite decide_False by done. rewrite u32_small by (unfold sizeof_word; lia).
  destruct (kmalloc_spec h1 _ (32 * sizeof_word) R1) as [(h2 & E2 & R2)|(d & h2 & E2 & Hd & HB2 & R2)];
    [unfold sizeof_word, KMALLOC_MAX; lia|..]; rewrite E2; simpl.
  - destruct (kfree_spec _ _ p sizeof_queue R2) as (h3 & E3 & R3); [apply lookup_insert_eq|].
    rewrite E3. eauto.
  - rewrite decide_False by done. right. eexists _, _, _. split; [done|].
    split; [by split|]. split; [done|]. split; [done|]. split; [exact R2|].
    unfold queue_blocks. simpl. rewrite perm_swap. apply owns_alloc; [done|].
    apply owns_alloc; [done|]. apply owns_nil.
Qed.

Lemma boot_threads_spec (h : H) (B : gmap Z Z) (vn : V) :
  heap_rep h B ->
  boot_threads (tsys_init h vn) = Panic \/
  exists me s, boot_threads (tsys_init h vn) = Done me s /\ curthread s = me /\
    numthreads s = 1 /\ tinv s [] [] [].
Proof.
  intros R. cut (match boot_threads (tsys_init h vn) with
    | Panic => True
    | Done me s => curthread s = me /\ numthreads s = 1 /\ tinv s [] [] []
    | _ => False end).
  { destruct boot_threads as [me s| | | |]; naive_solver. }
  unfold boot_threads, scheduler_bootstrap, thread_bootstrap. munfold.
  unfold zoom at 1. simpl lget.
  destruct (q_create_blocks h B R) as [(h1 & E1)|(h1 & q & B1 & E1 & Wq & Cq & Sq & R1 & O1)];
    simpl; rewrite E1; [done|]. unfold zoom at 1. simpl.
  destruct (array_create_spec h1 B1 R1) as [(h2 & E2)|(h2 & p & E2 & Hp & Bp & R2)]; rewrite E2; [done|].
  unfold zoom at 1. simpl.
  destruct (array_create_spec h2 _ R2) as [(h3 & E3)|(h3 & p' & E3 & Hp' & Bp' & R3)]; rewrite E3; [done|].
  simpl. match goal with |- context [thread_create _ ?s0] => set (s3 := s0) end.
  assert (W0 : forall x, wf (V := Z) (mkarray x 0 0 0 [])) by (intros; split; simpl; unfold MAXGUYS; done || lia).
  assert (T3 : tbl s3 (<[p' := sizeof_array]> (<[p := sizeof_array]> B1))
    (mkarray p 0 0 0 []) (mkarray p' 0 0 0 []) q [] [] []).
  { split; try done; [unfold MAXRQ; lia|].
    change (owns (<[p':=sizeof_array]> (<[p:=sizeof_array]> B1))
      ((p, sizeof_array) :: (p', sizeof_array) :: queue_blocks q ++ [])).
    rewrite app_nil_r, perm_swap. apply owns_alloc; [done|]. by apply owns_alloc. }
  destruct (thread_create_spec s3 _ _ _ _ _ _ _ 11 T3) as
    [(s4 & E4 & _)|(t & nm & s4 & B4 & E4 & (A1 & A2 & A3 & A4 & A5 & A6) & Ht & Hnz & Et & T4 & _)];
    [lia|..]; rewrite E4; [done|].
  set (th := mkthread _ _ _ _ _ _ _ _) in *. rewrite (upd_thread_eq s4 t _ th) by (by rewrite Et, lookup_insert_eq).
  split; [done|]. split; [done|].
  eexists B4, _, _, q. split; [|split; simpl|simpl; lia].
  - set (s5 := set_threads (<[t := set_pcb (mkpcb AtStart 0) th]> (threads s4)) s4).
    apply (tbl_same s5); try done. eapply tbl_upd_thread; [done|by rewrite Et, lookup_insert_eq|done].
  - unfold cur_list. simpl. rewrite decide_False by done. apply NoDup_singleton.
  - intros t'. unfold cur_list. simpl. rewrite decide_False by done.
    rewrite Et, !insert_insert_eq. simpl. rewrite list_elem_of_singleton.
    rewrite lookup_insert_is_Some. rewrite lookup_empty. split; [by left|]. by intros [|[_ []]].
  - intros t' th'. rewrite Et, insert_insert_eq. simpl. rewrite lookup_insert_Some, lookup_empty.
    by intros [[<- <-]|[_ ?]].
  - intros t' th' Hz. by apply elem_of_nil in Hz.
  - unfold cur_list. simpl. by rewrite decide_False.
  - unfold cur_list. simpl. rewrite decide_False by done. unfold MAXTHREADS. simpl. lia.
  - done.
Qed.

(** Setting up the threads either panics for lack of memory, or leaves the boot
    thread running, alone, and everything in order. *)
Theorem boot_threads_inv (h : H) (B : gmap Z Z) (vn : V) :
  heap_rep h B ->
  boot_threads (tsys_init h vn) = Panic \/
  exists me s, boot_threads (tsys_init h vn) = Done me s /\ curthread s = me /\
    numthreads s = 1 /\ tinv s [] [] [].
Proof. apply boot_threads_spec. Qed.

End inv.

End ThreadInv.
