(* ===== verification/Synch.v ===== *)
(** * Synchronization primitives: kern/thread/synch.c

    Semaphores, locks and condition variables over the thread system of
    Thread.v, with the clock that preempts threads (kern/thread/hardclock.c,
    kern/arch/mips/mips/interrupt.c).  A call that sleeps stops where the
    processor is given up; what the thread has left to do when it runs again is
    kept in [waits] and executed by [switch_in]. *)

From S2P Require Import Prelude Kmalloc Array Queue Thread.
Import Array Queue Thread.

Module Synch.

Record semaphore := mksem {
  sem_name : Z;
  sem_namelen : Z;
  count : Z;
}.

Record lock := mklock {
  lk_name : Z;
  lk_namelen : Z;
  available : Z;        (* declared int *, used as a flag *)
  holder : Z;           (* a thread, or NULL *)
}.

Record cv := mkcv { cv_name : Z; cv_namelen : Z }.

Definition sizeof_semaphore : Z := 8.
Definition sizeof_lock : Z := 12.
Definition sizeof_cv : Z := 4.

(** Where a thread that gave up the processor inside a call goes on. *)
Inductive wait :=
  | InP (sem spl : Z)              (* after [thread_sleep] in [P] *)
  | InAcquire (lk spl : Z)         (* after [thread_sleep] in [lock_acquire] *)
  | InClock (num_secs spl : Z)     (* after [thread_sleep] in [clocksleep] *)
  | InIntr (old_in savespl : Z).   (* after [hardclock] in [mips_interrupt] *)

Record ksys (H VN : Type) := mkksys {
  ts : tsys H VN;
  sems : gmap Z semaphore;
  locks : gmap Z lock;
  cvs : gmap Z cv;
  waits : gmap Z wait;
  lbolt_counter : Z;
}.
Arguments mkksys {H VN} _ _ _ _ _ _.
Arguments ts {H VN} _.
Arguments sems {H VN} _.
Arguments locks {H VN} _.
Arguments cvs {H VN} _.
Arguments waits {H VN} _.
Arguments lbolt_counter {H VN} _.

Section ops.
Context {H VN : Type} `{!Kmalloc H, !VnodeRefs VN}.

(** The address of the variable [lbolt], and the clock rate of
    kern/include/clock.h, which depends on the configuration. *)
Variable lbolt HZ : Z.

Abbreviation KM := (M (ksys H VN)).

Definition set_ts x (s : ksys H VN) : ksys H VN :=
  mkksys x (sems s) (locks s) (cvs s) (waits s) (lbolt_counter s).
Definition set_sems x (s : ksys H VN) : ksys H VN :=
  mkksys (ts s) x (locks s) (cvs s) (waits s) (lbolt_counter s).
Definition set_locks x (s : ksys H VN) : ksys H VN :=
  mkksys (ts s) (sems s) x (cvs s) (waits s) (lbolt_counter s).
Definition set_cvs x (s : ksys H VN) : ksys H VN :=
  mkksys (ts s) (sems s) (locks s) x (waits s) (lbolt_counter s).
Definition set_waits x (s : ksys H VN) : ksys H VN :=
  mkksys (ts s) (sems s) (locks s) (cvs s) x (lbolt_counter s).
Definition set_lbolt_counter x (s : ksys H VN) : ksys H VN :=
  mkksys (ts s) (sems s) (locks s) (cvs s) (waits s) x.

Definition tsL : lens (ksys H VN) (tsys H VN) := Lens ts set_ts.
(** A routine of the thread system. *)
Definition kt {A} (m : M (tsys H VN) A) : KM A := zoom tsL m.

Definition kalloc (n : Z) : KM Z := kt (zoom theapL (kmalloc n)).
Definition kdrop (p : Z) : KM unit := kt (zoom theapL (kfree p)).

Definition get_sem (p : Z) : KM semaphore := s ← gets id; access (sems s !! p).
Definition get_lock (p : Z) : KM lock := s ← gets id; access (locks s !! p).
Definition put_sem (p : Z) (x : semaphore) : KM unit := modify (fun s => set_sems (<[p := x]> (sems s)) s).
Definition put_lock (p : Z) (x : lock) : KM unit := modify (fun s => set_locks (<[p := x]> (locks s)) s).
Definition set_wait (t : Z) (w : wait) : KM unit := modify (fun s => set_waits (<[t := w]> (waits s)) s).

Definition set_count (n : Z) (x : semaphore) : semaphore := mksem (sem_name x) (sem_namelen x) n.
Definition set_lock_state (a h : Z) (x : lock) : lock := mklock (lk_name x) (lk_namelen x) a h.

(** ** Semaphores *)

(** [sem_create], for a name of [len] characters. *)
Definition sem_create (len initial_count : Z) : KM (option Z) :=
  kassert (bool_decide (initial_count >= 0)) ;;
  sem ← kalloc sizeof_semaphore;
  if decide (sem = 0) then mret None
  else
    nm ← kt (kstrdup len);
    if decide (nm = 0) then kdrop sem ;; mret None
    else
      put_sem sem (mksem nm (u32 (len + 1)) initial_count) ;;
      mret (Some sem).

Definition sem_destroy (sem : Z) : KM unit :=
  kassert (bool_decide (sem <> 0)) ;;
  spl ← kt splhigh;
  n ← kt (thread_hassleepers sem);
  kassert (bool_decide (n = 0)) ;;
  _ ← kt (splx spl);
  x ← get_sem sem;
  kdrop (sem_name x) ;;
  kdrop sem ;;
  modify (fun s => set_sems (delete sem (sems s)) s).

(** The loop of [P], from its condition to the next [thread_sleep] or to the
    end of the call; [true] when the call returned.  Without a current thread
    [thread_sleep] does not switch, and the loop would spin. *)
Definition P_loop (sem spl : Z) : KM bool :=
  x ← get_sem sem;
  if decide (count x = 0) then
    cur ← kt (gets curthread);
    b ← kt (thread_sleep sem);
    if b : bool then set_wait cur (InP sem spl) ;; mret false else nofuel
  else
    kassert (bool_decide (count x > 0)) ;;
    put_sem sem (set_count (s32 (count x - 1)) x) ;;
    _ ← kt (splx spl);
    mret true.

Definition P (sem : Z) : KM bool :=
  kassert (bool_decide (sem <> 0)) ;;
  i ← kt (gets in_interrupt);
  kassert (bool_decide (i = 0)) ;;
  spl ← kt splhigh;
  P_loop sem spl.

Definition V (sem : Z) : KM unit :=
  kassert (bool_decide (sem <> 0)) ;;
  spl ← kt splhigh;
  x ← get_sem sem;
  put_sem sem (set_count (s32 (count x + 1)) x) ;;
  kassert (bool_decide (s32 (count x + 1) > 0)) ;;
  kt (thread_wakeup sem) ;;
  _ ← kt (splx spl);
  mret tt.

(** ** Locks *)

(** The old value, and what the location holds after it. *)
Definition TestAndSet (old new : Z) : Z * Z := (old, new).

Definition lock_create (len : Z) : KM (option Z) :=
  lk ← kalloc sizeof_lock;
  if decide (lk = 0) then mret None
  else
    nm ← kt (kstrdup len);
    if decide (nm = 0) then kdrop lk ;; mret None
    else
      put_lock lk (mklock nm (u32 (len + 1)) 1 0) ;;
      mret (Some lk).

Definition lock_destroy (lk : Z) : KM unit :=
  kassert (bool_decide (lk <> 0)) ;;
  x ← get_lock lk;
  kdrop (available x) ;;
  kdrop (holder x) ;;
  kdrop (lk_name x) ;;
  kdrop lk ;;
  modify (fun s => set_locks (delete lk (locks s)) s).

Definition lock_do_i_hold (lk : Z) : KM Z :=
  kassert (bool_decide (lk <> 0)) ;;
  x ← get_lock lk;
  cur ← kt (gets curthread);
  mret (if decide (holder x = cur) then 1 else 0).

Definition lock_acquire_loop (lk spl : Z) : KM bool :=
  x ← get_lock lk;
  cur ← kt (gets curthread);
  if decide (available x = 0) then
    b ← kt (thread_sleep lk);
    if b : bool then set_wait cur (InAcquire lk spl) ;; mret false else nofuel
  else
    kassert (bool_decide (available x = 1)) ;;
    put_lock lk (set_lock_state 0 cur x) ;;
    _ ← kt (splx spl);
    mret true.

Definition lock_acquire (lk : Z) : KM bool :=
  kassert (bool_decide (lk <> 0)) ;;
  spl ← kt splhigh;
  lock_acquire_loop lk spl.

Definition lock_try_acquire_alert (lk : Z) : KM Z :=
  kassert (bool_decide (lk <> 0)) ;;
  mine ← lock_do_i_hold lk;
  if decide (mine <> 0) then mret 0
  else
    spl ← kt splhigh;
    x ← get_lock lk;
    if decide (available x = 0) then _ ← kt (splx spl); mret 0
    else
      kassert (bool_decide (available x = 1)) ;;
      cur ← kt (gets curthread);
      put_lock lk (set_lock_state 0 cur x) ;;
      _ ← kt (splx spl);
      mret 1.

(** [true] when the lock was released: a thread that does not hold it changes
    nothing. *)
Definition lock_release (lk : Z) : KM bool :=
  kassert (bool_decide (lk <> 0)) ;;
  spl ← kt splhigh;
  mine ← lock_do_i_hold lk;
  (if decide (mine = 1) then
     x ← get_lock lk;
     put_lock lk (set_lock_state 1 0 x) ;;
     kt (thread_wakeup lk)
   else mret tt) ;;
  _ ← kt (splx spl);
  mret (bool_decide (mine = 1)).

(** ** Condition variables *)

Definition cv_create (len : Z) : KM (option Z) :=
  c ← kalloc sizeof_cv;
  if decide (c = 0) then mret None
  else
    nm ← kt (kstrdup len);
    if decide (nm = 0) then kdrop c ;; mret None
    else
      modify (fun s => set_cvs (<[c := mkcv nm (u32 (len + 1))]> (cvs s)) s) ;;
      mret (Some c).

Definition cv_destroy (c : Z) : KM unit :=
  kassert (bool_decide (c <> 0)) ;;
  s ← gets id;
  x ← access (cvs s !! c);
  kdrop (cv_name x) ;;
  kdrop c ;;
  modify (fun s => set_cvs (delete c (cvs s)) s).

(** The bodies of these three are still to be written. *)
Definition cv_wait (c lk : Z) : KM unit := mret tt.
Definition cv_signal (c lk : Z) : KM unit := mret tt.
Definition cv_broadcast (c lk : Z) : KM unit := mret tt.

(** ** Clock *)

(** The part of [hardclock] that counts seconds. *)
Definition lbolt_tick : KM unit :=
  modify (fun s => set_lbolt_counter (s32 (lbolt_counter s + 1)) s) ;;
  n ← gets lbolt_counter;
  if decide (n >= HZ) then
    modify (set_lbolt_counter 0) ;; kt (thread_wakeup lbolt)
  else mret tt.

(** [true] when the interrupted thread was switched out. *)
Definition hardclock : KM bool := lbolt_tick ;; kt thread_yield.

Definition clocksleep_loop (num_secs spl : Z) : KM bool :=
  if decide (num_secs > 0) then
    cur ← kt (gets curthread);
    b ← kt (thread_sleep lbolt);
    if b : bool then set_wait cur (InClock num_secs spl) ;; mret false else nofuel
  else _ ← kt (splx spl); mret true.

Definition clocksleep (num_secs : Z) : KM bool :=
  spl ← kt splhigh;
  clocksleep_loop num_secs spl.

(** The end of [mips_interrupt] and, at the label [done], of [mips_trap]. *)
Definition interrupt_return (old_in savespl : Z) : KM unit :=
  kt (modify (set_in_interrupt old_in)) ;;
  kt (modify (set_curspl savespl)).

(** A timer interrupt: [mips_trap], [mips_interrupt] and [hardclock]. *)
Definition timer_interrupt : KM unit :=
  cur ← kt (gets curthread);
  savespl ← kt (gets curspl);
  kt (modify (set_curspl SPL_HIGH)) ;;
  old_in ← kt (gets in_interrupt);
  kt (modify (set_in_interrupt 1)) ;;
  kt assert_spl ;;
  b ← hardclock;
  if b : bool then set_wait cur (InIntr old_in savespl) else interrupt_return old_in savespl.

(** ** Switching in *)

(** The rest of the call a thread was switched out of; the value is that of
    the call, for those that can complete. *)
Definition resume_wait (w : wait) : KM bool :=
  match w with
  | InP sem spl => P_loop sem spl
  | InAcquire lk spl => lock_acquire_loop lk spl
  | InClock n spl => clocksleep_loop (n - 1) spl
  | InIntr old_in savespl => interrupt_return old_in savespl ;; mret true
  end.

(** The scheduler picks a thread and it runs to the end of the call it was in,
    or to the next switch; the call and whether it completed are returned. *)
Definition switch_in : KM (option (wait * bool)) :=
  b ← kt mi_switch_in;
  if b : bool then
    cur ← kt (gets curthread);
    s ← gets id;
    match waits s !! cur with
    | None => mret None
    | Some w =>
        modify (fun s => set_waits (delete cur (waits s)) s) ;;
        r ← resume_wait w;
        mret (Some (w, r))
    end
  else mret None.

End ops.

End Synch.
