(* ===== verification/SynchInv.v ===== *)
(** * Synchronization: invariant and theorems

    Every thread that sleeps in [P], [lock_acquire] or [clocksleep] sleeps on
    the object it waits for, and the object is not available: wakeups are not
    lost.  From this, mutual exclusion of locks and the counting of semaphores
    for every interleaving of the calls with preemption by the clock. *)

From S2P Require Import Prelude Kmalloc Array Queue Thread ThreadInv Synch.
Import Array Queue Thread ThreadInv Synch.

Module SynchInv.

Section inv.
Context {H VN : Type} `{!Kmalloc H, !KmallocSpec H, !VnodeRefs VN, !VnodeRefsLaws VN}.
Variable lbolt HZ : Z.
Implicit Types s : ksys H VN.
Implicit Types x : tsys H VN.

(** The invariant of the thread system while others own the blocks of [F]. *)
Definition tinvF (F : gmap Z Z) x (R S Zs : list Z) : Prop :=
  tinv (KmallocSpec0 := framed_spec F) x R S Zs.

Lemma tinvF_heap F F' x h B B' sl zs rq R S Zs :
  tinv_at (KmallocSpec0 := framed_spec F) x B sl zs rq R S Zs ->
  framed_rep F' h B' -> (forall p n, B !! p = Some n -> B' !! p = Some n) ->
  tinvF F' (set_heap h x) R S Zs.
Proof.
  intros [T P C] Hr HB. exists B', sl, zs, rq. split; [| |done].
  2:{ eapply (part_same x); try done. intros E. split; [by apply P|done]. }
  destruct T. split; try done. destruct tb_owns0 as [N O]. split; [done|]. intros. by apply HB, O.
Qed.

Lemma tinvF_alloc F x R S Zs n :
  tinvF F x R S Zs -> 0 <= n <= KMALLOC_MAX ->
  (exists h', kmalloc n (heap x) = Done 0 h' /\ tinvF F (set_heap h' x) R S Zs) \/
  (exists p h', kmalloc n (heap x) = Done p h' /\ p <> 0 /\ F !! p = None /\
     tinvF (<[p := n]> F) (set_heap h' x) R S Zs).
Proof.
  intros (B & sl & zs & rq & I) Hn. pose proof (tb_heap _ _ _ _ _ _ _ _ (ti_tbl _ _ _ _ _ _ _ _ I)) as Hr.
  destruct (kmalloc_spec (KmallocSpec := framed_spec F) _ B n Hr Hn) as
    [(h' & E & R')|(p & h' & E & Hp & HB & R')].
  - left. exists h'. split; [done|]. by eapply tinvF_heap; [exact I|exact R'|].
  - right. exists p, h'. split; [done|]. split; [done|]. split.
    + destruct R' as [D _]. by apply map_disjoint_insert_l in D as [? _].
    + by eapply tinvF_heap; [exact I|apply framed_move; [exact R'|]|].
Qed.

Lemma tinvF_free F x R S Zs p n :
  tinvF F x R S Zs -> F !! p = Some n ->
  exists h', kfree p (heap x) = Done tt h' /\ tinvF (delete p F) (set_heap h' x) R S Zs.
Proof.
  intros (B & sl & zs & rq & I) HF. pose proof (tb_heap _ _ _ _ _ _ _ _ (ti_tbl _ _ _ _ _ _ _ _ I)) as Hr.
  assert (HB : B !! p = None) by (destruct Hr as [D _]; by eapply map_disjoint_Some_r).
  destruct (kfree_spec (KmallocSpec := framed_spec (delete p F)) (heap x) (<[p := n]> B) p n) as (h' & E & R').
  { by apply framed_unmove. } { apply lookup_insert_eq. }
  exists h'. split; [done|]. rewrite delete_insert_id in R' by done. by eapply tinvF_heap; [exact I|exact R'|].
Qed.

(** ** Blocks of the objects *)

Definition named_blocks (p sz nm len : Z) : list (Z * Z) := [(p, sz); (nm, len)].
Definition sem_blocks (m : gmap Z semaphore) : list (Z * Z) :=
  map_to_list m ≫= (fun q => named_blocks q.1 sizeof_semaphore (sem_name q.2) (sem_namelen q.2)).
Definition lock_blocks (m : gmap Z lock) : list (Z * Z) :=
  map_to_list m ≫= (fun q => named_blocks q.1 sizeof_lock (lk_name q.2) (lk_namelen q.2)).
Definition sync_blocks s : list (Z * Z) := sem_blocks (sems s) ++ lock_blocks (locks s).

Lemma sem_blocks_insert m p y :
  m !! p = None -> sem_blocks (<[p := y]> m) ≡ₚ
    named_blocks p sizeof_semaphore (sem_name y) (sem_namelen y) ++ sem_blocks m.
Proof. intros E. unfold sem_blocks. by rewrite map_to_list_insert. Qed.

Lemma sem_blocks_delete m p y :
  m !! p = Some y -> sem_blocks m ≡ₚ
    named_blocks p sizeof_semaphore (sem_name y) (sem_namelen y) ++ sem_blocks (delete p m).
Proof. intros E. unfold sem_blocks. by rewrite <- (map_to_list_delete m p y E). Qed.

Lemma lock_blocks_insert m p y :
  m !! p = None -> lock_blocks (<[p := y]> m) ≡ₚ
    named_blocks p sizeof_lock (lk_name y) (lk_namelen y) ++ lock_blocks m.
Proof. intros E. unfold lock_blocks. by rewrite map_to_list_insert. Qed.

Lemma lock_blocks_delete m p y :
  m !! p = Some y -> lock_blocks m ≡ₚ
    named_blocks p sizeof_lock (lk_name y) (lk_namelen y) ++ lock_blocks (delete p m).
Proof. intros E. unfold lock_blocks. by rewrite <- (map_to_list_delete m p y E). Qed.

Lemma sem_blocks_count m p y n :
  m !! p = Some y -> sem_blocks (<[p := set_count n y]> m) ≡ₚ sem_blocks m.
Proof.
  intros E. rewrite (sem_blocks_delete m p y E), <- insert_delete_eq.
  by rewrite sem_blocks_insert by apply lookup_delete_eq.
Qed.

Lemma lock_blocks_state m p y a h :
  m !! p = Some y -> lock_blocks (<[p := set_lock_state a h y]> m) ≡ₚ lock_blocks m.
Proof.
  intros E. rewrite (lock_blocks_delete m p y E), <- insert_delete_eq.
  by rewrite lock_blocks_insert by apply lookup_delete_eq.
Qed.

(** ** The invariant *)

(** The address a thread sleeps on. *)
Definition sleeping_on (w : wait) : option Z :=
  match w with
  | InP p _ => Some p
  | InAcquire l _ => Some l
  | InClock _ _ => Some lbolt
  | InIntr _ _ => None
  end.

(** What a thread waits for is not there. *)
Definition blocked s (w : wait) : Prop :=
  match w with
  | InP p _ => exists y, sems s !! p = Some y /\ count y = 0
  | InAcquire l _ => exists y, locks s !! l = Some y /\ available y = 0
  | _ => True
  end.

(** The objects a suspended call goes on to use exist. *)
Definition refs s (w : wait) : Prop :=
  match w with
  | InP p _ => is_Some (sems s !! p)
  | InAcquire l _ => is_Some (locks s !! l)
  | InClock _ _ => True
  | InIntr old_in _ => old_in = 0
  end.

(** The interrupt flag saved with a thread. *)
Definition wflag (ow : option wait) : Z := match ow with Some (InIntr _ _) => 1 | _ => 0 end.

Definition lock_ok (y : lock) : Prop :=
  (available y = 1 /\ holder y = 0) \/ (available y = 0 /\ holder y <> 0).

(** [ex] is an address whose sleepers are about to be woken. *)
Record kinvx (ex : option Z) (F : gmap Z Z) s (R S Zs : list Z) : Prop := {
  ki_thr : tinvF F (ts s) R S Zs;
  ki_owns : owns F (sync_blocks s);
  ki_waits : forall t w, waits s !! t = Some w -> t ∈ R ++ S /\ refs s w;
  ki_sleep : forall t, t ∈ S -> exists w th, waits s !! t = Some w /\ threads (ts s) !! t = Some th /\
    sleeping_on w = Some (t_sleepaddr th) /\ (ex <> Some (t_sleepaddr th) -> blocked s w);
  ki_resume : forall t th, t ∈ R ++ S -> threads (ts s) !! t = Some th ->
    (pcb_resume (t_pcb th) = AfterSleep <-> is_Some (waits s !! t ≫= sleeping_on));
  ki_int : forall t th, t ∈ R ++ S -> threads (ts s) !! t = Some th ->
    (if decide (curthread (ts s) = 0 /\ t = switching (ts s)) then in_interrupt (ts s)
     else pcb_ininterrupt (t_pcb th)) = wflag (waits s !! t);
  ki_cur : curthread (ts s) <> 0 -> in_interrupt (ts s) = 0;
  ki_sem : forall p y, sems s !! p = Some y -> 0 <= count y < 2 ^ 31;
  ki_lock : forall p y, locks s !! p = Some y -> lock_ok y;
}.

Definition kinv := kinvx None.

Lemma tinvF_part F x R S Zs : tinvF F x R S Zs -> part x R S Zs.
Proof. intros (? & ? & ? & ? & I). apply I. Qed.

Lemma cur_not_listed F x R S Zs : tinvF F x R S Zs -> curthread x <> 0 -> curthread x ∉ R ++ S.
Proof.
  intros I Hc. pose proof (pt_nodup _ _ _ _ (tinvF_part _ _ _ _ _ I)) as N.
  unfold cur_list in N. rewrite decide_False in N by done. apply NoDup_cons in N as [N _]. set_solver.
Qed.

Lemma cur_no_wait ex F s R S Zs : kinvx ex F s R S Zs -> curthread (ts s) <> 0 -> waits s !! curthread (ts s) = None.
Proof.
  intros K Hc. destruct (waits s !! curthread (ts s)) as [w|] eqn:E; [exfalso|done].
  apply (ki_waits _ _ _ _ _ _ K) in E as [E _].
  by eapply cur_not_listed; [apply K|..].
Qed.

Lemma listed_thread F x R S Zs t : tinvF F x R S Zs -> t ∈ R ++ S -> exists th, threads x !! t = Some th.
Proof. intros I Ht. apply (pt_dom _ _ _ _ (tinvF_part _ _ _ _ _ I)). set_solver. Qed.

(** Setting the interrupt level in a running thread. *)
Lemma tinvF_spl F x R S Zs n : tinvF F x R S Zs -> curthread x <> 0 -> tinvF F (set_curspl n x) R S Zs.
Proof.
  intros (B & sl & zs & rq & [T P C]) Hc. exists B, sl, zs, rq. split; [by eapply tbl_same| |done].
  by eapply (part_same x).
Qed.

Lemma tinvF_int F x R S Zs n : tinvF F x R S Zs -> tinvF F (set_in_interrupt n x) R S Zs.
Proof.
  intros (B & sl & zs & rq & [T P C]). exists B, sl, zs, rq. split; [by eapply tbl_same| |done].
  eapply (part_same x); try done. intros E. split; [|done]. by apply P.
Qed.

Lemma kinv_spl ex F s R S Zs n :
  kinvx ex F s R S Zs -> curthread (ts s) <> 0 -> kinvx ex F (set_ts (set_curspl n (ts s)) s) R S Zs.
Proof. intros [] Hc. split; try done. by apply tinvF_spl. Qed.

(** ** Switching out *)

Definition put_wait (c : Z) (ow : option wait) (m : gmap Z wait) : gmap Z wait :=
  match ow with Some w => <[c := w]> m | None => m end.

Lemma put_wait_lookup c ow m t : m !! c = None -> put_wait c ow m !! t = if decide (t = c) then ow else m !! t.
Proof.
  intros Hc. destruct ow as [w|]; simpl; case_decide as D; try done.
  - subst. apply lookup_insert_eq.
  - by rewrite lookup_insert_ne.
  - congruence.
Qed.

(** The running thread gives up the processor, [ow] being what it has left to
    do; [x0] is the thread system when the switch is entered. *)
Lemma kinv_out F s x0 x' R S Zs R' S' th' ow :
  let c := curthread (ts s) in
  kinv F s R S Zs -> c <> 0 ->
  threads x0 = threads (ts s) -> curthread x0 = c -> in_interrupt x0 = wflag ow ->
  tinvF F x' R' S' Zs -> curthread x' = 0 -> switched_out x0 x' th' ->
  (forall t, t ∈ R' ++ S' <-> t = c \/ t ∈ R ++ S) ->
  (forall t, t ∈ S' -> t ∈ S \/
     t = c /\ exists w, ow = Some w /\ sleeping_on w = Some (t_sleepaddr th') /\ blocked s w) ->
  (forall w, ow = Some w -> refs s w) ->
  (pcb_resume (t_pcb th') = AfterSleep <-> is_Some (ow ≫= sleeping_on)) ->
  kinv F (set_waits (put_wait c ow (waits s)) (set_ts x' s)) R' S' Zs.
Proof.
  intros c K Hc Et Ec Ei I' Hc' (Et' & Ei' & Es' & _) HL HS Hr Hres.
  pose proof (cur_no_wait _ _ _ _ _ _ K Hc) as Hw. pose proof K as [].
  pose proof (cur_not_listed _ _ _ _ _ ki_thr0 Hc) as Hnl. fold c in Hw, Hnl.
  assert (HW : forall t, put_wait c ow (waits s) !! t = if decide (t = c) then ow else waits s !! t)
    by (intros; by apply put_wait_lookup).
  assert (HT : forall t, threads x' !! t = if decide (t = c) then Some th' else threads (ts s) !! t).
  { intros t. rewrite Et', Et, Ec. destruct (decide (t = c)) as [D|D]; [subst; apply lookup_insert_eq|].
    by rewrite lookup_insert_ne. }
  split; simpl; try done.
  - intros t w. rewrite HW. destruct (decide (t = c)) as [D|D].
    + intros ->. split; [apply HL; by left|]. by apply Hr.
    + intros Hx. apply ki_waits0 in Hx as [? ?]. split; [apply HL; by right|done].
  - intros t Ht. rewrite HW, HT. apply HS in Ht as [Ht|(-> & w & -> & ? & ?)].
    + assert (t <> c) by (intros ->; apply Hnl; set_solver). rewrite !decide_False by done.
      by apply ki_sleep0.
    + rewrite !decide_True by done. eauto 10.
  - intros t th Ht. rewrite HW, HT. destruct (decide (t = c)) as [D|D]; [by intros [= <-]|].
    intros Hth. apply ki_resume0; [|done]. apply HL in Ht as [?|?]; done.
  - intros t th Ht. rewrite HW, HT, Es', Ec, Ei', Ei, Hc'. destruct (decide (t = c)) as [D|D].
    + intros _. by rewrite decide_True.
    + intros Hth. rewrite decide_False by naive_solver.
      apply HL in Ht as [?|Ht]; [done|]. specialize (ki_int0 t th Ht Hth).
      rewrite decide_False in ki_int0; [done|]. by intros [? _].
Qed.

(** ** Wakeups *)

Lemma kinv_wake ex F s x' R S Zs addr :
  kinvx ex F s R S Zs -> (ex = None \/ ex = Some addr) ->
  same_rest (ts s) x' -> tinvF F x' (R ++ on_addr (ts s) addr S) (off_addr (ts s) addr S) Zs ->
  kinv F (set_ts x' s) (R ++ on_addr (ts s) addr S) (off_addr (ts s) addr S) Zs.
Proof.
  intros [] Hex SR I'. destruct SR as [Et Ec Es En Ep Ei Ev].
  assert (HL : forall t, t ∈ (R ++ on_addr (ts s) addr S) ++ off_addr (ts s) addr S <-> t ∈ R ++ S).
  { intros t. unfold on_addr, off_addr. rewrite !elem_of_app, !list_elem_of_filter.
    destruct (decide (t_sleepaddr <$> threads (ts s) !! t = Some addr)); naive_solver. }
  split; simpl; rewrite ?Et, ?Ec, ?Es, ?Ei; try done.
  - intros t w Hw. rewrite HL. by apply ki_waits0.
  - intros t Ht. unfold off_addr in Ht. apply list_elem_of_filter in Ht as [Hne Ht].
    destruct (ki_sleep0 t Ht) as (w & th & ? & Hth & ? & Hb). exists w, th. split_and!; try done.
    intros _. apply Hb. destruct Hex as [->| ->]; [done|]. rewrite Hth in Hne. simpl in Hne. congruence.
  - intros t th Ht. apply ki_resume0. by apply HL.
  - intros t th Ht. apply ki_int0. by apply HL.
Qed.

(** ** Switching in *)

Lemma kinv_in F s t R S Zs :
  kinv F s (t :: R) S Zs -> curthread (ts s) = 0 ->
  exists x' Zs', mi_switch_in (ts s) = Done true x' /\ curthread x' = t /\ t <> 0 /\
    in_interrupt x' = wflag (waits s !! t) /\
    (is_Some (waits s !! t ≫= sleeping_on) -> curspl x' > 0) /\
    sleepers x' = sleepers (ts s) /\ numthreads x' = numthreads (ts s) /\
    kinv F (set_waits (delete t (waits s)) (set_ts (set_in_interrupt 0 x') s)) R S Zs'.
Proof.
  intros [] Hc. destruct ki_thr0 as (B & sl & zs & rq & I).
  destruct (mi_switch_in_inv (KmallocSpec0 := framed_spec F) _ _ _ _ _ _ _ _ _ I Hc)
    as (x' & th & E & Hc' & Hth & I' & Hres & Hsl & Hnum & Hint & HT).
  pose proof (ti_part _ _ _ _ _ _ _ _ I) as P. pose proof (pt_nodup _ _ _ _ P) as N.
  unfold cur_list in N. rewrite decide_True in N by done. simpl in N. apply NoDup_cons in N as [Hnt N].
  assert (Hnz : t <> 0) by (eapply (threads_nonzero (KmallocSpec0 := framed_spec F)); [apply I|done]).
  assert (HZ' : forall t', t' ∈ R ++ S -> (t' ∉ Zs) /\ t' <> t).
  { intros t' Ht'. split; [|intros ->; set_solver]. rewrite app_assoc in N.
    apply NoDup_app in N as (_ & N & _). by apply N. }
  set (Zs' := match pcb_resume (t_pcb th) with AtStart => Zs | _ => [] end) in *.
  exists x', Zs'. split; [done|]. split; [done|]. split; [done|].
  assert (Ei : in_interrupt x' = wflag (waits s !! t)).
  { rewrite <- (ki_int0 t th) by (done || set_solver). rewrite Hint. rewrite Hc.
    destruct (decide (switching (ts s) = t)) as [<-|]; [by rewrite decide_True|].
    rewrite decide_False by naive_solver. done. }
  split; [done|]. split.
  { rewrite <- (ki_resume0 t th) by (done || set_solver). intros Er. rewrite Er in Hres. rewrite Hres.
    by apply P. }
  split; [rewrite Hsl; symmetry; apply I|]. split; [done|].
  assert (HW : forall t', t' ∈ R ++ S -> delete t (waits s) !! t' = waits s !! t').
  { intros t' Ht'. rewrite lookup_delete_ne; [done|]. intros <-. by destruct (HZ' t Ht'). }
  split; simpl; try done.
  - by apply tinvF_int.
  - intros t' w. rewrite lookup_delete_Some. intros [Hne Hw]. apply ki_waits0 in Hw as [Ht' ?].
    split; [set_solver|done].
  - intros t' Ht'. destruct (HZ' t') as [Hz Hne]; [set_solver|].
    destruct (ki_sleep0 t' Ht') as (w & th' & Hw & Hth' & Hs & Hb).
    destruct (HT t' th' Hth' Hz) as (th'' & ? & ? & Ha & _). exists w, th''.
    rewrite HW by set_solver. rewrite Ha by done. done.
  - intros t' th'' Ht'' Hth''. destruct (HZ' t' Ht'') as [Hz Hne].
    destruct (listed_thread F (ts s) (t :: R) S Zs t') as [th' Hth']; [by exists B, sl, zs, rq|set_solver|].
    destruct (HT t' th' Hth' Hz) as (th3 & ? & Er & _). simplify_eq. rewrite Er, HW by done.
    apply ki_resume0; [set_solver|done].
  - intros t' th'' Ht'' Hth''. destruct (HZ' t' Ht'') as [Hz Hne].
    destruct (listed_thread F (ts s) (t :: R) S Zs t') as [th' Hth']; [by exists B, sl, zs, rq|set_solver|].
    destruct (HT t' th' Hth' Hz) as (th3 & ? & _ & _ & Ef). simplify_eq.
    rewrite (decide_False (P := curthread x' = 0 /\ t' = switching x')) by naive_solver.
    rewrite HW by done. rewrite <- (ki_int0 t' th') by (done || set_solver). rewrite Ef, Hc.
    repeat case_decide; naive_solver.
Qed.

(** ** Single calls *)

Lemma kt_Done {A} (m : M (tsys H VN) A) s a x : m (ts s) = Done a x -> kt m s = Done a (set_ts x s).
Proof. intros E. unfold kt, zoom. simpl. by rewrite E. Qed.
Lemma kt_Panic {A} (m : M (tsys H VN) A) s : m (ts s) = Panic -> kt m s = Panic.
Proof. intros E. unfold kt, zoom. simpl. by rewrite E. Qed.
Lemma kt_gets {A} (f : tsys H VN -> A) s : kt (fun x => Done (f x) x) s = Done (f (ts s)) s.
Proof. by destruct s. Qed.
Lemma kt_splx n s : kt (splx n) s = Done (curspl (ts s)) (set_ts (set_curspl n (ts s)) s).
Proof. done. Qed.
Lemma get_sem_eq p s y : sems s !! p = Some y -> get_sem p s = Done y s.
Proof. intros E. unfold get_sem. munfold. unfold id. by rewrite E. Qed.
Lemma get_lock_eq p s y : locks s !! p = Some y -> get_lock p s = Done y s.
Proof. intros E. unfold get_lock. munfold. unfold id. by rewrite E. Qed.

(** Room for every thread in the tables the calls add to. *)
Definition room_sl x : Prop := exists sl, sleepers x = Some sl /\ numthreads x <= max sl.
Definition room_rq x : Prop := exists q, runqueue x = Some q /\ numthreads x < size q.
Definition room_zs x : Prop := exists zs, zombies x = Some zs /\ num zs < max zs.

(** A call either panics, for want of room, or ends as [Q] says. *)
Definition ends {A} (room : Prop) (o : outcome (ksys H VN) A) (Q : A -> ksys H VN -> Prop) : Prop :=
  (o = Panic /\ ~ room) \/ exists a s', o = Done a s' /\ Q a s'.

(** The counts of the semaphores and the holders of the locks. *)
Definition counts s : gmap Z Z := count <$> sems s.
Definition holders s : gmap Z Z := holder <$> locks s.

Definition same_objs s s' : Prop := sems s' = sems s /\ locks s' = locks s.

Lemma sleep_step F s R S Zs addr w :
  let c := curthread (ts s) in
  kinv F s R S Zs -> c <> 0 -> curspl (ts s) > 0 -> sleeping_on w = Some addr -> blocked s w -> refs s w ->
  (thread_sleep addr (ts s) = Panic /\ ~ room_sl (ts s)) \/
  exists x', thread_sleep addr (ts s) = Done true x' /\
    kinv F (set_waits (<[c := w]> (waits s)) (set_ts x' s)) R (S ++ [c]) Zs.
Proof.
  intros c K Hc Hspl Ha Hb Hr. pose proof (ki_cur _ _ _ _ _ _ K Hc) as Hi.
  pose proof (ki_thr _ _ _ _ _ _ K) as (B & sl & zs & rq & I).
  destruct (thread_sleep_inv (KmallocSpec0 := framed_spec F) _ _ _ _ _ _ _ _ addr I Hc Hspl Hi)
    as [(Hf & E)|(x' & th & E & Hc' & I' & Hth & SO)].
  - left. split; [done|]. intros (sl' & Esl & Hm). pose proof (ti_tbl _ _ _ _ _ _ _ _ I) as T.
    rewrite (tb_sleepers _ _ _ _ _ _ _ _ T) in Esl. simplify_eq.
    destruct (part_cur_lengths _ _ _ _ (ti_part _ _ _ _ _ _ _ _ I) Hc). lia.
  - right. exists x'. split; [done|].
    eapply (kinv_out F s (ts s) x' R S Zs R (S ++ [c]) _ (Some w)); try done.
    + rewrite Hi. by destruct w.
    + set_solver.
    + intros t Ht. apply elem_of_app in Ht as [?|Ht]; [by left|]. apply list_elem_of_singleton in Ht as ->.
      right. split; [done|]. by exists w.
    + by intros ? [= <-].
Qed.

Lemma room_rq_wake F x R S Zs B sl zs rq addr :
  tinv_at (KmallocSpec0 := framed_spec F) x B sl zs rq R S Zs ->
  size rq <= Z.of_nat (length R + length (on_addr x addr S)) -> ~ room_rq x.
Proof.
  intros I Hf (q & Eq & Hq). pose proof (ti_tbl _ _ _ _ _ _ _ _ I) as T.
  rewrite (tb_runqueue _ _ _ _ _ _ _ _ T) in Eq. simplify_eq.
  pose proof (pt_count _ _ _ _ (ti_part _ _ _ _ _ _ _ _ I)) as En. rewrite !length_app in En.
  pose proof (length_filter (fun t => t_sleepaddr <$> threads x !! t = Some addr) S).
  unfold on_addr in Hf. lia.
Qed.

Lemma wake_step ex F s R S Zs addr :
  kinvx ex F s R S Zs -> (ex = None \/ ex = Some addr) -> curspl (ts s) > 0 ->
  (thread_wakeup addr (ts s) = Panic /\ ~ room_rq (ts s)) \/
  exists x' R' S', thread_wakeup addr (ts s) = Done tt x' /\ same_rest (ts s) x' /\
    kinv F (set_ts x' s) R' S' Zs /\ (room_rq (ts s) -> room_rq x').
Proof.
  intros K Hex Hspl. pose proof (ki_thr _ _ _ _ _ _ K) as (B & sl & zs & rq & I).
  destruct (thread_wakeup_inv (KmallocSpec0 := framed_spec F) _ _ _ _ _ _ _ _ addr I Hspl)
    as [(Hf & E)|(x' & E & SR & I' & Hq)].
  - left. split; [done|]. by eapply room_rq_wake.
  - right. exists x', (R ++ on_addr (ts s) addr S), (off_addr (ts s) addr S). split; [done|]. split; [done|].
    split; [by eapply kinv_wake|]. intros Hrm. destruct (decide (Z.of_nat (length R + length (on_addr (ts s) addr S)) < size rq)) as [Hlt|Hge].
    + destruct (Hq Hlt) as (rq' & ? & ?). exists rq'. split; [done|].
      destruct Hrm as (q & Eq & ?). rewrite (tb_runqueue _ _ _ _ _ _ _ _ (ti_tbl _ _ _ _ _ _ _ _ I)) in Eq.
      injection Eq as <-. rewrite (sr_num _ _ SR). lia.
    + exfalso. eapply (room_rq_wake F (ts s) R S Zs B sl zs rq addr); [done|lia|done].
Qed.

Lemma owns_perm B l l' : l ≡ₚ l' -> owns B l -> owns B l'.
Proof. intros E. by rewrite E. Qed.

(** Changing the count of a semaphore; [ex] must cover its sleepers if the
    count becomes positive. *)
Lemma kinv_count ex F s R S Zs p y n :
  kinv F s R S Zs -> sems s !! p = Some y -> 0 <= n < 2 ^ 31 ->
  (ex = Some p \/ ex = None /\ count y > 0) ->
  kinvx ex F (set_sems (<[p := set_count n y]> (sems s)) s) R S Zs.
Proof.
  intros [] Hy Hn Hex. split; try done; simpl.
  - eapply owns_perm; [|done]. unfold sync_blocks. simpl. by rewrite sem_blocks_count.
  - intros t w Hw. destruct (ki_waits0 t w Hw) as [? Hr]. split; [done|]. destruct w; try done. simpl in *.
    rewrite lookup_insert_is_Some. destruct (decide (p = sem)); auto.
  - intros t Ht. destruct (ki_sleep0 t Ht) as (w & th & ? & ? & Hs & Hb). exists w, th. split_and!; try done.
    intros Hne. specialize (Hb ltac:(done)). destruct w as [q ?| | |]; try done. simpl in *.
    destruct Hb as (y' & Hy' & Hz). destruct (decide (q = p)) as [->|].
    + destruct Hex as [->|[-> ?]]; [congruence|]. simplify_eq. lia.
    + exists y'. by rewrite lookup_insert_ne.
  - intros q y'. rewrite lookup_insert_Some. intros [[<- <-]|[_ ?]]; [done|eauto].
Qed.

(** Taking or releasing a lock. *)
Lemma kinv_lock ex F s R S Zs p y a h :
  kinv F s R S Zs -> locks s !! p = Some y -> lock_ok (set_lock_state a h y) ->
  (ex = Some p \/ ex = None /\ available y = 1) ->
  kinvx ex F (set_locks (<[p := set_lock_state a h y]> (locks s)) s) R S Zs.
Proof.
  intros [] Hy Hn Hex. split; try done; simpl.
  - eapply owns_perm; [|done]. unfold sync_blocks. simpl. by rewrite lock_blocks_state.
  - intros t w Hw. destruct (ki_waits0 t w Hw) as [? Hr]. split; [done|]. destruct w; try done. simpl in *.
    rewrite lookup_insert_is_Some. destruct (decide (p = lk)); auto.
  - intros t Ht. destruct (ki_sleep0 t Ht) as (w & th & ? & ? & Hs & Hb). exists w, th. split_and!; try done.
    intros Hne. specialize (Hb ltac:(done)). destruct w as [|q ?| |]; try done. simpl in *.
    destruct Hb as (y' & Hy' & Hz). destruct (decide (q = p)) as [->|].
    + destruct Hex as [->|[-> ?]]; [congruence|]. simplify_eq. lia.
    + exists y'. by rewrite lookup_insert_ne.
  - intros q y'. rewrite lookup_insert_Some. intros [[<- <-]|[_ ?]]; [done|eauto].
Qed.

Definition kok (F : gmap Z Z) s : Prop := exists R S Zs, kinv F s R S Zs.

Lemma counts_insert s p y n :
  count <$> (<[p := set_count n y]> (sems s)) = <[p := n]> (counts s).
Proof. unfold counts. by rewrite fmap_insert. Qed.

Lemma holders_insert s p y a h :
  holder <$> (<[p := set_lock_state a h y]> (locks s)) = <[p := h]> (holders s).
Proof. unfold holders. by rewrite fmap_insert. Qed.

Lemma P_loop_spec F s R S Zs p y spl :
  kinv F s R S Zs -> curthread (ts s) <> 0 -> curspl (ts s) > 0 -> sems s !! p = Some y ->
  ends (room_sl (ts s)) (P_loop p spl s) (fun b s' => kok F s' /\ holders s' = holders s /\
    if b : bool then count y > 0 /\ counts s' = <[p := count y - 1]> (counts s) /\
                     curthread (ts s') = curthread (ts s)
    else counts s' = counts s).
Proof.
  intros K Hc Hspl Hy. pose proof (ki_sem _ _ _ _ _ _ K p y Hy) as Hn.
  unfold P_loop. munfold. rewrite (get_sem_eq p s y Hy). case_decide as D.
  - rewrite kt_gets. destruct (sleep_step F s R S Zs p (InP p spl) K Hc Hspl) as [(E & Hr)|(x' & E & K')];
      [done|by exists y|by exists y|..].
    + left. by rewrite (kt_Panic _ _ E).
    + right. rewrite (kt_Done _ _ _ _ E). eexists _, _. split; [done|]. split; [by exists R, (S ++ [curthread (ts s)]), Zs|].
      done.
  - rewrite bool_decide_eq_true_2 by lia. right. eexists _, _. split; [done|].
    rewrite s32_small by lia. split; [|split; [done|simpl; unfold counts; simpl; rewrite counts_insert; split; [lia|done]]].
    exists R, S, Zs. set (s1 := set_sems _ s).
    assert (K1 : kinv F s1 R S Zs) by (apply kinv_count; try done; [lia|right; split; [done|lia]]).
    by apply (kinv_spl None F s1).
Qed.

Lemma P_spec F s R S Zs p y :
  kinv F s R S Zs -> curthread (ts s) <> 0 -> p <> 0 -> sems s !! p = Some y ->
  ends (room_sl (ts s)) (P p s) (fun b s' => kok F s' /\ holders s' = holders s /\
    if b : bool then count y > 0 /\ counts s' = <[p := count y - 1]> (counts s) /\
                     curthread (ts s') = curthread (ts s)
    else counts s' = counts s).
Proof.
  intros K Hc Hp Hy. unfold P. munfold. rewrite bool_decide_eq_true_2 by done. rewrite kt_gets.
  rewrite bool_decide_eq_true_2 by (by apply (ki_cur _ _ _ _ _ _ K)).
  unfold splhigh. rewrite kt_splx.
  apply (P_loop_spec F (set_ts (set_curspl SPL_HIGH (ts s)) s) R S Zs p y (curspl (ts s))); try done.
  by apply kinv_spl.
Qed.

Lemma V_spec F s R S Zs p y :
  kinv F s R S Zs -> curthread (ts s) <> 0 -> p <> 0 -> sems s !! p = Some y -> count y + 1 < 2 ^ 31 ->
  ends (room_rq (ts s)) (V p s) (fun _ s' => kok F s' /\ holders s' = holders s /\
    counts s' = <[p := count y + 1]> (counts s) /\ curthread (ts s') = curthread (ts s)).
Proof.
  intros K Hc Hp Hy Hlt. pose proof (ki_sem _ _ _ _ _ _ K p y Hy) as Hn.
  unfold V. munfold. rewrite bool_decide_eq_true_2 by done. unfold splhigh. rewrite kt_splx.
  set (s1 := set_ts _ s). rewrite (get_sem_eq p s1 y Hy), s32_small by lia.
  assert (K1 : kinv F s1 R S Zs) by (by apply kinv_spl).
  unfold put_sem. munfold. rewrite bool_decide_eq_true_2 by lia.
  assert (K2 : kinvx (Some p) F (set_sems (<[p := set_count (count y + 1) y]> (sems s1)) s1) R S Zs)
    by (apply kinv_count; try done; [lia|by left]).
  set (s2 := set_sems _ s1) in *.
  destruct (wake_step _ _ _ _ _ _ p K2) as [(E & Hr)|(x' & R' & S' & E & SR & K' & _)]; [by right|done|..].
  - left. rewrite (kt_Panic _ _ E). done.
  - right. rewrite (kt_Done _ _ _ _ E). eexists _, _. split; [done|].
    split; [exists R', S', Zs; apply (kinv_spl None F (set_ts x' s2) R' S' Zs _ K'); simpl; by rewrite (sr_cur _ _ SR)|].
    split; [done|]. split; [unfold counts; simpl; apply counts_insert|]. simpl. apply (sr_cur _ _ SR).
Qed.

Lemma acquire_loop_spec F s R S Zs l y spl :
  kinv F s R S Zs -> curthread (ts s) <> 0 -> curspl (ts s) > 0 -> locks s !! l = Some y ->
  ends (room_sl (ts s)) (lock_acquire_loop l spl s) (fun b s' => kok F s' /\ counts s' = counts s /\
    if b : bool then holder y = 0 /\ holders s' = <[l := curthread (ts s)]> (holders s) /\
                     curthread (ts s') = curthread (ts s)
    else holders s' = holders s).
Proof.
  intros K Hc Hspl Hy. pose proof (ki_lock _ _ _ _ _ _ K l y Hy) as Hl.
  unfold lock_acquire_loop. munfold. rewrite (get_lock_eq l s y Hy), kt_gets. case_decide as D.
  - destruct (sleep_step F s R S Zs l (InAcquire l spl) K Hc Hspl) as [(E & Hr)|(x' & E & K')];
      [done|by exists y|by exists y|..].
    + left. by rewrite (kt_Panic _ _ E).
    + right. rewrite (kt_Done _ _ _ _ E). eexists _, _. split; [done|]. split; [by exists R, (S ++ [curthread (ts s)]), Zs|].
      done.
  - destruct Hl as [[Ha Hh]|[Ha _]]; [|done]. rewrite bool_decide_eq_true_2 by done.
    right. eexists _, _. split; [done|].
    split; [|split; [done|simpl; unfold holders; simpl; by rewrite holders_insert]].
    exists R, S, Zs. set (s1 := set_locks _ s).
    assert (K1 : kinv F s1 R S Zs) by (apply kinv_lock; try done; [by right|by right]).
    by apply (kinv_spl None F s1).
Qed.

Lemma acquire_spec F s R S Zs l y :
  kinv F s R S Zs -> curthread (ts s) <> 0 -> l <> 0 -> locks s !! l = Some y ->
  ends (room_sl (ts s)) (lock_acquire l s) (fun b s' => kok F s' /\ counts s' = counts s /\
    if b : bool then holder y = 0 /\ holders s' = <[l := curthread (ts s)]> (holders s) /\
                     curthread (ts s') = curthread (ts s)
    else holders s' = holders s).
Proof.
  intros K Hc Hp Hy. unfold lock_acquire. munfold. rewrite bool_decide_eq_true_2 by done.
  unfold splhigh. rewrite kt_splx.
  apply (acquire_loop_spec F (set_ts (set_curspl SPL_HIGH (ts s)) s) R S Zs l y (curspl (ts s))); try done.
  by apply kinv_spl.
Qed.

Lemma do_i_hold_eq l s y :
  l <> 0 -> locks s !! l = Some y ->
  lock_do_i_hold l s = Done (if decide (holder y = curthread (ts s)) then 1 else 0) s.
Proof.
  intros Hl Hy. unfold lock_do_i_hold. munfold. rewrite bool_decide_eq_true_2 by done.
  by rewrite (get_lock_eq l s y Hy), kt_gets.
Qed.

Lemma release_spec F s R S Zs l y :
  kinv F s R S Zs -> curthread (ts s) <> 0 -> l <> 0 -> locks s !! l = Some y ->
  ends (room_rq (ts s)) (lock_release l s) (fun b s' => kok F s' /\ counts s' = counts s /\
    b = bool_decide (holder y = curthread (ts s)) /\ curthread (ts s') = curthread (ts s) /\
    holders s' = if b : bool then <[l := 0]> (holders s) else holders s).
Proof.
  intros K Hc Hp Hy. unfold lock_release. munfold. rewrite bool_decide_eq_true_2 by done.
  unfold splhigh. rewrite kt_splx. set (s1 := set_ts _ s).
  assert (K1 : kinv F s1 R S Zs) by (by apply kinv_spl).
  rewrite (do_i_hold_eq l s1 y Hp Hy). change (curthread (ts s1)) with (curthread (ts s)).
  destruct (decide (holder y = curthread (ts s))) as [Eh|Eh]; simpl.
  - rewrite (get_lock_eq l s1 y Hy). unfold put_lock. munfold.
    assert (K2 : kinvx (Some l) F (set_locks (<[l := set_lock_state 1 0 y]> (locks s1)) s1) R S Zs)
      by (apply kinv_lock; try done; [by left|by left]).
    set (s2 := set_locks _ s1) in *.
    destruct (wake_step _ _ _ _ _ _ l K2) as [(E & Hr)|(x' & R' & S' & E & SR & K' & _)]; [by right|done|..].
    + left. rewrite (kt_Panic _ _ E). done.
    + right. rewrite (kt_Done _ _ _ _ E). eexists _, _. split; [done|].
      split; [exists R', S', Zs; apply (kinv_spl None F (set_ts x' s2) R' S' Zs _ K'); simpl; by rewrite (sr_cur _ _ SR)|].
      split; [done|]. rewrite (bool_decide_eq_true_2 (holder y = _)) by done. split; [done|].
      split; [apply (sr_cur _ _ SR)|]. unfold holders; simpl; apply holders_insert.
  - right. eexists _, _. split; [done|]. split; [exists R, S, Zs; by apply (kinv_spl None F s1)|].
    split; [done|]. by rewrite (bool_decide_eq_false_2 (holder y = _)).
Qed.

(** A holder that releases a lock leaves the room there is. *)
Lemma release_room F s R S Zs l y b s' :
  kinv F s R S Zs -> curthread (ts s) <> 0 -> l <> 0 -> locks s !! l = Some y -> holder y = curthread (ts s) ->
  lock_release l s = Done b s' -> room_rq (ts s) -> room_rq (ts s').
Proof.
  intros K Hc Hp Hy Eh. unfold lock_release. munfold. rewrite bool_decide_eq_true_2 by done. unfold splhigh. rewrite kt_splx. set (s1 := set_ts _ s).
  assert (K1 : kinv F s1 R S Zs) by (by apply kinv_spl). rewrite (do_i_hold_eq l s1 y Hp Hy), (decide_True (P := holder y = curthread (ts s1))) by exact Eh. simpl.
  rewrite (get_lock_eq l s1 y Hy). unfold put_lock. munfold.
  assert (K2 : kinvx (Some l) F (set_locks (<[l := set_lock_state 1 0 y]> (locks s1)) s1) R S Zs) by (apply kinv_lock; try done; [by left|by left]).
  set (s2 := set_locks _ s1) in *. destruct (wake_step _ _ _ _ _ _ l K2) as [(E & _)|(x' & R' & S' & E & SR & _ & Hrm)]; [by right|done|..].
  - by rewrite (kt_Panic _ _ E).
  - rewrite (kt_Done _ _ _ _ E). intros [= _ <-] Hr. exact (Hrm Hr).
Qed.

Lemma try_acquire_spec F s R S Zs l y :
  kinv F s R S Zs -> curthread (ts s) <> 0 -> l <> 0 -> locks s !! l = Some y ->
  exists r s', lock_try_acquire_alert l s = Done r s' /\ kok F s' /\ counts s' = counts s /\
    curthread (ts s') = curthread (ts s) /\
    ((r = 1 /\ holder y = 0 /\ holders s' = <[l := curthread (ts s)]> (holders s)) \/
     (r = 0 /\ holder y <> 0 /\ holders s' = holders s)).
Proof.
  intros K Hc Hp Hy. pose proof (ki_lock _ _ _ _ _ _ K l y Hy) as Hl.
  unfold lock_try_acquire_alert. munfold. rewrite bool_decide_eq_true_2 by done.
  rewrite (do_i_hold_eq l s y Hp Hy).
  destruct (decide (holder y = curthread (ts s))) as [Eh|Eh].
  { rewrite decide_True by done. eexists _, s. split; [done|]. split; [by exists R, S, Zs|]. split; [done|]. split; [done|]. right.
    split; [done|]. split; [congruence|done]. }
  rewrite decide_False by (intros Hx; by apply Hx).
  unfold splhigh. rewrite kt_splx. set (s1 := set_ts _ s). rewrite (get_lock_eq l s1 y Hy).
  assert (K1 : kinv F s1 R S Zs) by (by apply kinv_spl).
  destruct Hl as [[Ha Hh]|[Ha Hh]]; rewrite Ha.
  - rewrite decide_False, bool_decide_eq_true_2, kt_gets by done. eexists _, _. split; [done|]. split; [|split; [done|split; [done|left; split; [done|split; [done|]]]]].
    + exists R, S, Zs. set (s2 := set_locks _ s1).
      assert (K2 : kinv F s2 R S Zs) by (apply kinv_lock; try done; [by right|by right]).
      by apply (kinv_spl None F s2).
    + unfold holders; simpl; apply holders_insert.
  - rewrite decide_True by done.
    eexists _, _. split; [done|]. split; [exists R, S, Zs; by apply (kinv_spl None F s1)|].
    split; [done|]. split; [done|]. by right.
Qed.

(** ** The clock *)

Lemma clocksleep_loop_spec F s R S Zs n spl :
  kinv F s R S Zs -> curthread (ts s) <> 0 -> curspl (ts s) > 0 ->
  ends (room_sl (ts s)) (clocksleep_loop lbolt n spl s) (fun _ s' => kok F s' /\ same_objs s s').
Proof.
  intros K Hc Hspl. unfold clocksleep_loop. munfold. case_decide as D.
  - rewrite kt_gets.
    destruct (sleep_step F s R S Zs lbolt (InClock n spl) K Hc Hspl) as [(E & Hr)|(x' & E & K')]; try done.
    + left. by rewrite (kt_Panic _ _ E).
    + right. rewrite (kt_Done _ _ _ _ E). eexists _, _. split; [done|].
      split; [by exists R, (S ++ [curthread (ts s)]), Zs|done].
  - right. eexists _, _. split; [done|]. split; [exists R, S, Zs; by apply kinv_spl|done].
Qed.

Definition in_handler x : tsys H VN := set_in_interrupt 1 (set_curspl SPL_HIGH x).
Definition out_handler x0 x : tsys H VN := set_curspl (curspl x0) (set_in_interrupt (in_interrupt x0) x).

Lemma tinvF_handler F x R S Zs : tinvF F x R S Zs -> tinvF F (in_handler x) R S Zs.
Proof.
  intros (B & sl & zs & rq & [T P C]). exists B, sl, zs, rq. split; [by eapply tbl_same| |done].
  eapply (part_same x); try done.
Qed.

Lemma tinvF_unhandler F x0 x R S Zs R' S' :
  tinvF F x0 R S Zs -> same_rest (in_handler x0) x -> tinvF F x R' S' Zs -> tinvF F (out_handler x0 x) R' S' Zs.
Proof.
  intros I0 SR (B & sl & zs & rq & [T P C]). exists B, sl, zs, rq. split; [by eapply tbl_same| |done].
  eapply (part_same x); try done. rewrite (sr_cur _ _ SR). intros E. split; [|done].
  by apply (pt_idle _ _ _ _ (tinvF_part _ _ _ _ _ I0)).
Qed.

Lemma same_rest_unhandler x0 x : same_rest (in_handler x0) x -> same_rest x0 (out_handler x0 x).
Proof. intros []. by split. Qed.

Lemma kinv_tick F s R S Zs x n :
  kinv F s R S Zs -> x = ts s -> kinv F (set_ts x (set_lbolt_counter n s)) R S Zs.
Proof. intros [] ->. by split. Qed.

Lemma lbolt_tick_spec F s R S Zs :
  kinv F s R S Zs ->
  let s1 := set_ts (in_handler (ts s)) s in
  (lbolt_tick lbolt HZ s1 = Panic /\ ~ room_rq (ts s)) \/
  exists x n R' S', lbolt_tick lbolt HZ s1 = Done tt (set_ts x (set_lbolt_counter n s)) /\
    same_rest (in_handler (ts s)) x /\ tinvF F x R' S' Zs /\
    kinv F (set_ts (out_handler (ts s) x) (set_lbolt_counter n s)) R' S' Zs /\
    (room_rq (ts s) -> room_rq x).
Proof.
  intros K s1. pose proof (tinvF_handler _ _ _ _ _ (ki_thr _ _ _ _ _ _ K)) as I1.
  unfold lbolt_tick. munfold. simpl. case_decide as D.
  - pose proof I1 as (B & sl & zs & rq & I).
    destruct (thread_wakeup_inv (KmallocSpec0 := framed_spec F) _ _ _ _ _ _ _ _ lbolt I)
      as [(Hf & E)|(x' & E & SR & I' & Hq)]; [done|..].
    + left. unfold kt, zoom. simpl. rewrite E. split; [done|].
      by apply (room_rq_wake F (in_handler (ts s)) R S Zs B sl zs rq lbolt).
    + right. exists x', 0, (R ++ on_addr (ts s) lbolt S), (off_addr (ts s) lbolt S). split.
      { unfold kt, zoom. simpl. by rewrite E. }
      split; [done|]. split; [done|]. split.
      * assert (K0 : kinv F (set_ts (ts s) (set_lbolt_counter 0 s)) R S Zs) by (by apply kinv_tick).
        apply (kinv_wake None F _ (out_handler (ts s) x') R S Zs lbolt K0); [by left| |].
        -- by apply same_rest_unhandler.
        -- eapply tinvF_unhandler; [apply K|done|done].
      * intros Hrm. destruct (decide (Z.of_nat (length R + length (on_addr (in_handler (ts s)) lbolt S)) < size rq)) as [Hlt|Hge].
        -- destruct (Hq Hlt) as (rq' & ? & ?). exists rq'. split; [done|]. destruct Hrm as (q & Eq & ?).
           pose proof (tb_runqueue _ _ _ _ _ _ _ _ (ti_tbl _ _ _ _ _ _ _ _ I)) as Eq'. simpl in Eq'.
           rewrite Eq' in Eq. injection Eq as <-. rewrite (sr_num _ _ SR). simpl. lia.
        -- exfalso. eapply (room_rq_wake F (in_handler (ts s)) R S Zs B sl zs rq lbolt); [done|lia|done].
  - right. eexists (in_handler (ts s)), _, R, S. split; [done|]. split; [done|]. split; [done|]. split; [|done].
    apply kinv_tick; [done|]. by destruct s as [[] ? ? ? ? ?].
Qed.

(** A clock interrupt in the idle loop finds no thread to switch out. *)
Lemma thread_yield_idle x sl :
  sleepers x = Some sl -> curthread x = 0 ->
  thread_yield x = Done false (set_curspl (curspl x) (set_curspl SPL_HIGH x)).
Proof.
  intros Esl Hc. unfold thread_yield, splhigh, splx. munfold.
  rewrite bool_decide_eq_true_2 by (simpl; rewrite Esl; eauto).
  unfold mi_switch_out, assert_spl, check_magic. munfold. rewrite bool_decide_eq_true_2 by done.
  simpl. rewrite Hc. rewrite decide_False by (by intros []). done.
Qed.

Lemma timer_spec F s R S Zs :
  kinv F s R S Zs ->
  ends (room_rq (ts s)) (timer_interrupt lbolt HZ s) (fun _ s' => kok F s' /\ same_objs s s').
Proof.
  intros K. unfold timer_interrupt, hardclock. munfold. rewrite !kt_gets.
  change (kt (fun x => Done tt (set_curspl SPL_HIGH x)) s) with
    (Done tt (set_ts (set_curspl SPL_HIGH (ts s)) s)). cbv beta match. rewrite kt_gets.
  change (kt (fun x => Done tt (set_in_interrupt 1 x)) (set_ts (set_curspl SPL_HIGH (ts s)) s)) with
    (Done tt (set_ts (in_handler (ts s)) s)). cbv beta match.
  unfold assert_spl. munfold.
  change (kt _ (set_ts (in_handler (ts s)) s)) with (Done tt (set_ts (in_handler (ts s)) s)) at 1. cbv beta match.
  destruct (lbolt_tick_spec F s R S Zs K) as [(E & Hr)|(x & n & R' & S' & E & SR & I' & K' & Hrm)];
    rewrite E; [by left|].
  set (s2 := set_lbolt_counter n s) in *. pose proof SR as [Et Ec Es En Ep Ei Ev].
  destruct (decide (curthread (ts s) = 0)) as [Hc|Hc].
  - right. pose proof I' as (B & sl & zs & rq & I).
    pose proof (tb_sleepers _ _ _ _ _ _ _ _ (ti_tbl _ _ _ _ _ _ _ _ I)) as Esl.
    assert (Hc2 : curthread x = 0) by (by rewrite Ec).
    rewrite (kt_Done _ (set_ts x s2) _ _ (thread_yield_idle x sl Esl Hc2)). eexists _, _. split; [done|].
    split; [exists R', S', Zs|done]. simpl. rewrite Ep.
    replace (set_curspl _ _) with (out_handler (ts s) x); [done|]. by destruct x.
  - pose proof I' as (B & sl & zs & rq & I).
    destruct (thread_yield_inv (KmallocSpec0 := framed_spec F) _ _ _ _ _ _ _ _ I)
      as [(Hf & E2)|(x' & th & E2 & Hc' & I2 & Hth & SO)]; [by rewrite Ec|..].
    + left. rewrite (kt_Panic _ (set_ts x s2) E2). split; [done|]. intros Hr. destruct (Hrm Hr) as (q & Eq & Hlt).
      rewrite (tb_runqueue _ _ _ _ _ _ _ _ (ti_tbl _ _ _ _ _ _ _ _ I)) in Eq. injection Eq as <-.
      destruct (part_cur_lengths _ _ _ _ (ti_part _ _ _ _ _ _ _ _ I)); [by rewrite Ec|]. lia.
    + right. rewrite (kt_Done _ (set_ts x s2) _ _ E2). eexists _, _. split; [done|].
      split; [eexists _, _, _|done]. simpl in Ec. rewrite <- Ec. rewrite <- Ec in Hc.
      eapply (kinv_out F _ x x' R' S' Zs (R' ++ [curthread x]) S' _
        (Some (InIntr (in_interrupt (ts s)) (curspl (ts s)))) K'); try done.
      * simpl. set_solver.
      * by left.
      * intros w [= <-]. simpl. apply (ki_cur _ _ _ _ _ _ K). by rewrite <- Ec.
      * simpl. split; [done|]. by intros [].
Qed.

(** ** Thread calls *)

Lemma yield_spec F s R S Zs :
  kinv F s R S Zs -> curthread (ts s) <> 0 ->
  ends (room_rq (ts s)) (kt thread_yield s) (fun _ s' => kok F s' /\ same_objs s s').
Proof.
  intros K Hc. pose proof (ki_thr _ _ _ _ _ _ K) as (B & sl & zs & rq & I).
  destruct (thread_yield_inv (KmallocSpec0 := framed_spec F) _ _ _ _ _ _ _ _ I Hc)
    as [(Hf & E)|(x' & th & E & Hc' & I2 & Hth & SO)].
  - left. rewrite (kt_Panic _ s E). split; [done|]. intros (q & Eq & Hlt).
    rewrite (tb_runqueue _ _ _ _ _ _ _ _ (ti_tbl _ _ _ _ _ _ _ _ I)) in Eq. injection Eq as <-.
    destruct (part_cur_lengths _ _ _ _ (ti_part _ _ _ _ _ _ _ _ I) Hc). lia.
  - right. rewrite (kt_Done _ s _ _ E). eexists _, _. split; [done|]. split; [|done].
    exists (R ++ [curthread (ts s)]), S, Zs.
    eassert (KO := kinv_out F s (ts s) x' R S Zs (R ++ [curthread (ts s)]) S _ None K Hc).
    destruct s. apply KO; try done.
    + by apply K.
    + set_solver.
    + by left.
    + simpl. split; [done|]. by intros [].
Qed.

(** The thread list of an exiting thread loses it. *)
Lemma kinv_exit F s x' R S Zs Zs' th' :
  let c := curthread (ts s) in
  kinv F s R S Zs -> c <> 0 -> tinvF F x' R S Zs' -> curthread x' = 0 ->
  threads x' = <[c := th']> (threads (ts s)) -> in_interrupt x' = in_interrupt (ts s) ->
  switching x' = c -> kinv F (set_ts x' s) R S Zs'.
Proof.
  intros c K Hc I' Hc' Et Ei Es. pose proof K as [].
  pose proof (cur_not_listed _ _ _ _ _ ki_thr0 Hc) as Hnl. fold c in Hnl.
  assert (HT : forall t, t ∈ R ++ S -> threads x' !! t = threads (ts s) !! t).
  { intros t Ht. rewrite Et, lookup_insert_ne; [done|]. by intros <-. }
  split; simpl; try done.
  - intros t Ht. rewrite HT by set_solver. by apply ki_sleep0.
  - intros t th Ht. rewrite HT by done. by apply ki_resume0.
  - intros t th Ht. rewrite HT by done. intros Hth. specialize (ki_int0 t th Ht Hth).
    rewrite decide_False in ki_int0 by (by intros [? _]).
    rewrite decide_False; [done|]. rewrite Es. intros [_ ->]. done.
Qed.

Lemma exit_spec F s R S Zs :
  kinv F s R S Zs -> top_ok (ts s) TExit ->
  ends (room_zs (ts s)) (kt thread_exit s) (fun _ s' => kok F s' /\ same_objs s s').
Proof.
  intros K [Hc Hd]. pose proof (ki_thr _ _ _ _ _ _ K) as (B & sl & zs & rq & I).
  destruct (thread_exit_inv (KmallocSpec0 := framed_spec F) _ _ _ _ _ _ _ _ I Hc Hd)
    as [(Hf & E)|(x' & th' & E & Hc' & I2 & Et & Ei & Es)].
  - left. rewrite (kt_Panic _ s E). split; [done|]. intros (q & Eq & Hlt).
    pose proof (ti_tbl _ _ _ _ _ _ _ _ I) as T.
    rewrite (tb_zombies _ _ _ _ _ _ _ _ T) in Eq. injection Eq as <-.
    pose proof (num_length zs Zs (tb_wf_zs _ _ _ _ _ _ _ _ T) (tb_Z _ _ _ _ _ _ _ _ T)). lia.
  - right. rewrite (kt_Done _ s _ _ E). eexists _, _. split; [done|]. split; [|done].
    exists R, S, (Zs ++ [curthread (ts s)]). by eapply kinv_exit.
Qed.

Lemma kinv_fork F s x' R S Zs t th :
  kinv F s R S Zs -> curthread (ts s) <> 0 -> threads (ts s) !! t = None -> curthread x' = curthread (ts s) ->
  tinvF F x' (R ++ [t]) S Zs -> in_interrupt x' = in_interrupt (ts s) ->
  threads x' = <[t := th]> (threads (ts s)) -> t_pcb th = mkpcb AtStart 0 ->
  kinv F (set_ts x' s) (R ++ [t]) S Zs.
Proof.
  intros K Hc Hn Ec I' Ei Et Ep. pose proof K as [].
  assert (Hnt : t ∉ R ++ S).
  { intros Hin. destruct (listed_thread _ _ _ _ _ _ ki_thr0 Hin) as [th' Hth']. congruence. }
  assert (Hw : waits s !! t = None).
  { destruct (waits s !! t) eqn:E; [|done]. by apply ki_waits0 in E as [? _]. }
  assert (HL : forall t', t' ∈ (R ++ [t]) ++ S -> t' = t \/ t' <> t /\ t' ∈ R ++ S) by set_solver.
  split; simpl; try done.
  - intros t' w Hw'. apply ki_waits0 in Hw' as [??]. split; [set_solver|done].
  - intros t' Ht. rewrite Et, lookup_insert_ne; [by apply ki_sleep0|]. intros <-. set_solver.
  - intros t' th' Ht. rewrite Et. destruct (HL t' Ht) as [->|[Hne Ht']].
    + rewrite lookup_insert_eq, Hw. intros [= <-]. rewrite Ep. simpl. split; [done|]. by intros [].
    + rewrite lookup_insert_ne by done. by apply ki_resume0.
  - intros t' th' Ht. rewrite Et, Ec. rewrite decide_False by (by intros [? _]).
    destruct (HL t' Ht) as [->|[Hne Ht']].
    + rewrite lookup_insert_eq, Hw. intros [= <-]. by rewrite Ep.
    + rewrite lookup_insert_ne by done. intros Hth. specialize (ki_int0 t' th' Ht' Hth).
      by rewrite decide_False in ki_int0 by (by intros [? _]).
  - rewrite Ec, Ei. done.
Qed.

Lemma kinv_same_threads F s x' R S Zs :
  kinv F s R S Zs -> curthread (ts s) <> 0 -> tinvF F x' R S Zs -> curthread x' = curthread (ts s) ->
  threads x' = threads (ts s) -> in_interrupt x' = in_interrupt (ts s) -> kinv F (set_ts x' s) R S Zs.
Proof.
  intros [] Hc I' Ec Et Ei. split; simpl; rewrite ?Et, ?Ec, ?Ei; try done.
  intros t th Ht Hth. specialize (ki_int0 t th Ht Hth).
  rewrite decide_False in ki_int0 by (by intros [? _]). by rewrite decide_False by (by intros [? _]).
Qed.

Lemma fork_spec F s R S Zs len :
  kinv F s R S Zs -> top_ok (ts s) (TFork len) ->
  (exists s', kt (thread_fork len) s = Fail ENOMEM s' /\ kok F s' /\ same_objs s s') \/
  (exists t s', kt (thread_fork len) s = Done t s' /\ kok F s' /\ same_objs s s').
Proof.
  intros K (Hc & Hlen & Hsz & Hinc). pose proof (ki_thr _ _ _ _ _ _ K) as (B & sl & zs & rq & I).
  rewrite (part_size _ R S Zs) in Hsz by apply I.
  destruct (thread_fork_inv (KmallocSpec0 := framed_spec F) _ _ _ _ _ _ _ _ len I Hc Hlen Hsz Hinc)
    as [(x' & E & (U1 & U2 & U3 & U4 & U5 & U6 & U7 & _) & I')|(t & x' & E & Ht & _ & Hc' & _ & I' & Ei & th & Et & Ep)].
  - left. eexists. split; [unfold kt, zoom; simpl; by rewrite E|]. split; [|done].
    exists R, S, Zs. by apply kinv_same_threads.
  - right. rewrite (kt_Done _ s _ _ E). eexists _, _. split; [done|]. split; [|done].
    exists (R ++ [t]), S, Zs. by eapply kinv_fork.
Qed.

(** What the thread that was switched in completed. *)
Definition completed (r : option (wait * bool)) s s' : Prop :=
  match r with
  | Some (InP p _, true) => exists n, counts s !! p = Some n /\ n > 0 /\
      counts s' = <[p := n - 1]> (counts s) /\ holders s' = holders s
  | Some (InAcquire l _, true) => holders s !! l = Some 0 /\ curthread (ts s') <> 0 /\
      holders s' = <[l := curthread (ts s')]> (holders s) /\ counts s' = counts s
  | _ => counts s' = counts s /\ holders s' = holders s
  end.

Lemma set_in_interrupt_id x : in_interrupt x = 0 -> set_in_interrupt 0 x = x.
Proof. destruct x. simpl. by intros ->. Qed.

Lemma ends_bind {A B} room (m : M (ksys H VN) A) (k : A -> M (ksys H VN) B) s Q Q' :
  ends room (m s) Q -> (forall a s', Q a s' -> exists b s'', k a s' = Done b s'' /\ Q' b s'') ->
  ends room ((m ≫= k) s) Q'.
Proof.
  intros [(E & Hn)|(a & s' & E & HQ)] Hk; unfold mbind, M_bind; rewrite E; [by left|right; by apply Hk].
Qed.

Lemma ends_room {A} (room room' : Prop) (o : outcome (ksys H VN) A) Q : (room' -> room) -> ends room o Q -> ends room' o Q.
Proof. intros Hr [(E & Hn)|?]; [left; split; [done|tauto]|by right]. Qed.

Lemma resume_spec F s R S Zs w x' :
  let c := curthread x' in
  let s1 := set_waits (delete c (waits s)) (set_ts x' s) in
  kinv F (set_ts (set_in_interrupt 0 x') s1) R S Zs -> c <> 0 -> refs s w ->
  in_interrupt x' = wflag (Some w) -> (is_Some (sleeping_on w) -> curspl x' > 0) ->
  ends (room_sl x') ((r ← resume_wait lbolt w; mret (Some (w, r))) s1)
    (fun r s' => kok F s' /\ completed r s s').
Proof.
  intros c s1 K Hc Hr Hi Hspl. destruct w as [p spl|l spl|n spl|old save]; simpl in Hr, Hi.
  - rewrite set_in_interrupt_id in K by done. destruct Hr as [y Hy].
    eapply ends_bind; [by eapply (P_loop_spec F s1); [exact K|done|apply Hspl; eauto|exact Hy]|].
    intros b s' (Hk & Hh & Hb). eexists _, s'. split; [done|]. split; [done|]. destruct b; simpl; [|done].
    destruct Hb as (? & ? & _). exists (count y). unfold counts. rewrite lookup_fmap, Hy. done.
  - rewrite set_in_interrupt_id in K by done. destruct Hr as [y Hy].
    eapply ends_bind; [by eapply (acquire_loop_spec F s1); [exact K|done|apply Hspl; eauto|exact Hy]|].
    intros b s' (Hk & Hh & Hb). eexists _, s'. split; [done|]. split; [done|]. destruct b; simpl; [|done].
    destruct Hb as (Hz & Hhs & Hcs). unfold holders at 1. rewrite lookup_fmap, Hy. simpl. rewrite Hz, Hcs. done.
  - rewrite set_in_interrupt_id in K by done.
    eapply ends_bind; [by eapply (clocksleep_loop_spec F s1); [exact K|done|apply Hspl; eauto]|].
    intros b s' (Hk & Hs1 & Hs2). eexists _, s'. split; [done|]. split; [done|]. simpl.
    unfold counts, holders. by rewrite Hs1, Hs2.
  - right. subst old. eexists _, _. split; [done|]. split; [exists R, S, Zs|done].
    by apply (kinv_spl None F (set_ts (set_in_interrupt 0 x') s1)).
Qed.

Lemma switch_in_spec F s R S Zs :
  kinv F s R S Zs -> curthread (ts s) = 0 ->
  ends (room_sl (ts s)) (switch_in lbolt s) (fun r s' => kok F s' /\ completed r s s').
Proof.
  intros K Hc. unfold switch_in. destruct R as [|t R].
  - right. pose proof (ki_thr _ _ _ _ _ _ K) as (B & sl & zs & rq & I).
    exists None, s. split; [|split; [by exists [], S, Zs|done]].
    munfold. rewrite (kt_Done _ s false (ts s)); [by destruct s|]. unfold mi_switch_in. munfold.
    rewrite (scheduler_empty (KmallocSpec0 := framed_spec F) _ _ _ _ _ _ _ (ti_tbl _ _ _ _ _ _ _ _ I)); [done|].
    by apply (pt_idle _ _ _ _ (ti_part _ _ _ _ _ _ _ _ I)).
  - destruct (kinv_in F s t R S Zs K Hc) as (x' & Zs' & E & Ht & Hnz & Ei & Hspl & Esl & En & K').
    assert (Hrm : room_sl (ts s) -> room_sl x') by (intros (sl & ? & ?); exists sl; split; congruence).
    unfold mbind at 1, M_bind at 1. rewrite (kt_Done _ s _ _ E). cbv beta match.
    unfold mbind at 1, M_bind at 1. unfold gets at 1. rewrite kt_gets. cbv beta match.
    unfold mbind at 1, M_bind at 1. unfold gets at 1, id. cbv beta match.
    change (waits (set_ts x' s)) with (waits s). change (ts (set_ts x' s)) with x'. rewrite Ht.
    destruct (waits s !! t) as [w|] eqn:Ew.
    + eapply ends_room; [exact Hrm|]. unfold mbind at 1, M_bind at 1. unfold modify. cbv beta match.
      pose proof (resume_spec F s R S Zs' w x') as Hres. simpl in Hres. rewrite Ht in Hres.
      apply Hres; try done. by eapply (ki_waits _ _ _ _ _ _ K).
    + right. eexists _, _. split; [done|]. split; [exists R, S, Zs'|done].
      rewrite delete_id in K' by done. rewrite set_in_interrupt_id in K' by done. by destruct s.
Qed.

(** ** Creating and destroying *)

Lemma owns_weaken F l p n : F !! p = None -> owns F l -> owns (<[p := n]> F) l.
Proof. intros Hp O. by apply (owns_alloc F p n l) in O as (_ & _ & ?)%owns_cons. Qed.

Lemma kinv_heap F F' s h R S Zs :
  kinv F s R S Zs -> tinvF F' (set_heap h (ts s)) R S Zs -> owns F' (sync_blocks s) ->
  kinv F' (set_ts (set_heap h (ts s)) s) R S Zs.
Proof. intros [] I O. by split. Qed.

Lemma kalloc_spec F s R S Zs n :
  kinv F s R S Zs -> 0 <= n <= KMALLOC_MAX ->
  (exists s', kalloc n s = Done 0 s' /\ kinv F s' R S Zs /\ same_objs s s') \/
  (exists p s', kalloc n s = Done p s' /\ p <> 0 /\ F !! p = None /\
     kinv (<[p := n]> F) s' R S Zs /\ same_objs s s').
Proof.
  intros K Hn. destruct (tinvF_alloc F (ts s) R S Zs n (ki_thr _ _ _ _ _ _ K) Hn)
    as [(h & E & I)|(p & h & E & Hp & HF & I)]; [left|right].
  - eexists. split; [unfold kalloc, kt, zoom; simpl; by rewrite E|]. split; [|done].
    eapply kinv_heap; [done|done|apply K].
  - eexists p, _. split; [unfold kalloc, kt, zoom; simpl; by rewrite E|]. split; [done|]. split; [done|].
    split; [|done]. eapply kinv_heap; [done|done|]. apply owns_weaken; [done|apply K].
Qed.

Lemma kdrop_spec F s R S Zs p n :
  kinv F s R S Zs -> owns F ((p, n) :: sync_blocks s) ->
  exists h, kdrop p s = Done tt (set_ts (set_heap h (ts s)) s) /\
    kinv (delete p F) (set_ts (set_heap h (ts s)) s) R S Zs.
Proof.
  intros K O. assert (HF : F !! p = Some n) by (by apply owns_cons in O as (? & _)).
  destruct (tinvF_free F (ts s) R S Zs p n (ki_thr _ _ _ _ _ _ K) HF) as (h & E & I).
  exists h. split; [unfold kdrop, kt, zoom; simpl; by rewrite E|].
  eapply kinv_heap; [done|done|]. by eapply owns_free.
Qed.

(** An object and the copy of its name. *)
Lemma named_alloc F s R S Zs sz len :
  kinv F s R S Zs -> 0 <= sz <= KMALLOC_MAX -> 0 <= len < 2 ^ 30 ->
  (exists s', kalloc sz s = Done 0 s' /\ kinv F s' R S Zs /\ same_objs s s') \/
  (exists p s1, kalloc sz s = Done p s1 /\ p <> 0 /\
     ((exists s2 s3, kt (kstrdup len) s1 = Done 0 s2 /\ kdrop p s2 = Done tt s3 /\
         kinv F s3 R S Zs /\ same_objs s s3) \/
      (exists nm s2 F2, kt (kstrdup len) s1 = Done nm s2 /\ nm <> 0 /\ F !! p = None /\
         kinv F2 s2 R S Zs /\ same_objs s s2 /\
         owns F2 (named_blocks p sz nm (len + 1) ++ sync_blocks s)))).
Proof.
  intros K Hsz Hlen. destruct (kalloc_spec F s R S Zs sz K Hsz) as [?|(p & s1 & E1 & Hp & HF & K1 & O1)]; [by left|].
  right. exists p, s1. split; [done|]. split; [done|].
  change (kt (kstrdup len) s1) with (kalloc (u32 (len + 1)) s1). rewrite u32_small by lia.
  assert (Hown : owns (<[p := sz]> F) ((p, sz) :: sync_blocks s)).
  { apply owns_alloc; [done|]. apply K. }
  assert (Hsb : forall s', same_objs s1 s' -> sync_blocks s' = sync_blocks s).
  { intros s' [A1 A2]. destruct O1 as [B1 B2]. unfold sync_blocks. congruence. }
  destruct (kalloc_spec _ s1 R S Zs (len + 1) K1) as [(s2 & E2 & K2 & O2)|(nm & s2 & E2 & Hnm & HF2 & K2 & O2)];
    [unfold KMALLOC_MAX; lia|left|right].
  - destruct (kdrop_spec _ s2 R S Zs p sz K2) as (h & E3 & K3); [by rewrite Hsb|].
    rewrite delete_insert_id in K3 by done. eexists s2, _. split; [done|]. split; [done|].
    split; [done|]. destruct O1, O2. split; simpl; congruence.
  - eexists nm, s2, _. split; [done|]. split; [done|]. split; [done|]. split; [exact K2|].
    split; [destruct O1, O2; split; congruence|]. unfold named_blocks. simpl.
    rewrite perm_swap. apply owns_alloc; [done|]. done.
Qed.

Lemma sync_blocks_eq s s' : same_objs s s' -> sync_blocks s' = sync_blocks s.
Proof. intros [E1 E2]. unfold sync_blocks. congruence. Qed.

Lemma fresh_sem F s R S Zs p : kinv F s R S Zs -> F !! p = None -> sems s !! p = None.
Proof.
  intros K HF. destruct (sems s !! p) as [y|] eqn:E; [exfalso|done].
  destruct (ki_owns _ _ _ _ _ _ K) as [_ O]. enough (F !! p = Some sizeof_semaphore) by congruence.
  apply O. unfold sync_blocks. rewrite (sem_blocks_delete _ _ _ E). left.
Qed.

Lemma fresh_lock F s R S Zs p : kinv F s R S Zs -> F !! p = None -> locks s !! p = None.
Proof.
  intros K HF. destruct (locks s !! p) as [y|] eqn:E; [exfalso|done].
  destruct (ki_owns _ _ _ _ _ _ K) as [_ O]. enough (F !! p = Some sizeof_lock) by congruence.
  apply O. unfold sync_blocks. rewrite (lock_blocks_delete _ _ _ E), elem_of_app. right. left.
Qed.

Lemma kinv_new_sem F s R S Zs p y :
  kinv F s R S Zs -> sems s !! p = None -> 0 <= count y < 2 ^ 31 ->
  owns F (named_blocks p sizeof_semaphore (sem_name y) (sem_namelen y) ++ sync_blocks s) ->
  kinv F (set_sems (<[p := y]> (sems s)) s) R S Zs.
Proof.
  intros [] Hn Hy O. split; try done; simpl.
  - eapply owns_perm; [|done]. unfold sync_blocks. cbn [sems locks set_sems].
    by rewrite sem_blocks_insert, <- app_assoc by done.
  - intros t w Hw. destruct (ki_waits0 t w Hw) as [? Hr]. split; [done|]. destruct w; try done. simpl in *.
    rewrite lookup_insert_is_Some. destruct (decide (p = sem)); auto.
  - intros t Ht. destruct (ki_sleep0 t Ht) as (w & th & ? & ? & Hs & Hb). exists w, th. split_and!; try done.
    intros Hne. specialize (Hb Hne). destruct w as [q ?| | |]; try done. simpl in *.
    destruct Hb as (y' & Hy' & Hz). exists y'. rewrite lookup_insert_ne by congruence. done.
  - intros q y'. rewrite lookup_insert_Some. intros [[<- <-]|[_ ?]]; [done|eauto].
Qed.

Lemma kinv_new_lock F s R S Zs p y :
  kinv F s R S Zs -> locks s !! p = None -> lock_ok y ->
  owns F (named_blocks p sizeof_lock (lk_name y) (lk_namelen y) ++ sync_blocks s) ->
  kinv F (set_locks (<[p := y]> (locks s)) s) R S Zs.
Proof.
  intros [] Hn Hy O. split; try done; simpl.
  - eapply owns_perm; [|done]. unfold sync_blocks. cbn [sems locks set_locks].
    rewrite lock_blocks_insert, !(Permutation_app_comm (sem_blocks _)), <- app_assoc by done. done.
  - intros t w Hw. destruct (ki_waits0 t w Hw) as [? Hr]. split; [done|]. destruct w; try done. simpl in *.
    rewrite lookup_insert_is_Some. destruct (decide (p = lk)); auto.
  - intros t Ht. destruct (ki_sleep0 t Ht) as (w & th & ? & ? & Hs & Hb). exists w, th. split_and!; try done.
    intros Hne. specialize (Hb Hne). destruct w as [|q ?| |]; try done. simpl in *.
    destruct Hb as (y' & Hy' & Hz). exists y'. rewrite lookup_insert_ne by congruence. done.
  - intros q y'. rewrite lookup_insert_Some. intros [[<- <-]|[_ ?]]; [done|eauto].
Qed.

Lemma sem_create_spec F s R S Zs len n :
  kinv F s R S Zs -> 0 <= len < 2 ^ 30 -> 0 <= n < 2 ^ 31 ->
  exists r s' F', sem_create len n s = Done r s' /\ kok F' s' /\ holders s' = holders s /\
    match r with
    | None => counts s' = counts s
    | Some p => counts s !! p = None /\ counts s' = <[p := n]> (counts s)
    end.
Proof.
  intros K Hlen Hn. unfold sem_create. munfold. rewrite bool_decide_eq_true_2 by lia.
  destruct (named_alloc F s R S Zs sizeof_semaphore len K) as
    [(s1 & E1 & K1 & O1)|(p & s1 & E1 & Hp & [(s2 & s3 & E2 & E3 & K3 & O3)|(nm & s2 & F2 & E2 & Hnm & HF & K2 & O2 & Own)])];
    [unfold sizeof_semaphore, KMALLOC_MAX; lia|done|..]; rewrite E1.
  - destruct O1 as [Es El]. eexists None, s1, F. split; [done|]. split; [by exists R, S, Zs|].
    unfold holders, counts. by rewrite Es, El.
  - rewrite decide_False, E2 by done. simpl. rewrite E3. destruct O3 as [Es El].
    eexists None, s3, F. split; [done|]. split; [by exists R, S, Zs|]. unfold holders, counts. by rewrite Es, El.
  - rewrite decide_False, E2 by done. rewrite decide_False by done. rewrite u32_small by lia.
    pose proof (fresh_sem F s R S Zs p K HF) as Hfr. eexists (Some p), _, F2. split; [done|].
    destruct O2 as [Es El]. split; [exists R, S, Zs|].
    + apply kinv_new_sem; [done|by rewrite Es|done|]. rewrite (sync_blocks_eq s s2) by done. done.
    + unfold holders, counts. simpl. rewrite El, Es, fmap_insert, lookup_fmap, Hfr. done.
Qed.

Lemma lock_create_spec F s R S Zs len :
  kinv F s R S Zs -> 0 <= len < 2 ^ 30 ->
  exists r s' F', lock_create len s = Done r s' /\ kok F' s' /\ counts s' = counts s /\
    match r with
    | None => holders s' = holders s
    | Some l => holders s !! l = None /\ holders s' = <[l := 0]> (holders s)
    end.
Proof.
  intros K Hlen. unfold lock_create. munfold.
  destruct (named_alloc F s R S Zs sizeof_lock len K) as
    [(s1 & E1 & K1 & O1)|(p & s1 & E1 & Hp & [(s2 & s3 & E2 & E3 & K3 & O3)|(nm & s2 & F2 & E2 & Hnm & HF & K2 & O2 & Own)])];
    [unfold sizeof_lock, KMALLOC_MAX; lia|done|..]; rewrite E1.
  - destruct O1 as [Es El]. eexists None, s1, F. split; [done|]. split; [by exists R, S, Zs|].
    unfold holders, counts. by rewrite Es, El.
  - rewrite decide_False, E2 by done. simpl. rewrite E3. destruct O3 as [Es El].
    eexists None, s3, F. split; [done|]. split; [by exists R, S, Zs|]. unfold holders, counts. by rewrite Es, El.
  - rewrite decide_False, E2 by done. rewrite decide_False by done. rewrite u32_small by lia.
    pose proof (fresh_lock F s R S Zs p K HF) as Hfr. eexists (Some p), _, F2. split; [done|].
    destruct O2 as [Es El]. split; [exists R, S, Zs|].
    + apply kinv_new_lock; [done|by rewrite El|by left|]. rewrite (sync_blocks_eq s s2) by done. done.
    + unfold holders, counts. simpl. rewrite El, Es, fmap_insert, lookup_fmap, Hfr. done.
Qed.

Lemma kinv_del_sem F F' s h1 R S Zs p :
  kinv F s R S Zs -> tinvF F' (set_heap h1 (ts s)) R S Zs ->
  owns F' (sem_blocks (delete p (sems s)) ++ lock_blocks (locks s)) ->
  (forall t w, waits s !! t = Some w -> sleeping_on w <> Some p) ->
  kinv F' (set_sems (delete p (sems s)) (set_ts (set_heap h1 (ts s)) s)) R S Zs.
Proof.
  intros [] I O Hw. split; try done; simpl.
  - intros t w Hx. destruct (ki_waits0 t w Hx) as [? Hr]. split; [done|]. specialize (Hw t w Hx).
    destruct w as [q ?| | |]; try done. simpl in *. rewrite lookup_delete_ne by congruence. done.
  - intros t Ht. destruct (ki_sleep0 t Ht) as (w & th & Hx & ? & Hs & Hb). exists w, th. split_and!; try done.
    intros Hne. specialize (Hb Hne). specialize (Hw t w Hx). destruct w as [q ?| | |]; try done. simpl in *.
    rewrite lookup_delete_ne by congruence. done.
  - intros q y'. rewrite lookup_delete_Some. intros [_ ?]. eauto.
Qed.

Lemma sem_destroy_spec F s R S Zs p y :
  kinv F s R S Zs -> curthread (ts s) <> 0 -> p <> 0 -> sems s !! p = Some y ->
  (forall t w, waits s !! t = Some w -> sleeping_on w <> Some p) ->
  exists s' F', sem_destroy p s = Done tt s' /\ kok F' s' /\ holders s' = holders s /\
    counts s' = delete p (counts s).
Proof.
  intros K Hc Hp Hy Hw. unfold sem_destroy. munfold. rewrite bool_decide_eq_true_2 by done.
  unfold splhigh. rewrite kt_splx. set (s1 := set_ts _ s).
  assert (K1 : kinv F s1 R S Zs) by (by apply kinv_spl).
  rewrite (kt_Done _ s1 0 (ts s1)).
  2:{ rewrite (thread_hassleepers_spec (KmallocSpec0 := framed_spec F) _ R S Zs); [|apply K1|done].
      rewrite decide_True; [done|]. apply elem_of_nil_inv. intros t. unfold on_addr.
      rewrite list_elem_of_filter. intros [E Ht].
      destruct (ki_sleep _ _ _ _ _ _ K t Ht) as (w & th & Hx & Hth & Hs & _). simpl in E. rewrite Hth in E.
      apply (Hw t w Hx). rewrite Hs. by simplify_eq/=. }
  rewrite bool_decide_eq_true_2 by done. rewrite kt_splx.
  set (s2 := set_ts _ _). assert (K2 : kinv F s2 R S Zs) by (by apply (kinv_spl None F s1)).
  rewrite (get_sem_eq p s2 y Hy).
  assert (Hb : sync_blocks s2 ≡ₚ (p, sizeof_semaphore) :: (sem_name y, sem_namelen y) ::
    sem_blocks (delete p (sems s)) ++ lock_blocks (locks s)).
  { unfold sync_blocks. simpl. by rewrite (sem_blocks_delete _ _ _ Hy). }
  pose proof (ki_owns _ _ _ _ _ _ K2) as Own. rewrite Hb, perm_swap in Own.
  pose proof (owns_free _ _ _ _ Own) as Own1. pose proof (owns_free _ _ _ _ Own1) as Own2.
  apply owns_cons in Own as (HFn & _). apply owns_cons in Own1 as (HFp & _).
  destruct (tinvF_free F (ts s2) R S Zs _ _ (ki_thr _ _ _ _ _ _ K2) HFn) as (h1 & E1 & I1).
  destruct (tinvF_free _ _ R S Zs _ _ I1 HFp) as (h2 & E2 & I2).
  unfold kdrop at 1, kt at 1, zoom. simpl. simpl in E1. rewrite E1.
  unfold kdrop, kt, zoom. simpl. simpl in E2. rewrite E2.
  eexists _, _. split; [done|]. split; [exists R, S, Zs|].
  - exact (kinv_del_sem F _ s2 h2 R S Zs p K2 I2 Own2 Hw).
  - split; [done|]. unfold counts. simpl. apply fmap_delete.
Qed.

(** ** The kernel as a state machine *)

(** The calls of a run.  [lock_destroy] is not among them: it passes the field [available] to [kfree], which stops
    the kernel when the lock is free, and frees the thread that holds it when it is not.  Nor are [thread_sleep]
    and [thread_wakeup] on an address that is no semaphore or lock: the threads of a run wait by these calls only. *)
Inductive kop :=
  | KFork (len : Z) | KYield | KExit | KSwitchIn | KTimer
  | KP (p : Z) | KV (p : Z)
  | KAcquire (l : Z) | KTryAcquire (l : Z) | KRelease (l : Z)
  | KClocksleep (n : Z)
  | KSemCreate (len n : Z) | KSemDestroy (p : Z) | KLockCreate (len : Z).

(** What completed: [t] is the thread. *)
Inductive event :=
  | EvP (t p : Z) | EvV (t p : Z) | EvAcquire (t l : Z) | EvRelease (t l : Z)
  | EvSem (p n : Z) | EvSemGone (p : Z) | EvLock (l : Z).

#[local] Instance event_eq_dec : EqDecision event.
Proof. solve_decision. Defined.

Definition completion (cur : Z) (r : option (wait * bool)) : list event :=
  match r with
  | Some (InP p _, true) => [EvP cur p]
  | Some (InAcquire l _, true) => [EvAcquire cur l]
  | _ => []
  end.

Definition run_kop (op : kop) : M (ksys H VN) (list event) :=
  cur ← kt (gets curthread);
  match op with
  | KFork len => _ ← kt (thread_fork len); mret []
  | KYield => _ ← kt thread_yield; mret []
  | KExit => _ ← kt thread_exit; mret []
  | KSwitchIn => r ← switch_in lbolt; cur' ← kt (gets curthread); mret (completion cur' r)
  | KTimer => timer_interrupt lbolt HZ ;; mret []
  | KP p => b ← P p; mret (if b : bool then [EvP cur p] else [])
  | KV p => V p ;; mret [EvV cur p]
  | KAcquire l => b ← lock_acquire l; mret (if b : bool then [EvAcquire cur l] else [])
  | KTryAcquire l => r ← lock_try_acquire_alert l; mret (if decide (r <> 0) then [EvAcquire cur l] else [])
  | KRelease l => b ← lock_release l; mret (if b : bool then [EvRelease cur l] else [])
  | KClocksleep n => _ ← clocksleep lbolt n; mret []
  | KSemCreate len n => r ← sem_create len n; mret (match r with Some p => [EvSem p n] | None => [] end)
  | KSemDestroy p => sem_destroy p ;; mret [EvSemGone p]
  | KLockCreate len => r ← lock_create len; mret (match r with Some l => [EvLock l] | None => [] end)
  end.

(** When the call may be made: by a running thread, on an object that exists
    (for [V], below the largest count; for [sem_destroy], with no thread in a
    [P] on it); the scheduler and the clock run on their own. *)
Definition kop_ok s (op : kop) : Prop :=
  match op with
  | KFork len => top_ok (ts s) (TFork len)
  | KExit => top_ok (ts s) TExit
  | KSwitchIn => curthread (ts s) = 0
  | KTimer => True
  | KYield | KClocksleep _ => curthread (ts s) <> 0
  | KP p => curthread (ts s) <> 0 /\ p <> 0 /\ is_Some (sems s !! p)
  | KV p => curthread (ts s) <> 0 /\ p <> 0 /\ exists n, counts s !! p = Some n /\ n + 1 < 2 ^ 31
  | KAcquire l | KTryAcquire l | KRelease l => curthread (ts s) <> 0 /\ l <> 0 /\ is_Some (locks s !! l)
  | KSemCreate len n => curthread (ts s) <> 0 /\ 0 <= len < 2 ^ 30 /\ 0 <= n < 2 ^ 31
  | KSemDestroy p => curthread (ts s) <> 0 /\ p <> 0 /\ is_Some (sems s !! p) /\
      forall t w, waits s !! t = Some w -> sleeping_on w <> Some p
  | KLockCreate len => curthread (ts s) <> 0 /\ 0 <= len < 2 ^ 30
  end.

(** The specification: counts that [P] lowers only when positive, and locks
    with at most one holder. *)
Definition astep (e : event) (a a' : gmap Z Z * gmap Z Z) : Prop :=
  match e with
  | EvP _ p => exists n, a.1 !! p = Some n /\ n > 0 /\ a' = (<[p := n - 1]> a.1, a.2)
  | EvV _ p => exists n, a.1 !! p = Some n /\ a' = (<[p := n + 1]> a.1, a.2)
  | EvAcquire t l => t <> 0 /\ a.2 !! l = Some 0 /\ a' = (a.1, <[l := t]> a.2)
  | EvRelease t l => t <> 0 /\ a.2 !! l = Some t /\ a' = (a.1, <[l := 0]> a.2)
  | EvSem p n => a.1 !! p = None /\ n >= 0 /\ a' = (<[p := n]> a.1, a.2)
  | EvSemGone p => a' = (delete p a.1, a.2)
  | EvLock l => a.2 !! l = None /\ a' = (a.1, <[l := 0]> a.2)
  end.

Fixpoint asteps (tr : list event) (a a' : gmap Z Z * gmap Z Z) : Prop :=
  match tr with
  | [] => a' = a
  | e :: tr => exists a1, astep e a a1 /\ asteps tr a1 a'
  end.

Definition abs s : gmap Z Z * gmap Z Z := (counts s, holders s).

Definition roomy x : Prop := room_sl x /\ room_rq x /\ room_zs x.

Definition kout (o : outcome (ksys H VN) (list event)) s : Prop :=
  (o = Panic /\ ~ roomy (ts s)) \/
  (exists s', o = Fail ENOMEM s' /\ (exists F, kok F s') /\ abs s' = abs s) \/
  (exists ev s', o = Done ev s' /\ (exists F, kok F s') /\ asteps ev (abs s) (abs s')).

Lemma ends_kout {A} (room : Prop) (m : M (ksys H VN) A) (f : A -> list event) s Q :
  ends room (m s) Q -> (roomy (ts s) -> room) ->
  (forall a s', Q a s' -> (exists F, kok F s') /\ asteps (f a) (abs s) (abs s')) ->
  kout ((a ← m; mret (f a)) s) s.
Proof.
  intros [(E & Hn)|(a & s' & E & HQ)] Hr Hk; unfold mbind, M_bind; rewrite E.
  - left. split; [done|]. tauto.
  - right; right. eexists _, s'. split; [done|]. by apply Hk.
Qed.

Lemma same_objs_abs s s' : same_objs s s' -> asteps [] (abs s) (abs s').
Proof. intros [E1 E2]. simpl. unfold abs, counts, holders. by rewrite E1, E2. Qed.

Lemma asteps_one e a a' : astep e a a' -> asteps [e] a a'.
Proof. intros. by exists a'. Qed.

Lemma counts_lookup s p n : counts s !! p = Some n -> exists y, sems s !! p = Some y /\ count y = n.
Proof. unfold counts. rewrite lookup_fmap. destruct (sems s !! p); naive_solver. Qed.

Lemma counts_sem s p y : sems s !! p = Some y -> counts s !! p = Some (count y).
Proof. intros E. unfold counts. by rewrite lookup_fmap, E. Qed.
Lemma holders_lock s l y : locks s !! l = Some y -> holders s !! l = Some (holder y).
Proof. intros E. unfold holders. by rewrite lookup_fmap, E. Qed.

Lemma run_kop_threads F s R S Zs op :
  kinv F s R S Zs -> kop_ok s op ->
  match op with KFork _ | KYield | KExit | KSwitchIn | KTimer | KClocksleep _ => True | _ => False end ->
  kout (run_kop op s) s.
Proof.
  intros K Hok Hop. unfold run_kop. unfold mbind at 1, M_bind at 1, gets at 1. rewrite kt_gets.
  destruct op as [len| | | | | | | | | |n| | |]; try done; simpl in Hok.
  - destruct (fork_spec F s R S Zs len K Hok) as [(s' & E & Hk & Ho)|(t & s' & E & Hk & Ho)];
      unfold kout; munfold; rewrite E.
    + right; left. exists s'. split; [done|]. split; [eauto|]. by apply same_objs_abs in Ho.
    + right; right. eexists _, s'. split; [done|]. split; [eauto|]. by apply same_objs_abs.
  - eapply (ends_kout _ _ (fun _ => [])); [by eapply yield_spec|by intros (_ & ? & _)|].
    intros _ s' [Hk Ho]. split; [eauto|by apply same_objs_abs].
  - eapply (ends_kout _ _ (fun _ => [])); [by eapply exit_spec|by intros (_ & _ & ?)|].
    intros _ s' [Hk Ho]. split; [eauto|by apply same_objs_abs].
  - destruct (switch_in_spec F s R S Zs K Hok) as [(E & Hn)|(r & s' & E & Hk & Hc)]; unfold kout; munfold; rewrite E.
    + left. split; [done|]. intros (? & _). done.
    + right; right. rewrite kt_gets. eexists _, s'. split; [done|]. split; [eauto|].
      unfold abs. destruct r as [[[p spl|l spl| |] []]|]; simpl in *; try (destruct Hc as [-> ->]; done).
      * destruct Hc as (n & ? & ? & E1 & E2). eexists. split; [by exists n|]. congruence.
      * destruct Hc as (? & ? & E1 & E2). eexists. split; [done|]. congruence.
  - eapply (ends_kout _ _ (fun _ => [])); [by eapply timer_spec|by intros (_ & ? & _)|].
    intros _ s' [Hk Ho]. split; [eauto|by apply same_objs_abs].
  - eapply (ends_kout _ _ (fun _ => [])).
    + unfold clocksleep, mbind at 1, M_bind at 1, splhigh. rewrite kt_splx.
      apply (clocksleep_loop_spec F (set_ts (set_curspl SPL_HIGH (ts s)) s) R S Zs); [by apply kinv_spl|done|done].
    + by intros (? & _).
    + intros _ s' [Hk Ho]. split; [eauto|]. by apply (same_objs_abs s).
Qed.

Lemma run_kop_objs F s R S Zs op :
  kinv F s R S Zs -> kop_ok s op ->
  match op with KFork _ | KYield | KExit | KSwitchIn | KTimer | KClocksleep _ => False | _ => True end ->
  kout (run_kop op s) s.
Proof.
  intros K Hok Hop. unfold run_kop. unfold mbind at 1, M_bind at 1, gets at 1. rewrite kt_gets.
  destruct op as [| | | | |p|p|l|l|l| |len n|p|len]; try done; simpl in Hok.
  - destruct Hok as (Hc & Hp & y & Hy). eapply (ends_kout _ _ (fun b : bool => if b then _ else _));
      [by eapply P_spec|by intros (? & _)|].
    intros b s' (Hk & Hh & Hb). split; [eauto|]. destruct b; unfold abs; simpl; [|congruence].
    destruct Hb as (? & E & _). eexists. split; [exists (count y); by rewrite (counts_sem s p y)|]. simpl. congruence.
  - destruct Hok as (Hc & Hp & n & Hn & Hlt). apply counts_lookup in Hn as (y & Hy & <-).
    eapply (ends_kout _ _ (fun _ => [_])); [by eapply V_spec|by intros (_ & ? & _)|].
    intros _ s' (Hk & Hh & E & _). split; [eauto|]. apply asteps_one. exists (count y).
    unfold abs. simpl. split; [by apply counts_sem|congruence].
  - destruct Hok as (Hc & Hp & y & Hy). eapply (ends_kout _ _ (fun b : bool => if b then _ else _));
      [by eapply acquire_spec|by intros (? & _)|].
    intros b s' (Hk & Hh & Hb). split; [eauto|]. destruct b; unfold abs; simpl; [|congruence].
    destruct Hb as (Hz & E & _). eexists. split; [split; [done|]; split; [by rewrite (holders_lock s l y), Hz|done]|].
    simpl. congruence.
  - destruct Hok as (Hc & Hp & y & Hy).
    destruct (try_acquire_spec F s R S Zs l y K Hc Hp Hy) as (r & s' & E & Hk & Hn & _ & Hr).
    unfold kout. munfold. rewrite E. right; right. eexists _, s'. split; [done|]. split; [eauto|].
    destruct Hr as [(-> & Hz & Hh)|(-> & _ & Hh)]; unfold abs; simpl; [|congruence].
    eexists. split; [split; [done|]; split; [by rewrite (holders_lock s l y), Hz|done]|]. simpl. congruence.
  - destruct Hok as (Hc & Hp & y & Hy). eapply (ends_kout _ _ (fun b : bool => if b then _ else _));
      [by eapply release_spec|by intros (_ & ? & _)|].
    intros b s' (Hk & Hn & -> & _ & Hh). split; [eauto|]. unfold abs.
    case_bool_decide as D; simpl; [|congruence].
    eexists. split; [split; [done|]; split; [by rewrite (holders_lock s l y), D|done]|]. simpl. congruence.
  - destruct Hok as (Hc & Hlen & Hn).
    destruct (sem_create_spec F s R S Zs len n K Hlen Hn) as (r & s' & F' & E & Hk & Hh & Hr).
    unfold kout. munfold. rewrite E. right; right. eexists _, s'. split; [done|]. split; [eauto|]. unfold abs.
    destruct r as [p|]; simpl; [|congruence]. destruct Hr as [? Hr]. eexists. split; [|done].
    split; [done|]. split; [lia|]. simpl. congruence.
  - destruct Hok as (Hc & Hp & (y & Hy) & Hw).
    destruct (sem_destroy_spec F s R S Zs p y K Hc Hp Hy Hw) as (s' & F' & E & Hk & Hh & Hr).
    unfold kout. munfold. rewrite E. right; right. eexists _, s'. split; [done|]. split; [eauto|].
    unfold abs. eexists. split; [done|]. simpl. congruence.
  - destruct Hok as (Hc & Hlen).
    destruct (lock_create_spec F s R S Zs len K Hlen) as (r & s' & F' & E & Hk & Hh & Hr).
    unfold kout. munfold. rewrite E. right; right. eexists _, s'. split; [done|]. split; [eauto|]. unfold abs.
    destruct r as [p|]; simpl; [|congruence]. destruct Hr as [? Hr]. eexists. split; [|done].
    split; [done|]. simpl. congruence.
Qed.

Lemma run_kop_spec F s R S Zs op : kinv F s R S Zs -> kop_ok s op -> kout (run_kop op s) s.
Proof.
  intros K Hok. destruct op; (by eapply run_kop_threads) || (by eapply run_kop_objs).
Qed.

(** C9: Every call does to the counts and the holders what the specification says,
    and nothing else; the only panics are those of a table that would have to
    grow, the only error a fork without memory. *)
Theorem synch_ops_refine F s R S Zs op :
  kinv F s R S Zs -> kop_ok s op ->
  (run_kop op s = Panic /\ ~ roomy (ts s)) \/
  (exists s', run_kop op s = Fail ENOMEM s' /\ (exists F', kok F' s') /\ abs s' = abs s) \/
  (exists ev s', run_kop op s = Done ev s' /\ (exists F', kok F' s') /\ asteps ev (abs s) (abs s')).
Proof. apply run_kop_spec. Qed.

(** The runs of the kernel, with what completed in them. *)
Inductive kreach : ksys H VN -> list event -> ksys H VN -> Prop :=
  | kreach_refl s : kreach s [] s
  | kreach_done s tr s1 op ev s2 :
      kreach s tr s1 -> kop_ok s1 op -> run_kop op s1 = Done ev s2 -> kreach s (tr ++ ev) s2
  | kreach_fail s tr s1 op e s2 :
      kreach s tr s1 -> kop_ok s1 op -> run_kop op s1 = Fail e s2 -> kreach s tr s2.

Lemma asteps_app tr1 tr2 a a' :
  asteps (tr1 ++ tr2) a a' <-> exists a1, asteps tr1 a a1 /\ asteps tr2 a1 a'.
Proof.
  revert a. induction tr1 as [|e tr1 IH]; intros a; simpl.
  - split; [intros; by exists a|]. by intros (? & -> & ?).
  - setoid_rewrite IH. naive_solver.
Qed.

Lemma kreach_ok F s tr s' :
  kok F s -> kreach s tr s' -> (exists F', kok F' s') /\ asteps tr (abs s) (abs s').
Proof.
  intros K Hr. induction Hr as [s|s tr s1 op ev s2 _ IH Hok E|s tr s1 op e s2 _ IH Hok E]; [split; [by exists F|done]|..];
    destruct (IH K) as [(F1 & R & S & Zs & K1) Ha];
    destruct (run_kop_spec F1 s1 R S Zs op K1 Hok) as
      [(E' & _)|[(s3 & E' & K3 & A3)|(ev' & s3 & E' & K3 & A3)]]; rewrite E in E';
    (discriminate || injection E' as -> ->); (split; [done|]).
  - apply asteps_app. eauto.
  - by rewrite A3.
Qed.

(** A held lock stays held until its holder releases it. *)
Lemma held_until_released tr l t a a' :
  asteps tr a a' -> t <> 0 -> a.2 !! l = Some t -> EvRelease t l ∉ tr -> a'.2 !! l = Some t.
Proof.
  revert a. induction tr as [|e tr IH]; intros a; simpl; [by intros ->|].
  intros (a1 & He & Hs) Ht Hl Hn. apply not_elem_of_cons in Hn as [Hne Hn]. eapply IH; [done|done| |done].
  destruct e as [t' p|t' p|t' l'|t' l'|p n|p|l']; simpl in He;
    repeat match goal with
    | Hx : exists _, _ |- _ => destruct Hx
    | Hx : _ /\ _ |- _ => destruct Hx
    end; subst; try done;
    simpl; rewrite lookup_insert_ne; try done; intros ->; congruence.
Qed.

(** ** A lock that its own thread waits for *)

(** What a call leaves of the wait of thread [t]. *)
Definition wait_kept {A} (t : Z) s (o : outcome (ksys H VN) A) : Prop :=
  match o with Done _ s' | Fail _ s' => waits s' !! t = waits s !! t | _ => True end.

Lemma kept_keeps {A} t (m : M (ksys H VN) A) s : keeps_fn (fun s => waits s !! t) m -> wait_kept t s (m s).
Proof. intros Hm. specialize (Hm s). by destruct (m s). Qed.

(** Steps that come before the current thread is looked up. *)
Lemma kept_bind {A B} t (m : M (ksys H VN) A) (k : A -> M (ksys H VN) B) s :
  keeps_fn (fun s => (waits s !! t, curthread (ts s))) m -> curthread (ts s) <> t ->
  (forall a s', curthread (ts s') <> t -> wait_kept t s' (k a s')) -> wait_kept t s ((m ≫= k) s).
Proof.
  intros Hm Hc Hk. unfold mbind, M_bind. specialize (Hm s). destruct (m s) as [a s1|e s1| | |]; try done; injection Hm as Hw Hc1; [|done].
  specialize (Hk a s1 ltac:(congruence)). unfold wait_kept in *. by destruct (k a s1); rewrite <-?Hw.
Qed.

Lemma kept_cur {B} t (k : Z -> M (ksys H VN) B) s :
  curthread (ts s) <> t -> (forall c, c <> t -> keeps_fn (fun s => waits s !! t) (k c)) ->
  wait_kept t s ((cur ← kt (gets curthread); k cur) s).
Proof. intros Hc Hk. unfold mbind, M_bind, gets. rewrite kt_gets. by apply kept_keeps, Hk. Qed.

Lemma keeps_kt {A} t (m : M (tsys H VN) A) : keeps_fn (fun s => waits s !! t) (kt m).
Proof. by apply keeps_zoom. Qed.
Lemma keeps_modify t g : (forall s, waits (g s) !! t = waits s !! t) -> keeps_fn (fun s : ksys H VN => waits s !! t) (modify g).
Proof. intros Hg s. apply Hg. Qed.
Lemma keeps_set_wait t c w : c <> t -> keeps_fn (fun s => waits s !! t) (set_wait c w).
Proof. intros Hc. apply keeps_modify. intros s. by apply lookup_insert_ne. Qed.
Lemma keeps_nofuel {A} t : keeps_fn (A := A) (fun s : ksys H VN => waits s !! t) nofuel.
Proof. done. Qed.
Lemma calm_splx t n : keeps_fn (fun s : ksys H VN => (waits s !! t, curthread (ts s))) (kt (splx n)).
Proof. done. Qed.
Lemma calm_kassert t b : keeps_fn (fun s : ksys H VN => (waits s !! t, curthread (ts s))) (kassert b).
Proof. apply keeps_kassert. Qed.
Lemma calm_get_sem t p : keeps_fn (fun s : ksys H VN => (waits s !! t, curthread (ts s))) (get_sem p).
Proof. unfold get_sem. keeps_fn. Qed.
Lemma calm_get_lock t p : keeps_fn (fun s : ksys H VN => (waits s !! t, curthread (ts s))) (get_lock p).
Proof. unfold get_lock. keeps_fn. Qed.
Lemma calm_kt_gets {A} t (f : tsys H VN -> A) : keeps_fn (fun s : ksys H VN => (waits s !! t, curthread (ts s))) (kt (gets f)).
Proof. intros s. unfold gets. by rewrite kt_gets. Qed.
#[local] Hint Resolve keeps_kt keeps_modify keeps_set_wait keeps_nofuel calm_splx calm_kassert calm_get_sem calm_get_lock calm_kt_gets : keeps_fn.

Lemma P_loop_kept t p spl s : curthread (ts s) <> t -> wait_kept t s (P_loop p spl s).
Proof.
  intros Hc. unfold P_loop. apply kept_bind; [apply calm_get_sem|done|]. intros x s1 Hc1. case_decide.
  - apply kept_cur; [done|]. intros c Hn. keeps_fn.
  - apply kept_keeps. unfold put_sem. keeps_fn.
Qed.

Lemma acquire_loop_kept t l spl s : curthread (ts s) <> t -> wait_kept t s (lock_acquire_loop l spl s).
Proof.
  intros Hc. unfold lock_acquire_loop. apply kept_bind; [apply calm_get_lock|done|]. intros x s1 Hc1.
  apply kept_cur; [done|]. intros c Hn. unfold put_lock. keeps_fn.
Qed.

Lemma clocksleep_loop_kept t n spl s : curthread (ts s) <> t -> wait_kept t s (clocksleep_loop lbolt n spl s).
Proof.
  intros Hc. unfold clocksleep_loop. case_decide; [|apply kept_keeps; keeps_fn]. apply kept_cur; [done|]. intros c Hn. keeps_fn.
Qed.

(** Only the scheduler ends the wait of a thread, and no call of another thread. *)
Lemma run_kop_kept t op s : op <> KSwitchIn -> curthread (ts s) <> t -> wait_kept t s (run_kop op s).
Proof.
  intros Hop Hc. unfold run_kop. unfold mbind at 1, M_bind at 1, gets at 1. rewrite kt_gets.
  assert (Hb : forall A B (m : M (ksys H VN) A) (f : A -> B), wait_kept t s (m s) -> wait_kept t s ((a ← m; mret (f a)) s)).
  { intros A B m f Hm. unfold wait_kept, mbind, M_bind in *. by destruct (m s). }
  destruct op as [len| | | | |p|p|l|l|l|n|len n|p|len]; try done; try apply Hb.
  - apply kept_keeps. keeps_fn.
  - apply kept_keeps. keeps_fn.
  - apply kept_keeps. keeps_fn.
  - unfold timer_interrupt. apply kept_cur; [done|]. intros c Hn. unfold hardclock, lbolt_tick, interrupt_return. keeps_fn.
  - unfold P. do 4 (apply kept_bind; [eauto with keeps_fn|done|]; intros ? ? ?). by apply P_loop_kept.
  - apply kept_keeps. unfold V, get_sem, put_sem. keeps_fn.
  - unfold lock_acquire. do 2 (apply kept_bind; [eauto with keeps_fn|done|]; intros ? ? ?). by apply acquire_loop_kept.
  - apply kept_keeps. unfold lock_try_acquire_alert, lock_do_i_hold, get_lock, put_lock. keeps_fn.
  - apply kept_keeps. unfold lock_release, lock_do_i_hold, get_lock, put_lock. keeps_fn.
  - unfold clocksleep. apply kept_bind; [apply calm_splx|done|]. intros ? ? ?. by apply clocksleep_loop_kept.
  - apply kept_keeps. unfold sem_create, kalloc, kdrop, put_sem. keeps_fn.
  - apply kept_keeps. unfold sem_destroy, kdrop, get_sem. keeps_fn.
  - apply kept_keeps. unfold lock_create, kalloc, kdrop, put_lock. keeps_fn.
Qed.

(** A thread that finds the lock taken waits in the loop. *)
Lemma acquire_loop_waits l spl s b s' y :
  lock_acquire_loop l spl s = Done b s' -> locks s !! l = Some y -> available y = 0 ->
  waits s' !! curthread (ts s) = Some (InAcquire l spl).
Proof.
  unfold lock_acquire_loop. intros E Hy Ha. rewrite (bind_Done _ _ _ _ _ (get_lock_eq l s y Hy)) in E.
  unfold mbind at 1, M_bind at 1, gets at 1 in E. rewrite kt_gets in E. rewrite decide_True in E by done.
  apply bind_Done_inv in E as ([] & s1 & _ & E); [|done]. injection E as _ <-. apply lookup_insert_eq.
Qed.

Lemma acquire_waits l s b s' y :
  lock_acquire l s = Done b s' -> locks s !! l = Some y -> available y = 0 ->
  exists spl, waits s' !! curthread (ts s) = Some (InAcquire l spl).
Proof.
  unfold lock_acquire. intros E Hy Ha. apply bind_Done_inv in E as ([] & s1 & E1 & E).
  assert (s1 = s) as -> by (unfold kassert in E1; destruct (bool_decide _); [by injection E1|done]).
  unfold mbind, M_bind, splhigh in E. rewrite kt_splx in E. exists (curspl (ts s)). by apply (acquire_loop_waits _ _ _ _ _ y E).
Qed.

(** The thread [t] waits for the lock [l], which it holds. *)
Definition caught (t l : Z) s : Prop := (exists spl, waits s !! t = Some (InAcquire l spl)) /\ holders s !! l = Some t.

Lemma holders_taken ex F s R S Zs l t :
  kinvx ex F s R S Zs -> holders s !! l = Some t -> t <> 0 -> exists y, locks s !! l = Some y /\ available y = 0.
Proof.
  intros K Hl Ht. unfold holders in Hl. rewrite lookup_fmap in Hl. destruct (locks s !! l) as [y|] eqn:Ey; [|done]. injection Hl as Hl.
  exists y. split; [done|]. destruct (ki_lock _ _ _ _ _ _ K l y Ey) as [[_ ?]|[? _]]; [congruence|done].
Qed.

Lemma resume_kept t w s : curthread (ts s) <> t -> wait_kept t s (resume_wait lbolt w s).
Proof.
  intros Hc. destruct w; cbn [resume_wait]; [by apply P_loop_kept|by apply acquire_loop_kept|by apply clocksleep_loop_kept|].
  apply kept_keeps. unfold interrupt_return. keeps_fn.
Qed.

Lemma switch_in_caught F s R S Zs t l r s' :
  kinv F s R S Zs -> curthread (ts s) = 0 -> t <> 0 -> caught t l s -> switch_in lbolt s = Done r s' ->
  exists spl, waits s' !! t = Some (InAcquire l spl).
Proof.
  intros K Hc Ht [[spl Hw] Hl] E. unfold switch_in in E. apply bind_Done_inv in E as (b & s1 & E1 & E).
  assert (Hs1 : waits s1 = waits s /\ locks s1 = locks s).
  { unfold kt, zoom in E1. destruct (mi_switch_in (lget tsL s)); [by injection E1 as _ <-|done..]. }
  destruct Hs1 as [Hw1 Hl1]. destruct b; [|injection E as _ <-; exists spl; congruence].
  unfold mbind at 1, M_bind at 1, gets at 1 in E. rewrite kt_gets in E. unfold mbind at 1, M_bind at 1, gets at 1, id in E. rewrite Hw1 in E.
  destruct (waits s !! curthread (ts s1)) as [w|] eqn:Ew; [|injection E as _ <-; exists spl; congruence].
  apply bind_Done_inv in E as ([] & s2 & E2 & E). injection E2 as <-. apply bind_Done_inv in E as (b & s3 & E3 & E). injection E as _ <-.
  set (s2 := set_waits _ s1) in E3. destruct (decide (curthread (ts s1) = t)) as [Et|Et].
  - rewrite Et, Hw in Ew. injection Ew as <-. cbn [resume_wait] in E3. destruct (holders_taken _ _ _ _ _ _ l t K Hl Ht) as (y & Ey & Ha).
    exists spl. rewrite <-Et. apply (acquire_loop_waits l spl s2 b s3 y E3); [cbn; congruence|done].
  - pose proof (resume_kept t w s2 Et) as Hk. rewrite E3 in Hk. cbn in Hk. exists spl. rewrite Hk, lookup_delete_ne by done. congruence.
Qed.

(** What is released is released by the running thread. *)
Lemma release_by_cur op s ev s' t l : run_kop op s = Done ev s' -> EvRelease t l ∈ ev -> curthread (ts s) = t.
Proof.
  intros E Hin. unfold run_kop in E. unfold mbind at 1, M_bind at 1, gets at 1 in E. rewrite kt_gets in E.
  destruct op; repeat (apply bind_Done_inv in E as (? & ? & ? & E)); injection E as <- _;
    repeat (match type of Hin with context [match ?x with _ => _ end] => destruct x end || unfold completion in Hin);
    repeat (apply elem_of_cons in Hin as [Hin|Hin]); try (by apply elem_of_nil in Hin); try done; by injection Hin.
Qed.

Lemma caught_running F s R S Zs t l : kinv F s R S Zs -> t <> 0 -> caught t l s -> curthread (ts s) <> t.
Proof. intros K Ht [[spl Hw] _] <-. by rewrite (cur_no_wait _ _ _ _ _ _ K Ht) in Hw. Qed.

Lemma caught_step F s R S Zs t l op ev s' :
  kinv F s R S Zs -> kop_ok s op -> t <> 0 -> caught t l s -> run_kop op s = Done ev s' -> caught t l s' /\ EvRelease t l ∉ ev.
Proof.
  intros K Hok Ht Hc E. pose proof (caught_running _ _ _ _ _ _ _ K Ht Hc) as Hcur.
  assert (Hn : EvRelease t l ∉ ev) by (intros Hin; by apply Hcur, (release_by_cur op s ev s' t l)).
  split; [|done]. destruct (run_kop_spec F s R S Zs op K Hok) as [(E' & _)|[(? & E' & _)|(ev' & s3 & E' & _ & A)]]; rewrite E in E'; try done.
  injection E' as <- <-. split; [|by apply (held_until_released ev l t (abs s) (abs s') A Ht (proj2 Hc))].
  assert (op = KSwitchIn \/ op <> KSwitchIn) as [->|Hop] by (destruct op; by (left; done) || right).
  - unfold run_kop in E. unfold mbind at 1, M_bind at 1, gets at 1 in E. rewrite kt_gets in E. apply bind_Done_inv in E as (r & s1 & E1 & E).
    unfold mbind, M_bind, gets in E. rewrite kt_gets in E. injection E as _ <-. by apply (switch_in_caught F s R S Zs t l r s1).
  - pose proof (run_kop_kept t op s Hop Hcur) as Hk. rewrite E in Hk. cbn in Hk. rewrite Hk. apply Hc.
Qed.

(** A thread that waits for a lock it holds waits for good, and no thread is given the lock again. *)
Lemma caught_forever F s tr s' t l :
  kok F s -> t <> 0 -> caught t l s -> kreach s tr s' ->
  caught t l s' /\ curthread (ts s') <> t /\ (EvRelease t l ∉ tr) /\ forall t', EvAcquire t' l ∉ tr.
Proof.
  intros K Ht Hc Hr. assert (Hk : (exists F', kok F' s') /\ caught t l s' /\ EvRelease t l ∉ tr).
  { induction Hr as [s|s tr s1 op ev s2 Hr IH Hok E|s tr s1 op e s2 Hr IH Hok E]; [split; [by exists F|]; split; [done|apply not_elem_of_nil]|..];
      destruct (IH K Hc) as ((F1 & R & S & Zs & K1) & Hc1 & Hn).
    - destruct (caught_step F1 s1 R S Zs t l op ev s2 K1 Hok Ht Hc1 E) as [Hc2 Hn2]. split; [|split; [done|by apply not_elem_of_app]].
      destruct (kreach_ok F s (tr ++ ev) s2 K) as [? _]; [by eapply kreach_done|done].
    - split; [by destruct (kreach_ok F s tr s2 K) as [? _]; [eapply kreach_fail|]|]. split; [|done].
      pose proof (caught_running _ _ _ _ _ _ _ K1 Ht Hc1) as Hcur.
      destruct (run_kop_spec F1 s1 R S Zs op K1 Hok) as [(E' & _)|[(s3 & E' & _ & A)|(? & ? & E' & _)]]; rewrite E in E'; try done.
      injection E' as -> <-. split; [|unfold abs in A; injection A as _ ->; apply Hc1].
      assert (Hop : op <> KSwitchIn).
      { intros ->. destruct (switch_in_spec F1 s1 R S Zs K1 Hok) as [(E2 & _)|(r & s3 & E2 & _)]; unfold run_kop in E;
          unfold mbind at 1, M_bind at 1, gets at 1 in E; rewrite kt_gets in E; unfold mbind at 1, M_bind at 1 in E; by rewrite E2 in E. }
      pose proof (run_kop_kept t op s1 Hop Hcur) as Hk. rewrite E in Hk. cbn in Hk. rewrite Hk. apply Hc1. }
  destruct Hk as ((F' & R & S & Zs & K') & Hc' & Hn). split; [done|]. split; [by eapply caught_running|]. split; [done|].
  intros t' Hin. apply (kreach_ok F) in Hr as [_ Ha]; [|done]. apply list_elem_of_split in Hin as (tr1 & tr2 & ->).
  apply asteps_app in Ha as (a & Ha & a2 & (_ & H0 & _) & _). assert (a.2 !! l = Some t); [|congruence].
  apply (held_until_released tr1 l t _ a Ha Ht (proj2 Hc)). intros Hx. apply Hn. apply elem_of_app. by left.
Qed.

(** C1: Mutual exclusion: in every run, between two acquisitions of a lock the
    first thread released it. *)
Theorem lock_mutual_exclusion F s s' tr1 tr2 tr3 t t' l :
  kok F s -> kreach s (tr1 ++ EvAcquire t l :: tr2 ++ EvAcquire t' l :: tr3) s' ->
  EvRelease t l ∈ tr2.
Proof.
  intros K Hr. apply (kreach_ok F) in Hr as [_ Hr]; [|done].
  apply asteps_app in Hr as (a1 & _ & a2 & (Ht & _ & ->) & Hr).
  apply asteps_app in Hr as (a3 & Hr & a4 & (_ & Hl & _) & _).
  destruct (decide (EvRelease t l ∈ tr2)) as [|Hn]; [done|exfalso].
  assert (a3.2 !! l = Some t); [|congruence].
  eapply held_until_released; [done|done|simpl; by rewrite lookup_insert_eq|done].
Qed.

(** How often a call completed on a semaphore. *)
Fixpoint completed_P (p : Z) (tr : list event) : Z :=
  match tr with
  | [] => 0
  | EvP _ q :: tr => (if decide (q = p) then 1 else 0) + completed_P p tr
  | _ :: tr => completed_P p tr
  end.
Fixpoint completed_V (p : Z) (tr : list event) : Z :=
  match tr with
  | [] => 0
  | EvV _ q :: tr => (if decide (q = p) then 1 else 0) + completed_V p tr
  | _ :: tr => completed_V p tr
  end.

Lemma asteps_count tr p n a a' :
  asteps tr a a' -> a.1 !! p = Some n -> EvSemGone p ∉ tr ->
  a'.1 !! p = Some (n + completed_V p tr - completed_P p tr).
Proof.
  revert a n. induction tr as [|e tr IH]; intros a n; simpl.
  { intros -> -> _. f_equal. lia. }
  intros (a1 & He & Hs) Hn Hg. apply not_elem_of_cons in Hg as [Hge Hg].
  destruct e as [t q|t q|t l|t l|q m|q|l]; simpl in He;
    repeat match goal with
    | Hx : exists _, _ |- _ => destruct Hx
    | Hx : _ /\ _ |- _ => destruct Hx
    end; subst; try (eapply IH; done).
  - case_decide as D; [subst q; simplify_eq|].
    + erewrite (IH _ _ Hs); [|simpl; apply lookup_insert_eq|done]. f_equal. lia.
    + rewrite (IH _ n Hs); [done|simpl; by rewrite lookup_insert_ne|done].
  - case_decide as D; [subst q; simplify_eq|].
    + erewrite (IH _ _ Hs); [|simpl; apply lookup_insert_eq|done]. f_equal. lia.
    + rewrite (IH _ n Hs); [done|simpl; by rewrite lookup_insert_ne|done].
  - apply (IH _ _ Hs); [|done]. simpl. rewrite lookup_insert_ne; [done|congruence].
  - apply (IH _ _ Hs); [|done]. simpl. rewrite lookup_delete_ne; [done|congruence].
Qed.

(** C2: A semaphore counts: in every run its count is the initial one, plus the
    completed [V]s, minus the completed [P]s, and never negative. *)
Theorem semaphore_counts F s s' tr p n :
  kok F s -> kreach s tr s' -> counts s !! p = Some n -> EvSemGone p ∉ tr ->
  counts s' !! p = Some (n + completed_V p tr - completed_P p tr) /\
  completed_P p tr <= n + completed_V p tr.
Proof.
  intros K Hr Hn Hg. destruct (kreach_ok F s tr s' K Hr) as [(F' & R & S & Zs & K') Ha].
  pose proof (asteps_count tr p n (abs s) (abs s') Ha Hn Hg) as Hc. split; [done|].
  apply counts_lookup in Hc as (y & Hy & E). pose proof (ki_sem _ _ _ _ _ _ K' p y Hy). lia.
Qed.

(** C8: No wakeup is lost: in every reachable state, a thread in the table of
    sleepers is in a call on the address it sleeps on, and what it waits for is
    not available. *)
Theorem no_lost_wakeup F s s' tr sl t :
  kok F s -> kreach s tr s' -> sleepers (ts s') = Some sl -> Some t ∈ contents sl ->
  exists w th, waits s' !! t = Some w /\ threads (ts s') !! t = Some th /\
    sleeping_on w = Some (t_sleepaddr th) /\ blocked s' w.
Proof.
  intros K Hr Hsl Ht. destruct (kreach_ok F s tr s' K Hr) as [(F' & R & S & Zs & K') _].
  destruct (ki_thr _ _ _ _ _ _ K') as (B & sl' & zs & rq & [T _ _]).
  rewrite (tb_sleepers _ _ _ _ _ _ _ _ T) in Hsl. injection Hsl as ->.
  rewrite (tb_S _ _ _ _ _ _ _ _ T) in Ht. apply list_elem_of_fmap in Ht as (t' & [= <-] & Ht).
  destruct (ki_sleep _ _ _ _ _ _ K' t Ht) as (w & th & ? & ? & ? & Hb). exists w, th. split_and!; try done.
  by apply Hb.
Qed.

(** ** Start *)

(** The kernel once the thread system is up. *)
Definition ksys_init x : ksys H VN := mkksys x ∅ ∅ ∅ ∅ 0.

Lemma ksys_init_ok x : tinv x [] [] [] -> in_interrupt x = 0 -> kok ∅ (ksys_init x).
Proof.
  intros (B & sl & zs & rq & [T P C]) Hi. exists [], [], []. split; simpl; try done.
  - exists B, sl, zs, rq. split; [|done|done]. destruct T. split; try done. split; [apply map_disjoint_empty_r|].
    by rewrite map_union_empty.
  - apply owns_nil.
  - intros t Ht. by apply elem_of_nil in Ht.
  - intros t th Ht. by apply elem_of_nil in Ht.
  - intros t th Ht. by apply elem_of_nil in Ht.
Qed.

End inv.

End SynchInv.
