(* ===== verification/Boot.v ===== *)
(** * The kernel on its heap

    The thread system and the synchronization primitives with the allocator of
    Kheap.v under them: the machine as it boots, runs of it that are computed,
    and the consequences of [lock_destroy] and of a full run queue. *)

From S2P Require Import Prelude Kmalloc Array Queue Bitmap Ram Kheap Thread ThreadInv Synch SynchInv.
Import Kmalloc Array Queue Thread ThreadInv Synch SynchInv.

Module Boot.

#[export] Existing Instances Kheap.kheap_Kmalloc Kheap.kheap_KmallocSpec.

(** Reference counts of vnodes that are never looked at: threads of the kernel
    have no current directory before the file systems are up. *)
#[export] Instance no_vnodes : VnodeRefs unit := {|
  VOP_INCREF := fun _ => mret tt;
  VOP_DECREF := fun _ => mret tt;
|}.
#[export] Instance no_vnodes_laws : VnodeRefsLaws unit.
Proof. split. by intros v [] []. Qed.

(** Memory with [n] pages behind a kernel image of 64 KB. *)
Definition pages (n : Z) : Ram.ram :=
  Ram.ram_bootstrap (65536 + n * Ram.PAGE_SIZE) (Ram.MIPS_KSEG0 + 65536).
Definition heap0 (n : Z) : Kheap.kheap := Kheap.kheap_init (pages n).

Lemma pages_wf n : 0 <= n <= 1000 -> Ram.wf (pages n).
Proof.
  intros Hn. unfold pages, Ram.ram_bootstrap, Ram.MIPS_KSEG0, Ram.PAGE_SIZE.
  rewrite u32_small by lia.
  split; simpl; unfold Ram.RAM_MAX, Ram.PAGE_SIZE; repeat case_decide; try done; lia.
Qed.

Lemma heap0_rep n : 0 <= n <= 1000 -> heap_rep (heap0 n) ∅.
Proof. intros. by apply Kheap.kheap_init_rep, pages_wf. Qed.

Section alloc.
Context {H : Type} `{!Kmalloc H, !KmallocSpec H}.

(** Heaps that were got by allocating, for computed runs. *)
Definition after {S A} (d : S) (o : outcome S A) : S := match o with Done _ s | Fail _ s => s | _ => d end.
Definition result {S A} (d : A) (o : outcome S A) : A := match o with Done a _ => a | _ => d end.

Lemma alloc_rep (h : H) B n p h' :
  heap_rep h B -> 0 <= n <= KMALLOC_MAX -> kmalloc n h = Done p h' -> p <> 0 ->
  B !! p = None /\ heap_rep h' (<[p := n]> B).
Proof.
  intros R Hn E Hp. destruct (kmalloc_spec h B n R Hn) as [(h1 & E1 & _)|(p1 & h1 & E1 & _ & HB & R1)];
    rewrite E in E1; by simplify_eq.
Qed.

Lemma tinv_alloc {V} (s : tsys H V) R S Zs n p h' :
  tinv s R S Zs -> 0 <= n <= KMALLOC_MAX -> kmalloc n (heap s) = Done p h' -> p <> 0 ->
  tinv (set_heap h' s) R S Zs.
Proof.
  intros (B & sl & zs & rq & [T P C]) Hn E Hp. destruct T.
  destruct (alloc_rep _ _ _ _ _ tb_heap0 Hn E Hp) as [HB R'].
  exists (<[p := n]> B), sl, zs, rq. split; [|by eapply (part_same s); [done..|intros X; split; [by apply P|done]]|done].
  split; try done. destruct tb_owns0 as [N O]. split; [done|]. intros a m Hin.
  rewrite lookup_insert_ne; [by apply O|]. intros <-. apply O in Hin. congruence.
Qed.
End alloc.

(** ** Forking *)

Fixpoint forks {H V} `{!Kmalloc H, !VnodeRefs V} (n : nat) : M (tsys H V) unit :=
  match n with
  | O => mret tt
  | S n => _ ← thread_fork 4; forks n
  end.

Fixpoint mallocs {H V} `{!Kmalloc H} (n : nat) (sz : Z) (s : tsys H V) : option (tsys H V) :=
  match n with
  | O => Some s
  | S n =>
      match kmalloc sz (heap s) with
      | Done p h => if decide (p = 0) then None else mallocs n sz (set_heap h s)
      | _ => None
      end
  end.

Section runs.
Context {H : Type} `{!Kmalloc H, !KmallocSpec H}.
Implicit Types s : tsys H unit.

Lemma forks_inv n s R S Zs s' :
  tinv s R S Zs -> curthread s <> 0 -> Z.of_nat (base.size (threads s) + n) < MAXTHREADS ->
  forks n s = Done tt s' -> curthread s' <> 0 /\ exists R', tinv s' R' S Zs.
Proof.
  revert s R. induction n as [|n IH]; intros s R I Hc Hsz; simpl; munfold; [intros [= <-]; eauto|].
  pose proof I as (B & sl & zs & rq & I0).
  destruct (thread_fork_inv s B sl zs rq R S Zs 4 I0 Hc) as
    [(s1 & E & _)|(t & s1 & E & Ht & _ & Hc1 & _ & I1 & _ & th & Et & _)]; try rewrite E; try done.
  - rewrite <- part_size by apply I0. lia.
  - intros me Hme Hw. by exists (vnodes s).
  - apply (IH s1 (R ++ [t])); [done|by rewrite Hc1|]. rewrite Et, map_size_insert_None by done. lia.
Qed.

Lemma boot_ok (h : H) B s me :
  heap_rep h B -> boot_threads (tsys_init h tt) = Done me s ->
  tinv s [] [] [] /\ curthread s = me /\ base.size (threads s) = 1%nat.
Proof.
  intros R E. destruct (boot_threads_spec h B tt R) as [Ep|(me' & s' & Es & Hc & Hn & I)]; [congruence|].
  rewrite E in Es. injection Es as <- <-. split; [done|]. split; [done|].
  pose proof I as (B' & sl & zs & rq & I0). rewrite (part_size s [] [] []) by apply I0. unfold cur_list.
  case_decide as D; [|done]. pose proof (pt_count _ _ _ _ (ti_part _ _ _ _ _ _ _ _ I0)) as Hk.
  unfold cur_list in Hk. rewrite decide_True in Hk by done. simpl in Hk. lia.
Qed.

Lemma mallocs_inv n sz s R S Zs s' :
  tinv s R S Zs -> 0 <= sz <= KMALLOC_MAX -> mallocs n sz s = Some s' ->
  tinv s' R S Zs /\ curthread s' = curthread s.
Proof.
  revert s. induction n as [|n IH]; intros s I Hsz; simpl; [by intros [= <-]|].
  destruct (kmalloc sz (heap s)) as [p h| | | |] eqn:E; try done. case_decide as D; [done|]. intros E'.
  destruct (IH (set_heap h s)) as [? ?]; [by eapply tinv_alloc|done|done|]. done.
Qed.

Lemma tinv_ready s R S Zs rq :
  tinv s R S Zs -> runqueue s = Some rq -> Z.of_nat (length R) = qlen rq.
Proof.
  intros (B & sl & zs & rq' & [T _ _]) E. rewrite (tb_runqueue _ _ _ _ _ _ _ _ T) in E. injection E as ->.
  symmetry. apply qlen_length; apply T.
Qed.

End runs.

(** ** Lock destruction *)

(** [lock_destroy] frees the flag of the lock as if it pointed to memory: on a
    lock that nobody holds the flag is 1, and the heap panics. *)
Theorem lock_destroy_panics {VN} (s : ksys Kheap.kheap VN) (B : gmap Z Z) (l : Z) (y : lock) :
  heap_rep (heap (ts s)) B -> l <> 0 -> locks s !! l = Some y -> available y = 1 ->
  lock_destroy l s = Panic.
Proof.
  intros R Hl Hy Ha. unfold lock_destroy. munfold. rewrite bool_decide_eq_true_2 by done.
  rewrite (get_lock_eq l s y Hy), Ha. unfold kdrop at 1. rewrite (kt_Panic _ s); [done|].
  unfold zoom. simpl. by rewrite (Kheap.kfree_misaligned _ B).
Qed.

End Boot.
