(* ===== verification/Vm.v ===== *)
(** * Virtual memory: kern/arch/mips/mips/dumbvm.c

    Address spaces of two regions and a stack, the refill of the TLB on a fault
    (kern/arch/mips/mips/tlb_mips1.S, kern/arch/mips/include/tlb.h) and the copy of an
    address space, over the thread system of Thread.v and the allocator of Kheap.v,
    whose physical memory the user pages come from.  [pmem] holds the bytes of those
    pages, [tlb] the 64 entries of the processor, [spaces] the structures by address. *)

From Stdlib Require Import ZifyNat.
From S2P Require Import Prelude Kmalloc Ram Kheap Thread.
Import Ram Thread.

Module Vm.

(** ** Data *)

(** [struct addrspace] *)
Record addrspace := mkas {
  as_vbase1 : Z; as_pbase1 : Z; as_npages1 : Z;
  as_vbase2 : Z; as_pbase2 : Z; as_npages2 : Z;
  as_stackpbase : Z;
}.

Definition sizeof_addrspace : Z := 28.
Definition DUMBVM_STACKPAGES : Z := 12.

Inductive faulttype := VM_FAULT_READ | VM_FAULT_WRITE | VM_FAULT_READONLY | VM_FAULT_OTHER.

#[global] Instance faulttype_eq_dec : EqDecision faulttype.
Proof. solve_decision. Defined.

(** Fields of a TLB entry, high word and low word. *)
Definition TLBHI_VPAGE : Z := 4294963200.  (* 0xfffff000 *)
Definition TLBHI_PID : Z := 4032.          (* 0x00000fc0 *)
Definition TLBLO_PPAGE : Z := 4294963200.
Definition TLBLO_DIRTY : Z := 1024.
Definition TLBLO_VALID : Z := 512.
Definition TLBLO_GLOBAL : Z := 256.
Definition TLBHI_INVALID (entryno : Z) : Z := u32 (Z.shiftl (524288 + entryno) 12).
Definition TLBLO_INVALID : Z := 0.
Definition NUM_TLB : Z := 64.

Record vmsys (V : Type) := mkvm {
  vts : tsys Kheap.kheap V;
  pmem : gmap Z Z;
  tlb : list (Z * Z);
  spaces : gmap Z addrspace;
}.
Arguments mkvm {V} _ _ _ _.
Arguments vts {V} _.
Arguments pmem {V} _.
Arguments tlb {V} _.
Arguments spaces {V} _.

(** ** The TLB *)

(** An entry answers for the page in [ehi] when the page is the same and the
    address space id is the same or not looked at. *)
Definition tlb_match (ehi : Z) (e : Z * Z) : Prop :=
  Z.land e.1 TLBHI_VPAGE = Z.land ehi TLBHI_VPAGE /\
  (Z.land e.1 TLBHI_PID = Z.land ehi TLBHI_PID \/ Z.land e.2 TLBLO_GLOBAL <> 0).

#[global] Instance tlb_match_dec ehi e : Decision (tlb_match ehi e).
Proof. unfold tlb_match. apply _. Defined.

Definition tlb_valid (e : Z * Z) : Prop := Z.land e.2 TLBLO_VALID <> 0.

#[global] Instance tlb_valid_dec e : Decision (tlb_valid e).
Proof. unfold tlb_valid. apply _. Defined.

(** The processor's use of the entries for an address, with address space id 0: the physical
    address, or the fault it raises.  An entry matches also when it is not valid. *)
Definition mmu (t : list (Z * Z)) (write : bool) (va : Z) : faulttype + Z :=
  match list_find (tlb_match (Z.land va TLBHI_VPAGE)) t with
  | Some (_, e) =>
      if decide (tlb_valid e) then
        if decide (write = true /\ Z.land e.2 TLBLO_DIRTY = 0) then inl VM_FAULT_READONLY
        else inr (Z.lor (Z.land e.2 TLBLO_PPAGE) (Z.land va 4095))
      else inl (if write then VM_FAULT_WRITE else VM_FAULT_READ)
  | None => inl (if write then VM_FAULT_WRITE else VM_FAULT_READ)
  end.

(** [TLB_Reset] of tlb_mips1.S, from the label [1] on: [i] is the index in [t0] and [t1] the
    virtual address.  The address is skipped when an entry answers for it. *)
Fixpoint TLB_Reset_loop (fuel : nat) (i : nat) (t1 : Z) (t : list (Z * Z)) : option (list (Z * Z)) :=
  match fuel with
  | O => None
  | S fuel' =>
      match list_find (tlb_match t1) t with
      | Some _ => TLB_Reset_loop fuel' i (u32 (t1 + 4096)) t
      | None =>
          let t' := <[i := (t1, 0)]> t in
          if decide (Z.of_nat i + 1 = NUM_TLB) then Some t'
          else TLB_Reset_loop fuel' (S i) (u32 (t1 + 4096)) t'
      end
  end.

(** Each address is either written to one of the 64 entries or skipped because of one. *)
Definition TLB_Reset (t : list (Z * Z)) : option (list (Z * Z)) :=
  TLB_Reset_loop 128 0 2164260864 t.

Section ops.
Context {V : Type}.

Abbreviation VM := (M (vmsys V)).

Definition set_vts x (s : vmsys V) : vmsys V := mkvm x (pmem s) (tlb s) (spaces s).
Definition set_pmem x (s : vmsys V) : vmsys V := mkvm (vts s) x (tlb s) (spaces s).
Definition set_tlb x (s : vmsys V) : vmsys V := mkvm (vts s) (pmem s) x (spaces s).
Definition set_spaces x (s : vmsys V) : vmsys V := mkvm (vts s) (pmem s) (tlb s) x.

Definition vtsL : lens (vmsys V) (tsys Kheap.kheap V) := Lens vts set_vts.
(** A routine of the thread system, of the heap, of the physical memory. *)
Definition vt {A} (m : M (tsys Kheap.kheap V) A) : VM A := zoom vtsL m.
Definition vh {A} (m : M Kheap.kheap A) : VM A := vt (zoom theapL m).
Definition getppages (npages : Z) : VM Z := vh (zoom Kheap.physL (Ram.getppages npages)).

Definition get_as (p : Z) : VM addrspace := s ← gets id; access (spaces s !! p).
Definition put_as (p : Z) (a : addrspace) : VM unit :=
  modify (fun s => set_spaces (<[p := a]> (spaces s)) s).

Definition TLB_Read (i : Z) : VM (Z * Z) := s ← gets id; access (zlookup (tlb s) i).
Definition TLB_Write (ehi elo i : Z) : VM unit :=
  s ← gets id;
  t ← access (zinsert (tlb s) i (ehi, elo));
  modify (set_tlb t).

(** ** Faults *)

(** The loop over the entries of [vm_fault]; [n] entries are left. *)
Fixpoint refill (n : nat) (i faultaddress paddr : Z) : VM bool :=
  match n with
  | O => mret false
  | S n' =>
      e ← TLB_Read i;
      if decide (Z.land e.2 TLBLO_VALID <> 0) then refill n' (i + 1) faultaddress paddr
      else
        let ehi := faultaddress in
        let elo := Z.lor (Z.lor paddr TLBLO_DIRTY) TLBLO_VALID in
        TLB_Write ehi elo i ;;
        mret true
  end.

(** The twelve assertions on the address space. *)
Definition assert_setup (a : addrspace) : VM unit :=
  kassert (bool_decide (as_vbase1 a <> 0)) ;;
  kassert (bool_decide (as_pbase1 a <> 0)) ;;
  kassert (bool_decide (as_npages1 a <> 0)) ;;
  kassert (bool_decide (as_vbase2 a <> 0)) ;;
  kassert (bool_decide (as_pbase2 a <> 0)) ;;
  kassert (bool_decide (as_npages2 a <> 0)) ;;
  kassert (bool_decide (as_stackpbase a <> 0)) ;;
  kassert (bool_decide (Z.land (as_vbase1 a) PAGE_FRAME = as_vbase1 a)) ;;
  kassert (bool_decide (Z.land (as_pbase1 a) PAGE_FRAME = as_pbase1 a)) ;;
  kassert (bool_decide (Z.land (as_vbase2 a) PAGE_FRAME = as_vbase2 a)) ;;
  kassert (bool_decide (Z.land (as_pbase2 a) PAGE_FRAME = as_pbase2 a)) ;;
  kassert (bool_decide (Z.land (as_stackpbase a) PAGE_FRAME = as_stackpbase a)).

(** The physical page for a page-aligned address. *)
Definition fault_paddr (a : addrspace) (faultaddress : Z) : option Z :=
  let vbase1 := as_vbase1 a in
  let vtop1 := u32 (vbase1 + as_npages1 a * PAGE_SIZE) in
  let vbase2 := as_vbase2 a in
  let vtop2 := u32 (vbase2 + as_npages2 a * PAGE_SIZE) in
  let stackbase := USERSTACK - DUMBVM_STACKPAGES * PAGE_SIZE in
  let stacktop := USERSTACK in
  if decide (faultaddress >= vbase1 /\ faultaddress < vtop1) then
    Some (u32 ((faultaddress - vbase1) + as_pbase1 a))
  else if decide (faultaddress >= vbase2 /\ faultaddress < vtop2) then
    Some (u32 ((faultaddress - vbase2) + as_pbase2 a))
  else if decide (faultaddress >= stackbase /\ faultaddress < stacktop) then
    Some (u32 ((faultaddress - stackbase) + as_stackpbase a))
  else None.

Definition vm_fault (ft : faulttype) (va : Z) : VM unit :=
  spl ← vt splhigh;
  let faultaddress := Z.land va PAGE_FRAME in
  match ft with
  | VM_FAULT_READONLY => panic
  | VM_FAULT_OTHER => _ ← vt (splx spl); fail EINVAL
  | VM_FAULT_READ | VM_FAULT_WRITE =>
      cur ← gets (fun s => curthread (vts s));
      th ← vt (get_thread cur);
      if decide (t_vmspace th = 0) then fail EFAULT
      else
        a ← get_as (t_vmspace th);
        assert_setup a ;;
        match fault_paddr a faultaddress with
        | None => _ ← vt (splx spl); fail EFAULT
        | Some paddr =>
            kassert (bool_decide (Z.land paddr PAGE_FRAME = paddr)) ;;
            b ← refill (Z.to_nat NUM_TLB) 0 faultaddress paddr;
            _ ← vt (splx spl);
            if b : bool then mret tt else fail EFAULT
        end
  end.

(** ** Address spaces *)

Definition as_create : VM Z :=
  p ← vh (Kheap.kmalloc sizeof_addrspace);
  if decide (p = 0) then mret 0
  else put_as p (mkas 0 0 0 0 0 0 0) ;; mret p.

Definition as_destroy (p : Z) : VM unit :=
  vh (Kheap.kfree p) ;; modify (fun s => set_spaces (delete p (spaces s)) s).

Definition as_activate : VM unit :=
  spl ← vt splhigh;
  for_n (Z.to_nat NUM_TLB) 0 (fun i => TLB_Write (TLBHI_INVALID i) TLBLO_INVALID i) ;;
  _ ← vt (splx spl);
  mret tt.

Definition set_region1 (v n : Z) (a : addrspace) : addrspace :=
  mkas v (as_pbase1 a) n (as_vbase2 a) (as_pbase2 a) (as_npages2 a) (as_stackpbase a).
Definition set_region2 (v n : Z) (a : addrspace) : addrspace :=
  mkas (as_vbase1 a) (as_pbase1 a) (as_npages1 a) v (as_pbase2 a) n (as_stackpbase a).
Definition set_pbase1 (x : Z) (a : addrspace) : addrspace :=
  mkas (as_vbase1 a) x (as_npages1 a) (as_vbase2 a) (as_pbase2 a) (as_npages2 a) (as_stackpbase a).
Definition set_pbase2 (x : Z) (a : addrspace) : addrspace :=
  mkas (as_vbase1 a) (as_pbase1 a) (as_npages1 a) (as_vbase2 a) x (as_npages2 a) (as_stackpbase a).
Definition set_stackpbase (x : Z) (a : addrspace) : addrspace :=
  mkas (as_vbase1 a) (as_pbase1 a) (as_npages1 a) (as_vbase2 a) (as_pbase2 a) (as_npages2 a) x.

(** The pages of a segment: its first page and their number. *)
Definition region_pages (vaddr sz : Z) : Z * Z :=
  let sz := u32 (sz + Z.land vaddr (PAGE_SIZE - 1)) in
  let vaddr := Z.land vaddr PAGE_FRAME in
  let sz := Z.land (u32 (sz + PAGE_SIZE - 1)) PAGE_FRAME in
  (vaddr, sz / PAGE_SIZE).

(** The permissions are not used. *)
Definition as_define_region (p vaddr sz : Z) : VM unit :=
  a ← get_as p;
  let '(vaddr, npages) := region_pages vaddr sz in
  if decide (as_vbase1 a = 0) then put_as p (set_region1 vaddr npages a)
  else if decide (as_vbase2 a = 0) then put_as p (set_region2 vaddr npages a)
  else fail EUNIMP.

Definition as_prepare_load (p : Z) : VM unit :=
  a ← get_as p;
  kassert (bool_decide (as_pbase1 a = 0)) ;;
  kassert (bool_decide (as_pbase2 a = 0)) ;;
  kassert (bool_decide (as_stackpbase a = 0)) ;;
  pa1 ← getppages (as_npages1 a);
  put_as p (set_pbase1 pa1 a) ;;
  if decide (pa1 = 0) then fail ENOMEM
  else
    pa2 ← getppages (as_npages2 a);
    put_as p (set_pbase2 pa2 (set_pbase1 pa1 a)) ;;
    if decide (pa2 = 0) then fail ENOMEM
    else
      pa3 ← getppages DUMBVM_STACKPAGES;
      put_as p (set_stackpbase pa3 (set_pbase2 pa2 (set_pbase1 pa1 a))) ;;
      if decide (pa3 = 0) then fail ENOMEM else mret tt.

Definition as_complete_load (p : Z) : VM unit := mret tt.

Definition as_define_stack (p : Z) : VM Z :=
  a ← get_as p;
  kassert (bool_decide (as_stackpbase a <> 0)) ;;
  mret USERSTACK.

(** A byte of physical memory; what was never stored reads as some fixed value. *)
Definition rd (m : gmap Z Z) (pa : Z) : Z := default 0 (m !! pa).

(** [memmove] through the kernel's view of physical memory: all is read before it is
    written. *)
Definition copy_bytes (m : gmap Z Z) (dst src : Z) (n : nat) : gmap Z Z :=
  foldl (fun acc i => <[dst + Z.of_nat i := rd m (src + Z.of_nat i)]> acc) m (seq 0 n).
Definition kmemmove (dst src n : Z) : VM unit :=
  modify (fun s => set_pmem (copy_bytes (pmem s) (dst - MIPS_KSEG0) (src - MIPS_KSEG0) (Z.to_nat n)) s).

Definition as_copy (old : Z) : VM Z :=
  nu ← as_create;
  if decide (nu = 0) then fail ENOMEM
  else
    o ← get_as old;
    put_as nu (mkas (as_vbase1 o) 0 (as_npages1 o) (as_vbase2 o) 0 (as_npages2 o) 0) ;;
    r ← attempt (as_prepare_load nu);
    match r with
    | inl _ => as_destroy nu ;; fail ENOMEM
    | inr _ =>
        a ← get_as nu;
        kassert (bool_decide (as_pbase1 a <> 0)) ;;
        kassert (bool_decide (as_pbase2 a <> 0)) ;;
        kassert (bool_decide (as_stackpbase a <> 0)) ;;
        o ← get_as old;
        kmemmove (PADDR_TO_KVADDR (as_pbase1 a)) (PADDR_TO_KVADDR (as_pbase1 o)) (u32 (as_npages1 o * PAGE_SIZE)) ;;
        kmemmove (PADDR_TO_KVADDR (as_pbase2 a)) (PADDR_TO_KVADDR (as_pbase2 o)) (u32 (as_npages2 o * PAGE_SIZE)) ;;
        kmemmove (PADDR_TO_KVADDR (as_stackpbase a)) (PADDR_TO_KVADDR (as_stackpbase o)) (DUMBVM_STACKPAGES * PAGE_SIZE) ;;
        mret nu
    end.

(** ** Use by threads *)

(** [runprogram]: the new address space becomes that of the thread. *)
Definition enter_space (p : Z) : VM unit :=
  cur ← gets (fun s => curthread (vts s));
  vt (upd_thread cur (set_vmspace p)) ;;
  as_activate.

(** [thread_exit] *)
Definition leave_space : VM unit :=
  cur ← gets (fun s => curthread (vts s));
  th ← vt (get_thread cur);
  if decide (t_vmspace th <> 0) then
    vt (upd_thread cur (set_vmspace 0)) ;; as_destroy (t_vmspace th)
  else mret tt.

(** The thread [t] was switched to: the end of [mi_switch], or [mi_threadstart]. *)
Definition switched_to (t : Z) : VM unit :=
  modify (fun s => set_vts (set_curthread t (vts s)) s) ;;
  th ← vt (get_thread t);
  if decide (t_vmspace th <> 0) then as_activate else mret tt.

(** An access by the running program: a fault is handled by [vm_fault], from [mips_trap],
    and the instruction is executed again. *)
Fixpoint user_access (fuel : nat) (write : bool) (va : Z) : VM Z :=
  match fuel with
  | O => nofuel
  | S fuel' =>
      t ← gets tlb;
      match mmu t write va with
      | inr pa => mret pa
      | inl ft => vm_fault ft va ;; user_access fuel' write va
      end
  end.

Definition load_byte (va : Z) : VM Z :=
  pa ← user_access 2 false va; gets (fun s => rd (pmem s) pa).
Definition store_byte (va v : Z) : VM unit :=
  pa ← user_access 2 true va; modify (fun s => set_pmem (<[pa := v]> (pmem s)) s).

End ops.

End Vm.
