(* ===== verification/VmInv.v ===== *)
(** * Virtual memory: what a program sees

    The invariant of the address spaces, their frames and the TLB, its preservation by
    every operation of Vm.v, and the theorems on user memory: each address is translated
    as its address space says, no two addresses share a byte, and the copy of an address
    space has the contents of the original. *)

From Stdlib Require Import ZifyNat.
From S2P Require Import Prelude Kmalloc Ram Kheap Thread Vm.
Import Ram Thread Vm.

Module VmInv.

(** ** Pages and bits *)

Definition page (va : Z) : Z := va - va mod 4096.

Lemma land_4095 x : Z.land x 4095 = x mod 4096.
Proof. change 4095 with (Z.ones 12). by rewrite Z.land_ones. Qed.

Lemma land_frame x : 0 <= x < 2 ^ 32 -> Z.land x PAGE_FRAME = page x.
Proof.
  intros Hx. unfold page. replace (x - x mod 4096) with (Z.shiftl (Z.shiftr x 12) 12)
    by (rewrite Z.shiftl_mul_pow2, Z.shiftr_div_pow2 by lia; change (2 ^ 12) with 4096; dlia).
  apply Z.bits_inj'. intros n Hn. change PAGE_FRAME with (Z.shiftl (Z.ones 20) 12).
  rewrite Z.land_spec, !Z.shiftl_spec, Z.testbit_ones by lia.
  destruct (decide (n < 12)) as [D|D]; [rewrite !(Z.testbit_neg_r _ (n - 12)) by lia; rewrite (proj2 (Z.leb_gt _ _)) by lia; apply andb_false_r|].
  rewrite Z.shiftr_spec, Z.sub_add, (proj2 (Z.leb_le _ _)) by lia.
  destruct (decide (n < 32)); [rewrite (proj2 (Z.ltb_lt _ _)) by lia; apply andb_true_r|].
  rewrite (proj2 (Z.ltb_ge _ _)) by lia. rewrite andb_false_r. symmetry.
  rewrite <- (Z.mod_small x (2 ^ 32)) by lia. apply Z.mod_pow2_bits_high. lia.
Qed.

Lemma lor_low a c : a mod 4096 = 0 -> 0 <= c < 4096 -> Z.lor a c = a + c.
Proof.
  intros Ha Hc. rewrite <- (Z.add_lor_land a c). replace (Z.land a c) with 0; [lia|].
  replace a with (Z.shiftl (a / 4096) 12) by (rewrite Z.shiftl_mul_pow2 by lia; change (2 ^ 12) with 4096; dlia).
  symmetry. apply Z.bits_inj'. intros n Hn. rewrite Z.land_spec, Z.bits_0, Z.shiftl_spec by lia.
  destruct (decide (n < 12)); [by rewrite (Z.testbit_neg_r _ (n - 12)) by lia|].
  rewrite <- (Z.mod_small c (2 ^ 12)) by lia. rewrite Z.mod_pow2_bits_high by lia. apply andb_false_r.
Qed.

(** The low word [vm_fault] writes for a frame: its fields are what they were made of. *)
Definition pte (pa : Z) : Z := Z.lor (Z.lor pa TLBLO_DIRTY) TLBLO_VALID.

Lemma pte_fields pa :
  0 <= pa < 2 ^ 32 -> pa mod 4096 = 0 ->
  Z.land (pte pa) TLBLO_PPAGE = pa /\ Z.land (pte pa) TLBLO_VALID <> 0 /\
  Z.land (pte pa) TLBLO_DIRTY <> 0 /\ Z.land (pte pa) TLBLO_GLOBAL = 0.
Proof.
  intros Hr Ha. assert (E : pte pa = pa + 1536).
  { unfold pte. rewrite <- Z.lor_assoc. by apply lor_low. }
  assert (Hb : forall n, Z.land (pte pa) (Z.land n 4095) = Z.land 1536 (Z.land n 4095)).
  { intros n. rewrite !(Z.land_comm n), !Z.land_assoc, land_4095, E, Z.add_mod, Ha by lia. done. }
  split_and!.
  - change TLBLO_PPAGE with PAGE_FRAME. rewrite E, land_frame by dlia. unfold page. dlia.
  - change TLBLO_VALID with (Z.land TLBLO_VALID 4095). by rewrite Hb.
  - change TLBLO_DIRTY with (Z.land TLBLO_DIRTY 4095). by rewrite Hb.
  - change TLBLO_GLOBAL with (Z.land TLBLO_GLOBAL 4095). by rewrite Hb.
Qed.

(** ** Specification *)

(** The physical address of [va], by the first of the regions it lies in. *)
Definition in_region (base n va : Z) : Prop := base <= va < base + n * PAGE_SIZE.
#[global] Instance in_region_dec base n va : Decision (in_region base n va).
Proof. unfold in_region. apply _. Defined.

Definition STACKBASE : Z := USERSTACK - DUMBVM_STACKPAGES * PAGE_SIZE.

Definition translate (a : addrspace) (va : Z) : option Z :=
  if decide (in_region (as_vbase1 a) (as_npages1 a) va) then Some (va - as_vbase1 a + as_pbase1 a)
  else if decide (in_region (as_vbase2 a) (as_npages2 a) va) then Some (va - as_vbase2 a + as_pbase2 a)
  else if decide (in_region STACKBASE DUMBVM_STACKPAGES va) then Some (va - STACKBASE + as_stackpbase a)
  else None.

(** All that [vm_fault] asserts to be set is set. *)
Definition loaded (a : addrspace) : Prop :=
  as_vbase1 a <> 0 /\ as_pbase1 a <> 0 /\ as_npages1 a <> 0 /\
  as_vbase2 a <> 0 /\ as_pbase2 a <> 0 /\ as_npages2 a <> 0 /\ as_stackpbase a <> 0.
#[global] Instance loaded_dec a : Decision (loaded a).
Proof. unfold loaded. apply _. Defined.

(** The runs of frames of an address space. *)
Definition runs (a : addrspace) : list (Z * Z) :=
  [(as_pbase1 a, as_npages1 a); (as_pbase2 a, as_npages2 a); (as_stackpbase a, DUMBVM_STACKPAGES)].

Record as_wf (a : addrspace) : Prop := {
  aw_v1 : 0 <= as_vbase1 a /\ as_vbase1 a mod 4096 = 0;
  aw_v2 : 0 <= as_vbase2 a /\ as_vbase2 a mod 4096 = 0;
  aw_n1 : 0 <= as_npages1 a <= MAXPAGES /\ as_vbase1 a + as_npages1 a * PAGE_SIZE < 2 ^ 32;
  aw_n2 : 0 <= as_npages2 a <= MAXPAGES /\ as_vbase2 a + as_npages2 a * PAGE_SIZE < 2 ^ 32;
}.

(** A run of frames that is set, and has pages. *)
Definition run_of (a : addrspace) (i : nat) (pb n : Z) : Prop :=
  runs a !! i = Some (pb, n) /\ pb <> 0 /\ n <> 0.

(** The entries of the TLB as those of address space [a]: what is valid is a translation of
    [a]; what is not answers for no user address. *)
Definition entry_ok (a : addrspace) (e : Z * Z) : Prop :=
  (tlb_valid e /\ loaded a /\ e.1 mod 4096 = 0 /\ 0 <= e.1 < 2 ^ 32 /\ exists pa, translate a e.1 = Some pa /\ e.2 = pte pa) \/
  (~ tlb_valid e /\ USERTOP <= e.1 < 2 ^ 32).

Section inv.
Context {V : Type}.
Implicit Types s : vmsys V.

Definition hp s : Kheap.kheap := heap (vts s).

(** The address space of the running thread. *)
Definition current s (p : Z) : Prop :=
  exists th, threads (vts s) !! curthread (vts s) = Some th /\ t_vmspace th = p.

(** [B] are the live blocks of the heap; the frames of user pages are among them. *)
Record vm_ok s (B : gmap Z Z) : Prop := {
  vo_heap : Kheap.kheap_rep (hp s) B;
  vo_struct : forall p a, spaces s !! p = Some a -> B !! p = Some sizeof_addrspace /\ as_wf a;
  vo_frames : forall p a i pb n, spaces s !! p = Some a -> run_of a i pb n ->
    B !! (pb + MIPS_KSEG0) = Some (n * PAGE_SIZE);
  vo_aligned : forall p a i pb n, spaces s !! p = Some a -> runs a !! i = Some (pb, n) -> 0 <= pb /\ pb mod 4096 = 0;
  vo_apart : forall p a i p' a' i' pb n n', spaces s !! p = Some a -> spaces s !! p' = Some a' ->
    run_of a i pb n -> run_of a' i' pb n' -> p = p' /\ i = i';
  vo_owner : forall t th, threads (vts s) !! t = Some th -> t_vmspace th <> 0 -> is_Some (spaces s !! t_vmspace th);
  vo_tlb : length (tlb s) = Z.to_nat NUM_TLB;
  vo_entries : forall p a, current s p -> spaces s !! p = Some a -> Forall (entry_ok a) (tlb s);
}.

(** What the program of address space [p] sees at [va]. *)
Definition paddr s (p va : Z) : option Z :=
  a ← spaces s !! p; if decide (loaded a) then translate a va else None.
Definition view s (p va : Z) : option Z := rd (pmem s) <$> paddr s p va.

End inv.

(** ** Consequences of the invariant *)

Definition vbases (a : addrspace) : list Z := [as_vbase1 a; as_vbase2 a; STACKBASE].

Lemma translate_run a va pa :
  translate a va = Some pa ->
  exists i pb n vb, runs a !! i = Some (pb, n) /\ vbases a !! i = Some vb /\
    in_region vb n va /\ pa = pb + (va - vb).
Proof.
  unfold translate. intros E.
  destruct (decide (in_region (as_vbase1 a) _ va)); [injection E as <-; eexists 0%nat, _, _, _; split_and!; [done..|lia]|].
  destruct (decide (in_region (as_vbase2 a) _ va)); [injection E as <-; eexists 1%nat, _, _, _; split_and!; [done..|lia]|].
  destruct (decide (in_region STACKBASE _ va)); [injection E as <-; eexists 2%nat, _, _, _; split_and!; [done..|lia]|done].
Qed.

Lemma loaded_run a i pb n : loaded a -> runs a !! i = Some (pb, n) -> run_of a i pb n.
Proof.
  intros L E. split; [done|]. unfold loaded in L. destruct i as [|[|[|i]]]; simpl in E; [injection E as <- <-..|done]; try tauto.
  by split; [tauto|].
Qed.

Lemma kheap_rep_ram h B : Kheap.kheap_rep h B -> wf (Kheap.phys h).
Proof. intros (G & L & SZ & [] & _). done. Qed.

Section sees.
Context {V : Type}.
Implicit Types s : vmsys V.

Lemma paddr_Some s p va pa :
  paddr s p va = Some pa <-> exists a, spaces s !! p = Some a /\ loaded a /\ translate a va = Some pa.
Proof.
  unfold paddr. destruct (spaces s !! p) as [a|]; simpl; [|naive_solver]. case_decide; naive_solver.
Qed.

(** Frames lie in memory. *)
Lemma frame_range s B p a i pb n :
  vm_ok s B -> spaces s !! p = Some a -> run_of a i pb n -> 0 < pb /\ 0 < n /\ pb mod 4096 = 0 /\ pb + n * PAGE_SIZE <= RAM_MAX.
Proof.
  intros O Ha Hr. pose proof (vo_frames _ _ O _ _ _ _ _ Ha Hr) as HB. destruct Hr as (E & Hp & Hn).
  destruct (vo_aligned _ _ O _ _ _ _ _ Ha E) as [H0 Hm].
  assert (Hn0 : 0 <= n).
  { destruct (vo_struct _ _ O _ _ Ha) as [_ []]. destruct i as [|[|[|i]]]; simpl in E; [injection E as _ <-..|done]; try lia.
    unfold DUMBVM_STACKPAGES. lia. }
  split; [lia|]. split; [lia|]. split; [done|].
  pose proof (Kheap.kheap_rep_place _ _ _ _ (vo_heap _ _ O) HB) as (_ & Hpl & _).
  destruct (kheap_rep_ram _ _ (vo_heap _ _ O)). unfold RAM_MAX, MIPS_KSEG0, PAGE_SIZE in *. lia.
Qed.

(** Two places that are mapped to one byte are the same place. *)
Lemma paddr_inj s B p q va wa pa :
  vm_ok s B -> paddr s p va = Some pa -> paddr s q wa = Some pa -> p = q /\ va = wa.
Proof.
  intros O (a & Ha & La & Ta)%paddr_Some (b & Hb & Lb & Tb)%paddr_Some.
  apply translate_run in Ta as (i & pb & n & vb & Ri & Vi & [? ?] & ->).
  apply translate_run in Tb as (j & qb & m & wb & Rj & Wj & [? ?] & E).
  apply (loaded_run a) in Ri; [|done]. apply (loaded_run b) in Rj; [|done].
  pose proof (vo_frames _ _ O _ _ _ _ _ Ha Ri) as Bp. pose proof (vo_frames _ _ O _ _ _ _ _ Hb Rj) as Bq.
  assert (pb = qb) as <-.
  { destruct (Z.lt_trichotomy pb qb) as [L|[->|L]]; [|done|].
    - pose proof (Kheap.kheap_rep_disjoint _ _ _ _ _ _ (vo_heap _ _ O) Bp Bq ltac:(lia)). lia.
    - pose proof (Kheap.kheap_rep_disjoint _ _ _ _ _ _ (vo_heap _ _ O) Bq Bp ltac:(lia)). lia. }
  destruct (vo_apart _ _ O _ _ _ _ _ _ _ _ _ Ha Hb Ri Rj) as [-> ->].
  rewrite Ha in Hb. injection Hb as ->. rewrite Vi in Wj. injection Wj as ->. split; [done|lia].
Qed.

End sees.

(** ** The processor and the refill *)

Lemma page_idem va : page (page va) = page va.
Proof. unfold page. dlia. Qed.

Lemma region_page base n va : base mod 4096 = 0 -> in_region base n (page va) <-> in_region base n va.
Proof. unfold in_region, page, PAGE_SIZE. intros. dlia. Qed.

(** A page is translated as a whole. *)
Lemma translate_page a va :
  as_wf a -> translate a (page va) = (fun pa => pa - va mod 4096) <$> translate a va.
Proof.
  intros []. unfold translate.
  rewrite (decide_ext (in_region (as_vbase1 a) _ (page va)) (in_region (as_vbase1 a) (as_npages1 a) va)) by (apply region_page; tauto).
  rewrite (decide_ext (in_region (as_vbase2 a) _ (page va)) (in_region (as_vbase2 a) (as_npages2 a) va)) by (apply region_page; tauto).
  rewrite (decide_ext (in_region STACKBASE _ (page va)) (in_region STACKBASE DUMBVM_STACKPAGES va)) by (by apply region_page).
  repeat case_decide; simpl; f_equal; unfold page; lia.
Qed.

(** Frames are aligned and in memory. *)
Definition frames_ok (a : addrspace) : Prop :=
  forall i pb n, run_of a i pb n -> 0 < pb /\ 0 < n /\ pb mod 4096 = 0 /\ pb + n * PAGE_SIZE <= RAM_MAX.

Lemma translate_range a va pa :
  loaded a -> frames_ok a -> translate a va = Some pa -> 0 < pa < RAM_MAX.
Proof.
  intros L F (i & pb & n & vb & R & _ & [? ?] & ->)%translate_run. destruct (F i pb n (loaded_run _ _ _ _ L R)). lia.
Qed.

(** The offset in the page is kept. *)
Lemma translate_mod a va pa :
  as_wf a -> loaded a -> frames_ok a -> translate a va = Some pa -> pa mod 4096 = va mod 4096.
Proof.
  intros W L F (i & pb & n & vb & R & Vb & _ & ->)%translate_run.
  destruct (F i pb n (loaded_run _ _ _ _ L R)) as (_ & _ & Hpb & _).
  assert (vb mod 4096 = 0) by (destruct W; destruct i as [|[|[|i]]]; simpl in Vb; [injection Vb as <-..|done]; tauto). dlia.
Qed.

Lemma fault_paddr_translate a va :
  as_wf a -> loaded a -> frames_ok a -> fault_paddr a va = translate a va.
Proof.
  intros [? ? N1 N2] L F. unfold fault_paddr, translate, USERTOP, MIPS_KSEG0, RAM_MAX, PAGE_SIZE in *.
  rewrite (u32_small (as_vbase1 a + _)), (u32_small (as_vbase2 a + _)) by lia.
  pose proof (F 0%nat _ _ (loaded_run _ 0%nat _ _ L eq_refl)). pose proof (F 1%nat _ _ (loaded_run _ 1%nat _ _ L eq_refl)).
  pose proof (F 2%nat _ _ (loaded_run _ 2%nat _ _ L eq_refl)). unfold RAM_MAX, PAGE_SIZE in *.
  fold STACKBASE.
  repeat match goal with
  | |- context [decide (va >= ?x /\ va < ?y)] => destruct (decide (va >= x /\ va < y))
  end;
  repeat match goal with
  | |- context [decide (in_region ?x ?y va)] =>
      first [ rewrite (decide_True (P := in_region x y va)) by (unfold in_region, PAGE_SIZE, STACKBASE, USERSTACK, USERTOP, MIPS_KSEG0, PAGE_SIZE, DUMBVM_STACKPAGES in *; lia)
            | rewrite (decide_False (P := in_region x y va)) by (unfold in_region, PAGE_SIZE, STACKBASE, USERSTACK, USERTOP, MIPS_KSEG0, PAGE_SIZE, DUMBVM_STACKPAGES in *; lia) ]
  end; try done; f_equal; apply u32_small; unfold STACKBASE, USERSTACK, USERTOP, MIPS_KSEG0, PAGE_SIZE, DUMBVM_STACKPAGES in *; lia.
Qed.

(** The processor translates user addresses as the address space says, or raises the fault
    for a page no entry answers for. *)
Lemma mmu_spec a t w va :
  as_wf a -> frames_ok a -> Forall (entry_ok a) t -> 0 <= va < USERTOP ->
  (exists pa, mmu t w va = inr pa /\ translate a va = Some pa /\ loaded a) \/
  (mmu t w va = inl (if w then VM_FAULT_WRITE else VM_FAULT_READ) /\
   Forall (fun e => ~ tlb_match (page va) e) t).
Proof.
  intros W F T Hva. unfold mmu. change TLBHI_VPAGE with PAGE_FRAME.
  unfold USERTOP, MIPS_KSEG0 in Hva. rewrite land_frame by lia.
  destruct (list_find _ t) as [[i e]|] eqn:E.
  2:{ right. split; [done|]. by apply list_find_None in E. }
  left. apply list_find_Some in E as (Ei & [Hm _] & _). change TLBHI_VPAGE with PAGE_FRAME in Hm.
  rewrite (land_frame (page va)), page_idem in Hm by (unfold page; dlia).
  pose proof (Forall_lookup_1 _ _ _ _ T Ei) as [(Hv & L & Hal & Hr & pa & Htr & Epa)|(_ & He)].
  2:{ exfalso. rewrite land_frame in Hm by (unfold USERTOP, MIPS_KSEG0 in *; lia). unfold page, USERTOP, MIPS_KSEG0 in *. dlia. }
  assert (e.1 = page va) as He1 by (rewrite <- Hm, land_frame by lia; unfold page; lia).
  rewrite He1 in Htr. pose proof (translate_range _ _ _ L F Htr) as Hpr. rewrite (translate_page _ _ W) in Htr.
  destruct (translate a va) as [pa'|] eqn:Et; [|done]. simpl in Htr. injection Htr as <-.
  assert (Hpal : (pa' - va mod 4096) mod 4096 = 0).
  { pose proof (translate_mod _ _ _ W L F Et). dlia. }
  unfold RAM_MAX in Hpr. destruct (pte_fields (pa' - va mod 4096) ltac:(lia) Hpal) as (F1 & F2 & F3 & _).
  rewrite decide_True by done. rewrite <- Epa in F1, F3. rewrite decide_False by tauto. exists pa'.
  rewrite F1, land_4095, lor_low by (done || dlia). split; [f_equal; lia|done].
Qed.

Section faults.
Context {V : Type}.
Implicit Types s : vmsys V.

Lemma set_tlb_id s : set_tlb (tlb s) s = s.
Proof. by destruct s. Qed.

(** The refill takes the first entry that is not valid. *)
Lemma refill_spec s n (i : nat) va pa :
  (i + n = length (tlb s))%nat ->
  (exists j e, tlb s !! j = Some e /\ ~ tlb_valid e /\
     refill n (Z.of_nat i) va pa s = Done true (set_tlb (<[j := (va, pte pa)]> (tlb s)) s)) \/
  (refill n (Z.of_nat i) va pa s = Done false s /\
   forall j e, (i <= j)%nat -> tlb s !! j = Some e -> tlb_valid e).
Proof.
  revert i. induction n as [|n IH]; intros i Hi.
  { right. split; [done|]. intros j e Hj He. apply lookup_lt_Some in He. lia. }
  destruct (lookup_lt_is_Some_2 (tlb s) i ltac:(lia)) as [e He].
  assert (Er : TLB_Read (Z.of_nat i) s = Done e s) by (unfold TLB_Read; munfold; unfold id; by rewrite zlookup_nat, He).
  cbn [refill]. rewrite (bind_Done _ _ _ _ _ Er).
  destruct (decide (Z.land e.2 TLBLO_VALID <> 0)) as [D|D].
  - replace (Z.of_nat i + 1) with (Z.of_nat (S i)) by lia.
    destruct (IH (S i) ltac:(lia)) as [?|[E Hall]]; [by left|right]. split; [done|].
    intros j e' Hj He'. destruct (decide (j = i)) as [->|]; [rewrite He in He'; by injection He' as <-|]. apply (Hall j); [lia|done].
  - left. exists i, e. split; [done|]. split; [done|]. unfold TLB_Write, zinsert. munfold. unfold id.
    rewrite decide_True by lia. by rewrite Nat2Z.id.
Qed.

Lemma assert_setup_loaded a s :
  as_wf a -> frames_ok a -> loaded a -> assert_setup a s = Done tt s.
Proof.
  intros W F L. pose proof (F 0%nat _ _ (loaded_run _ 0%nat _ _ L eq_refl)) as F1.
  pose proof (F 1%nat _ _ (loaded_run _ 1%nat _ _ L eq_refl)) as F2.
  pose proof (F 2%nat _ _ (loaded_run _ 2%nat _ _ L eq_refl)) as F3.
  destruct W. unfold loaded in L. unfold assert_setup. munfold.
  unfold USERTOP, MIPS_KSEG0, RAM_MAX, PAGE_SIZE in *.
  rewrite !land_frame by (unfold DUMBVM_STACKPAGES in *; lia). unfold page.
  rewrite !bool_decide_eq_true_2 by (tauto || lia). done.
Qed.

Lemma assert_setup_missing a s : ~ loaded a -> assert_setup a s = Panic.
Proof.
  intros L. unfold assert_setup. munfold.
  destruct (bool_decide (as_vbase1 a <> 0)) eqn:E1; [apply bool_decide_eq_true in E1|done].
  destruct (bool_decide (as_pbase1 a <> 0)) eqn:E2; [apply bool_decide_eq_true in E2|done].
  destruct (bool_decide (as_npages1 a <> 0)) eqn:E3; [apply bool_decide_eq_true in E3|done].
  destruct (bool_decide (as_vbase2 a <> 0)) eqn:E4; [apply bool_decide_eq_true in E4|done].
  destruct (bool_decide (as_pbase2 a <> 0)) eqn:E5; [apply bool_decide_eq_true in E5|done].
  destruct (bool_decide (as_npages2 a <> 0)) eqn:E6; [apply bool_decide_eq_true in E6|done].
  destruct (bool_decide (as_stackpbase a <> 0)) eqn:E7; [apply bool_decide_eq_true in E7|done].
  exfalso. apply L. unfold loaded. tauto.
Qed.

Lemma set_curspl_id s x : set_vts (set_curspl (curspl (vts s)) (set_curspl x (vts s))) s = s.
Proof. by destruct s as [[] ? ? ?]. Qed.

Lemma vm_frames s B p a : vm_ok s B -> spaces s !! p = Some a -> frames_ok a.
Proof. intros O Ha i pb n. by apply (frame_range s B p). Qed.

Lemma space_nonzero s B p a : vm_ok s B -> spaces s !! p = Some a -> p <> 0.
Proof.
  intros O Ha. destruct (vo_struct _ _ O _ _ Ha) as [HB _].
  pose proof (Kheap.kheap_rep_pos _ _ _ _ (vo_heap _ _ O) HB). unfold MIPS_KSEG0 in *. lia.
Qed.

(** [vm_fault] up to the search for a translation. *)
Lemma vm_fault_start s B p a ft va :
  vm_ok s B -> current s p -> spaces s !! p = Some a -> ft = VM_FAULT_READ \/ ft = VM_FAULT_WRITE ->
  let s1 := set_vts (set_curspl SPL_HIGH (vts s)) s in
  vm_fault ft va s =
    (assert_setup a ;;
     match fault_paddr a (Z.land va PAGE_FRAME) with
     | None => _ ← vt (splx (curspl (vts s))); fail EFAULT
     | Some pa =>
         kassert (bool_decide (Z.land pa PAGE_FRAME = pa)) ;;
         b ← refill (Z.to_nat NUM_TLB) 0 (Z.land va PAGE_FRAME) pa;
         _ ← vt (splx (curspl (vts s)));
         if b : bool then mret tt else fail EFAULT
     end) s1.
Proof.
  intros O (th & Hth & Hp) Ha Hft s1. pose proof (space_nonzero _ _ _ _ O Ha) as Hnz. unfold vm_fault.
  rewrite (bind_Done _ _ s (curspl (vts s)) s1) by done.
  assert (E1 : vt (get_thread (curthread (vts s))) s1 = Done th s1).
  { unfold vt, zoom, get_thread, vtsL, lget, lset, s1. munfold. unfold id. destruct s as [[] ? ? ?]. cbn in Hth |- *. by rewrite Hth. }
  assert (E2 : get_as p s1 = Done a s1).
  { unfold get_as. munfold. unfold id. destruct s. cbn in Ha |- *. by rewrite Ha. }
  destruct Hft as [-> | ->]; rewrite (bind_Done _ _ s1 (curthread (vts s)) s1) by done;
    rewrite (bind_Done _ _ _ _ _ E1), Hp, decide_False by done; by rewrite (bind_Done _ _ _ _ _ E2).
Qed.

(** A fault in a loaded address space enters the translation of the page in a free entry of
    the TLB, or is an error because there is no translation or no free entry. *)
Lemma vm_fault_spec s B p a ft va :
  vm_ok s B -> current s p -> spaces s !! p = Some a -> loaded a -> 0 <= va < 2 ^ 32 ->
  ft = VM_FAULT_READ \/ ft = VM_FAULT_WRITE ->
  (exists pa j e, translate a (page va) = Some pa /\ tlb s !! j = Some e /\ ~ tlb_valid e /\
     vm_fault ft va s = Done tt (set_tlb (<[j := (page va, pte pa)]> (tlb s)) s)) \/
  (vm_fault ft va s = Fail EFAULT s /\ (translate a va = None \/ Forall tlb_valid (tlb s))).
Proof.
  intros O Hc Ha L Hva Hft. rewrite (vm_fault_start _ _ _ _ _ _ O Hc Ha Hft). rewrite land_frame by done.
  set (s1 := set_vts (set_curspl SPL_HIGH (vts s)) s). pose proof (vm_frames _ _ _ _ O Ha) as F.
  destruct (vo_struct _ _ O _ _ Ha) as [_ W].
  rewrite (bind_Done _ _ s1 tt s1) by (by apply assert_setup_loaded).
  rewrite fault_paddr_translate by done.
  assert (Hspl : forall t, set_vts (set_curspl (curspl (vts s)) (vts (set_tlb t s1))) (set_tlb t s1) = set_tlb t s).
  { intros t. by destruct s as [[] ? ? ?]. }
  destruct (translate a (page va)) as [pa|] eqn:Et.
  2:{ right. split; [|left]. { specialize (Hspl (tlb s)). rewrite !set_tlb_id in Hspl. change (set_tlb (tlb s) s1) with s1 in Hspl.
      unfold vt, zoom, splx. munfold. simpl. f_equal. exact Hspl. }
      rewrite (translate_page _ _ W) in Et. by destruct (translate a va). }
  pose proof (translate_range _ _ _ L F Et) as Hpr. unfold RAM_MAX in Hpr.
  assert (Hal : page pa = pa).
  { pose proof (translate_mod _ _ _ W L F Et). unfold page in *. dlia. }
  rewrite (bind_Done _ _ s1 tt s1) by (unfold kassert; rewrite bool_decide_eq_true_2 by (by rewrite land_frame by lia); done).
  destruct (refill_spec s1 (Z.to_nat NUM_TLB) 0 (page va) pa) as [(j & e & Hj & Hv & E)|[E Hall]].
  { symmetry. apply (vo_tlb _ _ O). }
  - left. exists pa, j, e. split; [done|]. split; [done|]. split; [done|]. change (Z.of_nat 0) with 0 in E.
    rewrite (bind_Done _ _ _ _ _ E). unfold vt, zoom, splx. munfold. simpl. f_equal. apply Hspl.
  - right. change (Z.of_nat 0) with 0 in E. rewrite (bind_Done _ _ _ _ _ E). split.
    { specialize (Hspl (tlb s)). rewrite !set_tlb_id in Hspl. change (set_tlb (tlb s) s1) with s1 in Hspl.
      unfold vt, zoom, splx. munfold. simpl. f_equal. exact Hspl. }
    right. apply Forall_lookup_2. intros j e. apply Hall. lia.
Qed.

End faults.

(** ** User accesses *)

Section user.
Context {V : Type}.
Implicit Types s : vmsys V.

Lemma vm_ok_tlb s B t :
  vm_ok s B -> length t = Z.to_nat NUM_TLB ->
  (forall p a, current s p -> spaces s !! p = Some a -> Forall (entry_ok a) t) -> vm_ok (set_tlb t s) B.
Proof. intros [] Hl He. split; try done. Qed.

Lemma vm_ok_pmem s B m : vm_ok s B -> vm_ok (set_pmem m s) B.
Proof. intros []. split; try done. Qed.

(** Entering the translation of a page keeps the TLB in order. *)
Lemma vm_ok_refill s B p a va pa j e :
  vm_ok s B -> current s p -> spaces s !! p = Some a -> loaded a -> 0 <= va < 2 ^ 32 ->
  translate a (page va) = Some pa -> tlb s !! j = Some e ->
  vm_ok (set_tlb (<[j := (page va, pte pa)]> (tlb s)) s) B.
Proof.
  intros O Hc Ha L Hva Et Hj. apply vm_ok_tlb; [done|rewrite length_insert; apply (vo_tlb _ _ O)|].
  intros q b (th & Hth & Hq) Hb. destruct Hc as (th' & Hth' & Hp). assert (q = p) as -> by congruence.
  rewrite Ha in Hb. injection Hb as <-. apply Forall_insert; [eapply (vo_entries _ _ O); [by exists th'|done]|].
  left. pose proof (vm_frames _ _ _ _ O Ha) as F. destruct (vo_struct _ _ O _ _ Ha) as [_ W].
  pose proof (translate_range _ _ _ L F Et) as Hpr. unfold RAM_MAX in Hpr.
  assert (Hal : pa mod 4096 = 0).
  { pose proof (translate_mod _ _ _ W L F Et). unfold page in *. dlia. }
  destruct (pte_fields pa ltac:(lia) Hal) as (_ & Hv & _). simpl.
  split; [exact Hv|]. split; [done|]. split; [unfold page; dlia|]. split; [unfold page; dlia|]. by exists pa.
Qed.

(** The TLB after an access: as it was, or with the page of the access, which no entry was for, in a free entry. *)
Definition refilled (va : Z) (t t' : list (Z * Z)) : Prop :=
  t' = t \/ exists j e pb, t' = <[j := (page va, pb)]> t /\ t !! j = Some e /\ ~ tlb_valid e /\
    Forall (fun e => ~ tlb_match (page va) e) t.

(** An access by the program ends with the physical address of the translation after at
    most one fault. *)
Lemma user_access_spec s B p a w va :
  vm_ok s B -> current s p -> spaces s !! p = Some a -> loaded a -> 0 <= va < USERTOP ->
  (exists pa t, user_access 2 w va s = Done pa (set_tlb t s) /\ translate a va = Some pa /\ vm_ok (set_tlb t s) B /\ refilled va (tlb s) t) \/
  (user_access 2 w va s = Fail EFAULT s /\
   (translate a va = None \/ Forall (fun e => tlb_valid e /\ ~ tlb_match (page va) e) (tlb s))).
Proof.
  intros O Hc Ha L Hva. pose proof (vm_frames _ _ _ _ O Ha) as F. destruct (vo_struct _ _ O _ _ Ha) as [_ W].
  assert (Hva' : 0 <= va < 2 ^ 32) by (unfold USERTOP, MIPS_KSEG0 in Hva; lia).
  pose proof (vo_entries _ _ O _ _ Hc Ha) as T. cbn [user_access].
  rewrite (bind_Done _ _ s (tlb s) s) by done.
  destruct (mmu_spec a (tlb s) w va W F T Hva) as [(pa & E & Et & _)|[E Hno]]; rewrite E.
  { left. exists pa, (tlb s). rewrite set_tlb_id. do 3 (split; [done|]). by left. }
  destruct (vm_fault_spec s B p a (if w then VM_FAULT_WRITE else VM_FAULT_READ) va O Hc Ha L Hva' ltac:(destruct w; auto))
    as [(pa & j & e & Et & Hj & Hv & Ef)|[Ef Hcause]].
  2:{ right. rewrite (bind_Fail _ _ _ _ _ Ef). split; [done|]. destruct Hcause as [?|Hv]; [by left|right].
      apply Forall_and. done. }
  pose proof (vm_ok_refill s B p a va pa j e O Hc Ha L Hva' Et Hj) as O'. rewrite (bind_Done _ _ _ _ _ Ef).
  set (t := <[j := _]> (tlb s)) in *. rewrite (bind_Done _ _ (set_tlb t s) t (set_tlb t s)) by done.
  pose proof (vo_entries _ _ O' p a Hc Ha) as T'. cbn [tlb set_tlb] in T'.
  destruct (mmu_spec a t w va W F T' Hva) as [(pa' & E' & Et' & _)|[_ Hno']].
  { left. rewrite E'. exists pa', t. do 3 (split; [done|]). right. by exists j, e, (pte pa). }
  exfalso. apply (Forall_lookup_1 _ _ j (page va, pte pa) Hno'); [by apply list_lookup_insert_eq, (lookup_lt_Some _ _ e)|].
  split; [done|]. by left.
Qed.

(** C13: What a program does to its memory: a load at a user address returns the byte the
    program sees there, a store changes that byte in the view of this program and no other byte of
    this or of any other program.  Either takes at most one fault; it is refused exactly because the
    address is not in the regions of the program, or because all 64 entries of the TLB
    hold other pages, and then nothing has changed. *)
Theorem user_memory_correct s B p a va v :
  vm_ok s B -> current s p -> spaces s !! p = Some a -> loaded a -> 0 <= va < USERTOP ->
  ((exists x t, load_byte va s = Done x (set_tlb t s) /\ view s p va = Some x /\ vm_ok (set_tlb t s) B) \/
   (load_byte va s = Fail EFAULT s /\
    (translate a va = None \/ Forall (fun e => tlb_valid e /\ ~ tlb_match (page va) e) (tlb s)))) /\
  ((exists s', store_byte va v s = Done tt s' /\ vm_ok s' B /\ view s' p va = Some v /\
      forall q wa, (q, wa) <> (p, va) -> view s' q wa = view s q wa) \/
   (store_byte va v s = Fail EFAULT s /\
    (translate a va = None \/ Forall (fun e => tlb_valid e /\ ~ tlb_match (page va) e) (tlb s)))).
Proof.
  intros O Hc Ha L Hva. unfold load_byte, store_byte.
  assert (Hpa : forall pa, translate a va = Some pa -> paddr s p va = Some pa) by (intros; apply paddr_Some; eauto).
  split.
  - destruct (user_access_spec s B p a false va O Hc Ha L Hva) as [(pa & t & E & Et & O' & _)|[E Hcause]].
    2:{ right. by rewrite (bind_Fail _ _ _ _ _ E). }
    left. rewrite (bind_Done _ _ _ _ _ E). exists (rd (pmem s) pa), t. split; [done|]. split; [|done].
    unfold view. by rewrite (Hpa _ Et).
  - destruct (user_access_spec s B p a true va O Hc Ha L Hva) as [(pa & t & E & Et & O' & _)|[E Hcause]].
    2:{ right. by rewrite (bind_Fail _ _ _ _ _ E). }
    left. rewrite (bind_Done _ _ _ _ _ E). eexists. split; [done|]. split; [by apply vm_ok_pmem|].
    assert (Hview : forall q wa, view (set_pmem (<[pa := v]> (pmem s)) (set_tlb t s)) q wa = rd (<[pa := v]> (pmem s)) <$> paddr s q wa)
      by done.
    rewrite Hview, (Hpa _ Et). unfold rd at 1. simpl. rewrite lookup_insert_eq. split; [done|].
    intros q wa Hne. etransitivity; [apply Hview|]. unfold view. destruct (paddr s q wa) as [pa'|] eqn:E'; [|done]. simpl. f_equal. unfold rd.
    rewrite lookup_insert_ne; [done|]. intros <-. destruct (paddr_inj s B q p wa va pa O E' (Hpa _ Et)). congruence.
Qed.

End user.

(** ** Allocation *)

(** Pages off the end of the memory in use are a block of the heap's. *)
Lemma getppages_rep h B n :
  Kheap.kheap_rep h B -> 0 <= n <= MAXPAGES ->
  zoom Kheap.physL (Ram.getppages n) h = Done 0 h \/
  exists pa h' B', zoom Kheap.physL (Ram.getppages n) h = Done pa h' /\ Kheap.kheap_rep h' B' /\ B ⊆ B' /\
    0 < pa /\ pa mod 4096 = 0 /\
    (n <> 0 -> B !! (pa + MIPS_KSEG0) = None /\ B' !! (pa + MIPS_KSEG0) = Some (n * PAGE_SIZE)).
Proof.
  intros R Hn. pose proof (kheap_rep_ram _ _ R) as W. destruct R as (G & L & SZ & R & I).
  unfold zoom, Ram.getppages. simpl (lget _ _). rewrite (u32_small n) by (unfold MAXPAGES in Hn; lia).
  destruct (ram_stealmem_cases _ n W Hn) as [[_ E]|(_ & E & W')]; rewrite E; [left; by destruct h|right].
  destruct (decide (n = 0)) as [->|Hnz].
  - exists (firstpaddr (Kheap.phys h)), h, B. split; [f_equal; rewrite Z.add_0_r; by destruct h as [? ? ? ? ? []]|].
    split; [by exists G, L, SZ|]. destruct W. split; [done|]. split; [lia|]. by split.
  - assert (En : Kheap.npages (n * PAGE_SIZE) = n) by (unfold Kheap.npages, PAGE_SIZE; dlia).
    destruct (Kheap.rep_add_big h B G L SZ (n * PAGE_SIZE) R) as [HN R'].
    { unfold Kheap.LARGEST_SUBPAGE_SIZE, PAGE_SIZE. lia. }
    { by rewrite En. }
    rewrite En in R'. unfold Kheap.top in HN, R'. rewrite (Z.add_comm MIPS_KSEG0) in HN, R'.
    eexists _, _, _. split; [done|]. split; [by exists G, L, SZ|]. destruct W.
    split; [by apply insert_subseteq|]. split; [lia|]. split; [done|]. intros _. split; [done|]. apply lookup_insert_eq.
Qed.

Lemma entry_ok_unloaded a a' e : ~ loaded a -> entry_ok a e -> entry_ok a' e.
Proof. intros L [(_ & ? & _)|?]; [done|by right]. Qed.

Section spaces.
Context {V : Type}.
Implicit Types s : vmsys V.

Definition with_space s h p a : vmsys V :=
  mkvm (set_heap h (vts s)) (pmem s) (tlb s) (<[p := a]> (spaces s)).

(** Frames that may be given to an address space [a] at [p]. *)
Record frames_new s (B : gmap Z Z) p a : Prop := {
  fn_aligned : forall i pb n, runs a !! i = Some (pb, n) -> 0 <= pb /\ pb mod 4096 = 0;
  fn_live : forall i pb n, run_of a i pb n -> B !! (pb + MIPS_KSEG0) = Some (n * PAGE_SIZE);
  fn_apart : forall i i' pb n n', run_of a i pb n -> run_of a i' pb n' -> i = i';
  fn_others : forall q b i i' pb n n', q <> p -> spaces s !! q = Some b -> run_of b i pb n -> run_of a i' pb n' -> False;
}.

(** Putting down a structure that is new or was not in use by the processor. *)
Lemma vm_ok_space s B p a h B' :
  vm_ok s B -> Kheap.kheap_rep h B' -> B ⊆ B' -> as_wf a -> B' !! p = Some sizeof_addrspace -> frames_new s B' p a ->
  (forall b, spaces s !! p = Some b -> ~ loaded b) ->
  vm_ok (with_space s h p a) B'.
Proof.
  intros [Oh Os Of Oal Oap Oo Ot Oe] R Hsub W HB [N1 N2 N3 N4] Hun.
  assert (Hsub' : forall q n, B !! q = Some n -> B' !! q = Some n) by (intros q n Hq; by apply (lookup_weaken _ _ _ _ Hq)).
  split; unfold with_space; cbn [spaces vts tlb hp].
  - exact R.
  - intros q b [[-> <-]|[Hq Hb]]%lookup_insert_Some; [done|]. destruct (Os q b Hb). auto.
  - intros q b i pb n [[-> <-]|[Hq Hb]]%lookup_insert_Some Hr; [eauto|]. eauto.
  - intros q b i pb n [[-> <-]|[Hq Hb]]%lookup_insert_Some Hr; eauto.
  - intros q b i q' b' i' pb n n' [[-> <-]|[Hq Hb]]%lookup_insert_Some [[-> <-]|[Hq' Hb']]%lookup_insert_Some Hr Hr'.
    + eauto.
    + exfalso. eauto.
    + exfalso. eauto.
    + eauto.
  - intros t th Ht Hnz. cbn [threads set_heap] in Ht. apply lookup_insert_is_Some. destruct (decide (p = t_vmspace th)); [by left|].
    right. split; [done|]. eauto.
  - done.
  - intros q b Hc [[-> <-]|[Hq Hb]]%lookup_insert_Some; [|by eapply Oe].
    destruct Hc as (th & Hth & Hv). cbn [vts set_heap threads curthread] in Hth.
    destruct (spaces s !! q) as [b|] eqn:Eb.
    + pose proof (Oe q b ltac:(by exists th) Eb) as T. eapply Forall_impl; [exact T|]. intros e.
      apply entry_ok_unloaded. by apply Hun.
    + exfalso. destruct (Oo _ th Hth) as [x Hx]; [|congruence]. rewrite Hv.
      pose proof (Kheap.kheap_rep_pos _ _ _ _ R HB). unfold MIPS_KSEG0 in *. lia.
Qed.

Lemma frames_new_none s B p a :
  (forall i pb n, runs a !! i = Some (pb, n) -> pb = 0) -> frames_new s B p a.
Proof.
  intros Hz. split.
  - intros i pb n E. rewrite (Hz _ _ _ E). done.
  - intros i pb n (E & ? & _). by rewrite (Hz _ _ _ E) in *.
  - intros i i' pb n n' (E & ? & _). by rewrite (Hz _ _ _ E) in *.
  - intros q b i i' pb n n' _ _ _ (E & ? & _). by rewrite (Hz _ _ _ E) in *.
Qed.

(** The frames an address space has already. *)
Lemma frames_new_same s B p a :
  vm_ok s B -> spaces s !! p = Some a -> frames_new s B p a.
Proof.
  intros O Ha. split.
  - intros i pb n. by apply (vo_aligned _ _ O p).
  - intros i pb n. by apply (vo_frames _ _ O p).
  - intros i i' pb n n' Hr Hr'. by destruct (vo_apart _ _ O _ _ _ _ _ _ _ _ _ Ha Ha Hr Hr').
  - intros q b i i' pb n n' Hq Hb Hr Hr'. destruct (vo_apart _ _ O _ _ _ _ _ _ _ _ _ Hb Ha Hr Hr'). done.
Qed.

Lemma run_of_insert (a a' : addrspace) k x n i pb m :
  (k < 3)%nat -> runs a' = <[k := (x, n)]> (runs a) -> run_of a' i pb m -> (i = k /\ pb = x /\ m = n) \/ (i <> k /\ run_of a i pb m).
Proof.
  intros Hk E [Hi Hnz]. rewrite E in Hi. apply list_lookup_insert_Some in Hi as [(-> & Hi & _)|[? Hi]].
  - injection Hi as -> ->. by left.
  - by right.
Qed.

Lemma vh_Done {A} (m : M Kheap.kheap A) s x h :
  m (hp s) = Done x h -> vh m s = Done x (set_vts (set_heap h (vts s)) s).
Proof. unfold vh, vt, zoom, hp. cbn [lget lset vtsL theapL]. by intros ->. Qed.

(** A run of frames is reserved for the region [k] of an address space. *)
Lemma grab_spec s B p a k n f :
  vm_ok s B -> spaces s !! p = Some a -> ~ loaded a -> 0 <= n <= MAXPAGES -> (k < 3)%nat ->
  (forall x, runs (f x) = <[k := (x, n)]> (runs a)) -> (forall x, as_wf (f x)) ->
  getppages n s = Done 0 s \/
  exists pa h B', getppages n s = Done pa (set_vts (set_heap h (vts s)) s) /\ 0 < pa /\ B ⊆ B' /\
    vm_ok (with_space s h p (f pa)) B'.
Proof.
  intros O Ha L Hn Hk Hf W. unfold getppages.
  destruct (getppages_rep (hp s) B n (vo_heap _ _ O) Hn) as [E|(pa & h & B' & E & R & Hsub & Hpa & Hal & Hfr)];
    rewrite (vh_Done _ _ _ _ E); [left; by destruct s as [[] ? ? ?]|right].
  exists pa, h, B'. split; [done|]. split; [done|]. split; [done|].
  pose proof (frames_new_same _ _ _ _ O Ha) as [N1 N2 N3 N4].
  assert (Hlow : forall q b i m, spaces s !! q = Some b -> run_of b i pa m -> n = 0).
  { intros q b i m Hq Hr. destruct (decide (n = 0)); [done|]. destruct (Hfr ltac:(done)) as [HN _].
    pose proof (vo_frames _ _ O _ _ _ _ _ Hq Hr). congruence. }
  apply (vm_ok_space _ B); try done.
  - eapply lookup_weaken; [|done]. by destruct (vo_struct _ _ O _ _ Ha).
  - split.
    + intros i pb m E'. rewrite Hf in E'. apply list_lookup_insert_Some in E' as [(_ & Hi & _)|[_ Hi]]; [|eauto].
      injection Hi as <- <-. split; [lia|done].
    + intros i pb m Hr. pose proof Hr as (_ & _ & Hm). destruct (run_of_insert a _ k pa n i pb m Hk (Hf pa) Hr) as [(_ & -> & ->)|[_ Hr']].
      * by apply Hfr.
      * eapply lookup_weaken; [|done]. eauto.
    + intros i i' pb m m' Hr Hr'. pose proof Hr as (_ & _ & Hm). pose proof Hr' as (_ & _ & Hm').
      destruct (run_of_insert a _ k pa n i pb m Hk (Hf pa) Hr) as [(-> & -> & ->)|[Hi Hr2]],
        (run_of_insert a _ k pa n i' _ m' Hk (Hf pa) Hr') as [(-> & E2 & E3)|[Hi' Hr2']]; [done|..].
      * exfalso. by apply Hm, (Hlow p a i' m').
      * exfalso. subst. by apply Hm', (Hlow p a i m).
      * by apply (N3 i i' pb m m').
    + intros q b i i' pb m m' Hq Hb Hr Hr'. pose proof Hr' as (_ & _ & Hm').
      destruct (run_of_insert a _ k pa n i' pb m' Hk (Hf pa) Hr') as [(-> & -> & ->)|[_ Hr2]].
      * by apply Hm', (Hlow q b i m).
      * by apply (N4 q b i i' pb m m').
  - intros b Hb. congruence.
Qed.

End spaces.

(** ** Operations on address spaces *)

Section as_ops.
Context {V : Type}.
Implicit Types s : vmsys V.

Definition no_as : addrspace := mkas 0 0 0 0 0 0 0.

Lemma no_as_wf : as_wf no_as.
Proof. by repeat split. Qed.

Lemma vm_ok_heap s B h B' : vm_ok s B -> Kheap.kheap_rep h B' -> B ⊆ B' -> vm_ok (set_vts (set_heap h (vts s)) s) B'.
Proof.
  intros [Oh Os Of Oal Oap Oo Ot Oe] R Hsub. split; try done.
  - intros p a Ha. destruct (Os p a Ha) as [HB ?]. split; [|done]. by apply (lookup_weaken _ _ _ _ HB).
  - intros p a i pb n Ha Hr. apply (lookup_weaken _ _ _ _ (Of p a i pb n Ha Hr) Hsub).
Qed.

Lemma kmalloc_as s B :
  vm_ok s B ->
  (exists h, vh (Kheap.kmalloc sizeof_addrspace) s = Done 0 (set_vts (set_heap h (vts s)) s) /\ Kheap.kheap_rep h B) \/
  (exists p h, vh (Kheap.kmalloc sizeof_addrspace) s = Done p (set_vts (set_heap h (vts s)) s) /\ p <> 0 /\ B !! p = None /\
     Kheap.kheap_rep h (<[p := sizeof_addrspace]> B)).
Proof.
  intros O. destruct (Kheap.kmalloc_rep (hp s) B sizeof_addrspace (vo_heap _ _ O)) as [(h & E & R)|(p & h & E & Hp & HB & R)].
  { split; [done|]. unfold sizeof_addrspace, KMALLOC_MAX. lia. }
  - left. exists h. split; [by apply vh_Done|done].
  - right. exists p, h. split; [by apply vh_Done|]. split; [lia|done].
Qed.

Lemma as_create_spec s B :
  vm_ok s B ->
  (exists h, as_create s = Done 0 (set_vts (set_heap h (vts s)) s) /\ vm_ok (set_vts (set_heap h (vts s)) s) B) \/
  (exists p h, as_create s = Done p (with_space s h p no_as) /\ p <> 0 /\ spaces s !! p = None /\
     B !! p = None /\ vm_ok (with_space s h p no_as) (<[p := sizeof_addrspace]> B)).
Proof.
  intros O. unfold as_create. destruct (kmalloc_as s B O) as [(h & E & R)|(p & h & E & Hp & HB & R)];
    rewrite (bind_Done _ _ _ _ _ E); [left|right].
  - exists h. split; [done|]. by apply (vm_ok_heap _ B).
  - assert (Hs : spaces s !! p = None).
    { destruct (spaces s !! p) as [a|] eqn:Ea; [|done]. destruct (vo_struct _ _ O _ _ Ea). congruence. }
    exists p, h. rewrite decide_False by done. split; [done|]. split; [done|]. split; [done|]. split; [done|].
    apply (vm_ok_space _ B); try done; [by apply insert_subseteq|apply lookup_insert_eq| |intros b Hb; congruence].
    apply frames_new_none. intros [|[|[|i]]] pb n Ei; simpl in Ei; [by injection Ei as <- <-..|done].
Qed.

(** A structure that no thread uses is given back; its frames stay allocated. *)
Lemma as_destroy_spec s B p a :
  vm_ok s B -> spaces s !! p = Some a -> (forall t th, threads (vts s) !! t = Some th -> t_vmspace th <> p) ->
  exists h, as_destroy p s = Done tt (mkvm (set_heap h (vts s)) (pmem s) (tlb s) (delete p (spaces s))) /\
    vm_ok (mkvm (set_heap h (vts s)) (pmem s) (tlb s) (delete p (spaces s))) (delete p B).
Proof.
  intros O Ha Hno. destruct (vo_struct _ _ O _ _ Ha) as [HB _].
  destruct (Kheap.kfree_rep (hp s) B p _ (vo_heap _ _ O) HB) as (h & E & R). exists h. unfold as_destroy.
  rewrite (bind_Done _ _ _ _ _ (vh_Done _ _ _ _ E)). split; [done|]. destruct O as [Oh Os Of Oal Oap Oo Ot Oe].
  split; cbn [spaces vts tlb pmem hp].
  - exact R.
  - intros q b [Hq Hb]%lookup_delete_Some. rewrite lookup_delete_ne by done. by apply Os.
  - intros q b i pb n [Hq Hb]%lookup_delete_Some Hr. pose proof (Of _ _ _ _ _ Hb Hr) as Hk.
    rewrite lookup_delete_ne; [done|]. intros ->. rewrite HB in Hk. injection Hk as Hk. unfold sizeof_addrspace, PAGE_SIZE in Hk. lia.
  - intros q b i pb n [Hq Hb]%lookup_delete_Some. by apply Oal with q.
  - intros q b i q' b' i' pb n n' [Hq Hb]%lookup_delete_Some [Hq' Hb']%lookup_delete_Some. by apply Oap.
  - intros t th Ht Hnz. rewrite lookup_delete_ne by (intros ->; by apply (Hno t th)). by apply (Oo t).
  - done.
  - intros q b Hc [Hq Hb]%lookup_delete_Some. by apply (Oe q).
Qed.

Definition pages_max (a : addrspace) : Prop := 0 <= as_npages1 a <= MAXPAGES /\ 0 <= as_npages2 a <= MAXPAGES.

Lemma as_wf_pages a : as_wf a -> pages_max a.
Proof. intros []. unfold pages_max, MAXPAGES, USERTOP, MIPS_KSEG0, PAGE_SIZE in *. lia. Qed.

(** The frames an address space is still without, in the order they are reserved. *)
Definition unprepared (a : addrspace) : Prop := as_pbase1 a = 0 /\ as_pbase2 a = 0 /\ as_stackpbase a = 0.

Definition same_regions (a a' : addrspace) : Prop :=
  as_vbase1 a' = as_vbase1 a /\ as_npages1 a' = as_npages1 a /\ as_vbase2 a' = as_vbase2 a /\ as_npages2 a' = as_npages2 a.

Lemma with_space_again s h h' p a a' : with_space (with_space s h p a) h' p a' = with_space s h' p a'.
Proof. unfold with_space. cbn [vts pmem tlb spaces]. f_equal. apply insert_insert_eq. Qed.

(** One step of [as_prepare_load]. *)
Lemma grab_step s B p a k n f (rest : Z -> M (vmsys V) unit) :
  vm_ok s B -> spaces s !! p = Some a -> ~ loaded a -> 0 <= n <= MAXPAGES -> (k < 3)%nat ->
  (forall x, runs (f x) = <[k := (x, n)]> (runs a)) -> (forall x, as_wf (f x)) -> f 0 = a ->
  let m := pa ← getppages n; put_as p (f pa) ;; if decide (pa = 0) then fail ENOMEM else rest pa in
  m s = Fail ENOMEM s \/
  exists pa h B', m s = rest pa (with_space s h p (f pa)) /\ pa <> 0 /\ B ⊆ B' /\ vm_ok (with_space s h p (f pa)) B'.
Proof.
  intros O Ha L Hn Hk Hf W H0 m. unfold m.
  destruct (grab_spec s B p a k n f O Ha L Hn Hk Hf W) as [E|(pa & h & B' & E & Hp & S & O')];
    rewrite (bind_Done _ _ _ _ _ E).
  - left. rewrite (bind_Done _ _ s tt s); [done|]. unfold put_as, modify. rewrite H0, insert_id by done. by destruct s.
  - right. exists pa, h, B'. rewrite (bind_Done _ _ _ tt (with_space s h p (f pa))) by done.
    rewrite decide_False by lia. split; [done|]. split; [lia|done].
Qed.

Lemma with_same_space s p a : spaces s !! p = Some a -> with_space s (hp s) p a = s.
Proof. intros Ha. unfold with_space, hp. rewrite insert_id by done. by destruct s as [[] ? ? ?]. Qed.

Lemma prepare_load_spec s B p a :
  vm_ok s B -> spaces s !! p = Some a -> unprepared a ->
  exists h a' B', vm_ok (with_space s h p a') B' /\ B ⊆ B' /\ same_regions a a' /\
    ((as_prepare_load p s = Done tt (with_space s h p a') /\
      as_pbase1 a' <> 0 /\ as_pbase2 a' <> 0 /\ as_stackpbase a' <> 0) \/
     as_prepare_load p s = Fail ENOMEM (with_space s h p a')).
Proof.
  intros O Ha (U1 & U2 & U3). destruct (vo_struct _ _ O _ _ Ha) as [_ W]. destruct (as_wf_pages a W) as [P1 P2].
  unfold as_prepare_load.
  rewrite (bind_Done _ _ s a s) by (unfold get_as; munfold; unfold id; by rewrite Ha).
  rewrite U1, U2, U3. rewrite !(bind_Done (kassert _) _ s tt s) by done.
  edestruct (grab_step s B p a 0 (as_npages1 a) (fun x => set_pbase1 x a)) as [E|(pa1 & h1 & B1 & E & Hp1 & S1 & O1)];
    [done|done|intros (_ & ? & _); lia|done|lia|done|intros x; by destruct W|destruct a; simpl in *; by subst|rewrite E..].
  { exists (hp s), a, B. rewrite (with_same_space s p a Ha). split; [done|]. split; [done|]. split; [done|]. by right. }
  set (a1 := set_pbase1 pa1 a) in *. set (s1 := with_space s h1 p a1) in *.
  assert (Ha1 : spaces s1 !! p = Some a1) by apply lookup_insert_eq.
  edestruct (grab_step s1 B1 p a1 1 (as_npages2 a) (fun x => set_pbase2 x a1)) as [E1|(pa2 & h2 & B2 & E1 & Hp2 & S2 & O2)];
    [done|done|intros (_ & _ & _ & _ & ? & _); done|done|lia|done|intros x; by destruct W|unfold a1; destruct a; simpl in *; by subst|rewrite E1..].
  { exists h1, a1, B1. split; [done|]. split; [done|]. split; [done|]. by right. }
  set (a2 := set_pbase2 pa2 a1) in *. unfold s1 in O2 |- *. rewrite with_space_again in O2 |- *. set (s2 := with_space s h2 p a2) in *.
  assert (Ha2 : spaces s2 !! p = Some a2) by apply lookup_insert_eq.
  edestruct (grab_step s2 B2 p a2 2 DUMBVM_STACKPAGES (fun x => set_stackpbase x a2) (fun _ => mret tt))
    as [E2|(pa3 & h3 & B3 & E2 & Hp3 & S3 & O3)];
    [done|done|intros (_ & _ & _ & _ & _ & _ & ?); done|unfold DUMBVM_STACKPAGES, MAXPAGES; lia|lia|done|intros x; by destruct W
    |unfold a2, a1; destruct a; simpl in *; by subst|rewrite E2..].
  { exists h2, a2, B2. split; [done|]. split; [by etransitivity|]. split; [done|]. by right. }
  unfold s2 in O3 |- *. rewrite with_space_again in O3 |- *.
  exists h3, (set_stackpbase pa3 a2), B3. split; [done|]. split; [by do 2 (etransitivity; [done|])|]. split; [done|]. by left.
Qed.

End as_ops.

(** ** Copying an address space *)

Lemma rd_insert m a v x : rd (<[a := v]> m) x = if decide (x = a) then v else rd m x.
Proof. unfold rd. case_decide as D; [subst; by rewrite lookup_insert_eq|by rewrite lookup_insert_ne]. Qed.

Lemma copy_bytes_rd m dst src n x :
  rd (copy_bytes m dst src n) x =
    if decide (dst <= x < dst + Z.of_nat n) then rd m (src + (x - dst)) else rd m x.
Proof.
  unfold copy_bytes. induction n as [|n IH]; [rewrite decide_False by lia; done|].
  rewrite seq_S, foldl_app. simpl. rewrite rd_insert, IH.
  destruct (decide (x = dst + Z.of_nat n)) as [->|].
  - rewrite decide_True by lia. f_equal. lia.
  - destruct (decide (dst <= x < dst + Z.of_nat n)); [by rewrite decide_True by lia|by rewrite decide_False by lia].
Qed.

#[local] Opaque copy_bytes.

Section copy.
Context {V : Type}.
Implicit Types s : vmsys V.

Lemma frames_disjoint s B p a i pb n q b j qb m :
  vm_ok s B -> spaces s !! p = Some a -> spaces s !! q = Some b -> run_of a i pb n -> run_of b j qb m -> (p, i) <> (q, j) ->
  pb + n * PAGE_SIZE <= qb \/ qb + m * PAGE_SIZE <= pb.
Proof.
  intros O Ha Hb Ri Rj Hne. pose proof (vo_frames _ _ O _ _ _ _ _ Ha Ri) as Bp. pose proof (vo_frames _ _ O _ _ _ _ _ Hb Rj) as Bq.
  destruct (Z.lt_trichotomy pb qb) as [L|[->|L]].
  - pose proof (Kheap.kheap_rep_disjoint _ _ _ _ _ _ (vo_heap _ _ O) Bp Bq ltac:(lia)). lia.
  - destruct (vo_apart _ _ O _ _ _ _ _ _ _ _ _ Ha Hb Ri Rj). congruence.
  - pose proof (Kheap.kheap_rep_disjoint _ _ _ _ _ _ (vo_heap _ _ O) Bq Bp ltac:(lia)). lia.
Qed.

(** The three moves, each of a run of frames to the run at the same place of the copy. *)
Definition moved (m : gmap Z Z) (a o : addrspace) : gmap Z Z :=
  let m1 := copy_bytes m (as_pbase1 a) (as_pbase1 o) (Z.to_nat (as_npages1 o * PAGE_SIZE)) in
  let m2 := copy_bytes m1 (as_pbase2 a) (as_pbase2 o) (Z.to_nat (as_npages2 o * PAGE_SIZE)) in
  copy_bytes m2 (as_stackpbase a) (as_stackpbase o) (Z.to_nat (DUMBVM_STACKPAGES * PAGE_SIZE)).

Definition within (pb n x : Z) : Prop := pb <= x < pb + n * PAGE_SIZE.

Lemma copy_run_rd m pb qb n x :
  0 <= n -> rd (copy_bytes m qb pb (Z.to_nat (n * PAGE_SIZE))) x =
    if decide (within qb n x) then rd m (pb + (x - qb)) else rd m x.
Proof.
  intros Hn. rewrite copy_bytes_rd. unfold within, PAGE_SIZE. rewrite Z2Nat.id by lia. done.
Qed.

(** Bytes outside the frames of the copy stay; those inside are the original's. *)
Lemma moved_other s B q a p o x :
  vm_ok s B -> spaces s !! q = Some a -> loaded a -> spaces s !! p = Some o -> same_regions o a ->
  (forall i pb n, runs a !! i = Some (pb, n) -> ~ within pb n x) -> rd (moved (pmem s) a o) x = rd (pmem s) x.
Proof.
  intros O Ha L Ho (_ & N1 & _ & N2) Hout. destruct (vo_struct _ _ O _ _ Ho) as [_ []].
  pose proof (Hout 0%nat _ _ eq_refl) as H1. pose proof (Hout 1%nat _ _ eq_refl) as H2. pose proof (Hout 2%nat _ _ eq_refl) as H3.
  rewrite N1 in H1. rewrite N2 in H2.
  unfold moved. rewrite copy_run_rd, (decide_False (P := within _ _ _)) by (done || lia).
  rewrite copy_run_rd, (decide_False (P := within _ _ _)) by (done || lia).
  rewrite copy_run_rd, (decide_False (P := within _ _ _)) by (done || lia). done.
Qed.

Lemma moved_copy s B q a p o i pb qb n k :
  vm_ok s B -> spaces s !! q = Some a -> loaded a -> spaces s !! p = Some o -> loaded o -> same_regions o a -> p <> q ->
  runs o !! i = Some (pb, n) -> runs a !! i = Some (qb, n) -> 0 <= k < n * PAGE_SIZE ->
  rd (moved (pmem s) a o) (qb + k) = rd (pmem s) (pb + k).
Proof.
  intros O Ha La Ho Lo (_ & N1 & _ & N2) Hpq Ri Rj Hk. destruct (vo_struct _ _ O _ _ Ho) as [_ [_ _ [[M1 _] _] [[M2 _] _]]].
  assert (Hout : forall j y m, runs a !! j = Some (y, m) -> j <> i -> ~ within y m (qb + k)).
  { intros j y m Hj Hij. unfold within. destruct (frames_disjoint s B q a i qb n q a j y m O Ha Ha); try lia;
      [by apply loaded_run|by apply loaded_run|congruence]. }
  assert (Hsrc : forall j y m, runs a !! j = Some (y, m) -> ~ within y m (pb + k)).
  { intros j y m Hj. unfold within. destruct (frames_disjoint s B p o i pb n q a j y m O Ho Ha); try lia;
      [by apply loaded_run|by apply loaded_run|congruence]. }
  assert (Hin : within qb n (qb + k)) by (unfold within; lia).
  pose proof (Hsrc 0%nat _ _ eq_refl) as S0. pose proof (Hsrc 1%nat _ _ eq_refl) as S1.
  assert (E : pb + (qb + k - qb) = pb + k) by lia. rewrite N1 in S0. rewrite N2 in S1.
  assert (Hcopy : forall m x y l z, 0 <= l -> ~ within x l z -> rd (copy_bytes m x y (Z.to_nat (l * PAGE_SIZE))) z = rd m z).
  { intros m x y l z Hl Hz. rewrite copy_run_rd by done. by rewrite decide_False. }
  unfold moved. destruct i as [|[|[|i]]]; simpl in Ri, Rj; [injection Ri as <- <-; injection Rj as <-..|discriminate Ri].
  - rewrite Hcopy by (done || by apply (Hout 2%nat)). rewrite Hcopy by (done || by (rewrite <- N2; apply (Hout 1%nat))).
    rewrite copy_run_rd, decide_True by done. by rewrite E.
  - rewrite Hcopy by (done || by apply (Hout 2%nat)). rewrite copy_run_rd, decide_True by done. rewrite E. by rewrite Hcopy.
  - rewrite copy_run_rd, decide_True by done. rewrite E. by rewrite !Hcopy.
Qed.

End copy.

Lemma translate_same (o a : addrspace) va :
  same_regions o a ->
  match translate o va with
  | None => translate a va = None
  | Some pa => exists i pb qb n k, runs o !! i = Some (pb, n) /\ runs a !! i = Some (qb, n) /\ 0 <= k < n * PAGE_SIZE /\
      pa = pb + k /\ translate a va = Some (qb + k)
  end.
Proof.
  intros (V1 & N1 & V2 & N2). unfold translate. rewrite V1, N1, V2, N2.
  destruct (decide (in_region (as_vbase1 o) _ va)) as [I|]; [|destruct (decide (in_region (as_vbase2 o) _ va)) as [I|];
    [|destruct (decide (in_region STACKBASE _ va)) as [I|]; [|done]]].
  - eexists 0%nat, _, _, _, (va - as_vbase1 o). split; [done|]. split; [simpl; by rewrite N1|]. unfold in_region in I.
    split; [lia|]. split; [lia|]. f_equal. lia.
  - eexists 1%nat, _, _, _, (va - as_vbase2 o). split; [done|]. split; [simpl; by rewrite N2|]. unfold in_region in I.
    split; [lia|]. split; [lia|]. f_equal. lia.
  - eexists 2%nat, _, _, _, (va - STACKBASE). split; [done|]. split; [done|]. unfold in_region in I.
    split; [lia|]. split; [lia|]. f_equal. lia.
Qed.

Section as_copy.
Context {V : Type}.
Implicit Types s : vmsys V.

Lemma paddr_range s B p va pa :
  vm_ok s B -> paddr s p va = Some pa -> exists a i pb n, spaces s !! p = Some a /\ run_of a i pb n /\ within pb n pa.
Proof.
  intros O (a & Ha & L & (i & pb & n & vb & R & _ & [? ?] & ->)%translate_run)%paddr_Some.
  exists a, i, pb, n. split; [done|]. split; [by apply loaded_run|]. unfold within. lia.
Qed.

(** What the programs see after the frames of [o] were copied to those of [a]. *)
Lemma moved_views s B q a p o :
  vm_ok s B -> spaces s !! q = Some a -> loaded a -> spaces s !! p = Some o -> loaded o -> same_regions o a -> p <> q ->
  let s' := set_pmem (moved (pmem s) a o) s in
  (forall va, view s' q va = view s p va) /\ (forall r va, r <> q -> view s' r va = view s r va).
Proof.
  intros O Ha La Ho Lo S Hpq s'. split.
  - intros va. pose proof (translate_same o a va S) as T. unfold view, paddr, s'. cbn [spaces set_pmem pmem]. rewrite Ha, Ho. simpl.
    rewrite !decide_True by done. destruct (translate o va) as [pa|]; [|by rewrite T].
    destruct T as (i & pb & qb & n & k & Ri & Rj & Hk & -> & ->). simpl. f_equal.
    by apply (moved_copy s B q a p o i pb qb n k).
  - intros r va Hr. unfold view. change (paddr s' r va) with (paddr s r va). destruct (paddr s r va) as [pa|] eqn:E; [|done]. simpl. f_equal.
    apply (moved_other s B q a p o pa); try done. intros j qb m Hj.
    destruct (paddr_range s B r va pa O E) as (b & i & pb & n & Hb & Hrun & Hin).
    pose proof (frames_disjoint s B r b i pb n q a j qb m O Hb Ha Hrun (loaded_run _ _ _ _ La Hj) ltac:(congruence)).
    unfold within in *. lia.
Qed.

(** The copy proper, after [as_create] and the assignment of the regions. *)
Lemma copy_moves s B q a p o h :
  let s1 := with_space s h q a in
  vm_ok s1 B -> loaded a -> spaces s1 !! p = Some o -> loaded o -> same_regions o a ->
  (a' ← get_as q;
   kassert (bool_decide (as_pbase1 a' <> 0)) ;;
   kassert (bool_decide (as_pbase2 a' <> 0)) ;;
   kassert (bool_decide (as_stackpbase a' <> 0)) ;;
   o' ← get_as p;
   kmemmove (PADDR_TO_KVADDR (as_pbase1 a')) (PADDR_TO_KVADDR (as_pbase1 o')) (u32 (as_npages1 o' * PAGE_SIZE)) ;;
   kmemmove (PADDR_TO_KVADDR (as_pbase2 a')) (PADDR_TO_KVADDR (as_pbase2 o')) (u32 (as_npages2 o' * PAGE_SIZE)) ;;
   kmemmove (PADDR_TO_KVADDR (as_stackpbase a')) (PADDR_TO_KVADDR (as_stackpbase o')) (DUMBVM_STACKPAGES * PAGE_SIZE) ;;
   mret q) s1 = Done q (set_pmem (moved (pmem s1) a o) s1).
Proof.
  intros s1 O La Ho Lo S. assert (Ha : spaces s1 !! q = Some a) by apply lookup_insert_eq.
  pose proof (vm_frames _ _ _ _ O Ha) as F. pose proof (vm_frames _ _ _ _ O Ho) as G.
  assert (Hk : forall b i pb n, frames_ok b -> loaded b -> runs b !! i = Some (pb, n) -> PADDR_TO_KVADDR pb - MIPS_KSEG0 = pb).
  { intros b i pb n Hb Lb Hi. destruct (Hb i pb n (loaded_run _ _ _ _ Lb Hi)) as (? & ? & _ & ?).
    rewrite PADDR_TO_KVADDR_small; [lia|unfold PAGE_SIZE in *; lia]. }
  destruct (vo_struct _ _ O _ _ Ho) as [_ [_ _ M1 M2]]. destruct La as (? & ? & ? & ? & ? & ? & ?) eqn:EL. clear EL.
  rewrite (bind_Done _ _ s1 a s1) by (unfold get_as; munfold; unfold id; by rewrite Ha).
  rewrite !(bind_Done (kassert _) _ s1 tt s1) by (unfold kassert; by rewrite bool_decide_eq_true_2).
  rewrite (bind_Done _ _ s1 o s1) by (unfold get_as; munfold; unfold id; by rewrite Ho).
  destruct (vo_struct _ _ O _ _ Ho) as [_ [[] [] _ _]].
  rewrite !(u32_small (_ * PAGE_SIZE)) by (unfold USERTOP, MIPS_KSEG0, PAGE_SIZE in *; lia).
  unfold kmemmove, moved. munfold. cbn [pmem set_pmem].
  rewrite (Hk a 0%nat _ _ F La eq_refl), (Hk a 1%nat _ _ F La eq_refl), (Hk a 2%nat _ _ F La eq_refl),
    (Hk o 0%nat _ _ G Lo eq_refl), (Hk o 1%nat _ _ G Lo eq_refl), (Hk o 2%nat _ _ G Lo eq_refl). done.
Qed.

Lemma as_copy_spec s B p o :
  vm_ok s B -> spaces s !! p = Some o -> loaded o ->
  (exists q s' B', as_copy p s = Done q s' /\ vm_ok s' B' /\ spaces s !! q = None /\
     (forall va, view s' q va = view s p va) /\ (forall r va, r <> q -> view s' r va = view s r va)) \/
  (exists s' B', as_copy p s = Fail ENOMEM s' /\ vm_ok s' B' /\ spaces s' = spaces s /\
     forall r va, view s' r va = view s r va).
Proof.
  intros O Ho Lo. unfold as_copy. destruct (vo_struct _ _ O _ _ Ho) as [_ W].
  destruct (as_create_spec s B O) as [(h & E & O')|(q & h & E & Hq & Hnone & _ & O')]; rewrite (bind_Done _ _ _ _ _ E).
  { right. rewrite decide_True by done. by eexists _, B. }
  rewrite decide_False by done. assert (Hpq : p <> q) by congruence.
  rewrite (bind_Done _ _ _ o (with_space s h q no_as))
    by (unfold get_as; munfold; unfold id; cbn [spaces with_space]; by rewrite lookup_insert_ne, Ho by done).
  set (a0 := mkas _ _ _ _ _ _ _). rewrite (bind_Done _ _ _ tt (with_space s h q a0)).
  2:{ unfold put_as, modify. f_equal. unfold with_space, set_spaces. cbn [vts pmem tlb spaces]. by rewrite insert_insert_eq. }
  assert (O2 : vm_ok (with_space s h q a0) (<[q := sizeof_addrspace]> B)).
  { rewrite <- (with_space_again s h h q no_as a0). apply (vm_ok_space _ (<[q := sizeof_addrspace]> B)); try done.
    - apply (vo_heap _ _ O').
    - by destruct W.
    - apply lookup_insert_eq.
    - apply frames_new_none. intros [|[|[|i]]] pb n Ei; simpl in Ei; [by injection Ei as <- <-..|done].
    - cbn [spaces with_space]. intros b. rewrite lookup_insert_eq. intros [= <-] (? & _). done. }
  destruct (prepare_load_spec _ _ q a0 O2 (lookup_insert_eq _ _ _) ltac:(done)) as (h' & a & B' & O3 & _ & S & Hr).
  rewrite with_space_again in O3, Hr. set (s3 := with_space s h' q a) in *.
  assert (Hviews : forall r va, r <> q -> view s3 r va = view s r va).
  { intros r va Hr'. unfold view, paddr, s3, with_space. cbn [pmem spaces]. by rewrite lookup_insert_ne. }
  destruct Hr as [(Ep & Hb)|Ep].
  - left. rewrite (bind_Done _ _ _ _ _ (attempt_Done _ _ _ _ Ep)).
    assert (S' : same_regions o a) by exact S. assert (La : loaded a) by (unfold loaded in *; destruct S' as (-> & -> & -> & ->); tauto).
    assert (Ho3 : spaces s3 !! p = Some o) by (unfold s3, with_space; cbn [spaces]; by rewrite lookup_insert_ne).
    eexists q, _, B'. split; [apply (copy_moves s B' q a p o h'); done|]. split; [by apply vm_ok_pmem|]. split; [done|].
    destruct (moved_views s3 B' q a p o O3 (lookup_insert_eq _ _ _) La Ho3 Lo S' Hpq) as [V1 V2].
    split; [intros va; rewrite V1; by apply Hviews|]. intros r va Hr. rewrite V2 by done. by apply Hviews.
  - right. rewrite (bind_Done _ _ _ _ _ (attempt_Fail _ _ _ _ Ep)).
    destruct (as_destroy_spec s3 B' q a O3 (lookup_insert_eq _ _ _)) as (h2 & Ed & O4).
    { intros t th Ht <-. destruct (vo_owner _ _ O t th Ht Hq). congruence. }
    rewrite (bind_Done _ _ _ _ _ Ed). assert (Hdel : delete q (spaces s3) = spaces s) by (apply delete_insert_id; done).
    rewrite Hdel in *. by eexists _, _.
Qed.

(** C17: The copy of a loaded address space has, at every address, the contents of the original;
    its frames are its own, and no program sees a change.  When there is no memory for
    it the result is [ENOMEM], the structure is given back and no program sees a change either. *)
Theorem as_copy_correct s B p o :
  vm_ok s B -> spaces s !! p = Some o -> loaded o ->
  (exists q s' B', as_copy p s = Done q s' /\ vm_ok s' B' /\ spaces s !! q = None /\
     (forall va, view s' q va = view s p va) /\ (forall r va, r <> q -> view s' r va = view s r va)) \/
  (exists s' B', as_copy p s = Fail ENOMEM s' /\ vm_ok s' B' /\ spaces s' = spaces s /\
     forall r va, view s' r va = view s r va).
Proof. apply as_copy_spec. Qed.

End as_copy.

(** ** Regions, activation and threads *)

(** A segment of which neither the end nor the memory it takes wraps around. *)
Definition SEGMAX : Z := (MAXPAGES - 1) * PAGE_SIZE.
Definition seg_fits (vaddr sz : Z) : Prop := 0 <= vaddr /\ 0 <= sz <= SEGMAX /\ vaddr + sz <= 2 ^ 32 - PAGE_SIZE.

(** The pages of a segment are the least run of pages that covers it. *)
Lemma region_pages_spec vaddr sz :
  seg_fits vaddr sz ->
  exists n, region_pages vaddr sz = (page vaddr, n) /\ 0 <= n /\
    vaddr + sz <= page vaddr + n * PAGE_SIZE < vaddr + sz + PAGE_SIZE /\ n <= MAXPAGES.
Proof.
  intros (Hv & Hs & Hu). unfold region_pages, SEGMAX, MAXPAGES, PAGE_SIZE in *. change (4096 - 1) with 4095.
  rewrite land_4095, (land_frame vaddr) by lia. rewrite (u32_small (sz + _)) by dlia.
  rewrite u32_small by dlia. rewrite land_frame by dlia. eexists. split; [done|]. unfold page. dlia.
Qed.

(** An entry that answers for no user address. *)
Definition dead (e : Z * Z) : Prop := ~ tlb_valid e /\ USERTOP <= e.1 < 2 ^ 32.

Lemma dead_ok a e : dead e -> entry_ok a e.
Proof. by right. Qed.

Lemma tlbhi_invalid_dead i : 0 <= i < NUM_TLB -> dead (TLBHI_INVALID i, TLBLO_INVALID).
Proof.
  intros Hi. split; [by intros H|]. simpl. unfold TLBHI_INVALID, NUM_TLB in *. rewrite Z.shiftl_mul_pow2 by lia.
  change (2 ^ 12) with 4096. rewrite u32_small by lia. unfold USERTOP, MIPS_KSEG0. lia.
Qed.

Section threads.
Context {V : Type}.
Implicit Types s : vmsys V.

Lemma define_region_eq s B p a vaddr sz :
  vm_ok s B -> spaces s !! p = Some a -> unprepared a -> seg_fits vaddr sz ->
  exists n, 0 <= n /\ vaddr + sz <= page vaddr + n * PAGE_SIZE < vaddr + sz + PAGE_SIZE /\
    let r1 := with_space s (hp s) p (set_region1 (page vaddr) n a) in
    let r2 := with_space s (hp s) p (set_region2 (page vaddr) n a) in
    vm_ok r1 B /\ vm_ok r2 B /\
    as_define_region p vaddr sz s =
      if decide (as_vbase1 a = 0) then Done tt r1 else if decide (as_vbase2 a = 0) then Done tt r2 else Fail EUNIMP s.
Proof.
  intros O Ha U Hf. pose proof Hf as (Hv & Hs & Hu). destruct (region_pages_spec vaddr sz Hf) as (n & E & Hn & Hc & Hn').
  exists n. split; [done|]. split; [lia|]. cbv zeta.
  destruct (vo_struct _ _ O _ _ Ha) as [HB W]. unfold as_define_region.
  rewrite (bind_Done _ _ s a s) by (unfold get_as; munfold; unfold id; by rewrite Ha). rewrite E.
  assert (Hpg : 0 <= page vaddr /\ page vaddr mod 4096 = 0) by (unfold page; dlia).
  assert (Hend : 0 <= n <= MAXPAGES /\ page vaddr + n * PAGE_SIZE < 2 ^ 32) by lia.
  assert (Hok : forall a', as_wf a' -> unprepared a' -> vm_ok (with_space s (hp s) p a') B).
  { intros a' W' (U1 & U2 & U3). apply (vm_ok_space _ B); try done; [apply (vo_heap _ _ O)|..].
    - apply frames_new_none. intros [|[|[|i]]] pb m Ei; simpl in Ei; [by injection Ei as <- <-..|done].
    - intros b Hb (_ & H & _). rewrite Ha in Hb. injection Hb as <-. by destruct U. }
  assert (Hput : forall a', put_as p a' s = Done tt (with_space s (hp s) p a')) by (intros; by destruct s as [[] ? ? ?]).
  split; [apply Hok; [by destruct W|done]|]. split; [apply Hok; [by destruct W|done]|]. by repeat case_decide; rewrite ?Hput.
Qed.

Lemma define_region_spec s B p a vaddr sz :
  vm_ok s B -> spaces s !! p = Some a -> unprepared a -> seg_fits vaddr sz ->
  (exists a', as_define_region p vaddr sz s = Done tt (with_space s (hp s) p a') /\ vm_ok (with_space s (hp s) p a') B) \/
  as_define_region p vaddr sz s = Fail EUNIMP s.
Proof.
  intros O Ha U Hf. destruct (define_region_eq s B p a vaddr sz O Ha U Hf) as (n & _ & _ & O1 & O2 & ->).
  repeat case_decide; [left; by eexists|left; by eexists|by right].
Qed.

Lemma activate_loop s n (i : nat) :
  (i + n)%nat = length (tlb s) -> length (tlb s) = Z.to_nat NUM_TLB ->
  exists t, for_n n (Z.of_nat i) (fun i => TLB_Write (TLBHI_INVALID i) TLBLO_INVALID i) s = Done tt (set_tlb t s) /\
    length t = length (tlb s) /\ forall j e, t !! j = Some e -> ((j < i)%nat /\ tlb s !! j = Some e) \/ dead e.
Proof.
  revert s i. induction n as [|n IH]; intros s i Hi Hl; cbn [for_n].
  { exists (tlb s). rewrite set_tlb_id. split; [done|]. split; [done|]. intros j e Hj. left. split; [|done].
    apply lookup_lt_Some in Hj. lia. }
  set (x := (TLBHI_INVALID (Z.of_nat i), TLBLO_INVALID)).
  assert (E : TLB_Write (TLBHI_INVALID (Z.of_nat i)) TLBLO_INVALID (Z.of_nat i) s = Done tt (set_tlb (<[i := x]> (tlb s)) s)).
  { unfold TLB_Write, zinsert. munfold. unfold id. rewrite decide_True by lia. by rewrite Nat2Z.id. }
  rewrite (bind_Done _ _ _ _ _ E). replace (Z.of_nat i + 1) with (Z.of_nat (S i)) by lia.
  destruct (IH (set_tlb (<[i := x]> (tlb s)) s) (S i)) as (t & Et & Hlt & Ht); cbn [tlb set_tlb] in *;
    [rewrite length_insert; lia|by rewrite length_insert|]. rewrite length_insert in Hlt.
  exists t. split; [exact Et|]. split; [done|]. intros j e Hj. destruct (Ht j e Hj) as [[Hji Hj2]|]; [|by right].
  apply list_lookup_insert_Some in Hj2 as [(-> & <- & _)|[Hne Hj2]]; [right; apply tlbhi_invalid_dead; unfold NUM_TLB in *; lia|].
  left. split; [lia|done].
Qed.

(** [as_activate] leaves the TLB without a translation. *)
Lemma as_activate_spec s :
  length (tlb s) = Z.to_nat NUM_TLB ->
  exists t, as_activate s = Done tt (set_tlb t s) /\ length t = Z.to_nat NUM_TLB /\ Forall dead t.
Proof.
  intros Hl. unfold as_activate. set (s1 := set_vts (set_curspl SPL_HIGH (vts s)) s).
  rewrite (bind_Done _ _ s (curspl (vts s)) s1) by done.
  destruct (activate_loop s1 (Z.to_nat NUM_TLB) 0) as (t & E & Hlt & Ht); [by rewrite <- Hl|done|].
  change (Z.of_nat 0) with 0 in E. rewrite (bind_Done _ _ _ _ _ E). exists t. split; [|split; [by rewrite Hlt|]].
  - unfold vt, zoom, splx. munfold. simpl. f_equal. by destruct s as [[] ? ? ?].
  - apply Forall_lookup_2. intros j e Hj. destruct (Ht j e Hj) as [[? _]|]; [lia|done].
Qed.

(** A change to the thread system that leaves the heap, followed by an activation or with no
    address space current. *)
Lemma vm_ok_threads s B ts t :
  vm_ok s B -> heap ts = heap (vts s) -> length t = Z.to_nat NUM_TLB ->
  (forall i th, threads ts !! i = Some th -> t_vmspace th <> 0 -> is_Some (spaces s !! t_vmspace th)) ->
  (Forall dead t \/ exists th, threads ts !! curthread ts = Some th /\ t_vmspace th = 0) ->
  vm_ok (set_tlb t (set_vts ts s)) B.
Proof.
  intros O Eh Hl Hown Hd. pose proof O as [Oh Os Of Oal Oap Oo Ot Oe]. split; try done.
  - unfold hp in *. cbn [vts set_tlb set_vts]. by rewrite Eh.
  - intros p a (th & Hth & Hp) Ha. cbn [vts set_tlb set_vts spaces tlb] in *. destruct Hd as [Hd|(th' & Hth' & Hz)].
    + eapply Forall_impl; [exact Hd|]. apply dead_ok.
    + exfalso. assert (p = 0) by congruence. by apply (space_nonzero s B p a).
Qed.

End threads.

(** ** Runs *)

(** The state a call leaves when it returns, with or without an error. *)
Definition ran {S A} (o : outcome S A) (s' : S) : Prop :=
  match o with Done _ x | Fail _ x => x = s' | _ => False end.

Section steps.
Context {V : Type}.
Implicit Types s : vmsys V.

(** The calls the rest of the kernel makes.  Regions are defined before [as_prepare_load], and are
    such that neither their end nor the memory they take wraps around ([seg_fits]; the loader
    does not check it); an address space belongs to one thread, which enters it with none and is the only
    one to leave it; user accesses are made by a thread that has one. *)
Inductive vm_step s s' : Prop :=
  | st_create p : as_create s = Done p s' -> vm_step s s'
  | st_define p a vaddr sz : spaces s !! p = Some a -> unprepared a -> seg_fits vaddr sz ->
      ran (as_define_region p vaddr sz s) s' -> vm_step s s'
  | st_prepare p a : spaces s !! p = Some a -> unprepared a -> ran (as_prepare_load p s) s' -> vm_step s s'
  | st_copy p a : spaces s !! p = Some a -> loaded a -> ran (as_copy p s) s' -> vm_step s s'
  | st_enter p a : spaces s !! p = Some a -> current s 0 -> enter_space p s = Done tt s' -> vm_step s s'
  | st_leave p : current s p ->
      (forall t th, threads (vts s) !! t = Some th -> t <> curthread (vts s) -> t_vmspace th <> p) ->
      leave_space s = Done tt s' -> vm_step s s'
  | st_destroy p a : spaces s !! p = Some a -> (forall t th, threads (vts s) !! t = Some th -> t_vmspace th <> p) ->
      as_destroy p s = Done tt s' -> vm_step s s'
  | st_switch t : switched_to t s = Done tt s' -> vm_step s s'
  | st_load p a va : current s p -> spaces s !! p = Some a -> 0 <= va < USERTOP -> ran (load_byte va s) s' -> vm_step s s'
  | st_store p a va v : current s p -> spaces s !! p = Some a -> 0 <= va < USERTOP -> ran (store_byte va v s) s' -> vm_step s s'.

(** A program whose address space is not set up cannot touch its memory. *)
Lemma user_access_unloaded s B p a w va :
  vm_ok s B -> current s p -> spaces s !! p = Some a -> ~ loaded a -> 0 <= va < USERTOP -> user_access 2 w va s = Panic.
Proof.
  intros O Hc Ha L Hva. destruct (vo_struct _ _ O _ _ Ha) as [_ W]. cbn [user_access].
  rewrite (bind_Done _ _ s (tlb s) s) by done.
  destruct (mmu_spec a (tlb s) w va W (vm_frames _ _ _ _ O Ha) (vo_entries _ _ O _ _ Hc Ha) Hva) as [(? & _ & _ & ?)|[E _]]; [done|].
  rewrite E. munfold. rewrite (vm_fault_start s B p a (if w then VM_FAULT_WRITE else VM_FAULT_READ) va O Hc Ha ltac:(destruct w; auto)).
  munfold. by rewrite assert_setup_missing.
Qed.

Lemma user_access_keeps s B p a w va :
  vm_ok s B -> current s p -> spaces s !! p = Some a -> 0 <= va < USERTOP ->
  user_access 2 w va s = Panic \/ user_access 2 w va s = Fail EFAULT s \/
  exists pa s', user_access 2 w va s = Done pa s' /\ vm_ok s' B.
Proof.
  intros O Hc Ha Hva. destruct (decide (loaded a)) as [L|L]; [|left; by apply (user_access_unloaded s B p a)].
  destruct (user_access_spec s B p a w va O Hc Ha L Hva) as [(pa & t & E & _ & O' & _)|[E _]]; [|by auto]. right. right. eauto.
Qed.

Lemma upd_thread_Done s t th f :
  threads (vts s) !! t = Some th ->
  vt (upd_thread t f) s = Done tt (set_vts (set_threads (<[t := f th]> (threads (vts s))) (vts s)) s).
Proof. intros E. unfold vt, zoom, upd_thread, get_thread. munfold. unfold id. cbn [lget vtsL]. by rewrite E. Qed.

Lemma get_thread_Done s t th : threads (vts s) !! t = Some th -> vt (get_thread t) s = Done th s.
Proof. intros E. unfold vt, zoom, get_thread. munfold. unfold id. cbn [lget lset vtsL]. rewrite E. by destruct s. Qed.

Lemma enter_keeps s B p a s' :
  vm_ok s B -> spaces s !! p = Some a -> current s 0 -> enter_space p s = Done tt s' -> vm_ok s' B.
Proof.
  intros O Ha (th & Hth & _). unfold enter_space. rewrite (bind_Done _ _ s (curthread (vts s)) s) by done.
  rewrite (bind_Done _ _ _ _ _ (upd_thread_Done s _ th _ Hth)). set (ts := set_threads _ _).
  destruct (as_activate_spec (set_vts ts s) (vo_tlb _ _ O)) as (t & E & Hl & Hd). rewrite E. intros [= <-].
  apply vm_ok_threads; [done|done|done| |by left]. intros i th' Hi Hnz.
  unfold ts in Hi. cbn [threads set_threads] in Hi. apply lookup_insert_Some in Hi as [[_ <-]|[_ Hi]]; [by exists a|].
  by apply (vo_owner _ _ O i).
Qed.

Lemma leave_keeps s B p s' :
  vm_ok s B -> current s p ->
  (forall t th, threads (vts s) !! t = Some th -> t <> curthread (vts s) -> t_vmspace th <> p) ->
  leave_space s = Done tt s' -> exists B', vm_ok s' B'.
Proof.
  intros O (th & Hth & Hp) Hno. unfold leave_space. rewrite (bind_Done _ _ s (curthread (vts s)) s) by done.
  rewrite (bind_Done _ _ _ _ _ (get_thread_Done s _ th Hth)). rewrite Hp.
  destruct (decide (p <> 0)) as [D|D]; [|intros [= <-]; by exists B].
  rewrite (bind_Done _ _ _ _ _ (upd_thread_Done s _ th _ Hth)). set (ts := set_threads _ _).
  assert (O' : vm_ok (set_tlb (tlb s) (set_vts ts s)) B).
  { apply vm_ok_threads; [done|done|apply (vo_tlb _ _ O)| |].
    - intros i th' Hi Hnz. unfold ts in Hi. cbn [threads set_threads] in Hi.
      apply lookup_insert_Some in Hi as [[_ <-]|[_ Hi]]; [done|]. by apply (vo_owner _ _ O i).
    - right. exists (set_vmspace 0 th). split; [apply lookup_insert_eq|done]. }
  change (set_tlb (tlb s) (set_vts ts s)) with (set_vts ts s) in O'.
  destruct (vo_owner _ _ O _ th Hth ltac:(by rewrite Hp)) as [a Ha]. rewrite Hp in Ha.
  destruct (as_destroy_spec (set_vts ts s) B p a O' Ha) as (h & E & O2).
  { intros t th'. cbn [vts set_vts]. unfold ts. cbn [threads set_threads].
    intros [[_ <-]|[Hne Ht]]%lookup_insert_Some; [done|]. by apply (Hno t). }
  rewrite E. intros [= <-]. by eexists.
Qed.

Lemma switch_keeps s B t s' : vm_ok s B -> switched_to t s = Done tt s' -> vm_ok s' B.
Proof.
  intros O. unfold switched_to. set (ts := set_curthread t (vts s)).
  rewrite (bind_Done _ _ s tt (set_vts ts s)) by done.
  destruct (threads (vts s) !! t) as [th|] eqn:Ht.
  2:{ unfold vt at 1, zoom, get_thread. munfold. unfold id. cbn [lget vtsL vts set_vts]. unfold ts. cbn [threads set_curthread]. by rewrite Ht. }
  rewrite (bind_Done _ _ _ _ _ (get_thread_Done (set_vts ts s) t th Ht)).
  assert (Hown : forall i th', threads ts !! i = Some th' -> t_vmspace th' <> 0 -> is_Some (spaces s !! t_vmspace th')) by apply (vo_owner _ _ O).
  destruct (decide (t_vmspace th <> 0)) as [D|D].
  - destruct (as_activate_spec (set_vts ts s) (vo_tlb _ _ O)) as (tl & E & Hl & Hd). rewrite E. intros [= <-].
    apply vm_ok_threads; [done|done|done|done|by left].
  - intros [= <-]. change (set_vts ts s) with (set_tlb (tlb s) (set_vts ts s)).
    apply vm_ok_threads; [done|done|apply (vo_tlb _ _ O)|done|]. right. exists th. split; [done|].
    destruct (decide (t_vmspace th = 0)); tauto.
Qed.

Lemma vm_step_keeps s B s' : vm_ok s B -> vm_step s s' -> exists B', vm_ok s' B'.
Proof.
  intros O []; unfold load_byte, store_byte, ran in *.
  - destruct (as_create_spec s B O) as [(h & E & O')|(q & h & E & _ & _ & _ & O')]; rewrite E in *; simplify_eq; eauto.
  - destruct (define_region_spec s B p a vaddr sz) as [(a' & E & O')|E]; [done..| |]; rewrite E in *; subst; eauto.
  - destruct (prepare_load_spec s B p a) as (h & a' & B' & O' & _ & _ & [[E _]|E]); [done..| |]; rewrite E in *; subst; eauto.
  - destruct (as_copy_spec s B p a) as [(q & s1 & B' & E & O' & _)|(s1 & B' & E & O' & _)]; [done..| |]; rewrite E in *; subst; eauto.
  - exists B. by eapply enter_keeps.
  - by eapply leave_keeps.
  - destruct (as_destroy_spec s B p a) as (h & E & O'); [done..|]. rewrite E in *. simplify_eq. eauto.
  - exists B. by eapply switch_keeps.
  - edestruct (user_access_keeps s B p a false va) as [E|[E|(pa & s1 & E & O')]]; try done.
    + unfold mbind, M_bind in *. by rewrite E in *.
    + rewrite (bind_Fail _ _ _ _ _ E) in *. subst. eauto.
    + rewrite (bind_Done _ _ _ _ _ E) in *. simpl in *. subst. eauto.
  - edestruct (user_access_keeps s B p a true va) as [E|[E|(pa & s1 & E & O')]]; try done.
    + unfold mbind, M_bind in *. by rewrite E in *.
    + rewrite (bind_Fail _ _ _ _ _ E) in *. subst. eauto.
    + rewrite (bind_Done _ _ _ _ _ E) in *. simpl in *. subst. exists B. by apply vm_ok_pmem.
Qed.

End steps.

(** ** The TLB at start-up *)

(** The page an entry is for. *)
Definition epage (e : Z * Z) : Z := Z.land e.1 TLBHI_VPAGE.

(** Entries from [i] on whose page is not below [x]. *)
Definition above (x : Z) (i : nat) (t : list (Z * Z)) : nat := length (filter (fun e => x <= epage e) (drop i t)).

Lemma filter_length_le {A} (P Q : A -> Prop) `{!forall x, Decision (P x), !forall x, Decision (Q x)} l :
  (forall x, P x -> Q x) -> (length (filter P l) <= length (filter Q l))%nat.
Proof.
  intros HPQ. induction l as [|x l IH]; [done|]. rewrite !filter_cons.
  destruct (decide (P x)); [rewrite decide_True by auto; simpl; lia|]. destruct (decide (Q x)); simpl; lia.
Qed.

Lemma above_skip x i t k e : t !! k = Some e -> (i <= k)%nat -> epage e = x -> (above (x + 4096) i t < above x i t)%nat.
Proof.
  intros Hk Hi He. unfold above.
  assert (Hd : drop i t !! (k - i)%nat = Some e) by (rewrite lookup_drop; replace (i + (k - i))%nat with k by lia; done).
  apply list_elem_of_split_length in Hd as (l1 & l2 & -> & _). rewrite !filter_app, !filter_cons.
  rewrite (decide_False (P := x + 4096 <= _)), (decide_True (P := x <= _)) by lia. rewrite !length_app. simpl.
  pose proof (filter_length_le (fun e => x + 4096 <= epage e) (fun e => x <= epage e) l1 ltac:(cbv beta; intros; lia)).
  pose proof (filter_length_le (fun e => x + 4096 <= epage e) (fun e => x <= epage e) l2 ltac:(cbv beta; intros; lia)). lia.
Qed.

Lemma above_write x i t y : (above (x + 4096) (S i) (<[i := y]> t) <= above x i t)%nat.
Proof.
  unfold above. rewrite drop_insert_lt by lia. etransitivity; [apply (filter_length_le _ (fun e => x <= epage e)); cbv beta; lia|].
  destruct (drop i t) as [|z l] eqn:E.
  - replace (drop (S i) t) with (drop 1 (drop i t)) by (rewrite drop_drop; f_equal; lia). by rewrite E.
  - replace (drop (S i) t) with (drop 1 (drop i t)) by (rewrite drop_drop; f_equal; lia). rewrite E. change (drop 1 (z :: l)) with l.
    rewrite filter_cons. case_decide; simpl; lia.
Qed.

(** The entries already written: dead, for distinct pages below [x]. *)
Record reset_upto (i : nat) (x : Z) (t : list (Z * Z)) : Prop := {
  ru_len : length t = Z.to_nat NUM_TLB;
  ru_entry : forall j e, (j < i)%nat -> t !! j = Some e -> e.2 = 0 /\ epage e = e.1 /\ 2164260864 <= e.1 < x;
  ru_apart : forall j k e f, (j < k < i)%nat -> t !! j = Some e -> t !! k = Some f -> e.1 < f.1;
}.

Lemma reset_step i x t :
  reset_upto i x t -> (i < Z.to_nat NUM_TLB)%nat -> 2164260864 <= x -> x + 4096 < 2 ^ 32 -> x mod 4096 = 0 ->
  reset_upto (S i) (x + 4096) (<[i := (x, 0)]> t).
Proof.
  intros [L E A] Hi Hx Hw Hal. split.
  - by rewrite length_insert.
  - intros j e Hj [(-> & <- & _)|[Hne He]]%list_lookup_insert_Some.
    + split; [done|]. unfold epage. change TLBHI_VPAGE with PAGE_FRAME. simpl. rewrite land_frame by lia. unfold page. lia.
    + destruct (E j e) as (? & ? & ?); [lia|done|]. split; [done|]. split; [done|lia].
  - intros j k e f Hjk [(-> & <- & _)|[Hne He]]%list_lookup_insert_Some [(-> & <- & _)|[Hnf Hf]]%list_lookup_insert_Some; try lia.
    + destruct (E j e) as (_ & _ & ?); [lia|done|]. simpl. lia.
    + apply (A j k); [lia|done|done].
Qed.

Lemma TLB_Reset_loop_spec fuel i x t :
  reset_upto i x t -> (i < Z.to_nat NUM_TLB)%nat -> 2164260864 <= x -> x + 4096 * Z.of_nat fuel <= 2164785152 -> x mod 4096 = 0 ->
  (Z.to_nat NUM_TLB - i + above x i t <= fuel)%nat ->
  exists t' y, TLB_Reset_loop fuel i x t = Some t' /\ reset_upto (Z.to_nat NUM_TLB) y t' /\ y <= 2164785152.
Proof.
  revert i x t. induction fuel as [|fuel IH]; intros i x t R Hi Hx Hw Hal Hf; [lia|].
  cbn [TLB_Reset_loop]. rewrite (u32_small (x + 4096)) by lia.
  assert (Hp : page x = x) by (unfold page; lia).
  assert (Hlx : Z.land x TLBHI_VPAGE = x) by (change TLBHI_VPAGE with PAGE_FRAME; rewrite land_frame by lia; done).
  destruct (list_find (tlb_match x) t) as [[k e]|] eqn:E.
  - apply list_find_Some in E as (Hk & [Hm _] & _). rewrite Hlx in Hm.
    assert (Hge : (i <= k)%nat).
    { destruct (decide (k < i)%nat) as [D|]; [|lia]. destruct (ru_entry _ _ _ R k e D Hk) as (_ & He & ?). unfold epage in He. lia. }
    pose proof (above_skip x i t k e Hk Hge Hm). apply IH; try lia.
    destruct R as [L Ee A]. split; [done| |done]. intros j f Hj Hjf. destruct (Ee j f Hj Hjf) as (? & ? & ?).
    split; [done|]. split; [done|lia].
  - pose proof (reset_step i x t R Hi Hx ltac:(lia) Hal) as R'. case_decide as D.
    + eexists _, (x + 4096). split; [done|]. replace (S i) with (Z.to_nat NUM_TLB) in R' by (unfold NUM_TLB in *; lia). split; [done|lia].
    + pose proof (above_write x i t (x, 0)). apply IH; try done; unfold NUM_TLB in *; try lia.
Qed.

(** C28: Whatever the TLB holds when the machine starts, the loop of [TLB_Reset] ends, and
    leaves 64 entries that are not valid, for 64 different pages outside user memory and
    different from those [as_activate] writes. *)
Theorem TLB_Reset_terminates t :
  length t = Z.to_nat NUM_TLB ->
  exists t', TLB_Reset t = Some t' /\ length t' = Z.to_nat NUM_TLB /\ Forall dead t' /\
    (forall j k e f, t' !! j = Some e -> t' !! k = Some f -> epage e = epage f -> j = k) /\
    (forall j e i, t' !! j = Some e -> 0 <= i < NUM_TLB -> epage e <> TLBHI_INVALID i).
Proof.
  intros Hl. unfold TLB_Reset.
  destruct (TLB_Reset_loop_spec 128 0 2164260864 t) as (t' & y & E & [L Ee A] & Hy); [split; [done|lia|lia]|unfold NUM_TLB; lia|lia|lia|done| |].
  { unfold above. pose proof (length_filter (fun e => 2164260864 <= epage e) (drop 0 t)). rewrite length_drop, Hl in H. unfold NUM_TLB in *. lia. }
  assert (Hent : forall j e, t' !! j = Some e -> e.2 = 0 /\ epage e = e.1 /\ 2164260864 <= e.1 < y).
  { intros j e Hj. apply (Ee j e); [|done]. apply lookup_lt_Some in Hj. lia. }
  exists t'. split; [done|]. split; [done|]. split; [|split].
  - apply Forall_lookup_2. intros j e Hj. destruct (Hent j e Hj) as (H0 & _ & ?). split; [unfold tlb_valid; rewrite H0; by intros []|].
    unfold USERTOP, MIPS_KSEG0. lia.
  - intros j k e f Hj Hk Hef. destruct (Hent j e Hj) as (_ & He & _). destruct (Hent k f Hk) as (_ & Hf & _).
    pose proof (lookup_lt_Some _ _ _ Hj). pose proof (lookup_lt_Some _ _ _ Hk).
    destruct (Nat.lt_trichotomy j k) as [Hlt|[?|Hlt]]; [|done|].
    + pose proof (A j k e f ltac:(lia) Hj Hk). lia.
    + pose proof (A k j f e ltac:(lia) Hk Hj). lia.
  - intros j e i Hj Hi. destruct (Hent j e Hj) as (_ & -> & ?). unfold TLBHI_INVALID, NUM_TLB in *.
    rewrite Z.shiftl_mul_pow2, u32_small by lia. lia.
Qed.

Lemma TLB_Reset_length fuel i x t t' : TLB_Reset_loop fuel i x t = Some t' -> length t' = length t.
Proof.
  revert i x t. induction fuel as [|fuel IH]; intros i x t; cbn [TLB_Reset_loop]; [done|].
  destruct (list_find _ t); [apply IH|]. case_decide; [intros [= <-]|intros E%IH; rewrite E]; apply length_insert.
Qed.

Lemma TLB_Reset_eq t : TLB_Reset t = TLB_Reset_loop 128 0 2164260864 t.
Proof. unfold TLB_Reset. reflexivity. Qed.

Section reach.
Context {V : Type}.
Implicit Types s : vmsys V.

(** The system before the first address space: the TLB was reset. *)
Record vm_boot s : Prop := {
  vb_heap : exists B, Kheap.kheap_rep (hp s) B;
  vb_spaces : spaces s = ∅;
  vb_threads : forall t th, threads (vts s) !! t = Some th -> t_vmspace th = 0;
  vb_tlb : exists t, length t = Z.to_nat NUM_TLB /\ TLB_Reset t = Some (tlb s);
}.

Lemma vm_boot_ok s : vm_boot s -> exists B, vm_ok s B.
Proof.
  intros [[B R] Es Ht (t & Hl & Er)]. exists B. rewrite TLB_Reset_eq in Er. apply TLB_Reset_length in Er.
  assert (Hno : forall p a, spaces s !! p = Some a -> False) by (intros p a; by rewrite Es, lookup_empty).
  split.
  - done.
  - intros p a Ha. destruct (Hno p a Ha).
  - intros p a i pb n Ha. destruct (Hno p a Ha).
  - intros p a i pb n Ha. destruct (Hno p a Ha).
  - intros p a i q b j pb n n' Ha. destruct (Hno p a Ha).
  - intros i th Hi Hnz. by rewrite (Ht i th Hi) in Hnz.
  - congruence.
  - intros p a _ Ha. destruct (Hno p a Ha).
Qed.

Lemma reachable_ok s0 s : vm_boot s0 -> rtc vm_step s0 s -> exists B, vm_ok s B.
Proof.
  intros Hb Hr. apply vm_boot_ok in Hb. induction Hr as [|s0 s1 s Hs Hr IH]; [done|].
  destruct Hb as [B O]. apply IH. by eapply vm_step_keeps.
Qed.

(** C12: In every state that is reached with regions whose end and whose size in memory do not
    wrap around, inside user memory or not, the processor translates the addresses of the running program as its
    address space says, whatever was in the TLB before, and no two places of user memory, of one
    program or of two, share a byte; the frames lie in memory and inside no block of the kernel's heap
    that is not a run of frames of the same program. *)
Theorem user_memory_isolated s0 s :
  vm_boot s0 -> rtc vm_step s0 s ->
  (forall p a w va pa, current s p -> spaces s !! p = Some a -> 0 <= va < USERTOP -> mmu (tlb s) w va = inr pa -> paddr s p va = Some pa) /\
  (forall p q va wa pa, paddr s p va = Some pa -> paddr s q wa = Some pa -> p = q /\ va = wa) /\
  exists B, Kheap.kheap_rep (hp s) B /\
    forall p a va pa b m, spaces s !! p = Some a -> paddr s p va = Some pa ->
      B !! b = Some m -> b <= pa + MIPS_KSEG0 < b + m -> exists pb n, (pb, n) ∈ runs a /\ b = pb + MIPS_KSEG0 /\ m = n * PAGE_SIZE.
Proof.
  intros Hb Hr. destruct (reachable_ok s0 s Hb Hr) as [B O]. split; [|split].
  - intros p a w va pa Hc Ha Hva E. destruct (vo_struct _ _ O _ _ Ha) as [_ W].
    destruct (mmu_spec a (tlb s) w va W (vm_frames _ _ _ _ O Ha) (vo_entries _ _ O _ _ Hc Ha) Hva) as [(pa' & E' & Et & L)|[E' _]];
      rewrite E in E'; [|done]. injection E' as <-. apply paddr_Some. eauto.
  - intros p q va wa pa. by apply (paddr_inj s B).
  - exists B. split; [apply (vo_heap _ _ O)|]. intros p a va pa b m Ha Hpa Hb' Hin.
    destruct (paddr_range s B p va pa O Hpa) as (a' & i & pb & n & Ha' & Hrun & Hw). rewrite Ha in Ha'. injection Ha' as <-.
    pose proof (vo_frames _ _ O _ _ _ _ _ Ha Hrun) as Hf. unfold within in Hw.
    assert (b = pb + MIPS_KSEG0) as ->.
    { destruct (Z.lt_trichotomy b (pb + MIPS_KSEG0)) as [L|[?|L]]; [|done|].
      - pose proof (Kheap.kheap_rep_disjoint _ _ _ _ _ _ (vo_heap _ _ O) Hb' Hf L). lia.
      - pose proof (Kheap.kheap_rep_disjoint _ _ _ _ _ _ (vo_heap _ _ O) Hf Hb' L). lia. }
    rewrite Hb' in Hf. injection Hf as ->. exists pb, n. split; [|done]. destruct Hrun as [Hi _]. by apply list_elem_of_lookup_2 in Hi.
Qed.

End reach.

End VmInv.
