(* ===== verification/Uio.v ===== *)
(** * Moving data: kern/lib/copyinout.c, kern/userprog/uio.c

    Copies between the kernel and user memory, and the [struct uio] through
    which file systems and devices move data.  User memory is a map from
    addresses to bytes, absent where an access faults; the machine resumes a
    faulting copy at [copyfail] when [pcb_badfaultfunc] is set and panics when it
    is not.  The theorems show that no user pointer makes the kernel touch its
    own memory, and what each copy leaves behind. *)

From S2P Require Import Prelude.

Module Uio.

(** kern/arch/mips/include/vm.h *)
Definition USERTOP : Z := 0x80000000.

Record uctx := mkuctx {
  umem : gmap Z Z;       (* the bytes of user memory that are mapped *)
  curspace : Z;          (* curthread->t_vmspace *)
  badfault : bool;       (* whether pcb_badfaultfunc is set *)
}.

Definition set_umem x (c : uctx) : uctx := mkuctx x (curspace c) (badfault c).
Definition set_badfault x (c : uctx) : uctx := mkuctx (umem c) (curspace c) x.

(** A kernel buffer with the user context. *)
Abbreviation CM := (M (list Z * uctx)).

(** ** Memory accesses *)

(** The trap of an access that faults: the copy is abandoned with [longjmp], or
    the kernel stops. *)
Definition fault {A} : CM A := fun s => if badfault s.2 then Fail EFAULT s else Panic.

(** An access through a pointer taken for a user pointer; at or above [USERTOP]
    it would reach memory of the kernel. *)
Definition uload (a : Z) : CM Z := fun s =>
  if decide (0 <= a < USERTOP) then
    match umem s.2 !! a with Some b => Done b s | None => fault s end
  else Undef.

Definition ustore (a b : Z) : CM unit := fun s =>
  if decide (0 <= a < USERTOP) then
    match umem s.2 !! a with
    | Some _ => Done tt (s.1, set_umem (<[a := b]> (umem s.2)) s.2)
    | None => fault s
    end
  else Undef.

Definition kload (p : Z) : CM Z := s ← gets id; access (zlookup s.1 p).
Definition kstore (p b : Z) : CM unit :=
  s ← gets id; k ← access (zinsert s.1 p b); modify (fun s => (k, s.2)).

(** [memcpy], with a user pointer on one side. *)
Fixpoint memcpy_in (n : nat) (src dest : Z) : CM unit :=
  match n with
  | O => mret tt
  | S n' => b ← uload src; kstore dest b ;; memcpy_in n' (src + 1) (dest + 1)
  end.

Fixpoint memcpy_out (n : nat) (src dest : Z) : CM unit :=
  match n with
  | O => mret tt
  | S n' => b ← kload src; ustore dest b ;; memcpy_out n' (src + 1) (dest + 1)
  end.

(** ** copyinout.c *)

(** [stoplen], or [EFAULT]. *)
Definition copycheck (userptr len : Z) : errno + Z :=
  let bot := userptr in
  let top := u32 (bot + len - 1) in
  if decide (top < bot) then inl EFAULT
  else if decide (bot >= USERTOP) then inl EFAULT
  else if decide (top >= USERTOP) then inr (USERTOP - bot)
  else inr len.

Definition set_badfaultfunc (b : bool) : CM unit := modify (fun s => (s.1, set_badfault b s.2)).

(** A copy between the two assignments of [pcb_badfaultfunc]; a fault comes back
    at the [setjmp] between them. *)
Definition protected {A} (m : CM (errno + A)) : CM A :=
  set_badfaultfunc true ;;
  r ← attempt m;
  set_badfaultfunc false ;;
  match r with
  | inl _ => fail EFAULT            (* copyfail: setjmp returned 1 *)
  | inr (inl e) => fail e
  | inr (inr a) => mret a
  end.

Definition copyin (usersrc dest len : Z) : CM unit :=
  match copycheck usersrc len with
  | inl e => fail e
  | inr stoplen =>
      if decide (stoplen <> len) then fail EFAULT
      else protected (memcpy_in (Z.to_nat len) usersrc dest ;; mret (inr tt))
  end.

Definition copyout (src userdest len : Z) : CM unit :=
  match copycheck userdest len with
  | inl e => fail e
  | inr stoplen =>
      if decide (stoplen <> len) then fail EFAULT
      else protected (memcpy_out (Z.to_nat len) src userdest ;; mret (inr tt))
  end.

(** The loop of [copystr] over the remaining [n] characters, for the two
    directions; [inr] is the length with the terminator. *)
Fixpoint copystr_loop (ld : Z -> CM Z) (st : Z -> Z -> CM unit) (n : nat)
    (i maxlen stoplen dest src : Z) : CM (errno + Z) :=
  match n with
  | O => mret (inl (if decide (stoplen < maxlen) then EFAULT else ENAMETOOLONG))
  | S n' =>
      c ← ld (src + i);
      st (dest + i) c ;;
      if decide (c = 0) then mret (inr (u32 (i + 1)))
      else copystr_loop ld st n' (i + 1) maxlen stoplen dest src
  end.

Definition copystr (ld : Z -> CM Z) (st : Z -> Z -> CM unit) (dest src maxlen stoplen : Z)
    : CM (errno + Z) :=
  copystr_loop ld st (Z.to_nat (Z.min maxlen stoplen)) 0 maxlen stoplen dest src.

Definition copyinstr (usersrc dest len : Z) : CM Z :=
  match copycheck usersrc len with
  | inl e => fail e
  | inr stoplen => protected (copystr uload kstore dest usersrc len stoplen)
  end.

Definition copyoutstr (src userdest len : Z) : CM Z :=
  match copycheck userdest len with
  | inl e => fail e
  | inr stoplen => protected (copystr kload ustore userdest src len stoplen)
  end.

(** ** uio.c *)

Inductive uio_rw := UIO_READ | UIO_WRITE.
Inductive uio_seg := UIO_USERSPACE | UIO_SYSSPACE | UIO_USERISPACE.

#[global] Instance uio_rw_eq_dec : EqDecision uio_rw.
Proof. solve_decision. Defined.
#[global] Instance uio_seg_eq_dec : EqDecision uio_seg.
Proof. solve_decision. Defined.

(** A kernel data block is carried by value: [iov_kbuf] is the buffer that
    [iov_kbase] points into, and [iov_base] the position it points to.  For user
    space [iov_base] is the address [iov_ubase]. *)
Record uio := mkuio {
  iov_base : Z;
  iov_kbuf : list Z;
  iov_len : Z;
  uio_offset : Z;
  uio_resid : Z;
  uio_segflg : uio_seg;
  rw : uio_rw;
  uio_space : Z;
}.

Definition set_kbuf x (u : uio) : uio :=
  mkuio (iov_base u) x (iov_len u) (uio_offset u) (uio_resid u) (uio_segflg u) (rw u) (uio_space u).
Definition set_offset x (u : uio) : uio :=
  mkuio (iov_base u) (iov_kbuf u) (iov_len u) x (uio_resid u) (uio_segflg u) (rw u) (uio_space u).
Definition set_resid x (u : uio) : uio :=
  mkuio (iov_base u) (iov_kbuf u) (iov_len u) (uio_offset u) x (uio_segflg u) (rw u) (uio_space u).

(** The updates at the end of an iteration of [uiomove]. *)
Definition advance (size : Z) (u : uio) : uio :=
  mkuio (iov_base u + size) (iov_kbuf u) (u32 (iov_len u - size)) (s32 (uio_offset u + size))
    (u32 (uio_resid u - size)) (uio_segflg u) (rw u) (uio_space u).

(** The kernel buffer [ptr] points into, the user context and the uio. *)
Abbreviation UM := (M (list Z * (uctx * uio))).

(** [size] bytes of a buffer, from position [p]; [None] outside it. *)
Definition slice (k : list Z) (p size : Z) : option (list Z) :=
  if decide (0 <= p /\ 0 <= size /\ p + size <= Z.of_nat (length k)) then
    Some (take (Z.to_nat size) (drop (Z.to_nat p) k))
  else None.

Definition splice (k : list Z) (p : Z) (d : list Z) : option (list Z) :=
  if decide (0 <= p /\ p + Z.of_nat (length d) <= Z.of_nat (length k)) then
    Some (list_inserts (Z.to_nat p) d k)
  else None.

(** [memmove] between the buffer of the caller and that of the uio. *)
Definition memmove_read (ptr size : Z) : UM unit := fun '(k, (c, u)) =>
  match slice k ptr size with
  | None => Undef
  | Some d =>
      match splice (iov_kbuf u) (iov_base u) d with
      | None => Undef
      | Some kb => Done tt (k, (c, set_kbuf kb u))
      end
  end.

Definition memmove_write (ptr size : Z) : UM unit := fun '(k, (c, u)) =>
  match slice (iov_kbuf u) (iov_base u) size with
  | None => Undef
  | Some d =>
      match splice k ptr d with
      | None => Undef
      | Some k' => Done tt (k', (c, u))
      end
  end.

Definition copyL : lens (list Z * (uctx * uio)) (list Z * uctx) :=
  Lens (fun s => (s.1, s.2.1)) (fun t s => (t.1, (t.2, s.2.2))).

Definition move_chunk (ptr size : Z) : UM unit := fun s =>
  let u := s.2.2 in
  match uio_segflg u, rw u with
  | UIO_SYSSPACE, UIO_READ => memmove_read ptr size s
  | UIO_SYSSPACE, UIO_WRITE => memmove_write ptr size s
  | _, UIO_READ => zoom copyL (copyout ptr (iov_base u) size) s
  | _, UIO_WRITE => zoom copyL (copyin (iov_base u) ptr size) s
  end.

Fixpoint uiomove_loop (fuel : nat) (ptr n : Z) : UM unit :=
  s ← gets id;
  let u := s.2.2 in
  if decide (n > 0 /\ uio_resid u > 0) then
    match fuel with
    | O => nofuel
    | S fuel' =>
        let size := if decide (iov_len u > n) then n else iov_len u in
        if decide (size = 0) then panic
        else
          move_chunk ptr size ;;
          modify (fun s => (s.1, (s.2.1, advance size s.2.2))) ;;
          uiomove_loop fuel' (ptr + size) (u32 (n - size))
    end
  else mret tt.

(** A value of [uio_rw] or [uio_segflg] outside the enumeration, which panics,
    is not represented. *)
Definition uiomove (ptr n : Z) : UM unit :=
  s ← gets id;
  let u := s.2.2 in
  kassert (if decide (uio_segflg u = UIO_SYSSPACE) then bool_decide (uio_space u = 0)
           else bool_decide (uio_space u = curspace s.2.1)) ;;
  uiomove_loop (Z.to_nat n) ptr n.

(** The loop of [uiomovezeros], on the static buffer of sixteen zeros. *)
Fixpoint uiomovezeros_loop (fuel : nat) (n : Z) : UM unit :=
  if decide (n > 0) then
    match fuel with
    | O => nofuel
    | S fuel' =>
        let amt := if decide (16 > n) then n else 16 in
        uiomove 0 amt ;;
        uiomovezeros_loop fuel' (u32 (n - amt))
    end
  else mret tt.

Definition zeros : list Z := replicate 16 0.

Definition uiomovezeros (n : Z) : M (uctx * uio) unit := fun s =>
  if decide (rw s.2 = UIO_READ) then
    match uiomovezeros_loop (Z.to_nat n) n (zeros, s) with
    | Done _ s' => Done tt s'.2
    | Fail e s' => Fail e s'.2
    | Panic => Panic
    | Undef => Undef
    | NoFuel => NoFuel
    end
  else Panic.

Definition mk_kuio (kbuf : list Z) (len pos : Z) (d : uio_rw) : uio :=
  mkuio 0 kbuf len pos len UIO_SYSSPACE d 0.

(** ** Copies *)

(** The [n] bytes of user memory from [a] on, when all are mapped. *)
Fixpoint ubytes (m : gmap Z Z) (a : Z) (n : nat) : option (list Z) :=
  match n with
  | O => Some []
  | S n' => b ← m !! a; l ← ubytes m (a + 1) n'; Some (b :: l)
  end.

(** User memory with the bytes [d] stored from [a] on. *)
Fixpoint uwrite (m : gmap Z Z) (a : Z) (d : list Z) : gmap Z Z :=
  match d with
  | [] => m
  | b :: d' => uwrite (<[a := b]> m) (a + 1) d'
  end.

(** [m'] differs from [m] at most inside [n] mapped bytes from [a] on. *)
Definition same_outside (a : Z) (n : nat) (m m' : gmap Z Z) : Prop :=
  dom m' = dom m /\ forall x, ~ (a <= x < a + Z.of_nat n) -> m' !! x = m !! x.

(** The same of a buffer. *)
Definition buf_outside (p n : nat) (k k' : list Z) : Prop :=
  length k' = length k /\ forall i, ~ (p <= i < p + n)%nat -> k' !! i = k !! i.

Lemma ubytes_length m a n d : ubytes m a n = Some d -> length d = n.
Proof.
  revert a d. induction n as [|n IH]; intros a d; simpl; [by intros [= <-]|].
  destruct (m !! a); simpl; [|done]. destruct (ubytes m (a + 1) n) eqn:E; simpl; [|done].
  intros [= <-]. simpl. by erewrite IH.
Qed.

Lemma ubytes_lookup m a n d :
  ubytes m a n = Some d <-> length d = n /\ forall i, (i < n)%nat -> m !! (a + Z.of_nat i) = d !! i.
Proof.
  revert a d. induction n as [|n IH]; intros a d; simpl.
  { split; [intros [= <-]; split; [done|lia]|intros [Hd _]; by destruct d]. }
  split.
  - destruct (m !! a) as [b|] eqn:Ea; simpl; [|done].
    destruct (ubytes m (a + 1) n) as [l|] eqn:El; simpl; [|done]. intros [= <-].
    apply IH in El as [Hl Hi]. split; [simpl; lia|]. intros [|i] Hin; simpl; [by rewrite Z.add_0_r|].
    rewrite <- Hi by lia. f_equal. lia.
  - intros [Hl Hi]. destruct d as [|b d]; [done|]. pose proof (Hi O ltac:(lia)) as H0.
    rewrite Z.add_0_r in H0. rewrite H0. simpl.
    rewrite (proj2 (IH (a + 1) d)); [done|]. split; [simpl in Hl; lia|]. intros i Hin.
    specialize (Hi (S i) ltac:(lia)). simpl in Hi. rewrite <- Hi. f_equal. lia.
Qed.

Lemma ubytes_app m a n1 n2 :
  ubytes m a (n1 + n2) = d1 ← ubytes m a n1; d2 ← ubytes m (a + Z.of_nat n1) n2; Some (d1 ++ d2).
Proof.
  revert a. induction n1 as [|n1 IH]; intros a; simpl.
  - rewrite Z.add_0_r. by destruct (ubytes m a n2).
  - destruct (m !! a); simpl; [|done]. rewrite IH.
    replace (a + 1 + Z.of_nat n1) with (a + Z.of_nat (S n1)) by lia.
    destruct (ubytes m (a + 1) n1); simpl; [|done]. by destruct (ubytes m (a + Z.of_nat (S n1)) n2).
Qed.

Lemma uwrite_lookup m a d x :
  uwrite m a d !! x = if decide (a <= x < a + Z.of_nat (length d)) then d !! Z.to_nat (x - a) else m !! x.
Proof.
  revert m a. induction d as [|b d IH]; intros m a; simpl; [by rewrite decide_False by lia|].
  rewrite IH. case_decide as D1.
  - rewrite decide_True by lia. replace (Z.to_nat (x - a)) with (S (Z.to_nat (x - (a + 1)))) by lia. done.
  - destruct (decide (x = a)) as [->|Hx].
    + rewrite decide_True by lia. rewrite lookup_insert_eq. by replace (Z.to_nat (a - a)) with O by lia.
    + rewrite decide_False by lia. by rewrite lookup_insert_ne.
Qed.

Lemma uwrite_outside m a d :
  (forall i, (i < length d)%nat -> is_Some (m !! (a + Z.of_nat i))) ->
  same_outside a (length d) m (uwrite m a d).
Proof.
  intros Hm. split.
  - apply set_eq. intros x. rewrite !elem_of_dom, uwrite_lookup. case_decide as D; [|done].
    split; intros _; [|apply lookup_lt_is_Some; lia].
    specialize (Hm (Z.to_nat (x - a)) ltac:(lia)). by replace (a + Z.of_nat (Z.to_nat (x - a))) with x in Hm by lia.
  - intros x Hx. rewrite uwrite_lookup. by rewrite decide_False by lia.
Qed.

Lemma same_outside_grow a n m m' : same_outside (a + 1) n m m' -> same_outside a (S n) m m'.
Proof. intros [Hd H]. split; [done|]. intros x Hx. apply H. lia. Qed.

Lemma kstore_eq k c (p : nat) b :
  (p < length k)%nat -> kstore (Z.of_nat p) b (k, c) = Done tt (<[p := b]> k, c).
Proof.
  intros Hp. unfold kstore. munfold. simpl. rewrite zinsert_in by lia. by rewrite Nat2Z.id.
Qed.

Lemma uload_eq k c a :
  0 <= a < USERTOP -> uload a (k, c) = match umem c !! a with Some b => Done b (k, c) | None => fault (k, c) end.
Proof. intros Ha. unfold uload. by rewrite decide_True by lia. Qed.

Lemma ustore_eq k c a b :
  0 <= a < USERTOP ->
  ustore a b (k, c) = match umem c !! a with
                      | Some _ => Done tt (k, set_umem (<[a := b]> (umem c)) c)
                      | None => fault (k, c)
                      end.
Proof. intros Ha. unfold ustore. by rewrite decide_True by lia. Qed.

Lemma memcpy_in_spec n src (dest : nat) k c :
  badfault c = true -> 0 <= src -> src + Z.of_nat n <= USERTOP -> (dest + n <= length k)%nat ->
  match ubytes (umem c) src n with
  | Some d => memcpy_in n src (Z.of_nat dest) (k, c) = Done tt (list_inserts dest d k, c)
  | None => exists k', memcpy_in n src (Z.of_nat dest) (k, c) = Fail EFAULT (k', c) /\ buf_outside dest n k k'
  end.
Proof.
  intros Hb. revert src dest k. induction n as [|n IH]; intros src dest k H0 H1 H2; [done|].
  cbn [memcpy_in ubytes].
  destruct (umem c !! src) as [b|] eqn:Eb; simpl.
  - rewrite (bind_Done (uload src) _ (k, c) b (k, c)) by (rewrite uload_eq by lia; by rewrite Eb).
    rewrite (bind_Done _ _ _ _ _ (kstore_eq k c dest b ltac:(lia))).
    replace (Z.of_nat dest + 1) with (Z.of_nat (S dest)) by lia.
    specialize (IH (src + 1) (S dest) (<[dest := b]> k) ltac:(lia) ltac:(lia)).
    rewrite length_insert in IH. specialize (IH ltac:(lia)).
    destruct (ubytes (umem c) (src + 1) n) as [d|] eqn:Ed; simpl.
    + rewrite IH. do 2 f_equal. by rewrite list_insert_inserts_lt by lia.
    + destruct IH as (k' & -> & Hl & Ho). exists k'. split; [done|]. rewrite length_insert in Hl.
      split; [done|]. intros i Hi. rewrite Ho by lia. apply list_lookup_insert_ne. lia.
  - exists k. split; [|done]. apply bind_Fail. rewrite uload_eq by lia. rewrite Eb. unfold fault. simpl. by rewrite Hb.
Qed.

Lemma memcpy_out_spec n (src : nat) dest k c :
  badfault c = true -> 0 <= dest -> dest + Z.of_nat n <= USERTOP -> (src + n <= length k)%nat ->
  match ubytes (umem c) dest n with
  | Some _ => memcpy_out n (Z.of_nat src) dest (k, c) =
                Done tt (k, set_umem (uwrite (umem c) dest (take n (drop src k))) c)
  | None => exists m', memcpy_out n (Z.of_nat src) dest (k, c) = Fail EFAULT (k, set_umem m' c) /\
                same_outside dest n (umem c) m'
  end.
Proof.
  revert src dest c. induction n as [|n IH]; intros src dest c Hb H0 H1 H2; [by destruct c|].
  destruct (lookup_lt_is_Some_2 k src ltac:(lia)) as [b Hk].
  cbn [memcpy_out ubytes].
  rewrite (bind_Done (kload (Z.of_nat src)) _ (k, c) b (k, c)) by
    (unfold kload; munfold; simpl; by rewrite zlookup_nat, Hk).
  destruct (umem c !! dest) as [b0|] eqn:Eb; simpl.
  - rewrite (bind_Done (ustore dest b) _ (k, c) tt (k, set_umem (<[dest := b]> (umem c)) c)) by
      (rewrite ustore_eq by lia; by rewrite Eb).
    replace (Z.of_nat src + 1) with (Z.of_nat (S src)) by lia.
    specialize (IH (S src) (dest + 1) (set_umem (<[dest := b]> (umem c)) c) Hb ltac:(lia) ltac:(lia) ltac:(lia)).
    rewrite (drop_S k b) by done. simpl.
    assert (Hu : ubytes (<[dest := b]> (umem c)) (dest + 1) n = ubytes (umem c) (dest + 1) n) by
      (apply option_eq; intros d; rewrite !ubytes_lookup; split; intros [Hl Hi]; (split; [done|]); intros i Hin;
       rewrite <- Hi by done; by rewrite lookup_insert_ne by lia).
    simpl in IH. rewrite Hu in IH. destruct (ubytes (umem c) (dest + 1) n) as [d|] eqn:Ed; simpl.
    + rewrite IH. done.
    + destruct IH as (m' & -> & Hd & Ho). exists m'. split; [done|]. split.
      * rewrite Hd, dom_insert_L. assert (dest ∈ dom (umem c)) by (by apply elem_of_dom_2 in Eb). set_solver.
      * intros x Hx. rewrite Ho by lia. apply lookup_insert_ne. lia.
  - exists (umem c). split; [|done]. apply bind_Fail. rewrite ustore_eq by lia. rewrite Eb. unfold fault. simpl.
    rewrite Hb. by destruct c.
Qed.

(** The [len] bytes at a user address, when the kernel may touch them. *)
Definition uread (c : uctx) (p len : Z) : option (list Z) :=
  if decide (0 < len /\ p + len <= USERTOP) then ubytes (umem c) p (Z.to_nat len) else None.

Lemma copycheck_spec p len :
  0 <= p < 2 ^ 32 -> 0 < len < 2 ^ 32 ->
  copycheck p len = if decide (p < USERTOP /\ p + len <= 2 ^ 32) then inr (Z.min len (USERTOP - p)) else inl EFAULT.
Proof.
  intros Hp Hl. unfold copycheck, USERTOP in *.
  destruct (decide (p + len <= 2 ^ 32)) as [D|D].
  - rewrite u32_small by lia. rewrite decide_False by lia. repeat case_decide; try lia; f_equal; lia.
  - assert (E : u32 (p + len - 1) = p + len - 1 - 2 ^ 32).
    { unfold u32. symmetry. apply (Z.mod_unique _ _ 1); lia. }
    rewrite E. rewrite decide_True by lia. by rewrite decide_False by lia.
Qed.

(** A copy of a whole block is rejected, or the block is user memory. *)
Lemma copycheck_block p len :
  0 <= p < 2 ^ 32 -> 0 <= len < 2 ^ 32 ->
  (0 < len /\ p + len <= USERTOP /\ copycheck p len = inr len) \/
  (~ (0 < len /\ p + len <= USERTOP) /\
   (copycheck p len = inl EFAULT \/ exists stop, copycheck p len = inr stop /\ stop <> len)).
Proof.
  intros Hp Hl. destruct (decide (len = 0)) as [->|Hn].
  - right. split; [lia|]. unfold copycheck. destruct (decide (p = 0)) as [->|Hp0].
    + right. by exists USERTOP.
    + left. rewrite u32_small by lia. by rewrite decide_True by lia.
  - rewrite copycheck_spec by lia. destruct (decide (p + len <= USERTOP)) as [D|D].
    + left. split; [lia|]. split; [done|]. unfold USERTOP in *. rewrite decide_True by lia. f_equal. lia.
    + right. split; [lia|]. case_decide; [right|by left]. eexists. split; [done|]. lia.
Qed.

(** The assignments of [pcb_badfaultfunc] around a copy cancel. *)
Lemma protected_Done {A} (m : CM (errno + A)) k c r k' c' :
  m (k, set_badfault true c) = Done r (k', c') ->
  protected m (k, c) = match r with inl e => Fail e (k', set_badfault false c')
                                  | inr a => Done a (k', set_badfault false c') end.
Proof. intros E. unfold protected, set_badfaultfunc. munfold. simpl. rewrite E. by destruct r. Qed.

Lemma protected_Fail {A} (m : CM (errno + A)) k c e k' c' :
  m (k, set_badfault true c) = Fail e (k', c') -> protected m (k, c) = Fail EFAULT (k', set_badfault false c').
Proof. intros E. unfold protected, set_badfaultfunc. munfold. simpl. by rewrite E. Qed.

Lemma set_badfault_undo c : badfault c = false -> set_badfault false (set_badfault true c) = c.
Proof. destruct c. simpl. by intros ->. Qed.

Lemma copyin_spec k c p (dest : nat) len :
  badfault c = false -> 0 <= p < 2 ^ 32 -> 0 <= len < 2 ^ 32 -> Z.of_nat dest + len <= Z.of_nat (length k) ->
  match uread c p len with
  | Some d => copyin p (Z.of_nat dest) len (k, c) = Done tt (list_inserts dest d k, c)
  | None => exists k', copyin p (Z.of_nat dest) len (k, c) = Fail EFAULT (k', c) /\
                       buf_outside dest (Z.to_nat len) k k'
  end.
Proof.
  intros Hb Hp Hl Hk. unfold uread, copyin.
  destruct (copycheck_block p len Hp Hl) as [(H0 & H1 & ->)|[Hn [->|(stop & -> & Hs)]]].
  - rewrite decide_True by lia. rewrite decide_False by (intros []; done).
    pose proof (memcpy_in_spec (Z.to_nat len) p dest k (set_badfault true c) eq_refl) as Hm.
    specialize (Hm ltac:(lia) ltac:(lia) ltac:(lia)). simpl in Hm.
    destruct (ubytes (umem c) p (Z.to_nat len)) as [d|].
    + rewrite (protected_Done _ _ _ (inr tt) (list_inserts dest d k) (set_badfault true c)) by
        by rewrite (bind_Done _ _ _ _ _ Hm). by rewrite set_badfault_undo.
    + destruct Hm as (k' & Hm & Ho). exists k'. split; [|done].
      rewrite (protected_Fail _ _ _ EFAULT k' (set_badfault true c)) by by rewrite (bind_Fail _ _ _ _ _ Hm).
      by rewrite set_badfault_undo.
  - rewrite decide_False by done. by exists k.
  - rewrite decide_False by done. rewrite decide_True by done. by exists k.
Qed.

Lemma copyout_spec k c (src : nat) p len :
  badfault c = false -> 0 <= p < 2 ^ 32 -> 0 <= len < 2 ^ 32 -> Z.of_nat src + len <= Z.of_nat (length k) ->
  match uread c p len with
  | Some _ => copyout (Z.of_nat src) p len (k, c) =
      Done tt (k, set_umem (uwrite (umem c) p (take (Z.to_nat len) (drop src k))) c)
  | None => exists m', copyout (Z.of_nat src) p len (k, c) = Fail EFAULT (k, set_umem m' c) /\
      same_outside p (Z.to_nat len) (umem c) m'
  end.
Proof.
  intros Hb Hp Hl Hk. unfold uread, copyout.
  assert (Hc : set_umem (umem c) c = c) by by destruct c.
  destruct (copycheck_block p len Hp Hl) as [(H0 & H1 & ->)|[Hn [->|(stop & -> & Hs)]]].
  - rewrite decide_True by lia. rewrite decide_False by (intros []; done).
    pose proof (memcpy_out_spec (Z.to_nat len) src p k (set_badfault true c) eq_refl) as Hm.
    specialize (Hm ltac:(lia) ltac:(lia) ltac:(lia)). simpl in Hm.
    destruct (ubytes (umem c) p (Z.to_nat len)) as [d|].
    + erewrite (protected_Done _ _ _ (inr tt)) by (rewrite (bind_Done _ _ _ _ _ Hm); done).
      do 2 f_equal. destruct c; simpl in *. by subst.
    + destruct Hm as (m' & Hm & Ho). exists m'. split; [|done].
      erewrite protected_Fail by (rewrite (bind_Fail _ _ _ _ _ Hm); done).
      do 2 f_equal. destruct c; simpl in *. by subst.
  - rewrite decide_False by done. exists (umem c). by rewrite Hc.
  - rewrite decide_False by done. rewrite decide_True by done. exists (umem c). by rewrite Hc.
Qed.

(** ** Strings *)

(** A string with its terminator. *)
Definition cstr (d : list Z) : Prop := exists d0, d = d0 ++ [0] /\ (0 ∉ d0).

Lemma cstr_cons b d : b <> 0 -> cstr d -> cstr (b :: d).
Proof. intros Hb (d0 & -> & H0). exists (b :: d0). split; [done|]. set_solver. Qed.

Lemma ubytes_cons m a n b d : m !! a = Some b -> ubytes m (a + 1) n = Some d -> ubytes m a (S n) = Some (b :: d).
Proof. intros Ha Hd. simpl. rewrite Ha. simpl. by rewrite Hd. Qed.

Lemma copyinstr_loop n (i : nat) maxlen stoplen (dest : nat) src k c :
  badfault c = true -> 0 <= src -> src + Z.of_nat (i + n) <= USERTOP -> (dest + i + n <= length k)%nat ->
  let a := src + Z.of_nat i in
  let r := copystr_loop uload kstore n (Z.of_nat i) maxlen stoplen (Z.of_nat dest) src (k, c) in
  let over := if decide (stoplen < maxlen) then EFAULT else ENAMETOOLONG in
  (exists d, cstr d /\ (length d <= n)%nat /\ ubytes (umem c) a (length d) = Some d /\
     r = Done (inr (Z.of_nat (i + length d))) (list_inserts (dest + i) d k, c)) \/
  (exists d, (0 ∉ d) /\ ubytes (umem c) a n = Some d /\ r = Done (inl over) (list_inserts (dest + i) d k, c)) \/
  (exists n' d, (n' < n)%nat /\ (0 ∉ d) /\ ubytes (umem c) a n' = Some d /\ umem c !! (a + Z.of_nat n') = None /\
     r = Fail EFAULT (list_inserts (dest + i) d k, c)).
Proof.
  intros Hb Hsrc. revert i k. induction n as [|n IH]; intros i k H1 H2 a r over.
  { right. left. exists []. split; [apply not_elem_of_nil|]. done. }
  subst r. cbn [copystr_loop]. fold a.
  destruct (umem c !! a) as [b|] eqn:Eb.
  2:{ right. right. exists O, []. split; [lia|]. split; [apply not_elem_of_nil|]. split; [done|].
      split; [by rewrite Z.add_0_r|]. apply bind_Fail. rewrite uload_eq by (unfold a in *; lia).
      rewrite Eb. unfold fault. simpl. by rewrite Hb. }
  rewrite (bind_Done (uload a) _ (k, c) b (k, c)) by (rewrite uload_eq by (unfold a in *; lia); by rewrite Eb).
  replace (Z.of_nat dest + Z.of_nat i) with (Z.of_nat (dest + i)) by lia.
  rewrite (bind_Done _ _ _ _ _ (kstore_eq k c (dest + i) b ltac:(lia))).
  destruct (decide (b = 0)) as [->|Hb0].
  { left. exists [0]. split; [by exists []; split; [|apply not_elem_of_nil]|]. split; [simpl; lia|].
    split; [by apply ubytes_cons|]. munfold. unfold USERTOP in *. rewrite u32_small by lia. simpl. do 2 f_equal. lia. }
  replace (Z.of_nat i + 1) with (Z.of_nat (S i)) by lia.
  assert (Ha : src + Z.of_nat (S i) = a + 1) by (unfold a; lia).
  assert (Hins : forall d, list_inserts (dest + S i) d (<[(dest + i)%nat := b]> k) = list_inserts (dest + i) (b :: d) k).
  { intros d. rewrite Nat.add_succ_r, <- list_insert_inserts_lt by lia. done. }
  specialize (IH (S i) (<[(dest + i)%nat := b]> k) ltac:(lia)). rewrite length_insert in IH.
  specialize (IH ltac:(lia)). cbv zeta in IH. rewrite Ha in IH.
  destruct IH as [(d & Hc & Hl & Hd & ->)|[(d & Hc & Hd & ->)|(n' & d & Hl & Hc & Hd & Hn & ->)]]; rewrite Hins.
  - left. exists (b :: d). split; [by apply cstr_cons|]. split; [simpl; lia|].
    split; [by apply ubytes_cons|]. do 3 f_equal. simpl. lia.
  - right. left. exists (b :: d). split; [set_solver|]. split; [by apply ubytes_cons|]. done.
  - right. right. exists (S n'), (b :: d). split; [lia|]. split; [set_solver|]. split; [by apply ubytes_cons|].
    split; [|done]. rewrite <- Hn. f_equal. lia.
Qed.

(** Why a string cannot be read: the buffer leaves the address space or starts
    in the kernel, or an unmapped byte or the kernel comes before its end. *)
Definition unreadable (m : gmap Z Z) (p len : Z) : Prop :=
  USERTOP <= p \/ 2 ^ 32 < p + len \/
  exists d, (0 ∉ d) /\ ubytes m p (length d) = Some d /\ Z.of_nat (length d) < len /\
    (p + Z.of_nat (length d) = USERTOP \/ m !! (p + Z.of_nat (length d)) = None).

Lemma inserts_all (d k : list Z) : length d = length k -> list_inserts 0 d k = d.
Proof. intros H. rewrite <- (app_nil_r k), list_inserts_0_r by done. apply app_nil_r. Qed.

Lemma inserts_outside (k d : list Z) (p n : nat) : (length d <= n)%nat -> buf_outside p n k (list_inserts p d k).
Proof.
  intros Hd. split; [apply length_inserts|]. intros i Hi.
  destruct (decide (i < p)%nat); [by apply list_lookup_inserts_lt|]. apply list_lookup_inserts_ge. lia.
Qed.

(** C30: [copyinstr] returns the length of the string at the user address, terminator
    included, with the string in the kernel buffer, when it ends within [len] bytes of
    user memory; [ENAMETOOLONG] when [len] bytes hold no terminator; and [EFAULT]
    when the string is not in user memory.  Nothing outside the [len] bytes of the
    buffer changes, and the recovery pointer is cleared on every path. *)
Theorem copyinstr_correct (k : list Z) (c : uctx) (p : Z) (dest : nat) (len : Z) :
  badfault c = false -> 0 <= p < 2 ^ 32 -> 0 < len < 2 ^ 32 -> Z.of_nat dest + len <= Z.of_nat (length k) ->
  let r := copyinstr p (Z.of_nat dest) len (k, c) in
  (exists d, cstr d /\ Z.of_nat (length d) <= len /\ p + Z.of_nat (length d) <= USERTOP /\
     ubytes (umem c) p (length d) = Some d /\
     r = Done (Z.of_nat (length d)) (list_inserts dest d k, c)) \/
  (exists d k', (0 ∉ d) /\ Z.of_nat (length d) = len /\ p + len <= USERTOP /\ ubytes (umem c) p (length d) = Some d /\
     r = Fail ENAMETOOLONG (k', c) /\ buf_outside dest (Z.to_nat len) k k') \/
  (unreadable (umem c) p len /\
   exists k', r = Fail EFAULT (k', c) /\ buf_outside dest (Z.to_nat len) k k').
Proof.
  intros Hb Hp Hl Hk r. unfold r, copyinstr. rewrite copycheck_spec by lia. case_decide as D.
  2:{ right. right. split; [unfold unreadable; lia|]. by exists k. }
  set (stop := Z.min len (USERTOP - p)). unfold copystr.
  replace (Z.min len stop) with stop by (unfold stop; lia).
  destruct (copyinstr_loop (Z.to_nat stop) 0 len stop dest p k (set_badfault true c) eq_refl) as
    [(d & Hc & Hd & Hu & E)|[(d & Hc & Hu & E)|(n' & d & Hn & Hc & Hu & Hm & E)]];
    try (unfold stop; lia); rewrite Nat.add_0_r in E; change (Z.of_nat 0) with 0 in E; simpl in Hu; rewrite Z.add_0_r in Hu.
  - left. exists d. split; [done|]. split; [lia|]. split; [lia|]. split; [done|].
    rewrite (protected_Done _ _ _ _ _ _ E). by rewrite set_badfault_undo.
  - pose proof (ubytes_length _ _ _ _ Hu) as Hd. rewrite <- Hd in Hu. right.
    rewrite (protected_Done _ _ _ _ _ _ E). rewrite set_badfault_undo by done.
    case_decide as D2; [right|left].
    + split; [|eexists; split; [done|apply inserts_outside; lia]].
      right. right. exists d. split; [done|]. split; [done|]. lia.
    + eexists d, _. split; [done|]. split; [lia|]. split; [lia|]. split; [done|]. split; [done|].
      apply inserts_outside. lia.
  - pose proof (ubytes_length _ _ _ _ Hu) as Hd. rewrite <- Hd in Hu, Hm. right. right.
    simpl in Hm. rewrite Z.add_0_r in Hm. split.
    + right. right. exists d. split; [done|]. split; [done|]. split; [lia|]. by right.
    + eexists. rewrite (protected_Fail _ _ _ _ _ _ E). rewrite set_badfault_undo by done.
      split; [done|]. apply inserts_outside. lia.
Qed.

(** C29: [copyin] and [copyout] move the block exactly when it is not empty, lies below
    the kernel and is mapped; otherwise they return [EFAULT], having written at
    most inside the destination block.  They never touch kernel memory through the
    user pointer, never panic, and clear the recovery pointer on every path. *)
Theorem user_copy_correct (k : list Z) (c : uctx) (p : Z) (pos : nat) (len : Z) :
  badfault c = false -> 0 <= p < 2 ^ 32 -> 0 <= len < 2 ^ 32 -> Z.of_nat pos + len <= Z.of_nat (length k) ->
  match uread c p len with
  | Some d =>
      copyin p (Z.of_nat pos) len (k, c) = Done tt (list_inserts pos d k, c) /\
      copyout (Z.of_nat pos) p len (k, c) =
        Done tt (k, set_umem (uwrite (umem c) p (take (Z.to_nat len) (drop pos k))) c)
  | None =>
      (exists k', copyin p (Z.of_nat pos) len (k, c) = Fail EFAULT (k', c) /\
         buf_outside pos (Z.to_nat len) k k') /\
      (exists m', copyout (Z.of_nat pos) p len (k, c) = Fail EFAULT (k, set_umem m' c) /\
         same_outside p (Z.to_nat len) (umem c) m')
  end.
Proof.
  intros Hb Hp Hl Hk. pose proof (copyin_spec k c p pos len Hb Hp Hl Hk) as Hi.
  pose proof (copyout_spec k c pos p len Hb Hp Hl Hk) as Ho. by destruct (uread c p len).
Qed.

(** ** uiomove *)

(** A uio the kernel can move data through. *)
Definition uio_ok (c : uctx) (u : uio) : Prop :=
  badfault c = false /\ 0 <= iov_len u < 2 ^ 32 /\ 0 <= uio_resid u <= iov_len u /\ 0 <= iov_base u /\
  match uio_segflg u with
  | UIO_SYSSPACE => uio_space u = 0 /\ iov_base u + iov_len u <= Z.of_nat (length (iov_kbuf u))
  | _ => uio_space u = curspace c /\ iov_base u < 2 ^ 32
  end.

(** The next [n] bytes of the data block, for a write. *)
Definition peek (c : uctx) (u : uio) (n : Z) : option (list Z) :=
  match uio_segflg u with
  | UIO_SYSSPACE => slice (iov_kbuf u) (iov_base u) n
  | _ => uread c (iov_base u) n
  end.

(** The data block with [d] stored at its start, for a read. *)
Definition poke (c : uctx) (u : uio) (d : list Z) : option (uctx * uio) :=
  match uio_segflg u with
  | UIO_SYSSPACE => kb ← splice (iov_kbuf u) (iov_base u) d; Some (c, set_kbuf kb u)
  | _ =>
      _ ← uread c (iov_base u) (Z.of_nat (length d));
      Some (set_umem (uwrite (umem c) (iov_base u) d) c, u)
  end.

Lemma slice_spec k (p n : nat) :
  (p + n <= length k)%nat -> slice k (Z.of_nat p) (Z.of_nat n) = Some (take n (drop p k)).
Proof. intros H. unfold slice. rewrite decide_True by lia. by rewrite !Nat2Z.id. Qed.

Lemma slice_length k p n d : slice k p n = Some d -> Z.of_nat (length d) = n /\ 0 <= p /\ p + n <= Z.of_nat (length k).
Proof.
  unfold slice. case_decide as D; [|done]. intros [= <-]. rewrite length_take, length_drop. lia.
Qed.

Lemma splice_spec k (p : nat) d :
  (p + length d <= length k)%nat -> splice k (Z.of_nat p) d = Some (list_inserts p d k).
Proof. intros H. unfold splice. rewrite decide_True by lia. by rewrite Nat2Z.id. Qed.

Lemma slice_all k n : n = Z.of_nat (length k) -> slice k 0 n = Some k.
Proof. intros ->. pose proof (slice_spec k 0 (length k)) as E. rewrite drop_0, take_ge in E by lia. apply E. lia. Qed.

Lemma splice_all k d : length d = length k -> splice k 0 d = Some d.
Proof. intros H. pose proof (splice_spec k 0 d) as E. rewrite inserts_all in E by done. apply E. lia. Qed.

(** One pass of the loop. *)
Lemma move_chunk_spec k c u (ptr n : nat) :
  uio_ok c u -> (0 < n)%nat -> Z.of_nat n <= iov_len u -> (ptr + n <= length k)%nat ->
  match rw u with
  | UIO_WRITE =>
      match peek c u (Z.of_nat n) with
      | Some d => move_chunk (Z.of_nat ptr) (Z.of_nat n) (k, (c, u)) = Done tt (list_inserts ptr d k, (c, u))
      | None => exists k', move_chunk (Z.of_nat ptr) (Z.of_nat n) (k, (c, u)) = Fail EFAULT (k', (c, u)) /\
                  buf_outside ptr n k k'
      end
  | UIO_READ =>
      match poke c u (take n (drop ptr k)) with
      | Some cu => move_chunk (Z.of_nat ptr) (Z.of_nat n) (k, (c, u)) = Done tt (k, cu)
      | None => exists m', move_chunk (Z.of_nat ptr) (Z.of_nat n) (k, (c, u)) = Fail EFAULT (k, (set_umem m' c, u)) /\
                  same_outside (iov_base u) n (umem c) m'
      end
  end.
Proof.
  intros (Hb & Hlen & Hres & Hbase & Hseg) Hn Hle Hk. unfold move_chunk, peek, poke. cbn [fst snd].
  assert (Hd : length (take n (drop ptr k)) = n) by (rewrite length_take, length_drop; lia).
  rewrite Hd. destruct (uio_segflg u) eqn:Es, (rw u) eqn:Er; simpl.
  all: try (pose proof (copyout_spec k c ptr (iov_base u) (Z.of_nat n) Hb) as Ho;
    specialize (Ho ltac:(lia) ltac:(lia) ltac:(lia)); rewrite Nat2Z.id in Ho;
    unfold zoom; simpl; destruct (uread c (iov_base u) (Z.of_nat n)); simpl;
    [by rewrite Ho | destruct Ho as (m' & -> & Ho); by exists m']).
  all: try (pose proof (copyin_spec k c (iov_base u) ptr (Z.of_nat n) Hb) as Ho;
    specialize (Ho ltac:(lia) ltac:(lia) ltac:(lia)); rewrite Nat2Z.id in Ho;
    unfold zoom; simpl; destruct (uread c (iov_base u) (Z.of_nat n)); simpl;
    [by rewrite Ho | destruct Ho as (k' & -> & Ho); by exists k']).
  - unfold memmove_read. rewrite slice_spec by done. destruct Hseg as [_ Hseg].
    replace (iov_base u) with (Z.of_nat (Z.to_nat (iov_base u))) by lia. by rewrite splice_spec by lia.
  - unfold memmove_write. destruct Hseg as [_ Hseg].
    destruct (slice (iov_kbuf u) (iov_base u) (Z.of_nat n)) as [d|] eqn:Esl.
    + apply slice_length in Esl as [Hl _]. by rewrite splice_spec by lia.
    + unfold slice in Esl. rewrite decide_True in Esl by lia. done.
Qed.

Lemma move_chunk_uio k c u p n a k' c' u' :
  move_chunk p n (k, (c, u)) = Done a (k', (c', u')) -> exists kb, u' = set_kbuf kb u.
Proof.
  assert (Hu : exists kb, u = set_kbuf kb u) by (exists (iov_kbuf u); by destruct u).
  unfold move_chunk. cbn [fst snd]. destruct (uio_segflg u), (rw u); unfold zoom; simpl.
  all: try (destruct (copyout _ _ _ _) as [? []| ? [] | | |]; naive_solver).
  all: try (destruct (copyin _ _ _ _) as [? []| ? [] | | |]; naive_solver).
  - destruct (slice _ _ _); [|done]. destruct (splice _ _ _); naive_solver.
  - destruct (slice _ _ _); [|done]. destruct (splice _ _ _); naive_solver.
Qed.

(** More is asked for than the data block has, and [uio_resid] is not its length. *)
Definition short_block (u : uio) (n : Z) : Prop := uio_resid u < iov_len u < n.
#[global] Instance short_block_dec u n : Decision (short_block u n).
Proof. unfold short_block. apply _. Defined.

(** The call makes one pass, of [m] bytes: all of [n], or all of the data block.  With [n] bytes to go and
    nothing left of the block a second pass panics, unless [uio_resid] came to 0. *)
Lemma uiomove_step k c u (ptr : nat) n (m : nat) :
  uio_ok c u -> 0 < n < 2 ^ 32 -> 0 < uio_resid u -> Z.of_nat m = Z.min n (iov_len u) ->
  uiomove (Z.of_nat ptr) n (k, (c, u)) =
  match move_chunk (Z.of_nat ptr) (Z.of_nat m) (k, (c, u)) with
  | Done _ (k', (c', u')) => if decide (short_block u n) then Panic else Done tt (k', (c', advance (Z.of_nat m) u'))
  | r => r
  end.
Proof.
  intros (Hb & Hlen & Hres & Hbase & Hseg) Hn Hr Hm. unfold uiomove. munfold. cbn [fst snd].
  assert (Hsp : (if decide (uio_segflg u = UIO_SYSSPACE) then bool_decide (uio_space u = 0)
                 else bool_decide (uio_space u = curspace c)) = true).
  { case_decide as D; [rewrite D in Hseg|destruct (uio_segflg u); try done]; apply bool_decide_eq_true_2; apply Hseg. }
  cbn [id snd fst]. rewrite Hsp. clear Hsp. destruct (Z.to_nat n) as [|f] eqn:Ef; [lia|].
  cbn [uiomove_loop]. munfold. cbn [id snd fst]. rewrite decide_True by lia.
  replace (if decide (iov_len u > n) then n else iov_len u) with (Z.of_nat m) by (case_decide; lia).
  rewrite decide_False by lia.
  destruct (move_chunk (Z.of_nat ptr) (Z.of_nat m) (k, (c, u))) as [a [k' [c' u']]| | | |] eqn:E; try done.
  apply move_chunk_uio in E as [kb ->]. cbn [fst snd]. rewrite (u32_small (n - _)) by lia. unfold short_block.
  destruct f as [|f]; cbn [uiomove_loop]; munfold; cbn [id snd fst advance set_kbuf uio_resid iov_len].
  { rewrite !decide_False by lia. done. }
  destruct (decide (uio_resid u < iov_len u < n)) as [D|D].
  - replace (Z.of_nat m) with (iov_len u) by lia. unfold u32. rewrite Z.sub_diag. rewrite decide_True by dlia.
    change (0 mod 2 ^ 32) with 0. rewrite (decide_False (P := 0 > _)) by lia. done.
  - rewrite decide_False; [done|]. intros [Hn' Hr']. destruct (decide (uio_resid u = iov_len u)) as [Ee|Ee]; [|lia].
    rewrite Ee, Hm, Z.min_r, Z.sub_diag in Hr' by lia. by unfold u32 in Hr'.
Qed.

Lemma uiomove_within k c u (ptr n : nat) :
  uio_ok c u -> (0 < n)%nat -> Z.of_nat n <= uio_resid u ->
  uiomove (Z.of_nat ptr) (Z.of_nat n) (k, (c, u)) =
  match move_chunk (Z.of_nat ptr) (Z.of_nat n) (k, (c, u)) with
  | Done _ (k', (c', u')) => Done tt (k', (c', advance (Z.of_nat n) u'))
  | r => r
  end.
Proof.
  intros Hu Hn Hr. pose proof Hu as (_ & Hlen & Hres & _). rewrite (uiomove_step k c u ptr (Z.of_nat n) n) by (done || lia).
  destruct (move_chunk _ _ _) as [? [? [? ?]]| | | |]; try done. by rewrite decide_False by (unfold short_block; lia).
Qed.

Lemma uiomove_none k c u ptr n :
  uio_ok c u -> n = 0 \/ uio_resid u = 0 -> uiomove ptr n (k, (c, u)) = Done tt (k, (c, u)).
Proof.
  intros (Hb & Hlen & Hres & Hbase & Hseg) Hn. unfold uiomove. munfold. cbn [id fst snd].
  assert (Hsp : (if decide (uio_segflg u = UIO_SYSSPACE) then bool_decide (uio_space u = 0)
                 else bool_decide (uio_space u = curspace c)) = true).
  { case_decide as D; [rewrite D in Hseg|destruct (uio_segflg u); try done]; apply bool_decide_eq_true_2; apply Hseg. }
  rewrite Hsp. clear Hsp. destruct (Z.to_nat n); cbn [uiomove_loop]; munfold; cbn [id snd fst];
    by rewrite decide_False by lia.
Qed.


(** ** Transfers in several pieces *)

Lemma advance_resid n u : 0 <= n <= uio_resid u -> uio_resid u < 2 ^ 32 -> uio_resid (advance n u) = uio_resid u - n.
Proof. intros. simpl. apply u32_small. lia. Qed.

Lemma advance_len n u : 0 <= n <= iov_len u -> iov_len u < 2 ^ 32 -> iov_len (advance n u) = iov_len u - n.
Proof. intros. simpl. apply u32_small. lia. Qed.

Lemma advance_offset n u :
  - 2 ^ 31 <= uio_offset u + n < 2 ^ 31 -> uio_offset (advance n u) = uio_offset u + n.
Proof. intros. simpl. by apply s32_small. Qed.

(** The block stays usable; in user memory, when its first [n] bytes were. *)
Lemma advance_ok c u n :
  uio_ok c u -> 0 <= n <= uio_resid u -> (uio_segflg u <> UIO_SYSSPACE -> iov_base u + n < 2 ^ 32) ->
  uio_ok c (advance n u).
Proof.
  intros (Hb & Hlen & Hres & Hbase & Hseg) Hn Hu. unfold uio_ok. cbn [uio_segflg advance iov_base iov_kbuf uio_space].
  rewrite advance_resid, advance_len by lia. split; [done|]. split; [lia|]. split; [lia|]. split; [lia|].
  revert Hseg Hu. destruct (uio_segflg u); intros [Hs1 Hs2] Hu; (split; [done|]); try by apply Hu. lia.
Qed.

Lemma uread_bounds c p n d : uread c p n = Some d -> 0 < n /\ p + n <= USERTOP /\ Z.of_nat (length d) = n.
Proof.
  unfold uread. case_decide as D; [|done]. intros E. apply ubytes_length in E. lia.
Qed.

Lemma peek_length c u n d : peek c u n = Some d -> Z.of_nat (length d) = n.
Proof.
  unfold peek. destruct (uio_segflg u); intros E;
    first [apply uread_bounds in E | apply slice_length in E]; tauto.
Qed.

Lemma peek_advance_ok c u n d :
  uio_ok c u -> 0 <= n <= uio_resid u -> peek c u n = Some d -> uio_ok c (advance n u).
Proof.
  intros Hu Hn E. apply advance_ok; [done|done|]. revert E. unfold peek.
  destruct (uio_segflg u); intros E Hs; try done; apply uread_bounds in E as (_ & E & _); unfold USERTOP in E; lia.
Qed.

Lemma poke_uio c u d c' u' :
  poke c u d = Some (c', u') ->
  badfault c' = badfault c /\ curspace c' = curspace c /\
  exists kb, u' = set_kbuf kb u /\ length kb = length (iov_kbuf u) /\
  (uio_segflg u <> UIO_SYSSPACE -> iov_base u + Z.of_nat (length d) <= USERTOP).
Proof.
  unfold poke. destruct (uio_segflg u).
  2:{ unfold splice. case_decide; simpl; [|done]. intros [= <- <-]. split; [done|]. split; [done|].
      eexists. split; [done|]. split; [apply length_inserts|done]. }
  all: destruct (uread _ _ _) eqn:E; simpl; [|done]; intros [= <- <-]; apply uread_bounds in E;
    (split; [done|]); (split; [done|]); exists (iov_kbuf u); (split; [by destruct u|]); split; [done|lia].
Qed.

Lemma poke_ok c u d c' u' : uio_ok c u -> poke c u d = Some (c', u') -> uio_ok c' u'.
Proof.
  intros (Hb & Hlen & Hres & Hbase & Hseg) E. apply poke_uio in E as (Eb & Ec & kb & -> & Hl & _).
  unfold uio_ok. simpl. rewrite Eb, Ec, Hl. done.
Qed.

Lemma poke_advance_ok c u d c' u' :
  uio_ok c u -> Z.of_nat (length d) <= uio_resid u -> poke c u d = Some (c', u') ->
  uio_ok c' (advance (Z.of_nat (length d)) u').
Proof.
  intros Hu Hn E. pose proof (poke_ok _ _ _ _ _ Hu E) as Hu'. apply poke_uio in E as (_ & _ & kb & -> & _ & Ht).
  apply advance_ok; [done|simpl; lia|]. simpl. intros Hs. specialize (Ht Hs). unfold USERTOP in Ht. lia.
Qed.

Lemma set_umem_ok m c u : uio_ok c u -> uio_ok (set_umem m c) u.
Proof. done. Qed.

(** The two directions of [uiomove] for a piece that is known to remain. *)
Lemma uiomove_write k c u (n : nat) (ptr : nat) :
  uio_ok c u -> rw u = UIO_WRITE -> (0 < n)%nat -> Z.of_nat n <= uio_resid u -> (ptr + n <= length k)%nat ->
  match peek c u (Z.of_nat n) with
  | Some d => uiomove (Z.of_nat ptr) (Z.of_nat n) (k, (c, u)) =
                Done tt (list_inserts ptr d k, (c, advance (Z.of_nat n) u))
  | None => exists k', uiomove (Z.of_nat ptr) (Z.of_nat n) (k, (c, u)) = Fail EFAULT (k', (c, u)) /\
                length k' = length k
  end.
Proof.
  intros Hu Hrw Hn Hr Hk. pose proof Hu as (_ & Hlen & Hres & _).
  rewrite (uiomove_within k c u ptr n) by (try done; lia).
  pose proof (move_chunk_spec k c u ptr n Hu Hn ltac:(lia) Hk) as Hc. rewrite Hrw in Hc.
  destruct (peek c u (Z.of_nat n)) as [d|]; [by rewrite Hc|].
  destruct Hc as (k' & -> & Ho & _). by exists k'.
Qed.

Lemma uiomove_read k c u (n : nat) (ptr : nat) :
  uio_ok c u -> rw u = UIO_READ -> (0 < n)%nat -> Z.of_nat n <= uio_resid u -> (ptr + n <= length k)%nat ->
  match poke c u (take n (drop ptr k)) with
  | Some (c', u') => uiomove (Z.of_nat ptr) (Z.of_nat n) (k, (c, u)) = Done tt (k, (c', advance (Z.of_nat n) u'))
  | None => exists m', uiomove (Z.of_nat ptr) (Z.of_nat n) (k, (c, u)) = Fail EFAULT (k, (set_umem m' c, u))
  end.
Proof.
  intros Hu Hrw Hn Hr Hk. pose proof Hu as (_ & Hlen & Hres & _).
  rewrite (uiomove_within k c u ptr n) by (try done; lia).
  pose proof (move_chunk_spec k c u ptr n Hu Hn ltac:(lia) Hk) as Hc. rewrite Hrw in Hc.
  destruct (poke c u (take n (drop ptr k))) as [[c' u']|]; [by rewrite Hc|].
  destruct Hc as (m' & -> & _). by exists m'.
Qed.

Lemma u32_sub_sub a b c : u32 (u32 (a - b) - c) = u32 (a - (b + c)).
Proof. unfold u32. rewrite Zminus_mod_idemp_l. f_equal. lia. Qed.

Lemma s32_add_add a b c : s32 (s32 (a + b) + c) = s32 (a + (b + c)).
Proof.
  unfold s32. f_equal. replace ((a + b + 2 ^ 31) mod 2 ^ 32 - 2 ^ 31 + c + 2 ^ 31) with ((a + b + 2 ^ 31) mod 2 ^ 32 + c) by lia.
  rewrite Zplus_mod_idemp_l. f_equal. lia.
Qed.

Lemma advance_advance n m u : advance m (advance n u) = advance (n + m) u.
Proof. unfold advance. simpl. by rewrite Z.add_assoc, !u32_sub_sub, s32_add_add. Qed.

Lemma advance_kbuf n kb u : advance n (set_kbuf kb u) = set_kbuf kb (advance n u).
Proof. done. Qed.

Lemma uread_app c p n1 n2 :
  0 < n1 -> 0 < n2 ->
  uread c p (n1 + n2) = d1 ← uread c p n1; d2 ← uread c (p + n1) n2; Some (d1 ++ d2).
Proof.
  intros H1 H2. unfold uread. destruct (decide (p + (n1 + n2) <= USERTOP)) as [D|D].
  - rewrite !decide_True by lia. rewrite Z2Nat.inj_add by lia. rewrite ubytes_app. by rewrite Z2Nat.id by lia.
  - rewrite decide_False by lia. destruct (decide (0 < n1 ∧ p + n1 ≤ USERTOP)); simpl; [|done].
    destruct (ubytes (umem c) p (Z.to_nat n1)); simpl; [|done]. by rewrite decide_False by lia.
Qed.

Lemma slice_app k p n1 n2 :
  0 <= n1 -> 0 <= n2 -> slice k p (n1 + n2) = d1 ← slice k p n1; d2 ← slice k (p + n1) n2; Some (d1 ++ d2).
Proof.
  intros H1 H2. unfold slice.
  destruct (decide (0 <= p /\ 0 <= n1 + n2 /\ p + (n1 + n2) <= Z.of_nat (length k))) as [D|D].
  - rewrite !decide_True by lia. simpl. rewrite !Z2Nat.inj_add by lia. rewrite <- drop_drop. by rewrite take_take_drop.
  - destruct (decide (0 <= p /\ 0 <= n1 /\ p + n1 <= Z.of_nat (length k))); simpl; [|done].
    by rewrite decide_False by lia.
Qed.

(** A write in two pieces. *)
Lemma peek_app c u n1 n2 :
  0 < n1 -> 0 < n2 ->
  peek c u (n1 + n2) = d1 ← peek c u n1; d2 ← peek c (advance n1 u) n2; Some (d1 ++ d2).
Proof.
  intros H1 H2. unfold peek. simpl. destruct (uio_segflg u); [by apply uread_app|apply slice_app; lia|by apply uread_app].
Qed.

Lemma uwrite_app m a d1 d2 : uwrite m a (d1 ++ d2) = uwrite (uwrite m a d1) (a + Z.of_nat (length d1)) d2.
Proof.
  revert m a. induction d1 as [|b d1 IH]; intros m a; simpl; [by rewrite Z.add_0_r|].
  rewrite IH. f_equal. lia.
Qed.

(** Which addresses are mapped does not change. *)
Lemma uread_after c p n q d :
  p + Z.of_nat (length d) <= q -> is_Some (uread (set_umem (uwrite (umem c) p d) c) q n) <-> is_Some (uread c q n).
Proof.
  intros Hq. unfold uread. simpl. case_decide; [|done].
  assert (E : ubytes (uwrite (umem c) p d) q (Z.to_nat n) = ubytes (umem c) q (Z.to_nat n)); [|by rewrite E].
  apply option_eq. intros l. rewrite !ubytes_lookup. split; intros [Hl Hi]; (split; [done|]); intros i Hin;
    rewrite <- Hi by done; rewrite uwrite_lookup; by rewrite decide_False by lia.
Qed.

Lemma splice_app k p d1 d2 :
  splice k p (d1 ++ d2) = k1 ← splice k p d1; splice k1 (p + Z.of_nat (length d1)) d2.
Proof.
  unfold splice. rewrite length_app.
  destruct (decide (0 <= p /\ p + Z.of_nat (length d1 + length d2) <= Z.of_nat (length k))) as [D|D].
  - rewrite (decide_True (P := 0 <= p /\ p + Z.of_nat (length d1) <= Z.of_nat (length k))) by lia. simpl.
    rewrite length_inserts, decide_True by lia. rewrite list_inserts_app_l. do 2 f_equal. lia.
  - destruct (decide (0 <= p /\ p + Z.of_nat (length d1) <= Z.of_nat (length k))); simpl; [|done].
    rewrite length_inserts. by rewrite decide_False by lia.
Qed.

(** A read in two pieces. *)
Lemma poke_app c u d1 d2 :
  d1 <> [] -> d2 <> [] ->
  match poke c u d1 with
  | None => poke c u (d1 ++ d2) = None
  | Some (c1, u1) =>
      match poke c1 (advance (Z.of_nat (length d1)) u1) d2 with
      | None => poke c u (d1 ++ d2) = None
      | Some (c2, u2) => exists u', poke c u (d1 ++ d2) = Some (c2, u') /\
          advance (Z.of_nat (length (d1 ++ d2))) u' = advance (Z.of_nat (length d2)) u2
      end
  end.
Proof.
  intros H1 H2. assert (Hl1 : 0 < Z.of_nat (length d1)) by (destruct d1; [done|simpl; lia]).
  assert (Hl2 : 0 < Z.of_nat (length d2)) by (destruct d2; [done|simpl; lia]).
  unfold poke. destruct (uio_segflg u) eqn:Es.
  2:{ rewrite splice_app. destruct (splice (iov_kbuf u) (iov_base u) d1) as [k1|]; simpl; [|done]. rewrite Es.
      simpl. destruct (splice k1 _ d2) as [k2|]; simpl; [|done]. eexists. split; [done|].
      rewrite length_app, Nat2Z.inj_add. rewrite !advance_kbuf. unfold set_kbuf, advance. simpl.
      by rewrite Z.add_assoc, !u32_sub_sub, s32_add_add. }
  all: rewrite length_app, Nat2Z.inj_add, uread_app by done;
    destruct (uread c (iov_base u) (Z.of_nat (length d1))) eqn:E1; simpl; [|done]; rewrite Es; simpl;
    pose proof (uread_after c (iov_base u) (Z.of_nat (length d2)) (iov_base u + Z.of_nat (length d1)) d1 ltac:(lia)) as Ha;
    destruct (uread (set_umem (uwrite (umem c) (iov_base u) d1) c) _ _) eqn:E2;
    [destruct (proj1 Ha) as [y ->]; [by eexists|]; simpl; eexists; split; [by rewrite uwrite_app|by rewrite advance_advance]|
     destruct (uread c (iov_base u + Z.of_nat (length d1)) (Z.of_nat (length d2))); [|done];
     destruct (proj2 Ha) as [y Hy]; [by eexists|done]].
Qed.

Lemma uiomovezeros_loop_spec fuel c u (n : nat) :
  uio_ok c u -> rw u = UIO_READ -> Z.of_nat n <= uio_resid u -> (0 < n <= fuel)%nat ->
  let r := uiomovezeros_loop fuel (Z.of_nat n) (zeros, (c, u)) in
  (exists c' u', r = Done tt (zeros, (c', advance (Z.of_nat n) u')) /\ poke c u (replicate n 0) = Some (c', u')) \/
  (exists m u', r = Fail EFAULT (zeros, (set_umem m c, u')) /\ rw u' = UIO_READ /\ poke c u (replicate n 0) = None).
Proof.
  revert c u n. induction fuel as [|fuel IH]; intros c u n Hu Hrw Hr Hn; [lia|]. cbv zeta.
  cbn [uiomovezeros_loop]. rewrite decide_True by lia. set (amt := Nat.min 16 n).
  replace (if decide (16 > Z.of_nat n) then Z.of_nat n else 16) with (Z.of_nat amt) by (case_decide; lia).
  pose proof Hu as (_ & Hlen & Hres & _).
  pose proof (uiomove_read zeros c u amt 0 Hu Hrw ltac:(lia) ltac:(lia) ltac:(simpl; lia)) as Hm.
  change (Z.of_nat 0) with 0 in Hm. rewrite drop_0 in Hm.
  replace (take amt zeros) with (replicate amt 0) in Hm by (unfold zeros; rewrite take_replicate; f_equal; lia).
  assert (Hrep : forall k, length (replicate k 0) = k) by (intros; apply length_replicate).
  destruct (poke c u (replicate amt 0)) as [[c1 u1]|] eqn:E1.
  - rewrite (bind_Done _ _ _ _ _ Hm). rewrite u32_small by lia.
    replace (Z.of_nat n - Z.of_nat amt) with (Z.of_nat (n - amt)) by lia.
    destruct (decide (n = amt)) as [En|En].
    + left. exists c1, u1. rewrite <- En in *. rewrite Nat.sub_diag. split; [|done]. by destruct fuel.
    + pose proof (poke_uio _ _ _ _ _ E1) as (Eb & Ec & kb & -> & _).
      assert (Hu1 : uio_ok c1 (advance (Z.of_nat amt) (set_kbuf kb u))).
      { pose proof (poke_advance_ok c u (replicate amt 0) c1 (set_kbuf kb u) Hu) as Hok. rewrite Hrep in Hok.
        apply Hok; [lia|done]. }
      pose proof (poke_app c u (replicate amt 0) (replicate (n - amt) 0)) as Ha.
      rewrite E1, Hrep in Ha. rewrite <- replicate_add in Ha. replace (amt + (n - amt))%nat with n in Ha by lia.
      destruct (IH c1 (advance (Z.of_nat amt) (set_kbuf kb u)) (n - amt)%nat Hu1 Hrw) as
        [(c2 & u2 & E2 & E3)|(m & u2 & E2 & Hrw2 & E3)].
      { rewrite advance_resid by (simpl; lia). simpl. lia. }
      { lia. }
      * rewrite E3 in Ha. destruct Ha as (u' & Ep & Ea); [by destruct amt eqn:?; [lia|]|by destruct (n - amt)%nat eqn:?; [lia|]|].
        left. exists c2, u'. split; [|done]. rewrite !Hrep in Ea. rewrite Ea. exact E2.
      * rewrite E3 in Ha. right. exists m, u2.
        specialize (Ha ltac:(by destruct amt eqn:?; [lia|]) ltac:(by destruct (n - amt)%nat eqn:?; [lia|])).
        split; [|done]. assert (Hc : set_umem m c1 = set_umem m c) by (unfold set_umem; congruence). by rewrite <- Hc.
  - right. destruct Hm as [m Hm]. exists m, u. split; [by apply bind_Fail|]. split; [done|].
    destruct (decide (n = amt)) as [En|En]; [by rewrite En|].
    pose proof (poke_app c u (replicate amt 0) (replicate (n - amt) 0)) as Ha. rewrite E1, <- replicate_add in Ha.
    replace (amt + (n - amt))%nat with n in Ha by lia.
    apply Ha; [by destruct amt eqn:?; [lia|]|by destruct (n - amt)%nat eqn:?; [lia|]].
Qed.

Lemma uiomovezeros_spec c u (n : nat) :
  uio_ok c u -> rw u = UIO_READ -> Z.of_nat n <= uio_resid u -> (0 < n)%nat ->
  (exists c' u', uiomovezeros (Z.of_nat n) (c, u) = Done tt (c', advance (Z.of_nat n) u') /\
     poke c u (replicate n 0) = Some (c', u')) \/
  (exists m u', uiomovezeros (Z.of_nat n) (c, u) = Fail EFAULT (set_umem m c, u') /\ rw u' = UIO_READ /\
     poke c u (replicate n 0) = None).
Proof.
  intros Hu Hrw Hr Hn. unfold uiomovezeros. simpl. rewrite decide_True by done. rewrite Nat2Z.id.
  destruct (uiomovezeros_loop_spec n c u n Hu Hrw Hr ltac:(lia)) as [(c' & u' & -> & Ep)|(m & u' & -> & Hrw' & Ep)];
    [left; by exists c', u'|right; by exists m, u'].
Qed.

End Uio.
