(* ===== verification/Blockdev.v ===== *)
(** * Block devices as file systems see them: kern/include/dev.h

    The interface of [struct device] for a disk: the operation [d_io], and what it
    promises for the transfer of one sector.  The file system is proved against this
    interface; Lhd.v discharges it for the disk driver. *)

From S2P Require Import Prelude Uio.
Import Uio.

Definition SECTSIZE : Z := 512.

Class Device (D : Type) := {
  d_open : Z -> M D unit;
  d_close : M D unit;
  d_io : M (D * (uctx * uio)) unit;
  d_ioctl : Z -> Z -> M D unit;
  d_blocks : D -> Z;
  d_blocksize : D -> Z;
}.

(** A uio for sector [b]: one whole sector, at its place on the disk. *)
Definition sector_uio (c : uctx) (u : uio) (b : Z) : Prop :=
  uio_ok c u /\ uio_resid u = SECTSIZE /\ uio_offset u = b * SECTSIZE.

(** How far a disk can be relied on.  A [Worn] disk keeps what is stored on it, but a
    write may fail and leave anything in its sector; on a [Sound] disk the writes that
    follow complete. *)
Inductive wear := Sound | Worn.

Class Writes (w : wear) : Prop := writes_sound : w = Sound.

#[export] Instance sound_writes : Writes Sound := eq_refl.

(** What a disk promises: a read returns what is stored, or reports an error and leaves
    the uio as it was; a write to a sound disk stores the data, and the disk is sound
    after it.  Nothing is promised about writes to a worn disk. *)
Class DeviceSpec (D : Type) `{!Device D} := {
  dev_ok : wear -> D -> Prop;
  sectors : D -> list (list Z);
  dev_sectors : forall w d b x, dev_ok w d -> sectors d !! b = Some x -> length x = Z.to_nat SECTSIZE;
  dev_blocks : forall w d, dev_ok w d -> d_blocks d = Z.of_nat (length (sectors d));
  dev_blocksize : forall w d, dev_ok w d -> d_blocksize d = SECTSIZE;
  dev_read : forall w d c u b x, dev_ok w d -> sector_uio c u (Z.of_nat b) -> Z.of_nat b < 2 ^ 22 ->
    rw u = UIO_READ -> sectors d !! b = Some x ->
    (exists d' c' u', d_io (d, (c, u)) = Done tt (d', (c', advance SECTSIZE u')) /\
       poke c u x = Some (c', u') /\ dev_ok w d' /\ sectors d' = sectors d) \/
    (exists d', d_io (d, (c, u)) = Fail EIO (d', (c, u)) /\ dev_ok w d' /\ sectors d' = sectors d) \/
    (exists d' m', d_io (d, (c, u)) = Fail EFAULT (d', (set_umem m' c, u)) /\ poke c u x = None /\
       dev_ok w d' /\ sectors d' = sectors d);
  dev_write : forall d c u b x, dev_ok Sound d -> sector_uio c u (Z.of_nat b) -> Z.of_nat b < 2 ^ 22 ->
    rw u = UIO_WRITE -> sectors d !! b = Some x ->
    match peek c u SECTSIZE with
    | Some data => exists d', d_io (d, (c, u)) = Done tt (d', (c, advance SECTSIZE u)) /\
        dev_ok Sound d' /\ sectors d' = <[b := data]> (sectors d)
    | None => exists d', d_io (d, (c, u)) = Fail EFAULT (d', (c, u)) /\ dev_ok Sound d' /\ sectors d' = sectors d
    end;
}.
