(* ===== verification/Lhd.v ===== *)
(** * The disk driver: kern/dev/lamebus/lhd.c

    [lhd_io] and the interrupt handler, over the registers and the transfer buffer
    of the card.  The card itself is a parameter: what it does when an operation is
    started.  One thread uses the driver: a [P] that would wait for another thread
    does not return, and [P(lh_done)] waits for the card, whose interrupt runs
    [lhd_irq]. *)

From S2P Require Import Prelude Uio Blockdev.
Import Uio.

Module Lhd.

Definition LHD_SECTSIZE : Z := 512.
Definition LHD_IDLE : Z := 0.
Definition LHD_WORKING : Z := 1.
Definition LHD_OK : Z := 4.
Definition LHD_INVSECT : Z := 12.
Definition LHD_MEDIA : Z := 20.
Definition LHD_ISWRITE : Z := 2.
Definition LHD_STATEMASK : Z := 29.

(** The card: carrying out an operation on a sector, with the transfer buffer,
    leaves a status, the buffer and the disk. *)
Class LhdCard (HW : Type) := {
  card_run : bool -> Z -> list Z -> HW -> Z * list Z * HW;
}.

Record lhd_softc (HW : Type) := mklhd {
  lh_card : HW;
  lh_buf : list Z;              (* the transfer buffer *)
  lh_stat : Z;                  (* register LHD_REG_STAT *)
  lh_sect : Z;                  (* register LHD_REG_SECT *)
  lh_result : option errno;     (* None for 0 *)
  lh_clear : Z;                 (* counts of the two semaphores *)
  lh_done : Z;
  lh_blocks : Z;                (* lh_dev.d_blocks *)
}.
Arguments mklhd {HW} _ _ _ _ _ _ _ _.
Arguments lh_card {HW} _.
Arguments lh_buf {HW} _.
Arguments lh_stat {HW} _.
Arguments lh_sect {HW} _.
Arguments lh_result {HW} _.
Arguments lh_clear {HW} _.
Arguments lh_done {HW} _.
Arguments lh_blocks {HW} _.

Section ops.
Context {HW : Type} `{!LhdCard HW}.
Abbreviation softc := (lhd_softc HW).

Definition set_buf x (l : softc) : softc :=
  mklhd (lh_card l) x (lh_stat l) (lh_sect l) (lh_result l) (lh_clear l) (lh_done l) (lh_blocks l).
Definition set_stat x (l : softc) : softc :=
  mklhd (lh_card l) (lh_buf l) x (lh_sect l) (lh_result l) (lh_clear l) (lh_done l) (lh_blocks l).
Definition set_sect x (l : softc) : softc :=
  mklhd (lh_card l) (lh_buf l) (lh_stat l) x (lh_result l) (lh_clear l) (lh_done l) (lh_blocks l).
Definition set_result x (l : softc) : softc :=
  mklhd (lh_card l) (lh_buf l) (lh_stat l) (lh_sect l) x (lh_clear l) (lh_done l) (lh_blocks l).
Definition set_clear x (l : softc) : softc :=
  mklhd (lh_card l) (lh_buf l) (lh_stat l) (lh_sect l) (lh_result l) x (lh_done l) (lh_blocks l).
Definition set_done x (l : softc) : softc :=
  mklhd (lh_card l) (lh_buf l) (lh_stat l) (lh_sect l) (lh_result l) (lh_clear l) x (lh_blocks l).

Definition lhd_code_to_errno (code : Z) : option errno :=
  let st := Z.land code LHD_STATEMASK in
  if decide (st = LHD_OK) then None
  else if decide (st = LHD_INVSECT) then Some EINVAL
  else if decide (st = LHD_MEDIA) then Some EIO
  else Some EAGAIN.

Definition lhd_iodone (err : option errno) : M softc unit :=
  modify (set_result err) ;;
  modify (fun l => set_done (lh_done l + 1) l).

Definition lhd_irq : M softc unit :=
  val ← gets lh_stat;
  let st := Z.land val LHD_STATEMASK in
  if decide (st = LHD_OK \/ st = LHD_INVSECT \/ st = LHD_MEDIA) then
    modify (set_stat 0) ;;
    lhd_iodone (lhd_code_to_errno val)
  else mret tt.

(** The operation the status register asks for. *)
Definition card_operates : M softc unit := fun l =>
  let write := bool_decide (Z.land (lh_stat l) LHD_ISWRITE <> 0) in
  let '(code, buf, card) := card_run write (lh_sect l) (lh_buf l) (lh_card l) in
  Done tt (mklhd card buf (if write then Z.lor code LHD_ISWRITE else code) (lh_sect l) (lh_result l)
             (lh_clear l) (lh_done l) (lh_blocks l)).

Definition P_clear : M softc unit :=
  n ← gets lh_clear;
  if decide (n = 0) then nofuel else modify (set_clear (n - 1)).

Definition V_clear : M softc unit := modify (fun l => set_clear (lh_clear l + 1) l).

Definition P_done : M softc unit :=
  n ← gets lh_done;
  (if decide (n = 0) then card_operates ;; lhd_irq else mret tt) ;;
  n ← gets lh_done;
  if decide (n = 0) then nofuel else modify (set_done (n - 1)).

Definition lhdL : lens (softc * (uctx * uio)) softc := Lens fst (fun l s => (l, s.2)).
Definition bufL : lens (softc * (uctx * uio)) (list Z * (uctx * uio)) :=
  Lens (fun s => (lh_buf s.1, s.2)) (fun t s => (set_buf t.1 s.1, t.2)).

Abbreviation LM := (M (softc * (uctx * uio))).

(** The body of the loop over the sectors. *)
Definition lhd_sector (sector statval : Z) : LM unit :=
  zoom lhdL P_clear ;;
  u ← gets (fun s => s.2.2);
  (if decide (rw u = UIO_WRITE) then
     r ← attempt (zoom bufL (uiomove 0 LHD_SECTSIZE));
     match r with
     | inl e => zoom lhdL V_clear ;; fail e
     | inr _ => mret tt
     end
   else mret tt) ;;
  zoom lhdL (modify (set_sect sector)) ;;
  zoom lhdL (modify (set_stat statval)) ;;
  zoom lhdL P_done ;;
  result ← zoom lhdL (gets lh_result);
  result ← (if decide (result = None /\ rw u = UIO_READ) then
              r ← attempt (zoom bufL (uiomove 0 LHD_SECTSIZE));
              match r with inl e => mret (Some e) | inr _ => mret None end
            else mret result);
  zoom lhdL V_clear ;;
  match result with Some e => fail e | None => mret tt end.

Definition lhd_io : LM unit :=
  s ← gets id;
  let u := s.2.2 in
  let sector := u32 (Z.quot (uio_offset u) LHD_SECTSIZE) in
  let sectoff := u32 (Z.rem (uio_offset u) LHD_SECTSIZE) in
  let len := uio_resid u / LHD_SECTSIZE in
  let lenoff := uio_resid u mod LHD_SECTSIZE in
  if decide (sectoff <> 0 \/ lenoff <> 0) then fail EINVAL
  else if decide (u32 (sector + len) > lh_blocks s.1) then fail EINVAL
  else
    let statval := if decide (rw u = UIO_WRITE) then Z.lor LHD_WORKING LHD_ISWRITE else LHD_WORKING in
    for_n (Z.to_nat len) 0 (fun i => lhd_sector (u32 (sector + i)) statval).

Definition lhd_open (openflags : Z) : M softc unit := mret tt.
Definition lhd_close : M softc unit := mret tt.
Definition lhd_ioctl (op data : Z) : M softc unit := fail EIOCTL.

(** What [config_lhd] puts in [lh_dev]. *)
#[export] Instance lhd_device : Device softc := {
  d_open := lhd_open;
  d_close := lhd_close;
  d_io := lhd_io;
  d_ioctl := lhd_ioctl;
  d_blocks := lh_blocks;
  d_blocksize := fun _ => LHD_SECTSIZE;
}.

End ops.

(** ** The card *)

(** What a card does that completes every operation: a read of a sector it has
    delivers it or reports a media error, a write stores the sector or reports a media
    error, in which case that sector may hold anything. *)
Class LhdCardSpec (HW : Type) `{!LhdCard HW} := {
  card_sectors : HW -> list (list Z);
  card_sector_length : forall hw b x, card_sectors hw !! b = Some x -> length x = Z.to_nat LHD_SECTSIZE;
  card_reads : forall hw b buf x, card_sectors hw !! b = Some x -> length buf = Z.to_nat LHD_SECTSIZE ->
    exists code buf' hw', card_run false (Z.of_nat b) buf hw = (code, buf', hw') /\
      card_sectors hw' = card_sectors hw /\
      (code = LHD_OK /\ buf' = x \/ code = LHD_MEDIA /\ length buf' = Z.to_nat LHD_SECTSIZE);
  card_writes : forall hw b buf x, card_sectors hw !! b = Some x -> length buf = Z.to_nat LHD_SECTSIZE ->
    exists code buf' hw' y, card_run true (Z.of_nat b) buf hw = (code, buf', hw') /\
      length buf' = Z.to_nat LHD_SECTSIZE /\ card_sectors hw' = <[b := y]> (card_sectors hw) /\
      (code = LHD_OK /\ y = buf \/ code = LHD_MEDIA);
}.

Section spec.
Context {HW : Type} `{!LhdCard HW, !LhdCardSpec HW}.
Abbreviation softc := (lhd_softc HW).

(** A sound card: whatever is read and written next, the writes complete.  [sound_for n]
    says so of the next [n] operations. *)
Fixpoint sound_for (n : nat) (hw : HW) : Prop :=
  match n with
  | O => True
  | S n => forall b buf x, card_sectors hw !! b = Some x -> length buf = Z.to_nat LHD_SECTSIZE ->
      (card_run true (Z.of_nat b) buf hw).1.1 = LHD_OK /\
      sound_for n (card_run true (Z.of_nat b) buf hw).2 /\ sound_for n (card_run false (Z.of_nat b) buf hw).2
  end.

Definition card_sound (hw : HW) : Prop := forall n, sound_for n hw.

Lemma card_sound_step hw b buf x :
  card_sound hw -> card_sectors hw !! b = Some x -> length buf = Z.to_nat LHD_SECTSIZE ->
  (card_run true (Z.of_nat b) buf hw).1.1 = LHD_OK /\
  card_sound (card_run true (Z.of_nat b) buf hw).2 /\ card_sound (card_run false (Z.of_nat b) buf hw).2.
Proof. intros H Hx Hb. split; [by apply (H 1%nat b buf x)|]. split; intros n; by apply (H (S n) b buf x). Qed.

(** The driver between two calls. *)
Definition lhd_ok (l : softc) : Prop :=
  lh_clear l = 1 /\ lh_done l = 0 /\ length (lh_buf l) = Z.to_nat LHD_SECTSIZE /\
  lh_blocks l = Z.of_nat (length (card_sectors (lh_card l))) /\ lh_blocks l < 2 ^ 32.

(** An operation on a sector of the card, from the registers to the result. *)
Definition operate (b statval : Z) : M softc (option errno) :=
  modify (set_sect b) ;; modify (set_stat statval) ;; P_done ;; gets lh_result.

Definition idle (l : softc) : Prop :=
  lh_clear l = 0 /\ lh_done l = 0 /\ length (lh_buf l) = Z.to_nat LHD_SECTSIZE /\
  lh_blocks l = Z.of_nat (length (card_sectors (lh_card l))) /\ lh_blocks l < 2 ^ 32.

Lemma operate_read l (b : nat) x :
  idle l -> card_sectors (lh_card l) !! b = Some x ->
  exists r l', operate (Z.of_nat b) LHD_WORKING l = Done r l' /\ idle l' /\
    card_sectors (lh_card l') = card_sectors (lh_card l) /\
    lh_card l' = (card_run false (Z.of_nat b) (lh_buf l) (lh_card l)).2 /\
    (r = None /\ lh_buf l' = x \/ r = Some EIO).
Proof.
  intros (Hc & Hd & Hb & Hn & Hn2) Hx.
  destruct (card_reads (lh_card l) b (lh_buf l) x Hx Hb) as (code & buf' & hw' & E & Hs & Hr).
  assert (Hbuf : length buf' = Z.to_nat LHD_SECTSIZE).
  { destruct Hr as [[_ ->]|[_ Hr]]; [by eapply card_sector_length|done]. }
  unfold operate, P_done, card_operates, lhd_irq, lhd_iodone. munfold. simpl. rewrite Hd. simpl. rewrite E. simpl.
  destruct Hr as [[-> ->]|[-> _]]; simpl; rewrite Hd; simpl; (eexists _, _; split; [done|]);
    (split; [by unfold idle; simpl; rewrite Hs|]); (split; [done|]); (split; [done|]); auto.
Qed.

Lemma operate_write l (b : nat) x :
  idle l -> card_sectors (lh_card l) !! b = Some x ->
  exists r l' y, operate (Z.of_nat b) (Z.lor LHD_WORKING LHD_ISWRITE) l = Done r l' /\ idle l' /\
    card_sectors (lh_card l') = <[b := y]> (card_sectors (lh_card l)) /\
    lh_card l' = (card_run true (Z.of_nat b) (lh_buf l) (lh_card l)).2 /\
    (r = None /\ y = lh_buf l /\ (card_run true (Z.of_nat b) (lh_buf l) (lh_card l)).1.1 = LHD_OK \/
     r = Some EIO /\ (card_run true (Z.of_nat b) (lh_buf l) (lh_card l)).1.1 <> LHD_OK).
Proof.
  intros (Hc & Hd & Hb & Hn & Hn2) Hx.
  destruct (card_writes (lh_card l) b (lh_buf l) x Hx Hb) as (code & buf' & hw' & y & E & Hbuf & Hs & Hr).
  unfold operate, P_done, card_operates, lhd_irq, lhd_iodone. munfold. simpl. rewrite Hd. simpl. rewrite E. simpl.
  destruct Hr as [[-> ->]| ->]; simpl; rewrite Hd; simpl; (eexists _, _, _; split; [done|]);
    (split; [by unfold idle; simpl; rewrite Hs, length_insert|]); (split; [done|]); (split; [done|]); auto.
Qed.

Lemma lhd_sector_operate b statval l c u :
  lh_clear l = 1 ->
  lhd_sector b statval (l, (c, u)) =
  let l1 := set_clear 0 l in
  match (if decide (rw u = UIO_WRITE) then uiomove 0 LHD_SECTSIZE (lh_buf l, (c, u)) else Done tt (lh_buf l, (c, u))) with
  | Done _ (k, cu) =>
      match operate b statval (set_buf k l1) with
      | Done r l2 =>
          if decide (r = None /\ rw u = UIO_READ) then
            match uiomove 0 LHD_SECTSIZE (lh_buf l2, cu) with
            | Done _ (k', cu') => Done tt (set_clear (lh_clear l2 + 1) (set_buf k' l2), cu')
            | Fail e (k', cu') => Fail e (set_clear (lh_clear l2 + 1) (set_buf k' l2), cu')
            | Panic => Panic
            | Undef => Undef
            | NoFuel => NoFuel
            end
          else
            match r with
            | None => Done tt (set_clear (lh_clear l2 + 1) l2, cu)
            | Some e => Fail e (set_clear (lh_clear l2 + 1) l2, cu)
            end
      | Fail e l2 => Fail e (l2, cu)
      | Panic => Panic
      | Undef => Undef
      | NoFuel => NoFuel
      end
  | Fail e (k, cu) => Fail e (set_clear 1 (set_buf k l1), cu)
  | Panic => Panic
  | Undef => Undef
  | NoFuel => NoFuel
  end.
Proof.
  intros Hc. unfold lhd_sector, P_clear, V_clear, zoom, operate. munfold. simpl. rewrite Hc. simpl.
  case_decide as D; simpl.
  - destruct (uiomove 0 LHD_SECTSIZE (lh_buf l, (c, u))) as [[] [k cu]|e [k cu]| | |]; simpl; try done.
    destruct (P_done _) as [[] l2| | | |]; simpl; try done.
    rewrite !(decide_False (P := lh_result l2 = None /\ rw u = UIO_READ)) by (intros [_ ?]; congruence).
    by destruct (lh_result l2).
  - replace (set_buf (lh_buf l) (set_clear 0 l)) with (set_clear 0 l) by done.
    destruct (P_done _) as [[] l2| | | |]; simpl; try done. case_decide as D2; simpl.
    + destruct (uiomove 0 LHD_SECTSIZE (lh_buf l2, (c, u))) as [[] [k cu]|e [k cu]| | |]; done.
    + by destruct (lh_result l2).
Qed.

Lemma set_clear_ok (l : softc) k : idle l -> length k = Z.to_nat LHD_SECTSIZE -> lhd_ok (set_clear (lh_clear l + 1) (set_buf k l)).
Proof. intros (Hc & Hd & Hb & Hn) Hk. unfold lhd_ok. simpl. by rewrite Hc. Qed.

Lemma set_clear_ok' (l : softc) : idle l -> lhd_ok (set_clear (lh_clear l + 1) l).
Proof. intros Hl. destruct l. apply (set_clear_ok _ _ Hl). apply Hl. Qed.

Lemma lhd_idle (l : softc) k : lhd_ok l -> length k = Z.to_nat LHD_SECTSIZE -> idle (set_buf k (set_clear 0 l)).
Proof. intros (Hc & Hd & Hb & Hn) Hk. done. Qed.

Lemma lhd_sector_read l c u (b : nat) x :
  lhd_ok l -> uio_ok c u -> rw u = UIO_READ -> LHD_SECTSIZE <= uio_resid u -> card_sectors (lh_card l) !! b = Some x ->
  let same l' := lhd_ok l' /\ card_sectors (lh_card l') = card_sectors (lh_card l) /\
    lh_card l' = (card_run false (Z.of_nat b) (lh_buf l) (lh_card l)).2 in
  let r := lhd_sector (Z.of_nat b) LHD_WORKING (l, (c, u)) in
  (exists l' c' u', r = Done tt (l', (c', advance LHD_SECTSIZE u')) /\ poke c u x = Some (c', u') /\ same l') \/
  (exists l', r = Fail EIO (l', (c, u)) /\ same l') \/
  (exists l' m', r = Fail EFAULT (l', (set_umem m' c, u)) /\ poke c u x = None /\ same l').
Proof.
  intros Hl Hu Hrw Hr Hx same r. subst r. rewrite lhd_sector_operate by apply Hl.
  rewrite decide_False by (by rewrite Hrw). cbv zeta.
  pose proof (lhd_idle l (lh_buf l) Hl ltac:(apply Hl)) as Hi.
  destruct (operate_read _ b x Hi Hx) as (res & l2 & -> & Hi2 & Hs & Hcd & [[-> Hb]| ->]).
  - rewrite decide_True by done. rewrite Hb. pose proof (card_sector_length _ _ _ Hx) as Hlen.
    pose proof (uiomove_read x c u (Z.to_nat LHD_SECTSIZE) 0 Hu Hrw) as Hm.
    specialize (Hm ltac:(unfold LHD_SECTSIZE; lia) Hr ltac:(by rewrite Hlen)). change (Z.of_nat (Z.to_nat LHD_SECTSIZE)) with LHD_SECTSIZE in Hm.
    change (Z.of_nat 0) with 0 in Hm. rewrite drop_0, take_ge in Hm by (by rewrite Hlen).
    destruct (poke c u x) as [[c' u']|] eqn:Ep.
    + left. rewrite Hm. eexists _, c', u'. split; [done|]. split; [done|]. split; [by apply set_clear_ok|done].
    + right. right. destruct Hm as (m' & ->). eexists _, m'. split; [done|]. split; [done|].
      split; [by apply set_clear_ok|done].
  - right. left. rewrite decide_False by (intros [? _]; done). eexists. split; [done|].
    split; [by apply set_clear_ok'|done].
Qed.

Lemma lhd_sector_write l c u (b : nat) x :
  lhd_ok l -> uio_ok c u -> rw u = UIO_WRITE -> LHD_SECTSIZE <= uio_resid u -> card_sectors (lh_card l) !! b = Some x ->
  let r := lhd_sector (Z.of_nat b) (Z.lor LHD_WORKING LHD_ISWRITE) (l, (c, u)) in
  match peek c u LHD_SECTSIZE with
  | Some d => exists l' y, lhd_ok l' /\ card_sectors (lh_card l') = <[b := y]> (card_sectors (lh_card l)) /\
      lh_card l' = (card_run true (Z.of_nat b) d (lh_card l)).2 /\
      (r = Done tt (l', (c, advance LHD_SECTSIZE u)) /\ y = d /\ (card_run true (Z.of_nat b) d (lh_card l)).1.1 = LHD_OK \/
       r = Fail EIO (l', (c, advance LHD_SECTSIZE u)) /\
         (card_run true (Z.of_nat b) d (lh_card l)).1.1 <> LHD_OK)
  | None => exists l', r = Fail EFAULT (l', (c, u)) /\ lhd_ok l' /\ lh_card l' = lh_card l
  end.
Proof.
  intros Hl Hu Hrw Hr Hx r. subst r. rewrite lhd_sector_operate by apply Hl. rewrite decide_True by done. cbv zeta.
  assert (Hb : length (lh_buf l) = Z.to_nat LHD_SECTSIZE) by apply Hl.
  pose proof (uiomove_write (lh_buf l) c u (Z.to_nat LHD_SECTSIZE) 0 Hu Hrw) as Hm.
  specialize (Hm ltac:(unfold LHD_SECTSIZE; lia) Hr ltac:(by rewrite Hb)). change (Z.of_nat (Z.to_nat LHD_SECTSIZE)) with LHD_SECTSIZE in Hm.
  change (Z.of_nat 0) with 0 in Hm. destruct (peek c u LHD_SECTSIZE) as [d|] eqn:Ep.
  - assert (Hd : length d = Z.to_nat LHD_SECTSIZE) by (apply peek_length in Ep; lia).
    assert (Hins : list_inserts 0 d (lh_buf l) = d).
    { apply inserts_all. lia. }
    rewrite Hm, Hins. pose proof (lhd_idle l d Hl Hd) as Hi.
    destruct (operate_write _ b x Hi Hx) as (res & l2 & y & -> & Hi2 & Hs & Hcard & [(-> & -> & Hok)|[-> Hc]]);
      rewrite decide_False by (intros [_ ?]; congruence); (eexists _, _; split; [by apply set_clear_ok'|]);
      (split; [done|]); (split; [done|]).
    + by left.
    + by right.
  - destruct Hm as (k' & -> & Hk). eexists. split; [done|]. split; [|done].
    apply (set_clear_ok (set_clear 0 l)); [|by rewrite Hk]. by apply lhd_idle.
Qed.

(** The sectors outside [n] sectors from [b] on. *)
Definition sectors_outside (b n : nat) (x y : list (list Z)) : Prop :=
  length y = length x /\ forall i, ~ (b <= i < b + n)%nat -> y !! i = x !! i.

Definition statval (u : uio) : Z := if decide (rw u = UIO_WRITE) then Z.lor LHD_WORKING LHD_ISWRITE else LHD_WORKING.

(** One sector, in either direction: the driver is free again, whatever happened. *)
Lemma lhd_sector_safe l c u (b : nat) :
  lhd_ok l -> uio_ok c u -> LHD_SECTSIZE <= uio_resid u -> (b < length (card_sectors (lh_card l)))%nat ->
  exists l' c' u', lhd_ok l' /\ uio_ok c' u' /\ rw u' = rw u /\
    sectors_outside b 1 (card_sectors (lh_card l)) (card_sectors (lh_card l')) /\
    (rw u = UIO_READ -> card_sectors (lh_card l') = card_sectors (lh_card l)) /\
    (lhd_sector (Z.of_nat b) (statval u) (l, (c, u)) = Done tt (l', (c', u')) /\ uio_resid u' = uio_resid u - LHD_SECTSIZE \/
     exists e, lhd_sector (Z.of_nat b) (statval u) (l, (c, u)) = Fail e (l', (c', u'))).
Proof.
  intros Hl Hu Hr Hb. pose proof Hu as (_ & Hlen & Hres & _).
  destruct (lookup_lt_is_Some_2 _ _ Hb) as [x Hx]. unfold statval.
  assert (Hsame : forall x : list (list Z), sectors_outside b 1 x x) by done.
  assert (Hins : forall (x : list (list Z)) y, sectors_outside b 1 x (<[b := y]> x)).
  { intros y0 y. split; [apply length_insert|]. intros i Hi. apply list_lookup_insert_ne. lia. }
  destruct (rw u) eqn:Erw.
  - destruct (lhd_sector_read l c u b x Hl Hu Erw Hr Hx) as
      [(l' & c' & u' & E & Ep & Hl' & Hs & _)|[(l' & E & Hl' & Hs & _)|(l' & m' & E & Ep & Hl' & Hs & _)]].
    + pose proof (card_sector_length _ _ _ Hx) as Hxl.
      pose proof (poke_advance_ok c u x c' u' Hu ltac:(rewrite Hxl; done) Ep) as Hu'. rewrite Hxl in Hu'.
      pose proof (poke_uio _ _ _ _ _ Ep) as (_ & _ & kb & -> & _).
      exists l', c', (advance LHD_SECTSIZE (set_kbuf kb u)). repeat (split; [done || by rewrite Hs|]). left.
      split; [done|]. apply (advance_resid LHD_SECTSIZE (set_kbuf kb u)); simpl; unfold LHD_SECTSIZE in *; lia.
    + exists l', c, u. repeat (split; [done || by rewrite Hs|]). right. by exists EIO.
    + exists l', (set_umem m' c), u. repeat (split; [done || by rewrite Hs|]). right. by exists EFAULT.
  - rewrite decide_True by done. pose proof (lhd_sector_write l c u b x Hl Hu Erw Hr Hx) as Hw. destruct (peek c u LHD_SECTSIZE) as [d|] eqn:Ep.
    + destruct Hw as (l' & y & Hl' & Hs & _ & Hw). exists l', c, (advance LHD_SECTSIZE u).
      split; [done|]. split; [eapply peek_advance_ok; try done; unfold LHD_SECTSIZE in *; lia|].
      split; [done|]. split; [by rewrite Hs|]. split; [done|]. destruct Hw as [[-> _]|[-> _]].
      * left. split; [done|]. apply advance_resid; unfold LHD_SECTSIZE in *; lia.
      * right. by exists EIO.
    + destruct Hw as (l' & -> & Hl' & Hs). exists l', c, u. repeat (split; [done || by rewrite Hs|]). right. by exists EFAULT.
Qed.

Lemma lhd_loop_safe n (b i : nat) l c u (st : Z) :
  lhd_ok l -> uio_ok c u -> Z.of_nat n * LHD_SECTSIZE <= uio_resid u -> st = statval u ->
  (b + i + n <= length (card_sectors (lh_card l)))%nat ->
  exists l' c' u', lhd_ok l' /\ uio_ok c' u' /\
    sectors_outside (b + i) n (card_sectors (lh_card l)) (card_sectors (lh_card l')) /\
    (rw u = UIO_READ -> card_sectors (lh_card l') = card_sectors (lh_card l)) /\
    let r := for_n n (Z.of_nat i) (fun i => lhd_sector (u32 (Z.of_nat b + i)) st) (l, (c, u)) in
    (r = Done tt (l', (c', u')) /\ uio_resid u' = uio_resid u - Z.of_nat n * LHD_SECTSIZE \/
     exists e, r = Fail e (l', (c', u'))).
Proof.
  revert i l c u. induction n as [|n IH]; intros i l c u Hl Hu Hr Hst Hb.
  { exists l, c, u. repeat (split; [done|]). left. split; [done|]. lia. }
  assert (Hbi : u32 (Z.of_nat b + Z.of_nat i) = Z.of_nat (b + i)).
  { pose proof Hl as (_ & _ & _ & Hn & Hn2). rewrite u32_small by lia. lia. }
  destruct (lhd_sector_safe l c u (b + i) Hl Hu) as (l1 & c1 & u1 & Hl1 & Hu1 & Hrw & [Hsl Hso] & Hsr & Hres);
    [unfold LHD_SECTSIZE in *; lia|lia|].
  cbn [for_n]. rewrite Hbi. subst st. destruct Hres as [[E Hr1]|[e E]].
  - rewrite (bind_Done _ _ _ _ _ E). replace (Z.of_nat i + 1) with (Z.of_nat (S i)) by lia.
    destruct (IH (S i) l1 c1 u1 Hl1 Hu1) as (l2 & c2 & u2 & Hl2 & Hu2 & [Hsl2 Hso2] & Hsr2 & Hres2);
      [lia|unfold statval; by rewrite Hrw|lia|].
    exists l2, c2, u2. split; [done|]. split; [done|]. split.
    { split; [lia|]. intros j Hj. rewrite Hso2 by lia. apply Hso. lia. }
    split; [intros Hrd; rewrite Hsr2 by congruence; by apply Hsr|]. destruct Hres2 as [[E2 Hr2]|[e E2]].
    + left. split; [exact E2|]. lia.
    + right. by exists e.
  - exists l1, c1, u1. split; [done|]. split; [done|].
    split; [split; [done|]; intros j Hj; apply Hso; lia|]. split; [done|]. right. exists e. by apply bind_Fail.
Qed.

(** C26: [lhd_io] returns from every request: it never waits for ever, and leaves the
    driver free for the next request on every path, media errors and bad user buffers
    included.  A misaligned request or one past the end is rejected; another changes at
    most the sectors it names, and none when it reads. *)
Theorem lhd_io_safe (l : softc) (c : uctx) (u : uio) :
  lhd_ok l -> uio_ok c u -> 0 <= uio_offset u < 2 ^ 31 ->
  let b := uio_offset u / LHD_SECTSIZE in
  let n := uio_resid u / LHD_SECTSIZE in
  exists l' c' u', lhd_ok l' /\ uio_ok c' u' /\
    sectors_outside (Z.to_nat b) (Z.to_nat n) (card_sectors (lh_card l)) (card_sectors (lh_card l')) /\
    (rw u = UIO_READ -> card_sectors (lh_card l') = card_sectors (lh_card l)) /\
    if decide (uio_offset u mod LHD_SECTSIZE = 0 /\ uio_resid u mod LHD_SECTSIZE = 0 /\ b + n <= lh_blocks l) then
      lhd_io (l, (c, u)) = Done tt (l', (c', u')) /\ uio_resid u' = 0 \/
      exists e, lhd_io (l, (c, u)) = Fail e (l', (c', u'))
    else lhd_io (l, (c, u)) = Fail EINVAL (l', (c', u')) /\ l' = l /\ c' = c /\ u' = u.
Proof.
  intros Hl Hu Ho b n. pose proof Hu as (_ & Hlen & Hres & _). pose proof Hl as (_ & _ & _ & Hn & Hn2).
  assert (Hb : u32 (Z.quot (uio_offset u) LHD_SECTSIZE) = b).
  { rewrite Z.quot_div_nonneg by (unfold LHD_SECTSIZE; lia). apply u32_small. unfold b, LHD_SECTSIZE. dlia. }
  assert (Hm : u32 (Z.rem (uio_offset u) LHD_SECTSIZE) = uio_offset u mod LHD_SECTSIZE).
  { rewrite Z.rem_mod_nonneg by (unfold LHD_SECTSIZE; lia). apply u32_small. unfold LHD_SECTSIZE. dlia. }
  assert (Hbn : 0 <= b /\ 0 <= n /\ u32 (b + n) = b + n).
  { unfold b, n, LHD_SECTSIZE in *. split; [dlia|]. split; [dlia|]. apply u32_small. dlia. }
  unfold lhd_io. munfold. cbn [id fst snd]. fold n. rewrite Hb, Hm. destruct Hbn as (Hb0 & Hn0 & ->). case_decide as D.
  - rewrite decide_False by lia. rewrite decide_False by lia.
    destruct (lhd_loop_safe (Z.to_nat n) (Z.to_nat b) 0 l c u (statval u) Hl Hu) as
      (l' & c' & u' & Hl' & Hu' & Hs & Hsr & Hr); [unfold n, LHD_SECTSIZE in *; dlia|done|lia|].
    rewrite Nat.add_0_r in Hs. exists l', c', u'. repeat (split; [done|]).
    rewrite Z2Nat.id in Hr by done. change (Z.of_nat 0) with 0 in Hr. fold (statval u).
    destruct Hr as [[Hr Hr']|Hr]; [left|by right]. split; [exact Hr|]. unfold n in *. unfold LHD_SECTSIZE in *. dlia.
  - exists l, c, u. repeat (split; [done|]). split; [|done].
    destruct (decide (uio_offset u mod LHD_SECTSIZE <> 0 \/ uio_resid u mod LHD_SECTSIZE <> 0)); [done|].
    by rewrite decide_True by lia.
Qed.

Lemma lhd_io_one l c u (b : nat) :
  lhd_ok l -> sector_uio c u (Z.of_nat b) -> Z.of_nat b < 2 ^ 22 -> (b < length (card_sectors (lh_card l)))%nat ->
  lhd_io (l, (c, u)) = lhd_sector (Z.of_nat b) (statval u) (l, (c, u)).
Proof.
  intros Hl (Hu & Hr & Ho) Hb Hlen. pose proof Hl as (_ & _ & _ & Hn & Hn2). unfold SECTSIZE in *.
  unfold lhd_io. munfold. cbn [id fst snd]. rewrite Hr, Ho.
  change (512 mod LHD_SECTSIZE) with 0. change (512 / LHD_SECTSIZE) with 1. unfold LHD_SECTSIZE.
  rewrite Z.quot_div_nonneg, Z.rem_mod_nonneg by lia. rewrite Z.mod_mul, Z.div_mul by lia.
  rewrite (u32_small (Z.of_nat b)) by lia. rewrite decide_False by (intros [D|D]; by apply D).
  rewrite u32_small by lia. rewrite decide_False by lia.
  change (Z.to_nat 1) with 1%nat. cbn [for_n]. munfold. rewrite Z.add_0_r, u32_small by lia. unfold statval.
  by destruct (lhd_sector _ _ _) as [[] ?| | | |].
Qed.

End spec.

(** The driver is a disk in the sense of Blockdev.v, sound when the card is. *)
#[export] #[refine] Instance lhd_spec {HW} `{!LhdCard HW, !LhdCardSpec HW} : DeviceSpec (lhd_softc HW) := {|
  dev_ok := fun w l => lhd_ok l /\ (w = Sound -> card_sound (lh_card l));
  sectors := fun l => card_sectors (lh_card l);
|}.
Proof.
  - intros w l b x _ Hx. by apply card_sector_length in Hx.
  - intros w l [Hl _]. apply Hl.
  - done.
  - intros w l c u b x [Hl Hsd] Hs Hb Hrw Hx. cbn [d_io lhd_device].
    rewrite (lhd_io_one l c u b) by (try done; by eapply lookup_lt_Some). destruct Hs as (Hu & Hr & _).
    unfold statval. rewrite decide_False by congruence.
    assert (Hbuf : length (lh_buf l) = Z.to_nat LHD_SECTSIZE) by apply Hl.
    assert (Hsd' : w = Sound -> card_sound (card_run false (Z.of_nat b) (lh_buf l) (lh_card l)).2)
      by (intros Hw; by apply (card_sound_step _ b _ x (Hsd Hw))).
    destruct (lhd_sector_read l c u b x Hl Hu Hrw ltac:(by rewrite Hr) Hx) as
      [(l' & c' & u' & E & Ep & Hl' & Hss & Hcd)|[(l' & E & Hl' & Hss & Hcd)|(l' & m' & E & Ep & Hl' & Hss & Hcd)]];
      rewrite <- Hcd in Hsd'; [left|right; left|right; right]; eauto 10.
  - intros l c u b x [Hl Hsd] Hs Hb Hrw Hx. cbn [d_io lhd_device].
    rewrite (lhd_io_one l c u b) by (try done; by eapply lookup_lt_Some). destruct Hs as (Hu & Hr & _).
    unfold statval. rewrite decide_True by done.
    pose proof (lhd_sector_write l c u b x Hl Hu Hrw ltac:(by rewrite Hr) Hx) as Hw.
    change SECTSIZE with LHD_SECTSIZE. destruct (peek c u LHD_SECTSIZE) as [d|] eqn:Ep.
    2:{ destruct Hw as (l' & E & Hl' & Hcd). exists l'. split; [done|]. by rewrite Hcd. }
    assert (Hd : length d = Z.to_nat LHD_SECTSIZE) by (apply peek_length in Ep; lia).
    destruct (card_sound_step _ b d x (Hsd eq_refl) Hx Hd) as (Hok & Hsd' & _).
    destruct Hw as (l' & y & Hl' & Hs & Hcd & [(E & -> & _)|[E Hc]]); [|by destruct Hc].
    exists l'. split; [done|]. split; [|done]. split; [done|]. by rewrite Hcd.
Defined.

End Lhd.
