(* ===== verification/Vnode.v ===== *)
(** * Vnodes: kern/fs/vfs/vnode.c

    The reference and open counts every file system shares.  The operations run on
    the state of a file system, which says where its vnodes are, where the rest of
    the kernel is, and what its [vop_reclaim] and [vop_close] do. *)

From S2P Require Import Prelude.

Module Vnode.

(** The lock operations of kern/thread/synch.c that a vnode uses; the kernel state
    is that of the thread system.  [lock_create] returns 0 for [NULL]. *)
Class Locks (K : Type) := {
  lock_create : Z -> M K Z;
  lock_destroy : Z -> M K unit;
  lock_acquire : Z -> M K unit;
  lock_release : Z -> M K unit;
}.

(** [vn_ops] is [None] for a null pointer; every table of operations in the sources
    carries [VOP_MAGIC]. *)
Record vnode (OPS : Type) := mkvnode {
  vn_refcount : Z;
  vn_opencount : Z;
  vn_countlock : Z;
  vn_fs : Z;
  vn_data : Z;
  vn_ops : option OPS;
}.
Arguments mkvnode {OPS} _ _ _ _ _ _.
Arguments vn_refcount {OPS} _.
Arguments vn_opencount {OPS} _.
Arguments vn_countlock {OPS} _.
Arguments vn_fs {OPS} _.
Arguments vn_data {OPS} _.
Arguments vn_ops {OPS} _.

Definition deadbeef : Z := 0xdeadbeef.

(** strlen("vnode-countlock") *)
Definition countlock_namelen : Z := 15.

Section ops.
Context {S K OPS : Type} `{!Locks K}.
Variable kernL : lens S K.
Variable vget : Z -> S -> option (vnode OPS).
Variable vput : Z -> vnode OPS -> S -> S.
Variable vop_reclaim vop_close : Z -> M S unit.

Abbreviation VM := (M S).

Definition set_refcount x (v : vnode OPS) : vnode OPS :=
  mkvnode x (vn_opencount v) (vn_countlock v) (vn_fs v) (vn_data v) (vn_ops v).
Definition set_opencount x (v : vnode OPS) : vnode OPS :=
  mkvnode (vn_refcount v) x (vn_countlock v) (vn_fs v) (vn_data v) (vn_ops v).

Definition get_vn (p : Z) : VM (vnode OPS) := s ← gets id; access (vget p s).
Definition put_vn (p : Z) (v : vnode OPS) : VM unit := modify (vput p v).

(** The structure is allocated by the caller; on failure, when the caller frees it
    again, its partly assigned fields are not recorded. *)
Definition vnode_init (p : Z) (ops : OPS) (fs data : Z) : VM unit :=
  kassert (bool_decide (p <> 0)) ;;
  lk ← zoom kernL (lock_create countlock_namelen);
  if decide (lk = 0) then fail ENOMEM
  else put_vn p (mkvnode 1 0 lk fs data (Some ops)).

Definition vnode_kill (p : Z) : VM unit :=
  v ← get_vn p;
  kassert (bool_decide (vn_refcount v = 1)) ;;
  kassert (bool_decide (vn_opencount v = 0)) ;;
  kassert (bool_decide (vn_countlock v <> 0)) ;;
  zoom kernL (lock_destroy (vn_countlock v)) ;;
  put_vn p (mkvnode 0 0 0 0 0 None).

Definition vnode_incref (p : Z) : VM unit :=
  kassert (bool_decide (p <> 0)) ;;
  v ← get_vn p;
  zoom kernL (lock_acquire (vn_countlock v)) ;;
  v ← get_vn p;
  put_vn p (set_refcount (s32 (vn_refcount v + 1)) v) ;;
  zoom kernL (lock_release (vn_countlock v)).

(** Called before the operations of a vnode. *)
Definition vnode_check (p : Z) (opstr : string) : VM unit :=
  if decide (p = 0 \/ p = deadbeef) then panic
  else
    v ← get_vn p;
    match vn_ops v with
    | None => panic
    | Some _ =>
        if decide (vn_fs v = deadbeef) then panic
        else
          zoom kernL (lock_acquire (vn_countlock v)) ;;
          (if decide (vn_refcount v < 0) then panic
           else if decide (vn_refcount v = 0 /\ opstr <> "reclaim"%string) then panic
           else mret tt) ;;
          (if decide (vn_opencount v < 0) then panic else mret tt) ;;
          zoom kernL (lock_release (vn_countlock v))
    end.

(** An error of [VOP_RECLAIM] or [VOP_CLOSE] is only reported on the console. *)
Definition vnode_decref (p : Z) : VM unit :=
  kassert (bool_decide (p <> 0)) ;;
  v ← get_vn p;
  zoom kernL (lock_acquire (vn_countlock v)) ;;
  v ← get_vn p;
  kassert (bool_decide (vn_refcount v > 0)) ;;
  actually_do_it ← (if decide (vn_refcount v > 1) then
                      put_vn p (set_refcount (vn_refcount v - 1) v) ;; mret false
                    else mret true);
  zoom kernL (lock_release (vn_countlock v)) ;;
  if actually_do_it : bool then
    vnode_check p "reclaim" ;;
    _ ← attempt (vop_reclaim p);
    mret tt
  else mret tt.

Definition vnode_incopen (p : Z) : VM unit :=
  kassert (bool_decide (p <> 0)) ;;
  v ← get_vn p;
  zoom kernL (lock_acquire (vn_countlock v)) ;;
  v ← get_vn p;
  put_vn p (set_opencount (s32 (vn_opencount v + 1)) v) ;;
  zoom kernL (lock_release (vn_countlock v)).

Definition vnode_decopen (p : Z) : VM unit :=
  kassert (bool_decide (p <> 0)) ;;
  v ← get_vn p;
  zoom kernL (lock_acquire (vn_countlock v)) ;;
  v ← get_vn p;
  kassert (bool_decide (vn_opencount v > 0)) ;;
  let opencount := vn_opencount v - 1 in
  put_vn p (set_opencount opencount v) ;;
  zoom kernL (lock_release (vn_countlock v)) ;;
  if decide (opencount > 0) then mret tt
  else
    vnode_check p "close" ;;
    _ ← attempt (vop_close p);
    mret tt.

End ops.

(** ** What clients rely on *)

(** A lock that nobody holds, and one that the running thread holds. *)
Class LockSpec (K : Type) `{!Locks K} := {
  lk_free : K -> Z -> Prop;
  lk_mine : K -> Z -> Prop;
  acquire_free : forall k l, lk_free k l -> exists k', lock_acquire l k = Done tt k' /\ lk_mine k' l;
  release_mine : forall k l, lk_mine k l -> exists k', lock_release l k = Done tt k' /\ lk_free k' l;
}.

(** Taking and giving back one lock leaves the free ones free. *)
Class LockFrame (K : Type) `{!Locks K, !LockSpec K} : Prop := {
  acquire_frame : forall k l k' l', lk_free k l -> lock_acquire l k = Done tt k' -> l' <> l -> lk_free k l' -> lk_free k' l';
  release_frame : forall k l k' l', lk_mine k l -> lock_release l k = Done tt k' -> l' <> l -> lk_free k l' -> lk_free k' l';
}.

(** ** The counts report no error *)

(** The lock operations return nothing. *)
Class VoidLocks (K : Type) `{!Locks K} := {
  acquire_void : forall l, nofail (lock_acquire (K := K) l);
  release_void : forall l, nofail (lock_release (K := K) l);
}.
#[export] Hint Resolve acquire_void release_void : nofail.

Section counts.
Context {S K OPS : Type} `{!Locks K, !VoidLocks K} (kl : lens S K).
Context (vg : Z -> S -> option (vnode OPS)) (vp : Z -> vnode OPS -> S -> S).

Lemma get_vn_void p : nofail (get_vn vg p).
Proof. unfold get_vn. nofail. Qed.
Lemma put_vn_void p v : nofail (put_vn vp p v).
Proof. apply nofail_modify. Qed.
#[local] Hint Resolve get_vn_void put_vn_void : nofail.
Lemma vnode_check_void p o : nofail (vnode_check kl vg p o).
Proof. unfold vnode_check. nofail. Qed.
#[local] Hint Resolve vnode_check_void : nofail.
Lemma vnode_incref_void p : nofail (vnode_incref kl vg vp p).
Proof. unfold vnode_incref. nofail. Qed.
Lemma vnode_decref_void r p : nofail (vnode_decref kl vg vp r p).
Proof. unfold vnode_decref. nofail. Qed.
Lemma vnode_incopen_void p : nofail (vnode_incopen kl vg vp p).
Proof. unfold vnode_incopen. nofail. Qed.
Lemma vnode_decopen_void r p : nofail (vnode_decopen kl vg vp r p).
Proof. unfold vnode_decopen. cbv zeta. nofail. Qed.

End counts.
#[export] Hint Resolve get_vn_void put_vn_void vnode_check_void vnode_incref_void vnode_decref_void vnode_incopen_void
  vnode_decopen_void : nofail.

End Vnode.
