(* ===== verification/Vfs.v ===== *)
(** * The name space above the file systems: kern/fs/vfs

    The table of named devices (vfslist.c), the translation of paths (vfslookup.c), the
    current directory (vfscwd.c) and the operations on paths (vfspath.c).  The file systems and
    devices below, with their vnodes, are a state [W] that the operations of the interface
    [FileSystems] work on: the macros [FSOP_*] of fs.h and [VOP_*] of vnode.h.  A string is the list
    of its bytes, without the final zero. *)

From S2P Require Import Prelude Kmalloc Array Uio Vnode.
Import Array Uio.

Module Vfs.

Abbreviation str := (list Z).

(** ** The interface to file systems, devices and the kernel *)

Class FileSystems (W : Type) := {
  fsys_kmalloc :: Kmalloc W;
  fsys_locks :: Vnode.Locks W;
  lock_do_i_hold : Z -> M W Z;
  ctxL : lens W uctx;
  FSOP_SYNC : Z -> M W unit;
  FSOP_GETVOLNAME : Z -> M W (option str);
  FSOP_GETROOT : Z -> M W Z;
  FSOP_UNMOUNT : Z -> M W unit;
  dev_create_vnode : Z -> M W Z;
  vn_fs : Z -> M W Z;                       (* the field *)
  VOP_INCREF : Z -> M W unit;
  VOP_DECREF : Z -> M W unit;
  VOP_INCOPEN : Z -> M W unit;
  VOP_DECOPEN : Z -> M W unit;
  VOP_OPEN : Z -> Z -> M W unit;
  VOP_GETTYPE : Z -> M W Z;
  VOP_TRUNCATE : Z -> Z -> M W unit;
  VOP_CREAT : Z -> str -> bool -> M W Z;
  VOP_SYMLINK : Z -> str -> str -> M W unit;
  VOP_MKDIR : Z -> str -> M W unit;
  VOP_LINK : Z -> str -> Z -> M W unit;
  VOP_REMOVE : Z -> str -> M W unit;
  VOP_RMDIR : Z -> str -> M W unit;
  VOP_RENAME : Z -> str -> Z -> str -> M W unit;
  VOP_LOOKUP : Z -> str -> M W Z;
  VOP_LOOKPARENT : Z -> str -> Z -> M W (Z * str);
  VOP_READLINK : Z -> M (W * uio) unit;
  VOP_NAMEFILE : Z -> M (W * uio) unit;
  nulldev_init : Z -> M W unit;             (* the fields of the null device *)
}.

(** ** State *)

Record knowndev := mkkd {
  kd_name : str;
  kd_rawname : option str;
  kd_device : Z;
  kd_vnode : Z;
  kd_fs : Z;
}.

Definition set_fs x (kd : knowndev) : knowndev :=
  mkkd (kd_name kd) (kd_rawname kd) (kd_device kd) (kd_vnode kd) x.

Definition sizeof_knowndev : Z := 20.
Definition NAME_MAX : Z := 255.

(** strlen("knowndevs") and strlen("bootfs_lock") *)
Definition knowndevs_namelen : Z := 9.
Definition bootfs_namelen : Z := 11.

Record vfs (W : Type) := mkvfs {
  v_w : W;
  v_knowndevs : array Z;
  v_kds : gmap Z knowndev;       (* the structures, by address *)
  v_lock : Z;                    (* knowndevs_lock *)
  v_bootfs : Z;                  (* bootfs_vnode *)
  v_bootlock : Z;                (* bootfs_lock *)
  v_cwd : Z;                     (* curthread->t_cwd *)
}.
Arguments mkvfs {W} _ _ _ _ _ _ _.
Arguments v_w {W} _.
Arguments v_knowndevs {W} _.
Arguments v_kds {W} _.
Arguments v_lock {W} _.
Arguments v_bootfs {W} _.
Arguments v_bootlock {W} _.
Arguments v_cwd {W} _.

Definition O_ACCMODE : Z := 3.
Definition O_RDONLY : Z := 0.
Definition O_WRONLY : Z := 1.
Definition O_RDWR : Z := 2.
Definition O_CREAT : Z := 4.
Definition O_EXCL : Z := 8.
Definition O_TRUNC : Z := 16.
Definition O_APPEND : Z := 32.
Definition S_IFMT : Z := 28672.
Definition S_IFDIR : Z := 8192.
Definition S_ISDIR (mode : Z) : bool := bool_decide (Z.land mode S_IFMT = S_IFDIR).

Definition COLON : Z := 58.
Definition SLASH : Z := 47.
Definition raw_suffix : str := [114; 97; 119].

Section ops.
Context {W : Type} `{!FileSystems W}.

Abbreviation VF := (M (vfs W)).

Definition set_w x (s : vfs W) : vfs W :=
  mkvfs x (v_knowndevs s) (v_kds s) (v_lock s) (v_bootfs s) (v_bootlock s) (v_cwd s).
Definition set_knowndevs x (s : vfs W) : vfs W :=
  mkvfs (v_w s) x (v_kds s) (v_lock s) (v_bootfs s) (v_bootlock s) (v_cwd s).
Definition set_kds x (s : vfs W) : vfs W :=
  mkvfs (v_w s) (v_knowndevs s) x (v_lock s) (v_bootfs s) (v_bootlock s) (v_cwd s).
Definition set_lock x (s : vfs W) : vfs W :=
  mkvfs (v_w s) (v_knowndevs s) (v_kds s) x (v_bootfs s) (v_bootlock s) (v_cwd s).
Definition set_bootfs x (s : vfs W) : vfs W :=
  mkvfs (v_w s) (v_knowndevs s) (v_kds s) (v_lock s) x (v_bootlock s) (v_cwd s).
Definition set_bootlock x (s : vfs W) : vfs W :=
  mkvfs (v_w s) (v_knowndevs s) (v_kds s) (v_lock s) (v_bootfs s) x (v_cwd s).
Definition set_cwd x (s : vfs W) : vfs W :=
  mkvfs (v_w s) (v_knowndevs s) (v_kds s) (v_lock s) (v_bootfs s) (v_bootlock s) x.

Definition wL : lens (vfs W) W := Lens v_w set_w.
Definition devsL : lens (vfs W) (W * array Z) :=
  Lens (fun s => (v_w s, v_knowndevs s)) (fun t s => set_knowndevs t.2 (set_w t.1 s)).
(** An operation of the file systems or the kernel. *)
Definition low {A} (m : M W A) : VF A := zoom wL m.

Definition acquire_devs : VF unit := l ← gets v_lock; low (Vnode.lock_acquire l).
Definition release_devs : VF unit := l ← gets v_lock; low (Vnode.lock_release l).

(** [array_getguy(knowndevs, i)], and the structure it points to. *)
Definition get_kd (p : Z) : VF knowndev := s ← gets id; access (v_kds s !! p).
Definition put_kd (p : Z) (kd : knowndev) : VF unit := modify (fun s => set_kds (<[p := kd]> (v_kds s)) s).
Definition getdev (i : Z) : VF Z := p ← zoom devsL (array_getguy i); access p.
Definition numdevs : VF Z := zoom devsL array_getnum.

(** ** The table of devices: vfslist.c *)

(** One turn of the loop of [vfs_getroot]: an answer, or the next device. *)
Definition getroot_at (devname : str) (p : Z) : VF (option (errno + Z)) :=
  kd ← get_kd p;
  r ← (if decide (kd_fs kd <> 0) then
         volname ← low (FSOP_GETVOLNAME (kd_fs kd));
         if decide (kd_name kd = devname \/ volname = Some devname) then
           root ← low (FSOP_GETROOT (kd_fs kd)); mret (Some (inr root))
         else mret None
       else if decide (kd_rawname kd <> None /\ kd_name kd = devname) then mret (Some (inl ENXIO))
       else mret None);
  match r with
  | Some a => mret (Some a)
  | None =>
      if decide (kd_name kd = devname) then
        kassert (bool_decide (kd_fs kd = 0)) ;;
        kassert (bool_decide (kd_rawname kd = None)) ;;
        kassert (bool_decide (kd_device kd <> 0)) ;;
        low (VOP_INCREF (kd_vnode kd)) ;;
        mret (Some (inr (kd_vnode kd)))
      else if decide (kd_rawname kd = Some devname) then
        kassert (bool_decide (kd_device kd <> 0)) ;;
        low (VOP_INCREF (kd_vnode kd)) ;;
        mret (Some (inr (kd_vnode kd)))
      else mret None
  end.

Fixpoint getroot_loop (n : nat) (i : Z) (devname : str) : VF (errno + Z) :=
  match n with
  | O => mret (inl ENODEV)
  | S n' =>
      p ← getdev i;
      r ← getroot_at devname p;
      match r with
      | Some a => mret a
      | None => getroot_loop n' (i + 1) devname
      end
  end.

Definition vfs_getroot (devname : str) : VF Z :=
  acquire_devs ;;
  num ← numdevs;
  r ← getroot_loop (Z.to_nat num) 0 devname;
  release_devs ;;
  match r with inl e => fail e | inr v => mret v end.

Fixpoint sync_loop (n : nat) (i : Z) : VF unit :=
  match n with
  | O => mret tt
  | S n' =>
      p ← getdev i;
      kd ← get_kd p;
      (if decide (kd_fs kd <> 0) then _ ← attempt (low (FSOP_SYNC (kd_fs kd))); mret tt else mret tt) ;;
      sync_loop n' (i + 1)
  end.

Definition vfs_sync : VF unit :=
  acquire_devs ;;
  num ← numdevs;
  sync_loop (Z.to_nat num) 0 ;;
  release_devs.

(** The string, or [None] for [NULL]. *)
Fixpoint getdevname_loop (n : nat) (i f : Z) : VF (option str) :=
  match n with
  | O => mret None
  | S n' =>
      p ← getdev i;
      kd ← get_kd p;
      if decide (kd_fs kd = f) then mret (Some (kd_name kd)) else getdevname_loop n' (i + 1) f
  end.

Definition vfs_getdevname (f : Z) : VF (option str) :=
  kassert (bool_decide (f <> 0)) ;;
  acquire_devs ;;
  num ← numdevs;
  r ← getdevname_loop (Z.to_nat num) 0 f;
  release_devs ;;
  mret r.

Definition samestring (a b : option str) : bool :=
  match a, b with Some a, Some b => bool_decide (a = b) | _, _ => false end.
Definition samestring3 (a b c d : option str) : bool := samestring a b || samestring a c || samestring a d.

Fixpoint badnames_loop (n : nat) (i : Z) (n1 n2 n3 : option str) : VF bool :=
  match n with
  | O => mret false
  | S n' =>
      p ← getdev i;
      kd ← get_kd p;
      b ← (if decide (kd_fs kd <> 0) then
             volname ← low (FSOP_GETVOLNAME (kd_fs kd)); mret (samestring3 volname n1 n2 n3)
           else mret false);
      if b : bool then mret true
      else if samestring3 (kd_rawname kd) n1 n2 n3 || samestring3 (Some (kd_name kd)) n1 n2 n3 then mret true
      else badnames_loop n' (i + 1) n1 n2 n3
  end.

Definition badnames (n1 n2 n3 : option str) : VF bool :=
  l ← gets v_lock;
  mine ← low (lock_do_i_hold l);
  kassert (bool_decide (mine <> 0)) ;;
  num ← numdevs;
  badnames_loop (Z.to_nat num) 0 n1 n2 n3.

Definition kstrdup (s : str) : VF Z := low (kmalloc (u32 (Z.of_nat (length s) + 1))).
Definition mkrawname (s : str) : VF Z := low (kmalloc (u32 (Z.of_nat (length s) + 3 + 1))).

(** A body run with the table locked; its result is handed on after the release. *)
Definition locked {A} (m : VF A) : VF A :=
  acquire_devs ;;
  r ← attempt m;
  release_devs ;;
  match r with inl e => fail e | inr a => mret a end.

(** The part of [vfs_doadd] under the lock. *)
Definition add_checked (kdp : Z) (name : str) (rawname : option str) (volname : option str) : VF unit :=
  bad ← badnames (Some name) rawname volname;
  if bad : bool then fail EEXIST else zoom devsL (array_add kdp).

(** [puke]: the strings, the vnode and the structure that were got. *)
Definition puke {A} (ps : list Z) : VF A :=
  foldr (fun p rest => (if decide (p <> 0) then low (kfree p) else mret tt) ;; rest) (fail ENOMEM) ps.

Definition vfs_doadd (dname : str) (mountable : bool) (dev f : Z) : VF unit :=
  name ← kstrdup dname;
  if decide (name = 0) then puke []
  else
    rawname ← (if mountable then mkrawname dname else mret 0);
    if decide (mountable = true /\ rawname = 0) then puke [name]
    else
      vn ← low (dev_create_vnode dev);
      if decide (vn = 0) then puke [name; rawname]
      else
        kdp ← low (kmalloc sizeof_knowndev);
        if decide (kdp = 0) then puke [name; rawname; vn]
        else
          let raw := if mountable then Some (dname ++ raw_suffix) else None in
          put_kd kdp (mkkd dname raw dev vn f) ;;
          volname ← (if decide (f <> 0) then low (FSOP_GETVOLNAME f) else mret None);
          locked (add_checked kdp dname raw volname).

Definition vfs_adddev (devname : str) (dev : Z) (mountable : bool) : VF unit := vfs_doadd devname mountable dev 0.
Definition vfs_addfs (devname : str) (f : Z) : VF unit := vfs_doadd devname false 0 f.

(** The structure of the device, if there is one. *)
Fixpoint findmount_loop (n : nat) (i : Z) (devname : str) : VF (option Z) :=
  match n with
  | O => mret None
  | S n' =>
      p ← getdev i;
      kd ← get_kd p;
      if decide (kd_rawname kd = None) then findmount_loop n' (i + 1) devname
      else if decide (devname = kd_name kd) then mret (Some p)
      else findmount_loop n' (i + 1) devname
  end.

Definition findmount (devname : str) : VF Z :=
  l ← gets v_lock;
  mine ← low (lock_do_i_hold l);
  kassert (bool_decide (mine <> 0)) ;;
  num ← numdevs;
  r ← findmount_loop (Z.to_nat num) 0 devname;
  match r with Some p => mret p | None => fail ENODEV end.

(** What [vfs_mount] does with the table locked. *)
Definition mount_body (devname : str) (mountfunc : Z -> M W Z) : VF unit :=
  p ← findmount devname;
  kd ← get_kd p;
  if decide (kd_fs kd <> 0) then fail EBUSY
  else
    kassert (bool_decide (kd_rawname kd <> None)) ;;
    kassert (bool_decide (kd_device kd <> 0)) ;;
    f ← low (mountfunc (kd_device kd));
    kassert (bool_decide (f <> 0)) ;;
    put_kd p (set_fs f kd) ;;
    _ ← low (FSOP_GETVOLNAME f);
    mret tt.

Definition vfs_mount (devname : str) (mountfunc : Z -> M W Z) : VF unit := locked (mount_body devname mountfunc).

Definition vfs_unmount (devname : str) : VF unit :=
  locked (
    p ← findmount devname;
    kd ← get_kd p;
    if decide (kd_fs kd = 0) then fail EINVAL
    else
      kassert (bool_decide (kd_rawname kd <> None)) ;;
      kassert (bool_decide (kd_device kd <> 0)) ;;
      low (FSOP_SYNC (kd_fs kd)) ;;
      low (FSOP_UNMOUNT (kd_fs kd)) ;;
      put_kd p (set_fs 0 kd)).

(** One device of [vfs_unmountall]: synced, at the second attempt if need be, and unmounted. *)
Definition unmount_one (p : Z) : VF unit :=
  kd ← get_kd p;
  if decide (kd_rawname kd = None) then mret tt
  else if decide (kd_fs kd = 0) then mret tt
  else
    r ← attempt (low (FSOP_SYNC (kd_fs kd)));
    r ← (match r with inl _ => attempt (low (FSOP_SYNC (kd_fs kd))) | inr _ => mret r end);
    match r with
    | inl _ => mret tt
    | inr _ =>
        u ← attempt (low (FSOP_UNMOUNT (kd_fs kd)));
        match u with inl _ => mret tt | inr _ => put_kd p (set_fs 0 kd) end
    end.

Fixpoint unmountall_loop (n : nat) (i : Z) : VF unit :=
  match n with
  | O => mret tt
  | S n' => p ← getdev i; unmount_one p ;; unmountall_loop n' (i + 1)
  end.

Definition vfs_unmountall : VF unit :=
  acquire_devs ;;
  num ← numdevs;
  unmountall_loop (Z.to_nat num) 0 ;;
  release_devs.

(** ** The current directory: vfscwd.c *)

Definition vfs_getcurdir : VF Z :=
  cwd ← gets v_cwd;
  if decide (cwd <> 0) then low (VOP_INCREF cwd) ;; mret cwd else fail ENOENT.

Definition vfs_setcurdir (dir : Z) : VF unit :=
  vtype ← low (VOP_GETTYPE dir);
  if S_ISDIR vtype then
    low (VOP_INCREF dir) ;;
    old ← gets v_cwd;
    modify (set_cwd dir) ;;
    if decide (old <> 0) then low (VOP_DECREF old) else mret tt
  else fail ENOTDIR.

Definition vfs_clearcurdir : VF unit :=
  old ← gets v_cwd;
  modify (set_cwd 0) ;;
  if decide (old <> 0) then low (VOP_DECREF old) else mret tt.

(** ** Paths: vfslookup.c *)

(** The first colon or slash: its index, and which it is. *)
Fixpoint first_special (i : Z) (path : str) : option (Z * Z) :=
  match path with
  | [] => None
  | c :: rest =>
      if decide (c = COLON) then Some (i, COLON)
      else if decide (c = SLASH) then Some (i, SLASH)
      else first_special (i + 1) rest
  end.

(** The rest of the string from [&path[i]], with leading slashes skipped. *)
Fixpoint skip_slashes (path : str) : str :=
  match path with
  | c :: rest => if decide (c = SLASH) then skip_slashes rest else path
  | [] => []
  end.
Definition after_index (i : Z) (path : str) : str := skip_slashes (drop (Z.to_nat (i + 1)) path).

Definition acquire_boot : VF unit := l ← gets v_bootlock; low (Vnode.lock_acquire l).
Definition release_boot : VF unit := l ← gets v_bootlock; low (Vnode.lock_release l).

(** The vnode to start from and the rest of the path. *)
Definition getdevice (path : str) : VF (str * Z) :=
  let '(colon, slash) := match first_special 0 path with
                         | None => (-1, -1)
                         | Some (i, c) => if decide (c = COLON) then (i, -1) else (-1, i)
                         end in
  if decide (colon < 0 /\ slash <> 0) then
    v ← vfs_getcurdir; mret (path, v)
  else if decide (colon > 0) then
    let subpath := after_index colon path in
    v ← vfs_getroot (take (Z.to_nat colon) path);
    mret (subpath, v)
  else
    kassert (bool_decide (colon = 0 \/ slash = 0)) ;;
    startvn ← (if decide (slash = 0) then
                 acquire_boot ;;
                 b ← gets v_bootfs;
                 if decide (b = 0) then release_boot ;; fail ENOENT
                 else low (VOP_INCREF b) ;; release_boot ;; mret b
               else
                 vn ← vfs_getcurdir;
                 f ← low (vn_fs vn);
                 kassert (bool_decide (f <> 0)) ;;
                 root ← low (FSOP_GETROOT f);
                 low (VOP_DECREF vn) ;;
                 mret root);
    mret (after_index 0 path, startvn).

Definition vfs_lookparent (path : str) (buflen : Z) : VF (Z * str) :=
  '(path, startvn) ← getdevice path;
  result ← attempt (if decide (path = []) then fail EINVAL else low (VOP_LOOKPARENT startvn path buflen));
  low (VOP_DECREF startvn) ;;
  match result with inl e => fail e | inr r => mret r end.

Definition vfs_lookup (path : str) : VF Z :=
  '(path, startvn) ← getdevice path;
  if decide (path = []) then mret startvn
  else
    result ← attempt (low (VOP_LOOKUP startvn path));
    low (VOP_DECREF startvn) ;;
    match result with inl e => fail e | inr r => mret r end.

(** The old [bootfs_vnode] is given up without the lock. *)
Definition change_bootfs (newguy : Z) : VF unit :=
  acquire_boot ;;
  oldguy ← gets v_bootfs;
  modify (set_bootfs newguy) ;;
  release_boot ;;
  if decide (oldguy <> 0) then low (VOP_DECREF oldguy) else mret tt.

Definition vfs_chdir (path : str) : VF unit :=
  vn ← vfs_lookup path;
  result ← attempt (vfs_setcurdir vn);
  low (VOP_DECREF vn) ;;
  match result with inl e => fail e | inr r => mret r end.

(** [strchr(s, c)]: the string from the first [c] on. *)
Fixpoint strchr (s : str) (c : Z) : option str :=
  match s with
  | [] => None
  | x :: rest => if decide (x = c) then Some s else strchr rest c
  end.

(** [snprintf] with a size of [sizeof(tmp)-1] keeps one byte less than that. *)
Definition vfs_setbootfs (fsname : str) : VF unit :=
  let tmp := take (Z.to_nat (NAME_MAX - 1)) fsname in
  tmp ← (match strchr tmp COLON with
         | Some s => if decide (Z.of_nat (length s) > 0) then fail EINVAL else mret tmp
         | None => mret (tmp ++ [COLON])
         end);
  vfs_chdir tmp ;;
  newguy ← vfs_getcurdir;
  change_bootfs newguy.

Definition vfs_clearbootfs : VF unit := change_bootfs 0.

(** ** Operations on paths: vfspath.c *)

Definition namebuf : Z := NAME_MAX + 1.

(** [canwrite], or the flags are wrong. *)
Definition open_mode (openflags : Z) : option bool :=
  let how := Z.land openflags O_ACCMODE in
  if decide (how = O_RDONLY) then Some false
  else if decide (how = O_WRONLY \/ how = O_RDWR) then Some true
  else None.

(** The vnode that is opened. *)
Definition open_vnode (path : str) (openflags : Z) : VF Z :=
  if decide (Z.land openflags O_CREAT <> 0) then
    '(dir, name) ← vfs_lookparent path namebuf;
    result ← attempt (low (VOP_CREAT dir name (bool_decide (Z.land openflags O_EXCL <> 0))));
    low (VOP_DECREF dir) ;;
    match result with inl e => fail e | inr vn => mret vn end
  else vfs_lookup path.

Definition vfs_open (path : str) (openflags : Z) : VF Z :=
  match open_mode openflags with
  | None => fail EINVAL
  | Some canwrite =>
      vn ← open_vnode path openflags;
      kassert (bool_decide (vn <> 0)) ;;
      result ← attempt (low (VOP_OPEN vn openflags));
      match result with
      | inl e => low (VOP_DECREF vn) ;; fail e
      | inr _ =>
          low (VOP_INCOPEN vn) ;;
          if decide (Z.land openflags O_TRUNC <> 0) then
            result ← attempt (if canwrite : bool then low (VOP_TRUNCATE vn 0) else fail EINVAL);
            match result with
            | inl e => low (VOP_DECOPEN vn) ;; low (VOP_DECREF vn) ;; fail e
            | inr _ => mret vn
            end
          else mret vn
      end
  end.

Definition vfs_close (vn : Z) : VF unit := low (VOP_DECOPEN vn) ;; low (VOP_DECREF vn).

(** An operation on a name in a directory, which is then given up. *)
Definition in_parent (path : str) (m : Z -> str -> M W unit) : VF unit :=
  '(dir, name) ← vfs_lookparent path namebuf;
  result ← attempt (low (m dir name));
  low (VOP_DECREF dir) ;;
  match result with inl e => fail e | inr _ => mret tt end.

Definition vfs_remove (path : str) : VF unit := in_parent path VOP_REMOVE.
Definition vfs_symlink (contents path : str) : VF unit :=
  in_parent path (fun newdir newname => VOP_SYMLINK newdir newname contents).
Definition vfs_mkdir (path : str) : VF unit := in_parent path VOP_MKDIR.
Definition vfs_rmdir (path : str) : VF unit := in_parent path VOP_RMDIR.

(** Two vnodes of one file system. *)
Definition same_fs (v1 v2 : Z) : VF bool :=
  f1 ← low (vn_fs v1);
  f2 ← low (vn_fs v2);
  mret (bool_decide (f1 <> 0 /\ f2 <> 0 /\ f1 = f2)).

(** The two references are given up and the result is returned. *)
Definition drop_both (v1 v2 : Z) (r : errno + unit) : VF unit :=
  low (VOP_DECREF v1) ;;
  low (VOP_DECREF v2) ;;
  match r with inl e => fail e | inr _ => mret tt end.

Definition vfs_rename (oldpath newpath : str) : VF unit :=
  '(olddir, oldname) ← vfs_lookparent oldpath namebuf;
  r ← attempt (vfs_lookparent newpath namebuf);
  match r with
  | inl e => low (VOP_DECREF olddir) ;; fail e
  | inr (newdir, newname) =>
      same ← same_fs olddir newdir;
      if same : bool then
        result ← attempt (low (VOP_RENAME olddir oldname newdir newname));
        drop_both newdir olddir result
      else drop_both newdir olddir (inl EXDEV)
  end.

Definition vfs_link (oldpath newpath : str) : VF unit :=
  oldfile ← vfs_lookup oldpath;
  r ← attempt (vfs_lookparent newpath namebuf);
  match r with
  | inl e => low (VOP_DECREF oldfile) ;; fail e
  | inr (newdir, newname) =>
      same ← same_fs oldfile newdir;
      if same : bool then
        result ← attempt (low (VOP_LINK newdir newname oldfile));
        drop_both newdir oldfile result
      else drop_both newdir oldfile (inl EXDEV)
  end.

(** ** Start *)

Definition sizeof_device : Z := 28.
Definition null_name : str := [110; 117; 108; 108].

Definition devnull_create : VF unit :=
  dev ← low (kmalloc sizeof_device);
  if decide (dev = 0) then panic
  else
    low (nulldev_init dev) ;;
    result ← attempt (vfs_adddev null_name dev false);
    match result with inl _ => panic | inr _ => mret tt end.

Definition vfs_initbootfs : VF unit :=
  l ← low (Vnode.lock_create bootfs_namelen);
  if decide (l = 0) then panic else modify (set_bootlock l).

Definition vfs_bootstrap : VF unit :=
  a ← low array_create;
  match a with
  | None => panic
  | Some a =>
      modify (set_knowndevs a) ;;
      l ← low (Vnode.lock_create knowndevs_namelen);
      if decide (l = 0) then panic
      else
        modify (set_lock l) ;;
        vfs_initbootfs ;;
        devnull_create
  end.

(** ** Operations with a uio *)

Abbreviation VX := (M (vfs W * uio)).

Definition vfsL : lens (vfs W * uio) (vfs W) := Lens fst (fun s x => (s, x.2)).
Definition up {A} (m : VF A) : VX A := zoom vfsL m.
Definition wuioL : lens (vfs W * uio) (W * uio) := Lens (fun x => (v_w x.1, x.2)) (fun t x => (set_w t.1 x.1, t.2)).
(** [uiomove] from a string of the kernel's. *)
Definition move_str (name : str) : VX unit := fun '(s, u) =>
  match uiomove 0 (Z.of_nat (length name)) (name, (lget ctxL (v_w s), u)) with
  | Done _ (_, (c, u')) => Done tt (set_w (lset ctxL c (v_w s)) s, u')
  | Fail e (_, (c, u')) => Fail e (set_w (lset ctxL c (v_w s)) s, u')
  | Panic => Panic
  | Undef => Undef
  | NoFuel => NoFuel
  end.

Definition vfs_readlink (path : str) : VX unit :=
  vn ← up (vfs_lookup path);
  result ← attempt (zoom wuioL (VOP_READLINK vn));
  up (low (VOP_DECREF vn)) ;;
  match result with inl e => fail e | inr _ => mret tt end.

Definition vfs_getcwd : VX unit :=
  x ← gets id;
  kassert (bool_decide (rw x.2 = UIO_READ)) ;;
  cwd ← up vfs_getcurdir;
  f ← up (low (vn_fs cwd));
  kassert (bool_decide (f <> 0)) ;;
  name ← up (low (FSOP_GETVOLNAME f));
  name ← (match name with Some n => mret (Some n) | None => up (vfs_getdevname f) end);
  kassert (bool_decide (is_Some name)) ;;
  name ← access name;
  result ← attempt (move_str name ;; move_str [COLON] ;; zoom wuioL (VOP_NAMEFILE cwd));
  up (low (VOP_DECREF cwd)) ;;
  match result with inl e => fail e | inr _ => mret tt end.

End ops.

End Vfs.
