(* ===== verification/VfsPath.v ===== *)
(** * Paths and the references of the name space

    The translation of a path to a place to start and a rest (vfslookup.c) against a
    definition by the shape of the path, and the discipline of references: every vnode the name
    space layer gets is given up again, handed to the caller, or kept in the current directory
    or the boot file system. *)

From S2P Require Import Prelude Kmalloc Array Uio Vnode Vfs.
Import Array Uio Vfs.

Module VfsPath.

(** ** The shape of a path *)

Inductive start := FromCwd | FromDevice (name : str) | FromBootfs | FromRoot.

Definition special (c : Z) : Prop := c = COLON \/ c = SLASH.
#[global] Instance special_dec c : Decision (special c).
Proof. unfold special. apply _. Defined.

(** The path up to the first colon or slash, and from there on. *)
Fixpoint before_special (path : str) : str :=
  match path with
  | [] => []
  | c :: rest => if decide (special c) then [] else c :: before_special rest
  end.
Fixpoint from_special (path : str) : str :=
  match path with
  | [] => []
  | c :: rest => if decide (special c) then path else from_special rest
  end.

(** [name], [name/rest]: from the current directory; [dev:rest]: from a device;
    [/rest]: from the boot file system; [:rest]: from the root of the current one. *)
Definition parse (path : str) : start * str :=
  match before_special path, from_special path with
  | _, [] => (FromCwd, path)
  | [], c :: rest => (if decide (c = COLON) then FromRoot else FromBootfs, skip_slashes rest)
  | d, c :: rest => if decide (c = COLON) then (FromDevice d, skip_slashes rest) else (FromCwd, path)
  end.

Lemma before_from path : path = before_special path ++ from_special path.
Proof. induction path as [|c path IH]; simpl; [done|]. case_decide; simpl; congruence. Qed.

Lemma from_special_head path c rest : from_special path = c :: rest -> special c.
Proof. induction path as [|x path IH]; simpl; [done|]. case_decide; [by intros [= <- _]|done]. Qed.

Lemma first_special_spec i path :
  first_special i path = match from_special path with
                         | [] => None
                         | c :: _ => Some (i + Z.of_nat (length (before_special path)), c)
                         end.
Proof.
  revert i. induction path as [|c path IH]; intros i; simpl; [done|]. unfold special in *.
  destruct (decide (c = COLON)) as [->|Hc]; [rewrite decide_True by auto; simpl; by rewrite Z.add_0_r|].
  destruct (decide (c = SLASH)) as [->|Hs]; [rewrite decide_True by auto; simpl; by rewrite Z.add_0_r|].
  rewrite decide_False by tauto. rewrite IH. destruct (from_special path); [done|]. rewrite decide_False by tauto. cbn [length].
  f_equal. f_equal. lia.
Qed.

Section getdevice.
Context {W : Type} `{!FileSystems W}.

(** The vnode a path starts from. *)
Definition start_vnode (st : start) : M (vfs W) Z :=
  match st with
  | FromCwd => vfs_getcurdir
  | FromDevice name => vfs_getroot name
  | FromBootfs =>
      acquire_boot ;;
      b ← gets v_bootfs;
      if decide (b = 0) then release_boot ;; fail ENOENT
      else low (VOP_INCREF b) ;; release_boot ;; mret b
  | FromRoot =>
      vn ← vfs_getcurdir;
      f ← low (vn_fs vn);
      kassert (bool_decide (f <> 0)) ;;
      root ← low (FSOP_GETROOT f);
      low (VOP_DECREF vn) ;;
      mret root
  end.

Lemma getdevice_parse path s :
  getdevice path s = (v ← start_vnode (parse path).1; mret ((parse path).2, v)) s.
Proof.
  pose proof (before_from path) as Hp. unfold getdevice, parse. rewrite first_special_spec.
  destruct (from_special path) as [|c rest] eqn:Ef.
  { rewrite decide_True by lia. by destruct (before_special path). }
  pose proof (from_special_head _ _ _ Ef) as Hc. destruct (before_special path) as [|x d] eqn:Eb.
  - change (0 + Z.of_nat (length (@nil Z))) with 0. destruct (decide (c = COLON)) as [->|Hne].
    + rewrite (decide_False (P := _ /\ _)), (decide_False (P := _ > 0)) by lia.
      rewrite (bind_Done _ _ s tt s) by done. rewrite decide_False by lia. unfold after_index. rewrite Hp. done.
    + rewrite (decide_False (P := _ /\ _)), (decide_False (P := _ > 0)) by lia.
      rewrite (bind_Done _ _ s tt s) by (unfold kassert; rewrite bool_decide_eq_true_2 by lia; done).
      rewrite decide_True by lia. unfold after_index. rewrite Hp. done.
  - destruct (decide (c = COLON)) as [->|Hne].
    + rewrite (decide_False (P := _ /\ _)), (decide_True (P := _ > 0)) by (cbn [length]; lia).
      simpl fst. simpl snd. unfold after_index. rewrite Z.add_0_l, Nat2Z.id.
      replace (Z.to_nat (Z.of_nat (length (x :: d)) + 1)) with (length ((x :: d) ++ [COLON])) by (rewrite length_app; simpl; lia).
      rewrite Hp. rewrite take_app_length. change (COLON :: rest) with ([COLON] ++ rest). rewrite (app_assoc (x :: d)), drop_app_length. done.
    + rewrite (decide_True (P := _ /\ _)) by (cbn [length]; lia). done.
Qed.

End getdevice.

(** ** References

    A reference is got by [VOP_INCREF] and with every vnode that [VOP_LOOKUP], [VOP_LOOKPARENT],
    [VOP_CREAT], [FSOP_GETROOT] and [dev_create_vnode] return (fs.h, vnode.h), and given up by [VOP_DECREF].  The
    file systems are arbitrary; here they are run with a record of what was got and given. *)

Inductive event := Got (v : Z) | Gave (v : Z).

(** The functions of the interface that return no error number. *)
Class VoidOps (W : Type) `{!FileSystems W} := {
  void_incref : forall v w e w', VOP_INCREF v w <> Fail e w';
  void_decref : forall v w e w', VOP_DECREF v w <> Fail e w';
  void_incopen : forall v w e w', VOP_INCOPEN v w <> Fail e w';
  void_decopen : forall v w e w', VOP_DECOPEN v w <> Fail e w';
  void_acquire : forall l w e w', Vnode.lock_acquire l w <> Fail e w';
  void_release : forall l w e w', Vnode.lock_release l w <> Fail e w';
  void_getroot : forall f w e w', FSOP_GETROOT f w <> Fail e w';
  void_getvolname : forall f w e w', FSOP_GETVOLNAME f w <> Fail e w';
  void_vn_fs : forall v w e w', vn_fs v w <> Fail e w';
}.

Section logged.
Context {W : Type} `{!FileSystems W}.

Abbreviation LW := (W * list event)%type.

Definition lowL : lens LW W := Lens fst (fun w x => (w, x.2)).
Definition lift {A} (m : M W A) : M LW A := zoom lowL m.
Definition note (e : event) : M LW unit := modify (fun x => (x.1, e :: x.2)).
(** A call that hands out a vnode. *)
Definition lift_got (m : M W Z) : M LW Z := v ← lift m; note (Got v) ;; mret v.
Definition uioL : lens (LW * uio) (W * uio) := Lens (fun x => (x.1.1, x.2)) (fun t x => ((t.1, x.1.2), t.2)).

#[export] Instance logged : FileSystems LW := {|
  fsys_kmalloc := {| kmalloc := fun n => lift (kmalloc n); kfree := fun p => lift (kfree p) |};
  fsys_locks := {|
    Vnode.lock_create := fun n => lift (Vnode.lock_create n);
    Vnode.lock_destroy := fun l => lift (Vnode.lock_destroy l);
    Vnode.lock_acquire := fun l => lift (Vnode.lock_acquire l);
    Vnode.lock_release := fun l => lift (Vnode.lock_release l) |};
  lock_do_i_hold := fun l => lift (lock_do_i_hold l);
  ctxL := Lens (fun x => lget ctxL x.1) (fun c x => (lset ctxL c x.1, x.2));
  FSOP_SYNC := fun f => lift (FSOP_SYNC f);
  FSOP_GETVOLNAME := fun f => lift (FSOP_GETVOLNAME f);
  FSOP_GETROOT := fun f => lift_got (FSOP_GETROOT f);
  FSOP_UNMOUNT := fun f => lift (FSOP_UNMOUNT f);
  dev_create_vnode := fun d => lift_got (dev_create_vnode d);
  vn_fs := fun v => lift (vn_fs v);
  VOP_INCREF := fun v => lift (VOP_INCREF v) ;; note (Got v);
  VOP_DECREF := fun v => lift (VOP_DECREF v) ;; note (Gave v);
  VOP_INCOPEN := fun v => lift (VOP_INCOPEN v);
  VOP_DECOPEN := fun v => lift (VOP_DECOPEN v);
  VOP_OPEN := fun v f => lift (VOP_OPEN v f);
  VOP_GETTYPE := fun v => lift (VOP_GETTYPE v);
  VOP_TRUNCATE := fun v n => lift (VOP_TRUNCATE v n);
  VOP_CREAT := fun v n x => lift_got (VOP_CREAT v n x);
  VOP_SYMLINK := fun v n c => lift (VOP_SYMLINK v n c);
  VOP_MKDIR := fun v n => lift (VOP_MKDIR v n);
  VOP_LINK := fun v n f => lift (VOP_LINK v n f);
  VOP_REMOVE := fun v n => lift (VOP_REMOVE v n);
  VOP_RMDIR := fun v n => lift (VOP_RMDIR v n);
  VOP_RENAME := fun v n v' n' => lift (VOP_RENAME v n v' n');
  VOP_LOOKUP := fun v p => lift_got (VOP_LOOKUP v p);
  VOP_LOOKPARENT := fun v p n => r ← lift (VOP_LOOKPARENT v p n); note (Got r.1) ;; mret r;
  VOP_READLINK := fun v => zoom uioL (VOP_READLINK v);
  VOP_NAMEFILE := fun v => zoom uioL (VOP_NAMEFILE v);
  nulldev_init := fun d => lift (nulldev_init d);
|}.

(** ** Accounts *)

Definition one (x v : Z) : Z := if decide (v = x) then 1 else 0.

Fixpoint balance (l : list event) (v : Z) : Z :=
  match l with
  | [] => 0
  | Got x :: l => balance l v + one x v
  | Gave x :: l => balance l v - one x v
  end.

(** The references got and not given up, those of the current directory and of the
    boot file system apart. *)
Definition held (s : vfs LW) (v : Z) : Z := balance (v_w s).2 v - one (v_cwd s) v - one (v_bootfs s) v.

(** [m] gets [k a] when it returns [a], and [d] when it returns an error. *)
Definition bal {A} (d : Z -> Z) (m : M (vfs LW) A) (k : A -> Z -> Z) : Prop := forall s,
  match m s with
  | Done a s' => forall v, v <> 0 -> held s' v = held s v + k a v
  | Fail _ s' => forall v, v <> 0 -> held s' v = held s v + d v
  | _ => True
  end.

Lemma bal_bind {A B} d (m : M (vfs LW) A) (f : A -> M (vfs LW) B) k1 k2 :
  bal d m k1 -> (forall a, bal (fun v => d v - k1 a v) (f a) (fun b v => k2 b v - k1 a v)) -> bal d (m ≫= f) k2.
Proof.
  intros Hm Hf s. specialize (Hm s). unfold mbind, M_bind. destruct (m s) as [a s1| | | |]; try done.
  specialize (Hf a s1). destruct (f a s1); try done; intros v Hv; rewrite Hf, Hm by done; lia.
Qed.

Lemma bal_ret {A} d (a : A) k : (forall v, v <> 0 -> k a v = 0) -> bal d (mret a) k.
Proof. intros H s v Hv. rewrite H by done. lia. Qed.

Lemma bal_fail {A} d e (k : A -> Z -> Z) : (forall v, v <> 0 -> d v = 0) -> bal d (fail e) k.
Proof. intros H s v Hv. rewrite H by done. lia. Qed.

Lemma bal_gets {A} d (f : vfs LW -> A) k : (forall a v, v <> 0 -> k a v = 0) -> bal d (gets f) k.
Proof. intros H s v Hv. rewrite H by done. lia. Qed.

Lemma bal_assert d b k : (forall a v, v <> 0 -> k a v = 0) -> bal d (kassert b) k.
Proof. intros H s. unfold kassert. destruct b; [|done]. intros v Hv. rewrite H by done. lia. Qed.

Lemma bal_attempt {A} d (m : M (vfs LW) A) k :
  bal (fun _ => 0) m k -> bal d (attempt m) (fun r v => match r with inl _ => 0 | inr a => k a v end).
Proof. intros H s. specialize (H s). unfold attempt. by destruct (m s). Qed.

(** Calls below, by their effect on the record. *)
Lemma bal_lift {A} d (m : M W A) k :
  (forall v, v <> 0 -> d v = 0) \/ (forall w e w', m w <> Fail e w') -> (forall a v, v <> 0 -> k a v = 0) ->
  bal d (low (lift m)) k.
Proof.
  intros Hd Hk s. unfold low, lift, zoom, lowL, wL. cbn [lget lset]. destruct (m (v_w s).1) as [a w|e w| | |] eqn:E; try done.
  - intros v Hv. rewrite Hk by done. unfold held. simpl. lia.
  - intros v Hv. destruct Hd as [Hd|Hd]; [|by destruct (Hd _ _ _ E)]. rewrite Hd by done. unfold held. simpl. lia.
Qed.

Lemma low_bind {A B} (m : M LW A) (f : A -> M LW B) s : low (m ≫= f) s = (low m ≫= fun a => low (f a)) s.
Proof. unfold low, zoom, mbind, M_bind, wL. cbn [lget lset]. by destruct (m (v_w s)). Qed.

Lemma bal_low_bind {A B} d (m : M LW A) (f : A -> M LW B) k : bal d (low m ≫= fun a => low (f a)) k -> bal d (low (m ≫= f)) k.
Proof. intros H s. rewrite low_bind. apply H. Qed.

Lemma bal_note d e k :
  (forall a v, v <> 0 -> k a v = match e with Got x => one x v | Gave x => - one x v end) -> bal d (low (note e)) k.
Proof.
  intros Hk s. unfold low, note, modify, zoom, wL. cbn [lget lset]. intros v Hv. rewrite Hk by done. unfold held. cbn [v_w set_w snd balance v_cwd v_bootfs].
  destruct e; lia.
Qed.

Lemma bal_low_ret {A} d (a : A) k : (forall v, v <> 0 -> k a v = 0) -> bal d (low (mret a)) k.
Proof. intros H s v Hv. rewrite H by done. unfold held. simpl. lia. Qed.

(** The current directory is replaced. *)
Lemma bal_swap_cwd {A} d x (f : Z -> M (vfs LW) A) k :
  (forall old, bal (fun v => d v - (one old v - one x v)) (f old) (fun a v => k a v - (one old v - one x v))) ->
  bal d (old ← gets v_cwd; modify (set_cwd x) ;; f old) k.
Proof.
  intros Hf s. rewrite (bind_Done _ _ s (v_cwd s) s) by done. rewrite (bind_Done _ _ s tt (set_cwd x s)) by done.
  specialize (Hf (v_cwd s) (set_cwd x s)). destruct (f (v_cwd s) (set_cwd x s)); try done;
    intros v Hv; rewrite Hf by done; unfold held; cbn [v_w v_cwd v_bootfs set_cwd]; lia.
Qed.

Lemma bal_swap_bootfs {A} d x (f : Z -> M (vfs LW) A) k :
  (forall old, bal (fun v => d v - (one old v - one x v)) (f old) (fun a v => k a v - (one old v - one x v))) ->
  bal d (old ← gets v_bootfs; modify (set_bootfs x) ;; f old) k.
Proof.
  intros Hf s. rewrite (bind_Done _ _ s (v_bootfs s) s) by done. rewrite (bind_Done _ _ s tt (set_bootfs x s)) by done.
  specialize (Hf (v_bootfs s) (set_bootfs x s)). destruct (f (v_bootfs s) (set_bootfs x s)); try done;
    intros v Hv; rewrite Hf by done; unfold held; cbn [v_w v_cwd v_bootfs set_bootfs]; lia.
Qed.

Lemma one_zero v : v <> 0 -> one 0 v = 0.
Proof. intros. unfold one. by rewrite decide_False. Qed.

End logged.

Section accounts.
Context {W : Type} `{!FileSystems W, !VoidOps W}.

Abbreviation LW := (W * list event)%type.
Abbreviation nothing := (fun _ _ => 0).

Lemma bal_incref d v k : (forall a x, x <> 0 -> k a x = one v x) -> bal d (low (W := LW) (VOP_INCREF v)) k.
Proof.
  intros Hk. apply bal_low_bind. eapply bal_bind; [apply (bal_lift _ _ nothing); [right; apply void_incref|done]|].
  intros []. apply bal_note. intros a x Hx. rewrite Hk by done. lia.
Qed.

Lemma bal_decref d v k : (forall a x, x <> 0 -> k a x = - one v x) -> bal d (low (W := LW) (VOP_DECREF v)) k.
Proof.
  intros Hk. apply bal_low_bind. eapply bal_bind; [apply (bal_lift _ _ nothing); [right; apply void_decref|done]|].
  intros []. apply bal_note. intros a x Hx. rewrite Hk by done. lia.
Qed.

Lemma bal_got d (m : M W Z) k :
  (forall v, v <> 0 -> d v = 0) \/ (forall w e w', m w <> Fail e w') -> (forall a x, x <> 0 -> k a x = one a x) ->
  bal d (low (W := LW) (lift_got m)) k.
Proof.
  intros Hd Hk. apply bal_low_bind. eapply bal_bind; [by apply (bal_lift _ _ nothing)|].
  intros a. apply bal_low_bind. eapply bal_bind; [apply (bal_note _ _ (fun _ x => one a x)); done|].
  intros []. apply bal_low_ret. intros x Hx. rewrite Hk by done. lia.
Qed.

Lemma bal_lookparent_op d v p n k :
  (forall v, v <> 0 -> d v = 0) -> (forall a x, x <> 0 -> k a x = one a.1 x) ->
  bal d (low (W := LW) (VOP_LOOKPARENT v p n)) k.
Proof.
  intros Hd Hk. apply bal_low_bind. eapply bal_bind; [apply (bal_lift _ _ nothing); [by left|done]|].
  intros a. apply bal_low_bind. eapply bal_bind; [apply (bal_note _ _ (fun _ x => one a.1 x)); done|].
  intros []. apply bal_low_ret. intros x Hx. rewrite Hk by done. lia.
Qed.

Lemma bal_if {A} d (P : Prop) `{!Decision P} (m1 m2 : M (vfs LW) A) k :
  bal d m1 k -> bal d m2 k -> bal d (if decide P then m1 else m2) k.
Proof. intros H1 H2. by case_decide. Qed.

(** A computation that neither fails nor changes the world, the two vnodes aside. *)
Lemma bal_same {A} d (m : M (vfs LW) A) k :
  (forall s, match m s with Done _ s' => s' = s | Fail _ _ => False | _ => True end) ->
  (forall a v, v <> 0 -> k a v = 0) -> bal d m k.
Proof.
  intros Hm Hk s. specialize (Hm s). destruct (m s); try done. subst. intros v Hv. rewrite Hk by done. lia.
Qed.

Lemma bal_getdev d i k : (forall a v, v <> 0 -> k a v = 0) -> bal d (getdev (W := LW) i) k.
Proof.
  apply bal_same. intros s. unfold getdev, array_getguy, getA, zoom, devsL. munfold. cbn [lget lset].
  destruct (bool_decide (num _ <= max _)); [|done]. destruct (bool_decide (0 <= i /\ _)); [|done].
  destruct (zlookup _ i) as [[p|]|]; try done.
  by destruct s.
Qed.

Lemma bal_numdevs d k : (forall a v, v <> 0 -> k a v = 0) -> bal d (numdevs (W := LW)) k.
Proof. apply bal_same. intros s. by destruct s. Qed.

Lemma bal_get_kd d p k : (forall a v, v <> 0 -> k a v = 0) -> bal d (get_kd (W := LW) p) k.
Proof. apply bal_same. intros s. unfold get_kd. munfold. by destruct (v_kds (id s) !! p). Qed.

End accounts.

(** Solve the arithmetic of the accounts. *)
Ltac accounts := intros; cbn beta iota; rewrite ?one_zero by done; lia.

(** One call of the layer below. *)
Ltac bal_prim :=
  lazymatch goal with
  | |- bal _ (low (VOP_INCREF _)) _ => apply bal_incref; accounts
  | |- bal _ (low (VOP_DECREF _)) _ => apply bal_decref; accounts
  | |- bal _ (low (VOP_LOOKPARENT _ _ _)) _ => apply bal_lookparent_op; [accounts|accounts]
  | |- bal _ (low (VOP_LOOKUP _ _)) _ => apply bal_got; [left; accounts|accounts]
  | |- bal _ (low (VOP_CREAT _ _ _)) _ => apply bal_got; [left; accounts|accounts]
  | |- bal _ (low (FSOP_GETROOT _)) _ => apply bal_got; [right; apply void_getroot|accounts]
  | |- bal _ (low _) _ => apply bal_lift; [first [left; accounts | right; first [apply void_acquire | apply void_release | apply void_getvolname | apply void_vn_fs | apply void_incopen | apply void_decopen]]|accounts]
  | |- bal _ (mret _) _ => apply bal_ret; accounts
  | |- bal _ (fail _) _ => apply bal_fail; accounts
  | |- bal _ (gets _) _ => apply bal_gets; accounts
  | |- bal _ (kassert _) _ => apply bal_assert; accounts
  | |- bal _ (getdev _) _ => apply bal_getdev; accounts
  | |- bal _ numdevs _ => apply bal_numdevs; accounts
  | |- bal _ (get_kd _) _ => apply bal_get_kd; accounts
  end.

(** The same with the effect read off the call. *)
Ltac bal_call :=
  lazymatch goal with
  | |- bal _ (low (VOP_INCREF _)) _ => eapply bal_incref; intros; reflexivity
  | |- bal _ (low (VOP_DECREF _)) _ => eapply bal_decref; intros; reflexivity
  | |- bal _ (low (VOP_LOOKPARENT _ _ _)) _ => eapply bal_lookparent_op; [accounts|intros; reflexivity]
  | |- bal _ (low (VOP_LOOKUP _ _)) _ => eapply bal_got; [left; accounts|intros; reflexivity]
  | |- bal _ (low (VOP_CREAT _ _ _)) _ => eapply bal_got; [left; accounts|intros; reflexivity]
  | |- bal _ (low (FSOP_GETROOT _)) _ => eapply bal_got; [right; apply void_getroot|intros; reflexivity]
  | |- bal _ (low _) _ => eapply bal_lift; [first [left; accounts | right; first [apply void_acquire | apply void_release | apply void_getvolname | apply void_vn_fs | apply void_incopen | apply void_decopen]]|intros; reflexivity]
  | |- bal _ (mret _) _ => eapply bal_ret; intros; reflexivity
  | |- bal _ (fail _) _ => eapply bal_fail; accounts
  | |- bal _ (gets _) _ => eapply bal_gets; intros; reflexivity
  | |- bal _ (kassert _) _ => eapply bal_assert; intros; reflexivity
  | |- bal _ (getdev _) _ => eapply bal_getdev; intros; reflexivity
  | |- bal _ numdevs _ => eapply bal_numdevs; intros; reflexivity
  | |- bal _ (get_kd _) _ => eapply bal_get_kd; intros; reflexivity
  end.

(** The next call of a sequence. *)
Ltac bal_next := eapply bal_bind; [bal_call|intros ?; cbn beta].

Section discipline.
Context {W : Type} `{!FileSystems W, !VoidOps W}.

Abbreviation LW := (W * list event)%type.

(** The effect of a computation that returns a vnode, or an error and a vnode. *)
Definition res_ref {E} (r : E + Z) : Z -> Z := match r with inl _ => fun _ => 0 | inr v => one v end.

Lemma bal_acquire d k : (forall a v, v <> 0 -> k a v = 0) -> bal d (acquire_devs (W := LW)) k.
Proof. intros Hk. unfold acquire_devs. bal_next. apply bal_lift; [right; apply void_acquire|intros; rewrite Hk by done; lia]. Qed.
Lemma bal_release d k : (forall a v, v <> 0 -> k a v = 0) -> bal d (release_devs (W := LW)) k.
Proof. intros Hk. unfold release_devs. bal_next. apply bal_lift; [right; apply void_release|intros; rewrite Hk by done; lia]. Qed.
Lemma bal_acquire_boot d k : (forall a v, v <> 0 -> k a v = 0) -> bal d (acquire_boot (W := LW)) k.
Proof. intros Hk. unfold acquire_boot. bal_next. apply bal_lift; [right; apply void_acquire|intros; rewrite Hk by done; lia]. Qed.
Lemma bal_release_boot d k : (forall a v, v <> 0 -> k a v = 0) -> bal d (release_boot (W := LW)) k.
Proof. intros Hk. unfold release_boot. bal_next. apply bal_lift; [right; apply void_release|intros; rewrite Hk by done; lia]. Qed.

(** The result of [attempt] handed on. *)
Lemma bal_result {A} d (r : errno + A) k :
  (forall v, v <> 0 -> match r with inl _ => d v = 0 | inr a => k a v = 0 end) ->
  bal d (match r with inl e => fail e | inr a => mret a end : M (vfs LW) A) k.
Proof. intros H. destruct r; [by apply bal_fail|by apply bal_ret]. Qed.

Lemma bal_getroot_at d devname p :
  bal d (getroot_at (W := LW) devname p) (fun r => match r with Some (inr v) => one v | _ => fun _ => 0 end).
Proof.
  unfold getroot_at. bal_next.
  eapply (bal_bind _ _ _ (fun r => match r with Some (inr v) => one v | _ => fun _ => 0 end)).
  - apply bal_if; [bal_next; apply bal_if; [bal_next; bal_prim|bal_prim]|apply bal_if; bal_prim].
  - intros [[e|v]|]; cbn beta iota; [bal_prim|bal_prim|]. apply bal_if; [do 4 bal_next; bal_prim|].
    apply bal_if; [do 2 bal_next; bal_prim|bal_prim].
Qed.

Lemma bal_getroot_loop d n i devname : bal d (getroot_loop (W := LW) n i devname) res_ref.
Proof.
  revert i. induction n as [|n IH]; intros i; cbn [getroot_loop]; [by apply bal_ret|]. bal_next.
  eapply bal_bind; [apply bal_getroot_at|]. intros [[e|v]|]; cbn beta iota; [apply bal_ret; unfold res_ref; accounts..|].
  intros s. specialize (IH (i + 1) s). destruct (getroot_loop _ _ _ s); try done; intros v Hv; rewrite IH by done; lia.
Qed.

Lemma bal_ext {A} d d' (m : M (vfs LW) A) k k' :
  bal d m k -> (forall v, v <> 0 -> d v = d' v) -> (forall a v, v <> 0 -> k a v = k' a v) -> bal d' m k'.
Proof.
  intros H Hd Hk s. specialize (H s). destruct (m s); try done; intros v Hv; rewrite H by done; [rewrite Hk|rewrite Hd]; done.
Qed.

Lemma bal_getroot name : bal (fun _ => 0) (vfs_getroot (W := LW) name) one.
Proof.
  unfold vfs_getroot. eapply bal_bind; [eapply bal_acquire; intros; reflexivity|intros ?; cbn beta]. bal_next.
  eapply bal_bind; [apply bal_getroot_loop|intros r]. eapply bal_bind; [eapply bal_release; intros; reflexivity|intros ?; cbn beta].
  apply bal_result. unfold res_ref. intros v Hv. destruct r; cbn beta iota; lia.
Qed.

Lemma bal_getcurdir : bal (fun _ => 0) (vfs_getcurdir (W := LW)) one.
Proof. unfold vfs_getcurdir. bal_next. apply bal_if; [bal_next; bal_prim|bal_prim]. Qed.

Lemma bal_getdevice path : bal (fun _ => 0) (getdevice (W := LW) path) (fun r => one r.2).
Proof.
  intros s. rewrite getdevice_parse. revert s. change (bal (fun _ => 0) (v ← start_vnode (W := LW) (parse path).1; mret ((parse path).2, v)) (fun r => one r.2)).
  eapply (bal_bind _ _ _ one); [|intros v; apply bal_ret; cbn [snd]; accounts].
  destruct (parse path).1; cbn [start_vnode].
  - apply bal_getcurdir.
  - apply bal_getroot.
  - eapply bal_bind; [eapply bal_acquire_boot; intros; reflexivity|intros ?; cbn beta]. bal_next. apply bal_if.
    + eapply bal_bind; [eapply bal_release_boot; intros; reflexivity|intros ?; cbn beta]. bal_prim.
    + bal_next. eapply bal_bind; [eapply bal_release_boot; intros; reflexivity|intros ?; cbn beta]. bal_prim.
  - eapply bal_bind; [apply bal_getcurdir|intros vn; cbn beta]. do 4 bal_next. bal_prim.
Qed.

Lemma bal_lookup path : bal (fun _ => 0) (vfs_lookup (W := LW) path) one.
Proof.
  unfold vfs_lookup. eapply bal_bind; [apply bal_getdevice|]. intros [p v]; cbn beta iota. apply bal_if; [apply bal_ret; cbn [snd]; accounts|].
  eapply bal_bind; [apply (bal_attempt _ _ one); bal_prim|intros r]. bal_next.
  apply bal_result. intros x Hx. destruct r; cbn [snd]; cbn beta iota; lia.
Qed.

Lemma bal_lookparent path n : bal (fun _ => 0) (vfs_lookparent (W := LW) path n) (fun r => one r.1).
Proof.
  unfold vfs_lookparent. eapply bal_bind; [apply bal_getdevice|]. intros [p v]; cbn beta iota.
  eapply bal_bind; [apply (bal_attempt _ _ (fun r => one r.1)); apply bal_if; bal_prim|intros r]. bal_next.
  apply bal_result. intros x Hx. destruct r; cbn [snd]; cbn beta iota; lia.
Qed.

Lemma bal_in_parent path (m : Z -> str -> M W unit) :
  bal (fun _ => 0) (in_parent (W := LW) path (fun d n => lift (m d n))) (fun _ _ => 0).
Proof.
  unfold in_parent. eapply bal_bind; [apply bal_lookparent|]. intros [dir name]; cbn beta iota.
  eapply bal_bind; [apply (bal_attempt _ _ (fun _ _ => 0)); bal_prim|intros r]. bal_next.
  destruct r as [e|[]]; cbn beta iota; [apply bal_fail|apply bal_ret]; cbn [fst]; accounts.
Qed.

Lemma bal_open path flags : bal (fun _ => 0) (vfs_open (W := LW) path flags) one.
Proof.
  unfold vfs_open. destruct (open_mode flags) as [cw|]; [|bal_prim].
  eapply (bal_bind _ _ _ one).
  { unfold open_vnode. apply bal_if; [|apply bal_lookup]. eapply bal_bind; [apply bal_lookparent|]. intros [dir name]; cbn beta iota.
    eapply bal_bind; [apply (bal_attempt _ _ one); bal_prim|intros r]. bal_next.
    apply bal_result. intros x Hx. destruct r; cbn [fst]; cbn beta iota; lia. }
  intros vn; cbn beta. bal_next. eapply bal_bind; [apply (bal_attempt _ _ (fun _ _ => 0)); bal_prim|intros r].
  destruct r as [e|[]]; cbn beta iota; [bal_next; bal_prim|]. bal_next. apply bal_if; [|bal_prim].
  eapply bal_bind; [apply (bal_attempt _ _ (fun _ _ => 0)); destruct cw; bal_prim|intros r].
  destruct r as [e|[]]; cbn beta iota; [|bal_prim]. do 2 bal_next. bal_prim.
Qed.

Lemma bal_close v : bal (fun _ => 0) (vfs_close (W := LW) v) (fun _ x => - one v x).
Proof. unfold vfs_close. bal_next. bal_prim. Qed.

Lemma bal_drop_both d v1 v2 r k :
  (forall x, x <> 0 -> d x = - one v1 x - one v2 x) -> (forall a x, x <> 0 -> k a x = - one v1 x - one v2 x) ->
  bal d (drop_both (W := LW) v1 v2 r) k.
Proof.
  intros Hd Hk. unfold drop_both. do 2 bal_next. destruct r as [e|[]]; cbn beta iota; [apply bal_fail|apply bal_ret]; intros x Hx;
    [rewrite Hd by done|rewrite Hk by done]; lia.
Qed.

Lemma bal_same_fs d v1 v2 k : (forall a x, x <> 0 -> k a x = 0) -> bal d (same_fs (W := LW) v1 v2) k.
Proof. intros Hk. unfold same_fs. do 2 bal_next. apply bal_ret. intros x Hx. rewrite Hk by done. lia. Qed.

Lemma bal_rename p q : bal (fun _ => 0) (vfs_rename (W := LW) p q) (fun _ _ => 0).
Proof.
  unfold vfs_rename. eapply bal_bind; [apply bal_lookparent|]. intros [d1 n1]; cbn beta iota.
  eapply bal_bind; [apply bal_attempt, bal_lookparent|]. intros [e|[d2 n2]]; cbn beta iota; cbn [fst]; [bal_next; bal_prim|].
  eapply bal_bind; [eapply bal_same_fs; intros; reflexivity|intros same; cbn beta]. destruct same.
  - eapply bal_bind; [apply (bal_attempt _ _ (fun _ _ => 0)); bal_prim|intros r].
    apply bal_drop_both; intros; destruct r; cbn beta iota; lia.
  - apply bal_drop_both; accounts.
Qed.

Lemma bal_link p q : bal (fun _ => 0) (vfs_link (W := LW) p q) (fun _ _ => 0).
Proof.
  unfold vfs_link. eapply bal_bind; [apply bal_lookup|]. intros f; cbn beta iota.
  eapply bal_bind; [apply bal_attempt, bal_lookparent|]. intros [e|[d2 n2]]; cbn beta iota; cbn [fst]; [bal_next; bal_prim|].
  eapply bal_bind; [eapply bal_same_fs; intros; reflexivity|intros same; cbn beta]. destruct same.
  - eapply bal_bind; [apply (bal_attempt _ _ (fun _ _ => 0)); bal_prim|intros r].
    apply bal_drop_both; intros; destruct r; cbn beta iota; lia.
  - apply bal_drop_both; accounts.
Qed.

(** A vnode that is given up when it is one. *)
Lemma bal_drop d v k : (forall a x, x <> 0 -> k a x = - one v x) -> bal d (if decide (v <> 0) then low (W := LW) (VOP_DECREF v) else mret tt) k.
Proof.
  intros Hk. destruct (decide (v <> 0)) as [D|D]; [by apply bal_decref|]. assert (v = 0) as -> by lia.
  apply bal_ret. intros x Hx. rewrite Hk by done. rewrite one_zero by done. lia.
Qed.

Lemma bal_setcurdir dir : bal (fun _ => 0) (vfs_setcurdir (W := LW) dir) (fun _ _ => 0).
Proof.
  unfold vfs_setcurdir. eapply bal_bind; [bal_call|intros vtype; cbn beta]. destruct (S_ISDIR vtype); [|bal_prim]. bal_next.
  apply bal_swap_cwd. intros old. apply bal_drop. accounts.
Qed.

Lemma bal_clearcurdir : bal (fun _ => 0) (vfs_clearcurdir (W := LW)) (fun _ _ => 0).
Proof. apply bal_swap_cwd. intros old. apply bal_drop. accounts. Qed.

Lemma bal_change_bootfs d v k :
  (forall a x, x <> 0 -> k a x = - one v x) -> bal d (change_bootfs (W := LW) v) k.
Proof.
  intros Hk. unfold change_bootfs. eapply bal_bind; [eapply bal_acquire_boot; intros; reflexivity|intros ?; cbn beta].
  apply bal_swap_bootfs. intros old. eapply bal_bind; [eapply bal_release_boot; intros; reflexivity|intros ?; cbn beta].
  apply bal_drop. intros b x Hx. rewrite Hk by done. lia.
Qed.

Lemma bal_chdir path : bal (fun _ => 0) (vfs_chdir (W := LW) path) (fun _ _ => 0).
Proof.
  unfold vfs_chdir. eapply bal_bind; [apply bal_lookup|intros vn; cbn beta].
  eapply bal_bind; [apply bal_attempt, bal_setcurdir|intros r]. bal_next.
  apply bal_result. intros x Hx. destruct r; cbn beta iota; lia.
Qed.

Lemma bal_setbootfs name : bal (fun _ => 0) (vfs_setbootfs (W := LW) name) (fun _ _ => 0).
Proof.
  unfold vfs_setbootfs. eapply (bal_bind _ _ _ (fun _ _ => 0)).
  { destruct (strchr _ _); [apply bal_if; bal_prim|bal_prim]. }
  intros t; cbn beta. eapply bal_bind; [eapply bal_ext; [apply bal_chdir|accounts|intros; reflexivity]|intros ?; cbn beta].
  eapply bal_bind; [eapply bal_ext; [apply bal_getcurdir|accounts|intros; reflexivity]|intros v; cbn beta].
  apply bal_change_bootfs. accounts.
Qed.

(** ** The table of devices *)

Lemma bal_put_kd d p kd k : (forall a v, v <> 0 -> k a v = 0) -> bal d (put_kd (W := LW) p kd) k.
Proof. intros Hk s v Hv. rewrite Hk by done. unfold held. cbn. lia. Qed.

(** The sequence of two calls that get nothing. *)
Lemma bal_seq {A B} (m : M (vfs LW) A) (f : A -> M (vfs LW) B) :
  bal (fun _ => 0) m (fun _ _ => 0) -> (forall a, bal (fun _ => 0) (f a) (fun _ _ => 0)) -> bal (fun _ => 0) (m ≫= f) (fun _ _ => 0).
Proof. intros Hm Hf. eapply bal_bind; [exact Hm|intros a; exact (Hf a)]. Qed.

Lemma bal_locked {A} (m : M (vfs LW) A) : bal (fun _ => 0) m (fun _ _ => 0) -> bal (fun _ => 0) (locked m) (fun _ _ => 0).
Proof.
  intros Hm. unfold locked. eapply bal_bind; [eapply bal_acquire; intros; reflexivity|intros ?; cbn beta].
  eapply (bal_bind _ _ _ (fun _ _ => 0)); [eapply bal_ext; [apply bal_attempt, Hm|accounts|intros [] **; cbn beta iota; lia]|intros r; cbn beta].
  eapply bal_bind; [eapply bal_release; intros; reflexivity|intros ?; cbn beta]. apply bal_result. intros v Hv. destruct r; lia.
Qed.

Lemma bal_getdevname_loop d n f k : (forall a v, v <> 0 -> k a v = 0) -> forall i, bal d (getdevname_loop (W := LW) n i f) k.
Proof.
  intros Hk. induction n as [|n IH]; intros i; cbn [getdevname_loop]; [apply bal_ret; intros; by apply Hk|]. do 2 bal_next.
  apply bal_if; [apply bal_ret; intros; rewrite Hk by done; lia|]. eapply bal_ext; [apply IH|accounts|intros; cbn beta; rewrite Hk by done; lia].
Qed.

Lemma bal_getdevname d f k : (forall a v, v <> 0 -> k a v = 0) -> bal d (vfs_getdevname (W := LW) f) k.
Proof.
  intros Hk. unfold vfs_getdevname. bal_next. eapply bal_bind; [eapply bal_acquire; intros; reflexivity|intros ?; cbn beta]. bal_next.
  eapply bal_bind; [apply (bal_getdevname_loop _ _ _ (fun _ _ => 0)); done|intros r; cbn beta].
  eapply bal_bind; [eapply bal_release; intros; reflexivity|intros ?; cbn beta]. apply bal_ret. intros; rewrite Hk by done; lia.
Qed.

Lemma bal_sync_loop n : forall i, bal (fun _ => 0) (sync_loop (W := LW) n i) (fun _ _ => 0).
Proof.
  induction n as [|n IH]; intros i; cbn [sync_loop]; [bal_prim|]. apply bal_seq; [bal_prim|intros p]. apply bal_seq; [bal_prim|intros kd].
  apply bal_seq; [|intros _; apply IH]. apply bal_if; [|bal_prim].
  eapply (bal_bind _ _ _ (fun _ _ => 0)); [eapply bal_ext; [apply (bal_attempt _ _ (fun _ _ => 0)); bal_prim|accounts|intros [] **; cbn beta iota; lia]|intros; cbn beta; bal_prim].
Qed.

Lemma bal_sync : bal (fun _ => 0) (vfs_sync (W := LW)) (fun _ _ => 0).
Proof.
  unfold vfs_sync. apply bal_seq; [apply bal_acquire; accounts|intros ?]. apply bal_seq; [bal_prim|intros num].
  apply bal_seq; [apply bal_sync_loop|intros ?]. apply bal_release; accounts.
Qed.

Lemma bal_findmount_loop n name : forall i, bal (fun _ => 0) (findmount_loop (W := LW) n i name) (fun _ _ => 0).
Proof.
  induction n as [|n IH]; intros i; cbn [findmount_loop]; [bal_prim|]. apply bal_seq; [bal_prim|intros p]. apply bal_seq; [bal_prim|intros kd].
  apply bal_if; [apply IH|]. apply bal_if; [bal_prim|apply IH].
Qed.

Lemma bal_findmount name : bal (fun _ => 0) (findmount (W := LW) name) (fun _ _ => 0).
Proof.
  unfold findmount. do 3 (apply bal_seq; [bal_prim|intros ?]). apply bal_seq; [bal_prim|intros num].
  apply bal_seq; [apply bal_findmount_loop|intros []; bal_prim].
Qed.

Lemma bal_mount name (mountfunc : Z -> M W Z) : bal (fun _ => 0) (vfs_mount (W := LW) name (fun dev => lift (mountfunc dev))) (fun _ _ => 0).
Proof.
  apply bal_locked. unfold mount_body. apply bal_seq; [apply bal_findmount|intros p]. apply bal_seq; [bal_prim|intros kd].
  apply bal_if; [bal_prim|]. do 4 (apply bal_seq; [bal_prim|intros ?]). apply bal_seq; [apply bal_put_kd; accounts|intros ?].
  apply bal_seq; [bal_prim|intros ?]. bal_prim.
Qed.

Lemma bal_unmount name : bal (fun _ => 0) (vfs_unmount (W := LW) name) (fun _ _ => 0).
Proof.
  apply bal_locked. apply bal_seq; [apply bal_findmount|intros p]. apply bal_seq; [bal_prim|intros kd].
  apply bal_if; [bal_prim|]. do 4 (apply bal_seq; [bal_prim|intros ?]). apply bal_put_kd; accounts.
Qed.

Lemma bal_try {A} (m : M (vfs LW) A) : bal (fun _ => 0) m (fun _ _ => 0) -> bal (fun _ => 0) (attempt m) (fun _ _ => 0).
Proof. intros Hm. eapply bal_ext; [apply bal_attempt, Hm|accounts|intros [] **; cbn beta iota; lia]. Qed.

Lemma bal_unmountall_loop n : forall i, bal (fun _ => 0) (unmountall_loop (W := LW) n i) (fun _ _ => 0).
Proof.
  induction n as [|n IH]; intros i; cbn [unmountall_loop]; [bal_prim|]. apply bal_seq; [bal_prim|intros p]. apply bal_seq; [|intros _; apply IH].
  unfold unmount_one. apply bal_seq; [bal_prim|intros kd]. do 2 (apply bal_if; [bal_prim|]).
  apply bal_seq; [apply bal_try; bal_prim|intros r]. apply bal_seq; [destruct r; [apply bal_try; bal_prim|bal_prim]|intros q].
  destruct q; [bal_prim|]. apply bal_seq; [apply bal_try; bal_prim|intros u']. destruct u'; [bal_prim|apply bal_put_kd; accounts].
Qed.

Lemma bal_unmountall : bal (fun _ => 0) (vfs_unmountall (W := LW)) (fun _ _ => 0).
Proof.
  unfold vfs_unmountall. apply bal_seq; [apply bal_acquire; accounts|intros ?]. apply bal_seq; [bal_prim|intros num].
  apply bal_seq; [apply bal_unmountall_loop|intros ?]. apply bal_release; accounts.
Qed.

(** ** Adding to the table *)

Lemma bal_badnames_loop n n1 n2 n3 : forall i, bal (fun _ => 0) (badnames_loop (W := LW) n i n1 n2 n3) (fun _ _ => 0).
Proof.
  induction n as [|n IH]; intros i; cbn [badnames_loop]; [bal_prim|]. apply bal_seq; [bal_prim|intros p]. apply bal_seq; [bal_prim|intros kd].
  apply bal_seq; [apply bal_if; [apply bal_seq; [bal_prim|intros ?; bal_prim]|bal_prim]|intros b]. destruct b; [bal_prim|].
  destruct (_ || _); [bal_prim|apply IH].
Qed.

(** A call on the array of devices leaves the record alone. *)
Lemma bal_devs {A} (m : M (LW * array Z) A) : keeps_fn (fun x => x.1.2) m -> bal (fun _ => 0) (zoom devsL m) (fun _ _ => 0).
Proof.
  intros Hm s. unfold zoom. specialize (Hm (lget devsL s)). destruct (m (lget devsL s)) as [a x|e x| | |]; try done;
    intros v Hv; unfold held; cbn [devsL lset lget set_knowndevs set_w v_w v_cwd v_bootfs fst snd] in *; rewrite Hm; lia.
Qed.

Lemma array_add_log p : keeps_fn (fun x : LW * array Z => x.1.2) (array_add p).
Proof.
  assert (Hh : forall A (m : M W A), keeps_fn (fun x : LW * array Z => x.1.2) (zoom heapL (lift m))).
  { intros A m [[w l] a]. unfold zoom, lift. cbn [heapL lowL lget lset fst snd]. unfold zoom. cbn. by destruct (m w). }
  assert (Hm : forall f, keeps_fn (fun x : LW * array Z => x.1.2) (modA f)) by done.
  assert (Hg : forall A (f : array Z -> A), keeps_fn (fun x : LW * array Z => x.1.2) (getA f)) by (intros A f; apply keeps_gets).
  assert (Ha : forall n, keeps_fn (fun x : LW * array Z => x.1.2) (zoom heapL (kmalloc n))) by (intros n; apply (Hh _ (kmalloc n))).
  assert (Hf : forall q, keeps_fn (fun x : LW * array Z => x.1.2) (zoom heapL (kfree q))) by (intros q; apply (Hh _ (kfree q))).
  unfold array_add, array_setsize, array_preallocate. keeps_fn; done.
Qed.

Lemma bal_add_checked p n1 n2 n3 : bal (fun _ => 0) (add_checked (W := LW) p n1 n2 n3) (fun _ _ => 0).
Proof.
  unfold add_checked. apply bal_seq; [|intros b; destruct b; [bal_prim|apply bal_devs, array_add_log]].
  unfold badnames. do 4 (apply bal_seq; [bal_prim|intros ?]). apply bal_badnames_loop.
Qed.

(** A call after which one more reference is held, to a vnode [x] with [P x], or at most one when it fails. *)
Definition adds {A} (P : Z -> vfs LW -> Prop) (m : M (vfs LW) A) : Prop := forall s,
  match m s with
  | Done _ s' => exists x, P x s' /\ forall v, v <> 0 -> held s' v = held s v + one x v
  | Fail _ s' => exists x, forall v, v <> 0 -> held s' v = held s v + one x v
  | _ => True
  end.

Lemma adds_bind {A B} P (m : M (vfs LW) A) (f : A -> M (vfs LW) B) :
  bal (fun _ => 0) m (fun _ _ => 0) -> (forall a, adds P (f a)) -> adds P (m ≫= f).
Proof.
  intros Hm Hf s. specialize (Hm s). unfold mbind, M_bind. destruct (m s) as [a s1|e s1| | |]; try done.
  - specialize (Hf a s1). destruct (f a s1); try done.
    + destruct Hf as (x & HP & Hx). exists x. split; [done|]. intros v Hv. rewrite Hx, Hm by done. lia.
    + destruct Hf as (x & Hx). exists x. intros v Hv. rewrite Hx, Hm by done. lia.
  - exists 0. intros v Hv. rewrite Hm, one_zero by done. lia.
Qed.

Lemma puke_fails ps (s : vfs LW) :
  match puke (A := unit) ps s with Done _ _ => False | Fail _ s' => forall v, v <> 0 -> held s' v = held s v | _ => True end.
Proof.
  revert s. induction ps as [|p ps IH]; intros s; [done|]. unfold puke. cbn [foldr]. fold (puke (W := LW) (A := unit) ps).
  assert (Hb : bal (fun _ => 0) (if decide (p <> 0) then low (W := LW) (kfree p) else mret tt) (fun _ _ => 0)) by (apply bal_if; bal_prim).
  match type of Hb with bal _ ?m _ => set (m0 := m) in * end.
  specialize (Hb s). unfold mbind, M_bind. destruct (m0 s) as [a s1|e s1| | |]; try done; [|intros v Hv; rewrite Hb by done; lia].
  specialize (IH s1). destruct (puke ps s1); try done. intros v Hv. rewrite IH, Hb by done. lia.
Qed.

Lemma adds_puke P ps : adds P (puke (W := LW) ps : M _ unit).
Proof.
  intros s. pose proof (puke_fails ps s) as H. destruct (puke ps s); try done. exists 0. intros v Hv. rewrite H, one_zero by done. lia.
Qed.

(** The vnode is in a structure of the table's. *)
Definition recorded (x : Z) (s : vfs LW) : Prop := exists p kd, v_kds s !! p = Some kd /\ kd_vnode kd = x.

Lemma doadd_end kdp kd f (name : str) raw s :
  match (put_kd (W := LW) kdp kd ;; volname ← (if decide (f <> 0) then low (FSOP_GETVOLNAME f) else mret None);
         locked (add_checked kdp name raw volname)) s with
  | Done _ s' => recorded (kd_vnode kd) s' /\ forall v, v <> 0 -> held s' v = held s v
  | Fail _ s' => forall v, v <> 0 -> held s' v = held s v
  | _ => True
  end.
Proof.
  set (m := volname ← _; locked _). rewrite (bind_Done _ _ s tt (set_kds (<[kdp := kd]> (v_kds s)) s)) by done. set (s1 := set_kds _ s).
  assert (Hb : bal (fun _ => 0) m (fun _ _ => 0)).
  { apply bal_seq; [apply bal_if; bal_prim|intros vol]. apply bal_locked, bal_add_checked. }
  assert (Hk : keeps_fn v_kds m).
  { assert (Hl : forall A (m : M LW A), keeps_fn v_kds (low m)) by (intros; by apply keeps_zoom).
    assert (Hd : forall A (m : M (LW * array Z) A), keeps_fn v_kds (zoom devsL m)) by (intros; by apply keeps_zoom).
    assert (Hn : forall n i n1 n2 n3, keeps_fn v_kds (badnames_loop (W := LW) n i n1 n2 n3)).
    { induction n as [|n IH]; intros; cbn [badnames_loop]; unfold getdev, get_kd; keeps_fn. }
    assert (Hc : forall vol, keeps_fn v_kds (add_checked (W := LW) kdp name raw vol)) by (intros; unfold add_checked, badnames, numdevs; keeps_fn).
    unfold m, locked, acquire_devs, release_devs. keeps_fn. }
  specialize (Hb s1). specialize (Hk s1). assert (Hh : forall v, held s1 v = held s v) by done.
  destruct (m s1) as [a s2|e s2| | |]; try done; [split|]; [exists kdp, kd; rewrite Hk; split; [apply lookup_insert_eq|done]|..];
    intros v Hv; rewrite Hb, Hh by done; lia.
Qed.

Lemma adds_doadd name mountable dev f : adds recorded (vfs_doadd (W := LW) name mountable dev f).
Proof.
  unfold vfs_doadd. apply adds_bind; [unfold kstrdup; bal_prim|intros nm]. case_decide; [apply adds_puke|].
  apply adds_bind; [destruct mountable; [unfold mkrawname|]; bal_prim|intros raw]. case_decide; [apply adds_puke|].
  set (k := fun vn : Z => _). intros s.
  assert (Hv : bal (fun _ => 0) (low (W := LW) (dev_create_vnode dev)) one) by (apply bal_got; [left; accounts|accounts]).
  specialize (Hv s). unfold mbind at 1, M_bind at 1. destruct (low (dev_create_vnode dev) s) as [vn s1|e s1| | |]; try done;
    [|exists 0; intros v Hz; rewrite Hv, one_zero by done; lia].
  assert (Hk : match k vn s1 with Done _ s' => recorded vn s' /\ (forall v, v <> 0 -> held s' v = held s1 v)
    | Fail _ s' => forall v, v <> 0 -> held s' v = held s1 v | _ => True end).
  { unfold k. case_decide; [pose proof (puke_fails [nm; raw] s1); by destruct (puke _ _)|].
    assert (Hb : bal (fun _ => 0) (low (W := LW) (kmalloc sizeof_knowndev)) (fun _ _ => 0)) by bal_prim. specialize (Hb s1).
    unfold mbind at 1, M_bind at 1. destruct (low (kmalloc sizeof_knowndev) s1) as [p s2|e s2| | |]; try done; [|intros v Hz; rewrite Hb by done; lia].
    assert (H2 : forall s' : vfs LW, (forall v, v <> 0 -> held s' v = held s2 v) -> forall v, v <> 0 -> held s' v = held s1 v)
      by (intros s' H' v Hz; rewrite H', Hb by done; lia).
    case_decide; [pose proof (puke_fails [nm; raw; vn] s2); destruct (puke _ _); try done; by apply H2|].
    match goal with |- context [(put_kd p ?kd ;; _) s2] => pose proof (doadd_end p kd f name (if mountable then Some (name ++ raw_suffix) else None) s2) as He end.
    match type of He with match ?x with _ => _ end => destruct x as [a s3|e s3| | |] end; try done; [destruct He as [Hr He]; split; [exact Hr|]|]; by apply H2. }
  fold (k vn s1). destruct (k vn s1); try done; [destruct Hk as [Hr Hk]; exists vn; split; [done|]|exists vn]; intros v Hz; rewrite Hk, Hv by done; lia.
Qed.

(** ** Calls with a uio *)

(** [bal] with a uio beside the state. *)
Definition balx {A} (d : Z -> Z) (m : M (vfs LW * uio) A) (k : A -> Z -> Z) : Prop := forall s u,
  match m (s, u) with
  | Done a (s', _) => forall v, v <> 0 -> held s' v = held s v + k a v
  | Fail _ (s', _) => forall v, v <> 0 -> held s' v = held s v + d v
  | _ => True
  end.

Lemma balx_bind {A B} d (m : M (vfs LW * uio) A) (f : A -> M (vfs LW * uio) B) k1 k2 :
  balx d m k1 -> (forall a, balx (fun v => d v - k1 a v) (f a) (fun b v => k2 b v - k1 a v)) -> balx d (m ≫= f) k2.
Proof.
  intros Hm Hf s u. specialize (Hm s u). unfold mbind, M_bind. destruct (m (s, u)) as [a [s1 u1]| | | |]; try done.
  specialize (Hf a s1 u1). destruct (f a (s1, u1)) as [? []|? []| | |]; try done; intros v Hv; rewrite Hf, Hm by done; lia.
Qed.

Lemma balx_up {A} d (m : M (vfs LW) A) k : bal d m k -> balx d (up m) k.
Proof. intros Hm s u. specialize (Hm s). unfold up, zoom. cbn [vfsL lget lset fst snd]. by destruct (m s). Qed.

Lemma balx_attempt {A} d (m : M (vfs LW * uio) A) k :
  balx (fun _ => 0) m k -> balx d (attempt m) (fun r v => match r with inl _ => 0 | inr a => k a v end).
Proof. intros H s u. specialize (H s u). unfold attempt. by destruct (m (s, u)) as [? []|? []| | |]. Qed.

Lemma balx_low (m : M (W * uio) unit) : balx (fun _ => 0) (zoom (wuioL (W := LW)) (zoom uioL m)) (fun _ _ => 0).
Proof.
  intros s u. unfold zoom. cbn [wuioL uioL lget lset fst snd]. destruct (m _) as [? []|? []| | |]; try done; intros v Hv; unfold held; cbn; lia.
Qed.

Lemma balx_move name : balx (fun _ => 0) (move_str (W := LW) name) (fun _ _ => 0).
Proof.
  intros s u. unfold move_str. destruct (uiomove _ _ _) as [? [? []]|? [? []]| | |]; try done; intros v Hv; unfold held; cbn; lia.
Qed.

(** A step that reads the state. *)
Lemma balx_look {A} d (m : M (vfs LW * uio) A) k :
  (forall x, match m x with Done _ x' => x' = x | Fail _ _ => False | _ => True end) -> (forall a v, v <> 0 -> k a v = 0) -> balx d m k.
Proof. intros Hm Hk s u. specialize (Hm (s, u)). destruct (m (s, u)) as [? []| | | |]; try done. injection Hm as -> ->. intros v Hv. rewrite Hk by done. lia. Qed.

Lemma balx_end d (r : errno + unit) (k : unit -> Z -> Z) :
  (forall v, v <> 0 -> match r with inl _ => d v = 0 | inr a => k a v = 0 end) ->
  balx d (match r with inl e => fail e | inr _ => mret tt end) k.
Proof. intros H s u. destruct r as [e|[]]; intros v Hv; rewrite H by done; lia. Qed.

Lemma balx_readlink path : balx (fun _ => 0) (vfs_readlink (W := LW) path) (fun _ _ => 0).
Proof.
  unfold vfs_readlink. eapply balx_bind; [apply balx_up, bal_lookup|intros vn; cbn beta].
  eapply balx_bind; [apply balx_attempt, balx_low|intros r; cbn beta].
  eapply (balx_bind _ _ _ (fun _ x => - one vn x)); [apply balx_up; bal_prim|intros ?; cbn beta].
  apply balx_end. intros v Hv. destruct r; lia.
Qed.

Lemma balx_getcwd : balx (fun _ => 0) (vfs_getcwd (W := LW)) (fun _ _ => 0).
Proof.
  assert (Ha : forall d b, balx d (kassert b) (fun _ _ => 0)) by (intros d b; apply balx_look; [intros x; unfold kassert; by destruct b|done]).
  unfold vfs_getcwd. eapply (balx_bind _ _ _ (fun _ _ => 0)); [by apply balx_look|intros x; cbn beta].
  eapply balx_bind; [apply Ha|intros ?; cbn beta].
  eapply (balx_bind _ _ _ one); [eapply balx_up, bal_ext; [apply bal_getcurdir|accounts|accounts]|intros cwd; cbn beta].
  eapply (balx_bind _ _ _ (fun _ _ => 0)); [apply balx_up; bal_prim|intros f; cbn beta]. eapply balx_bind; [apply Ha|intros ?; cbn beta].
  eapply (balx_bind _ _ _ (fun _ _ => 0)); [apply balx_up; bal_prim|intros nm; cbn beta].
  eapply (balx_bind _ _ _ (fun _ _ => 0)); [destruct nm; [by apply balx_look|by apply balx_up, bal_getdevname]|intros name; cbn beta].
  eapply balx_bind; [apply Ha|intros ?; cbn beta].
  eapply (balx_bind _ _ _ (fun _ _ => 0)); [apply balx_look; [intros y; unfold access; by destruct name|done]|intros str0; cbn beta].
  eapply balx_bind; [apply (balx_attempt _ _ (fun _ _ => 0))|intros r; cbn beta].
  { do 2 (eapply (balx_bind _ _ _ (fun _ _ => 0)); [apply balx_move|intros ?; cbn beta]). apply balx_low. }
  eapply (balx_bind _ _ _ (fun _ x => - one cwd x)); [apply balx_up; bal_prim|intros ?; cbn beta].
  apply balx_end. intros v Hv. destruct r; lia.
Qed.

(** A call with the uio [u], of which only the state is kept. *)
Definition with_uio {A} (u : uio) (m : M (vfs LW * uio) A) : M (vfs LW) A := fun s =>
  match m (s, u) with
  | Done a (s', _) => Done a s'
  | Fail e (s', _) => Fail e s'
  | Panic => Panic | Undef => Undef | NoFuel => NoFuel
  end.

Lemma bal_with_uio {A} d u (m : M (vfs LW * uio) A) k : balx d m k -> bal d (with_uio u m) k.
Proof. intros Hm s. specialize (Hm s u). unfold with_uio. by destruct (m (s, u)) as [? []|? []| | |]. Qed.

(** The calls of the layer. *)
Inductive vcall :=
  | CGetroot (name : str) | CLookup (path : str) | CLookparent (path : str) (buflen : Z)
  | COpen (path : str) (flags : Z) | CClose (v : Z)
  | CRemove (path : str) | CMkdir (path : str) | CRmdir (path : str) | CSymlink (contents path : str)
  | CRename (p q : str) | CLink (p q : str)
  | CGetcurdir | CSetcurdir (v : Z) | CClearcurdir | CChdir (path : str)
  | CSetbootfs (name : str) | CClearbootfs
  | CReadlink (path : str) (u : uio) | CGetcwd (u : uio) | CGetdevname (f : Z) | CSync
  | CMount (name : str) (mountfunc : Z -> M W Z) | CUnmount (name : str) | CUnmountall
  | CAdddev (name : str) (dev : Z) (mountable : bool) | CAddfs (name : str) (f : Z).

(** The vnode the caller gets. *)
Definition run_vcall (c : vcall) : M (vfs LW) (option Z) :=
  match c with
  | CGetroot n => v ← vfs_getroot n; mret (Some v)
  | CLookup p => v ← vfs_lookup p; mret (Some v)
  | CLookparent p n => r ← vfs_lookparent p n; mret (Some r.1)
  | COpen p f => v ← vfs_open p f; mret (Some v)
  | CClose v => vfs_close v ;; mret None
  | CRemove p => vfs_remove p ;; mret None
  | CMkdir p => vfs_mkdir p ;; mret None
  | CRmdir p => vfs_rmdir p ;; mret None
  | CSymlink x p => vfs_symlink x p ;; mret None
  | CRename p q => vfs_rename p q ;; mret None
  | CLink p q => vfs_link p q ;; mret None
  | CGetcurdir => v ← vfs_getcurdir; mret (Some v)
  | CSetcurdir v => vfs_setcurdir v ;; mret None
  | CClearcurdir => vfs_clearcurdir ;; mret None
  | CChdir p => vfs_chdir p ;; mret None
  | CSetbootfs n => vfs_setbootfs n ;; mret None
  | CClearbootfs => vfs_clearbootfs ;; mret None
  | CReadlink p u => with_uio u (vfs_readlink p) ;; mret None
  | CGetcwd u => with_uio u vfs_getcwd ;; mret None
  | CGetdevname f => _ ← vfs_getdevname f; mret None
  | CSync => vfs_sync ;; mret None
  | CMount n mountfunc => vfs_mount n (fun dev => lift (mountfunc dev)) ;; mret None
  | CUnmount n => vfs_unmount n ;; mret None
  | CUnmountall => vfs_unmountall ;; mret None
  | CAdddev n dev mountable => vfs_adddev n dev mountable ;; mret None
  | CAddfs n f => vfs_addfs n f ;; mret None
  end.

(** The reference the caller hands over. *)
Definition handed (c : vcall) (v : Z) : Z := match c with CClose x => one x v | _ => 0 end.
Definition returned (r : option Z) (v : Z) : Z := match r with Some x => one x v | None => 0 end.

Lemma bal_then {A} (m : M (vfs LW) A) k (r : A -> option Z) c :
  bal (fun _ => 0) m k -> (forall a v, v <> 0 -> k a v = returned (r a) v - handed c v) ->
  bal (fun _ => 0) (a ← m; mret (r a)) (fun r v => returned r v - handed c v).
Proof. intros Hm Hk. eapply bal_bind; [exact Hm|intros a]. apply bal_ret. intros v Hv. rewrite Hk by done. lia. Qed.

(** The call makes a vnode for the table. *)
Definition adding (c : vcall) : bool := match c with CAdddev _ _ _ | CAddfs _ _ => true | _ => false end.

Lemma run_vcall_bal c : adding c = false -> bal (fun _ => 0) (run_vcall c) (fun r v => returned r v - handed c v).
Proof.
  intros Hc. destruct c as [| | | | |p|p|p|x p| | | | | | | | |p u|u|f| |n mf|n| |n d m|n f]; try done; cbn [run_vcall]; (eapply bal_then;
    [first [apply bal_getroot | apply bal_lookup | apply bal_lookparent | apply bal_open | apply bal_close
           | apply bal_rename | apply bal_link | apply bal_getcurdir | apply bal_setcurdir | apply bal_clearcurdir
           | apply bal_chdir | apply bal_setbootfs
           | exact (bal_in_parent p VOP_REMOVE) | exact (bal_in_parent p VOP_MKDIR) | exact (bal_in_parent p VOP_RMDIR)
           | exact (bal_in_parent p (fun d n => VOP_SYMLINK d n x))
           | apply bal_with_uio, balx_readlink | apply bal_with_uio, balx_getcwd | apply (bal_getdevname _ _ (fun _ _ => 0)); done
           | apply bal_sync | apply bal_mount | apply bal_unmount | apply bal_unmountall
           | apply (bal_change_bootfs _ 0 (fun _ _ => 0)); intros; by rewrite one_zero ]
    |intros; cbn [returned handed]; lia]).
Qed.

Lemma run_vcall_adds c : adding c = true -> adds recorded (run_vcall c).
Proof.
  assert (Hm : forall m : M (vfs LW) unit, adds recorded m -> adds recorded (m ;; mret (@None Z))).
  { intros m Hm s. specialize (Hm s). unfold mbind, M_bind. by destruct (m s). }
  destruct c; try done; intros _; cbn [run_vcall]; apply Hm, adds_doadd.
Qed.

(** C14: Whatever file systems are below, every call of the name space layer gives up the references
    it gets: when it returns a vnode the caller has one reference to it more, [vfs_close]
    uses up the caller's, the current directory and the boot file system keep one each, and
    on every error path nothing is left over.  The exception are [vfs_adddev] and [vfs_addfs], which make a vnode: the reference to
    it is that of the entry they make, and no error path gives it up. *)
Theorem vfs_refs_balanced c (s : vfs LW) :
  match run_vcall c s with
  | Done r s' => exists x, (if adding c then recorded x s' else x = 0) /\
      forall v, v <> 0 -> held s' v = held s v + returned r v - handed c v + one x v
  | Fail _ s' => exists x, (adding c = false -> x = 0) /\ forall v, v <> 0 -> held s' v = held s v + one x v
  | _ => True
  end.
Proof.
  destruct (adding c) eqn:Hc.
  - pose proof (run_vcall_adds c Hc s) as H. destruct (run_vcall c s) as [r s'|e s'| | |] eqn:E; try done; [|destruct H as (x & H); by exists x].
    destruct H as (x & Hx & H). exists x. split; [done|]. intros v Hv. rewrite H by done.
    assert (r = None) as -> by (destruct c; try done; cbn [run_vcall] in E; apply bind_Done_inv in E as (? & ? & _ & E); by injection E).
    destruct c; try done; cbn [returned handed]; lia.
  - pose proof (run_vcall_bal c Hc s) as H. destruct (run_vcall c s); try done; exists 0; (split; [done|]); intros v Hv;
      rewrite H, one_zero by done; lia.
Qed.

End discipline.

(** ** The five shapes of a path *)

Lemma before_app d c r : Forall (fun c => ~ special c) d -> special c -> before_special (d ++ c :: r) = d /\ from_special (d ++ c :: r) = c :: r.
Proof.
  induction 1 as [|x d Hx Hd IH]; intros Hc; cbn [app before_special from_special]; [by rewrite !(decide_True (P := special c)) by done|].
  rewrite !(decide_False (P := special x)) by done. destruct (IH Hc) as [-> ->]. done.
Qed.

Lemma before_all d : Forall (fun c => ~ special c) d -> before_special d = d /\ from_special d = [].
Proof.
  induction 1 as [|x d Hx Hd [IH1 IH2]]; cbn [before_special from_special]; [done|].
  rewrite !(decide_False (P := special x)) by done. by rewrite IH1, IH2.
Qed.

Lemma skip_slashes_spec r : exists n, r = replicate n SLASH ++ skip_slashes r /\ head (skip_slashes r) <> Some SLASH.
Proof.
  induction r as [|c r (n & E & H)]; simpl; [by exists 0%nat|]. case_decide as D; [|exists 0%nat; split; [done|simpl; congruence]].
  exists (S n). split; [|done]. simpl. by rewrite D, <- E.
Qed.

Section shapes.
Context {W : Type} `{!FileSystems W}.

(** The scan for the first colon or slash splits a path by its shape: [dev:rest] starts at the
    root of the device, [/rest] at the boot file system, [:rest] at the root of the current file system,
    each with the slashes before [rest] dropped, and every other path, a colon after a
    slash included, is taken whole from the current directory. *)
Theorem getdevice_correct (s : vfs W) d r :
  Forall (fun c => ~ special c) d ->
  (d <> [] -> getdevice (d ++ COLON :: r) s = (v ← vfs_getroot d; mret (skip_slashes r, v)) s) /\
  getdevice (SLASH :: r) s = (v ← start_vnode FromBootfs; mret (skip_slashes r, v)) s /\
  getdevice (COLON :: r) s = (v ← start_vnode FromRoot; mret (skip_slashes r, v)) s /\
  (d <> [] -> getdevice (d ++ SLASH :: r) s = (v ← vfs_getcurdir; mret (d ++ SLASH :: r, v)) s) /\
  getdevice d s = (v ← vfs_getcurdir; mret (d, v)) s /\
  exists n, r = replicate n SLASH ++ skip_slashes r /\ head (skip_slashes r) <> Some SLASH.
Proof.
  intros Hd. rewrite !getdevice_parse. unfold parse.
  destruct (before_app d COLON r Hd (or_introl eq_refl)) as [-> ->]. destruct (before_app d SLASH r Hd (or_intror eq_refl)) as [-> ->].
  destruct (before_all d Hd) as [-> ->]. split; [by destruct d|]. split; [done|]. split; [done|]. split; [by destruct d|].
  split; [by destruct d|]. apply skip_slashes_spec.
Qed.

End shapes.

End VfsPath.
