(* ===== verification/VfsList.v ===== *)
(** * The table of devices: kern/fs/vfs/vfslist.c

    The table as a list of entries whose names are distinct: [vfs_adddev] and [vfs_addfs]
    keep it so, and then [vfs_getroot] finds the entry of every name.  [vfs_mount] does
    not look at names, and a volume may come to be hidden by an earlier entry. *)

From S2P Require Import Prelude Kmalloc Array Uio Vnode Vfs VfsPath.
Import Array Uio Vfs VfsPath.

Module VfsList.

(** The file systems there are, with their names; a name is fixed while the file system is
    mounted (fs.h). *)
Class VolNames (W : Type) `{!FileSystems W} := {
  volumes : W -> Z -> option (option str);
  getvolname_law : forall f n w, volumes w f = Some n -> FSOP_GETVOLNAME f w = Done n w;
  acquire_volumes : forall l w w' f, Vnode.lock_acquire l w = Done tt w' -> volumes w' f = volumes w f;
  kmalloc_volumes : forall n p w w' f, kmalloc n w = Done p w' -> volumes w' f = volumes w f;
  kfree_volumes : forall p w w' f, kfree p w = Done tt w' -> volumes w' f = volumes w f;
}.

Section table.
Context {W : Type} `{!FileSystems W, !VoidOps W, !VolNames W}.
Implicit Types s : vfs W.

Definition volname (w : W) (f : Z) : option str := default None (volumes w f).

(** The names an entry answers to. *)
Definition vol_of (w : W) (kd : knowndev) : option str := if decide (kd_fs kd <> 0) then volname w (kd_fs kd) else None.
Definition named (w : W) (kd : knowndev) (n : str) : Prop :=
  kd_name kd = n \/ kd_rawname kd = Some n \/ vol_of w kd = Some n.
#[global] Instance named_dec w kd n : Decision (named w kd n).
Proof. unfold named. apply _. Defined.

(** The file system of an entry is there. *)
Definition has_volume (w : W) (kd : knowndev) : Prop := kd_fs kd <> 0 -> is_Some (volumes w (kd_fs kd)).

(** The entries of the table, with their addresses. *)
Record dev_table s (L : list (Z * knowndev)) : Prop := {
  dt_wf : wf (v_knowndevs s);
  dt_ptrs : contents (v_knowndevs s) = (fun x => Some x.1) <$> L;
  dt_objs : forall i p kd, L !! i = Some (p, kd) -> v_kds s !! p = Some kd;
  dt_vols : forall i p kd, L !! i = Some (p, kd) -> has_volume (v_w s) kd;
}.

Definition distinct (w : W) (L : list (Z * knowndev)) : Prop :=
  forall i j p q a b n, L !! i = Some (p, a) -> L !! j = Some (q, b) -> named w a n -> named w b n -> i = j.

(** What an entry answers to one of its names. *)
Definition serve (w : W) (kd : knowndev) (n : str) : M (vfs W) Z :=
  if decide (kd_fs kd <> 0 /\ (kd_name kd = n \/ volname w (kd_fs kd) = Some n)) then low (FSOP_GETROOT (kd_fs kd))
  else if decide (kd_rawname kd <> None /\ kd_name kd = n) then fail ENXIO
  else kassert (bool_decide (kd_device kd <> 0)) ;; low (VOP_INCREF (kd_vnode kd)) ;; mret (kd_vnode kd).

Lemma dev_table_num s L : dev_table s L -> numdevs s = Done (Z.of_nat (length L)) s.
Proof.
  intros [Wf E _ _]. pose proof (contents_length _ Wf) as Hl. rewrite E, length_fmap in Hl. pose proof (wf_num _ Wf).
  unfold numdevs, array_getnum, getA, zoom. munfold. cbn [lget lset devsL snd]. rewrite Hl, Z2Nat.id by lia. by destruct s.
Qed.

Lemma dev_table_get s L (i : nat) p kd : dev_table s L -> L !! i = Some (p, kd) -> getdev (Z.of_nat i) s = Done p s.
Proof.
  intros [Wf E _ _] Hi. pose proof (contents_length _ Wf) as Hl. rewrite E, length_fmap in Hl. pose proof (wf_num _ Wf).
  pose proof (lookup_lt_Some _ _ _ Hi) as Hlt.
  assert (Hc : vdata (v_knowndevs s) !! i = Some (Some p)).
  { assert (contents (v_knowndevs s) !! i = Some (Some p)) as Hc by (by rewrite E, list_lookup_fmap, Hi).
    unfold contents in Hc. by apply lookup_take_Some in Hc as [? _]. }
  unfold getdev, array_getguy, getA, zoom. munfold. cbn [lget lset devsL snd id].
  rewrite !bool_decide_eq_true_2 by lia. rewrite zlookup_nat, Hc. by destruct s.
Qed.

Lemma dev_table_w s L w' : dev_table s L -> (forall f, volumes w' f = volumes (v_w s) f) -> dev_table (set_w w' s) L.
Proof. intros [Wf E O V] Hv. constructor; [done..|]. intros i p kd Hi Hf. cbn. rewrite Hv. by eapply V. Qed.

Lemma get_kd_Done s p kd : v_kds s !! p = Some kd -> get_kd p s = Done kd s.
Proof. intros E. unfold get_kd. munfold. unfold id. by rewrite E. Qed.

Lemma getvolname_Done s kd : has_volume (v_w s) kd -> kd_fs kd <> 0 ->
  low (FSOP_GETVOLNAME (kd_fs kd)) s = Done (volname (v_w s) (kd_fs kd)) s.
Proof.
  intros Hv Hf. destruct (Hv Hf) as [n Hn]. unfold low, zoom, volname. cbn [lget lset wL].
  rewrite (getvolname_law _ _ _ Hn), Hn. by destruct s.
Qed.

(** An entry that is not named is passed over. *)
Lemma getroot_at_other s p kd n :
  v_kds s !! p = Some kd -> has_volume (v_w s) kd -> ~ named (v_w s) kd n -> getroot_at n p s = Done None s.
Proof.
  intros Hk Hvol Hn. unfold named, vol_of in Hn. unfold getroot_at. rewrite (bind_Done _ _ _ _ _ (get_kd_Done _ _ _ Hk)).
  rewrite (bind_Done _ _ s None s).
  - rewrite decide_False by tauto. by rewrite decide_False by tauto.
  - destruct (decide (kd_fs kd <> 0)) as [D|D].
    + rewrite (bind_Done _ _ _ _ _ (getvolname_Done _ _ Hvol D)). by rewrite decide_False by tauto.
    + by rewrite decide_False by tauto.
Qed.

(** The value [serve] becomes in [vfs_getroot]. *)
Definition answer (w : W) (kd : knowndev) (n : str) : M (vfs W) (option (errno + Z)) :=
  r ← attempt (serve w kd n); mret (Some r).

Definition hand_out (kd : knowndev) : M (vfs W) Z :=
  kassert (bool_decide (kd_device kd <> 0)) ;; low (VOP_INCREF (kd_vnode kd)) ;; mret (kd_vnode kd).

Lemma answer_root s f :
  (root ← low (FSOP_GETROOT f); mret (Some (inr root))) s = (r ← attempt (low (FSOP_GETROOT f)); mret (Some r)) s.
Proof.
  unfold attempt, mbind, M_bind, low, zoom. cbn [lget wL].
  destruct (FSOP_GETROOT f (v_w s)) eqn:E; try done. by destruct (void_getroot _ _ _ _ E).
Qed.

Lemma answer_node s kd :
  (kassert (bool_decide (kd_device kd <> 0)) ;; low (VOP_INCREF (kd_vnode kd)) ;; mret (Some (inr (kd_vnode kd)))) s =
  (r ← attempt (hand_out kd); mret (Some r)) s.
Proof.
  unfold hand_out, attempt, mbind, M_bind, kassert, low, zoom. destruct (bool_decide _); [|done]. cbn [lget wL].
  destruct (VOP_INCREF (kd_vnode kd) (v_w s)) eqn:E; try done. by destruct (void_incref _ _ _ _ E).
Qed.

Lemma getroot_at_named s p kd n :
  v_kds s !! p = Some kd -> has_volume (v_w s) kd -> named (v_w s) kd n -> getroot_at n p s = answer (v_w s) kd n s.
Proof.
  intros Hk Hvol Hn. unfold named, vol_of in Hn. unfold getroot_at, answer, serve. rewrite (bind_Done _ _ _ _ _ (get_kd_Done _ _ _ Hk)).
  fold (hand_out kd). revert Hn. destruct (decide (kd_fs kd <> 0)) as [D|D]; intros Hn.
  - rewrite (bind_assoc_eq _ _ _ s), (bind_Done _ _ _ _ _ (getvolname_Done _ _ Hvol D)).
    destruct (decide (kd_name kd = n \/ volname (v_w s) (kd_fs kd) = Some n)) as [D2|D2].
    + rewrite (decide_True (P := _ /\ (_ \/ _))) by tauto. rewrite <- answer_root. unfold mbind, M_bind. by destruct (low _ s).
    + rewrite (bind_Done _ _ s None s) by done. rewrite !(decide_False (P := kd_name kd = n)) by tauto.
      rewrite (decide_True (P := kd_rawname kd = Some n)) by tauto. rewrite !decide_False by tauto. apply answer_node.
  - rewrite (decide_False (P := _ /\ (_ \/ _))) by tauto.
    destruct (decide (kd_rawname kd <> None /\ kd_name kd = n)) as [D2|D2]; [by rewrite (bind_Done _ _ s (Some (inl ENXIO)) s)|].
    rewrite (bind_Done _ _ s None s) by done. destruct (decide (kd_name kd = n)) as [D3|D3].
    + rewrite (bind_Done _ _ s tt s) by (unfold kassert; rewrite bool_decide_eq_true_2 by lia; done).
      rewrite (bind_Done _ _ s tt s); [apply answer_node|]. unfold kassert. rewrite bool_decide_eq_true_2; [done|].
      destruct (kd_rawname kd); [|done]. by destruct D2.
    + rewrite decide_True by (destruct Hn as [?|[?|?]]; done). apply answer_node.
Qed.

(** ** Looking a name up *)

(** The entry a name denotes: the first that has it. *)
Fixpoint entry_of (w : W) (L : list (Z * knowndev)) (n : str) : option knowndev :=
  match L with
  | [] => None
  | (_, kd) :: L' => if decide (named w kd n) then Some kd else entry_of w L' n
  end.

Definition resolve (w : W) (L : list (Z * knowndev)) (n : str) : M (vfs W) Z :=
  match entry_of w L n with Some kd => serve w kd n | None => fail ENODEV end.

Lemma getroot_loop_resolve s L1 L2 n :
  dev_table s (L1 ++ L2) ->
  getroot_loop (length L2) (Z.of_nat (length L1)) n s = attempt (resolve (v_w s) L2 n) s.
Proof.
  revert L1. induction L2 as [|[p kd] L2 IH]; intros L1 Ht; [done|]. cbn [length getroot_loop].
  assert (Hi : (L1 ++ (p, kd) :: L2) !! length L1 = Some (p, kd)) by (rewrite lookup_app_r by lia; by rewrite Nat.sub_diag).
  rewrite (bind_Done _ _ _ _ _ (dev_table_get _ _ _ _ _ Ht Hi)). pose proof (dt_objs _ _ Ht _ _ _ Hi) as Hk.
  unfold resolve. cbn [entry_of]. destruct (decide (named (v_w s) kd n)) as [D|D].
  - unfold mbind, M_bind. rewrite (getroot_at_named _ _ _ _ Hk (dt_vols _ _ Ht _ _ _ Hi) D). unfold answer, attempt, mbind, M_bind.
    by destruct (serve (v_w s) kd n s).
  - rewrite (bind_Done _ _ _ _ _ (getroot_at_other _ _ _ _ Hk (dt_vols _ _ Ht _ _ _ Hi) D)). cbn.
    replace (Z.of_nat (length L1) + 1) with (Z.of_nat (length (L1 ++ [(p, kd)]))) by (rewrite length_app; simpl; lia).
    apply IH. by rewrite <- app_assoc.
Qed.

Lemma resolve_ext w w' L n : (forall f, volumes w' f = volumes w f) -> resolve w' L n = resolve w L n.
Proof.
  intros Hv'. assert (Hv : forall f, volname w' f = volname w f) by (intros f; unfold volname; by rewrite Hv'). unfold resolve.
  assert (Hn : forall kd, named w' kd n <-> named w kd n) by (intros kd; unfold named, vol_of; by rewrite Hv).
  assert (He : entry_of w' L n = entry_of w L n).
  { induction L as [|[p kd] L IH]; [done|]. cbn [entry_of]. rewrite IH. by rewrite (decide_ext _ _ _ _ (Hn kd)). }
  rewrite He. destruct (entry_of w L n) as [kd|]; [|done]. unfold serve. by rewrite Hv.
Qed.

Lemma acquire_devs_Done s x s' :
  acquire_devs s = Done x s' -> exists w', s' = set_w w' s /\ Vnode.lock_acquire (v_lock s) (v_w s) = Done tt w'.
Proof.
  unfold acquire_devs, low, zoom, gets, mbind, M_bind, mret, M_ret. cbn [lget lset wL].
  destruct (Vnode.lock_acquire _ _) as [[] w'| | | |] eqn:E; intros [=]; subst. by exists w'.
Qed.

Lemma vfs_getroot_resolve s L n : dev_table s L -> vfs_getroot n s = locked (resolve (v_w s) L n) s.
Proof.
  intros Ht. unfold vfs_getroot, locked. unfold mbind at 1 5, M_bind at 1 5.
  destruct (acquire_devs s) as [x s'| | | |] eqn:E; try done.
  destruct (acquire_devs_Done _ _ _ E) as (w' & -> & Ha).
  assert (Ht' : dev_table (set_w w' s) L) by (apply (dev_table_w s L w' Ht); intros f; by apply (acquire_volumes _ _ _ f Ha)).
  rewrite (bind_Done _ _ _ _ _ (dev_table_num _ _ Ht')), Nat2Z.id.
  rewrite <- (resolve_ext (v_w s) w') by (intros f; by apply (acquire_volumes _ _ _ f Ha)).
  pose proof (getroot_loop_resolve _ [] L n Ht') as Hl. change (Z.of_nat _) with 0 in Hl.
  unfold mbind, M_bind. by rewrite Hl.
Qed.

Lemma entry_of_distinct w L n i p kd :
  distinct w L -> L !! i = Some (p, kd) -> named w kd n -> entry_of w L n = Some kd.
Proof.
  intros Hd. revert i. induction L as [|[q b] L IH]; intros i Hi Hn; [done|]. cbn [entry_of].
  destruct (decide (named w b n)) as [D|D].
  - pose proof (Hd i O _ _ _ _ n Hi eq_refl Hn D) as ->. simpl in Hi. congruence.
  - destruct i as [|i]; [simpl in Hi; congruence|]. apply (IH ltac:(intros i1 j1 p1 q1 a1 b1 n1 H1 H2 H3 H4; 
      by injection (Hd (S i1) (S j1) p1 q1 a1 b1 n1 H1 H2 H3 H4)) i Hi Hn).
Qed.

Lemma entry_of_app w L1 L2 n kd : entry_of w L1 n = Some kd -> entry_of w (L1 ++ L2) n = Some kd.
Proof. induction L1 as [|[p b] L1 IH]; [done|]. cbn [app entry_of]. by destruct (decide _). Qed.

Lemma entry_of_ext w w' L n :
  (forall i p kd, L !! i = Some (p, kd) -> forall f, kd_fs kd = f -> volname w' f = volname w f) ->
  entry_of w' L n = entry_of w L n.
Proof.
  induction L as [|[p kd] L IH]; intros H; [done|]. cbn [entry_of]. rewrite IH by (intros i; apply (H (S i))).
  assert (Hn : named w' kd n <-> named w kd n) by (unfold named, vol_of; by rewrite (H O p kd eq_refl _ eq_refl)).
  by rewrite (decide_ext _ _ _ _ Hn).
Qed.

Lemma entry_of_None w L n : (forall i p kd, L !! i = Some (p, kd) -> ~ named w kd n) -> entry_of w L n = None.
Proof.
  induction L as [|[q b] L IH]; intros H; [done|]. cbn [entry_of]. rewrite decide_False by (by apply (H O q b)).
  apply IH. intros i. apply (H (S i)).
Qed.

(** in a table whose entries have distinct names, [vfs_getroot] of a name of an entry gives what that
    entry serves under the name (the root of its file system, its device vnode with a new
    reference, or [ENXIO] for a device that needs a file system), wherever the entry is in the
    table, and of any other name [ENODEV]; all with the table locked, and the lock released
    whatever the outcome. *)
Theorem vfs_getroot_correct s L n :
  dev_table s L -> distinct (v_w s) L ->
  (forall i p kd, L !! i = Some (p, kd) -> named (v_w s) kd n -> vfs_getroot n s = locked (serve (v_w s) kd n) s) /\
  ((forall i p kd, L !! i = Some (p, kd) -> ~ named (v_w s) kd n) -> vfs_getroot n s = locked (fail ENODEV) s).
Proof.
  intros Ht Hd. rewrite (vfs_getroot_resolve _ _ _ Ht). unfold resolve. split.
  - intros i p kd Hi Hn. by rewrite (entry_of_distinct _ _ _ _ _ _ Hd Hi Hn).
  - intros Hn. by rewrite (entry_of_None _ _ _ Hn).
Qed.

(** ** Adding a device *)

(** Some name of the entry [kd] is a name of an entry of the table. *)
Definition clashes (w : W) (L : list (Z * knowndev)) (ns : list (option str)) : bool :=
  existsb (fun x => existsb (fun o => match o with Some n => bool_decide (named w x.2 n) | None => false end) ns) L.

Definition names (w : W) (kd : knowndev) : list (option str) := [Some (kd_name kd); kd_rawname kd; vol_of w kd].

Lemma named_names w kd n : named w kd n <-> Some n ∈ names w kd.
Proof. unfold named, names. rewrite !elem_of_cons, elem_of_nil. intuition congruence. Qed.

Lemma clashes_spec w L kd :
  clashes w L (names w kd) = true <-> exists i p b n, L !! i = Some (p, b) /\ named w b n /\ named w kd n.
Proof.
  unfold clashes. rewrite existsb_exists. split.
  - intros ([p b] & Hin & Hx). apply existsb_exists in Hx as (o & Ho & Hn). destruct o as [n|]; [|done].
    apply list_elem_of_In, list_elem_of_lookup in Hin as (i & Hi). exists i, p, b, n. split; [done|].
    apply bool_decide_eq_true in Hn. split; [done|]. apply named_names. by apply list_elem_of_In.
  - intros (i & p & b & n & Hi & Hb & Hk). exists (p, b). split; [apply list_elem_of_In; by eapply list_elem_of_lookup_2|].
    apply existsb_exists. exists (Some n). split; [by apply list_elem_of_In, named_names|]. by apply bool_decide_eq_true.
Qed.

Lemma clashes_cons w p kd L ns :
  clashes w ((p, kd) :: L) ns =
  existsb (fun o => match o with Some n => bool_decide (named w kd n) | None => false end) ns || clashes w L ns.
Proof. done. Qed.

Lemma samestring3_spec a x y z : samestring3 a x y z = true <-> exists n, a = Some n /\ Some n ∈ [x; y; z].
Proof.
  unfold samestring3, samestring. rewrite !orb_true_iff. setoid_rewrite elem_of_cons. setoid_rewrite elem_of_cons.
  setoid_rewrite list_elem_of_singleton. split.
  - intros H. destruct a as [a|]; [|naive_solver]. exists a. split; [done|].
    destruct H as [[H|H]|H]; [destruct x|destruct y|destruct z]; try done; apply bool_decide_eq_true in H; subst; auto.
  - intros (n & -> & [<-|[<-|<-]]); rewrite bool_decide_eq_true_2 by done; auto.
Qed.

Lemma badnames_one s kd ns n1 n2 n3 : ns = [n1; n2; n3] ->
  (if decide (kd_fs kd <> 0) then samestring3 (volname (v_w s) (kd_fs kd)) n1 n2 n3 else false)
    || (samestring3 (kd_rawname kd) n1 n2 n3 || samestring3 (Some (kd_name kd)) n1 n2 n3) =
  existsb (fun o => match o with Some n => bool_decide (named (v_w s) kd n) | None => false end) ns.
Proof.
  intros ->. apply eq_true_iff_eq. rewrite !orb_true_iff, existsb_exists, !samestring3_spec.
  assert (Hv : (if decide (kd_fs kd <> 0) then samestring3 (volname (v_w s) (kd_fs kd)) n1 n2 n3 else false) = true <->
    exists n, vol_of (v_w s) kd = Some n /\ Some n ∈ [n1; n2; n3]).
  { unfold vol_of. destruct (decide (kd_fs kd <> 0)); [apply samestring3_spec|]. naive_solver. }
  rewrite Hv. split.
  - intros [(n & E & Hi)|[(n & E & Hi)|(n & E & Hi)]]; exists (Some n); (split; [by apply list_elem_of_In|]);
      apply bool_decide_eq_true; unfold named; naive_solver.
  - intros ([n|] & Hi & Hn); [|done]. apply list_elem_of_In in Hi. apply bool_decide_eq_true in Hn as [<-|[Hn|Hn]]; eauto 6.
Qed.

Lemma badnames_loop_spec s L1 L2 n1 n2 n3 :
  dev_table s (L1 ++ L2) ->
  badnames_loop (length L2) (Z.of_nat (length L1)) n1 n2 n3 s = Done (clashes (v_w s) L2 [n1; n2; n3]) s.
Proof.
  revert L1. induction L2 as [|[p kd] L2 IH]; intros L1 Ht; [done|]. cbn [length badnames_loop].
  assert (Hi : (L1 ++ (p, kd) :: L2) !! length L1 = Some (p, kd)) by (rewrite lookup_app_r by lia; by rewrite Nat.sub_diag).
  rewrite (bind_Done _ _ _ _ _ (dev_table_get _ _ _ _ _ Ht Hi)).
  rewrite (bind_Done _ _ _ _ _ (get_kd_Done _ _ _ (dt_objs _ _ Ht _ _ _ Hi))).
  rewrite (bind_Done _ _ s (if decide (kd_fs kd <> 0) then samestring3 (volname (v_w s) (kd_fs kd)) n1 n2 n3 else false) s).
  2:{ destruct (decide _) as [D|D]; [|done]. by rewrite (bind_Done _ _ _ _ _ (getvolname_Done _ _ (dt_vols _ _ Ht _ _ _ Hi) D)). }
  pose proof (badnames_one s kd _ n1 n2 n3 eq_refl) as Hb. rewrite clashes_cons, <- Hb. destruct (if decide _ then _ else _); [done|]. destruct (_ || _); [done|]. cbn [orb].
  replace (Z.of_nat (length L1) + 1) with (Z.of_nat (length (L1 ++ [(p, kd)]))) by (rewrite length_app; simpl; lia).
  apply IH. by rewrite <- app_assoc.
Qed.

Lemma badnames_spec s L n1 n2 n3 :
  dev_table s L -> lock_do_i_hold (v_lock s) (v_w s) = Done 1 (v_w s) ->
  badnames n1 n2 n3 s = Done (clashes (v_w s) L [n1; n2; n3]) s.
Proof.
  intros Ht Hl. unfold badnames. rewrite (bind_Done _ _ s (v_lock s) s) by done.
  rewrite (bind_Done _ _ s 1 s) by (unfold low, zoom; cbn [lget wL lset]; rewrite Hl; by destruct s).
  rewrite (bind_Done _ _ s tt s) by done. rewrite (bind_Done _ _ _ _ _ (dev_table_num _ _ Ht)), Nat2Z.id.
  apply (badnames_loop_spec _ [] L n1 n2 n3 Ht).
Qed.

(** The heap, used where the names of the volumes matter. *)
#[refine] Definition volname_spec `{!KmallocSpec W} (V : Z -> option (option str)) : KmallocSpec W :=
  {| heap_rep := fun w B => heap_rep w B /\ forall f, volumes w f = V f |}.
Proof.
  - intros h B p n [R _]. by eapply heap_rep_range.
  - intros h B p n q m [R _]. by eapply heap_rep_disjoint.
  - intros h B sz [R V'] Hsz. destruct (kmalloc_spec h B sz R Hsz) as [(h' & E & R')|(p & h' & E & Hp & HB & R')].
    + left. exists h'. split; [done|]. split; [done|]. intros f. by rewrite (kmalloc_volumes _ _ _ _ f E).
    + right. exists p, h'. split_and!; try done. intros f. by rewrite (kmalloc_volumes _ _ _ _ f E).
  - intros h B p n [R V'] HB. destruct (kfree_spec h B p n R HB) as (h' & E & R').
    exists h'. split; [done|]. split; [done|]. intros f. by rewrite (kfree_volumes _ _ _ f E).
  - intros h B [R _]. by eapply kfree_null.
Defined.

Lemma distinct_snoc w L p kd :
  distinct w L -> (forall i q b n, L !! i = Some (q, b) -> named w b n -> ~ named w kd n) -> distinct w (L ++ [(p, kd)]).
Proof.
  intros Hd Hn i j q r a b n Hi Hj Ha Hb.
  apply lookup_snoc_Some in Hi as [[? Hi]|[-> [=]]]; apply lookup_snoc_Some in Hj as [[? Hj]|[-> [=]]]; subst; try done.
  - by apply (Hd i j q r a b n).
  - by destruct (Hn _ _ _ _ Hi Ha).
  - by destruct (Hn _ _ _ _ Hj Hb).
Qed.

Lemma distinct_ext w w' L : (forall f, volumes w' f = volumes w f) -> distinct w L -> distinct w' L.
Proof.
  intros Hv Hd i j p q a b n Hi Hj Ha Hb. apply (Hd i j p q a b n Hi Hj).
  - unfold named, vol_of, volname in *. by rewrite Hv in Ha.
  - unfold named, vol_of, volname in *. by rewrite Hv in Hb.
Qed.

Lemma dev_table_contents s L (a : array Z) w' :
  dev_table s L -> wf a -> forall L', contents a = (fun x => Some x.1) <$> L' ->
  (forall i p kd, L' !! i = Some (p, kd) -> v_kds s !! p = Some kd /\ has_volume (v_w s) kd) ->
  (forall f, volumes w' f = volumes (v_w s) f) -> dev_table (set_knowndevs a (set_w w' s)) L'.
Proof.
  intros ? ? L' E Ho Hv. constructor; [done|done| |]; intros i p kd Hi; [by eapply Ho|]. intros Hf. cbn. rewrite Hv. by eapply Ho.
Qed.

(** under the lock, [vfs_doadd] enters a device exactly when none of its names (its name, its raw
    name, the name of its volume) is a name of an entry of the table: a clash is [EEXIST], with
    nothing changed; otherwise the device becomes the last entry and the names stay
    distinct, or memory runs out and the table stays what it was. *)
Theorem add_checked_unique `{!KmallocSpec W} s L B p kd :
  dev_table s L -> distinct (v_w s) L -> lock_do_i_hold (v_lock s) (v_w s) = Done 1 (v_w s) ->
  heap_rep (v_w s) B -> owned B (v_knowndevs s) -> Z.of_nat (length L) < MAXGUYS -> v_kds s !! p = Some kd ->
  has_volume (v_w s) kd ->
  let clash := exists i q b n, L !! i = Some (q, b) /\ named (v_w s) b n /\ named (v_w s) kd n in
  match add_checked p (kd_name kd) (kd_rawname kd) (vol_of (v_w s) kd) s with
  | Done _ s' => ~ clash /\ dev_table s' (L ++ [(p, kd)]) /\ distinct (v_w s') (L ++ [(p, kd)]) /\ v_kds s' = v_kds s
  | Fail e s' => (e = EEXIST /\ clash /\ s' = s) \/
      (e = ENOMEM /\ ~ clash /\ dev_table s' L /\ distinct (v_w s') L /\ v_kds s' = v_kds s)
  | _ => False
  end.
Proof.
  intros Ht Hd Hl Hr Ho Hn Hk Hvol clash. unfold add_checked. rewrite (bind_Done _ _ _ _ _ (badnames_spec _ _ _ _ _ Ht Hl)).
  fold (names (v_w s) kd). pose proof (clashes_spec (v_w s) L kd) as Hc. fold clash in Hc.
  destruct (clashes _ _ _); [left; split_and!; try done; by apply Hc|].
  assert (Hnc : ~ clash) by (intros H; by apply Hc in H). unfold zoom. cbn [lget lset devsL].
  pose proof (dt_wf _ _ Ht) as Hw. pose proof (contents_length _ Hw) as Hlen. rewrite (dt_ptrs _ _ Ht), length_fmap in Hlen.
  pose proof (wf_num _ Hw).
  destruct (@array_add_spec W _ _ (volname_spec (volumes (v_w s))) (v_w s) B (v_knowndevs s) p) as
    [(h' & _ & -> & [_ Hv])|(h' & B' & a' & -> & [_ Hv] & Hev & _ & Hcont & _)]; [done|done|done|lia| |]; cbn [fst snd].
  - right. split_and!; try done; [|by eapply distinct_ext].
    apply (dev_table_contents s L (v_knowndevs s) h' Ht Hw); [apply Ht| |done]. intros i q b Hi. split; [by apply (dt_objs _ _ Ht i)|by apply (dt_vols _ _ Ht i q)].
  - split_and!; try done.
    + apply (dev_table_contents s L a' h' Ht (ev_wf _ _ _ _ Hev)).
      * rewrite Hcont, (dt_ptrs _ _ Ht). by rewrite fmap_app.
      * intros i q b Hi. apply lookup_snoc_Some in Hi as [[? Hi]|[-> [=]]]; subst; [|done].
        split; [by apply (dt_objs _ _ Ht i)|by apply (dt_vols _ _ Ht i q)].
      * done.
    + apply (distinct_ext (v_w s)); [done|]. apply distinct_snoc; [done|]. intros i q b n Hi Hb Hkd. apply Hnc. by exists i, q, b, n.
Qed.

(** ** Mounting *)

Lemma findmount_loop_spec s L1 L2 (j : nat) q b :
  dev_table s (L1 ++ L2) -> distinct (v_w s) (L1 ++ L2) -> L2 !! j = Some (q, b) -> kd_rawname b <> None ->
  findmount_loop (length L2) (Z.of_nat (length L1)) (kd_name b) s = Done (Some q) s.
Proof.
  revert L1 j. induction L2 as [|[p kd] L2 IH]; intros L1 j Ht Hd Hj Hr; [done|]. cbn [length findmount_loop].
  assert (Hi : (L1 ++ (p, kd) :: L2) !! length L1 = Some (p, kd)) by (rewrite lookup_app_r by lia; by rewrite Nat.sub_diag).
  rewrite (bind_Done _ _ _ _ _ (dev_table_get _ _ _ _ _ Ht Hi)).
  rewrite (bind_Done _ _ _ _ _ (get_kd_Done _ _ _ (dt_objs _ _ Ht _ _ _ Hi))).
  destruct j as [|j]; [injection Hj as -> ->; rewrite decide_False by done; by rewrite decide_True|]. simpl in Hj.
  assert (Hne : kd_name b <> kd_name kd).
  { intros E. assert (Hj' : (L1 ++ (p, kd) :: L2) !! (length L1 + S j)%nat = Some (q, b)).
    { rewrite lookup_app_r by lia. by replace (length L1 + S j - length L1)%nat with (S j) by lia. }
    pose proof (Hd _ _ _ _ _ _ (kd_name kd) Hi Hj' ltac:(by left) ltac:(by left)). lia. }
  assert (Hnext : findmount_loop (length L2) (Z.of_nat (length L1) + 1) (kd_name b) s = Done (Some q) s).
  { replace (Z.of_nat (length L1) + 1) with (Z.of_nat (length (L1 ++ [(p, kd)]))) by (rewrite length_app; simpl; lia).
    apply (IH _ j); rewrite <- ?app_assoc; done. }
  destruct (decide _); [done|]. by rewrite decide_False.
Qed.

Lemma findmount_spec s L j q b :
  dev_table s L -> distinct (v_w s) L -> lock_do_i_hold (v_lock s) (v_w s) = Done 1 (v_w s) ->
  L !! j = Some (q, b) -> kd_rawname b <> None -> findmount (kd_name b) s = Done q s.
Proof.
  intros Ht Hd Hl Hj Hr. unfold findmount. rewrite (bind_Done _ _ s (v_lock s) s) by done.
  rewrite (bind_Done _ _ s 1 s) by (unfold low, zoom; cbn [lget wL lset]; rewrite Hl; by destruct s).
  rewrite (bind_Done _ _ s tt s) by done. rewrite (bind_Done _ _ _ _ _ (dev_table_num _ _ Ht)), Nat2Z.id.
  by rewrite (bind_Done _ _ _ _ _ (findmount_loop_spec _ [] L j q b Ht Hd Hj Hr)).
Qed.

(** The state after [f] is mounted on the entry at [q]. *)
Definition mounted (q : Z) (b : knowndev) (f : Z) (w' : W) s : vfs W := set_kds (<[q := set_fs f b]> (v_kds s)) (set_w w' s).

Lemma mount_body_spec s L j q b mountfunc f w' :
  dev_table s L -> distinct (v_w s) L -> lock_do_i_hold (v_lock s) (v_w s) = Done 1 (v_w s) ->
  L !! j = Some (q, b) -> kd_rawname b <> None -> kd_fs b = 0 -> kd_device b <> 0 ->
  mountfunc (kd_device b) (v_w s) = Done f w' -> f <> 0 -> is_Some (volumes w' f) ->
  mount_body (kd_name b) mountfunc s = Done tt (mounted q b f w' s).
Proof.
  intros Ht Hd Hl Hj Hr Hf Hdev Hm Hnz Hvf. unfold mount_body.
  rewrite (bind_Done _ _ _ _ _ (findmount_spec _ _ _ _ _ Ht Hd Hl Hj Hr)).
  rewrite (bind_Done _ _ _ _ _ (get_kd_Done _ _ _ (dt_objs _ _ Ht _ _ _ Hj))). rewrite decide_False by lia.
  rewrite (bind_Done _ _ s tt s) by (unfold kassert; by rewrite bool_decide_eq_true_2).
  rewrite (bind_Done _ _ s tt s) by (unfold kassert; by rewrite bool_decide_eq_true_2).
  rewrite (bind_Done _ _ s f (set_w w' s)) by (unfold low, zoom; cbn [lget lset wL]; by rewrite Hm).
  rewrite (bind_Done _ _ _ tt (set_w w' s)) by (unfold kassert; by rewrite bool_decide_eq_true_2).
  rewrite (bind_Done _ _ _ tt (mounted q b f w' s)) by done.
  erewrite bind_Done; [done|]. exact (getvolname_Done (mounted q b f w' s) (set_fs f b) (fun _ => Hvf) Hnz).
Qed.

Lemma dev_table_mounted s L j q b f w' :
  dev_table s L -> NoDup L.*1 -> L !! j = Some (q, b) -> is_Some (volumes w' f) ->
  (forall g, g <> f -> volumes w' g = volumes (v_w s) g) -> dev_table (mounted q b f w' s) (<[j := (q, set_fs f b)]> L).
Proof.
  intros [Wf E O V] Hnd Hj Hvf Hold. pose proof (lookup_lt_Some _ _ _ Hj). constructor; [done| | |].
  - cbn. rewrite E, list_fmap_insert. cbn [fst]. symmetry. apply list_insert_id. by rewrite list_lookup_fmap, Hj.
  - intros i p kd Hi. cbn. apply list_lookup_insert_Some in Hi as [(-> & [=] & _)|[Hne Hi]]; subst.
    + apply lookup_insert_eq.
    + rewrite lookup_insert_ne; [by apply (O i)|]. intros ->. apply Hne.
      by apply (NoDup_lookup L.*1 j i p Hnd); rewrite list_lookup_fmap, ?Hi, ?Hj.
  - intros i p kd Hi Hf. cbn. apply list_lookup_insert_Some in Hi as [(-> & [=] & _)|[Hne Hi]]; subst; [done|].
    destruct (decide (kd_fs kd = f)) as [->|Hn]; [done|]. rewrite Hold by done. by apply (V i p kd).
Qed.

(** [vfs_mount] never looks at the name of the volume it mounts: where that is the name of an earlier
    entry of the table, the mount succeeds, the names of the table are no longer distinct, and
    [vfs_getroot] of the name keeps giving what the earlier entry serves, so the new volume
    cannot be reached under its own name. *)
Theorem vfs_mount_hides s L i j p a q b mountfunc f w' :
  dev_table s L -> distinct (v_w s) L -> NoDup L.*1 -> lock_do_i_hold (v_lock s) (v_w s) = Done 1 (v_w s) ->
  L !! i = Some (p, a) -> L !! j = Some (q, b) -> (i < j)%nat ->
  kd_rawname b <> None -> kd_fs b = 0 -> kd_device b <> 0 ->
  mountfunc (kd_device b) (v_w s) = Done f w' -> f <> 0 ->
  (forall g, g <> f -> volumes w' g = volumes (v_w s) g) -> (forall k r c, L !! k = Some (r, c) -> kd_fs c <> f) ->
  volumes w' f = Some (Some (kd_name a)) ->
  exists s', mount_body (kd_name b) mountfunc s = Done tt s' /\
    dev_table s' (<[j := (q, set_fs f b)]> L) /\ ~ distinct (v_w s') (<[j := (q, set_fs f b)]> L) /\
    vfs_getroot (kd_name a) s' = locked (serve (v_w s') a (kd_name a)) s'.
Proof.
  intros Ht Hd Hnd Hl Hi Hj Hij Hr Hf Hdev Hm Hnz Hold Hnew Hv. exists (mounted q b f w' s).
  assert (Hvf : is_Some (volumes w' f)) by (by rewrite Hv).
  pose proof (dev_table_mounted _ _ _ _ _ f w' Ht Hnd Hj Hvf Hold) as Ht'. pose proof (lookup_lt_Some _ _ _ Hj).
  split; [by eapply mount_body_spec|]. split; [done|]. split.
  - intros Hd'. enough (i = j) by lia. apply (Hd' i j p q a (set_fs f b) (kd_name a)).
    + by rewrite list_lookup_insert_ne by lia.
    + by rewrite list_lookup_insert_eq by lia.
    + by left.
    + right; right. unfold vol_of. cbn [kd_fs set_fs]. rewrite decide_True by done. unfold volname. cbn. by rewrite Hv.
  - rewrite (vfs_getroot_resolve _ _ _ Ht'). unfold resolve.
    rewrite <- (take_drop (S i) (<[j := _]> L)), take_insert_ge by lia.
    assert (He : entry_of (v_w s) (take (S i) L) (kd_name a) = Some a).
    { apply (entry_of_distinct _ _ _ i p); [|rewrite lookup_take; by rewrite decide_True by lia|by left].
      intros k l r t c d n Hk Hl2. apply (Hd k l r t c d n); [by apply lookup_take_Some in Hk as [? _]|by apply lookup_take_Some in Hl2 as [? _]]. }
    erewrite entry_of_app; [done|]. rewrite <- He. apply entry_of_ext. intros k r c Hk g Hg. apply lookup_take_Some in Hk as [Hk _].
    unfold volname. cbn. rewrite Hold; [done|]. intros ->. by apply (Hnew _ _ _ Hk).
Qed.

End table.

End VfsList.
