(* ===== verification/Sfs.v ===== *)
(** * The file system: kern/fs/sfs

    The on-disk structures of kern/include/kern/sfs.h, the block layer of sfs_io.c,
    the file-level routines of sfs_vnode.c and the volume-level routines of sfs_fs.c.
    The state of a mounted volume is the [struct sfs_fs] with the vnodes it points to,
    beside the kernel state it allocates from, its device and the user context.  The
    static buffers of [sfs_bmap], [sfs_partialio] and [sfs_truncate] are filled before
    they are read on every path, and are locals here.  One thread runs in the file
    system at a time. *)

From S2P Require Import Prelude Kmalloc Array Bitmap Uio Blockdev Vnode.
Import Array Bitmap Uio Vnode.

Module Sfs.

(** ** Constants: kern/include/kern/sfs.h *)

Definition SFS_MAGIC : Z := 0xabadf001.
Definition SFS_BLOCKSIZE : Z := 512.
Definition SFS_VOLNAME_SIZE : Z := 32.
Definition SFS_NDIRECT : Z := 15.
Definition SFS_DBPERIDB : Z := 128.
Definition SFS_NAMELEN : Z := 60.
Definition SFS_SB_LOCATION : Z := 0.
Definition SFS_ROOT_LOCATION : Z := 1.
Definition SFS_MAP_LOCATION : Z := 2.
Definition SFS_NOINO : Z := 0.
Definition SFS_TYPE_INVAL : Z := 0.
Definition SFS_TYPE_FILE : Z := 1.
Definition SFS_TYPE_DIR : Z := 2.
Definition SFS_BLOCKBITS : Z := SFS_BLOCKSIZE * 8.
Definition SFS_ROUNDUP (a b : Z) : Z := u32 (u32 (a + b - 1) / b * b).
Definition SFS_BITMAPSIZE (nblocks : Z) : Z := SFS_ROUNDUP nblocks SFS_BLOCKBITS.
Definition SFS_BITBLOCKS (nblocks : Z) : Z := SFS_BITMAPSIZE nblocks / SFS_BLOCKBITS.

Definition sizeof_sfs_dir : Z := 64.
Definition sizeof_sfs_fs : Z := 552.
Definition sizeof_sfs_vnode : Z := 544.

(** ** On-disk structures

    A structure in memory is its bytes on disk; the processor is big-endian. *)

Definition bytes32 (w : Z) : list Z :=
  [u8 (Z.shiftr w 24); u8 (Z.shiftr w 16); u8 (Z.shiftr w 8); u8 w].
Definition bytes16 (w : Z) : list Z := [u8 (Z.shiftr w 8); u8 w].

Definition word32 (b : list Z) : Z :=
  match b with
  | [b0; b1; b2; b3] => ((u8 b0 * 256 + u8 b1) * 256 + u8 b2) * 256 + u8 b3
  | _ => 0
  end.
Definition word16 (b : list Z) : Z :=
  match b with [b0; b1] => u8 b0 * 256 + u8 b1 | _ => 0 end.

(** The [n]th word of a block. *)
Definition word_at (b : list Z) (n : nat) : Z := word32 (take 4 (drop (4 * n) b)).
Definition words_of (n : nat) (b : list Z) : list Z := word_at b <$> seq 0 n.
Definition bytes_of (ws : list Z) : list Z := ws ≫= bytes32.

Record sfs_super := mksuper {
  sp_magic : Z;
  sp_nblocks : Z;
  sp_volname : list Z;      (* 32 bytes *)
  sp_reserved : list Z;     (* 118 words *)
}.

Definition super_bytes (sp : sfs_super) : list Z :=
  bytes32 (sp_magic sp) ++ bytes32 (sp_nblocks sp) ++ sp_volname sp ++ bytes_of (sp_reserved sp).

Definition super_of_bytes (b : list Z) : sfs_super :=
  mksuper (word_at b 0) (word_at b 1) (take 32 (drop 8 b)) (words_of 118 (drop 40 b)).

Record sfs_inode := mkinode {
  sfi_size : Z;
  sfi_type : Z;
  sfi_linkcount : Z;
  sfi_direct : list Z;      (* SFS_NDIRECT words *)
  sfi_indirect : Z;
  sfi_waste : list Z;       (* 110 words *)
}.

Definition inode_bytes (i : sfs_inode) : list Z :=
  bytes32 (sfi_size i) ++ bytes16 (sfi_type i) ++ bytes16 (sfi_linkcount i) ++
  bytes_of (sfi_direct i) ++ bytes32 (sfi_indirect i) ++ bytes_of (sfi_waste i).

Definition inode_of_bytes (b : list Z) : sfs_inode :=
  mkinode (word_at b 0) (word16 (take 2 (drop 4 b))) (word16 (take 2 (drop 6 b)))
    (words_of 15 (drop 8 b)) (word_at b 17) (words_of 110 (drop 72 b)).

Record sfs_dir := mkdir {
  sfd_ino : Z;
  sfd_name : list Z;        (* SFS_NAMELEN bytes *)
}.

Definition dir_bytes (d : sfs_dir) : list Z := bytes32 (sfd_ino d) ++ sfd_name d.
Definition dir_of_bytes (b : list Z) : sfs_dir := mkdir (word_at b 0) (take 60 (drop 4 b)).

Definition set_size x (i : sfs_inode) : sfs_inode :=
  mkinode x (sfi_type i) (sfi_linkcount i) (sfi_direct i) (sfi_indirect i) (sfi_waste i).
Definition set_type x (i : sfs_inode) : sfs_inode :=
  mkinode (sfi_size i) x (sfi_linkcount i) (sfi_direct i) (sfi_indirect i) (sfi_waste i).
Definition set_linkcount x (i : sfs_inode) : sfs_inode :=
  mkinode (sfi_size i) (sfi_type i) x (sfi_direct i) (sfi_indirect i) (sfi_waste i).
Definition set_direct x (i : sfs_inode) : sfs_inode :=
  mkinode (sfi_size i) (sfi_type i) (sfi_linkcount i) x (sfi_indirect i) (sfi_waste i).
Definition set_indirect x (i : sfs_inode) : sfs_inode :=
  mkinode (sfi_size i) (sfi_type i) (sfi_linkcount i) (sfi_direct i) x (sfi_waste i).

(** ** In-memory structures: kern/include/sfs.h *)

(** The two tables of operations. *)
Inductive sfs_ops := sfs_fileops | sfs_dirops.

#[global] Instance sfs_ops_eq_dec : EqDecision sfs_ops.
Proof. solve_decision. Defined.

Record sfs_vnode := mksv {
  sv_v : vnode sfs_ops;
  sv_i : sfs_inode;
  sv_ino : Z;
  sv_dirty : bool;
}.

Definition set_v x (sv : sfs_vnode) : sfs_vnode := mksv x (sv_i sv) (sv_ino sv) (sv_dirty sv).
(** A change of the inode with the mark that it is dirty. *)
Definition dirty_i x (sv : sfs_vnode) : sfs_vnode := mksv (sv_v sv) x (sv_ino sv) true.
Definition set_dirty x (sv : sfs_vnode) : sfs_vnode := mksv (sv_v sv) (sv_i sv) (sv_ino sv) x.

Record sfs_fs (K D : Type) := mksfs {
  s_kern : K;
  s_ctx : uctx;
  s_dev : D;                        (* sfs_device *)
  s_self : Z;                       (* address of the structure *)
  s_super : sfs_super;              (* sfs_super *)
  s_superdirty : bool;              (* sfs_superdirty *)
  s_vnodes : array Z;               (* sfs_vnodes *)
  s_objs : gmap Z sfs_vnode;        (* the vnode structures, by address *)
  s_freemap : bitmap;               (* sfs_freemap *)
  s_freemapdirty : bool;            (* sfs_freemapdirty *)
}.
Arguments mksfs {K D} _ _ _ _ _ _ _ _ _ _.
Arguments s_kern {K D} _.
Arguments s_ctx {K D} _.
Arguments s_dev {K D} _.
Arguments s_self {K D} _.
Arguments s_super {K D} _.
Arguments s_superdirty {K D} _.
Arguments s_vnodes {K D} _.
Arguments s_objs {K D} _.
Arguments s_freemap {K D} _.
Arguments s_freemapdirty {K D} _.

Section ops.
Context {K D : Type} `{!Kmalloc K, !Locks K, !Device D}.
Abbreviation sfs := (sfs_fs K D).
Abbreviation SM := (M sfs).
(** Operations that are handed a uio. *)
Abbreviation XM := (M (sfs * uio)).

Definition set_kern x (s : sfs) : sfs := mksfs x (s_ctx s) (s_dev s) (s_self s) (s_super s) (s_superdirty s)
  (s_vnodes s) (s_objs s) (s_freemap s) (s_freemapdirty s).
Definition set_ctx x (s : sfs) : sfs := mksfs (s_kern s) x (s_dev s) (s_self s) (s_super s) (s_superdirty s)
  (s_vnodes s) (s_objs s) (s_freemap s) (s_freemapdirty s).
Definition set_dev x (s : sfs) : sfs := mksfs (s_kern s) (s_ctx s) x (s_self s) (s_super s) (s_superdirty s)
  (s_vnodes s) (s_objs s) (s_freemap s) (s_freemapdirty s).
Definition set_super x (s : sfs) : sfs := mksfs (s_kern s) (s_ctx s) (s_dev s) (s_self s) x (s_superdirty s)
  (s_vnodes s) (s_objs s) (s_freemap s) (s_freemapdirty s).
Definition set_superdirty x (s : sfs) : sfs := mksfs (s_kern s) (s_ctx s) (s_dev s) (s_self s) (s_super s) x
  (s_vnodes s) (s_objs s) (s_freemap s) (s_freemapdirty s).
Definition set_vnodes x (s : sfs) : sfs := mksfs (s_kern s) (s_ctx s) (s_dev s) (s_self s) (s_super s)
  (s_superdirty s) x (s_objs s) (s_freemap s) (s_freemapdirty s).
Definition set_objs x (s : sfs) : sfs := mksfs (s_kern s) (s_ctx s) (s_dev s) (s_self s) (s_super s)
  (s_superdirty s) (s_vnodes s) x (s_freemap s) (s_freemapdirty s).
Definition set_freemap x (s : sfs) : sfs := mksfs (s_kern s) (s_ctx s) (s_dev s) (s_self s) (s_super s)
  (s_superdirty s) (s_vnodes s) (s_objs s) x (s_freemapdirty s).
Definition set_freemapdirty x (s : sfs) : sfs := mksfs (s_kern s) (s_ctx s) (s_dev s) (s_self s) (s_super s)
  (s_superdirty s) (s_vnodes s) (s_objs s) (s_freemap s) x.

Definition kernL : lens sfs K := Lens s_kern set_kern.
Definition freemapL : lens sfs bitmap := Lens s_freemap set_freemap.
Definition vnodesL : lens sfs (K * array Z) :=
  Lens (fun s => (s_kern s, s_vnodes s)) (fun t s => set_vnodes t.2 (set_kern t.1 s)).
Definition devL : lens (sfs * uio) (D * (uctx * uio)) :=
  Lens (fun x => (s_dev x.1, (s_ctx x.1, x.2))) (fun t x => (set_ctx t.2.1 (set_dev t.1 x.1), t.2.2)).
Definition sfsL : lens (sfs * uio) sfs := Lens fst (fun s x => (s, x.2)).

(** A routine on the volume inside one that has a uio. *)
Definition fs {A} (m : SM A) : XM A := zoom sfsL m.

(** A call with a uio of the caller's own, which is returned. *)
Definition with_uio {A} (u : uio) (m : XM A) : SM (A * uio) := fun s =>
  match m (s, u) with
  | Done a (s', u') => Done (a, u') s'
  | Fail e (s', _) => Fail e s'
  | Panic => Panic
  | Undef => Undef
  | NoFuel => NoFuel
  end.

Definition get_sv (p : Z) : SM sfs_vnode := s ← gets id; access (s_objs s !! p).
Definition put_sv (p : Z) (sv : sfs_vnode) : SM unit := modify (fun s => set_objs (<[p := sv]> (s_objs s)) s).

(** ** Block I/O: sfs_io.c *)

(** [tries] is ten minus [left]. *)
Fixpoint rw_retry (left : nat) : XM unit :=
  r ← attempt (zoom devL d_io);
  match r with
  | inl EINVAL => panic
  | inl EIO => match left with O => fail EIO | S left' => rw_retry left' end
  | inl e => fail e
  | inr _ => mret tt
  end.

Definition sfs_rwblock : XM unit := rw_retry 10.

(** The macro [SFSUIO]. *)
Definition SFSUIO (data : list Z) (block : Z) (d : uio_rw) : uio :=
  mk_kuio data SFS_BLOCKSIZE (s32 (block * SFS_BLOCKSIZE)) d.

(** The new contents of the buffer [data]. *)
Definition sfs_rblock (data : list Z) (block : Z) : SM (list Z) :=
  r ← with_uio (SFSUIO data block UIO_READ) sfs_rwblock; mret (iov_kbuf r.2).

Definition sfs_wblock (data : list Z) (block : Z) : SM unit :=
  _ ← with_uio (SFSUIO data block UIO_WRITE) sfs_rwblock; mret tt.

Definition zero_block : list Z := replicate (Z.to_nat SFS_BLOCKSIZE) 0.

(** ** Simple stuff *)

Definition sfs_clearblock (block : Z) : SM unit := sfs_wblock zero_block block.

Definition sfs_sync_inode (p : Z) : SM unit :=
  sv ← get_sv p;
  if sv_dirty sv then
    sfs_wblock (inode_bytes (sv_i sv)) (sv_ino sv) ;;
    put_sv p (set_dirty false sv)
  else mret tt.

(** ** Space allocation *)

Definition sfs_balloc : SM Z :=
  block ← zoom freemapL bitmap_alloc;
  modify (set_freemapdirty true) ;;
  s ← gets id;
  if decide (block >= sp_nblocks (s_super s)) then panic
  else sfs_clearblock block ;; mret block.

Definition sfs_bfree (block : Z) : SM unit :=
  zoom freemapL (bitmap_unmark block) ;;
  modify (set_freemapdirty true).

Definition sfs_bused (block : Z) : SM Z :=
  s ← gets id;
  if decide (block >= sp_nblocks (s_super s)) then panic
  else zoom freemapL (bitmap_isset block).

(** [if (block != 0 && !sfs_bused(sfs, block)) panic] *)
Definition check_used (block : Z) : SM unit :=
  if decide (block <> 0) then
    b ← sfs_bused block;
    if decide (b = 0) then panic else mret tt
  else mret tt.

(** ** Block mapping *)

(** The branch of [sfs_bmap] for direct blocks. *)
Definition bmap_direct (p fileblock : Z) (doalloc : bool) : SM Z :=
  sv ← get_sv p;
  block ← access (zlookup (sfi_direct (sv_i sv)) fileblock);
  block ← (if decide (block = 0 /\ doalloc = true) then
             block ← sfs_balloc;
             sv ← get_sv p;
             d ← access (zinsert (sfi_direct (sv_i sv)) fileblock block);
             put_sv p (dirty_i (set_direct d (sv_i sv)) sv) ;;
             mret block
           else mret block);
  check_used block ;;
  mret block.

(** The indirect block and its words, allocated if there is none. *)
Definition bmap_indirect (p : Z) : SM (Z * list Z) :=
  sv ← get_sv p;
  let idblock := sfi_indirect (sv_i sv) in
  if decide (idblock = 0) then
    idblock ← sfs_balloc;
    sv ← get_sv p;
    put_sv p (dirty_i (set_indirect idblock (sv_i sv)) sv) ;;
    mret (idblock, replicate (Z.to_nat SFS_DBPERIDB) 0)
  else
    b ← sfs_rblock zero_block idblock;
    mret (idblock, words_of (Z.to_nat SFS_DBPERIDB) b).

(** The disk block, 0 for none. *)
Definition sfs_bmap (p fileblock : Z) (doalloc : bool) : SM Z :=
  if decide (fileblock < SFS_NDIRECT) then bmap_direct p fileblock doalloc
  else
    let fileblock := fileblock - SFS_NDIRECT in
    let idnum := fileblock / SFS_DBPERIDB in
    let idoff := fileblock mod SFS_DBPERIDB in
    if decide (idnum > 0) then fail EINVAL
    else
      sv ← get_sv p;
      if decide (sfi_indirect (sv_i sv) = 0 /\ doalloc = false) then mret 0
      else
        '(idblock, idbuf) ← bmap_indirect p;
        block ← access (zlookup idbuf idoff);
        block ← (if decide (block = 0 /\ doalloc = true) then
                   block ← sfs_balloc;
                   idbuf ← access (zinsert idbuf idoff block);
                   sfs_wblock (bytes_of idbuf) idblock ;;
                   mret block
                 else mret block);
        check_used block ;;
        mret block.

(** ** File-level I/O *)

(** [uiomove] on a buffer of the file system, which is returned. *)
Definition move_buf (buf : list Z) (ptr n : Z) : XM (list Z) := fun '(s, u) =>
  match uiomove ptr n (buf, (s_ctx s, u)) with
  | Done _ (buf', (c, u')) => Done buf' (set_ctx c s, u')
  | Fail e (_, (c, u')) => Fail e (set_ctx c s, u')
  | Panic => Panic
  | Undef => Undef
  | NoFuel => NoFuel
  end.

Definition get_uio {A} (f : uio -> A) : XM A := gets (fun x => f x.2).
Definition mod_uio (f : uio -> uio) : XM unit := modify (fun x => (x.1, f x.2)).

Definition is_write (u : uio) : bool := bool_decide (rw u = UIO_WRITE).

Definition sfs_partialio (p skipstart len : Z) : XM unit :=
  u ← get_uio id;
  kassert (bool_decide (u32 (skipstart + len) <= SFS_BLOCKSIZE)) ;;
  let fileblock := u32 (Z.quot (uio_offset u) SFS_BLOCKSIZE) in
  diskblock ← fs (sfs_bmap p fileblock (is_write u));
  iobuf ← (if decide (diskblock = 0) then
             kassert (bool_decide (rw u = UIO_READ)) ;; mret zero_block
           else fs (sfs_rblock zero_block diskblock));
  iobuf ← move_buf iobuf skipstart len;
  if is_write u then fs (sfs_wblock iobuf diskblock) else mret tt.

Definition zeros_io (n : Z) : XM unit :=
  zoom (Lens (fun x => (s_ctx x.1, x.2)) (fun t x => (set_ctx t.1 x.1, t.2))) (uiomovezeros n).

Definition sfs_blockio (p : Z) : XM unit :=
  u ← get_uio id;
  let fileblock := u32 (Z.quot (uio_offset u) SFS_BLOCKSIZE) in
  diskblock ← fs (sfs_bmap p fileblock (is_write u));
  if decide (diskblock = 0) then
    kassert (bool_decide (rw u = UIO_READ)) ;; zeros_io SFS_BLOCKSIZE
  else
    let saveoff := uio_offset u in
    let diskoff := s32 (diskblock * SFS_BLOCKSIZE) in
    mod_uio (set_offset diskoff) ;;
    kassert (bool_decide (uio_resid u >= SFS_BLOCKSIZE)) ;;
    let saveres := s32 (uio_resid u) in
    let diskres := SFS_BLOCKSIZE in
    mod_uio (set_resid (u32 diskres)) ;;
    r ← attempt sfs_rwblock;
    mod_uio (fun u => set_offset (s32 (s32 (uio_offset u - diskoff) + saveoff)) u) ;;
    mod_uio (fun u => set_resid (u32 (u32 (uio_resid u - diskres) + saveres)) u) ;;
    match r with inl e => fail e | inr _ => mret tt end.

(** [sfs_io] between the check for the end of the file and the label [out]. *)
Definition io_blocks (p : Z) : XM unit :=
  u ← get_uio id;
  let blkoff := u32 (Z.rem (uio_offset u) SFS_BLOCKSIZE) in
  (if decide (blkoff <> 0) then
     let len := u32 (SFS_BLOCKSIZE - blkoff) in
     let len := if decide (len > uio_resid u) then uio_resid u else len in
     sfs_partialio p blkoff len
   else mret tt) ;;
  u ← get_uio id;
  if decide (uio_resid u = 0) then mret tt
  else
    kassert (bool_decide (Z.rem (uio_offset u) SFS_BLOCKSIZE = 0)) ;;
    let nblocks := uio_resid u / SFS_BLOCKSIZE in
    for_n (Z.to_nat nblocks) 0 (fun _ => sfs_blockio p) ;;
    u ← get_uio id;
    kassert (bool_decide (uio_resid u < SFS_BLOCKSIZE)) ;;
    if decide (uio_resid u > 0) then sfs_partialio p 0 (uio_resid u) else mret tt.

Definition io_finish (p extraresid : Z) : XM unit :=
  u ← get_uio id;
  sv ← fs (get_sv p);
  (if decide (rw u = UIO_WRITE /\ uio_offset u > s32 (sfi_size (sv_i sv))) then
     fs (put_sv p (dirty_i (set_size (u32 (uio_offset u)) (sv_i sv)) sv))
   else mret tt) ;;
  mod_uio (fun u => set_resid (u32 (uio_resid u + extraresid)) u).

Definition io_run (p extraresid : Z) : XM unit :=
  r ← attempt (io_blocks p);
  io_finish p extraresid ;;
  match r with inl e => fail e | inr _ => mret tt end.

Definition sfs_io (p : Z) : XM unit :=
  u ← get_uio id;
  if decide (rw u = UIO_READ) then
    sv ← fs (get_sv p);
    let size := s32 (sfi_size (sv_i sv)) in
    let endpos := s32 (uio_offset u + uio_resid u) in
    if decide (uio_offset u >= size) then mret tt
    else if decide (endpos > size) then
      let extraresid := u32 (endpos - size) in
      kassert (bool_decide (uio_resid u > extraresid)) ;;
      mod_uio (set_resid (uio_resid u - extraresid)) ;;
      io_run p extraresid
    else io_run p 0
  else io_run p 0.

(** ** Directory I/O *)

Definition zero_dir : list Z := replicate (Z.to_nat sizeof_sfs_dir) 0.

Definition sfs_readdir (p slot : Z) : SM sfs_dir :=
  let actualpos := s32 (slot * sizeof_sfs_dir) in
  r ← with_uio (mk_kuio zero_dir sizeof_sfs_dir actualpos UIO_READ) (sfs_io p);
  if decide (uio_resid r.2 > 0) then panic else mret (dir_of_bytes (iov_kbuf r.2)).

Definition sfs_writedir (p : Z) (sd : sfs_dir) (slot : Z) : SM unit :=
  kassert (bool_decide (slot >= 0)) ;;
  let actualpos := s32 (slot * sizeof_sfs_dir) in
  r ← with_uio (mk_kuio (dir_bytes sd) sizeof_sfs_dir actualpos UIO_WRITE) (sfs_io p);
  if decide (uio_resid r.2 > 0) then panic else mret tt.

Definition sfs_dir_nentries (p : Z) : SM Z :=
  sv ← get_sv p;
  kassert (bool_decide (sfi_type (sv_i sv) = SFS_TYPE_DIR)) ;;
  let size := u32 (s32 (sfi_size (sv_i sv))) in
  if decide (size mod sizeof_sfs_dir <> 0) then panic
  else mret (s32 (size / sizeof_sfs_dir)).

(** The characters before the terminator. *)
Fixpoint cstring (b : list Z) : list Z :=
  match b with
  | [] => []
  | c :: b' => if decide (c = 0) then [] else c :: cstring b'
  end.

(** [sfd_name] with its last byte set to zero. *)
Definition terminated (d : sfs_dir) : list Z := <[Z.to_nat (SFS_NAMELEN - 1) := 0]> (sfd_name d).

(** The loop of [sfs_dir_findname]: what was found (inode number and slot), and the
    last empty slot seen. *)
Fixpoint findname_loop (n : nat) (p i : Z) (name : list Z) (found : option (Z * Z)) (emptyslot : Z)
    : SM (option (Z * Z) * Z) :=
  match n with
  | O => mret (found, emptyslot)
  | S n' =>
      tsd ← sfs_readdir p i;
      if decide (sfd_ino tsd = SFS_NOINO) then findname_loop n' p (i + 1) name found i
      else if decide (cstring (terminated tsd) = name) then
        kassert (bool_decide (found = None)) ;;
        findname_loop n' p (i + 1) name (Some (sfd_ino tsd, i)) emptyslot
      else findname_loop n' p (i + 1) name found emptyslot
  end.

(** [None] for [ENOENT]; [emptyslot] is -1 when there is none. *)
Definition sfs_dir_findname (p : Z) (name : list Z) : SM (option (Z * Z) * Z) :=
  nentries ← sfs_dir_nentries p;
  findname_loop (Z.to_nat nentries) p 0 name None (-1).

(** The entry with a name, filled up with zeros. *)
Definition new_entry (ino : Z) (name : list Z) : sfs_dir :=
  mkdir ino (name ++ replicate (Z.to_nat SFS_NAMELEN - length name) 0).

Definition sfs_dir_link (p : Z) (name : list Z) (ino : Z) : SM Z :=
  '(found, emptyslot) ← sfs_dir_findname p name;
  if decide (found <> None) then fail EEXIST
  else if decide (Z.of_nat (length name) + 1 > SFS_NAMELEN) then fail ENAMETOOLONG
  else
    slot ← (if decide (emptyslot < 0) then sfs_dir_nentries p else mret emptyslot);
    sfs_writedir p (new_entry ino name) slot ;;
    mret slot.

Definition sfs_dir_unlink (p slot : Z) : SM unit :=
  sfs_writedir p (new_entry SFS_NOINO []) slot.

(** ** Vnodes *)

Definition vget (p : Z) (s : sfs) : option (vnode sfs_ops) := sv_v <$> s_objs s !! p.
Definition vput (p : Z) (v : vnode sfs_ops) (s : sfs) : sfs :=
  set_objs (alter (set_v v) p (s_objs s)) s.

Definition VOP_INCREF (p : Z) : SM unit := vnode_incref kernL vget vput p.

(** A call through the table of operations of a vnode: the macro [__VOP]. *)
Definition vop {A} (p : Z) (opstr : string) (f : sfs_ops -> SM A) : SM A :=
  vnode_check kernL vget p opstr ;;
  v ← get_vn vget p;
  match vn_ops v with Some o => f o | None => undef end.

(** The sweep over the loaded vnodes in [sfs_loadvnode]. *)
Fixpoint find_loaded (n : nat) (i ino forcetype : Z) : SM (option Z) :=
  match n with
  | O => mret None
  | S n' =>
      o ← zoom vnodesL (array_getguy i);
      p ← access o;
      sv ← get_sv p;
      b ← sfs_bused (sv_ino sv);
      if decide (b = 0) then panic
      else if decide (sv_ino sv = ino) then
        kassert (bool_decide (forcetype = SFS_TYPE_INVAL)) ;;
        VOP_INCREF p ;;
        mret (Some p)
      else find_loaded n' (i + 1) ino forcetype
  end.

(** [kfree(sv)] *)
Definition free_sv (p : Z) : SM unit :=
  zoom kernL (kfree p) ;;
  modify (fun s => set_objs (delete p (s_objs s)) s).

(** A vnode structure whose [sv_v] and [sv_ino] are still to be set. *)
Definition blank_sv (i : sfs_inode) (dirty : bool) : sfs_vnode := mksv (mkvnode 0 0 0 0 0 None) i 0 dirty.

(** The part of [sfs_loadvnode] after the inode was read. *)
Definition install_vnode (p ino : Z) (ops : sfs_ops) : SM Z :=
  s ← gets id;
  r ← attempt (vnode_init kernL vput p ops (s_self s) p);
  match r with
  | inl e => free_sv p ;; fail e
  | inr _ =>
      sv ← get_sv p;
      put_sv p (mksv (sv_v sv) (sv_i sv) ino (sv_dirty sv)) ;;
      r ← attempt (zoom vnodesL (array_add p));
      match r with
      | inl e => vnode_kill kernL vget vput p ;; free_sv p ;; fail e
      | inr _ => mret p
      end
  end.

Definition sfs_loadvnode (ino forcetype : Z) : SM Z :=
  num ← zoom vnodesL array_getnum;
  o ← find_loaded (Z.to_nat num) 0 ino forcetype;
  match o with
  | Some p => mret p
  | None =>
      p ← zoom kernL (kmalloc sizeof_sfs_vnode);
      if decide (p = 0) then fail ENOMEM
      else
        b ← sfs_bused ino;
        if decide (b = 0) then panic
        else
          r ← attempt (sfs_rblock zero_block ino);
          match r with
          | inl e => zoom kernL (kfree p) ;; fail e
          | inr data =>
              let i := inode_of_bytes data in
              put_sv p (blank_sv i false) ;;
              (if decide (forcetype <> SFS_TYPE_INVAL) then
                 kassert (bool_decide (sfi_type i = SFS_TYPE_INVAL)) ;;
                 put_sv p (blank_sv (set_type forcetype i) true)
               else mret tt) ;;
              sv ← get_sv p;
              if decide (sfi_type (sv_i sv) = SFS_TYPE_FILE) then install_vnode p ino sfs_fileops
              else if decide (sfi_type (sv_i sv) = SFS_TYPE_DIR) then install_vnode p ino sfs_dirops
              else panic
          end
  end.

Definition sfs_getroot : SM Z :=
  r ← attempt (sfs_loadvnode SFS_ROOT_LOCATION SFS_TYPE_INVAL);
  match r with inl _ => panic | inr p => mret p end.

Definition sfs_lookonce (p : Z) (name : list Z) : SM (Z * Z) :=
  '(found, _) ← sfs_dir_findname p name;
  match found with
  | None => fail ENOENT
  | Some (ino, slot) =>
      q ← sfs_loadvnode ino SFS_TYPE_INVAL;
      sv ← get_sv q;
      if decide (sfi_linkcount (sv_i sv) = 0) then panic else mret (q, slot)
  end.

Definition sfs_makeobj (type : Z) : SM Z :=
  ino ← sfs_balloc;
  sfs_loadvnode ino type.

(** ** Vnode operations *)

Definition O_ACCMODE : Z := 3.
Definition O_RDONLY : Z := 0.
Definition O_APPEND : Z := 32.
Definition S_IFREG : Z := 4096.
Definition S_IFDIR : Z := 8192.

Definition sfs_open (openflags : Z) : SM unit :=
  if decide (Z.land openflags O_APPEND <> 0) then fail EUNIMP else mret tt.

Definition sfs_opendir (openflags : Z) : SM unit :=
  if decide (Z.land openflags O_ACCMODE <> O_RDONLY) then fail EISDIR
  else if decide (Z.land openflags O_APPEND <> 0) then fail EISDIR
  else mret tt.

Definition sfs_fsync (p : Z) : SM unit := sfs_sync_inode p.
Definition VOP_FSYNC (p : Z) : SM unit := vop p "fsync" (fun _ => sfs_fsync p).
Definition sfs_close (p : Z) : SM unit := VOP_FSYNC p.

Definition sfs_read (p : Z) : XM unit :=
  u ← get_uio id; kassert (bool_decide (rw u = UIO_READ)) ;; sfs_io p.
Definition sfs_write (p : Z) : XM unit :=
  u ← get_uio id; kassert (bool_decide (rw u = UIO_WRITE)) ;; sfs_io p.

Definition sfs_ioctl (op data : Z) : SM unit := fail EINVAL.

Definition sfs_gettype (p : Z) : SM Z :=
  sv ← get_sv p;
  if decide (sfi_type (sv_i sv) = SFS_TYPE_FILE) then mret S_IFREG
  else if decide (sfi_type (sv_i sv) = SFS_TYPE_DIR) then mret S_IFDIR
  else panic.

Record stat := mkstat { st_mode : Z; st_nlink : Z; st_size : Z; st_blocks : Z }.

Definition sfs_stat (p : Z) : SM stat :=
  mode ← vop p "gettype" (fun _ => sfs_gettype p);
  sv ← get_sv p;
  mret (mkstat mode 0 (s32 (sfi_size (sv_i sv))) 0).

Definition sfs_tryseek (pos : Z) : SM unit := if decide (pos < 0) then fail EINVAL else mret tt.
Definition sfs_mmap : SM unit := fail EUNIMP.
Definition sfs_notdir {A} : SM A := fail ENOTDIR.
Definition sfs_isdir {A} : SM A := fail EISDIR.
Definition sfs_unimp {A} : SM A := fail EUNIMP.

(** The loop of [sfs_truncate] over the direct blocks. *)
Definition truncate_direct (p blocklen i : Z) : SM unit :=
  sv ← get_sv p;
  block ← access (zlookup (sfi_direct (sv_i sv)) i);
  if decide (i >= blocklen /\ block <> 0) then
    sfs_bfree block ;;
    d ← access (zinsert (sfi_direct (sv_i sv)) i 0);
    put_sv p (dirty_i (set_direct d (sv_i sv)) sv)
  else mret tt.

(** The loop over the words of the indirect block: the new words, [hasnonzero] and
    [iddirty]. *)
Fixpoint truncate_indirect (n : nat) (j blocklen : Z) (idbuf : list Z) (hasnonzero iddirty : bool)
    : SM (list Z * bool * bool) :=
  match n with
  | O => mret (idbuf, hasnonzero, iddirty)
  | S n' =>
      block ← access (zlookup idbuf j);
      if decide (blocklen < SFS_NDIRECT + j /\ block <> 0) then
        sfs_bfree block ;;
        idbuf ← access (zinsert idbuf j 0);
        truncate_indirect n' (j + 1) blocklen idbuf hasnonzero true
      else
        truncate_indirect n' (j + 1) blocklen idbuf (hasnonzero || bool_decide (block <> 0)) iddirty
  end.

(** The indirect block: freed when nothing is left in it, else written back if changed. *)
Definition truncate_idblock (p blocklen idblock : Z) : SM unit :=
  let highblock := SFS_NDIRECT + SFS_DBPERIDB - 1 in
  if decide (blocklen < highblock /\ idblock <> 0) then
    b ← sfs_rblock zero_block idblock;
    '(idbuf, hasnonzero, iddirty) ←
       truncate_indirect (Z.to_nat SFS_DBPERIDB) 0 blocklen (words_of (Z.to_nat SFS_DBPERIDB) b) false false;
    if negb hasnonzero then
      sfs_bfree idblock ;;
      sv ← get_sv p;
      put_sv p (dirty_i (set_indirect 0 (sv_i sv)) sv)
    else if iddirty : bool then sfs_wblock (bytes_of idbuf) idblock
    else mret tt
  else mret tt.

Definition sfs_truncate (p len : Z) : SM unit :=
  let blocklen := u32 (Z.quot (s32 (len + SFS_BLOCKSIZE - 1)) SFS_BLOCKSIZE) in
  for_n (Z.to_nat SFS_NDIRECT) 0 (truncate_direct p blocklen) ;;
  sv ← get_sv p;
  truncate_idblock p blocklen (sfi_indirect (sv_i sv)) ;;
  sv ← get_sv p;
  put_sv p (dirty_i (set_size (u32 len) (sv_i sv)) sv).

Definition VOP_TRUNCATE (p len : Z) : SM unit :=
  vop p "truncate" (fun o => match o with sfs_fileops => sfs_truncate p len | sfs_dirops => sfs_isdir end).

(** The index of a vnode in the table, -1 when it is not there. *)
Fixpoint find_index (n : nat) (i p : Z) : SM Z :=
  match n with
  | O => mret (-1)
  | S n' =>
      o ← zoom vnodesL (array_getguy i);
      q ← access o;
      if decide (q = p) then mret i else find_index n' (i + 1) p
  end.

Definition sfs_reclaim (p : Z) : SM unit :=
  sv ← get_sv p;
  zoom kernL (lock_acquire (vn_countlock (sv_v sv))) ;;
  sv ← get_sv p;
  if decide (vn_refcount (sv_v sv) <> 1) then
    kassert (bool_decide (vn_refcount (sv_v sv) > 1)) ;;
    put_sv p (set_v (set_refcount (vn_refcount (sv_v sv) - 1) (sv_v sv)) sv) ;;
    zoom kernL (lock_release (vn_countlock (sv_v sv))) ;;
    fail EBUSY
  else
    zoom kernL (lock_release (vn_countlock (sv_v sv))) ;;
    (if decide (sfi_linkcount (sv_i sv) = 0) then VOP_TRUNCATE p 0 else mret tt) ;;
    sfs_sync_inode p ;;
    sv ← get_sv p;
    (if decide (sfi_linkcount (sv_i sv) = 0) then sfs_bfree (sv_ino sv) else mret tt) ;;
    num ← zoom vnodesL array_getnum;
    ix ← find_index (Z.to_nat num) 0 p;
    if decide (ix < 0) then panic
    else
      zoom vnodesL (array_remove ix) ;;
      vnode_kill kernL vget vput p ;;
      free_sv p.

Definition VOP_DECREF (p : Z) : SM unit := vnode_decref kernL vget vput sfs_reclaim p.

Definition sfs_namefile (p : Z) : SM unit :=
  sv ← get_sv p; kassert (bool_decide (sv_ino sv = SFS_ROOT_LOCATION)).

(** [linkcount++], with the mark that the inode is dirty. *)
Definition add_link (p n : Z) : SM unit :=
  sv ← get_sv p;
  put_sv p (dirty_i (set_linkcount (u16 (sfi_linkcount (sv_i sv) + n)) (sv_i sv)) sv).

Definition sfs_creat (p : Z) (name : list Z) (excl : bool) : SM Z :=
  '(found, _) ← sfs_dir_findname p name;
  match found with
  | Some (ino, _) => if excl then fail EEXIST else sfs_loadvnode ino SFS_TYPE_INVAL
  | None =>
      newguy ← sfs_makeobj SFS_TYPE_FILE;
      sv ← get_sv newguy;
      r ← attempt (sfs_dir_link p name (sv_ino sv));
      match r with
      | inl e => VOP_DECREF newguy ;; fail e
      | inr _ => add_link newguy 1 ;; mret newguy
      end
  end.

(** Both vnodes are of this volume. *)
Definition sfs_link (dir : Z) (name : list Z) (file : Z) : SM unit :=
  f ← get_sv file;
  _ ← sfs_dir_link dir name (sv_ino f);
  add_link file 1.

Definition sfs_remove (dir : Z) (name : list Z) : SM unit :=
  '(victim, slot) ← sfs_lookonce dir name;
  r ← attempt (sfs_dir_unlink dir slot);
  (match r with
   | inr _ =>
       sv ← get_sv victim;
       kassert (bool_decide (sfi_linkcount (sv_i sv) > 0)) ;;
       add_link victim (-1)
   | inl _ => mret tt
   end) ;;
  VOP_DECREF victim ;;
  match r with inl e => fail e | inr _ => mret tt end.

Definition sfs_rename (d1 : Z) (n1 : list Z) (d2 : Z) (n2 : list Z) : SM unit :=
  kassert (bool_decide (d1 = d2)) ;;
  sv ← get_sv d1;
  kassert (bool_decide (sv_ino sv = SFS_ROOT_LOCATION)) ;;
  '(g1, slot1) ← sfs_lookonce d1 n1;
  sg ← get_sv g1;
  kassert (bool_decide (sfi_type (sv_i sg) = SFS_TYPE_FILE)) ;;
  r ← attempt (sfs_dir_link d1 n2 (sv_ino sg));
  match r with
  | inl e => VOP_DECREF g1 ;; fail e
  | inr slot2 =>
      add_link g1 1 ;;
      r ← attempt (sfs_dir_unlink d1 slot1);
      match r with
      | inr _ =>
          sg ← get_sv g1;
          kassert (bool_decide (sfi_linkcount (sv_i sg) > 0)) ;;
          add_link g1 (-1) ;;
          VOP_DECREF g1
      | inl e =>
          r2 ← attempt (sfs_dir_unlink d1 slot2);
          match r2 with
          | inl _ => panic
          | inr _ =>
              sg ← get_sv g1;
              put_sv g1 (mksv (sv_v sg) (set_linkcount (u16 (sfi_linkcount (sv_i sg) - 1)) (sv_i sg)) (sv_ino sg) (sv_dirty sg)) ;;
              VOP_DECREF g1 ;;
              fail e
          end
      end
  end.

(** The path copied to the buffer of the caller, and the directory. *)
Definition sfs_lookparent (p : Z) (path : list Z) (buflen : Z) : SM (Z * list Z) :=
  sv ← get_sv p;
  if decide (sfi_type (sv_i sv) <> SFS_TYPE_DIR) then fail ENOTDIR
  else if decide (Z.of_nat (length path) + 1 > buflen) then fail ENAMETOOLONG
  else VOP_INCREF p ;; mret (p, path).

Definition sfs_lookup (p : Z) (path : list Z) : SM Z :=
  sv ← get_sv p;
  if decide (sfi_type (sv_i sv) <> SFS_TYPE_DIR) then fail ENOTDIR
  else '(final, _) ← sfs_lookonce p path; mret final.

(** ** The tables of operations

    What each operation does for the vnode of a file and of a directory. *)

Definition VOP_OPEN (p flags : Z) : SM unit :=
  vop p "open" (fun o => match o with sfs_fileops => sfs_open flags | sfs_dirops => sfs_opendir flags end).
Definition VOP_CLOSE (p : Z) : SM unit := vop p "close" (fun _ => sfs_close p).
Definition VOP_RECLAIM (p : Z) : SM unit := vop p "reclaim" (fun _ => sfs_reclaim p).
Definition VOP_READLINK (p : Z) : SM unit :=
  vop p "readlink" (fun o => match o with sfs_fileops => sfs_notdir | sfs_dirops => sfs_isdir end).
Definition VOP_GETDIRENTRY (p : Z) : SM unit :=
  vop p "getdirentry" (fun o => match o with sfs_fileops => sfs_notdir | sfs_dirops => sfs_unimp end).
Definition VOP_IOCTL (p op data : Z) : SM unit := vop p "ioctl" (fun _ => sfs_ioctl op data).
Definition VOP_STAT (p : Z) : SM stat := vop p "stat" (fun _ => sfs_stat p).
Definition VOP_GETTYPE (p : Z) : SM Z := vop p "gettype" (fun _ => sfs_gettype p).
Definition VOP_TRYSEEK (p pos : Z) : SM unit :=
  vop p "tryseek" (fun o => match o with sfs_fileops => sfs_tryseek pos | sfs_dirops => sfs_unimp end).
Definition VOP_MMAP (p : Z) : SM unit :=
  vop p "mmap" (fun o => match o with sfs_fileops => sfs_mmap | sfs_dirops => sfs_isdir end).
Definition VOP_NAMEFILE (p : Z) : SM unit :=
  vop p "namefile" (fun o => match o with sfs_fileops => sfs_notdir | sfs_dirops => sfs_namefile p end).
Definition VOP_CREAT (p : Z) (name : list Z) (excl : bool) : SM Z :=
  vop p "creat" (fun o => match o with sfs_fileops => sfs_notdir | sfs_dirops => sfs_creat p name excl end).
Definition VOP_SYMLINK (p : Z) : SM unit :=
  vop p "symlink" (fun o => match o with sfs_fileops => sfs_notdir | sfs_dirops => sfs_unimp end).
Definition VOP_MKDIR (p : Z) : SM unit :=
  vop p "mkdir" (fun o => match o with sfs_fileops => sfs_notdir | sfs_dirops => sfs_unimp end).
Definition VOP_LINK (p : Z) (name : list Z) (file : Z) : SM unit :=
  vop p "link" (fun o => match o with sfs_fileops => sfs_notdir | sfs_dirops => sfs_link p name file end).
Definition VOP_REMOVE (p : Z) (name : list Z) : SM unit :=
  vop p "remove" (fun o => match o with sfs_fileops => sfs_notdir | sfs_dirops => sfs_remove p name end).
Definition VOP_RMDIR (p : Z) : SM unit :=
  vop p "rmdir" (fun o => match o with sfs_fileops => sfs_notdir | sfs_dirops => sfs_unimp end).
Definition VOP_RENAME (p : Z) (n1 : list Z) (q : Z) (n2 : list Z) : SM unit :=
  vop p "rename" (fun o => match o with sfs_fileops => sfs_notdir | sfs_dirops => sfs_rename p n1 q n2 end).
Definition VOP_LOOKUP (p : Z) (path : list Z) : SM Z :=
  vop p "lookup" (fun o => match o with sfs_fileops => sfs_notdir | sfs_dirops => sfs_lookup p path end).
Definition VOP_LOOKPARENT (p : Z) (path : list Z) (buflen : Z) : SM (Z * list Z) :=
  vop p "lookparent" (fun o => match o with sfs_fileops => sfs_notdir | sfs_dirops => sfs_lookparent p path buflen end).

(** The operations that take a uio. *)
Definition VOP_READ (p : Z) : XM unit :=
  o ← fs (vop p "read" mret);
  match o with sfs_fileops => sfs_read p | sfs_dirops => fs sfs_isdir end.
Definition VOP_WRITE (p : Z) : XM unit :=
  o ← fs (vop p "write" mret);
  match o with sfs_fileops => sfs_write p | sfs_dirops => fs sfs_isdir end.

(** ** The volume: sfs_fs.c *)

(** Sector [j] of the free block bitmap, read or written. *)
Definition mapio_sector (d : uio_rw) (j : Z) : SM unit :=
  s ← gets id;
  ptr ← access (slice (bitmap_getdata (s_freemap s)) (j * SFS_BLOCKSIZE) SFS_BLOCKSIZE);
  match d with
  | UIO_READ =>
      b ← sfs_rblock ptr (SFS_MAP_LOCATION + j);
      s ← gets id;
      v ← access (splice (bitmap_getdata (s_freemap s)) (j * SFS_BLOCKSIZE) b);
      modify (set_freemap (Bitmap.set_v v (s_freemap s)))
  | UIO_WRITE => sfs_wblock ptr (SFS_MAP_LOCATION + j)
  end.

Definition sfs_mapio (d : uio_rw) : SM unit :=
  s ← gets id;
  let mapsize := SFS_BITBLOCKS (sp_nblocks (s_super s)) in
  for_n (Z.to_nat mapsize) 0 (mapio_sector d).

(** The sweep of [sfs_sync] over the loaded vnodes; errors are ignored. *)
Definition sync_vnode (i : Z) : SM unit :=
  o ← zoom vnodesL (array_getguy i);
  p ← access o;
  _ ← attempt (VOP_FSYNC p);
  mret tt.

Definition sfs_sync : SM unit :=
  num ← zoom vnodesL array_getnum;
  for_n (Z.to_nat num) 0 sync_vnode ;;
  s ← gets id;
  (if s_freemapdirty s then sfs_mapio UIO_WRITE ;; modify (set_freemapdirty false) else mret tt) ;;
  s ← gets id;
  if s_superdirty s then
    sfs_wblock (super_bytes (s_super s)) SFS_SB_LOCATION ;; modify (set_superdirty false)
  else mret tt.

Definition sfs_getvolname : SM (list Z) := gets (fun s => cstring (sp_volname (s_super s))).

Definition sfs_unmount : SM unit :=
  num ← zoom vnodesL array_getnum;
  if decide (num > 0) then fail EBUSY
  else
    s ← gets id;
    kassert (negb (s_superdirty s)) ;;
    kassert (negb (s_freemapdirty s)) ;;
    zoom vnodesL array_destroy ;;
    zoom kernL (bitmap_destroy (s_freemap s)) ;;
    zoom kernL (kfree (s_self s)).

(** [array_destroy(sfs->sfs_vnodes); kfree(sfs);] on the error paths. *)
Definition mount_undo {A} (e : errno) : SM A :=
  zoom vnodesL array_destroy ;;
  s ← gets id;
  zoom kernL (kfree (s_self s)) ;;
  fail e.

(** [sfs_domount] from the point where the structure and the table exist. *)
Definition mount_load : SM unit :=
  r ← attempt (sfs_rblock zero_block SFS_SB_LOCATION);
  match r with
  | inl e => mount_undo e
  | inr b =>
      let sp := super_of_bytes b in
      modify (set_super sp) ;;
      if decide (sp_magic sp <> SFS_MAGIC) then mount_undo EINVAL
      else
        modify (set_super (mksuper (sp_magic sp) (sp_nblocks sp)
                  (<[Z.to_nat (SFS_VOLNAME_SIZE - 1) := 0]> (sp_volname sp)) (sp_reserved sp))) ;;
        o ← zoom kernL (bitmap_create (SFS_BITMAPSIZE (sp_nblocks sp)));
        match o with
        | None => mount_undo ENOMEM
        | Some bm =>
            modify (set_freemap bm) ;;
            r ← attempt (sfs_mapio UIO_READ);
            match r with
            | inl e =>
                s ← gets id;
                zoom kernL (bitmap_destroy (s_freemap s)) ;;
                mount_undo e
            | inr _ =>
                modify (set_superdirty false) ;;
                modify (set_freemapdirty false)
            end
        end
  end.

Definition mount_run (self : Z) (vns : array Z) : M (K * (uctx * D)) sfs := fun x =>
  let s := mksfs x.1 x.2.1 x.2.2 self (mksuper 0 0 [] []) false vns ∅ (mkbitmap 0 0 0 []) false in
  match mount_load s with
  | Done _ s' => Done s' (s_kern s', (s_ctx s', s_dev s'))
  | Fail e s' => Fail e (s_kern s', (s_ctx s', s_dev s'))
  | Panic => Panic
  | Undef => Undef
  | NoFuel => NoFuel
  end.

(** The mounted volume, from the kernel state, the user context and the device. *)
Definition sfs_domount : M (K * (uctx * D)) sfs :=
  d ← gets (fun x : K * (uctx * D) => x.2.2);
  if decide (d_blocksize d <> SFS_BLOCKSIZE) then fail ENXIO
  else
    self ← zoom heapL (kmalloc sizeof_sfs_fs);
    if decide (self = 0) then fail ENOMEM
    else
      o ← zoom heapL array_create;
      match o with
      | None => zoom heapL (kfree self) ;; fail ENOMEM
      | Some vns => mount_run self vns
      end.

End ops.

End Sfs.
