(* ===== verification/Mksfs.v ===== *)
(** * Making a file system: sbin/mksfs

    The program that writes an empty file system to a disk or to a disk image (mksfs.c,
    disk.c), over the system calls it uses; built for the host, the image has a header of one
    sector.  What it writes, the kernel mounts (Sfs.v). *)

From S2P Require Import Prelude Uio Blockdev Vnode Sfs.
Import Sfs.

Module Mksfs.

(** ** System calls *)

Inductive iores := Moved (n : Z) (data : list Z) | Again | Error.

(** The open file: calls answer and change its state; [Moved] carries what [read] returned, and
    [Again] stands for [EINTR] and [EAGAIN]. *)
Class Host (H : Type) := {
  sys_open : H -> bool * H;
  sys_size : H -> option Z;                     (* [st_size] of [fstat] *)
  sys_lseek : Z -> H -> bool * H;
  sys_read : Z -> H -> iores * H;
  sys_write : list Z -> H -> iores * H;
  sys_close : H -> bool * H;
}.

Definition BLOCKSIZE : Z := 512.
Definition MAXBITBLOCKS : Z := 32.
Definition CHAR_BIT : Z := 8.
(** "System/161 Disk Image" *)
Definition HOSTSTRING : list Z :=
  [83; 121; 115; 116; 101; 109; 47; 49; 54; 49; 32; 68; 105; 115; 107; 32; 73; 109; 97; 103; 101].

Section ops.
Context {H : Type} `{!Host H}.

(** Built for the host ([HOST]), or for OS/161. *)
Variable host : bool.

(** The static variables of disk.c and mksfs.c, and the world outside. *)
Record prog := mkprog {
  p_host : H;
  p_fd : bool;                (* [fd >= 0] *)
  p_nblocks : Z;
  p_bitbuf : list Z;
}.

(** A program that may end early: [None] after [exit(1)], through [err] or [errx]. *)
Abbreviation U A := (M prog (option A)).

Definition thenU {A B} (m : U A) (k : A -> U B) : U B :=
  o ← m; match o with Some a => k a | None => mret None end.
Definition retU {A} (a : A) : U A := mret (Some a).
Definition errx {A} : U A := mret None.
(** [assert]: the program aborts. *)
Definition assertU (b : bool) : U unit := kassert b ;; retU tt.
Definition getU {A} (f : prog -> A) : U A := gets (fun p => Some (f p)).
Definition modU (f : prog -> prog) : U unit := modify f ;; retU tt.

Definition set_host x (p : prog) : prog := mkprog x (p_fd p) (p_nblocks p) (p_bitbuf p).
Definition set_fd x (p : prog) : prog := mkprog (p_host p) x (p_nblocks p) (p_bitbuf p).
Definition set_nblocks x (p : prog) : prog := mkprog (p_host p) (p_fd p) x (p_bitbuf p).
Definition set_bitbuf x (p : prog) : prog := mkprog (p_host p) (p_fd p) (p_nblocks p) x.

Definition call {A} (f : H -> A * H) : U A := fun p => let '(a, h) := f (p_host p) in Done (Some a) (set_host h p).

Fixpoint forU (n : nat) (i : Z) (body : Z -> U unit) : U unit :=
  match n with
  | O => retU tt
  | S n' => thenU (body i) (fun _ => forU n' (i + 1) body)
  end.

(** ** disk.c *)

(** The sectors of the header. *)
Definition header : Z := if host then 1 else 0.

(** Writes the rest of a sector; [fuel] bounds the calls of [write]. *)
Fixpoint write_loop (fuel : nat) (data : list Z) : U unit :=
  match data with
  | [] => retU tt
  | _ =>
      match fuel with
      | O => nofuel
      | S fuel' =>
          thenU (call (sys_write data)) (fun r =>
            match r with
            | Again => write_loop fuel' data
            | Error => errx
            | Moved n _ => if decide (n = 0) then errx else write_loop fuel' (drop (Z.to_nat n) data)
            end)
      end
  end.

Definition diskwrite (fuel : nat) (data : list Z) (block : Z) : U unit :=
  thenU (getU p_fd) (fun fd =>
  thenU (assertU fd) (fun _ =>
  thenU (call (sys_lseek (u32 (u32 (block + header) * BLOCKSIZE)))) (fun ok =>
  if ok : bool then write_loop fuel data else errx))).

Fixpoint read_loop (fuel : nat) (left : Z) (got : list Z) : U (list Z) :=
  if decide (left <= 0) then retU got
  else
    match fuel with
    | O => nofuel
    | S fuel' =>
        thenU (call (sys_read left)) (fun r =>
          match r with
          | Again => read_loop fuel' left got
          | Error => errx
          | Moved n d => if decide (n = 0) then errx else read_loop fuel' (left - n) (got ++ d)
          end)
    end.

Definition diskread (fuel : nat) (block : Z) : U (list Z) :=
  thenU (getU p_fd) (fun fd =>
  thenU (assertU fd) (fun _ =>
  thenU (call (sys_lseek (u32 (u32 (block + header) * BLOCKSIZE)))) (fun ok =>
  if ok : bool then read_loop fuel BLOCKSIZE [] else errx))).

(** The header must start with [HOSTSTRING]; the read is not repeated ([continue] in a loop whose
    condition is 0 leaves it), and the buffer is indexed by what [read] returned. *)
Definition check_header : U unit :=
  thenU (call (sys_read 63)) (fun r =>
    match r with
    | Moved n d =>
        if decide (take (length HOSTSTRING) (Sfs.cstring (d ++ [0])) = HOSTSTRING) then retU tt else errx
    | _ => undef
    end).

Definition opendisk : U unit :=
  thenU (getU p_fd) (fun fd =>
  thenU (assertU (negb fd)) (fun _ =>
  thenU (call sys_open) (fun ok =>
  if ok : bool then
    thenU (modU (set_fd true)) (fun _ =>
    thenU (getU (fun p => sys_size (p_host p))) (fun sz =>
    match sz with
    | None => errx
    | Some size =>
        thenU (modU (set_nblocks (u32 (Z.quot size BLOCKSIZE)))) (fun _ =>
        if host then
          thenU (modU (fun p => set_nblocks (u32 (p_nblocks p - 1)) p)) (fun _ => check_header)
        else retU tt)
    end))
  else errx))).

Definition diskblocksize : U Z := thenU (getU p_fd) (fun fd => thenU (assertU fd) (fun _ => retU BLOCKSIZE)).
Definition diskblocks : U Z := thenU (getU p_fd) (fun fd => thenU (assertU fd) (fun _ => getU p_nblocks)).
Definition closedisk : U unit :=
  thenU (getU p_fd) (fun fd => thenU (assertU fd) (fun _ =>
  thenU (call sys_close) (fun ok => if ok : bool then modU (set_fd false) else errx))).

(** ** mksfs.c *)

(** [strcpy] into a field of zeros. *)
Definition volname_field (volname : list Z) : list Z := take 32 (volname ++ replicate 32 0).

Definition new_super (volname : list Z) (nblocks : Z) : sfs_super :=
  mksuper SFS_MAGIC nblocks (volname_field volname) (replicate 118 0).

Definition writesuper (fuel : nat) (volname : list Z) (nblocks : Z) : U unit :=
  if decide (Z.of_nat (length volname) >= SFS_VOLNAME_SIZE) then errx
  else diskwrite fuel (super_bytes (new_super volname nblocks)) SFS_SB_LOCATION.

Definition new_rootdir : sfs_inode := mkinode 0 SFS_TYPE_DIR 1 (replicate 15 0) 0 (replicate 110 0).

Definition writerootdir (fuel : nat) : U unit := diskwrite fuel (inode_bytes new_rootdir) SFS_ROOT_LOCATION.

Definition doallocbit (bit : Z) : U unit :=
  let byte := bit / CHAR_BIT in
  let mask := u8 (Z.shiftl 1 (bit mod CHAR_BIT)) in
  thenU (getU p_bitbuf) (fun buf =>
  match zlookup buf byte with
  | None => undef
  | Some b =>
      thenU (assertU (bool_decide (Z.land b mask = 0))) (fun _ =>
      modU (set_bitbuf (<[Z.to_nat byte := Z.lor b mask]> buf)))
  end).

Definition write_map_sector (fuel : nat) (i : Z) : U unit :=
  thenU (getU p_bitbuf) (fun buf =>
  diskwrite fuel (take (Z.to_nat SFS_BLOCKSIZE) (drop (Z.to_nat (i * SFS_BLOCKSIZE)) buf)) (u32 (SFS_MAP_LOCATION + i))).

Definition writebitmap (fuel : nat) (fsblocks : Z) : U unit :=
  let nbits := SFS_BITMAPSIZE fsblocks in
  let nblocks := SFS_BITBLOCKS fsblocks in
  if decide (nblocks > MAXBITBLOCKS) then errx
  else
    thenU (doallocbit SFS_SB_LOCATION) (fun _ =>
    thenU (doallocbit SFS_ROOT_LOCATION) (fun _ =>
    thenU (forU (Z.to_nat nblocks) 0 (fun i => doallocbit (SFS_MAP_LOCATION + i))) (fun _ =>
    thenU (forU (Z.to_nat (nbits - fsblocks)) fsblocks doallocbit) (fun _ =>
    forU (Z.to_nat nblocks) 0 (write_map_sector fuel))))).

(** The volume name without one trailing colon; [None] for a name with a colon elsewhere or
    with a slash. *)
Fixpoint strip_colon (volname : list Z) : option (list Z) :=
  match volname with
  | [] => Some []
  | c :: rest => if decide (c = 58) then (if decide (rest = []) then Some [] else None) else cons c <$> strip_colon rest
  end.
Definition check_volname (volname : list Z) : option (list Z) :=
  name ← strip_colon volname; if decide (47 ∈ name) then None else Some name.

(** [main], for two arguments; the exit status. *)
Definition main (fuel : nat) (volname : list Z) : M prog Z :=
  r ← match check_volname volname with
      | None => errx
      | Some name =>
          thenU opendisk (fun _ =>
          thenU diskblocksize (fun blocksize =>
          if decide (blocksize <> SFS_BLOCKSIZE) then errx
          else
            thenU diskblocks (fun size =>
            thenU (writesuper fuel name size) (fun _ =>
            thenU (writerootdir fuel) (fun _ =>
            thenU (writebitmap fuel size) (fun _ => closedisk))))))
      end;
  mret (match r with Some _ => 0 | None => 1 end).

End ops.

End Mksfs.
