(* ===== verification/Devfs.v ===== *)
(** * Devices and volumes below the name space: kern/fs/vfs/device.c, devnull.c

    The world the name space works on: the kernel, the devices with their vnodes
    (device.c, devnull.c), and the SFS volumes mounted on disks.  A vnode operation goes
    to the table of the vnode it is called on; the instance [devfs] of [FileSystems] is that
    dispatch. *)

From S2P Require Import Prelude Kmalloc Array Uio Blockdev Vnode Vfs VfsPath VfsList Sfs.
Import Uio Blockdev Vnode.

Module Devfs.

(** The lock operation of kern/thread/synch.c that vfslist.c uses besides those of vnodes. *)
Class LockQuery (K : Type) := { lock_do_i_hold : Z -> M K Z }.

(** The devices: the null device, and disks. *)
Inductive device (D : Type) : Type :=
  | NullDev
  | Disk (d : D).
Arguments NullDev {D}.
Arguments Disk {D} _.

Definition S_IFCHR : Z := 16384.
Definition S_IFBLK : Z := 20480.
Definition sizeof_vnode : Z := 24.

(** A mounted volume: its device, and its state apart from the kernel and the device,
    which are those of the world ([s_kern], [s_dev] and [s_ctx] are not used). *)
Record volume := mkvol { vo_dev : Z; vo_fs : Sfs.sfs_fs unit unit }.

Record world (K D : Type) := mkworld {
  w_kern : K;
  w_ctx : uctx;
  w_devs : gmap Z (device D);
  w_dvns : gmap Z (vnode unit);      (* the vnodes of devices *)
  w_vols : gmap Z volume;            (* by the address of their [struct fs] *)
}.
Arguments mkworld {K D} _ _ _ _ _.
Arguments w_kern {K D} _.
Arguments w_ctx {K D} _.
Arguments w_devs {K D} _.
Arguments w_dvns {K D} _.
Arguments w_vols {K D} _.

Section ops.
Context {K D : Type} `{!Kmalloc K, !Locks K, !LockQuery K, !Device D}.

Abbreviation W := (world K D).
Abbreviation WM := (M W).
Abbreviation WX := (M (W * uio)).
Abbreviation sfs := (Sfs.sfs_fs K D).

Definition set_kern x (w : W) : W := mkworld x (w_ctx w) (w_devs w) (w_dvns w) (w_vols w).
Definition set_ctx x (w : W) : W := mkworld (w_kern w) x (w_devs w) (w_dvns w) (w_vols w).
Definition set_devs x (w : W) : W := mkworld (w_kern w) (w_ctx w) x (w_dvns w) (w_vols w).
Definition set_dvns x (w : W) : W := mkworld (w_kern w) (w_ctx w) (w_devs w) x (w_vols w).
Definition set_vols x (w : W) : W := mkworld (w_kern w) (w_ctx w) (w_devs w) (w_dvns w) x.

Definition kernL : lens W K := Lens w_kern set_kern.
Definition worldL : lens (W * uio) W := Lens fst (fun w x => (w, x.2)).
Definition up {A} (m : WM A) : WX A := zoom worldL m.

(** ** The null device *)

Definition nullopen (openflags : Z) : WM unit := mret tt.
Definition nullclose : WM unit := mret tt.
Definition nullio : WX unit :=
  u ← gets snd;
  if decide (rw u = UIO_WRITE) then modify (fun x : W * uio => (x.1, set_resid 0 x.2)) else mret tt.
Definition nullioctl (op data : Z) : WM unit := fail EINVAL.
Definition nulldev_init (d : Z) : WM unit := modify (fun w => set_devs (<[d := NullDev]> (w_devs w)) w).

(** ** A [struct device], by its address *)

Definition get_dev (d : Z) : WM (device D) := w ← gets id; access (w_devs w !! d).

(** A call of a disk's driver. *)
Definition in_disk {A} (d : Z) (m : M D A) : WM A := fun w =>
  match w_devs w !! d with
  | Some (Disk x) =>
      match m x with
      | Done a x' => Done a (set_devs (<[d := Disk x']> (w_devs w)) w)
      | Fail e x' => Fail e (set_devs (<[d := Disk x']> (w_devs w)) w)
      | Panic => Panic | Undef => Undef | NoFuel => NoFuel
      end
  | _ => Undef
  end.

Definition disk_io (d : Z) : WX unit := fun '(w, u) =>
  match w_devs w !! d with
  | Some (Disk x) =>
      match d_io (x, (w_ctx w, u)) with
      | Done a (x', (c, u')) => Done a (set_ctx c (set_devs (<[d := Disk x']> (w_devs w)) w), u')
      | Fail e (x', (c, u')) => Fail e (set_ctx c (set_devs (<[d := Disk x']> (w_devs w)) w), u')
      | Panic => Panic | Undef => Undef | NoFuel => NoFuel
      end
  | _ => Undef
  end.

Definition device_blocks (x : device D) : Z := match x with NullDev => 0 | Disk d => d_blocks d end.
Definition device_blocksize (x : device D) : Z := match x with NullDev => 1 | Disk d => d_blocksize d end.

Definition device_open (d flags : Z) : WM unit :=
  x ← get_dev d; match x with NullDev => nullopen flags | Disk _ => in_disk d (d_open flags) end.
Definition device_close (d : Z) : WM unit :=
  x ← get_dev d; match x with NullDev => nullclose | Disk _ => in_disk d d_close end.
Definition device_ioctl (d op data : Z) : WM unit :=
  x ← get_dev d; match x with NullDev => nullioctl op data | Disk _ => in_disk d (d_ioctl op data) end.
Definition device_io (d : Z) : WX unit :=
  x ← up (get_dev d); match x with NullDev => nullio | Disk _ => disk_io d end.

(** ** The vnodes of devices *)

Definition dvget (p : Z) (w : W) : option (vnode unit) := w_dvns w !! p.
Definition dvput (p : Z) (v : vnode unit) (w : W) : W := set_dvns (<[p := v]> (w_dvns w)) w.

(** [v->vn_data] *)
Definition device_of (p : Z) : WM Z := v ← get_vn dvget p; mret (vn_data v).

Definition dev_open (p flags : Z) : WM unit :=
  d ← device_of p;
  if decide (Z.land flags (Z.lor (Z.lor Vfs.O_CREAT Vfs.O_TRUNC) (Z.lor Vfs.O_EXCL Vfs.O_APPEND)) <> 0) then fail EINVAL
  else device_open d flags.
Definition dev_close (p : Z) : WM unit := d ← device_of p; device_close d.
Definition dev_reclaim (p : Z) : WM unit := mret tt.
Definition dev_read (p : Z) : WX unit :=
  d ← up (device_of p); u ← gets snd; kassert (bool_decide (rw u = UIO_READ)) ;; device_io d.
Definition null_io (p : Z) : WX unit := fail EINVAL.
Definition dev_write (p : Z) : WX unit :=
  d ← up (device_of p); u ← gets snd; kassert (bool_decide (rw u = UIO_WRITE)) ;; device_io d.
Definition dev_ioctl (p op data : Z) : WM unit := d ← device_of p; device_ioctl d op data.

Definition dev_gettype (p : Z) : WM Z :=
  d ← device_of p; x ← get_dev d; mret (if decide (device_blocks x > 0) then S_IFBLK else S_IFCHR).

(** A call through the table of operations. *)
Definition dop {A} (p : Z) (opstr : string) (m : WM A) : WM A := vnode_check kernL dvget p opstr ;; m.

Definition dev_stat (p : Z) : WM Sfs.stat :=
  d ← device_of p;
  mode ← dop p "gettype" (dev_gettype p);
  x ← get_dev d;
  mret (Sfs.mkstat mode 1
    (if decide (device_blocks x > 0) then s32 (device_blocks x * device_blocksize x) else 0) (device_blocks x)).

(** [pos % d->d_blocksize] and [pos / d->d_blocksize] are unsigned. *)
Definition dev_tryseek (p pos : Z) : WM unit :=
  d ← device_of p;
  x ← get_dev d;
  if decide (device_blocks x > 0) then
    if decide (device_blocksize x = 0) then undef
    else if decide (u32 pos mod device_blocksize x <> 0) then fail EINVAL
    else if decide (pos < 0) then fail EINVAL
    else if decide (u32 pos / device_blocksize x >= device_blocks x) then fail EINVAL
    else mret tt
  else fail ESPIPE.

Definition null_fsync (p : Z) : WM unit := mret tt.
Definition dev_mmap (p : Z) : WM unit := fail EUNIMP.
Definition dev_truncate (p len : Z) : WM unit :=
  d ← device_of p;
  x ← get_dev d;
  if decide (device_blocks x > 0 /\ s32 (device_blocks x * device_blocksize x) = len) then mret tt else fail EINVAL.
Definition dev_namefile (p : Z) : WX unit := mret tt.

Definition null_creat (p : Z) (name : list Z) (excl : bool) : WM Z := fail ENOTDIR.
Definition null_symlink (p : Z) (contents name : list Z) : WM unit := fail ENOTDIR.
Definition null_nameop (p : Z) (name : list Z) : WM unit := fail ENOTDIR.
Definition null_link (p : Z) (name : list Z) (file : Z) : WM unit := fail ENOTDIR.
Definition null_rename (p : Z) (n1 : list Z) (q : Z) (n2 : list Z) : WM unit := fail ENOTDIR.

Definition dev_lookup (p : Z) (path : list Z) : WM Z :=
  if decide (Z.of_nat (length path) > 0) then fail ENOENT
  else vnode_incref kernL dvget dvput p ;; mret p.
Definition dev_lookparent (p : Z) (path : list Z) (buflen : Z) : WM (Z * list Z) := fail ENOTDIR.

Definition dev_create_vnode (dev : Z) : WM Z :=
  v ← zoom kernL (kmalloc sizeof_vnode);
  if decide (v = 0) then mret 0
  else
    r ← attempt (vnode_init kernL dvput v tt 0 dev);
    match r with inl _ => panic | inr _ => mret v end.

(** ** Volumes *)

(** The volume with the kernel and the device it runs on. *)
Definition attach (w : W) (d : D) (v : Sfs.sfs_fs unit unit) : sfs :=
  Sfs.mksfs (w_kern w) (w_ctx w) d (Sfs.s_self v) (Sfs.s_super v) (Sfs.s_superdirty v) (Sfs.s_vnodes v) (Sfs.s_objs v)
    (Sfs.s_freemap v) (Sfs.s_freemapdirty v).
Definition detach (c : uctx) (s : sfs) : Sfs.sfs_fs unit unit :=
  Sfs.mksfs tt c tt (Sfs.s_self s) (Sfs.s_super s) (Sfs.s_superdirty s) (Sfs.s_vnodes s) (Sfs.s_objs s)
    (Sfs.s_freemap s) (Sfs.s_freemapdirty s).
Definition leave (f dev : Z) (c : uctx) (s : sfs) (w : W) : W :=
  mkworld (Sfs.s_kern s) (Sfs.s_ctx s) (<[dev := Disk (Sfs.s_dev s)]> (w_devs w)) (w_dvns w) (<[f := mkvol dev (detach c s)]> (w_vols w)).

(** A call of the file system at [f]. *)
Definition in_vol {A} (f : Z) (m : M sfs A) : WM A := fun w =>
  match w_vols w !! f with
  | Some vo =>
      match w_devs w !! vo_dev vo with
      | Some (Disk d) =>
          match m (attach w d (vo_fs vo)) with
          | Done a s' => Done a (leave f (vo_dev vo) (Sfs.s_ctx (vo_fs vo)) s' w)
          | Fail e s' => Fail e (leave f (vo_dev vo) (Sfs.s_ctx (vo_fs vo)) s' w)
          | Panic => Panic | Undef => Undef | NoFuel => NoFuel
          end
      | _ => Undef
      end
  | None => Undef
  end.

Definition in_vol_x {A} (f : Z) (m : M (sfs * uio) A) : WX A := fun '(w, u) =>
  match w_vols w !! f with
  | Some vo =>
      match w_devs w !! vo_dev vo with
      | Some (Disk d) =>
          match m (attach w d (vo_fs vo), u) with
          | Done a (s', u') => Done a (leave f (vo_dev vo) (Sfs.s_ctx (vo_fs vo)) s' w, u')
          | Fail e (s', u') => Fail e (leave f (vo_dev vo) (Sfs.s_ctx (vo_fs vo)) s' w, u')
          | Panic => Panic | Undef => Undef | NoFuel => NoFuel
          end
      | _ => Undef
      end
  | None => Undef
  end.

(** The volume a vnode is of. *)
Definition volume_of (p : Z) (w : W) : option Z :=
  fst <$> head (filter (fun x : Z * volume => is_Some (Sfs.s_objs (vo_fs x.2) !! p)) (map_to_list (w_vols w))).

Definition on_vnode {A} (p : Z) (file : M sfs A) (dev : WM A) : WM A := fun w =>
  match volume_of p w with
  | Some f => in_vol f file w
  | None => dev w
  end.

Definition on_vnode_x {A} (p : Z) (file : M (sfs * uio) A) (dev : WX A) : WX A := fun x =>
  match volume_of p x.1 with
  | Some f => in_vol_x f file x
  | None => dev x
  end.
Definition dop_x {A} (p : Z) (opstr : string) (m : WX A) : WX A := up (vnode_check kernL dvget p opstr) ;; m.

(** The operations on a vnode that the name space does not call. *)
Definition VOP_READ (p : Z) : WX unit := on_vnode_x p (Sfs.VOP_READ p) (dop_x p "read" (dev_read p)).
Definition VOP_WRITE (p : Z) : WX unit := on_vnode_x p (Sfs.VOP_WRITE p) (dop_x p "write" (dev_write p)).
Definition VOP_GETDIRENTRY (p : Z) : WX unit :=
  on_vnode_x p (Sfs.fs (Sfs.VOP_GETDIRENTRY p)) (dop_x p "getdirentry" (null_io p)).
Definition VOP_IOCTL (p op data : Z) : WM unit := on_vnode p (Sfs.VOP_IOCTL p op data) (dop p "ioctl" (dev_ioctl p op data)).
Definition VOP_STAT (p : Z) : WM Sfs.stat := on_vnode p (Sfs.VOP_STAT p) (dop p "stat" (dev_stat p)).
Definition VOP_TRYSEEK (p pos : Z) : WM unit := on_vnode p (Sfs.VOP_TRYSEEK p pos) (dop p "tryseek" (dev_tryseek p pos)).
Definition VOP_FSYNC (p : Z) : WM unit := on_vnode p (Sfs.VOP_FSYNC p) (dop p "fsync" (null_fsync p)).
Definition VOP_MMAP (p : Z) : WM unit := on_vnode p (Sfs.VOP_MMAP p) (dop p "mmap" (dev_mmap p)).

Definition sfs_unmount_at (f : Z) : WM unit :=
  in_vol f Sfs.sfs_unmount ;; modify (fun w => set_vols (delete f (w_vols w)) w).

(** The function [sfs_mount] hands to [vfs_mount]. *)
Definition sfs_mountfunc (dev : Z) : WM Z := fun w =>
  match w_devs w !! dev with
  | Some (Disk d) =>
      match Sfs.sfs_domount (w_kern w, (w_ctx w, d)) with
      | Done s _ => Done (Sfs.s_self s) (leave (Sfs.s_self s) dev (w_ctx w) s w)
      | Fail e (k, (c, d')) => Fail e (set_kern k (set_ctx c (set_devs (<[dev := Disk d']> (w_devs w)) w)))
      | Panic => Panic | Undef => Undef | NoFuel => NoFuel
      end
  | Some NullDev => fail ENXIO w        (* its block size is not that of SFS *)
  | None => Undef
  end.

End ops.

(** ** The interface of the name space *)

Section instance.
Context {K D : Type} `{!Kmalloc K, !Locks K, !LockQuery K, !Device D}.

#[export] Instance devfs : Vfs.FileSystems (world K D) := {|
  Vfs.fsys_kmalloc := {| kmalloc := fun n => zoom kernL (kmalloc n); kfree := fun p => zoom kernL (kfree p) |};
  Vfs.fsys_locks := {|
    lock_create := fun n => zoom kernL (lock_create n);
    lock_destroy := fun l => zoom kernL (lock_destroy l);
    lock_acquire := fun l => zoom kernL (lock_acquire l);
    lock_release := fun l => zoom kernL (lock_release l) |};
  Vfs.lock_do_i_hold := fun l => zoom kernL (lock_do_i_hold l);
  Vfs.ctxL := Lens w_ctx set_ctx;
  Vfs.FSOP_SYNC := fun f => in_vol f Sfs.sfs_sync;
  Vfs.FSOP_GETVOLNAME := fun f => n ← in_vol f Sfs.sfs_getvolname; mret (Some n);
  Vfs.FSOP_GETROOT := fun f => in_vol f Sfs.sfs_getroot;
  Vfs.FSOP_UNMOUNT := sfs_unmount_at;
  Vfs.dev_create_vnode := dev_create_vnode;
  Vfs.vn_fs := fun p => on_vnode p (v ← get_vn Sfs.vget p; mret (vn_fs v)) (v ← get_vn dvget p; mret (vn_fs v));
  Vfs.VOP_INCREF := fun p => on_vnode p (Sfs.VOP_INCREF p) (vnode_incref kernL dvget dvput p);
  Vfs.VOP_DECREF := fun p => on_vnode p (Sfs.VOP_DECREF p) (vnode_decref kernL dvget dvput dev_reclaim p);
  Vfs.VOP_INCOPEN := fun p => on_vnode p (vnode_incopen Sfs.kernL Sfs.vget Sfs.vput p) (vnode_incopen kernL dvget dvput p);
  Vfs.VOP_DECOPEN := fun p => on_vnode p (vnode_decopen Sfs.kernL Sfs.vget Sfs.vput Sfs.sfs_close p)
                                         (vnode_decopen kernL dvget dvput dev_close p);
  Vfs.VOP_OPEN := fun p flags => on_vnode p (Sfs.VOP_OPEN p flags) (dop p "open" (dev_open p flags));
  Vfs.VOP_GETTYPE := fun p => on_vnode p (Sfs.VOP_GETTYPE p) (dop p "gettype" (dev_gettype p));
  Vfs.VOP_TRUNCATE := fun p len => on_vnode p (Sfs.VOP_TRUNCATE p len) (dop p "truncate" (dev_truncate p len));
  Vfs.VOP_CREAT := fun p n x => on_vnode p (Sfs.VOP_CREAT p n x) (dop p "creat" (null_creat p n x));
  Vfs.VOP_SYMLINK := fun p n c => on_vnode p (Sfs.VOP_SYMLINK p) (dop p "symlink" (null_symlink p c n));
  Vfs.VOP_MKDIR := fun p n => on_vnode p (Sfs.VOP_MKDIR p) (dop p "mkdir" (null_nameop p n));
  Vfs.VOP_LINK := fun p n f => on_vnode p (Sfs.VOP_LINK p n f) (dop p "link" (null_link p n f));
  Vfs.VOP_REMOVE := fun p n => on_vnode p (Sfs.VOP_REMOVE p n) (dop p "remove" (null_nameop p n));
  Vfs.VOP_RMDIR := fun p n => on_vnode p (Sfs.VOP_RMDIR p) (dop p "rmdir" (null_nameop p n));
  Vfs.VOP_RENAME := fun p n q m => on_vnode p (Sfs.VOP_RENAME p n q m) (dop p "rename" (null_rename p n q m));
  Vfs.VOP_LOOKUP := fun p path => on_vnode p (Sfs.VOP_LOOKUP p path) (dop p "lookup" (dev_lookup p path));
  Vfs.VOP_LOOKPARENT := fun p path n => on_vnode p (Sfs.VOP_LOOKPARENT p path n) (dop p "lookparent" (dev_lookparent p path n));
  Vfs.VOP_READLINK := fun p => on_vnode_x p (Sfs.fs (Sfs.VOP_READLINK p)) (dop_x p "readlink" (null_io p));
  Vfs.VOP_NAMEFILE := fun p => on_vnode_x p (Sfs.fs (Sfs.VOP_NAMEFILE p)) (dop_x p "namefile" (dev_namefile p));
  Vfs.nulldev_init := nulldev_init;
|}.

End instance.

(** ** The operations that cannot fail *)

Section void.
Context {K D : Type} `{!Kmalloc K, !Locks K, !LockQuery K, !Device D, !VoidLocks K}.

Lemma in_vol_void {A} f (m : M (Sfs.sfs_fs K D) A) : nofail m -> nofail (in_vol f m).
Proof.
  intros Hm w e w'. unfold in_vol. destruct (w_vols w !! f) as [vo|]; [|done]. destruct (w_devs w !! vo_dev vo) as [[|d]|]; try done.
  pose proof (Hm (attach w d (vo_fs vo))) as H. destruct (m _); try done. by destruct (H e0 s).
Qed.

Lemma on_vnode_void {A} p (m : M (Sfs.sfs_fs K D) A) n : nofail m -> nofail n -> nofail (on_vnode p m n).
Proof. intros Hm Hn w e w'. unfold on_vnode. destruct (volume_of p w); [by apply in_vol_void|apply Hn]. Qed.

#[export] Instance devfs_void : VfsPath.VoidOps (world K D).
Proof.
  split; cbn -[on_vnode in_vol]; intros x; try (apply on_vnode_void; unfold Sfs.VOP_INCREF, Sfs.VOP_DECREF; nofail).
  - change (nofail (zoom (kernL (D := D)) (lock_acquire x))). nofail.
  - change (nofail (zoom (kernL (D := D)) (lock_release x))). nofail.
  - apply in_vol_void. unfold Sfs.sfs_getroot. nofail.
  - apply nofail_bind; [|done]. by apply in_vol_void.
Qed.

End void.

(** ** The names of volumes *)

Section volumes.
Context {K D : Type} `{!Kmalloc K, !Locks K, !LockQuery K, !Device D}.

Definition volume_names (w : world K D) (f : Z) : option (option (list Z)) :=
  vo ← w_vols w !! f;
  match w_devs w !! vo_dev vo with
  | Some (Disk _) => Some (Some (Sfs.cstring (Sfs.sp_volname (Sfs.s_super (vo_fs vo)))))
  | _ => None
  end.

Lemma leave_attach (w : world K D) f vo d :
  w_vols w !! f = Some vo -> w_devs w !! vo_dev vo = Some (Disk d) ->
  leave f (vo_dev vo) (Sfs.s_ctx (vo_fs vo)) (attach w d (vo_fs vo)) w = w.
Proof.
  intros Hv Hd. unfold leave, attach, detach. cbn. rewrite insert_id by done. rewrite insert_id; [by destruct w|].
  rewrite Hv. destruct vo as [x [[] ? [] ? ? ? ? ? ? ?]]. done.
Qed.

#[export] #[refine] Instance devfs_volnames : VfsList.VolNames (world K D) := {| VfsList.volumes := volume_names |}.
Proof.
  - intros f n w H. unfold volume_names in H. destruct (w_vols w !! f) as [vo|] eqn:Ev; [|done]. simpl in H.
    destruct (w_devs w !! vo_dev vo) as [[|d]|] eqn:Ed; try done. injection H as <-.
    cbn [Vfs.FSOP_GETVOLNAME devfs]. erewrite bind_Done; [done|]. unfold in_vol. rewrite Ev, Ed. cbn [Sfs.sfs_getvolname gets].
    unfold Sfs.sfs_getvolname, gets. f_equal. by apply leave_attach.
  - intros l w w' f. cbn. unfold zoom. cbn. destruct (lock_acquire l (w_kern w)); intros [=]; by subst.
  - intros l p w w' f. cbn. unfold zoom. cbn. destruct (kmalloc l (w_kern w)); intros [=]; by subst.
  - intros p w w' f. cbn. unfold zoom. cbn. destruct (kfree p (w_kern w)); intros [=]; by subst.
Defined.

#[export] #[refine] Instance devfs_kmalloc_spec `{!KmallocSpec K} : @KmallocSpec (world K D) Vfs.fsys_kmalloc :=
  {| heap_rep := fun w B => heap_rep (w_kern w) B |}.
Proof.
  - intros w B p n R. by apply (heap_rep_range (w_kern w)).
  - intros w B p n q m R. by apply (heap_rep_disjoint (w_kern w)).
  - intros w B sz R Hsz. cbn. unfold zoom. cbn.
    destruct (kmalloc_spec (w_kern w) B sz R Hsz) as [(h & -> & R')|(p & h & -> & Hp & HB & R')]; [left|right].
    + by eexists.
    + by eexists p, _.
  - intros w B p n R HB. cbn. unfold zoom. cbn. destruct (kfree_spec (w_kern w) B p n R HB) as (h & -> & R'). by eexists.
  - intros w B R. cbn. unfold zoom. cbn. rewrite (kfree_null _ B R). by destruct w.
Defined.

End volumes.

End Devfs.
