(* ===== verification/SfsBlock.v ===== *)
(** * The file system: on-disk formats and the block layer

    Round trips of the on-disk structures; what reading, writing, allocating and
    freeing a block do to the volume; and what becomes of a write that the disk
    rejects. *)

From S2P Require Import Prelude Kmalloc Array Bitmap Uio Blockdev Lhd Vnode Sfs.
Import Bitmap Uio Vnode Sfs.

Module SfsBlock.

(** ** Formats *)

Lemma u8_range z : 0 <= u8 z < 256.
Proof. unfold u8. apply Z.mod_pos_bound. lia. Qed.

Lemma u8_u8 z : u8 (u8 z) = u8 z.
Proof. unfold u8. by rewrite Z.mod_mod. Qed.

Lemma word_bytes32 w : 0 <= w < 2 ^ 32 -> word32 (bytes32 w) = w.
Proof.
  intros Hw. unfold word32, bytes32. rewrite !u8_u8. unfold u8. rewrite !Z.shiftr_div_pow2 by lia. simpl. dlia.
Qed.

Lemma word_bytes16 w : 0 <= w < 2 ^ 16 -> word16 (bytes16 w) = w.
Proof.
  intros Hw. unfold word16, bytes16. rewrite !u8_u8. unfold u8. rewrite !Z.shiftr_div_pow2 by lia. simpl. dlia.
Qed.

Lemma word32_range b : 0 <= word32 b < 2 ^ 32.
Proof.
  unfold word32. destruct b as [|b0 [|b1 [|b2 [|b3 [|]]]]]; try lia.
  pose proof (u8_range b0). pose proof (u8_range b1). pose proof (u8_range b2). pose proof (u8_range b3). lia.
Qed.

Definition word_ok (w : Z) : Prop := 0 <= w < 2 ^ 32.

Lemma length_bytes_of ws : length (bytes_of ws) = (4 * length ws)%nat.
Proof. induction ws as [|w ws IH]; [done|]. change (bytes_of (w :: ws)) with (bytes32 w ++ bytes_of ws). rewrite length_app, IH. simpl. lia. Qed.

Lemma word_at_app b1 b2 k n : length b1 = (4 * k)%nat -> word_at (b1 ++ b2) (k + n) = word_at b2 n.
Proof.
  intros Hl. unfold word_at. rewrite drop_app_ge by lia. do 3 f_equal. lia.
Qed.

Lemma word_at_bytes_of ws b n w : Forall word_ok ws -> ws !! n = Some w -> word_at (bytes_of ws ++ b) n = w.
Proof.
  intros Hok. revert n. induction Hok as [|x ws Hx Hok IH]; intros n; [done|].
  destruct n as [|n]; simpl.
  - intros [= ->]. unfold word_at. simpl. by apply word_bytes32.
  - intros Hn. specialize (IH n Hn). rewrite <- IH. by apply (word_at_app (bytes32 x) _ 1 n).
Qed.

Lemma words_of_bytes_of ws b : Forall word_ok ws -> words_of (length ws) (bytes_of ws ++ b) = ws.
Proof.
  intros Hok. apply list_eq. intros n. unfold words_of. rewrite list_lookup_fmap.
  destruct (decide (n < length ws)%nat) as [Hn|Hn].
  - rewrite lookup_seq_lt by done. simpl. destruct (lookup_lt_is_Some_2 ws n Hn) as [w Hw]. rewrite Hw.
    f_equal. by apply word_at_bytes_of.
  - rewrite lookup_seq_ge by lia. symmetry. simpl. apply lookup_ge_None. lia.
Qed.

Lemma length_words_of n b : length (words_of n b) = n.
Proof. unfold words_of. by rewrite length_fmap, length_seq. Qed.

Lemma words_of_lookup n b i : (i < n)%nat -> words_of n b !! i = Some (word_at b i).
Proof. intros Hi. unfold words_of. rewrite list_lookup_fmap, lookup_seq_lt by done. done. Qed.

Lemma words_of_ok n b : Forall word_ok (words_of n b).
Proof. apply Forall_fmap, Forall_true. intros i. apply word32_range. Qed.

(** The structures the code builds: words and half-words in range, tables of the
    declared sizes. *)
Definition inode_ok (i : sfs_inode) : Prop :=
  word_ok (sfi_size i) /\ 0 <= sfi_type i < 2 ^ 16 /\ 0 <= sfi_linkcount i < 2 ^ 16 /\
  length (sfi_direct i) = 15%nat /\ Forall word_ok (sfi_direct i) /\ word_ok (sfi_indirect i) /\
  length (sfi_waste i) = 110%nat /\ Forall word_ok (sfi_waste i).

Definition super_ok (sp : sfs_super) : Prop :=
  word_ok (sp_magic sp) /\ word_ok (sp_nblocks sp) /\ length (sp_volname sp) = 32%nat /\
  length (sp_reserved sp) = 118%nat /\ Forall word_ok (sp_reserved sp).

Definition dir_ok (d : sfs_dir) : Prop := word_ok (sfd_ino d) /\ length (sfd_name d) = 60%nat.

Lemma inode_roundtrip i :
  inode_ok i -> length (inode_bytes i) = Z.to_nat SFS_BLOCKSIZE /\ inode_of_bytes (inode_bytes i) = i.
Proof.
  destruct i as [sz ty lc di ind wa]. intros (H1 & H2 & H3 & H4 & H5 & H6 & H7 & H8). simpl in *.
  split; [unfold inode_bytes; rewrite !length_app; simpl; rewrite !length_bytes_of, H4, H7; done|].
  unfold inode_of_bytes, inode_bytes. simpl sfi_size. simpl sfi_type. simpl sfi_linkcount. simpl sfi_direct.
  simpl sfi_indirect. simpl sfi_waste. f_equal.
  - unfold word_at. simpl. by apply word_bytes32.
  - simpl. by apply word_bytes16.
  - simpl. by apply word_bytes16.
  - change (drop 8 (bytes32 sz ++ bytes16 ty ++ bytes16 lc ++ bytes_of di ++ bytes32 ind ++ bytes_of wa))
      with (bytes_of di ++ bytes32 ind ++ bytes_of wa). rewrite <- H4. by apply words_of_bytes_of.
  - rewrite !app_assoc. rewrite <- app_assoc. rewrite (word_at_app _ _ 17 0).
    + unfold word_at. simpl. by apply word_bytes32.
    + rewrite !length_app. simpl. rewrite length_bytes_of, H4. done.
  - rewrite !app_assoc, drop_app_ge.
    + rewrite !length_app, length_bytes_of, H4. simpl. rewrite <- (app_nil_r (bytes_of wa)), <- H7.
      by apply words_of_bytes_of.
    + rewrite !length_app, length_bytes_of, H4. done.
Qed.

Lemma super_roundtrip sp :
  super_ok sp -> length (super_bytes sp) = Z.to_nat SFS_BLOCKSIZE /\ super_of_bytes (super_bytes sp) = sp.
Proof.
  destruct sp as [mg nb vn rs]. intros (H1 & H2 & H3 & H4 & H5). simpl in *.
  split; [unfold super_bytes; rewrite !length_app; simpl; rewrite length_bytes_of, H3, H4; done|].
  unfold super_of_bytes, super_bytes. simpl sp_magic. simpl sp_nblocks. simpl sp_volname. simpl sp_reserved. f_equal.
  - unfold word_at. simpl. by apply word_bytes32.
  - unfold word_at. simpl. by apply word_bytes32.
  - change (drop 8 (bytes32 mg ++ bytes32 nb ++ vn ++ bytes_of rs)) with (vn ++ bytes_of rs).
    rewrite take_app_le by lia. apply take_ge. lia.
  - rewrite !app_assoc, drop_app_ge by (rewrite !length_app, H3; done).
    rewrite !length_app, H3. simpl. rewrite <- (app_nil_r (bytes_of rs)), <- H4. by apply words_of_bytes_of.
Qed.

Lemma dir_roundtrip d :
  dir_ok d -> length (dir_bytes d) = Z.to_nat sizeof_sfs_dir /\ dir_of_bytes (dir_bytes d) = d.
Proof.
  destruct d as [ino nm]. intros [H1 H2]. simpl in *.
  split; [unfold dir_bytes; simpl; rewrite H2; done|].
  unfold dir_of_bytes, dir_bytes. simpl sfd_ino. simpl sfd_name. f_equal.
  - unfold word_at. simpl. by apply word_bytes32.
  - change (drop 4 (bytes32 ino ++ nm)) with nm. apply take_ge. lia.
Qed.

(** The superblock, an inode and a directory entry that are written out and read back are
    the same; each occupies exactly its size on disk. *)
Theorem sfs_format_roundtrip (sp : sfs_super) (i : sfs_inode) (d : sfs_dir) :
  super_ok sp -> inode_ok i -> dir_ok d ->
  (length (super_bytes sp) = Z.to_nat SFS_BLOCKSIZE /\ super_of_bytes (super_bytes sp) = sp) /\
  (length (inode_bytes i) = Z.to_nat SFS_BLOCKSIZE /\ inode_of_bytes (inode_bytes i) = i) /\
  (length (dir_bytes d) = Z.to_nat sizeof_sfs_dir /\ dir_of_bytes (dir_bytes d) = d).
Proof. intros. split; [by apply super_roundtrip|]. split; [by apply inode_roundtrip|by apply dir_roundtrip]. Qed.

(** ** Block I/O *)

Section blocks.
Context {K D : Type} `{!Kmalloc K, !Locks K, !Device D, !DeviceSpec D} {w : wear} `{!Writes w}.
Abbreviation sfs := (sfs_fs K D).
Abbreviation dev_ok := (Blockdev.dev_ok w).
Implicit Types s : sfs.

Definition disk s : list (list Z) := sectors (s_dev s).

(** A device with the same data, for instance after a read. *)
Definition same_data (d d' : D) : Prop := dev_ok d' /\ sectors d' = sectors d.

(** The volume: a working disk of the size the superblock says, and a well-formed map
    in which everything outside the volume is marked. *)
Record vol_ok s : Prop := {
  vo_dev : dev_ok (s_dev s);
  vo_ctx : badfault (s_ctx s) = false;
  vo_map : Bitmap.wf (s_freemap s);
  vo_blocks : 0 <= sp_nblocks (s_super s) <= Z.of_nat (length (disk s));
  vo_max : sp_nblocks (s_super s) < 2 ^ 22;
  vo_bits : sp_nblocks (s_super s) <= nbits (s_freemap s);
  vo_over : forall b, sp_nblocks (s_super s) <= b < nbits (s_freemap s) -> bit (s_freemap s) b = true;
  vo_sb : bit (s_freemap s) SFS_SB_LOCATION = true;
}.

(** The part of it that block I/O depends on. *)
Record dev_vol s : Prop := {
  dv_dev : dev_ok (s_dev s);
  dv_ctx : badfault (s_ctx s) = false;
}.

Lemma vol_dev s : vol_ok s -> dev_vol s.
Proof. intros []. by split. Qed.

Lemma dev_vol_dev s d : dev_vol s -> dev_ok d -> dev_vol (set_dev d s).
Proof. intros [] Hd. by split. Qed.

Lemma vol_ok_dev s d : vol_ok s -> same_data (s_dev s) d -> vol_ok (set_dev d s).
Proof. intros [] [Hd Hs]. split; try done. unfold disk in *. simpl. by rewrite Hs. Qed.

Lemma vol_ok_objs s o : vol_ok s -> vol_ok (set_objs o s).
Proof. intros []. by split. Qed.

(** A kernel buffer as a uio. *)
Lemma kuio_ok c data len pos d :
  badfault c = false -> 0 <= len < 2 ^ 32 -> len <= Z.of_nat (length data) -> uio_ok c (mk_kuio data len pos d).
Proof. intros Hb Hl Hd. unfold uio_ok. simpl. split; [done|]. split; [done|]. split; [lia|]. split; [lia|]. split; [done|lia]. Qed.

Lemma retry_read s u b x left :
  dev_vol s -> sector_uio (s_ctx s) u (Z.of_nat b) -> Z.of_nat b < 2 ^ 22 -> rw u = UIO_READ -> disk s !! b = Some x ->
  (exists d c u', rw_retry left (s, u) = Done tt (set_ctx c (set_dev d s), advance SECTSIZE u') /\
     poke (s_ctx s) u x = Some (c, u') /\ same_data (s_dev s) d) \/
  (exists d, rw_retry left (s, u) = Fail EIO (set_dev d s, u) /\ same_data (s_dev s) d) \/
  (exists d m, rw_retry left (s, u) = Fail EFAULT (set_ctx (set_umem m (s_ctx s)) (set_dev d s), u) /\
     poke (s_ctx s) u x = None /\ same_data (s_dev s) d).
Proof.
  intros V Hu Hb Hrw Hx. revert s V Hu Hx. induction left as [|left IH]; intros s V Hu Hx; cbn [rw_retry];
    unfold zoom; munfold; cbn [lget lset devL fst snd].
  all: destruct (dev_read w (s_dev s) (s_ctx s) u b x (dv_dev _ V) Hu Hb Hrw Hx) as
    [(d & c & u' & -> & Hp & Hd)|[(d & -> & Hd)|(d & m & -> & Hp & Hd)]];
    [left; by exists d, c, u'| |right; right; by exists d, m].
  - right. left. by exists d.
  - cbn [fst snd]. change (set_ctx (s_ctx s) (set_dev d s)) with (set_dev d s).
    assert (Hx' : disk (set_dev d s) !! b = Some x) by (unfold disk in *; simpl; destruct Hd as [_ ->]; done).
    destruct (IH (set_dev d s) (dev_vol_dev s d V (proj1 Hd)) Hu Hx') as
      [(d' & c & u' & -> & Hp & [Hd1 Hd2])|[(d' & -> & [Hd1 Hd2])|(d' & m & -> & Hp & [Hd1 Hd2])]];
      simpl in Hd2; (destruct Hd as [_ Hd]; rewrite Hd in Hd2).
    + left. by exists d', c, u'.
    + right. left. by exists d'.
    + right. right. by exists d', m.
Qed.

Lemma retry_write s u b x left :
  dev_vol s -> sector_uio (s_ctx s) u (Z.of_nat b) -> Z.of_nat b < 2 ^ 22 -> rw u = UIO_WRITE -> disk s !! b = Some x ->
  match peek (s_ctx s) u SECTSIZE with
  | Some data => exists d, rw_retry left (s, u) = Done tt (set_dev d s, advance SECTSIZE u) /\
      dev_ok d /\ sectors d = <[b := data]> (disk s)
  | None => exists d, rw_retry left (s, u) = Fail EFAULT (set_dev d s, u) /\ same_data (s_dev s) d
  end.
Proof.
  intros V Hu Hb Hrw Hx.
  pose proof (dev_write (s_dev s) (s_ctx s) u b x) as Hw. rewrite <- (writes_sound (w := w)) in Hw.
  specialize (Hw (dv_dev _ V) Hu Hb Hrw Hx).
  destruct (peek (s_ctx s) u SECTSIZE) as [data|]; destruct Hw as (d & E & Hd); exists d; (split; [|done]);
    destruct left; cbn [rw_retry]; unfold zoom; munfold; cbn [lget lset devL fst snd]; by rewrite E.
Qed.

Lemma SFSUIO_sector c data (b : nat) d :
  badfault c = false -> length data = Z.to_nat SFS_BLOCKSIZE -> Z.of_nat b < 2 ^ 22 ->
  sector_uio c (SFSUIO data (Z.of_nat b) d) (Z.of_nat b).
Proof.
  intros Hc Hd Hb. unfold sector_uio, SFSUIO, SECTSIZE, SFS_BLOCKSIZE in *. split; [|split; [done|]].
  - apply kuio_ok; [done|lia|lia].
  - simpl. apply s32_small. lia.
Qed.

Lemma sfs_rblock_dev s data (b : nat) x :
  dev_vol s -> length data = Z.to_nat SFS_BLOCKSIZE -> Z.of_nat b < 2 ^ 22 -> disk s !! b = Some x ->
  exists d, same_data (s_dev s) d /\
    (sfs_rblock data (Z.of_nat b) s = Done x (set_dev d s) \/ sfs_rblock data (Z.of_nat b) s = Fail EIO (set_dev d s)).
Proof.
  intros V Hdata Hb Hx. pose proof (dev_sectors _ _ _ _ (dv_dev _ V) Hx) as Hxl.
  assert (Hp : poke (s_ctx s) (SFSUIO data (Z.of_nat b) UIO_READ) x =
               Some (s_ctx s, set_kbuf x (SFSUIO data (Z.of_nat b) UIO_READ))).
  { unfold poke. simpl. rewrite splice_all by (by rewrite Hxl, Hdata). done. }
  unfold sfs_rblock, with_uio, sfs_rwblock. munfold.
  destruct (retry_read s (SFSUIO data (Z.of_nat b) UIO_READ) b x 10 V) as
    [(d & c & u' & -> & Hp' & Hd)|[(d & -> & Hd)|(d & m & -> & Hp' & Hd)]]; try done.
  - apply SFSUIO_sector; [apply V|done|done].
  - exists d. split; [done|]. left. rewrite Hp in Hp'. injection Hp' as <- <-. done.
  - exists d. split; [done|]. by right.
  - congruence.
Qed.

Lemma sfs_rblock_spec s data (b : nat) x :
  vol_ok s -> length data = Z.to_nat SFS_BLOCKSIZE -> Z.of_nat b < 2 ^ 22 -> disk s !! b = Some x ->
  exists d, same_data (s_dev s) d /\
    (sfs_rblock data (Z.of_nat b) s = Done x (set_dev d s) \/ sfs_rblock data (Z.of_nat b) s = Fail EIO (set_dev d s)).
Proof. intros V. by apply sfs_rblock_dev, vol_dev. Qed.

Lemma sfs_wblock_dev s data (b : nat) x :
  dev_vol s -> length data = Z.to_nat SFS_BLOCKSIZE -> Z.of_nat b < 2 ^ 22 -> disk s !! b = Some x ->
  exists d, sfs_wblock data (Z.of_nat b) s = Done tt (set_dev d s) /\ dev_ok d /\ sectors d = <[b := data]> (disk s).
Proof.
  intros V Hdata Hb Hx.
  assert (Hp : peek (s_ctx s) (SFSUIO data (Z.of_nat b) UIO_WRITE) SECTSIZE = Some data).
  { unfold peek. simpl. apply slice_all. by rewrite Hdata. }
  unfold sfs_wblock, with_uio, sfs_rwblock. munfold.
  pose proof (retry_write s (SFSUIO data (Z.of_nat b) UIO_WRITE) b x 10 V) as Hw.
  rewrite Hp in Hw. destruct Hw as (d & -> & Hd); try done.
  - apply SFSUIO_sector; [apply V|done|done].
  - by exists d.
Qed.

Lemma sfs_wblock_spec s data (b : nat) x :
  vol_ok s -> length data = Z.to_nat SFS_BLOCKSIZE -> Z.of_nat b < 2 ^ 22 -> disk s !! b = Some x ->
  exists d, sfs_wblock data (Z.of_nat b) s = Done tt (set_dev d s) /\ dev_ok d /\ sectors d = <[b := data]> (disk s).
Proof. intros V. by apply sfs_wblock_dev, vol_dev. Qed.

Lemma vol_ok_write s d b data :
  vol_ok s -> dev_ok d -> sectors d = <[b := data]> (disk s) -> vol_ok (set_dev d s).
Proof. intros [] Hd Hs. split; try done. unfold disk in *. simpl. by rewrite Hs, length_insert. Qed.

(** ** Allocation *)

Definition with_map (d : D) (fm : bitmap) s : sfs := set_dev d (set_freemapdirty true (set_freemap fm s)).

Lemma set_freemap_id s : set_freemap (s_freemap s) s = s.
Proof. by destruct s. Qed.

Lemma vol_ok_map s d fm b x :
  vol_ok s -> bit_set (s_freemap s) b x fm -> Bitmap.wf fm -> 0 < b < sp_nblocks (s_super s) ->
  dev_ok d -> length (sectors d) = length (disk s) -> vol_ok (with_map d fm s).
Proof.
  intros [] Hb Hw Hr Hd Hl. split; try done; unfold disk in *; simpl.
  - by rewrite Hl.
  - by rewrite (bs_nbits _ _ _ _ Hb).
  - intros c Hc. rewrite (bs_nbits _ _ _ _ Hb) in Hc. rewrite (bs_other _ _ _ _ Hb) by lia. by apply vo_over0.
  - unfold SFS_SB_LOCATION in *. by rewrite (bs_other _ _ _ _ Hb) by lia.
Qed.

Lemma sector_of s (b : Z) : vol_ok s -> 0 <= b < sp_nblocks (s_super s) -> is_Some (disk s !! Z.to_nat b).
Proof. intros V Hb. apply lookup_lt_is_Some. pose proof (vo_blocks _ V). lia. Qed.

Lemma sfs_balloc_spec s :
  vol_ok s ->
  (exists b d fm, sfs_balloc s = Done b (with_map d fm s) /\ 0 < b < sp_nblocks (s_super s) /\
     bit (s_freemap s) b = false /\ bit_set (s_freemap s) b true fm /\ vol_ok (with_map d fm s) /\
     sectors d = <[Z.to_nat b := zero_block]> (disk s)) \/
  (sfs_balloc s = Fail ENOSPC s /\ forall b, 0 <= b < nbits (s_freemap s) -> bit (s_freemap s) b = true).
Proof.
  intros V. unfold sfs_balloc, zoom. munfold. simpl.
  destruct (bitmap_alloc_spec (s_freemap s) (vo_map _ V)) as [(b & fm & E & (Hb0 & Hf & _) & Hs & Hw)|[E Hall]]; rewrite E.
  2:{ right. rewrite set_freemap_id. done. }
  left. assert (Hb : 0 < b < sp_nblocks (s_super s)).
  { pose proof (vo_sb _ V) as Hsb. unfold SFS_SB_LOCATION in Hsb.
    destruct (decide (b = 0)) as [->|]; [congruence|]. split; [lia|].
    destruct (decide (b < sp_nblocks (s_super s))); [done|]. rewrite (vo_over _ V) in Hf by lia. done. }
  rewrite decide_False by (simpl; lia).
  set (s1 := set_freemapdirty true (set_freemap fm s)).
  assert (V1 : vol_ok s1) by (apply (vol_ok_map s (s_dev s) fm b true); try done; apply V).
  destruct (sector_of s b V ltac:(lia)) as [x Hx]. pose proof (vo_max _ V).
  destruct (sfs_wblock_spec s1 zero_block (Z.to_nat b) x V1 eq_refl ltac:(lia) Hx) as (d & Ew & Hd & Hsd).
  rewrite Z2Nat.id in Ew by lia. unfold sfs_clearblock. rewrite Ew. exists b, d, fm.
  split; [done|]. split; [done|]. split; [done|]. split; [done|]. split; [|done].
  apply (vol_ok_map s d fm b true); try done. by rewrite Hsd, length_insert.
Qed.

Lemma sfs_bfree_spec s b :
  vol_ok s -> 0 < b < sp_nblocks (s_super s) -> bit (s_freemap s) b = true ->
  exists fm, sfs_bfree b s = Done tt (with_map (s_dev s) fm s) /\ bit_set (s_freemap s) b false fm /\
    vol_ok (with_map (s_dev s) fm s).
Proof.
  intros V Hb Ht. pose proof (vo_bits _ V).
  destruct (bitmap_unmark_spec (s_freemap s) b (vo_map _ V) ltac:(lia) Ht) as (fm & E & Hs & Hw).
  exists fm. unfold sfs_bfree, zoom. munfold. simpl. rewrite E. split; [done|]. split; [done|].
  apply (vol_ok_map s (s_dev s) fm b false); try done. apply V.
Qed.

Lemma check_used_spec s b :
  vol_ok s -> b = 0 \/ 0 < b < sp_nblocks (s_super s) /\ bit (s_freemap s) b = true -> check_used b s = Done tt s.
Proof.
  intros V Hb. unfold check_used. destruct Hb as [->|[Hb Ht]]; [done|]. rewrite decide_True by lia.
  unfold sfs_bused, zoom. munfold. simpl. rewrite decide_False by lia. pose proof (vo_bits _ V).
  destruct (bitmap_isset_spec (s_freemap s) b (vo_map _ V) ltac:(lia)) as (x & -> & Hx).
  rewrite decide_False by (by apply Hx). by rewrite set_freemap_id.
Qed.

End blocks.

#[global] Arguments same_data {D _ _} w d d'.
#[global] Arguments vol_ok {K D _ _} w s.
#[global] Arguments dev_vol {K D _ _} w s.

(** ** A rejected write *)

#[local] Existing Instance Lhd.lhd_device.

(** A request for no sector at all succeeds. *)
Lemma lhd_io_empty {HW} `{!Lhd.LhdCard HW, !Lhd.LhdCardSpec HW} (l : Lhd.lhd_softc HW) c u :
  Lhd.lhd_ok l -> uio_resid u = 0 ->
  uio_offset u mod Lhd.LHD_SECTSIZE = 0 ->
  0 <= uio_offset u / Lhd.LHD_SECTSIZE <= Z.of_nat (length (Lhd.card_sectors (Lhd.lh_card l))) ->
  Lhd.lhd_io (l, (c, u)) = Done tt (l, (c, u)).
Proof.
  intros Hl Hr Hm Ho. pose proof Hl as (_ & _ & _ & Hn & Hn2). unfold Lhd.lhd_io. munfold. cbn [id fst snd]. rewrite Hr.
  assert (0 <= uio_offset u) by (unfold Lhd.LHD_SECTSIZE in *; dlia).
  rewrite Z.quot_div_nonneg, Z.rem_mod_nonneg by (unfold Lhd.LHD_SECTSIZE in *; lia). rewrite Hm.
  rewrite decide_False by (intros [Hx|Hx]; by apply Hx).
  change (0 / Lhd.LHD_SECTSIZE) with 0. rewrite Z.add_0_r, !u32_small by (rewrite ?u32_small; lia).
  by rewrite decide_False by lia.
Qed.

(** C38: When the disk reports a media error on a write, [sfs_wblock] returns success: the
    driver has consumed the uio by the time the error is known, so that the retry in
    [sfs_rwblock] transfers no sector and succeeds.  The card has run once, and the sector
    holds whatever the card left there. *)
Theorem sfs_wblock_loses_write {K HW : Type} `{!Kmalloc K, !Locks K, !Lhd.LhdCard HW, !Lhd.LhdCardSpec HW}
    (s : sfs_fs K (Lhd.lhd_softc HW)) (data x : list Z) (b : nat) :
  let card := Lhd.lh_card (s_dev s) in
  Lhd.lhd_ok (s_dev s) -> badfault (s_ctx s) = false -> length data = Z.to_nat SFS_BLOCKSIZE -> Z.of_nat b + 1 < 2 ^ 22 ->
  Lhd.card_sectors card !! b = Some x ->
  (Lhd.card_run true (Z.of_nat b) data card).1.1 = Lhd.LHD_MEDIA ->
  exists s', sfs_wblock data (Z.of_nat b) s = Done tt s' /\
    Lhd.lh_card (s_dev s') = (Lhd.card_run true (Z.of_nat b) data card).2.
Proof.
  intros card Hl Hc Hdata Hb Hx Hm. set (u := SFSUIO data (Z.of_nat b) UIO_WRITE).
  pose proof (SFSUIO_sector (s_ctx s) data b UIO_WRITE Hc Hdata ltac:(lia)) as Hu. fold u in Hu.
  assert (Hp : peek (s_ctx s) u Lhd.LHD_SECTSIZE = Some data).
  { unfold peek. simpl. apply slice_all. by rewrite Hdata. }
  pose proof (lookup_lt_Some _ _ _ Hx) as Hlt.
  pose proof (Lhd.lhd_sector_write (s_dev s) (s_ctx s) u b x Hl (proj1 Hu) eq_refl ltac:(done) Hx) as Hw.
  rewrite Hp in Hw. destruct Hw as (l' & y & Hl' & Hs & Hcard & [(_ & _ & Hok)|[E _]]).
  { fold card in Hok. by rewrite Hm in Hok. }
  assert (E2 : Lhd.lhd_io (l', (s_ctx s, advance Lhd.LHD_SECTSIZE u)) = Done tt (l', (s_ctx s, advance Lhd.LHD_SECTSIZE u))).
  { assert (Ho : uio_offset (advance Lhd.LHD_SECTSIZE u) = (Z.of_nat b + 1) * Lhd.LHD_SECTSIZE).
    { simpl. unfold Lhd.LHD_SECTSIZE, SFS_BLOCKSIZE. rewrite (s32_small (Z.of_nat b * 512)) by lia.
      rewrite s32_small by lia. lia. }
    apply lhd_io_empty; [done|done|rewrite Ho; by rewrite Z.mod_mul|].
    rewrite Ho, Z.div_mul, Hs, length_insert by done. unfold card in *. lia. }
  pose proof (Lhd.lhd_io_one (s_dev s) (s_ctx s) u b Hl Hu ltac:(lia) Hlt) as E1.
  unfold Lhd.statval in E1. simpl in E1. change (Lhd.lhd_sector _ _ _) with
    (Lhd.lhd_sector (Z.of_nat b) (Z.lor Lhd.LHD_WORKING Lhd.LHD_ISWRITE) (s_dev s, (s_ctx s, u))) in E1. rewrite E in E1.
  unfold sfs_wblock, with_uio, sfs_rwblock. fold u. munfold. cbn [rw_retry]. unfold zoom. munfold.
  cbn [lget lset devL fst snd d_io Lhd.lhd_device]. rewrite E1. cbn [fst snd]. simpl. rewrite E2. simpl.
  eexists. split; [done|]. done.
Qed.

End SfsBlock.
