(* ===== verification/SfsFile.v ===== *)
(** * The file system: files

    A file as its bytes: [fbyte] reads the byte at a position through the block table of
    the inode.  Mapping a block for writing allocates without changing any byte of
    any file; reads and writes transfer exactly the bytes asked for; truncation frees
    blocks past the new end.  Blocks that belong to other files, to the free map or to
    inodes are never touched. *)

From S2P Require Import Prelude Kmalloc Array Bitmap Uio Blockdev Vnode Sfs SfsBlock.
Import Bitmap Uio Vnode Sfs SfsBlock.

Module SfsFile.

(** ** The block table *)

Definition NBLOCKS : nat := 143.

(** The largest file: direct blocks and one indirect block. *)
Definition MAXFILE : Z := Z.of_nat NBLOCKS * 512.

Definition blk (dk : list (list Z)) (b : Z) : list Z := default [] (dk !! Z.to_nat b).

Definition idwords (dk : list (list Z)) (i : sfs_inode) : list Z :=
  if decide (sfi_indirect i = 0) then replicate (Z.to_nat SFS_DBPERIDB) 0
  else words_of (Z.to_nat SFS_DBPERIDB) (blk dk (sfi_indirect i)).

(** The disk block of every block of the file, 0 for none. *)
Definition ftable (dk : list (list Z)) (i : sfs_inode) : list Z := sfi_direct i ++ idwords dk i.

Definition fblock (dk : list (list Z)) (i : sfs_inode) (n : nat) : Z := default 0 (ftable dk i !! n).

(** The blocks that belong to the file. *)
Definition blocks (dk : list (list Z)) (i : sfs_inode) : list Z :=
  filter (fun b => b <> 0) (sfi_indirect i :: ftable dk i).

(** The byte at a position. *)
Definition fbyte (dk : list (list Z)) (i : sfs_inode) (pos : nat) : Z :=
  let b := fblock dk i (pos / 512) in
  if decide (b = 0) then 0 else default 0 (blk dk b !! (pos mod 512)%nat).

Lemma elem_of_blocks dk i b : b ∈ blocks dk i <-> b <> 0 /\ (b = sfi_indirect i \/ b ∈ ftable dk i).
Proof. unfold blocks. rewrite list_elem_of_filter, elem_of_cons. done. Qed.

Lemma length_idwords dk i : length (idwords dk i) = 128%nat.
Proof. unfold idwords. case_decide; [by rewrite length_replicate|by rewrite length_words_of]. Qed.

Lemma NoDup_filter_lookup (l : list Z) :
  NoDup (filter (fun b => b <> 0) l) <->
  forall i j b, b <> 0 -> l !! i = Some b -> l !! j = Some b -> i = j.
Proof.
  induction l as [|x l IH]; [split; [done|intros; constructor]|].
  rewrite filter_cons. split.
  - intros Hn [|i] [|j] b Hb; simpl; intros E1 E2; try done.
    + injection E1 as <-. rewrite decide_True in Hn by done. apply NoDup_cons in Hn as [Hn _].
      destruct Hn. apply list_elem_of_filter. split; [done|]. by eapply list_elem_of_lookup_2.
    + injection E2 as <-. rewrite decide_True in Hn by done. apply NoDup_cons in Hn as [Hn _].
      destruct Hn. apply list_elem_of_filter. split; [done|]. by eapply list_elem_of_lookup_2.
    + f_equal. case_decide; [apply NoDup_cons in Hn as [_ Hn]|]; by eapply IH.
  - intros H. assert (Hl : NoDup (filter (fun b => b <> 0) l)).
    { apply IH. intros i j b Hb E1 E2. pose proof (H (S i) (S j) b Hb E1 E2). lia. }
    case_decide; [|done]. apply NoDup_cons. split; [|done]. intros Hx. apply list_elem_of_filter in Hx as [_ Hx].
    apply list_elem_of_lookup_1 in Hx as [j Hj]. pose proof (H O (S j) x ltac:(done) eq_refl Hj). lia.
Qed.

(** A table in which a free place is filled with a new block. *)
Lemma filter_fill (l : list Z) k b :
  NoDup (filter (fun b => b <> 0) l) -> b ∉ l -> NoDup (filter (fun b => b <> 0) (<[k := b]> l)).
Proof.
  rewrite !NoDup_filter_lookup. intros H Hb i j c Hc E1 E2.
  apply list_lookup_insert_Some in E1 as [(-> & -> & Hk)|[Hi E1]];
    apply list_lookup_insert_Some in E2 as [(-> & E2 & _)|[Hj E2]]; try done.
  - apply list_elem_of_lookup_2 in E2. done.
  - subst. apply list_elem_of_lookup_2 in E1. done.
  - by eapply H.
Qed.

Lemma elem_of_insert_list (l : list Z) k b c : c ∈ <[k := b]> l -> c = b \/ c ∈ l.
Proof.
  intros Hc. apply list_elem_of_lookup_1 in Hc as [i Hi].
  apply list_lookup_insert_Some in Hi as [(_ & -> & _)|[_ Hi]]; [by left|right]. by eapply list_elem_of_lookup_2.
Qed.

Lemma fblock_lookup dk i n :
  length (sfi_direct i) = 15%nat -> (n < NBLOCKS)%nat -> (sfi_indirect i :: ftable dk i) !! S n = Some (fblock dk i n).
Proof.
  intros Hd Hn. simpl. unfold fblock. destruct (ftable dk i !! n) as [b|] eqn:E; [done|].
  apply lookup_ge_None in E. unfold ftable in E. rewrite length_app, length_idwords, Hd in E.
  unfold NBLOCKS in Hn. lia.
Qed.

Lemma fblock_out dk i n : length (sfi_direct i) = 15%nat -> (NBLOCKS <= n)%nat -> fblock dk i n = 0.
Proof.
  intros Hd Hn. unfold fblock. rewrite lookup_ge_None_2; [done|].
  unfold ftable. rewrite length_app, length_idwords, Hd. unfold NBLOCKS in Hn. lia.
Qed.

Section files.
Context {K D : Type} `{!Kmalloc K, !Locks K, !Device D, !DeviceSpec D} {w : wear} `{!Writes w}.
Abbreviation sfs := (sfs_fs K D).
Abbreviation dev_ok := (Blockdev.dev_ok w).
Abbreviation same_data := (SfsBlock.same_data w).
Abbreviation vol_ok := (SfsBlock.vol_ok w).
Abbreviation dev_vol := (SfsBlock.dev_vol w).
Implicit Types s : sfs.

(** The vnode at [p] is loaded and its blocks are distinct, allocated blocks of the
    volume. *)
Record file_ok s (p : Z) (sv : sfs_vnode) : Prop := {
  fo_obj : s_objs s !! p = Some sv;
  fo_direct : length (sfi_direct (sv_i sv)) = 15%nat;
  fo_nodup : NoDup (blocks (disk s) (sv_i sv));
  fo_blocks : forall b, b ∈ blocks (disk s) (sv_i sv) ->
    0 < b < sp_nblocks (s_super s) /\ bit (s_freemap s) b = true;
}.

(** From [s] to [s'] the file at [p] got blocks: what else the volume holds is as it was. *)
Record grows (p : Z) (sv sv' : sfs_vnode) s s' : Prop := {
  g_vol : vol_ok s';
  g_file : file_ok s' p sv';
  g_objs : s_objs s' = <[p := sv']> (s_objs s);
  g_rest : (s_kern s', s_ctx s', s_self s', s_super s', s_superdirty s', s_vnodes s') =
           (s_kern s, s_ctx s, s_self s, s_super s, s_superdirty s, s_vnodes s);
  g_sv : (sv_v sv', sv_ino sv', sfi_type (sv_i sv'), sfi_linkcount (sv_i sv'), sfi_waste (sv_i sv')) =
         (sv_v sv, sv_ino sv, sfi_type (sv_i sv), sfi_linkcount (sv_i sv), sfi_waste (sv_i sv));
  g_bits : forall b, 0 <= b -> bit (s_freemap s) b = true -> bit (s_freemap s') b = true;
  g_nbits : nbits (s_freemap s') = nbits (s_freemap s);
  g_new : forall b, b ∈ blocks (disk s') (sv_i sv') -> b ∈ blocks (disk s) (sv_i sv) \/ bit (s_freemap s) b = false;
  g_len : length (disk s') = length (disk s);
  g_keep : forall b, 0 <= b -> bit (s_freemap s) b = true -> b ∉ blocks (disk s) (sv_i sv) ->
    disk s' !! Z.to_nat b = disk s !! Z.to_nat b;
}.

Lemma file_ok_range s p sv n :
  file_ok s p sv -> (n < NBLOCKS)%nat ->
  let b := fblock (disk s) (sv_i sv) n in
  b = 0 \/ 0 < b < sp_nblocks (s_super s) /\ bit (s_freemap s) b = true.
Proof.
  intros F Hn b. destruct (decide (b = 0)); [by left|right]. apply (fo_blocks _ _ _ F).
  apply elem_of_blocks. split; [done|]. right. eapply (list_elem_of_lookup_2 _ n).
  apply (fblock_lookup _ _ _ (fo_direct _ _ _ F) Hn).
Qed.

Lemma grows_refl s p sv : vol_ok s -> file_ok s p sv -> grows p sv sv s s.
Proof. intros V F. split; try done; [by rewrite insert_id by apply F|]. intros b Hb. by left. Qed.

Lemma grows_trans s1 s2 s3 p sv1 sv2 sv3 : grows p sv1 sv2 s1 s2 -> grows p sv2 sv3 s2 s3 -> grows p sv1 sv3 s1 s3.
Proof.
  intros [A1 A2 A3 A4 A5 A6 A7 A8 A9 A10] [B1 B2 B3 B4 B5 B6 B7 B8 B9 B10].
  assert (Hs : forall b, b ∈ blocks (disk s2) (sv_i sv2) -> 0 <= b).
  { intros b Hb. apply (fo_blocks _ _ _ A2) in Hb. lia. }
  split; try done.
  - rewrite B3, A3. by rewrite insert_insert_eq.
  - congruence.
  - congruence.
  - intros b H0 Hb. by apply B6, A6.
  - congruence.
  - intros b Hb. pose proof (fo_blocks _ _ _ B2 b Hb) as [Hr _]. destruct (B8 b Hb) as [Hb2|Hb2]; [by apply A8|].
    right. destruct (bit (s_freemap s1) b) eqn:E; [|done]. rewrite A6 in Hb2 by (done || lia). done.
  - congruence.
  - intros b H0 Hb Hn. rewrite B10; [by apply A10|done|by apply A6|].
    intros Hb2. destruct (A8 b Hb2); [done|congruence].
Qed.

(** After a read. *)
Lemma file_ok_dev s p sv d : file_ok s p sv -> same_data (s_dev s) d -> file_ok (set_dev d s) p sv.
Proof. intros [] [_ Hd]. split; try done; unfold disk in *; simpl; by rewrite Hd. Qed.

Lemma grows_dev s p sv d : vol_ok s -> file_ok s p sv -> same_data (s_dev s) d -> grows p sv sv s (set_dev d s).
Proof.
  intros V F Hd. pose proof Hd as [_ Hs]. assert (Hdk : disk (set_dev d s) = disk s) by exact Hs.
  split; try done; rewrite ?Hdk; try done.
  - by apply vol_ok_dev.
  - by apply file_ok_dev.
  - simpl. by rewrite insert_id by apply F.
  - intros b Hb. by left.
Qed.

(** ** Attaching a block *)

(** A mapped block is not the indirect block, and not that of another position. *)
Lemma fblock_indirect s p sv n :
  file_ok s p sv -> (n < NBLOCKS)%nat -> fblock (disk s) (sv_i sv) n <> 0 ->
  fblock (disk s) (sv_i sv) n <> sfi_indirect (sv_i sv).
Proof.
  intros F Hn Hb E. pose proof (fo_nodup _ _ _ F) as Hd. unfold blocks in Hd. rewrite NoDup_filter_lookup in Hd.
  pose proof (Hd (S n) O _ Hb (fblock_lookup _ _ _ (fo_direct _ _ _ F) Hn)) as H0. simpl in H0.
  rewrite E in H0. by specialize (H0 eq_refl).
Qed.

Lemma fblock_inj s p sv n m :
  file_ok s p sv -> (n < NBLOCKS)%nat -> (m < NBLOCKS)%nat -> fblock (disk s) (sv_i sv) n <> 0 ->
  fblock (disk s) (sv_i sv) n = fblock (disk s) (sv_i sv) m -> n = m.
Proof.
  intros F Hn Hm Hb E. pose proof (fo_nodup _ _ _ F) as Hd. unfold blocks in Hd. rewrite NoDup_filter_lookup in Hd.
  pose proof (Hd (S n) (S m) _ Hb (fblock_lookup _ _ _ (fo_direct _ _ _ F) Hn)) as H0.
  rewrite E in H0. specialize (H0 (fblock_lookup _ _ _ (fo_direct _ _ _ F) Hm)). lia.
Qed.

(** What the four ways of giving a block to a file have in common. *)
Record attached (p b : Z) (sv sv' : sfs_vnode) s s' : Prop := {
  at_vol : vol_ok s';
  at_objs : s_objs s' = <[p := sv']> (s_objs s);
  at_rest : (s_kern s', s_ctx s', s_self s', s_super s', s_superdirty s', s_vnodes s') =
            (s_kern s, s_ctx s, s_self s, s_super s, s_superdirty s, s_vnodes s);
  at_sv : (sv_v sv', sv_ino sv', sfi_type (sv_i sv'), sfi_linkcount (sv_i sv'), sfi_waste (sv_i sv')) =
          (sv_v sv, sv_ino sv, sfi_type (sv_i sv), sfi_linkcount (sv_i sv), sfi_waste (sv_i sv));
  at_direct : length (sfi_direct (sv_i sv')) = 15%nat;
  at_range : 0 < b < sp_nblocks (s_super s);
  at_free : bit (s_freemap s) b = false;
  at_map : bit_set (s_freemap s) b true (s_freemap s');
  at_len : length (disk s') = length (disk s);
  at_zero : blk (disk s') b = zero_block;
  at_other : forall c, 0 <= c -> c <> b -> ~ (c = sfi_indirect (sv_i sv) /\ c <> 0) -> disk s' !! Z.to_nat c = disk s !! Z.to_nat c;
}.

Lemma attached_grows p b sv sv' s s' k :
  vol_ok s -> file_ok s p sv -> attached p b sv sv' s s' ->
  (sfi_indirect (sv_i sv') :: ftable (disk s') (sv_i sv')) =
    <[k := b]> (sfi_indirect (sv_i sv) :: ftable (disk s) (sv_i sv)) ->
  grows p sv sv' s s'.
Proof.
  intros V F A E. pose proof (at_range _ _ _ _ _ _ A) as Hr. pose proof (at_map _ _ _ _ _ _ A) as Hm.
  assert (Hsup : s_super s' = s_super s) by (pose proof (at_rest _ _ _ _ _ _ A); congruence).
  assert (Hnew : b ∉ sfi_indirect (sv_i sv) :: ftable (disk s) (sv_i sv)).
  { intros Hb. destruct (fo_blocks _ _ _ F b) as [_ Ht].
    - apply list_elem_of_filter. split; [lia|done].
    - rewrite (at_free _ _ _ _ _ _ A) in Ht. done. }
  assert (Hbl : forall c, c ∈ blocks (disk s') (sv_i sv') -> c = b \/ c ∈ blocks (disk s) (sv_i sv)).
  { intros c Hc. unfold blocks in *. rewrite E in Hc. apply list_elem_of_filter in Hc as [Hc0 Hc].
    apply elem_of_insert_list in Hc as [->|Hc]; [by left|right]. by apply list_elem_of_filter. }
  assert (Hbits : forall c, 0 <= c -> bit (s_freemap s) c = true -> bit (s_freemap s') c = true).
  { intros c Hc Ht. destruct (decide (c = b)) as [->|Hcb]; [apply (bs_bit _ _ _ _ Hm)|]. by rewrite (bs_other _ _ _ _ Hm). }
  split; [apply A| |apply A|apply A|apply A|exact Hbits|apply (bs_nbits _ _ _ _ Hm)| |apply A|].
  - split; [|apply A| |].
    + rewrite (at_objs _ _ _ _ _ _ A). by rewrite lookup_insert_eq.
    + unfold blocks. rewrite E. by apply filter_fill; [apply F|].
    + intros c Hc. rewrite Hsup. apply Hbl in Hc as [->|Hc]; [split; [done|apply (bs_bit _ _ _ _ Hm)]|].
      apply (fo_blocks _ _ _ F) in Hc as [Hc Ht]. split; [done|]. apply Hbits; [lia|done].
  - intros c Hc. apply Hbl in Hc as [->|Hc]; [right; apply A|by left].
  - intros c H0 Ht Hn. destruct (decide (c = b)) as [->|Hcb].
    { rewrite (at_free _ _ _ _ _ _ A) in Ht. done. }
    apply (at_other _ _ _ _ _ _ A); [done|done|]. intros [-> H1]. apply Hn, elem_of_blocks. auto.
Qed.

Lemma zero_block_lookup k : default 0 (zero_block !! k) = 0.
Proof.
  unfold zero_block. destruct (replicate _ _ !! k) eqn:E; [|done]. by apply lookup_replicate in E as [-> _].
Qed.

Lemma blk_same dk dk' b : dk' !! Z.to_nat b = dk !! Z.to_nat b -> blk dk' b = blk dk b.
Proof. unfold blk. by intros ->. Qed.

Lemma attached_bytes p b sv sv' s s' :
  vol_ok s -> file_ok s p sv -> attached p b sv sv' s s' ->
  (forall m, (m < NBLOCKS)%nat -> fblock (disk s') (sv_i sv') m = fblock (disk s) (sv_i sv) m \/
     fblock (disk s) (sv_i sv) m = 0 /\ fblock (disk s') (sv_i sv') m = b) ->
  forall pos, fbyte (disk s') (sv_i sv') pos = fbyte (disk s) (sv_i sv) pos.
Proof.
  intros V F A H pos. unfold fbyte. set (m := (pos / 512)%nat).
  destruct (decide (m < NBLOCKS)%nat) as [Hm|Hm].
  2:{ rewrite !fblock_out by (apply A || apply F || lia). done. }
  destruct (H m Hm) as [E|[E E']].
  - rewrite E. case_decide as D0; [done|]. destruct (file_ok_range s p sv m F Hm) as [|[Hr Ht]]; [done|].
    rewrite (blk_same (disk s)); [done|]. apply (at_other _ _ _ _ _ _ A); [lia| |].
    + intros Eb. rewrite Eb, (at_free _ _ _ _ _ _ A) in Ht. done.
    + intros [Eb _]. by eapply fblock_indirect.
  - rewrite E, E'. rewrite (decide_True (P := 0 = 0)) by done. case_decide; [done|].
    rewrite (at_zero _ _ _ _ _ _ A). apply zero_block_lookup.
Qed.

(** A block of the table filled. *)
Lemma fblock_insert dk i dk' i' n m b :
  ftable dk' i' = <[n := b]> (ftable dk i) -> fblock dk i n = 0 ->
  fblock dk' i' m = fblock dk i m \/ fblock dk i m = 0 /\ fblock dk' i' m = b.
Proof.
  intros E Hn. unfold fblock in *. rewrite E. destruct (decide (m = n)) as [->|Hm].
  - destruct (ftable dk i !! n) as [x|] eqn:Ex.
    + right. split; [done|]. rewrite list_lookup_insert_eq; [done|]. by eapply lookup_lt_Some.
    + left. rewrite list_insert_ge; [by rewrite Ex|]. by apply lookup_ge_None.
  - left. by rewrite list_lookup_insert_ne.
Qed.

Lemma words_of_zero : words_of (Z.to_nat SFS_DBPERIDB) zero_block = replicate (Z.to_nat SFS_DBPERIDB) 0.
Proof. vm_compute. reflexivity. Qed.

Lemma blk_insert dk b x : (Z.to_nat b < length dk)%nat -> blk (<[Z.to_nat b := x]> dk) b = x.
Proof. intros Hb. unfold blk. by rewrite list_lookup_insert_eq. Qed.

Lemma blk_insert_ne dk b c x : 0 <= b -> 0 <= c -> b <> c -> blk (<[Z.to_nat c := x]> dk) b = blk dk b.
Proof. intros Hb Hc Hbc. unfold blk. rewrite list_lookup_insert_ne by lia. done. Qed.

(** The table does not depend on a block that is not the indirect block. *)
Lemma idwords_insert dk i c x :
  0 <= sfi_indirect i -> 0 <= c -> sfi_indirect i = 0 \/ sfi_indirect i <> c ->
  idwords (<[Z.to_nat c := x]> dk) i = idwords dk i.
Proof.
  intros Hi Hc H. unfold idwords. case_decide; [done|]. rewrite blk_insert_ne by (done || naive_solver). done.
Qed.

Lemma indirect_range s p sv :
  file_ok s p sv -> sfi_indirect (sv_i sv) = 0 \/
  0 < sfi_indirect (sv_i sv) < sp_nblocks (s_super s) /\ bit (s_freemap s) (sfi_indirect (sv_i sv)) = true.
Proof.
  intros F. destruct (decide (sfi_indirect (sv_i sv) = 0)); [by left|right]. apply (fo_blocks _ _ _ F).
  apply elem_of_blocks. auto.
Qed.

(** Mapping a block for a write: the file keeps its bytes. *)
Definition mapped (p : Z) (sv : sfs_vnode) s (n : nat) (r : outcome sfs Z) : Prop :=
  exists sv' s', grows p sv sv' s s' /\ sfi_size (sv_i sv') = sfi_size (sv_i sv) /\
    (forall pos, fbyte (disk s') (sv_i sv') pos = fbyte (disk s) (sv_i sv) pos) /\
    ((exists b, r = Done b s' /\ b <> 0 /\ b = fblock (disk s') (sv_i sv') n) \/
     r = Fail ENOSPC s' \/ r = Fail EIO s').

Lemma get_sv_eq s p sv : s_objs s !! p = Some sv -> get_sv p s = Done sv s.
Proof. intros E. unfold get_sv. munfold. unfold id. by rewrite E. Qed.

Lemma get_vn_eq s p sv : s_objs s !! p = Some sv -> get_vn vget p s = Done (sv_v sv) s.
Proof. intros E. unfold get_vn, vget. munfold. unfold id. by rewrite E. Qed.

Lemma getguy_eq s (i : nat) q :
  Array.wf (s_vnodes s) -> (i < Z.to_nat (Array.num (s_vnodes s)))%nat -> Array.vdata (s_vnodes s) !! i = Some (Some q) ->
  zoom vnodesL (Array.array_getguy (Z.of_nat i)) s = Done (Some q) s.
Proof.
  intros [] Hi E. unfold Array.array_getguy, Array.getA, zoom. munfold. simpl.
  rewrite !bool_decide_eq_true_2 by lia. rewrite zlookup_nat, E. by destruct s.
Qed.

(** Giving a newly allocated block to a place of the inode. *)
Lemma attach_inode s p sv i b d fm :
  vol_ok s -> file_ok s p sv -> 0 < b < sp_nblocks (s_super s) -> bit (s_freemap s) b = false ->
  bit_set (s_freemap s) b true fm -> vol_ok (with_map d fm s) -> sectors d = <[Z.to_nat b := zero_block]> (disk s) ->
  length (sfi_direct i) = 15%nat ->
  (sfi_type i, sfi_linkcount i, sfi_waste i) = (sfi_type (sv_i sv), sfi_linkcount (sv_i sv), sfi_waste (sv_i sv)) ->
  attached p b sv (dirty_i i sv) s (set_objs (<[p := dirty_i i sv]> (s_objs s)) (with_map d fm s)).
Proof.
  intros V F Hb Hf Hm V' Hd Hl Hi. set (s1 := set_objs _ _).
  assert (Hdk : disk s1 = <[Z.to_nat b := zero_block]> (disk s)) by exact Hd.
  pose proof (vo_blocks _ V).
  split; try done; rewrite ?Hdk.
  - by apply vol_ok_objs.
  - simpl. simpl in Hi. congruence.
  - by rewrite length_insert.
  - apply blk_insert. lia.
  - intros c Hc Hcb _. rewrite list_lookup_insert_ne by lia. done.
Qed.

Lemma bmap_direct_alloc s p sv (n : nat) :
  vol_ok s -> file_ok s p sv -> (n < 15)%nat -> mapped p sv s n (bmap_direct p (Z.of_nat n) true s).
Proof.
  intros V F Hn. unfold bmap_direct. rewrite (bind_Done _ _ _ _ _ (get_sv_eq s p sv (fo_obj _ _ _ F))).
  pose proof (fo_direct _ _ _ F) as Hd. destruct (lookup_lt_is_Some_2 (sfi_direct (sv_i sv)) n ltac:(lia)) as [b Hb].
  assert (Hfb : fblock (disk s) (sv_i sv) n = b).
  { unfold fblock, ftable. by rewrite lookup_app_l, Hb by lia. }
  unfold access. rewrite zlookup_nat, Hb. unfold mbind, M_bind. destruct (decide (b = 0)) as [->|Hb0].
  - rewrite decide_True by done.
    destruct (sfs_balloc_spec s V) as [(b & d & fm & -> & Hr & Hf & Hm & V' & Hs)|[-> _]].
    + set (i := set_direct (<[n := b]> (sfi_direct (sv_i sv))) (sv_i sv)).
      pose proof (attach_inode s p sv i b d fm V F Hr Hf Hm V' Hs ltac:(simpl; by rewrite length_insert) eq_refl) as A.
      set (s1 := set_objs _ _) in A.
      assert (Ht : ftable (disk s1) (sv_i (dirty_i i sv)) = <[n := b]> (ftable (disk s) (sv_i sv))).
      { unfold ftable. simpl. rewrite insert_app_l by lia. f_equal. change (disk s1) with (sectors d). rewrite Hs.
        destruct (indirect_range s p sv F) as [Hi|[Hi Hbi]].
        - rewrite idwords_insert; [unfold idwords; simpl; by rewrite Hi|simpl; lia|lia|by left].
        - rewrite idwords_insert; [done|simpl; lia|lia|]. right. simpl. intros E. rewrite E in Hbi. congruence. }
      pose proof (attached_grows p b sv _ s s1 (S n) V F A) as G. simpl in G.
      specialize (G ltac:(simpl in Ht; by rewrite Ht)).
      exists (dirty_i i sv), s1. split; [done|]. split; [done|].
      split; [apply (attached_bytes p b); try done; intros m _; by apply (fblock_insert _ _ _ _ n)|]. left. exists b.
      rewrite (get_sv_eq _ p sv) by apply F. munfold. rewrite zinsert_in by lia. rewrite Nat2Z.id.
      unfold put_sv. munfold. fold i. change (set_objs _ _) with s1.
      assert (Hfb' : fblock (disk s1) (sv_i (dirty_i i sv)) n = b).
      { unfold fblock. rewrite Ht, list_lookup_insert_eq; [done|]. unfold ftable. rewrite length_app. lia. }
      rewrite (check_used_spec (w := w)); [|apply G|].
      * split; [done|]. split; [lia|done].
      * rewrite <- Hfb'. apply (file_ok_range s1 p); [apply G|unfold NBLOCKS; lia].
    + exists sv, s. split; [by apply grows_refl|]. split; [done|]. split; [done|]. right. by left.
  - rewrite decide_False by (by intros []). exists sv, s. split; [by apply grows_refl|]. split; [done|]. split; [done|].
    left. exists b. munfold. rewrite (check_used_spec (w := w)); [|done|].
    + done.
    + rewrite <- Hfb. apply (file_ok_range s p); [done|unfold NBLOCKS; lia].
Qed.

Lemma idwords_ok dk i : Forall word_ok (idwords dk i).
Proof.
  unfold idwords. case_decide; [|apply words_of_ok]. apply Forall_replicate. unfold word_ok. lia.
Qed.

Lemma bmap_indirect_alloc s p sv :
  vol_ok s -> file_ok s p sv ->
  exists sv' s', grows p sv sv' s s' /\ sfi_size (sv_i sv') = sfi_size (sv_i sv) /\
    (forall pos, fbyte (disk s') (sv_i sv') pos = fbyte (disk s) (sv_i sv) pos) /\
    (bmap_indirect p s = Done (sfi_indirect (sv_i sv'), idwords (disk s') (sv_i sv')) s' /\ sfi_indirect (sv_i sv') <> 0 \/
     bmap_indirect p s = Fail ENOSPC s' \/ bmap_indirect p s = Fail EIO s').
Proof.
  intros V F. unfold bmap_indirect. rewrite (bind_Done _ _ _ _ _ (get_sv_eq s p sv (fo_obj _ _ _ F))).
  destruct (decide (sfi_indirect (sv_i sv) = 0)) as [Hi|Hi].
  - unfold mbind, M_bind.
    destruct (sfs_balloc_spec s V) as [(b & d & fm & -> & Hr & Hf & Hm & V' & Hs)|[-> _]].
    2:{ exists sv, s. split; [by apply grows_refl|]. split; [done|]. split; [done|]. auto. }
    set (i := set_indirect b (sv_i sv)).
    pose proof (attach_inode s p sv i b d fm V F Hr Hf Hm V' Hs ltac:(apply F) eq_refl) as A.
    set (s1 := set_objs _ _) in A.
    assert (Hid : idwords (disk s1) i = idwords (disk s) (sv_i sv)).
    { unfold idwords. simpl. rewrite decide_False by lia. rewrite decide_True by done.
      change (disk s1) with (sectors d). rewrite Hs, blk_insert; [apply words_of_zero|]. pose proof (vo_blocks _ V). lia. }
    assert (Ht : ftable (disk s1) i = ftable (disk s) (sv_i sv)) by (unfold ftable; simpl; by rewrite Hid).
    pose proof (attached_grows p b sv _ s s1 0 V F A) as G. simpl in G. specialize (G ltac:(by rewrite Ht)).
    exists (dirty_i i sv), s1. split; [done|]. split; [done|].
    split; [apply (attached_bytes p b); try done; intros m _; left; unfold fblock; simpl; by rewrite Ht|]. left.
    rewrite (get_sv_eq _ p sv) by apply F. unfold put_sv. munfold. fold i. change (set_objs _ _) with s1. simpl. rewrite Hid.
    unfold idwords. rewrite decide_True by done. split; [done|lia].
  - destruct (indirect_range s p sv F) as [|[Hr Ht]]; [done|]. pose proof (vo_max _ V).
    destruct (sector_of s (sfi_indirect (sv_i sv)) V ltac:(lia)) as [x Hx].
    destruct (sfs_rblock_spec s zero_block (Z.to_nat (sfi_indirect (sv_i sv))) x V eq_refl ltac:(lia) Hx) as (d & Hd & E).
    rewrite Z2Nat.id in E by lia. exists sv, (set_dev d s). split; [by apply grows_dev|]. split; [done|].
    assert (Hdk : disk (set_dev d s) = disk s) by apply Hd.
    rewrite Hdk. split; [done|]. destruct E as [E|E]; munfold; rewrite E; [left|auto].
    split; [|done]. unfold idwords, blk. rewrite decide_False by done. by rewrite Hx.
Qed.

(** A new block entered in the indirect block. *)
Lemma attach_entry s p sv (j : nat) b d fm d' :
  let idbuf := <[j := b]> (idwords (disk s) (sv_i sv)) in
  vol_ok s -> file_ok s p sv -> sfi_indirect (sv_i sv) <> 0 -> (j < 128)%nat ->
  0 < b < sp_nblocks (s_super s) -> bit (s_freemap s) b = false ->
  bit_set (s_freemap s) b true fm -> vol_ok (with_map d fm s) -> sectors d = <[Z.to_nat b := zero_block]> (disk s) ->
  dev_ok d' -> sectors d' = <[Z.to_nat (sfi_indirect (sv_i sv)) := bytes_of idbuf]> (sectors d) ->
  attached p b sv sv s (with_map d' fm s) /\
  ftable (disk (with_map d' fm s)) (sv_i sv) = <[(15 + j)%nat := b]> (ftable (disk s) (sv_i sv)).
Proof.
  intros idbuf V F Hi Hj Hb Hf Hm V' Hd Hd' Hs'. pose proof (vo_blocks _ V) as Hvb.
  destruct (indirect_range s p sv F) as [|[Hr Ht]]; [done|].
  assert (Hne : sfi_indirect (sv_i sv) <> b) by (intros E; rewrite E in Ht; congruence).
  assert (Hdk : disk (with_map d' fm s) =
    <[Z.to_nat (sfi_indirect (sv_i sv)) := bytes_of idbuf]> (<[Z.to_nat b := zero_block]> (disk s))).
  { change (disk (with_map d' fm s)) with (sectors d'). by rewrite Hs', Hd. }
  split.
  - split; try done; rewrite ?Hdk.
    + apply (vol_ok_write (with_map d fm s) d' (Z.to_nat (sfi_indirect (sv_i sv))) (bytes_of idbuf)); done.
    + simpl. by rewrite insert_id by apply F.
    + apply F.
    + by rewrite !length_insert.
    + rewrite blk_insert_ne by (lia || congruence). apply blk_insert. lia.
    + intros c Hc Hcb Hci. rewrite !list_lookup_insert_ne by lia. done.
  - unfold ftable. rewrite insert_app_r_alt by (rewrite (fo_direct _ _ _ F); lia). f_equal.
    rewrite (fo_direct _ _ _ F). replace (15 + j - 15)%nat with j by lia.
    rewrite Hdk. unfold idwords at 1. rewrite decide_False by done.
    rewrite blk_insert by (rewrite length_insert; lia).
    pose proof (words_of_bytes_of idbuf []) as Hw. rewrite app_nil_r in Hw.
    unfold idbuf in Hw at 2. rewrite length_insert, length_idwords in Hw. apply Hw.
    apply Forall_insert; [apply idwords_ok|]. unfold word_ok. pose proof (vo_max _ V). lia.
Qed.

Lemma mapped_after p sv sv1 s s1 n r :
  grows p sv sv1 s s1 -> sfi_size (sv_i sv1) = sfi_size (sv_i sv) ->
  (forall pos, fbyte (disk s1) (sv_i sv1) pos = fbyte (disk s) (sv_i sv) pos) ->
  mapped p sv1 s1 n r -> mapped p sv s n r.
Proof.
  intros G Hs Hb (sv' & s' & G' & Hs' & Hb' & Hr). exists sv', s'. split; [by eapply grows_trans|].
  split; [congruence|]. split; [|done]. intros pos. by rewrite Hb', Hb.
Qed.

Lemma idoff_eq n : (15 <= n < NBLOCKS)%nat ->
  (Z.of_nat n - SFS_NDIRECT) / SFS_DBPERIDB = 0 /\ (Z.of_nat n - SFS_NDIRECT) mod SFS_DBPERIDB = Z.of_nat (n - 15).
Proof.
  unfold NBLOCKS, SFS_NDIRECT, SFS_DBPERIDB. intros Hn. split; [apply Z.div_small; lia|].
  rewrite Z.mod_small by lia. lia.
Qed.

(** The entry of the indirect block, allocated if there is none. *)
Lemma bmap_entry_alloc s p sv (n : nat) block :
  vol_ok s -> file_ok s p sv -> (15 <= n < NBLOCKS)%nat -> sfi_indirect (sv_i sv) <> 0 ->
  idwords (disk s) (sv_i sv) !! (n - 15)%nat = Some block ->
  mapped p sv s n
    ((block ← (if decide (block = 0 /\ true = true) then
                 block ← sfs_balloc;
                 idbuf ← access (zinsert (idwords (disk s) (sv_i sv)) (Z.of_nat (n - 15)) block);
                 sfs_wblock (bytes_of idbuf) (sfi_indirect (sv_i sv)) ;;
                 mret block
               else mret block);
      check_used block ;; mret block) s).
Proof.
  intros V F Hn Hi Hblock. set (j := (n - 15)%nat) in *.
  assert (Hj : (j < 128)%nat) by (unfold NBLOCKS, j in *; lia).
  assert (Hfb : fblock (disk s) (sv_i sv) n = block).
  { unfold fblock, ftable. rewrite lookup_app_r by (rewrite (fo_direct _ _ _ F); lia).
    rewrite (fo_direct _ _ _ F). fold j. by rewrite Hblock. }
  unfold mbind, M_bind. destruct (decide (block = 0)) as [->|Hb0].
  - rewrite decide_True by done.
    destruct (sfs_balloc_spec s V) as [(b & d & fm & -> & Hr & Hf & Hm & V' & Hs)|[-> _]].
    2:{ exists sv, s. split; [by apply grows_refl|]. split; [done|]. split; [done|]. right. by left. }
    munfold. rewrite zinsert_in by (rewrite length_idwords; lia). rewrite Nat2Z.id.
    set (idbuf := <[j := b]> (idwords (disk s) (sv_i sv))).
    destruct (indirect_range s p sv F) as [|[Hri Hti]]; [done|]. pose proof (vo_max _ V).
    destruct (sector_of (with_map d fm s) (sfi_indirect (sv_i sv)) V' ltac:(simpl; lia)) as [x Hx].
    destruct (sfs_wblock_spec (with_map d fm s) (bytes_of idbuf) (Z.to_nat (sfi_indirect (sv_i sv))) x V') as (d' & Ew & Hd' & Hs').
    { unfold idbuf. by rewrite length_bytes_of, length_insert, length_idwords. }
    { lia. }
    { done. }
    rewrite Z2Nat.id in Ew by lia. rewrite Ew. change (set_dev d' (with_map d fm s)) with (with_map d' fm s).
    destruct (attach_entry s p sv j b d fm d' V F Hi Hj Hr Hf Hm V' Hs Hd' Hs') as [A Ht].
    set (s1 := with_map d' fm s) in *. replace (15 + j)%nat with n in Ht by (unfold j; lia).
    pose proof (attached_grows p b sv sv s s1 (S n) V F A) as G. simpl in G. specialize (G ltac:(by rewrite Ht)).
    exists sv, s1. split; [done|]. split; [done|].
    split; [apply (attached_bytes p b); try done; intros m _; by apply (fblock_insert _ _ _ _ n)|]. left. exists b.
    assert (Hfb' : fblock (disk s1) (sv_i sv) n = b).
    { unfold fblock. rewrite Ht, list_lookup_insert_eq; [done|]. unfold ftable.
      rewrite length_app, length_idwords, (fo_direct _ _ _ F). unfold NBLOCKS in Hn. lia. }
    rewrite (check_used_spec (w := w)); [|apply G|].
    + split; [done|]. split; [lia|done].
    + rewrite <- Hfb'. apply (file_ok_range s1 p); [apply G|lia].
  - rewrite decide_False by (by intros []). exists sv, s. split; [by apply grows_refl|]. split; [done|]. split; [done|].
    left. exists block. munfold. rewrite (check_used_spec (w := w)); [|done|].
    + done.
    + rewrite <- Hfb. apply (file_ok_range s p); [done|lia].
Qed.

Lemma sfs_bmap_alloc s p sv (n : nat) :
  vol_ok s -> file_ok s p sv -> (n < NBLOCKS)%nat -> mapped p sv s n (sfs_bmap p (Z.of_nat n) true s).
Proof.
  intros V F Hn. unfold sfs_bmap. destruct (decide (Z.of_nat n < SFS_NDIRECT)) as [D0|D0].
  { apply bmap_direct_alloc; [done|done|]. unfold SFS_NDIRECT in D0. lia. }
  assert (Hn' : (15 <= n < NBLOCKS)%nat) by (unfold SFS_NDIRECT in D0; lia).
  destruct (idoff_eq n Hn') as [E1 E2]. rewrite E1, E2. rewrite decide_False by lia.
  rewrite (bind_Done _ _ _ _ _ (get_sv_eq s p sv (fo_obj _ _ _ F))).
  rewrite decide_False by (by intros []).
  destruct (bmap_indirect_alloc s p sv V F) as (sv1 & s1 & G & Hs & Hb & Hr).
  apply (mapped_after p sv sv1 s s1 n _ G Hs Hb). destruct Hr as [[E Hi]|Hr].
  - rewrite (bind_Done _ _ _ _ _ E).
    destruct (lookup_lt_is_Some_2 (idwords (disk s1) (sv_i sv1)) (n - 15)) as [block Hblock].
    { rewrite length_idwords. unfold NBLOCKS in Hn. lia. }
    rewrite (bind_Done _ _ s1 block s1) by (unfold access; by rewrite zlookup_nat, Hblock).
    apply bmap_entry_alloc; try done; apply G.
  - exists sv1, s1. split; [apply grows_refl; apply G|]. split; [done|]. split; [done|]. right.
    destruct Hr as [E|E]; [left|right]; by apply bind_Fail.
Qed.

(** Mapping a block for a read. *)
Lemma sfs_bmap_read s p sv (n : nat) :
  vol_ok s -> file_ok s p sv -> (n < NBLOCKS)%nat ->
  exists d, same_data (s_dev s) d /\
    (sfs_bmap p (Z.of_nat n) false s = Done (fblock (disk s) (sv_i sv) n) (set_dev d s) \/
     sfs_bmap p (Z.of_nat n) false s = Fail EIO (set_dev d s)).
Proof.
  intros V F Hn. pose proof (fo_direct _ _ _ F) as Hdl. unfold sfs_bmap.
  assert (Hid : set_dev (s_dev s) s = s) by (by destruct s).
  assert (Hsd : same_data (s_dev s) (s_dev s)) by (split; [apply V|done]).
  destruct (decide (Z.of_nat n < SFS_NDIRECT)) as [D0|D0]; unfold SFS_NDIRECT in D0.
  - unfold bmap_direct. rewrite (bind_Done _ _ _ _ _ (get_sv_eq s p sv (fo_obj _ _ _ F))).
    destruct (lookup_lt_is_Some_2 (sfi_direct (sv_i sv)) n ltac:(lia)) as [b Hb].
    assert (Hfb : fblock (disk s) (sv_i sv) n = b).
    { unfold fblock, ftable. by rewrite lookup_app_l, Hb by lia. }
    exists (s_dev s). split; [done|]. left. rewrite Hid. munfold. rewrite zlookup_nat, Hb.
    rewrite decide_False by (by intros []).
    rewrite (check_used_spec (w := w)); [by rewrite Hfb|done|]. rewrite <- Hfb. by apply (file_ok_range s p).
  - assert (Hn' : (15 <= n < NBLOCKS)%nat) by lia.
    destruct (idoff_eq n Hn') as [E1 E2]. rewrite E1, E2. rewrite decide_False by lia.
    rewrite (bind_Done _ _ _ _ _ (get_sv_eq s p sv (fo_obj _ _ _ F))).
    destruct (lookup_lt_is_Some_2 (idwords (disk s) (sv_i sv)) (n - 15)) as [b Hb].
    { rewrite length_idwords. unfold NBLOCKS in Hn. lia. }
    assert (Hfb : fblock (disk s) (sv_i sv) n = b).
    { unfold fblock, ftable. rewrite lookup_app_r by lia. by rewrite Hdl, Hb. }
    destruct (decide (sfi_indirect (sv_i sv) = 0)) as [Hi|Hi].
    + rewrite decide_True by done. exists (s_dev s). split; [done|]. left. rewrite Hid, Hfb.
      unfold idwords in Hb. rewrite decide_True in Hb by done. by apply lookup_replicate in Hb as [-> _].
    + rewrite decide_False by (by intros []). unfold bmap_indirect.
      destruct (indirect_range s p sv F) as [|[Hri Hti]]; [done|]. pose proof (vo_max _ V).
      destruct (sector_of s (sfi_indirect (sv_i sv)) V ltac:(lia)) as [x Hx].
      destruct (sfs_rblock_spec s zero_block (Z.to_nat (sfi_indirect (sv_i sv))) x V eq_refl ltac:(lia) Hx) as (d & Hd & E).
      exists d. split; [done|]. rewrite Z2Nat.id in E by lia.
      munfold. rewrite (get_sv_eq s p sv) by apply F. rewrite decide_False by done.
      destruct E as [E|E]; rewrite E; [left|by right].
      assert (Hw : words_of (Z.to_nat SFS_DBPERIDB) x !! (n - 15)%nat = Some b).
      { unfold idwords, blk in Hb. rewrite decide_False in Hb by done. by rewrite Hx in Hb. }
      rewrite zlookup_nat, Hw. rewrite decide_False by (by intros []).
      rewrite (check_used_spec (w := w)); [by rewrite Hfb|by apply vol_ok_dev|]. rewrite <- Hfb. by apply (file_ok_range s p).
Qed.

(** A block past the largest file is refused, whether it is to be allocated or not. *)
Lemma sfs_bmap_too_big s p n alloc : (NBLOCKS <= n)%nat -> sfs_bmap p (Z.of_nat n) alloc s = Fail EINVAL s.
Proof.
  intros Hn. unfold NBLOCKS in Hn. unfold sfs_bmap, SFS_NDIRECT, SFS_DBPERIDB. rewrite decide_False by lia. cbv zeta.
  by rewrite decide_True by dlia.
Qed.

End files.

#[global] Arguments grows {K D _ _} w p sv sv' s s'.

End SfsFile.
