(* ===== verification/SfsIo.v ===== *)
(** * The file system: reading and writing

    One transfer inside a block ([sfs_partialio], [sfs_blockio]), and from these the
    whole of [sfs_io]: a write replaces exactly the bytes it covers and a read returns
    the bytes of the file up to its end. *)

From Stdlib Require Import ZifyNat.
From S2P Require Import Prelude Kmalloc Array Bitmap Uio Blockdev Vnode Sfs SfsBlock SfsFile.
Import Bitmap Uio Vnode Sfs SfsBlock SfsFile.

Module SfsIo.

Section io.
Context {K D : Type} `{!Kmalloc K, !Locks K, !Device D, !DeviceSpec D} {w : wear} `{!Writes w}.
Abbreviation sfs := (sfs_fs K D).
Abbreviation dev_ok := (Blockdev.dev_ok w).
Abbreviation same_data := (SfsBlock.same_data w).
Abbreviation vol_ok := (SfsBlock.vol_ok w).
Abbreviation dev_vol := (SfsBlock.dev_vol w).
Abbreviation grows := (SfsFile.grows w).
Implicit Types s : sfs.

(** ** Contents of a block *)

Definition blockdata (dk : list (list Z)) (i : sfs_inode) (n : nat) : list Z :=
  if decide (fblock dk i n = 0) then zero_block else blk dk (fblock dk i n).

Lemma fbyte_blockdata dk i pos : fbyte dk i pos = default 0 (blockdata dk i (pos / 512) !! (pos mod 512)%nat).
Proof. unfold fbyte, blockdata. case_decide; [|done]. by rewrite zero_block_lookup. Qed.

Lemma blk_sector s b x : disk s !! Z.to_nat b = Some x -> blk (disk s) b = x.
Proof. intros E. unfold blk. by rewrite E. Qed.

Lemma length_blockdata s p sv n :
  vol_ok s -> file_ok s p sv -> (n < NBLOCKS)%nat -> length (blockdata (disk s) (sv_i sv) n) = 512%nat.
Proof.
  intros V F Hn. unfold blockdata. case_decide as D0; [done|].
  destruct (file_ok_range s p sv n F Hn) as [|[Hr _]]; [done|].
  destruct (sector_of s _ V ltac:(split; [|apply Hr]; lia)) as [x Hx]. rewrite (blk_sector _ _ _ Hx).
  by apply (dev_sectors _ _ _ _ (vo_dev _ V)) in Hx.
Qed.

(** [k] bytes of the file from [o] on. *)
Definition fbytes (dk : list (list Z)) (i : sfs_inode) (o k : nat) : list Z := (fun j => fbyte dk i (o + j)) <$> seq 0 k.

Lemma length_fbytes dk i o k : length (fbytes dk i o k) = k.
Proof. unfold fbytes. by rewrite length_fmap, length_seq. Qed.

Lemma fbytes_lookup dk i o k j : (j < k)%nat -> fbytes dk i o k !! j = Some (fbyte dk i (o + j)).
Proof. intros Hj. unfold fbytes. rewrite list_lookup_fmap, lookup_seq_lt by done. done. Qed.

Lemma fbytes_app dk i o k1 k2 : fbytes dk i o (k1 + k2) = fbytes dk i o k1 ++ fbytes dk i (o + k1) k2.
Proof.
  unfold fbytes. rewrite seq_app, fmap_app. f_equal. simpl.
  rewrite <- (fmap_add_seq 0 k1 k2) at 1. 
  apply list_eq. intros j. rewrite !list_lookup_fmap. destruct (decide (j < k2)%nat).
  - rewrite !lookup_seq_lt by done. simpl. do 2 f_equal. lia.
  - by rewrite !lookup_seq_ge by lia.
Qed.

(** The part of a block a transfer covers. *)
Lemma fbytes_block dk i o k :
  (o mod 512 + k <= 512)%nat -> length (blockdata dk i (o / 512)) = 512%nat ->
  take k (drop (o mod 512) (blockdata dk i (o / 512))) = fbytes dk i o k.
Proof.
  intros Hk Hl. apply list_eq. intros j. destruct (decide (j < k)%nat) as [Hj|Hj].
  - rewrite lookup_take_lt, lookup_drop, fbytes_lookup by done. rewrite fbyte_blockdata.
    replace ((o + j) / 512)%nat with (o / 512)%nat by dlia.
    replace ((o + j) mod 512)%nat with (o mod 512 + j)%nat by dlia.
    destruct (blockdata dk i (o / 512) !! (o mod 512 + j)%nat) eqn:E; [done|].
    apply lookup_ge_None in E. lia.
  - rewrite lookup_take_ge by lia. symmetry. apply lookup_ge_None. rewrite length_fbytes. lia.
Qed.

(** ** Storing in a block of the file *)

(** The bytes with [data] stored from [o] on. *)
Definition overwritten (f : nat -> Z) (o : nat) (data : list Z) (pos : nat) : Z :=
  if decide (o <= pos < o + length data)%nat then default 0 (data !! (pos - o)%nat) else f pos.

Lemma store_block s p sv n data d :
  vol_ok s -> file_ok s p sv -> (n < NBLOCKS)%nat -> fblock (disk s) (sv_i sv) n <> 0 ->
  dev_ok d -> sectors d = <[Z.to_nat (fblock (disk s) (sv_i sv) n) := data]> (disk s) ->
  grows p sv sv s (set_dev d s) /\
  forall pos, fbyte (disk (set_dev d s)) (sv_i sv) pos =
    if decide (pos / 512 = n)%nat then default 0 (data !! (pos mod 512)%nat) else fbyte (disk s) (sv_i sv) pos.
Proof.
  intros V F Hn Hb Hd Hs. set (b := fblock (disk s) (sv_i sv) n) in *.
  destruct (file_ok_range s p sv n F Hn) as [|[Hr Ht]]; [done|]. fold b in Hr, Ht.
  pose proof (fblock_indirect s p sv n F Hn Hb) as Hne. fold b in Hne.
  assert (Hdk : disk (set_dev d s) = <[Z.to_nat b := data]> (disk s)) by exact Hs.
  assert (Htab : ftable (disk (set_dev d s)) (sv_i sv) = ftable (disk s) (sv_i sv)).
  { unfold ftable. rewrite Hdk, idwords_insert; [done| |lia|auto].
    destruct (indirect_range s p sv F) as [-> |[? _]]; lia. }
  assert (Hblocks : blocks (disk (set_dev d s)) (sv_i sv) = blocks (disk s) (sv_i sv)) by (unfold blocks; by rewrite Htab).
  assert (Hfb : forall m, fblock (disk (set_dev d s)) (sv_i sv) m = fblock (disk s) (sv_i sv) m)
    by (intros m; unfold fblock; by rewrite Htab).
  split.
  - split; try done; rewrite ?Hblocks.
    + by eapply vol_ok_write.
    + split; rewrite ?Hblocks; apply F.
    + simpl. by rewrite insert_id by apply F.
    + intros c Hc. by left.
    + by rewrite Hdk, length_insert.
    + intros c Hc _ Hn'. rewrite Hdk, list_lookup_insert_ne; [done|]. intros E. apply Hn', elem_of_blocks.
      assert (c = b) as -> by lia. split; [done|]. right. apply (list_elem_of_lookup_2 _ n).
      by apply (fblock_lookup _ _ _ (fo_direct _ _ _ F)).
  - intros pos. unfold fbyte. rewrite Hfb. set (m := (pos / 512)%nat). pose proof (vo_blocks _ V).
    destruct (decide (m = n)) as [->|Hmn].
    + fold b. rewrite decide_False by done. rewrite Hdk, blk_insert by lia. done.
    + case_decide as D1; [done|]. destruct (decide (m < NBLOCKS)%nat) as [Hm|Hm].
      2:{ destruct D1. apply fblock_out; [apply F|lia]. }
      destruct (file_ok_range s p sv m F Hm) as [|[Hr' _]]; [done|].
      rewrite Hdk, blk_insert_ne; [done|lia|lia|]. intros E. apply Hmn. by eapply fblock_inj.
Qed.

(** ** Transfers inside a block *)

(** A uio for a transfer at a place of a file. *)
Definition io_ok s (u : uio) : Prop :=
  uio_ok (s_ctx s) u /\ 0 <= uio_offset u /\ uio_offset u + uio_resid u < 2 ^ 31.

Definition at_pos (u : uio) : nat := Z.to_nat (uio_offset u).

Lemma fileblock_eq s u : io_ok s u ->
  u32 (Z.quot (uio_offset u) SFS_BLOCKSIZE) = Z.of_nat (at_pos u / 512) /\
  u32 (Z.rem (uio_offset u) SFS_BLOCKSIZE) = Z.of_nat (at_pos u mod 512).
Proof.
  intros ((_ & _ & Hr & _) & Ho & Hm). unfold at_pos, SFS_BLOCKSIZE.
  rewrite Z.quot_div_nonneg, Z.rem_mod_nonneg by lia. rewrite !u32_small by dlia. dlia.
Qed.

(** The outcome of a transfer of [k] bytes to the file. *)
Definition wrote (p : Z) (sv : sfs_vnode) s (u : uio) (k : nat) (r : outcome (sfs * uio) unit) : Prop :=
  exists sv' s', grows p sv sv' s s' /\ sfi_size (sv_i sv') = sfi_size (sv_i sv) /\
    ((exists data, peek (s_ctx s) u (Z.of_nat k) = Some data /\ r = Done tt (s', advance (Z.of_nat k) u) /\
        uio_offset u + Z.of_nat k <= MAXFILE /\
        forall pos, fbyte (disk s') (sv_i sv') pos = overwritten (fbyte (disk s) (sv_i sv)) (at_pos u) data pos) \/
     (exists e, r = Fail e (s', u) /\
        (e = ENOSPC \/ e = EIO \/ e = EFAULT /\ peek (s_ctx s) u (Z.of_nat k) = None \/
         e = EINVAL /\ MAXFILE < uio_offset u + Z.of_nat k) /\
        forall pos, fbyte (disk s') (sv_i sv') pos = fbyte (disk s) (sv_i sv) pos)).

(** The outcome of a transfer of [k] bytes from the file. *)
Definition did_read (sv : sfs_vnode) s (u : uio) (k : nat) (r : outcome (sfs * uio) unit) : Prop :=
  exists d, same_data (s_dev s) d /\
    let data := fbytes (disk s) (sv_i sv) (at_pos u) k in
    ((exists c u', r = Done tt (set_ctx c (set_dev d s), advance (Z.of_nat k) u') /\ poke (s_ctx s) u data = Some (c, u')) \/
     (exists e m u', r = Fail e (set_ctx (set_umem m (s_ctx s)) (set_dev d s), u') /\ rw u' = rw u /\
        (e = EIO \/ e = EFAULT /\ poke (s_ctx s) u data = None))).

Lemma grows_ctx p sv sv' s s' : grows p sv sv' s s' -> s_ctx s' = s_ctx s.
Proof. intros G. pose proof (g_rest _ _ _ _ _ G). congruence. Qed.

Lemma grows_super p sv sv' s s' : grows p sv sv' s s' -> s_super s' = s_super s.
Proof. intros G. pose proof (g_rest _ _ _ _ _ G). congruence. Qed.

(** The block after the transfer, seen as bytes of the file. *)
Lemma overwritten_block (f : nat -> Z) (x data : list Z) (o : nat) :
  length x = 512%nat -> (o mod 512 + length data <= 512)%nat ->
  (forall pos, (pos / 512 = o / 512)%nat -> f pos = default 0 (x !! (pos mod 512)%nat)) ->
  forall pos, (if decide (pos / 512 = o / 512)%nat then default 0 (list_inserts (o mod 512) data x !! (pos mod 512)%nat)
               else f pos) = overwritten f o data pos.
Proof.
  intros Hx Hk Hf pos. unfold overwritten. case_decide as D1.
  - destruct (decide (o <= pos < o + length data)%nat) as [D2|D2].
    + rewrite list_lookup_inserts by dlia. do 2 f_equal. dlia.
    + rewrite Hf by done. f_equal. destruct (decide (pos < o)%nat).
      * apply list_lookup_inserts_lt. dlia.
      * apply list_lookup_inserts_ge. dlia.
  - rewrite decide_False; [done|]. intros D2. apply D1. dlia.
Qed.

Lemma read_block s p sv n :
  vol_ok s -> file_ok s p sv -> (n < NBLOCKS)%nat -> fblock (disk s) (sv_i sv) n <> 0 ->
  exists d, same_data (s_dev s) d /\
    (sfs_rblock zero_block (fblock (disk s) (sv_i sv) n) s = Done (blockdata (disk s) (sv_i sv) n) (set_dev d s) \/
     sfs_rblock zero_block (fblock (disk s) (sv_i sv) n) s = Fail EIO (set_dev d s)).
Proof.
  intros V F Hn Hb. destruct (file_ok_range s p sv n F Hn) as [|[Hr _]]; [done|]. pose proof (vo_max _ V).
  destruct (sector_of s _ V ltac:(split; [|apply Hr]; lia)) as [x Hx].
  destruct (sfs_rblock_spec s zero_block (Z.to_nat (fblock (disk s) (sv_i sv) n)) x V eq_refl ltac:(lia) Hx) as (d & Hd & E).
  rewrite Z2Nat.id in E by lia. exists d. split; [done|]. unfold blockdata. rewrite decide_False by done.
  by rewrite (blk_sector _ _ _ Hx).
Qed.

Lemma write_block s p sv n data :
  vol_ok s -> file_ok s p sv -> (n < NBLOCKS)%nat -> fblock (disk s) (sv_i sv) n <> 0 -> length data = 512%nat ->
  exists d, sfs_wblock data (fblock (disk s) (sv_i sv) n) s = Done tt (set_dev d s) /\ grows p sv sv s (set_dev d s) /\
    forall pos, fbyte (disk (set_dev d s)) (sv_i sv) pos =
      if decide (pos / 512 = n)%nat then default 0 (data !! (pos mod 512)%nat) else fbyte (disk s) (sv_i sv) pos.
Proof.
  intros V F Hn Hb Hl. destruct (file_ok_range s p sv n F Hn) as [|[Hr _]]; [done|]. pose proof (vo_max _ V).
  destruct (sector_of s _ V ltac:(split; [|apply Hr]; lia)) as [x Hx].
  destruct (sfs_wblock_spec s data (Z.to_nat (fblock (disk s) (sv_i sv) n)) x V Hl ltac:(lia) Hx) as (d & E & Hd & Hs).
  rewrite Z2Nat.id in E by lia. exists d. split; [done|]. by apply (store_block s p sv n data d).
Qed.

(** [fs m] and [move_buf] on a state with a uio. *)
Lemma fs_eq {A} (m : M sfs A) s u :
  fs m (s, u) = match m s with
                | Done a s' => Done a (s', u) | Fail e s' => Fail e (s', u)
                | Panic => Panic | Undef => Undef | NoFuel => NoFuel
                end.
Proof. done. Qed.

Lemma fs_Done {A} (m : M sfs A) s u a s' : m s = Done a s' -> fs m (s, u) = Done a (s', u).
Proof. rewrite fs_eq. by intros ->. Qed.

Lemma fs_Fail {A} (m : M sfs A) s u e s' : m s = Fail e s' -> fs m (s, u) = Fail e (s', u).
Proof. rewrite fs_eq. by intros ->. Qed.

Lemma set_ctx_id s : set_ctx (s_ctx s) s = s.
Proof. by destruct s. Qed.

(** A transfer to a block past the largest file. *)
Lemma wrote_too_big s p sv u (k : nat) r :
  vol_ok s -> file_ok s p sv -> io_ok s u -> (0 < k)%nat -> (NBLOCKS <= at_pos u / 512)%nat ->
  r = Fail EINVAL (s, u) -> wrote p sv s u k r.
Proof.
  intros V F (_ & Ho & _) Hk Hn ->. exists sv, s. split; [by apply grows_refl|]. split; [done|]. right. exists EINVAL.
  split; [done|]. split; [|done]. right. right. right. split; [done|]. unfold MAXFILE, NBLOCKS, at_pos in *. dlia.
Qed.

Lemma partialio_write s p sv u (k : nat) :
  vol_ok s -> file_ok s p sv -> io_ok s u -> rw u = UIO_WRITE ->
  (0 < k)%nat -> (at_pos u mod 512 + k <= 512)%nat -> Z.of_nat k <= uio_resid u ->
  wrote p sv s u k (sfs_partialio p (Z.of_nat (at_pos u mod 512)) (Z.of_nat k) (s, u)).
Proof.
  intros V F Hu Hrw Hk Hkb Hkr. assert (Hfit : (at_pos u / 512 < NBLOCKS)%nat -> uio_offset u + Z.of_nat k <= MAXFILE).
  { destruct Hu as (_ & Ho & _). unfold MAXFILE, NBLOCKS, at_pos in *. intros. dlia. }
  set (o := at_pos u) in *. set (n := (o / 512)%nat) in *.
  destruct (fileblock_eq s u Hu) as [Efb _]. fold o in Efb. fold n in Efb.
  unfold sfs_partialio. rewrite (bind_Done (get_uio id) _ (s, u) u (s, u)) by done.
  assert (Hw : is_write u = true) by (unfold is_write; by rewrite bool_decide_eq_true_2).
  rewrite (bind_Done _ _ (s, u) tt (s, u)) by
    (unfold kassert; rewrite bool_decide_eq_true_2; [done|]; unfold SFS_BLOCKSIZE; rewrite u32_small; lia).
  rewrite Efb, Hw. destruct (decide (n < NBLOCKS)%nat) as [Hn|Hn].
  2:{ apply wrote_too_big; try done; [unfold n, o in *; lia|]. apply bind_Fail, fs_Fail, sfs_bmap_too_big. lia. }
  specialize (Hfit Hn). destruct (sfs_bmap_alloc s p sv n V F Hn) as (sv1 & s1 & G & Hsz & Hby & Hr).
  pose proof (g_vol _ _ _ _ _ G) as V1. pose proof (g_file _ _ _ _ _ G) as F1. pose proof (grows_ctx _ _ _ _ _ G) as Hc.
  destruct Hr as [(b & E & Hb & ->)|Hr].
  2:{ exists sv1, s1. split; [done|]. split; [done|]. right.
      destruct Hr as [E|E]; eexists; (split; [by apply bind_Fail, fs_Fail|]); auto. }
  rewrite (bind_Done _ _ _ _ _ (fs_Done _ s u _ _ E)). rewrite decide_False by done.
  destruct (read_block s1 p sv1 n V1 F1 Hn Hb) as (d & Hd & [Er|Er]).
  2:{ exists sv1, (set_dev d s1). split; [by eapply grows_trans, grows_dev|]. split; [done|]. right.
      exists EIO. split; [by apply bind_Fail, fs_Fail|]. split; [auto|]. intros pos.
      assert (Hdk : disk (set_dev d s1) = disk s1) by apply Hd. rewrite Hdk. apply Hby. }
  rewrite (bind_Done _ _ _ _ _ (fs_Done _ s1 u _ _ Er)).
  pose proof (length_blockdata s1 p sv1 n V1 F1 Hn) as Hl. set (x := blockdata (disk s1) (sv_i sv1) n) in *.
  pose proof (grows_trans _ _ _ _ _ _ _ G (grows_dev _ _ _ d V1 F1 Hd)) as G2. set (s2 := set_dev d s1) in *.
  assert (Hdk2 : disk s2 = disk s1) by apply Hd.
  pose proof (uiomove_write x (s_ctx s2) u k (o mod 512)) as Hm. specialize (Hm ltac:(change (s_ctx s2) with (s_ctx s1); rewrite Hc; apply Hu) Hrw Hk Hkr ltac:(lia)).
  change (s_ctx s2) with (s_ctx s1) in Hm. rewrite Hc in Hm.
  destruct (peek (s_ctx s) u (Z.of_nat k)) as [data|] eqn:Ep.
  2:{ destruct Hm as (x' & Em & _). exists sv1, s2. split; [done|]. split; [done|]. right. exists EFAULT.
      split; [|split; [auto|intros pos; rewrite Hdk2; apply Hby]]. apply bind_Fail. unfold move_buf.
      change (s_ctx s2) with (s_ctx s1). rewrite Hc, Em. rewrite <- Hc at 1. change (s_ctx s1) with (s_ctx s2). by rewrite set_ctx_id. }
  rewrite (bind_Done _ _ (s2, u) (list_inserts (o mod 512) data x) (s2, advance (Z.of_nat k) u)).
  2:{ unfold move_buf. change (s_ctx s2) with (s_ctx s1). rewrite Hc, Hm. rewrite <- Hc at 1.
      change (s_ctx s1) with (s_ctx s2). by rewrite set_ctx_id. }
  assert (Hb2 : fblock (disk s2) (sv_i sv1) n = fblock (disk s1) (sv_i sv1) n) by (by rewrite Hdk2).
  destruct (write_block s2 p sv1 n (list_inserts (o mod 512) data x)) as (d' & Ew & Gw & Hbw);
    [apply G2|apply G2|done|by rewrite Hb2|by rewrite length_inserts|].
  rewrite Hb2 in Ew. exists sv1, (set_dev d' s2). split; [by eapply grows_trans|]. split; [done|]. left.
  apply peek_length in Ep as Hdl.
  exists data. split; [done|]. split; [by apply fs_Done|]. split; [done|]. intros pos. rewrite Hbw.
  rewrite <- (overwritten_block (fbyte (disk s) (sv_i sv)) x data o Hl ltac:(lia)).
  - fold n. rewrite Hdk2. case_decide; [done|]. apply Hby.
  - intros q Hq. rewrite <- Hby, fbyte_blockdata. unfold x, n. by rewrite Hq.
Qed.

(** The uio that [sfs_blockio] hands to the device, and what it makes of it afterwards. *)
Definition disk_uio (b : Z) (u : uio) : uio := set_resid (u32 SFS_BLOCKSIZE) (set_offset (s32 (b * SFS_BLOCKSIZE)) u).
Definition restore (b : Z) (u u' : uio) : uio :=
  set_resid (u32 (u32 (uio_resid u' - SFS_BLOCKSIZE) + s32 (uio_resid u)))
    (set_offset (s32 (s32 (uio_offset u' - s32 (b * SFS_BLOCKSIZE)) + uio_offset u)) u').

Lemma set_kbuf_id u : set_kbuf (iov_kbuf u) u = u.
Proof. by destruct u. Qed.

Lemma restore_advance s b u kb :
  io_ok s u -> 0 <= b < 2 ^ 22 - 1 -> SFS_BLOCKSIZE <= uio_resid u ->
  restore b u (advance SECTSIZE (set_kbuf kb (disk_uio b u))) = advance SECTSIZE (set_kbuf kb u).
Proof.
  intros ((_ & Hlen & Hres & _) & Ho & Hm) Hb Hr. unfold restore, disk_uio, advance, SECTSIZE, SFS_BLOCKSIZE in *. simpl.
  rewrite (s32_small (b * 512)) by lia. rewrite (s32_small (b * 512 + 512)) by lia.
  rewrite (s32_small (uio_resid u)) by lia. rewrite (u32_small 512) by lia.
  replace (b * 512 + 512 - b * 512) with 512 by lia. rewrite (s32_small 512) by lia.
  unfold set_resid, set_offset. simpl. f_equal; [f_equal; lia|]. unfold u32. rewrite Zplus_mod_idemp_l. f_equal. lia.
Qed.

Lemma restore_id s b u :
  io_ok s u -> 0 <= b < 2 ^ 22 - 1 -> restore b u (disk_uio b u) = u.
Proof.
  intros ((_ & Hlen & Hres & _) & Ho & Hm) Hb. unfold restore, disk_uio, SFS_BLOCKSIZE in *. simpl.
  rewrite Z.sub_diag. unfold set_resid, set_offset. simpl. destruct u; simpl in *. f_equal.
  - rewrite Z.sub_diag. apply s32_small. lia.
  - rewrite s32_small by lia. apply u32_small. lia.
Qed.

Lemma disk_uio_sector s c b u :
  io_ok s u -> uio_ok c u -> 0 <= b < 2 ^ 22 - 1 -> SFS_BLOCKSIZE <= uio_resid u -> sector_uio c (disk_uio b u) (Z.of_nat (Z.to_nat b)).
Proof.
  intros _ (Hb & Hlen & Hres & Hbase & Hseg) Hbb Hr. unfold sector_uio, disk_uio, SECTSIZE, SFS_BLOCKSIZE in *.
  split; [|split; [done|simpl; rewrite s32_small by lia; lia]].
  unfold uio_ok. simpl. rewrite u32_small by lia. split; [done|]. split; [done|]. split; [lia|]. done.
Qed.

(** [sfs_blockio] once the block is mapped. *)
Lemma blockio_mapped s p u b s1 :
  io_ok s u -> SFS_BLOCKSIZE <= uio_resid u ->
  sfs_bmap p (Z.of_nat (at_pos u / 512)) (is_write u) s = Done b s1 -> b <> 0 ->
  sfs_blockio p (s, u) =
  match sfs_rwblock (s1, disk_uio b u) with
  | Done _ (s2, u2) => Done tt (s2, restore b u u2)
  | Fail e (s2, u2) => Fail e (s2, restore b u u2)
  | Panic => Panic | Undef => Undef | NoFuel => NoFuel
  end.
Proof.
  intros Hu Hr E Hb. destruct (fileblock_eq s u Hu) as [Efb _].
  unfold sfs_blockio. rewrite (bind_Done (get_uio id) _ (s, u) u (s, u)) by done.
  rewrite Efb. rewrite (bind_Done _ _ _ _ _ (fs_Done _ s u _ _ E)). rewrite decide_False by done.
  unfold mod_uio. munfold. simpl. rewrite bool_decide_eq_true_2 by lia.
  cbn [fst snd]. change (set_resid (u32 SFS_BLOCKSIZE) (set_offset (s32 (b * SFS_BLOCKSIZE)) u)) with (disk_uio b u).
  by destruct (sfs_rwblock (s1, disk_uio b u)) as [[] [s2 u2]|e [s2 u2]| | |].
Qed.

Lemma overwritten_aligned (f : nat -> Z) (x : list Z) (o : nat) :
  length x = 512%nat -> (o mod 512 = 0)%nat ->
  forall pos, (if decide (pos / 512 = o / 512)%nat then default 0 (x !! (pos mod 512)%nat) else f pos) = overwritten f o x pos.
Proof.
  intros Hx Ho pos. unfold overwritten. rewrite Hx. case_decide as D1.
  - rewrite decide_True by dlia. do 2 f_equal. dlia.
  - rewrite decide_False by dlia. done.
Qed.

Lemma blockio_write s p sv u :
  vol_ok s -> file_ok s p sv -> io_ok s u -> rw u = UIO_WRITE ->
  (at_pos u mod 512 = 0)%nat -> SFS_BLOCKSIZE <= uio_resid u ->
  wrote p sv s u 512 (sfs_blockio p (s, u)).
Proof.
  intros V F Hu Hrw Ho Hres. assert (Hw : is_write u = true) by (unfold is_write; by rewrite bool_decide_eq_true_2).
  assert (Hfit : (at_pos u / 512 < NBLOCKS)%nat -> uio_offset u + Z.of_nat 512 <= MAXFILE).
  { destruct Hu as (_ & Ho' & _). unfold MAXFILE, NBLOCKS, at_pos in *. intros. dlia. }
  set (n := (at_pos u / 512)%nat) in *. destruct (decide (n < NBLOCKS)%nat) as [Hn|Hn].
  2:{ apply wrote_too_big; try done; [lia|unfold n in *; lia|]. destruct (fileblock_eq s u Hu) as [Efb _].
      unfold sfs_blockio. rewrite (bind_Done (get_uio id) _ (s, u) u (s, u)) by done. rewrite Efb, Hw.
      apply bind_Fail, fs_Fail, sfs_bmap_too_big. unfold n in *. lia. }
  specialize (Hfit Hn).
  destruct (sfs_bmap_alloc s p sv n V F Hn) as (sv1 & s1 & G & Hsz & Hby & Hr).
  pose proof (g_vol _ _ _ _ _ G) as V1. pose proof (g_file _ _ _ _ _ G) as F1. pose proof (grows_ctx _ _ _ _ _ G) as Hc.
  destruct Hr as [(b & E & Hb & Hfb)|Hr].
  2:{ exists sv1, s1. split; [done|]. split; [done|]. right. destruct (fileblock_eq s u Hu) as [Efb _].
      unfold sfs_blockio. rewrite (bind_Done (get_uio id) _ (s, u) u (s, u)) by done. rewrite Efb, Hw.
      destruct Hr as [E|E]; eexists; (split; [by apply bind_Fail, fs_Fail|]); auto. }
  rewrite (blockio_mapped s p u b s1 Hu Hres) by (by rewrite ?Hw).
  destruct (file_ok_range s1 p sv1 n F1 Hn) as [|[Hrb _]]; [congruence|]. rewrite <- Hfb in Hrb.
  pose proof (vo_max _ V1) as Hmax. destruct (sector_of s1 b V1 ltac:(lia)) as [x Hx].
  pose proof (retry_write s1 (disk_uio b u) (Z.to_nat b) x 10 (vol_dev _ V1)) as Hrt.
  rewrite Hc in Hrt. specialize (Hrt ltac:(apply (disk_uio_sector s); [done|apply Hu|lia|done]) ltac:(lia) Hrw Hx).
  change (peek (s_ctx s) (disk_uio b u) SECTSIZE) with (peek (s_ctx s) u SECTSIZE) in Hrt.
  unfold sfs_rwblock. destruct (peek (s_ctx s) u SECTSIZE) as [data|] eqn:Ep.
  - destruct Hrt as (d & -> & Hd & Hs). rewrite Hfb in Hs. apply peek_length in Ep as Hdl.
    assert (Hdl' : length data = 512%nat) by (unfold SECTSIZE in Hdl; lia).
    destruct (store_block s1 p sv1 n data d V1 F1 Hn ltac:(congruence) Hd Hs) as [G2 Hb2].
    exists sv1, (set_dev d s1). split; [by eapply grows_trans|]. split; [done|]. left. exists data.
    split; [done|]. split.
    + pose proof (restore_advance s b u (iov_kbuf u) Hu ltac:(lia) Hres) as Er.
      change (set_kbuf (iov_kbuf u) (disk_uio b u)) with (set_kbuf (iov_kbuf (disk_uio b u)) (disk_uio b u)) in Er.
      rewrite !set_kbuf_id in Er. by rewrite Er.
    + split; [done|]. intros pos. rewrite Hb2. rewrite <- (overwritten_aligned _ data (at_pos u) Hdl' Ho). fold n.
      case_decide; [done|]. apply Hby.
  - destruct Hrt as (d & -> & Hd). exists sv1, (set_dev d s1). split; [by eapply grows_trans, grows_dev|].
    split; [done|]. right. exists EFAULT. rewrite (restore_id s) by (done || lia). split; [done|]. split; [auto|].
    assert (Hdk : disk (set_dev d s1) = disk s1) by apply Hd. rewrite Hdk. apply Hby.
Qed.

Lemma poke_ctx c u d c' u' : poke c u d = Some (c', u') -> exists m, c' = set_umem m c.
Proof.
  intros E. apply poke_uio in E as (Eb & Ec & _). exists (umem c'). unfold set_umem. rewrite <- Ec, <- Eb. by destruct c'.
Qed.

Lemma read_not_write u : rw u = UIO_READ -> is_write u = false.
Proof. intros H. unfold is_write. apply bool_decide_eq_false_2. congruence. Qed.

(** The buffer holds the block, whether it is on disk or not. *)
Lemma load_block s p sv u n :
  vol_ok s -> file_ok s p sv -> rw u = UIO_READ -> (n < NBLOCKS)%nat ->
  exists d, same_data (s_dev s) d /\
    let m := (if decide (fblock (disk s) (sv_i sv) n = 0) then
                kassert (bool_decide (rw u = UIO_READ)) ;; mret zero_block
              else fs (sfs_rblock zero_block (fblock (disk s) (sv_i sv) n))) : M (sfs * uio) (list Z) in
    (m (s, u) = Done (blockdata (disk s) (sv_i sv) n) (set_dev d s, u) \/ m (s, u) = Fail EIO (set_dev d s, u)).
Proof.
  intros V F Hrw Hn. destruct (decide (fblock (disk s) (sv_i sv) n = 0)) as [Hz|Hz].
  - exists (s_dev s). split; [split; [apply V|done]|]. left. munfold. rewrite bool_decide_eq_true_2 by done.
    unfold blockdata. rewrite decide_True by done. by destruct s.
  - destruct (read_block s p sv n V F Hn Hz) as (d & Hd & E). exists d. split; [done|].
    destruct E as [E|E]; [left; by apply fs_Done|right; by apply fs_Fail].
Qed.

Lemma set_umem_self c : set_umem (umem c) c = c.
Proof. by destruct c. Qed.

Lemma did_read_EIO sv s u k d : same_data (s_dev s) d -> did_read sv s u k (Fail EIO (set_dev d s, u)).
Proof.
  intros Hd. exists d. split; [done|]. right. exists EIO, (umem (s_ctx s)), u. split; [|auto]. rewrite set_umem_self. done.
Qed.

Lemma same_data_trans d1 d2 d3 : same_data d1 d2 -> same_data d2 d3 -> same_data d1 d3.
Proof. intros [_ E] [H E']. split; [done|]. congruence. Qed.

Lemma partialio_read s p sv u (k : nat) :
  vol_ok s -> file_ok s p sv -> io_ok s u -> rw u = UIO_READ ->
  (0 < k)%nat -> (at_pos u mod 512 + k <= 512)%nat -> Z.of_nat k <= uio_resid u -> (at_pos u / 512 < NBLOCKS)%nat ->
  did_read sv s u k (sfs_partialio p (Z.of_nat (at_pos u mod 512)) (Z.of_nat k) (s, u)).
Proof.
  intros V F Hu Hrw Hk Hkb Hkr Hn. set (o := at_pos u) in *. set (n := (o / 512)%nat) in *.
  destruct (fileblock_eq s u Hu) as [Efb _]. fold o in Efb. fold n in Efb.
  unfold sfs_partialio. rewrite (bind_Done (get_uio id) _ (s, u) u (s, u)) by done.
  rewrite (bind_Done _ _ (s, u) tt (s, u)) by
    (unfold kassert; rewrite bool_decide_eq_true_2; [done|]; unfold SFS_BLOCKSIZE; rewrite u32_small; lia).
  rewrite Efb, (read_not_write u Hrw).
  destruct (sfs_bmap_read s p sv n V F Hn) as (d & Hd & [E|E]).
  2:{ rewrite (bind_Fail _ _ _ _ _ (fs_Fail _ s u _ _ E)). by apply did_read_EIO. }
  rewrite (bind_Done _ _ _ _ _ (fs_Done _ s u _ _ E)).
  assert (Hdk : disk (set_dev d s) = disk s) by apply Hd.
  destruct (load_block (set_dev d s) p sv u n) as (d' & Hd' & E'); [by apply vol_ok_dev|by eapply file_ok_dev|done|done|].
  rewrite Hdk in E'. change (set_dev d' (set_dev d s)) with (set_dev d' s) in E'.
  pose proof (same_data_trans _ _ _ Hd Hd') as Hdd. destruct E' as [E'|E'].
  2:{ rewrite (bind_Fail _ _ _ _ _ E'). by apply did_read_EIO. }
  rewrite (bind_Done _ _ _ _ _ E').
  pose proof (length_blockdata s p sv n V F Hn) as Hl. set (x := blockdata (disk s) (sv_i sv) n) in *.
  pose proof (uiomove_read x (s_ctx s) u k (o mod 512) (proj1 Hu) Hrw Hk Hkr ltac:(lia)) as Hm.
  assert (Hdata : take k (drop (o mod 512) x) = fbytes (disk s) (sv_i sv) o k) by exact (fbytes_block _ _ o k Hkb Hl).
  rewrite Hdata in Hm.
  exists d'. split; [done|]. cbv zeta. fold o. destruct (poke (s_ctx s) u (fbytes (disk s) (sv_i sv) o k)) as [[c u']|].
  - left. exists c, u'. split; [|done].
    rewrite (bind_Done _ _ (set_dev d' s, u) x (set_ctx c (set_dev d' s), advance (Z.of_nat k) u')); [done|].
    unfold move_buf. change (s_ctx (set_dev d' s)) with (s_ctx s). by rewrite Hm.
  - right. destruct Hm as [m Hm]. exists EFAULT, m, u. split; [|auto]. apply bind_Fail.
    unfold move_buf. change (s_ctx (set_dev d' s)) with (s_ctx s). by rewrite Hm.
Qed.

Lemma fbytes_zero_block dk i o : (o mod 512 = 0)%nat -> fblock dk i (o / 512) = 0 -> fbytes dk i o 512 = replicate 512 0.
Proof.
  intros Ho Hz. rewrite <- (fbytes_block dk i o 512); unfold blockdata; rewrite ?decide_True by done.
  - by rewrite Ho.
  - lia.
  - done.
Qed.

Lemma fbytes_whole_block dk i o :
  (o mod 512 = 0)%nat -> fblock dk i (o / 512) <> 0 -> length (blk dk (fblock dk i (o / 512))) = 512%nat ->
  fbytes dk i o 512 = blk dk (fblock dk i (o / 512)).
Proof.
  intros Ho Hz Hl. rewrite <- (fbytes_block dk i o 512); unfold blockdata; rewrite ?decide_False by done.
  - rewrite Ho, drop_0. apply take_ge. lia.
  - lia.
  - done.
Qed.

Lemma blockio_read s p sv u :
  vol_ok s -> file_ok s p sv -> io_ok s u -> rw u = UIO_READ ->
  (at_pos u mod 512 = 0)%nat -> SFS_BLOCKSIZE <= uio_resid u -> (at_pos u / 512 < NBLOCKS)%nat ->
  did_read sv s u 512 (sfs_blockio p (s, u)).
Proof.
  intros V F Hu Hrw Ho Hres Hn. set (n := (at_pos u / 512)%nat) in *.
  pose proof (read_not_write u Hrw) as Hw. destruct (fileblock_eq s u Hu) as [Efb _]. fold n in Efb.
  destruct (sfs_bmap_read s p sv n V F Hn) as (d & Hd & [E|E]).
  2:{ unfold sfs_blockio. rewrite (bind_Done (get_uio id) _ (s, u) u (s, u)) by done. rewrite Efb, Hw.
      rewrite (bind_Fail _ _ _ _ _ (fs_Fail _ s u _ _ E)). by apply did_read_EIO. }
  destruct (decide (fblock (disk s) (sv_i sv) n = 0)) as [Hz|Hz].
  - exists d. split; [done|]. cbv zeta. rewrite (fbytes_zero_block _ _ _ Ho Hz).
    unfold sfs_blockio. rewrite (bind_Done (get_uio id) _ (s, u) u (s, u)) by done. rewrite Efb, Hw.
    rewrite (bind_Done _ _ _ _ _ (fs_Done _ s u _ _ E)). rewrite decide_True by done.
    munfold. rewrite bool_decide_eq_true_2 by done. unfold zeros_io, zoom. simpl.
    destruct (uiomovezeros_spec (s_ctx s) u 512 (proj1 Hu) Hrw Hres ltac:(lia)) as [(c & u' & Em & Ep)|(m & u' & Em & Hrw' & Ep)];
      change (Z.of_nat 512) with SFS_BLOCKSIZE in Em; rewrite Em; [left; by exists c, u'|].
    right. exists EFAULT, m, u'. rewrite Hrw, Hrw'. auto.
  - destruct (file_ok_range s p sv n F Hn) as [|[Hr Ht]]; [done|]. pose proof (vo_max _ V).
    destruct (sector_of s (fblock (disk s) (sv_i sv) n) V ltac:(split; [|apply Hr]; lia)) as [x Hx].
    pose proof (dev_sectors _ _ _ _ (vo_dev _ V) Hx) as Hxl.
    rewrite (blockio_mapped s p u (fblock (disk s) (sv_i sv) n) (set_dev d s) Hu Hres) by (by rewrite ?Hw).
    set (b := fblock (disk s) (sv_i sv) n) in *. unfold sfs_rwblock.
    assert (Hx' : disk (set_dev d s) !! Z.to_nat b = Some x) by (rewrite <- Hx; destruct Hd as [_ Hd]; unfold disk; simpl; by rewrite Hd).
    assert (Hdata : fbytes (disk s) (sv_i sv) (at_pos u) 512 = x).
    { rewrite fbytes_whole_block; fold n; fold b; try done; by rewrite (blk_sector s b x Hx). }
    assert (Hpk : poke (s_ctx s) (disk_uio b u) x = (fun cu => (cu.1, disk_uio b cu.2)) <$> poke (s_ctx s) u x).
    { unfold poke. simpl. destruct (uio_segflg u); [|destruct (splice _ _ _)|]; try done; by destruct (uread _ _ _). }
    destruct (retry_read (w := w) (set_dev d s) (disk_uio b u) (Z.to_nat b) x 10) as
      [(d' & c & u' & -> & Hp & Hd')|[(d' & -> & Hd')|(d' & m & -> & Hp & Hd')]]; try done.
    { by apply vol_dev, vol_ok_dev. }
    { apply (disk_uio_sector s); [done|apply Hu|lia|done]. }
    { lia. }
    all: pose proof (same_data_trans _ _ _ Hd Hd') as Hdd; simpl in Hp || idtac.
    + exists d'. split; [done|]. cbv zeta. rewrite Hdata. left. simpl in Hp. rewrite Hpk in Hp.
      destruct (poke (s_ctx s) u x) as [[c0 u0]|] eqn:E0; [|done]. simpl in Hp. injection Hp as <- <-.
      exists c0, u0. split; [|done]. apply poke_uio in E0 as (_ & _ & kb & -> & _).
      pose proof (restore_advance s b u kb Hu ltac:(lia) Hres) as Er.
      change (disk_uio b (set_kbuf kb u)) with (set_kbuf kb (disk_uio b u)). by rewrite Er.
    + rewrite (restore_id s) by (done || lia). change (set_dev d' (set_dev d s)) with (set_dev d' s). by apply did_read_EIO.
    + exists d'. split; [done|]. cbv zeta. rewrite Hdata. right. simpl in Hp. rewrite Hpk in Hp.
      destruct (poke (s_ctx s) u x) as [[c0 u0]|] eqn:E0; [done|].
      exists EFAULT, m, u. rewrite (restore_id s) by (done || lia). auto.
Qed.

(** ** The sequence of transfers

    [io_blocks] for any account [P] of the state after so many bytes and [Q] of a
    failure, of which the single transfers are known to keep. *)
Section sequence.
Variable p : Z.
Variable O R : nat.
Variable P : nat -> sfs * uio -> Prop.
Variable Q : errno -> sfs * uio -> Prop.

Definition step (r : outcome (sfs * uio) unit) (k : nat) : Prop :=
  (exists x, r = Done tt x /\ P k x) \/ (exists e x, r = Fail e x /\ Q e x).

Hypothesis Hpos : forall k x, P k x ->
  (k <= R)%nat /\ uio_resid x.2 = Z.of_nat (R - k) /\ uio_offset x.2 = Z.of_nat (O + k).
Hypothesis Hrange : Z.of_nat (O + R) < 2 ^ 31.
Hypothesis Hpart : forall k n x, P k x -> (0 < n)%nat -> (k + n <= R)%nat -> ((O + k) mod 512 + n <= 512)%nat ->
  (k + n = R \/ (O + (k + n)) mod 512 = 0)%nat ->
  step (sfs_partialio p (Z.of_nat ((O + k) mod 512)) (Z.of_nat n) x) (k + n).
Hypothesis Hblock : forall k x, P k x -> ((O + k) mod 512 = 0)%nat -> (k + 512 <= R)%nat ->
  step (sfs_blockio p x) (k + 512).

Lemma step_bind r k (m : unit -> M (sfs * uio) unit) x k' :
  step r k -> (forall y, P k y -> step (m tt y) k') ->
  (forall y, r = Done tt y -> x = m tt y) -> (forall e y, r = Fail e y -> x = Fail e y) -> step x k'.
Proof.
  intros [(y & E & Hy)|(e & y & E & Hy)] Hm H1 H2.
  - rewrite (H1 _ E). by apply Hm.
  - rewrite (H2 _ _ E). right. by exists e, y.
Qed.

Lemma seq_step (m1 m2 : M (sfs * uio) unit) x k k' :
  step (m1 x) k -> (forall y, P k y -> step (m2 y) k') -> step ((m1 ;; m2) x) k'.
Proof.
  intros H1 H2. apply (step_bind (m1 x) k (fun _ => m2)); [done|done| |]; intros.
  - by apply (bind_Done m1 (fun _ => m2) x tt).
  - by apply bind_Fail.
Qed.

Lemma blocks_loop m i k x :
  P k x -> ((O + k) mod 512 = 0)%nat -> (k + 512 * m <= R)%nat ->
  step (for_n m i (fun _ => sfs_blockio p) x) (k + 512 * m).
Proof.
  revert i k x. induction m as [|m IH]; intros i k x Hx Ho Hk.
  - left. exists x. split; [done|]. by rewrite Nat.mul_0_r, Nat.add_0_r.
  - cbn [for_n]. apply (seq_step _ _ _ (k + 512)); [apply Hblock; [done|done|lia]|]. intros y Hy.
    replace (k + 512 * S m)%nat with (k + 512 + 512 * m)%nat by lia. apply IH; [done|dlia|lia].
Qed.

Lemma get_uio_bind {A} (f : uio -> M (sfs * uio) A) x : (u ← get_uio id; f u) x = f x.2 x.
Proof. done. Qed.

Lemma kassert_bind {A} b (f : M (sfs * uio) A) x : b = true -> (kassert b ;; f) x = f x.
Proof. intros ->. done. Qed.

(** The whole blocks and the rest. *)
Lemma io_aligned k x :
  P k x -> ((O + k) mod 512 = 0)%nat -> (k < R)%nat ->
  step ((u ← get_uio id;
         kassert (bool_decide (Z.rem (uio_offset u) SFS_BLOCKSIZE = 0)) ;;
         let nblocks := uio_resid u / SFS_BLOCKSIZE in
         for_n (Z.to_nat nblocks) 0 (fun _ => sfs_blockio p) ;;
         u ← get_uio id;
         kassert (bool_decide (uio_resid u < SFS_BLOCKSIZE)) ;;
         if decide (uio_resid u > 0) then sfs_partialio p 0 (uio_resid u) else mret tt) x) R.
Proof.
  intros Hx Ho Hk. destruct (Hpos _ _ Hx) as (Hkr & Hr & Hoff). rewrite get_uio_bind. unfold SFS_BLOCKSIZE.
  rewrite kassert_bind by (apply bool_decide_eq_true_2; rewrite Hoff; dlia). cbv zeta. rewrite Hr.
  replace (Z.to_nat (Z.of_nat (R - k) / 512)) with ((R - k) / 512)%nat by dlia. set (m := ((R - k) / 512)%nat).
  apply (seq_step _ _ _ (k + 512 * m)); [apply blocks_loop; [done|done|unfold m; dlia]|].
  intros y Hy. destruct (Hpos _ _ Hy) as (Hkr' & Hr' & Hoff'). rewrite get_uio_bind, Hr'.
  rewrite kassert_bind by (apply bool_decide_eq_true_2; unfold m; dlia).
  case_decide as D1.
  - assert (Hal : ((O + (k + 512 * m)) mod 512 = 0)%nat) by dlia.
    pose proof (Hpart (k + 512 * m) (R - (k + 512 * m)) y Hy ltac:(lia) ltac:(lia)) as Hp. rewrite Hal in Hp.
    replace (k + 512 * m + (R - (k + 512 * m)))%nat with R in Hp by lia. apply Hp; [unfold m; dlia|by left].
  - left. exists y. split; [done|]. by replace R with (k + 512 * m)%nat by lia.
Qed.

Lemma align_up o : ((o + (512 - o mod 512)) mod 512 = 0)%nat.
Proof. dlia. Qed.

Lemma io_blocks_sequence x : P 0 x -> (0 < R)%nat -> step (io_blocks p x) R.
Proof.
  intros Hx HR. destruct (Hpos _ _ Hx) as (_ & Hr & Hoff). rewrite Nat.add_0_r, Nat.sub_0_r in *.
  unfold io_blocks. rewrite get_uio_bind. cbv zeta. unfold SFS_BLOCKSIZE.
  assert (Eo : u32 (Z.rem (uio_offset x.2) 512) = Z.of_nat (O mod 512)).
  { rewrite Hoff, Z.rem_mod_nonneg, u32_small by dlia. dlia. }
  rewrite Eo. set (k := if decide (O mod 512 = 0)%nat then 0%nat else Nat.min (512 - O mod 512) R).
  apply (seq_step _ _ _ k).
  - unfold k. destruct (decide (O mod 512 = 0)%nat) as [D1|D1].
    + rewrite decide_False by (rewrite D1; by intros []). left. by exists x.
    + rewrite decide_True by lia. rewrite Hr.
      rewrite (u32_small (512 - Z.of_nat (O mod 512))) by dlia.
      replace (if decide (512 - Z.of_nat (O mod 512) > Z.of_nat R) then Z.of_nat R else 512 - Z.of_nat (O mod 512))
        with (Z.of_nat (Nat.min (512 - O mod 512) R)) by (case_decide; dlia).
      pose proof (Hpart 0 (Nat.min (512 - O mod 512) R) x Hx) as Hp. rewrite Nat.add_0_r in Hp. apply Hp; [dlia|dlia|dlia|].
      destruct (decide (R <= 512 - O mod 512)%nat); [left; lia|right]. rewrite Nat.add_0_l, Nat.min_l by lia. apply align_up.
  - intros y Hy. destruct (Hpos _ _ Hy) as (Hkr' & Hr' & Hoff'). rewrite get_uio_bind, Hr'. case_decide as D1.
    + left. exists y. split; [done|]. by replace R with k by lia.
    + pose proof (io_aligned k y Hy) as Ha. rewrite get_uio_bind, Hr' in Ha. apply Ha; [|lia].
      unfold k in *. destruct (decide (O mod 512 = 0)%nat) as [D2|D2]; [by rewrite Nat.add_0_r|].
      replace (Nat.min (512 - O mod 512) R) with (512 - O mod 512)%nat by lia. apply align_up.
Qed.

End sequence.

(** ** Writing *)

Lemma advance_0 s u : io_ok s u -> advance 0 u = u.
Proof.
  intros ((_ & Hlen & Hres & _) & Ho & Hm). unfold advance. destruct u; simpl in *.
  rewrite !Z.sub_0_r, !Z.add_0_r, !u32_small, s32_small by lia. done.
Qed.

Lemma advance_pos s u (k : nat) : io_ok s u -> Z.of_nat k <= uio_resid u ->
  uio_resid (advance (Z.of_nat k) u) = uio_resid u - Z.of_nat k /\
  uio_offset (advance (Z.of_nat k) u) = uio_offset u + Z.of_nat k /\
  at_pos (advance (Z.of_nat k) u) = (at_pos u + k)%nat.
Proof.
  intros ((_ & Hlen & Hres & _) & Ho & Hm) Hk. rewrite advance_resid, advance_offset by lia. split; [done|]. split; [done|].
  unfold at_pos. rewrite advance_offset by lia. lia.
Qed.

(** The data written so far: nothing, or what the uio holds. *)
Definition prefix (c : uctx) (u : uio) (k : nat) (data : list Z) : Prop :=
  length data = k /\ (k = O \/ peek c u (Z.of_nat k) = Some data).

Lemma prefix_app c u k1 k2 d1 d2 :
  (0 < k2)%nat -> prefix c u k1 d1 -> advance 0 u = u ->
  peek c (advance (Z.of_nat k1) u) (Z.of_nat k2) = Some d2 -> prefix c u (k1 + k2) (d1 ++ d2).
Proof.
  intros Hk [Hl Hd] H0 Hp. pose proof (peek_length _ _ _ _ Hp). split; [rewrite length_app; lia|]. right.
  destruct Hd as [->|Hd].
  - destruct d1; [|done]. change (Z.of_nat 0) with 0 in Hp. by rewrite H0 in Hp.
  - destruct k1 as [|k1]; [destruct d1; [|done]; change (Z.of_nat 0) with 0 in Hp; by rewrite H0 in Hp|].
    rewrite Nat2Z.inj_add, peek_app by lia. rewrite Hd. simpl. change (Z.pos _) with (Z.of_nat (S k1)). by rewrite Hp.
Qed.

(** Data that cannot be read makes a longer piece unreadable. *)
Lemma peek_None_later c u k1 k2 m d1 :
  (0 < k2)%nat -> (k1 + k2 <= m)%nat -> prefix c u k1 d1 -> advance 0 u = u ->
  peek c (advance (Z.of_nat k1) u) (Z.of_nat k2) = None -> peek c u (Z.of_nat m) = None.
Proof.
  intros Hk Hm [Hl Hd] H0 Hp.
  assert (E : forall n, peek c u (Z.of_nat n) = None -> (n <= m)%nat -> (0 < n)%nat -> peek c u (Z.of_nat m) = None).
  { intros n Hn Hnm Hn0. destruct (decide (n = m)) as [->|Hne]; [done|].
    replace (Z.of_nat m) with (Z.of_nat n + Z.of_nat (m - n)) by lia. rewrite peek_app by lia. by rewrite Hn. }
  apply (E (k1 + k2)%nat); [|lia|lia]. destruct (decide (k1 = 0)%nat) as [->|Hk1].
  - simpl. change (Z.of_nat 0) with 0 in Hp. by rewrite H0 in Hp.
  - destruct Hd as [|Hd]; [done|]. rewrite Nat2Z.inj_add, peek_app by lia. rewrite Hd. simpl. by rewrite Hp.
Qed.

Lemma overwritten_app f o d1 d2 pos :
  overwritten (overwritten f o d1) (o + length d1) d2 pos = overwritten f o (d1 ++ d2) pos.
Proof.
  unfold overwritten. rewrite length_app. repeat case_decide; try lia; try done.
  - rewrite lookup_app_r by lia. do 2 f_equal. lia.
  - rewrite lookup_app_l by lia. done.
Qed.

Lemma prefix_ok s u k d : io_ok s u -> Z.of_nat k <= uio_resid u -> prefix (s_ctx s) u k d -> uio_ok (s_ctx s) (advance (Z.of_nat k) u).
Proof.
  intros Hu Hk [_ [->|Hp]]; [change (Z.of_nat 0) with 0; rewrite (advance_0 s) by done; apply Hu|].
  eapply peek_advance_ok; [apply Hu|lia|done].
Qed.

(** The state after [k] bytes of a write. *)
Definition written (p : Z) (sv : sfs_vnode) s (u : uio) (k : nat) (x : sfs * uio) : Prop :=
  Z.of_nat k <= uio_resid u /\ (k = O \/ uio_offset u + Z.of_nat k <= MAXFILE) /\
  (k = O \/ Z.of_nat k = uio_resid u \/ ((at_pos u + k) mod 512 = 0)%nat) /\
  exists sv' s' data, x = (s', advance (Z.of_nat k) u) /\
    grows p sv sv' s s' /\ sfi_size (sv_i sv') = sfi_size (sv_i sv) /\ prefix (s_ctx s) u k data /\
    forall pos, fbyte (disk s') (sv_i sv') pos = overwritten (fbyte (disk s) (sv_i sv)) (at_pos u) data pos.

Definition write_error s (u : uio) (e : errno) : Prop :=
  e = ENOSPC \/ e = EIO \/ e = EFAULT /\ peek (s_ctx s) u (uio_resid u) = None \/
  e = EINVAL /\ MAXFILE < uio_offset u + uio_resid u.

(** A write that stopped after [k] bytes, which it does between two blocks if not at the
    start. *)
Definition write_stopped (p : Z) (sv : sfs_vnode) s (u : uio) (e : errno) (x : sfs * uio) : Prop :=
  exists k, written p sv s u k x /\ Z.of_nat k < uio_resid u /\ write_error s u e.

Lemma written_step p sv s u k n sv1 s1 d1 r :
  io_ok s u -> (0 < n)%nat -> Z.of_nat (k + n) <= uio_resid u -> (k = O \/ uio_offset u + Z.of_nat k <= MAXFILE) ->
  (k = O \/ Z.of_nat k = uio_resid u \/ ((at_pos u + k) mod 512 = 0)%nat) ->
  (Z.of_nat (k + n) = uio_resid u \/ ((at_pos u + (k + n)) mod 512 = 0)%nat) ->
  grows p sv sv1 s s1 -> sfi_size (sv_i sv1) = sfi_size (sv_i sv) -> prefix (s_ctx s) u k d1 ->
  (forall pos, fbyte (disk s1) (sv_i sv1) pos = overwritten (fbyte (disk s) (sv_i sv)) (at_pos u) d1 pos) ->
  wrote p sv1 s1 (advance (Z.of_nat k) u) n r ->
  step (written p sv s u) (write_stopped p sv s u) r (k + n).
Proof.
  intros Hu Hn Hkn Hkm Hka Hkna G1 Hs1 Hp1 Hb1 (sv2 & s2 & G2 & Hs2 & Hr).
  destruct (advance_pos s u k Hu ltac:(lia)) as (_ & Eo & Ho). rewrite Eo in Hr. rewrite (grows_ctx _ _ _ _ _ G1) in Hr.
  pose proof (advance_0 s u Hu) as H0. pose proof (grows_trans _ _ _ _ _ _ _ G1 G2) as G.
  destruct Hr as [(d2 & Hd2 & -> & Hfit & Hb2)|(e & -> & He & Hb2)].
  - left. eexists. split; [done|]. split; [done|]. split; [right; lia|]. split; [by right|]. exists sv2, s2, (d1 ++ d2).
    split; [by rewrite advance_advance, Nat2Z.inj_add|]. split; [done|]. split; [congruence|].
    split; [by eapply prefix_app|]. intros pos. rewrite Hb2, Ho. destruct Hp1 as [Hl _]. rewrite <- Hl, <- overwritten_app.
    unfold overwritten at 1 3. by rewrite Hb1.
  - right. exists e. eexists. split; [done|]. exists k. split.
    + split; [lia|]. split; [done|]. split; [done|]. exists sv2, s2, d1. split; [done|]. split; [done|]. split; [congruence|]. split; [done|].
      intros pos. by rewrite Hb2.
    + split; [lia|]. destruct He as [->|[->|[[-> He]|[-> He]]]]; [by left|by right; left|right; right; left|right; right; right; split; [done|lia]].
      split; [done|].
      destruct Hu as ((_ & _ & Hres & _) & _). replace (uio_resid u) with (Z.of_nat (Z.to_nat (uio_resid u))) by lia.
      by eapply (peek_None_later (s_ctx s) u k n _ d1); [|lia| | |].
Qed.

Lemma io_blocks_write p sv s u :
  vol_ok s -> file_ok s p sv -> io_ok s u -> rw u = UIO_WRITE -> 0 < uio_resid u ->
  step (written p sv s u) (write_stopped p sv s u) (io_blocks p (s, u))
    (Z.to_nat (uio_resid u)).
Proof.
  intros V F Hu Hrw Hr. pose proof Hu as ((_ & Hlen & Hres & _) & Ho & Hm).
  set (O := at_pos u). set (R := Z.to_nat (uio_resid u)).
  assert (HO : Z.of_nat O = uio_offset u) by (unfold O, at_pos; lia).
  assert (HR : Z.of_nat R = uio_resid u) by (unfold R; lia).
  assert (Hok : forall k s1 sv1 d1, grows p sv sv1 s s1 -> Z.of_nat k <= uio_resid u -> prefix (s_ctx s) u k d1 ->
    io_ok s1 (advance (Z.of_nat k) u)).
  { intros k s1 sv1 d1 G1 Hk Hp. destruct (advance_pos s u k Hu Hk) as (Er & Eo & _).
    split; [rewrite (grows_ctx _ _ _ _ _ G1); by eapply prefix_ok|]. rewrite Er, Eo. lia. }
  apply (io_blocks_sequence p O R).
  - intros k x (Hk & _ & _ & sv1 & s1 & d1 & -> & _). destruct (advance_pos s u k Hu Hk) as (Er & Eo & _).
    cbn [snd]. rewrite Er, Eo. lia.
  - lia.
  - intros k n x (Hk & Hkm & Hka & sv1 & s1 & d1 & -> & G1 & Hs1 & Hp1 & Hb1) Hn Hkn Hfit Hkna.
    destruct (advance_pos s u k Hu Hk) as (Er & Eo & Ea).
    apply (written_step p sv s u k n sv1 s1 d1); try done; [lia|lia|].
    fold O in Ea. rewrite <- Ea. apply partialio_write; try apply G1; try done.
    + by eapply Hok.
    + by rewrite Ea.
    + lia.
  - intros k x (Hk & Hkm & Hka & sv1 & s1 & d1 & -> & G1 & Hs1 & Hp1 & Hb1) Hal Hkn.
    destruct (advance_pos s u k Hu Hk) as (Er & Eo & Ea). fold O in Ea.
    apply (written_step p sv s u k 512 sv1 s1 d1); try done; [lia|lia|right; fold O; dlia|].
    apply blockio_write; try apply G1; try done.
    + by eapply Hok.
    + by rewrite Ea.
    + unfold SFS_BLOCKSIZE. lia.
  - split; [lia|]. split; [by left|]. split; [by left|]. exists sv, s, []. change (Z.of_nat 0) with 0. rewrite (advance_0 s) by done. split; [done|].
    split; [by apply grows_refl|]. split; [done|]. split; [split; [done|by left]|]. intros pos. unfold overwritten.
    simpl. rewrite decide_False by lia. done.
  - lia.
Qed.

Lemma grows_size p sv sv' s s' z :
  grows p sv sv' s s' ->
  let sv2 := dirty_i (set_size z (sv_i sv')) sv' in
  grows p sv sv2 s (set_objs (<[p := sv2]> (s_objs s')) s').
Proof.
  intros G sv2. pose proof (g_objs _ _ _ _ _ G) as Eo.
  split; try apply G; try done.
  - apply vol_ok_objs. apply G.
  - split; [simpl; by rewrite lookup_insert_eq|apply G|apply (g_file _ _ _ _ _ G)|apply (g_file _ _ _ _ _ G)].
  - simpl. by rewrite Eo, insert_insert_eq.
Qed.

Lemma set_resid_id u : set_resid (uio_resid u) u = u.
Proof. by destruct u. Qed.

Lemma mod_uio_resid s u :
  0 <= uio_resid u < 2 ^ 32 -> mod_uio (fun u => set_resid (u32 (uio_resid u + 0)) u) (s, u) = Done tt (s, u).
Proof. intros Hr. unfold mod_uio. munfold. simpl. by rewrite Z.add_0_r, u32_small, set_resid_id by lia. Qed.

(** The end of [sfs_io] for a write that got as far as [u]. *)
Lemma io_finish_write p sv s u sv' s' :
  grows p sv sv' s s' -> sfi_size (sv_i sv') = sfi_size (sv_i sv) -> rw u = UIO_WRITE ->
  0 <= sfi_size (sv_i sv) < 2 ^ 31 -> 0 <= uio_offset u < 2 ^ 31 -> 0 <= uio_resid u < 2 ^ 32 ->
  exists sv2 s2, io_finish p 0 (s', u) = Done tt (s2, u) /\ grows p sv sv2 s s2 /\
    sfi_size (sv_i sv2) = Z.max (sfi_size (sv_i sv)) (uio_offset u) /\
    forall pos, fbyte (disk s2) (sv_i sv2) pos = fbyte (disk s') (sv_i sv') pos.
Proof.
  intros G Hs Hrw Hsz Ho Hr. unfold io_finish. rewrite get_uio_bind.
  rewrite (bind_Done _ _ _ _ _ (fs_Done _ s' u _ _ (get_sv_eq s' p sv' (fo_obj _ _ _ (g_file _ _ _ _ _ G))))).
  rewrite Hs, s32_small by lia. cbn [snd]. case_decide as D1.
  - set (sv2 := dirty_i (set_size (u32 (uio_offset u)) (sv_i sv')) sv').
    exists sv2, (set_objs (<[p := sv2]> (s_objs s')) s'). split; [|split; [|split]].
    + rewrite (bind_Done _ _ (s', u) tt (set_objs (<[p := sv2]> (s_objs s')) s', u)) by done. by apply mod_uio_resid.
    + by apply grows_size.
    + simpl. rewrite u32_small by lia. lia.
    + done.
  - exists sv', s'. split; [|split; [done|split; [|done]]].
    + rewrite (bind_Done _ _ (s', u) tt (s', u)) by done. by apply mod_uio_resid.
    + rewrite Hs. destruct (decide (uio_offset u > sfi_size (sv_i sv))); [|lia]. destruct D1. done.
Qed.

Lemma sfs_write_spec (s : sfs) (p : Z) (sv : sfs_vnode) (u : uio) :
  vol_ok s -> file_ok s p sv -> io_ok s u -> rw u = UIO_WRITE -> 0 < uio_resid u ->
  0 <= sfi_size (sv_i sv) < 2 ^ 31 ->
  exists sv' s' k data, grows p sv sv' s s' /\ length data = k /\
    (k = O \/ peek (s_ctx s) u (Z.of_nat k) = Some data) /\
    sfi_size (sv_i sv') = Z.max (sfi_size (sv_i sv)) (uio_offset u + Z.of_nat k) /\
    (forall pos, fbyte (disk s') (sv_i sv') pos = overwritten (fbyte (disk s) (sv_i sv)) (at_pos u) data pos) /\
    (sfs_io p (s, u) = Done tt (s', advance (Z.of_nat k) u) /\ Z.of_nat k = uio_resid u /\ uio_offset u + uio_resid u <= MAXFILE \/
     exists e, sfs_io p (s, u) = Fail e (s', advance (Z.of_nat k) u) /\ write_error s u e /\ Z.of_nat k < uio_resid u /\
       (k = O \/ ((at_pos u + k) mod 512 = 0)%nat)).
Proof.
  intros V F Hu Hrw Hr Hsz. pose proof Hu as ((_ & Hlen & Hres & _) & Ho & Hm).
  assert (Hfin : forall k x, written p sv s u k x ->
    exists sv2 s2 data, grows p sv sv2 s s2 /\ prefix (s_ctx s) u k data /\
      sfi_size (sv_i sv2) = Z.max (sfi_size (sv_i sv)) (uio_offset u + Z.of_nat k) /\
      (forall pos, fbyte (disk s2) (sv_i sv2) pos = overwritten (fbyte (disk s) (sv_i sv)) (at_pos u) data pos) /\
      io_finish p 0 x = Done tt (s2, advance (Z.of_nat k) u)).
  { intros k x (Hk & _ & _ & sv1 & s1 & data & -> & G & Hs1 & Hp & Hb).
    destruct (advance_pos s u k Hu Hk) as (Er & Eo & _).
    destruct (io_finish_write p sv s (advance (Z.of_nat k) u) sv1 s1 G Hs1 Hrw Hsz) as (sv2 & s2 & E & G2 & Hs2 & Hb2);
      [rewrite Eo; lia|rewrite Er; lia|].
    exists sv2, s2, data. split; [done|]. split; [done|]. split; [by rewrite Hs2, Eo|]. split; [|done]. intros pos. by rewrite Hb2, Hb. }
  unfold sfs_io. rewrite get_uio_bind. cbn [snd]. rewrite decide_False by congruence. unfold io_run.
  destruct (io_blocks_write p sv s u V F Hu Hrw Hr) as [(x & E & Hw)|(e & x & E & k & Hw & Hlt & He)].
  - destruct (Hfin _ _ Hw) as (sv2 & s2 & data & G & [Hl Hp] & Hs2 & Hb & Ef).
    exists sv2, s2, (Z.to_nat (uio_resid u)), data. split; [done|]. split; [done|]. split; [done|]. split; [done|].
    split; [done|]. left. split; [munfold; rewrite E, Ef; done|]. destruct Hw as (_ & Hfit & _). lia.
  - destruct (Hfin _ _ Hw) as (sv2 & s2 & data & G & [Hl Hp] & Hs2 & Hb & Ef).
    exists sv2, s2, k, data. split; [done|]. split; [done|]. split; [done|]. split; [done|]. split; [done|].
    right. exists e. split; [munfold; rewrite E, Ef; done|]. split; [done|]. split; [done|].
    destruct Hw as (_ & _ & Ha & _). lia.
Qed.

(** ** Reading *)

(** What was read so far is in the data block of the uio. *)
Definition stored (c : uctx) (u : uio) (data : list Z) (c' : uctx) (u' : uio) : Prop :=
  data = [] /\ c' = c /\ u' = u \/ data <> [] /\ poke c u data = Some (c', u').

Lemma stored_app c u d1 c1 u1 d2 c2 u2 :
  advance 0 u = u -> stored c u d1 c1 u1 -> d2 <> [] ->
  poke c1 (advance (Z.of_nat (length d1)) u1) d2 = Some (c2, u2) ->
  exists u', stored c u (d1 ++ d2) c2 u' /\
    advance (Z.of_nat (length (d1 ++ d2))) u' = advance (Z.of_nat (length d2)) u2.
Proof.
  intros H0 [(-> & -> & ->)|[Hd1 Hp]] Hd2 Hp2.
  - change (Z.of_nat (length [])) with 0 in Hp2. rewrite H0 in Hp2. exists u2. split; [by right|done].
  - pose proof (poke_app c u d1 d2 Hd1 Hd2) as Ha. rewrite Hp, Hp2 in Ha. destruct Ha as (u' & E & Ea).
    exists u'. split; [|done]. right. split; [by destruct d1|done].
Qed.

Lemma stored_None c u d1 c1 u1 d2 d3 :
  advance 0 u = u -> stored c u d1 c1 u1 -> d2 <> [] ->
  poke c1 (advance (Z.of_nat (length d1)) u1) d2 = None -> poke c u (d1 ++ d2 ++ d3) = None.
Proof.
  intros H0 Hs Hd2 Hp2.
  assert (Hn : poke c u (d1 ++ d2) = None).
  { destruct Hs as [(-> & -> & ->)|[Hd1 Hp]].
    - change (Z.of_nat (length [])) with 0 in Hp2. by rewrite H0 in Hp2.
    - pose proof (poke_app c u d1 d2 Hd1 Hd2) as Ha. by rewrite Hp, Hp2 in Ha. }
  rewrite app_assoc. destruct (decide (d3 = [])) as [->|Hd3]; [by rewrite app_nil_r|].
  pose proof (poke_app c u (d1 ++ d2) d3) as Ha. rewrite Hn in Ha. apply Ha; [|done]. destruct d1; [done|done].
Qed.

Lemma stored_uio c u d c' u' :
  stored c u d c' u' -> exists m kb, c' = set_umem m c /\ u' = set_kbuf kb u.
Proof.
  intros [(-> & -> & ->)|[_ Hp]]; [exists (umem c), (iov_kbuf u); by rewrite set_umem_self, set_kbuf_id|].
  pose proof (poke_ctx _ _ _ _ _ Hp) as [m ->]. apply poke_uio in Hp as (_ & _ & kb & -> & _). by exists m, kb.
Qed.

Lemma stored_ok s u d c' u' :
  io_ok s u -> Z.of_nat (length d) <= uio_resid u -> stored (s_ctx s) u d c' u' ->
  uio_ok c' (advance (Z.of_nat (length d)) u').
Proof.
  intros Hu Hd [(-> & -> & ->)|[_ Hp]]; [change (Z.of_nat (length [])) with 0; rewrite (advance_0 s) by done; apply Hu|].
  eapply poke_advance_ok; [apply Hu|done|done].
Qed.

(** A volume after reads: the user context and the state of the device may differ. *)
Definition after_read s (d : D) (c : uctx) : sfs := set_ctx c (set_dev d s).

Lemma after_read_ok s p sv d m :
  vol_ok s -> file_ok s p sv -> same_data (s_dev s) d ->
  vol_ok (after_read s d (set_umem m (s_ctx s))) /\ file_ok (after_read s d (set_umem m (s_ctx s))) p sv /\
  disk (after_read s d (set_umem m (s_ctx s))) = disk s.
Proof.
  intros V F Hd. pose proof (vol_ok_dev s d V Hd) as V1. pose proof (file_ok_dev s p sv d F Hd) as F1. split; [|split].
  - destruct V1. by split.
  - destruct F1. by split.
  - apply Hd.
Qed.

(** The state after [k] bytes of a read, and after a failure. *)
Definition read_so_far (sv : sfs_vnode) s (u : uio) (k : nat) (x : sfs * uio) : Prop :=
  Z.of_nat k <= uio_resid u /\ exists d c u', x = (after_read s d c, advance (Z.of_nat k) u') /\
    same_data (s_dev s) d /\ stored (s_ctx s) u (fbytes (disk s) (sv_i sv) (at_pos u) k) c u'.

Definition read_failed (sv : sfs_vnode) s (u : uio) (e : errno) (x : sfs * uio) : Prop :=
  exists d m u', x = (after_read s d (set_umem m (s_ctx s)), u') /\ same_data (s_dev s) d /\ rw u' = rw u /\
    (e = EIO \/ e = EFAULT /\ poke (s_ctx s) u (fbytes (disk s) (sv_i sv) (at_pos u) (Z.to_nat (uio_resid u))) = None).

Lemma read_step p sv s u k n d c u1 r :
  vol_ok s -> file_ok s p sv -> io_ok s u -> (0 < n)%nat -> Z.of_nat (k + n) <= uio_resid u ->
  same_data (s_dev s) d -> stored (s_ctx s) u (fbytes (disk s) (sv_i sv) (at_pos u) k) c u1 ->
  did_read sv (after_read s d c) (advance (Z.of_nat k) u1) n r ->
  step (read_so_far sv s u) (read_failed sv s u) r (k + n).
Proof.
  intros V F Hu Hn Hkn Hd Hst (d' & Hd' & Hr). pose proof (advance_0 s u Hu) as H0.
  destruct (stored_uio _ _ _ _ _ Hst) as (m & kb & Ec & Eu).
  destruct (after_read_ok s p sv d m V F Hd) as (_ & _ & Hdk). rewrite <- Ec in Hdk.
  assert (Ha : at_pos (advance (Z.of_nat k) u1) = (at_pos u + k)%nat).
  { subst u1. apply (advance_pos s u k Hu). lia. }
  cbv zeta in Hr. rewrite Hdk, Ha in Hr. change (s_ctx (after_read s d c)) with c in Hr.
  set (d1 := fbytes (disk s) (sv_i sv) (at_pos u) k) in *. set (d2 := fbytes (disk s) (sv_i sv) (at_pos u + k) n) in *.
  assert (Hl1 : length d1 = k) by apply length_fbytes. assert (Hl2 : length d2 = n) by apply length_fbytes.
  assert (Hd2 : d2 <> []) by (intros E; rewrite E in Hl2; simpl in Hl2; lia).
  pose proof (same_data_trans _ _ _ Hd Hd') as Hdd.
  destruct Hr as [(c2 & u2 & -> & Hp)|(e & m2 & u2 & -> & Hrw2 & He)].
  - left. eexists. split; [done|]. split; [done|]. rewrite fbytes_app. fold d1 d2.
    rewrite <- Hl1 in Hp. destruct (stored_app _ _ _ _ _ _ _ _ H0 Hst Hd2 Hp) as (u' & Hst' & Ea).
    rewrite length_app, Hl1, Hl2 in Ea. exists d', c2, u'. rewrite Ea. done.
  - right. exists e. eexists. split; [done|]. exists d', m2, u2. subst c. split; [done|]. split; [done|]. split; [rewrite Hrw2, Eu; done|].
    destruct He as [->|[-> Hp]]; [by left|right]. split; [done|].
    replace (Z.to_nat (uio_resid u)) with (k + n + (Z.to_nat (uio_resid u) - (k + n)))%nat by lia.
    rewrite fbytes_app, fbytes_app. fold d1 d2. rewrite <- app_assoc. rewrite <- Hl1 in Hp. by eapply stored_None.
Qed.

Lemma io_blocks_read p sv s u :
  vol_ok s -> file_ok s p sv -> io_ok s u -> rw u = UIO_READ -> 0 < uio_resid u ->
  uio_offset u + uio_resid u <= MAXFILE ->
  step (read_so_far sv s u) (read_failed sv s u) (io_blocks p (s, u)) (Z.to_nat (uio_resid u)).
Proof.
  intros V F Hu Hrw Hr Hmax. pose proof Hu as ((_ & Hlen & Hres & _) & Ho & Hm).
  set (O := at_pos u). set (R := Z.to_nat (uio_resid u)).
  assert (HO : Z.of_nat O = uio_offset u) by (unfold O, at_pos; lia).
  assert (HR : Z.of_nat R = uio_resid u) by (unfold R; lia). unfold MAXFILE, NBLOCKS in Hmax.
  assert (Hst : forall k d c u1, Z.of_nat k <= uio_resid u -> same_data (s_dev s) d ->
    stored (s_ctx s) u (fbytes (disk s) (sv_i sv) (at_pos u) k) c u1 ->
    let x := advance (Z.of_nat k) u1 in
    vol_ok (after_read s d c) /\ file_ok (after_read s d c) p sv /\ io_ok (after_read s d c) x /\ rw x = UIO_READ /\
    uio_resid x = uio_resid u - Z.of_nat k /\ uio_offset x = uio_offset u + Z.of_nat k /\ at_pos x = (O + k)%nat).
  { intros k d c u1 Hk Hd Hs x. destruct (stored_uio _ _ _ _ _ Hs) as (m & kb & -> & ->).
    destruct (after_read_ok s p sv d m V F Hd) as (V1 & F1 & _).
    destruct (advance_pos s u k Hu Hk) as (Er & Eo & Ea). split; [done|]. split; [done|].
    split; [|by repeat split]. split; [|unfold x; rewrite advance_kbuf; simpl; simpl in Er, Eo; rewrite Er, Eo; lia].
    pose proof (stored_ok s u _ _ _ Hu ltac:(by rewrite length_fbytes) Hs) as Hok. by rewrite length_fbytes in Hok. }
  apply (io_blocks_sequence p O R).
  - intros k x (Hk & d & c & u1 & -> & Hd & Hs). destruct (Hst k d c u1 Hk Hd Hs) as (_ & _ & _ & _ & Er & Eo & _).
    cbn [snd]. rewrite Er, Eo. lia.
  - lia.
  - intros k n x (Hk & d & c & u1 & -> & Hd & Hs) Hn Hkn Hfit _.
    destruct (Hst k d c u1 Hk Hd Hs) as (V1 & F1 & Hu1 & Hrw1 & Er & Eo & Ea).
    apply (read_step p sv s u k n d c u1); try done; [lia|].
    rewrite <- Ea. apply partialio_read; try done; [by rewrite Ea|lia|]. rewrite Ea. unfold NBLOCKS. dlia.
  - intros k x (Hk & d & c & u1 & -> & Hd & Hs) Hal Hkn.
    destruct (Hst k d c u1 Hk Hd Hs) as (V1 & F1 & Hu1 & Hrw1 & Er & Eo & Ea).
    apply (read_step p sv s u k 512 d c u1); try done; [lia|lia|].
    apply blockio_read; try done; [by rewrite Ea|unfold SFS_BLOCKSIZE; lia|]. rewrite Ea. unfold NBLOCKS. dlia.
  - split; [lia|]. exists (s_dev s), (s_ctx s), u. change (Z.of_nat 0) with 0. rewrite (advance_0 s) by done.
    split; [by destruct s|]. split; [split; [apply V|done]|]. by left.
  - lia.
Qed.

Lemma poke_set_resid c u z d :
  poke c (set_resid z u) d = (fun cu => (cu.1, set_resid z cu.2)) <$> poke c u d.
Proof. unfold poke. simpl. destruct (uio_segflg u); [|destruct (splice _ _ _)|]; try done; by destruct (uread _ _ _). Qed.

(** The end of [sfs_io] for a read: the part past the end of the file is added back. *)
Lemma io_finish_read p sv s u extra :
  s_objs s !! p = Some sv -> rw u = UIO_READ ->
  io_finish p extra (s, u) = Done tt (s, set_resid (u32 (uio_resid u + extra)) u).
Proof.
  intros E Hrw. unfold io_finish. rewrite get_uio_bind.
  rewrite (bind_Done _ _ _ _ _ (fs_Done _ s u _ _ (get_sv_eq s p sv E))).
  rewrite decide_False by (cbn [snd]; intros [? _]; congruence). done.
Qed.

Lemma io_run_read p sv s u (n : nat) extra :
  vol_ok s -> file_ok s p sv -> io_ok s u -> rw u = UIO_READ -> (0 < n)%nat -> 0 <= extra ->
  uio_resid u = Z.of_nat n + extra -> uio_offset u + Z.of_nat n <= MAXFILE ->
  let data := fbytes (disk s) (sv_i sv) (at_pos u) n in
  exists d, same_data (s_dev s) d /\
    let r := io_run p extra (s, set_resid (Z.of_nat n) u) in
    ((exists c u', r = Done tt (after_read s d c, advance (Z.of_nat n) u') /\ poke (s_ctx s) u data = Some (c, u')) \/
     (exists e m u', r = Fail e (after_read s d (set_umem m (s_ctx s)), u') /\
        (e = EIO \/ e = EFAULT /\ poke (s_ctx s) u data = None))).
Proof.
  intros V F Hu Hrw Hn He Hr Hmax data. pose proof Hu as ((Hb & Hlen & Hres & Hbase & Hseg) & Ho & Hm).
  set (u1 := set_resid (Z.of_nat n) u).
  assert (Hu1 : io_ok s u1) by (split; [|simpl; lia]; unfold uio_ok; simpl; repeat (split; [done || lia|]); done).
  unfold io_run.
  destruct (io_blocks_read p sv s u1 V F Hu1 Hrw ltac:(simpl; lia) Hmax) as [(x & E & Hx)|(e & x & E & Hx)].
  - destruct Hx as (_ & d & c & u' & -> & Hd & Hst). exists d. split; [done|]. left.
    simpl uio_resid in *. rewrite Nat2Z.id in *. change (at_pos u1) with (at_pos u) in Hst. fold data in Hst.
    destruct Hst as [(E0 & _)|[_ Hp]].
    { apply (f_equal length) in E0. unfold data in E0. rewrite length_fbytes in E0. simpl in E0. lia. }
    unfold u1 in Hp. rewrite poke_set_resid in Hp. destruct (poke (s_ctx s) u data) as [[c0 u0]|] eqn:Ep; [|done]. simpl in Hp.
    injection Hp as <- <-. exists c0, u0. split; [|done].
    pose proof (poke_uio _ _ _ _ _ Ep) as (_ & _ & kb & -> & _). munfold. rewrite E.
    rewrite (io_finish_read p sv) by (apply F || done). f_equal. f_equal.
    unfold set_resid, advance. simpl. f_equal. rewrite Hr, Z.sub_diag. replace (Z.of_nat n + extra - Z.of_nat n) with extra by lia.
    by rewrite (u32_small 0), Z.add_0_l by lia.
  - destruct Hx as (d & m & u' & -> & Hd & Hrw' & Herr). exists d. split; [done|]. right.
    assert (Hdata : fbytes (disk s) (sv_i sv) (at_pos u1) (Z.to_nat (uio_resid u1)) = data) by (simpl; by rewrite Nat2Z.id).
    rewrite Hdata in Herr. unfold u1 in Herr. rewrite poke_set_resid in Herr. eexists e, m, _. split.
    + munfold. rewrite E. rewrite (io_finish_read p sv); [done|apply F|by rewrite Hrw'].
    + destruct Herr as [->|[-> Hp]]; [by left|right]. split; [done|]. by destruct (poke (s_ctx s) u data).
Qed.

Lemma sfs_read_spec (s : sfs) (p : Z) (sv : sfs_vnode) (u : uio) :
  vol_ok s -> file_ok s p sv -> io_ok s u -> rw u = UIO_READ -> 0 < uio_resid u ->
  0 <= sfi_size (sv_i sv) <= MAXFILE ->
  let n := Z.min (uio_resid u) (sfi_size (sv_i sv) - uio_offset u) in
  let data := fbytes (disk s) (sv_i sv) (at_pos u) (Z.to_nat n) in
  if decide (sfi_size (sv_i sv) <= uio_offset u) then sfs_io p (s, u) = Done tt (s, u)
  else
    exists d, same_data (s_dev s) d /\
      ((exists c u', sfs_io p (s, u) = Done tt (after_read s d c, advance n u') /\ poke (s_ctx s) u data = Some (c, u')) \/
       (exists e m u', sfs_io p (s, u) = Fail e (after_read s d (set_umem m (s_ctx s)), u') /\
          (e = EIO \/ e = EFAULT /\ poke (s_ctx s) u data = None))).
Proof.
  intros V F Hu Hrw Hr Hsz n data. pose proof Hu as ((_ & Hlen & Hres & _) & Ho & Hm).
  assert (HM : MAXFILE < 2 ^ 31) by (unfold MAXFILE, NBLOCKS; lia).
  unfold sfs_io. rewrite get_uio_bind. cbn [snd]. rewrite (decide_True (P := rw u = UIO_READ)) by done.
  rewrite (bind_Done _ _ _ _ _ (fs_Done _ s u _ _ (get_sv_eq s p sv (fo_obj _ _ _ F)))).
  rewrite !s32_small by lia. destruct (decide (sfi_size (sv_i sv) <= uio_offset u)) as [D0|D0].
  { by rewrite decide_True by lia. }
  rewrite decide_False by lia. destruct (decide (uio_offset u + uio_resid u > sfi_size (sv_i sv))) as [D1|D1].
  - set (extra := uio_offset u + uio_resid u - sfi_size (sv_i sv)).
    rewrite (u32_small extra) by (unfold extra; lia).
    rewrite kassert_bind by (apply bool_decide_eq_true_2; unfold extra; lia).
    rewrite (bind_Done _ _ (s, u) tt (s, set_resid (uio_resid u - extra) u)) by done.
    pose proof (io_run_read p sv s u (Z.to_nat n) extra V F Hu Hrw) as Hrun.
    rewrite Z2Nat.id in Hrun by lia. replace (uio_resid u - extra) with n by (unfold extra; lia).
    apply Hrun; unfold extra; lia.
  - pose proof (io_run_read p sv s u (Z.to_nat n) 0 V F Hu Hrw) as Hrun. rewrite Z2Nat.id in Hrun by lia.
    replace n with (uio_resid u) in Hrun by lia. rewrite set_resid_id in Hrun.
    unfold data. replace n with (uio_resid u) by lia. apply Hrun; lia.
Qed.

(** C6: A read returns the bytes of the file from the position of the uio up to the end of
    the request or of the file, whichever comes first, and nothing at or past the end; or
    it fails because a block cannot be read or the data block is not writable.  The volume
    is not changed. *)
Theorem sfs_read_correct (s : sfs) (p : Z) (sv : sfs_vnode) (u : uio) :
  vol_ok s -> file_ok s p sv -> io_ok s u -> rw u = UIO_READ -> 0 < uio_resid u ->
  0 <= sfi_size (sv_i sv) <= MAXFILE ->
  let n := Z.min (uio_resid u) (sfi_size (sv_i sv) - uio_offset u) in
  let data := fbytes (disk s) (sv_i sv) (at_pos u) (Z.to_nat n) in
  if decide (sfi_size (sv_i sv) <= uio_offset u) then sfs_read p (s, u) = Done tt (s, u)
  else
    exists d, same_data (s_dev s) d /\
      ((exists c u', sfs_read p (s, u) = Done tt (after_read s d c, advance n u') /\ poke (s_ctx s) u data = Some (c, u')) \/
       (exists e m u', sfs_read p (s, u) = Fail e (after_read s d (set_umem m (s_ctx s)), u') /\
          (e = EIO \/ e = EFAULT /\ poke (s_ctx s) u data = None))).
Proof.
  intros V F Hu Hrw. unfold sfs_read. rewrite get_uio_bind. cbn [snd]. rewrite kassert_bind by by apply bool_decide_eq_true_2.
  by apply sfs_read_spec.
Qed.

Lemma fbytes_overwritten dk i dk' i' o data :
  (forall pos, fbyte dk' i' pos = overwritten (fbyte dk i) o data pos) -> fbytes dk' i' o (length data) = data.
Proof.
  intros H. apply list_eq. intros j. destruct (decide (j < length data)%nat) as [Hj|Hj].
  - rewrite fbytes_lookup by done. rewrite H. unfold overwritten. rewrite decide_True by lia.
    replace (o + j - o)%nat with j by lia. by destruct (lookup_lt_is_Some_2 data j Hj) as [x ->].
  - rewrite !lookup_ge_None_2; [done|lia|rewrite length_fbytes; lia].
Qed.

End io.

Section correct.
Context {K D : Type} `{!Kmalloc K, !Locks K, !Device D, !DeviceSpec D}.
Abbreviation sfs := (sfs_fs K D).

(** C5: On a disk whose writes complete, a write to a file puts the bytes of the uio, as
    many as were transferred, at the position of the uio, and leaves every other byte of
    the file as it was; the size becomes the larger of the old size and the end of the
    transfer.  All of the data is transferred, which then ends within the largest file
    (143 blocks), or the call fails because the volume is full, a block cannot be read,
    the data is not readable, or the transfer would end past the largest file; it then
    stopped where it began or between two blocks.  Only free blocks and blocks of the file
    are changed ([grows]). *)
Theorem sfs_write_correct (s : sfs) (p : Z) (sv : sfs_vnode) (u : uio) :
  vol_ok Sound s -> file_ok s p sv -> io_ok s u -> rw u = UIO_WRITE -> 0 < uio_resid u ->
  0 <= sfi_size (sv_i sv) < 2 ^ 31 ->
  exists sv' s' k data, grows Sound p sv sv' s s' /\ length data = k /\
    (k = O \/ peek (s_ctx s) u (Z.of_nat k) = Some data) /\
    sfi_size (sv_i sv') = Z.max (sfi_size (sv_i sv)) (uio_offset u + Z.of_nat k) /\
    (forall pos, fbyte (disk s') (sv_i sv') pos = overwritten (fbyte (disk s) (sv_i sv)) (at_pos u) data pos) /\
    (sfs_write p (s, u) = Done tt (s', advance (Z.of_nat k) u) /\ Z.of_nat k = uio_resid u /\ uio_offset u + uio_resid u <= MAXFILE \/
     exists e, sfs_write p (s, u) = Fail e (s', advance (Z.of_nat k) u) /\ write_error s u e /\ Z.of_nat k < uio_resid u /\
       (k = O \/ ((at_pos u + k) mod 512 = 0)%nat)).
Proof.
  intros V F Hu Hrw. unfold sfs_write. rewrite get_uio_bind. cbn [snd]. rewrite kassert_bind by by apply bool_decide_eq_true_2.
  by apply sfs_write_spec.
Qed.

(** C19: What a write put into a file is what a read of the same place returns: on a disk
    whose writes complete, after a write of a kernel buffer that succeeded, reading as many
    bytes at the same position delivers that buffer, unless the disk reports a read error. *)
Theorem sfs_write_then_read (s s1 : sfs) (p : Z) (sv : sfs_vnode) (data buf : list Z) (pos : Z) (u1 : uio) :
  vol_ok Sound s -> file_ok s p sv -> 0 <= sfi_size (sv_i sv) <= MAXFILE -> data <> [] -> length buf = length data ->
  0 <= pos -> pos + Z.of_nat (length data) < 2 ^ 31 ->
  sfs_write p (s, mk_kuio data (Z.of_nat (length data)) pos UIO_WRITE) = Done tt (s1, u1) ->
  exists s2,
    (exists u2, sfs_read p (s1, mk_kuio buf (Z.of_nat (length data)) pos UIO_READ) = Done tt (s2, u2) /\
       iov_kbuf u2 = data /\ uio_resid u2 = 0) \/
    (exists u2, sfs_read p (s1, mk_kuio buf (Z.of_nat (length data)) pos UIO_READ) = Fail EIO (s2, u2)).
Proof.
  intros V F Hsz Hd Hbuf Hp Hend. set (n := Z.of_nat (length data)) in *.
  assert (Hn : 0 < n) by (unfold n; destruct data; [done|simpl; lia]).
  assert (HM : MAXFILE < 2 ^ 31) by (unfold MAXFILE, NBLOCKS; lia).
  unfold sfs_write, sfs_read. rewrite !get_uio_bind. cbn [snd]. rewrite !kassert_bind by done.
  assert (Hu : io_ok s (mk_kuio data n pos UIO_WRITE)).
  { split; [apply kuio_ok; [apply V|lia|unfold n; lia]|]. simpl. lia. }
  destruct (sfs_write_spec s p sv (mk_kuio data n pos UIO_WRITE) V F Hu eq_refl Hn ltac:(lia)) as
    (sv' & s' & k & d & G & Hl & Hk & Hs' & Hb & [(-> & Hkn & Hmax)|(e & -> & _)]); [|done]. intros [= <- <-].
  simpl in Hkn, Hmax. assert (d = data) as ->.
  { destruct Hk as [->|Hk]; [lia|]. rewrite Hkn in Hk. unfold peek in Hk. simpl in Hk.
    rewrite slice_all in Hk by done. by injection Hk. }
  pose proof (grows_ctx _ _ _ _ _ G) as Hc. set (u := mk_kuio buf n pos UIO_READ).
  assert (Hu' : io_ok s' u).
  { split; [apply kuio_ok; [apply G|lia|unfold n; lia]|]. simpl. lia. }
  simpl uio_offset in Hs'. rewrite Hkn in Hs'.
  pose proof (sfs_read_spec s' p sv' u (g_vol _ _ _ _ _ G) (g_file _ _ _ _ _ G) Hu' eq_refl Hn ltac:(rewrite Hs'; lia)) as Hr.
  cbv zeta in Hr. rewrite decide_False in Hr by (simpl; rewrite Hs'; lia).
  replace (Z.min (uio_resid u) (sfi_size (sv_i sv') - uio_offset u)) with n in Hr by (simpl; rewrite Hs'; lia).
  change (at_pos u) with (at_pos (mk_kuio data n pos UIO_WRITE)) in Hr. replace (Z.to_nat n) with (length data) in Hr by (unfold n; lia).
  rewrite (fbytes_overwritten _ _ _ _ _ _ Hb) in Hr.
  assert (Ep : poke (s_ctx s') u data = Some (s_ctx s', set_kbuf data u)).
  { unfold poke. simpl. by rewrite splice_all. }
  rewrite Ep in Hr. destruct Hr as (d & _ & [(c & u' & -> & Hp')|(e & m & u' & -> & [->|[_ ?]])]); [| |done].
  - injection Hp' as <- <-. eexists. left. eexists. split; [done|]. split; [done|]. simpl. fold n. by rewrite Z.sub_diag.
  - eexists. right. by eexists.
Qed.

End correct.

End SfsIo.
