(* ===== verification/SfsTrunc.v ===== *)
(** * The file system: truncation

    [sfs_truncate] frees the blocks past the new end and no others, keeps the bytes
    before it, and touches nothing else on the volume; what it does with the block just
    past the end when that block is mapped by the indirect block. *)

From S2P Require Import Prelude Kmalloc Array Bitmap Uio Blockdev Vnode Sfs SfsBlock SfsFile SfsIo.
Import Bitmap Uio Vnode Sfs SfsBlock SfsFile SfsIo.

Module SfsTrunc.

Lemma elem_blocks dk i b :
  length (sfi_direct i) = 15%nat ->
  b ∈ blocks dk i <-> b <> 0 /\ (b = sfi_indirect i \/ exists n, (n < NBLOCKS)%nat /\ fblock dk i n = b).
Proof.
  intros Hd. rewrite elem_of_blocks. split; intros [Hb H]; (split; [done|]).
  - destruct H as [->|H]; [by left|right]. apply list_elem_of_lookup_1 in H as [n Hn]. exists n.
    split; [|unfold fblock; by rewrite Hn]. apply lookup_lt_Some in Hn. unfold ftable in Hn.
    rewrite length_app, length_idwords, Hd in Hn. unfold NBLOCKS. lia.
  - destruct H as [->|(n & Hn & <-)]; [by left|right]. eapply (list_elem_of_lookup_2 _ n).
    by apply (fblock_lookup dk i n Hd).
Qed.

Lemma nodup_blocks dk i :
  length (sfi_direct i) = 15%nat ->
  NoDup (blocks dk i) <->
  (forall n m, (n < NBLOCKS)%nat -> (m < NBLOCKS)%nat -> fblock dk i n <> 0 -> fblock dk i n = fblock dk i m -> n = m) /\
  (forall n, (n < NBLOCKS)%nat -> fblock dk i n <> 0 -> fblock dk i n <> sfi_indirect i).
Proof.
  intros Hd. unfold blocks. rewrite NoDup_filter_lookup.
  assert (Hlen : forall n b, ftable dk i !! n = Some b -> (n < NBLOCKS)%nat /\ fblock dk i n = b).
  { intros n b Hn. split; [|unfold fblock; by rewrite Hn]. apply lookup_lt_Some in Hn. unfold ftable in Hn.
    rewrite length_app, length_idwords, Hd in Hn. unfold NBLOCKS. lia. }
  split.
  - intros H. split.
    + intros n m Hn Hm Hb E. pose proof (H (S n) (S m) _ Hb (fblock_lookup dk i n Hd Hn)) as H1. rewrite E in H1.
      specialize (H1 (fblock_lookup dk i m Hd Hm)). lia.
    + intros n Hn Hb E. pose proof (H (S n) O _ Hb (fblock_lookup dk i n Hd Hn)) as H1. rewrite E in H1. by specialize (H1 eq_refl).
  - intros [H1 H2] [|k] [|l] b Hb; simpl; intros Ek El; try done.
    + injection Ek as <-. apply Hlen in El as [Hl El]. destruct (H2 l Hl); congruence.
    + injection El as <-. apply Hlen in Ek as [Hk Ek]. destruct (H2 k Hk); congruence.
    + apply Hlen in Ek as [Hk Ek]. apply Hlen in El as [Hl El]. f_equal. apply H1; congruence.
Qed.

Section trunc.
Context {K D : Type} `{!Kmalloc K, !Locks K, !Device D, !DeviceSpec D} {w : wear} `{!Writes w}.
Abbreviation sfs := (sfs_fs K D).
Abbreviation dev_ok := (Blockdev.dev_ok w).
Abbreviation same_data := (SfsBlock.same_data w).
Abbreviation vol_ok := (SfsBlock.vol_ok w).
Implicit Types s : sfs.

(** From [s] to [s'] the file at [p] lost blocks, which are free now; what else the
    volume holds is as it was. *)
Record shrinks (p : Z) (sv sv' : sfs_vnode) s s' : Prop := {
  sh_vol : vol_ok s';
  sh_file : file_ok s' p sv';
  sh_objs : s_objs s' = <[p := sv']> (s_objs s);
  sh_rest : (s_kern s', s_ctx s', s_self s', s_super s', s_superdirty s', s_vnodes s') =
            (s_kern s, s_ctx s, s_self s, s_super s, s_superdirty s, s_vnodes s);
  sh_sv : (sv_v sv', sv_ino sv', sfi_type (sv_i sv'), sfi_linkcount (sv_i sv'), sfi_waste (sv_i sv')) =
          (sv_v sv, sv_ino sv, sfi_type (sv_i sv), sfi_linkcount (sv_i sv), sfi_waste (sv_i sv));
  sh_ind : sfi_indirect (sv_i sv') = sfi_indirect (sv_i sv) \/ sfi_indirect (sv_i sv') = 0;
  sh_sub : forall b, b ∈ blocks (disk s') (sv_i sv') -> b ∈ blocks (disk s) (sv_i sv);
  sh_bits : forall b, 0 <= b -> bit (s_freemap s') b =
    if decide (b ∈ blocks (disk s) (sv_i sv) /\ b ∉ blocks (disk s') (sv_i sv')) then false else bit (s_freemap s) b;
  sh_nbits : nbits (s_freemap s') = nbits (s_freemap s);
  sh_len : length (disk s') = length (disk s);
  sh_disk : forall c, 0 <= c -> ~ (c = sfi_indirect (sv_i sv) /\ c <> 0) -> disk s' !! Z.to_nat c = disk s !! Z.to_nat c;
}.

Lemma shrinks_refl s p sv : vol_ok s -> file_ok s p sv -> shrinks p sv sv s s.
Proof.
  intros V F. split; try done; [by rewrite insert_id by apply F|by left|]. intros b Hb. rewrite decide_False; [done|]. tauto.
Qed.

Lemma shrinks_trans s1 s2 s3 p sv1 sv2 sv3 :
  shrinks p sv1 sv2 s1 s2 -> shrinks p sv2 sv3 s2 s3 -> shrinks p sv1 sv3 s1 s3.
Proof.
  intros [A1 A2 A3 A4 A5 A6 A7 A8 A9 A10 A11] [B1 B2 B3 B4 B5 B6 B7 B8 B9 B10 B11]. split; try done.
  - rewrite B3, A3. by rewrite insert_insert_eq.
  - congruence.
  - congruence.
  - destruct B6 as [->|]; auto.
  - auto.
  - intros b Hb. rewrite B8, A8 by done. pose proof (A7 b). pose proof (B7 b).
    destruct (decide (b ∈ blocks (disk s2) (sv_i sv2))), (decide (b ∈ blocks (disk s3) (sv_i sv3))),
      (decide (b ∈ blocks (disk s1) (sv_i sv1))); repeat case_decide; tauto.
  - congruence.
  - congruence.
  - intros c Hc Hn. rewrite B11; [by apply A11|done|]. intros [-> H0]. destruct A6 as [E|E]; [|done]. apply Hn. by rewrite <- E.
Qed.

(** A file that lost entries of its table. *)
Lemma shrinks_intro p sv sv' s s' :
  vol_ok s -> file_ok s p sv -> vol_ok s' -> s_objs s' = <[p := sv']> (s_objs s) ->
  (s_kern s', s_ctx s', s_self s', s_super s', s_superdirty s', s_vnodes s') =
    (s_kern s, s_ctx s, s_self s, s_super s, s_superdirty s, s_vnodes s) ->
  (sv_v sv', sv_ino sv', sfi_type (sv_i sv'), sfi_linkcount (sv_i sv'), sfi_waste (sv_i sv')) =
    (sv_v sv, sv_ino sv, sfi_type (sv_i sv), sfi_linkcount (sv_i sv), sfi_waste (sv_i sv)) ->
  length (sfi_direct (sv_i sv')) = 15%nat ->
  sfi_indirect (sv_i sv') = sfi_indirect (sv_i sv) \/ sfi_indirect (sv_i sv') = 0 ->
  (forall n, (n < NBLOCKS)%nat -> fblock (disk s') (sv_i sv') n = fblock (disk s) (sv_i sv) n \/ fblock (disk s') (sv_i sv') n = 0) ->
  (forall b, 0 <= b -> bit (s_freemap s') b =
    if decide (b ∈ blocks (disk s) (sv_i sv) /\ b ∉ blocks (disk s') (sv_i sv')) then false else bit (s_freemap s) b) ->
  nbits (s_freemap s') = nbits (s_freemap s) -> length (disk s') = length (disk s) ->
  (forall c, 0 <= c -> ~ (c = sfi_indirect (sv_i sv) /\ c <> 0) -> disk s' !! Z.to_nat c = disk s !! Z.to_nat c) ->
  shrinks p sv sv' s s'.
Proof.
  intros V F V' Ho Hr Hsv Hd Hi Hf Hb Hnb Hl Hdk.
  assert (Hsub : forall b, b ∈ blocks (disk s') (sv_i sv') -> b ∈ blocks (disk s) (sv_i sv)).
  { intros b. rewrite (elem_blocks _ _ b Hd), (elem_blocks _ _ b (fo_direct _ _ _ F)). intros [Hb0 H]. split; [done|].
    destruct H as [->|(n & Hn & <-)]; [destruct Hi as [E|E]; [by left|done]|right]. exists n. split; [done|].
    destruct (Hf n Hn) as [E|E]; congruence. }
  assert (Hsup : s_super s' = s_super s) by congruence.
  split; try done. split; [by rewrite Ho, lookup_insert_eq|done| |].
  - apply nodup_blocks; [done|]. pose proof (fo_nodup _ _ _ F) as Hnd.
    apply nodup_blocks in Hnd as [N1 N2]; [|apply F]. split.
    + intros n m Hn Hm H0 E. destruct (Hf n Hn) as [E1|E1]; [|done]. destruct (Hf m Hm) as [E2|E2]; [|congruence].
      apply N1; congruence.
    + intros n Hn H0 E. destruct (Hf n Hn) as [E1|E1]; [|done]. destruct Hi as [E2|E2]; [|congruence].
      apply (N2 n Hn); congruence.
  - intros b Hbb. pose proof (fo_blocks _ _ _ F b (Hsub b Hbb)) as [Hrange Ht]. rewrite Hsup. split; [done|].
    rewrite Hb by lia. rewrite decide_False; [done|]. tauto.
Qed.

(** ** The direct blocks *)

Lemma fblock_set_direct dk i d k x n :
  sfi_direct d = <[k := x]> (sfi_direct i) -> sfi_indirect d = sfi_indirect i -> (k < length (sfi_direct i))%nat ->
  fblock dk d n = if decide (n = k) then x else fblock dk i n.
Proof.
  intros Hd Hi Hk. unfold fblock, ftable. replace (idwords dk d) with (idwords dk i) by (unfold idwords; by rewrite Hi).
  rewrite Hd. rewrite <- insert_app_l by done. case_decide as D1.
  - subst n. rewrite list_lookup_insert_eq; [done|]. rewrite length_app. lia.
  - by rewrite list_lookup_insert_ne.
Qed.

(** The blocks a file lost, from the entries of its table that were cleared. *)
Lemma lost_blocks s p sv dk i (P : nat -> Prop) `{!forall n, Decision (P n)} :
  file_ok s p sv -> length (sfi_direct i) = 15%nat ->
  sfi_indirect i = sfi_indirect (sv_i sv) \/ sfi_indirect i = 0 ->
  (forall n, (n < NBLOCKS)%nat -> fblock dk i n = if decide (P n) then 0 else fblock (disk s) (sv_i sv) n) ->
  forall c, c ∈ blocks (disk s) (sv_i sv) /\ c ∉ blocks dk i <->
    c <> 0 /\ (c = sfi_indirect (sv_i sv) /\ sfi_indirect i = 0 \/
               exists n, (n < NBLOCKS)%nat /\ P n /\ fblock (disk s) (sv_i sv) n = c).
Proof.
  intros F Hd Hi Hf c. rewrite (elem_blocks _ _ c Hd), (elem_blocks _ _ c (fo_direct _ _ _ F)).
  pose proof (fo_nodup _ _ _ F) as Hnd. apply nodup_blocks in Hnd as [N1 N2]; [|apply F]. split.
  - intros [[Hc [->|(n & Hn & <-)]] H2]; (split; [done|]).
    + left. split; [done|]. destruct Hi as [E|]; [|done]. destruct H2. split; [done|]. left. congruence.
    + right. exists n. split; [done|]. split; [|done]. destruct (decide (P n)) as [|HP]; [done|].
      destruct H2. split; [done|]. right. exists n. split; [done|]. rewrite Hf by done. by rewrite decide_False.
  - intros [Hc [[-> Hz]|(n & Hn & HP & <-)]].
    + split; [tauto|]. intros [_ [E|(n & Hn & E)]]; [congruence|]. rewrite Hf in E by done.
      case_decide; [congruence|]. by apply (N2 n Hn); congruence.
    + split; [split; [done|]; right; by exists n|]. intros [_ [E|(m & Hm & E)]].
      * destruct Hi as [Hi|Hi]; [|congruence]. apply (N2 n Hn Hc). congruence.
      * rewrite Hf in E by done. case_decide as D1; [congruence|].
        apply D1. by rewrite (N1 m n Hm Hn ltac:(congruence) E).
Qed.

Lemma truncate_direct_spec s p sv (bl : Z) (k : nat) :
  vol_ok s -> file_ok s p sv -> (k < 15)%nat ->
  exists sv' s', truncate_direct p bl (Z.of_nat k) s = Done tt s' /\ shrinks p sv sv' s s' /\ disk s' = disk s /\
    sfi_size (sv_i sv') = sfi_size (sv_i sv) /\ sfi_indirect (sv_i sv') = sfi_indirect (sv_i sv) /\
    forall n, (n < NBLOCKS)%nat -> fblock (disk s') (sv_i sv') n =
      if decide (n = k /\ bl <= Z.of_nat k) then 0 else fblock (disk s) (sv_i sv) n.
Proof.
  intros V F Hk. pose proof (fo_direct _ _ _ F) as Hd.
  destruct (lookup_lt_is_Some_2 (sfi_direct (sv_i sv)) k ltac:(lia)) as [b Hb].
  assert (Hfb : fblock (disk s) (sv_i sv) k = b) by (unfold fblock, ftable; by rewrite lookup_app_l, Hb by lia).
  unfold truncate_direct. rewrite (bind_Done _ _ _ _ _ (get_sv_eq s p sv (fo_obj _ _ _ F))).
  rewrite (bind_Done _ _ s b s) by (unfold access; by rewrite zlookup_nat, Hb).
  destruct (decide (bl <= Z.of_nat k)) as [Hbl|Hbl]; [destruct (decide (b = 0)) as [Hz|Hz]|].
  2:{ rewrite decide_True by (split; [lia|done]). assert (Hk' : (k < NBLOCKS)%nat) by (unfold NBLOCKS; lia).
      destruct (file_ok_range s p sv k F Hk') as [|[Hr Ht]]; [congruence|]. cbv zeta in *. rewrite Hfb in Hr, Ht.
      destruct (sfs_bfree_spec s b V Hr Ht) as (fm & Ef & Hset & V1).
      rewrite (bind_Done _ _ _ _ _ Ef). rewrite (bind_Done _ _ _ (<[k := 0]> (sfi_direct (sv_i sv))) (with_map (s_dev s) fm s)) by
        (unfold access; rewrite zinsert_in by lia; by rewrite Nat2Z.id).
      set (i := set_direct (<[k := 0]> (sfi_direct (sv_i sv))) (sv_i sv)).
      exists (dirty_i i sv). eexists. split; [done|].
      assert (Hf : forall n, fblock (disk s) i n = if decide (n = k) then 0 else fblock (disk s) (sv_i sv) n)
        by (intros n; apply fblock_set_direct; [done|done|lia]).
      split; [|split; [done|split; [done|split; [done|]]]].
      - apply shrinks_intro; try done.
        + by apply vol_ok_objs.
        + simpl. by rewrite length_insert.
        + by left.
        + intros n Hn. simpl. change (disk (set_objs _ _)) with (disk s). rewrite Hf. case_decide; [by right|by left].
        + intros c Hc. simpl. change (disk (set_objs _ _)) with (disk s).
          pose proof (lost_blocks s p sv (disk s) i (fun n => n = k) F ltac:(simpl; by rewrite length_insert)
            (or_introl eq_refl) ltac:(intros; apply Hf) c) as Hde.
          destruct (decide (c = b)) as [->|Hcb].
          * rewrite decide_True; [apply (bs_bit _ _ _ _ Hset)|]. apply Hde. split; [done|]. right. by exists k.
          * rewrite decide_False; [by apply (bs_other _ _ _ _ Hset)|]. rewrite Hde.
            intros [Hc0 [[-> E0]|(n & _ & -> & E0)]]; [simpl in E0; congruence|congruence].
        + apply (bs_nbits _ _ _ _ Hset).
      - intros n Hn. simpl. change (disk (set_objs _ _)) with (disk s). rewrite Hf. repeat case_decide; try done; tauto. }
  - rewrite decide_False by tauto. exists sv, s. split; [done|]. split; [by apply shrinks_refl|]. repeat (split; [done|]).
    intros n Hn. case_decide as D1; [|done]. destruct D1 as [-> _]. congruence.
  - rewrite decide_False by (intros [? _]; lia). exists sv, s. split; [done|]. split; [by apply shrinks_refl|].
    repeat (split; [done|]). intros n Hn. rewrite decide_False; [done|]. tauto.
Qed.

Lemma truncate_direct_loop m k s p sv bl :
  vol_ok s -> file_ok s p sv -> (k + m = 15)%nat ->
  exists sv' s', for_n m (Z.of_nat k) (truncate_direct p bl) s = Done tt s' /\ shrinks p sv sv' s s' /\ disk s' = disk s /\
    sfi_size (sv_i sv') = sfi_size (sv_i sv) /\ sfi_indirect (sv_i sv') = sfi_indirect (sv_i sv) /\
    forall n, (n < NBLOCKS)%nat -> fblock (disk s') (sv_i sv') n =
      if decide ((k <= n < 15)%nat /\ bl <= Z.of_nat n) then 0 else fblock (disk s) (sv_i sv) n.
Proof.
  revert k s sv. induction m as [|m IH]; intros k s sv V F Hk.
  - exists sv, s. split; [done|]. split; [by apply shrinks_refl|]. repeat (split; [done|]). intros n Hn.
    rewrite decide_False by lia. done.
  - destruct (truncate_direct_spec s p sv bl k V F ltac:(lia)) as (sv1 & s1 & E & S1 & Hd1 & Hs1 & Hi1 & Hf1).
    destruct (IH (S k) s1 sv1 (sh_vol _ _ _ _ _ S1) (sh_file _ _ _ _ _ S1) ltac:(lia)) as (sv2 & s2 & E2 & S2 & Hd2 & Hs2 & Hi2 & Hf2).
    exists sv2, s2. cbn [for_n]. rewrite (bind_Done _ _ _ _ _ E). replace (Z.of_nat k + 1) with (Z.of_nat (S k)) by lia.
    split; [done|]. split; [by eapply shrinks_trans|]. split; [congruence|]. split; [congruence|]. split; [congruence|].
    intros n Hn. rewrite Hf2, Hf1 by done. repeat case_decide; try done; lia.
Qed.


(** ** The indirect block *)

Definition wat (ws : list Z) (n : nat) : Z := default 0 (ws !! n).

Definition map_only (fd : bool) (fm : bitmap) s : sfs := set_freemapdirty fd (set_freemap fm s).

(** The loop drops the words past the end, from [k] on, and frees their blocks. *)
Record words_dropped (bl : Z) (k : nat) (ws ws' : list Z) (fm fm' : bitmap) : Prop := {
  wd_len : length ws' = length ws;
  wd_words : forall n, (n < 128)%nat ->
    wat ws' n = if decide ((k <= n)%nat /\ bl < 15 + Z.of_nat n) then 0 else wat ws n;
  wd_freed : forall n, (k <= n < 128)%nat -> bl < 15 + Z.of_nat n -> wat ws n <> 0 -> bit fm' (wat ws n) = false;
  wd_kept : forall b, 0 <= b ->
    (forall n, (k <= n < 128)%nat -> bl < 15 + Z.of_nat n -> wat ws n <> 0 -> wat ws n <> b) -> bit fm' b = bit fm b;
  wd_nbits : nbits fm' = nbits fm;
}.

Definition words_used (k : nat) (ws : list Z) s : Prop :=
  forall n, (k <= n < 128)%nat -> wat ws n <> 0 ->
    (0 < wat ws n < sp_nblocks (s_super s) /\ bit (s_freemap s) (wat ws n) = true) /\
    forall m, (k <= m < 128)%nat -> wat ws n = wat ws m -> n = m.

Lemma wat_insert ws k n : (k < length ws)%nat -> wat (<[k := 0]> ws) n = if decide (n = k) then 0 else wat ws n.
Proof.
  intros Hk. unfold wat. case_decide as D1.
  - subst. by rewrite list_lookup_insert_eq.
  - by rewrite list_lookup_insert_ne.
Qed.

Lemma truncate_indirect_spec m k s bl ws hz idd :
  vol_ok s -> (k + m = 128)%nat -> length ws = 128%nat -> words_used k ws s ->
  exists fd fm ws' hz' idd',
    truncate_indirect m (Z.of_nat k) bl ws hz idd s = Done (ws', hz', idd') (map_only fd fm s) /\
    vol_ok (map_only fd fm s) /\ words_dropped bl k ws ws' (s_freemap s) fm /\
    (hz' = true <-> hz = true \/ exists n, (k <= n < 128)%nat /\ wat ws' n <> 0) /\
    (idd' = false -> idd = false /\ ws' = ws).
Proof.
  revert k s ws hz idd. induction m as [|m IH]; intros k s ws hz idd V Hk Hl Hu.
  { exists (s_freemapdirty s), (s_freemap s), ws, hz, idd. split; [by destruct s|]. split; [by destruct s|].
    split; [|split; [|done]].
    - split; try done; [|intros; lia]. intros n Hn. rewrite decide_False; [done|lia].
    - split; [by left|]. intros [|(n & Hn & _)]; [done|lia]. }
  cbn [truncate_indirect]. destruct (lookup_lt_is_Some_2 ws k ltac:(lia)) as [b Hb].
  assert (Hwb : wat ws k = b) by (unfold wat; by rewrite Hb).
  rewrite (bind_Done _ _ s b s) by (unfold access; by rewrite zlookup_nat, Hb).
  change SFS_NDIRECT with 15. replace (Z.of_nat k + 1) with (Z.of_nat (S k)) by lia.
  destruct (decide (bl < 15 + Z.of_nat k /\ b <> 0)) as [[Hbl Hz]|Hno].
  - destruct (Hu k ltac:(lia) ltac:(by rewrite Hwb)) as [[Hr Ht] Hinj]. rewrite Hwb in Hr, Ht.
    destruct (sfs_bfree_spec s b V Hr Ht) as (fm & Ef & Hset & V1). rewrite (bind_Done _ _ _ _ _ Ef).
    rewrite (bind_Done _ _ _ (<[k := 0]> ws) (with_map (s_dev s) fm s)) by
      (unfold access; rewrite zinsert_in by lia; by rewrite Nat2Z.id).
    assert (Hw : forall n, wat (<[k := 0]> ws) n = if decide (n = k) then 0 else wat ws n) by (intros; apply wat_insert; lia).
    assert (Hwne : forall n, (S k <= n)%nat -> wat (<[k := 0]> ws) n = wat ws n).
    { intros n Hn. rewrite Hw. by rewrite decide_False by lia. }
    destruct (IH (S k) (with_map (s_dev s) fm s) (<[k := 0]> ws) hz true V1 ltac:(lia) ltac:(by rewrite length_insert))
      as (fd & fm' & ws' & hz' & idd' & E & V2 & [W1 W2 W3 W4 W5] & Hhz & Hid).
    { intros n Hn. rewrite Hwne by lia. intros H0. destruct (Hu n ltac:(lia) H0) as [[Hr' Ht'] Hi']. split.
      - split; [done|]. simpl. rewrite (bs_other _ _ _ _ Hset); [done|lia|]. intros E.
        specialize (Hi' k ltac:(lia) ltac:(congruence)). lia.
      - intros j Hj. rewrite Hwne by lia. intros E. apply Hi'; [lia|done]. }
    exists fd, fm', ws', hz', idd'. split; [exact E|]. split; [exact V2|]. simpl in *.
    split; [|split].
    + split.
      * by rewrite W1, length_insert.
      * intros n Hn. rewrite W2, Hw by done. repeat case_decide; try done; try lia.
      * intros n Hn Hb' H0. destruct (decide (n = k)) as [->|Hnk].
        -- rewrite Hwb. rewrite W4; [apply (bs_bit _ _ _ _ Hset)|lia|]. intros j Hj _ _. rewrite Hwne by lia. intros E1.
           specialize (Hinj j ltac:(lia) ltac:(congruence)). lia.
        -- specialize (W3 n ltac:(lia) Hb'). rewrite Hwne in W3 by lia. auto.
      * intros c Hc H. rewrite W4; [|done|].
        -- apply (bs_other _ _ _ _ Hset); [done|]. intros ->. apply (H k); [lia|done|by rewrite Hwb|done].
        -- intros j Hj. rewrite Hwne by lia. apply H. lia.
      * by rewrite W5, (bs_nbits _ _ _ _ Hset).
    + rewrite Hhz. split; (intros [|(n & Hn & H0)]; [by left|right]).
      * exists n. split; [lia|done].
      * exists n. split; [|done]. destruct (decide (n = k)) as [->|]; [|lia].
        rewrite W2, Hw in H0 by lia. rewrite (decide_True (P := k = k)) in H0 by done.
        rewrite decide_False in H0 by lia. done.
    + intros Hf. by destruct (Hid Hf).
  - destruct (IH (S k) s ws (hz || bool_decide (b <> 0)) idd V ltac:(lia) Hl) as
      (fd & fm & ws' & hz' & idd' & E & V2 & [W1 W2 W3 W4 W5] & Hhz & Hid).
    { intros n Hn H0. destruct (Hu n ltac:(lia) H0) as [? Hi]. split; [done|]. intros j Hj. apply Hi. lia. }
    assert (Hwk : wat ws' k = b) by (rewrite W2 by lia; rewrite decide_False by lia; done).
    exists fd, fm, ws', hz', idd'. split; [exact E|]. split; [exact V2|]. split; [|split; [|done]].
    + split; try done.
      * intros n Hn. destruct (decide (n = k)) as [->|Hnk]; [rewrite Hwk, Hwb|rewrite W2 by done].
        -- destruct (decide (b = 0)) as [->|Hb0]; [by destruct (decide (_ /\ _))|]. rewrite decide_False by tauto. done.
        -- clear E Hhz. repeat case_decide; try done; lia.
      * intros n Hn Hbl H0. destruct (decide (n = k)) as [->|Hnk]; [|apply W3; [lia|done|done]].
        rewrite Hwb in H0. tauto.
      * intros c Hc H. apply W4; [done|]. intros n Hn. apply H. lia.
    + rewrite Hhz, orb_true_iff, bool_decide_eq_true. split.
      * intros [[|H0]|(n & Hn & H0)]; [by left|right; exists k; rewrite Hwk; split; [lia|done]|right; exists n; split; [lia|done]].
      * intros [|(n & Hn & H0)]; [by left; left|]. destruct (decide (n = k)) as [->|Hnk]; [left; right; congruence|].
        right. exists n. split; [lia|done].
Qed.


Lemma wat_idwords dk i n : length (sfi_direct i) = 15%nat -> wat (idwords dk i) n = fblock dk i (15 + n).
Proof. intros Hd. unfold wat, fblock, ftable. rewrite lookup_app_r by lia. by rewrite Hd, Nat.add_comm, Nat.add_sub. Qed.

Definition past (bl : Z) (n : nat) : Prop := (15 <= n)%nat /\ bl < Z.of_nat n.

#[local] Instance past_dec bl n : Decision (past bl n).
Proof. unfold past. apply _. Defined.

Lemma idwords_used s p sv : file_ok s p sv -> words_used 0 (idwords (disk s) (sv_i sv)) s.
Proof.
  intros F n Hn. rewrite wat_idwords by apply F. intros H0. assert (Hn' : (15 + n < NBLOCKS)%nat) by (unfold NBLOCKS; lia).
  split; [by destruct (file_ok_range s p sv (15 + n) F Hn')|]. intros m Hm. rewrite wat_idwords by apply F. intros E.
  pose proof (fblock_inj s p sv (15 + n) (15 + m) F Hn' ltac:(unfold NBLOCKS; lia) H0 E). lia.
Qed.

(** The bits after the loop, and after the indirect block was freed if it was. *)
Lemma dropped_bits s p sv dk i bl ws' fm fm' :
  file_ok s p sv -> length (sfi_direct i) = 15%nat -> sfi_indirect (sv_i sv) <> 0 ->
  sfi_indirect i = sfi_indirect (sv_i sv) \/ sfi_indirect i = 0 ->
  (forall n, (n < NBLOCKS)%nat -> fblock dk i n = if decide (past bl n) then 0 else fblock (disk s) (sv_i sv) n) ->
  words_dropped bl 0 (idwords (disk s) (sv_i sv)) ws' (s_freemap s) fm ->
  (forall c, 0 <= c -> bit fm' c = if decide (c = sfi_indirect (sv_i sv) /\ sfi_indirect i = 0) then false else bit fm c) ->
  forall c, 0 <= c -> bit fm' c =
    if decide (c ∈ blocks (disk s) (sv_i sv) /\ c ∉ blocks dk i) then false else bit (s_freemap s) c.
Proof.
  intros F Hd H0 Hi Hf W Hm c Hc. rewrite Hm by done.
  pose proof (lost_blocks s p sv dk i (past bl) F Hd Hi Hf c) as Hl.
  destruct (decide (c = sfi_indirect (sv_i sv) /\ sfi_indirect i = 0)) as [[-> Hz]|Hn].
  { rewrite decide_True; [done|]. apply Hl. split; [done|]. by left. }
  destruct (decide (c ∈ blocks (disk s) (sv_i sv) /\ c ∉ blocks dk i)) as [Hlost|Hlost].
  - apply Hl in Hlost as [Hc0 [?|(n & Hn' & [H15 Hbl] & <-)]]; [done|].
    pose proof (wd_freed _ _ _ _ _ _ W (n - 15)) as Hw. rewrite wat_idwords in Hw by apply F.
    replace (15 + (n - 15))%nat with n in Hw by lia. unfold NBLOCKS in Hn'. apply Hw; [lia|lia|done].
  - apply (wd_kept _ _ _ _ _ _ W); [done|]. intros n Hn' Hbl. rewrite wat_idwords by apply F. intros Hnz <-.
    apply Hlost, Hl. split; [done|]. right. exists (15 + n)%nat. unfold past, NBLOCKS. split; [lia|]. split; [lia|done].
Qed.

Lemma dropped_words s sv bl ws' fm n :
  length (sfi_direct (sv_i sv)) = 15%nat ->
  words_dropped bl 0 (idwords (disk s) (sv_i sv)) ws' (s_freemap s) fm -> (n < 128)%nat ->
  wat ws' n = if decide (past bl (15 + n)) then 0 else fblock (disk s) (sv_i sv) (15 + n).
Proof.
  intros Hd W Hn. rewrite (wd_words _ _ _ _ _ _ W) by done. rewrite wat_idwords by done.
  unfold past. repeat case_decide; try done; lia.
Qed.

(** A table whose direct part is kept and whose indirect part is [ws']. *)
Lemma past_table s sv dk i bl ws' fm :
  length (sfi_direct (sv_i sv)) = 15%nat -> sfi_direct i = sfi_direct (sv_i sv) ->
  words_dropped bl 0 (idwords (disk s) (sv_i sv)) ws' (s_freemap s) fm ->
  (forall n, (n < 128)%nat -> wat (idwords dk i) n = wat ws' n) ->
  forall n, (n < NBLOCKS)%nat -> fblock dk i n = if decide (past bl n) then 0 else fblock (disk s) (sv_i sv) n.
Proof.
  intros Hd Hi W Hw n Hn. unfold NBLOCKS in Hn. destruct (decide (n < 15)%nat) as [Hlt|Hge].
  - rewrite decide_False by (unfold past; lia). unfold fblock, ftable. rewrite Hi, !lookup_app_l by lia. done.
  - replace n with (15 + (n - 15))%nat by lia. rewrite <- wat_idwords by congruence. rewrite Hw by lia.
    apply (dropped_words s sv bl ws' fm); [done|done|lia].
Qed.


Lemma shrinks_past p sv sv' s s' bl ws' fm :
  vol_ok s -> file_ok s p sv -> sfi_indirect (sv_i sv) <> 0 -> vol_ok s' -> s_objs s' = <[p := sv']> (s_objs s) ->
  (s_kern s', s_ctx s', s_self s', s_super s', s_superdirty s', s_vnodes s') =
    (s_kern s, s_ctx s, s_self s, s_super s, s_superdirty s, s_vnodes s) ->
  (sv_v sv', sv_ino sv', sfi_type (sv_i sv'), sfi_linkcount (sv_i sv'), sfi_waste (sv_i sv')) =
    (sv_v sv, sv_ino sv, sfi_type (sv_i sv), sfi_linkcount (sv_i sv), sfi_waste (sv_i sv)) ->
  sfi_direct (sv_i sv') = sfi_direct (sv_i sv) ->
  sfi_indirect (sv_i sv') = sfi_indirect (sv_i sv) \/ sfi_indirect (sv_i sv') = 0 ->
  words_dropped bl 0 (idwords (disk s) (sv_i sv)) ws' (s_freemap s) fm ->
  (forall n, (n < 128)%nat -> wat (idwords (disk s') (sv_i sv')) n = wat ws' n) ->
  (forall c, 0 <= c -> bit (s_freemap s') c =
     if decide (c = sfi_indirect (sv_i sv) /\ sfi_indirect (sv_i sv') = 0) then false else bit fm c) ->
  nbits (s_freemap s') = nbits fm -> length (disk s') = length (disk s) ->
  (forall c, 0 <= c -> ~ (c = sfi_indirect (sv_i sv) /\ c <> 0) -> disk s' !! Z.to_nat c = disk s !! Z.to_nat c) ->
  shrinks p sv sv' s s' /\
  forall n, (n < NBLOCKS)%nat ->
    fblock (disk s') (sv_i sv') n = if decide (past bl n) then 0 else fblock (disk s) (sv_i sv) n.
Proof.
  intros V F H0 V' Ho Hr Hsv Hd Hi W Hw Hb Hnb Hl Hdk. pose proof (fo_direct _ _ _ F) as H15.
  pose proof (past_table s sv (disk s') (sv_i sv') bl ws' fm H15 Hd W Hw) as Hf. split; [|exact Hf].
  apply shrinks_intro; try done.
  - by rewrite Hd.
  - intros n Hn. rewrite Hf by done. destruct (decide (past bl n)); [by right|by left].
  - by apply (dropped_bits s p sv (disk s') (sv_i sv') bl ws' fm (s_freemap s') F ltac:(by rewrite Hd) H0 Hi Hf W).
  - by rewrite Hnb, (wd_nbits _ _ _ _ _ _ W).
Qed.

Lemma dropped_ok bl ws ws' fm fm' :
  length ws = 128%nat -> Forall word_ok ws -> words_dropped bl 0 ws ws' fm fm' -> Forall word_ok ws'.
Proof.
  intros Hl Hw W. apply Forall_lookup. intros n x Hx. pose proof (lookup_lt_Some _ _ _ Hx) as Hn.
  rewrite (wd_len _ _ _ _ _ _ W), Hl in Hn. pose proof (wd_words _ _ _ _ _ _ W n Hn) as E. unfold wat in E.
  rewrite Hx in E. simpl in E. rewrite E. case_decide; [unfold word_ok; lia|].
  destruct (lookup_lt_is_Some_2 ws n ltac:(lia)) as [y Hy]. rewrite Hy. rewrite Forall_lookup in Hw. by eapply Hw.
Qed.

(** What is done with the indirect block leaves the file with the entries before the
    limit; when none of the indirect entries is left, without an indirect block. *)
Definition tail_dropped (p bl : Z) (sv : sfs_vnode) s (r : outcome sfs unit) : Prop :=
  exists sv' s', shrinks p sv sv' s s' /\ sfi_size (sv_i sv') = sfi_size (sv_i sv) /\
    ((r = Done tt s' /\
      (forall n, (n < NBLOCKS)%nat ->
         fblock (disk s') (sv_i sv') n = if decide (past bl n) then 0 else fblock (disk s) (sv_i sv) n) /\
      (bl < 142 -> (forall n, (15 <= n < NBLOCKS)%nat -> fblock (disk s') (sv_i sv') n = 0) -> sfi_indirect (sv_i sv') = 0)) \/
     (r = Fail EIO s' /\ sv' = sv /\ disk s' = disk s)).


Lemma truncate_idblock_free s p sv bl fd fm d ws' :
  vol_ok s -> file_ok s p sv -> sfi_indirect (sv_i sv) <> 0 -> same_data (s_dev s) d ->
  vol_ok (map_only fd fm (set_dev d s)) -> words_dropped bl 0 (idwords (disk s) (sv_i sv)) ws' (s_freemap s) fm ->
  (forall n, (n < 128)%nat -> wat ws' n = 0) ->
  tail_dropped p bl sv s ((sfs_bfree (sfi_indirect (sv_i sv)) ;;
    sv ← get_sv p; put_sv p (dirty_i (set_indirect 0 (sv_i sv)) sv)) (map_only fd fm (set_dev d s))).
Proof.
  intros V F H0 [_ Hd] V2 W Hz. set (s2 := map_only fd fm (set_dev d s)) in *.
  destruct (indirect_range s p sv F) as [|[Hr Ht]]; [done|].
  assert (Ht2 : bit (s_freemap s2) (sfi_indirect (sv_i sv)) = true).
  { rewrite <- Ht. apply (wd_kept _ _ _ _ _ _ W); [lia|]. intros n Hn _. rewrite wat_idwords by apply F.
    intros Hnz. apply (fblock_indirect s p sv); [done|unfold NBLOCKS; lia|done]. }
  destruct (sfs_bfree_spec s2 (sfi_indirect (sv_i sv)) V2 Hr Ht2) as (fm' & Ef & Hset & V3).
  rewrite (bind_Done _ _ _ _ _ Ef). rewrite (bind_Done _ _ _ sv (with_map (s_dev s2) fm' s2)) by (apply get_sv_eq, F).
  set (sv' := dirty_i (set_indirect 0 (sv_i sv)) sv).
  destruct (shrinks_past p sv sv' s (set_objs (<[p := sv']> (s_objs s)) (with_map (s_dev s2) fm' s2)) bl ws' fm) as [Hs Hf];
    try done; unfold disk in *; simpl; rewrite ?Hd; try done.
  - by apply vol_ok_objs.
  - by right.
  - intros n Hn. unfold idwords. rewrite decide_True by done. rewrite Hz by done. unfold wat.
    rewrite lookup_replicate_2; [done|]. by vm_compute (Z.to_nat SFS_DBPERIDB).
  - intros c Hc. destruct (decide (c = sfi_indirect (sv_i sv))) as [->|Hne].
    + rewrite decide_True by done. apply (bs_bit _ _ _ _ Hset).
    + rewrite decide_False by tauto. by apply (bs_other _ _ _ _ Hset).
  - apply (bs_nbits _ _ _ _ Hset).
  - eexists sv', _. split; [exact Hs|]. split; [done|]. left. split; [done|]. split; [exact Hf|]. done.
Qed.

Lemma dropped_nonzero s sv bl ws' fm sv' s' :
  length (sfi_direct (sv_i sv)) = 15%nat -> 
  words_dropped bl 0 (idwords (disk s) (sv_i sv)) ws' (s_freemap s) fm ->
  (forall n, (n < NBLOCKS)%nat ->
     fblock (disk s') (sv_i sv') n = if decide (past bl n) then 0 else fblock (disk s) (sv_i sv) n) ->
  (exists n, (0 <= n < 128)%nat /\ wat ws' n <> 0) ->
  exists n, (15 <= n < NBLOCKS)%nat /\ fblock (disk s') (sv_i sv') n <> 0.
Proof.
  intros Hd W Hf (n & Hn & H0). exists (15 + n)%nat. split; [unfold NBLOCKS; lia|]. rewrite Hf by (unfold NBLOCKS; lia).
  by rewrite <- (dropped_words s sv bl ws' fm n Hd W) by lia.
Qed.

Lemma truncate_idblock_write s p sv bl fd fm d ws' :
  vol_ok s -> file_ok s p sv -> sfi_indirect (sv_i sv) <> 0 -> same_data (s_dev s) d ->
  vol_ok (map_only fd fm (set_dev d s)) -> words_dropped bl 0 (idwords (disk s) (sv_i sv)) ws' (s_freemap s) fm ->
  (exists n, (0 <= n < 128)%nat /\ wat ws' n <> 0) ->
  tail_dropped p bl sv s (sfs_wblock (bytes_of ws') (sfi_indirect (sv_i sv)) (map_only fd fm (set_dev d s))).
Proof.
  intros V F H0 [_ Hd] V2 W Hnz. set (s2 := map_only fd fm (set_dev d s)) in *.
  destruct (indirect_range s p sv F) as [|[Hr Ht]]; [done|]. pose proof (vo_blocks _ V) as Hnb. pose proof (vo_max _ V) as Hmax.
  destruct (sector_of s (sfi_indirect (sv_i sv)) V ltac:(lia)) as [x Hx].
  assert (Hlw : length ws' = 128%nat) by (rewrite (wd_len _ _ _ _ _ _ W); apply length_idwords).
  assert (Hdk : disk s2 = disk s) by exact Hd.
  destruct (sfs_wblock_spec s2 (bytes_of ws') (Z.to_nat (sfi_indirect (sv_i sv))) x V2) as (d' & E & Hd' & Hs').
  { by rewrite length_bytes_of, Hlw. }
  { lia. }
  { by rewrite Hdk. }
  rewrite Z2Nat.id in E by lia. rewrite E. pose proof (lookup_lt_Some _ _ _ Hx) as Hlt. rewrite Hdk in Hs'.
  destruct (shrinks_past p sv sv s (set_dev d' s2) bl ws' fm) as [Hs Hf]; try done; unfold disk in *; simpl; rewrite ?Hs'.
  - by eapply (vol_ok_write s2); [done|done|]; unfold disk; rewrite Hdk.
  - by rewrite insert_id by apply F.
  - by left.
  - intros n Hn. unfold idwords. rewrite decide_False by done. rewrite blk_insert by lia.
    pose proof (words_of_bytes_of ws' []) as Hwb. rewrite app_nil_r, Hlw in Hwb.
    change (Z.to_nat SFS_DBPERIDB) with 128%nat. rewrite Hwb; [done|]. eapply dropped_ok; [apply length_idwords| |exact W].
    unfold idwords. rewrite decide_False by done. apply words_of_ok.
  - intros c Hc. by rewrite decide_False by tauto.
  - by rewrite length_insert.
  - intros c Hc Hne. rewrite list_lookup_insert_ne; [done|]. intros E1. apply Hne. split; [lia|]. intros ->. lia.
  - eexists sv, _. split; [exact Hs|]. split; [done|]. left. split; [done|]. split; [exact Hf|]. intros _ Hall.
    destruct (dropped_nonzero s sv bl ws' fm sv (set_dev d' s2) (fo_direct _ _ _ F) W Hf Hnz) as (n & Hn & Hne).
    by rewrite Hall in Hne.
Qed.


Lemma truncate_idblock_none s p sv bl fd fm d ws' :
  vol_ok s -> file_ok s p sv -> sfi_indirect (sv_i sv) <> 0 -> same_data (s_dev s) d ->
  vol_ok (map_only fd fm (set_dev d s)) -> words_dropped bl 0 (idwords (disk s) (sv_i sv)) ws' (s_freemap s) fm ->
  ws' = idwords (disk s) (sv_i sv) -> (exists n, (0 <= n < 128)%nat /\ wat ws' n <> 0) ->
  tail_dropped p bl sv s (Done tt (map_only fd fm (set_dev d s))).
Proof.
  intros V F H0 [_ Hd] V2 W Ews Hnz. set (s2 := map_only fd fm (set_dev d s)) in *.
  assert (Hdk : disk s2 = disk s) by exact Hd.
  destruct (shrinks_past p sv sv s s2 bl ws' fm) as [Hs Hf]; rewrite ?Hdk; try done.
  - simpl. by rewrite insert_id by apply F.
  - by left.
  - intros n Hn. by rewrite Ews.
  - intros c Hc. by rewrite decide_False by tauto.
  - exists sv, s2. split; [exact Hs|]. split; [done|]. left. split; [done|]. split; [exact Hf|]. intros _ Hall.
    destruct (dropped_nonzero s sv bl ws' fm sv s2 (fo_direct _ _ _ F) W Hf Hnz) as (n & Hn & Hne). by rewrite Hall in Hne.
Qed.

Lemma shrinks_dev s p sv d : vol_ok s -> file_ok s p sv -> same_data (s_dev s) d -> shrinks p sv sv s (set_dev d s).
Proof.
  intros V F Hd. pose proof Hd as [_ Hs]. assert (Hdk : disk (set_dev d s) = disk s) by exact Hs.
  split; rewrite ?Hdk; try done; [by apply vol_ok_dev|by eapply file_ok_dev|simpl; by rewrite insert_id by apply F|by left|].
  intros b Hb. rewrite decide_False; [done|]. tauto.
Qed.

Lemma truncate_idblock_spec s p sv bl :
  vol_ok s -> file_ok s p sv -> 0 <= bl -> tail_dropped p bl sv s (truncate_idblock p bl (sfi_indirect (sv_i sv)) s).
Proof.
  intros V F Hbl. unfold truncate_idblock. change (SFS_NDIRECT + SFS_DBPERIDB - 1) with 142.
  destruct (decide (bl < 142 /\ sfi_indirect (sv_i sv) <> 0)) as [[Hlt H0]|Hno].
  2:{ exists sv, s. split; [by apply shrinks_refl|]. split; [done|]. left. split; [done|]. split; [|intros Hlt _; destruct (decide (sfi_indirect (sv_i sv) = 0)); tauto].
      intros n Hn. destruct (decide (past bl n)) as [[P1 P2]|]; [|done].
      assert (Hi : sfi_indirect (sv_i sv) = 0).
      { destruct (decide (sfi_indirect (sv_i sv) = 0)); [done|]. destruct Hno. split; [unfold NBLOCKS in Hn; lia|done]. }
      replace n with (15 + (n - 15))%nat by lia. rewrite <- wat_idwords by apply F. unfold idwords. rewrite decide_True by done.
      unfold wat. by destruct (replicate _ _ !! _) eqn:E; [apply lookup_replicate in E as [-> _]|]. }
  destruct (indirect_range s p sv F) as [|[Hr Ht]]; [done|]. pose proof (vo_blocks _ V) as Hnb. pose proof (vo_max _ V).
  destruct (sector_of s (sfi_indirect (sv_i sv)) V ltac:(lia)) as [x Hx].
  destruct (sfs_rblock_spec s zero_block (Z.to_nat (sfi_indirect (sv_i sv))) x V eq_refl ltac:(lia) Hx) as (d & Hd & [E|E]);
    rewrite Z2Nat.id in E by lia.
  2:{ exists sv, (set_dev d s). split; [by apply shrinks_dev|]. split; [done|]. right. rewrite (bind_Fail _ _ _ _ _ E).
      split; [done|]. split; [done|]. apply Hd. }
  rewrite (bind_Done _ _ _ _ _ E).
  assert (Ew : words_of (Z.to_nat SFS_DBPERIDB) x = idwords (disk s) (sv_i sv)).
  { unfold idwords. rewrite decide_False by done. unfold blk. by rewrite Hx. }
  rewrite Ew. pose proof (idwords_used s p sv F) as Hu.
  destruct (truncate_indirect_spec 128 0 (set_dev d s) bl (idwords (disk s) (sv_i sv)) false false
    ltac:(by apply vol_ok_dev) eq_refl ltac:(apply length_idwords) Hu) as (fd & fm & ws' & hz & idd & E2 & V2 & W & Hhz & Hid).
  change (Z.to_nat SFS_DBPERIDB) with 128%nat. change 0 with (Z.of_nat 0) at 1. rewrite (bind_Done _ _ _ _ _ E2).
  destruct hz; simpl negb; cbv iota.
  - assert (Hnz : exists n, (0 <= n < 128)%nat /\ wat ws' n <> 0) by (by destruct Hhz as [[|] _]).
    destruct idd; [by apply truncate_idblock_write|]. destruct (Hid eq_refl). by apply (truncate_idblock_none s p sv bl fd fm d ws').
  - apply (truncate_idblock_free s p sv bl fd fm d ws'); try done. intros n Hn.
    destruct (decide (wat ws' n = 0)); [done|]. destruct Hhz as [_ Hc]. discriminate Hc. right. exists n. split; [lia|done].
Qed.


(** ** The whole operation *)

Definition blocklen (len : Z) : Z := (len + 511) / 512.

(** The blocks past the new end of the file. *)
Definition dropped (len : Z) (n : nat) : Prop := blocklen len <= Z.of_nat n.

#[global] Instance dropped_dec len n : Decision (dropped len n).
Proof. unfold dropped. apply _. Defined.

(** The ones of them the two loops find: a direct entry at or past the limit, an indirect
    entry past it. *)
Definition found (len : Z) (n : nat) : Prop := dropped len n /\ ((n < 15)%nat \/ blocklen len < Z.of_nat n).

#[global] Instance found_dec len n : Decision (found len n).
Proof. unfold found. apply _. Defined.

Lemma fblock_size dk z i n : fblock dk (set_size z i) n = fblock dk i n.
Proof. done. Qed.

Lemma shrinks_size p sv sv' s s' z :
  shrinks p sv sv' s s' ->
  let sv'' := dirty_i (set_size z (sv_i sv')) sv' in
  shrinks p sv sv'' s (set_objs (<[p := sv'']> (s_objs s')) s').
Proof.
  intros [A1 A2 A3 A4 A5 A6 A7 A8 A9 A10 A11] sv''. destruct A2 as [F1 F2 F3 F4].
  split; try done; [by apply vol_ok_objs| |simpl; by rewrite A3, insert_insert_eq].
  split; try done. simpl. by rewrite lookup_insert_eq.
Qed.

(** The bytes of the blocks that stay are the ones that were there. *)
Lemma shrinks_bytes p sv sv' s s' pos :
  file_ok s p sv -> shrinks p sv sv' s s' -> (pos / 512 < NBLOCKS)%nat ->
  fblock (disk s') (sv_i sv') (pos / 512) = fblock (disk s) (sv_i sv) (pos / 512) ->
  fbyte (disk s') (sv_i sv') pos = fbyte (disk s) (sv_i sv) pos.
Proof.
  intros F Hs Hn E. unfold fbyte. rewrite E. case_decide as D0; [done|].
  rewrite (blk_same (disk s)); [done|]. destruct (file_ok_range s p sv _ F Hn) as [|[Hr _]]; [done|].
  apply (sh_disk _ _ _ _ _ Hs); [lia|]. intros [Ei _]. by eapply fblock_indirect.
Qed.

Lemma truncate_blocklen len :
  0 <= len < 2 ^ 31 - 511 -> u32 (Z.quot (s32 (len + SFS_BLOCKSIZE - 1)) SFS_BLOCKSIZE) = blocklen len.
Proof.
  intros Hl. change SFS_BLOCKSIZE with 512. replace (len + 512 - 1) with (len + 511) by lia.
  rewrite s32_small by lia. rewrite Z.quot_div_nonneg by lia. unfold u32, blocklen. apply Z.mod_small. dlia.
Qed.

(** What a truncation leaves: the file has size [len] and exactly the entries that are not
    [gone], or the indirect block could not be read and the size is as it was. *)
Definition truncated (gone : nat -> Prop) `{!forall n, Decision (gone n)} (p len : Z) (sv : sfs_vnode) s (r : outcome sfs unit) : Prop :=
  exists sv' s', shrinks p sv sv' s s' /\
    (forall pos, Z.of_nat pos < len -> fbyte (disk s') (sv_i sv') pos = fbyte (disk s) (sv_i sv) pos) /\
    ((r = Done tt s' /\ sfi_size (sv_i sv') = len /\ sv_dirty sv' = true /\
      (forall n, (n < NBLOCKS)%nat ->
         fblock (disk s') (sv_i sv') n = if decide (gone n) then 0 else fblock (disk s) (sv_i sv) n) /\
      (blocklen len < 142 -> (forall n, (15 <= n < NBLOCKS)%nat -> fblock (disk s') (sv_i sv') n = 0) ->
         sfi_indirect (sv_i sv') = 0)) \/
     (r = Fail EIO s' /\ sfi_size (sv_i sv') = sfi_size (sv_i sv))).

Lemma sfs_truncate_spec s p sv len :
  vol_ok s -> file_ok s p sv -> 0 <= len < 2 ^ 31 - 511 -> truncated (found len) p len sv s (sfs_truncate p len s).
Proof.
  intros V F Hl. unfold sfs_truncate. cbv zeta. rewrite truncate_blocklen by done.
  destruct (truncate_direct_loop 15 0 s p sv (blocklen len) V F eq_refl) as (sv1 & s1 & E1 & S1 & Hd1 & Hz1 & Hi1 & Hf1).
  change (Z.to_nat SFS_NDIRECT) with 15%nat. change 0 with (Z.of_nat 0) at 1. rewrite (bind_Done _ _ _ _ _ E1).
  rewrite (bind_Done _ _ _ sv1 s1) by (apply get_sv_eq, S1).
  assert (Hbl : 0 <= blocklen len) by (unfold blocklen; dlia).
  assert (Hkeep : forall sv' s', shrinks p sv sv' s s' ->
    (forall n, (n < NBLOCKS)%nat -> Z.of_nat n < blocklen len -> fblock (disk s') (sv_i sv') n = fblock (disk s) (sv_i sv) n) ->
    forall pos, Z.of_nat pos < len -> fbyte (disk s') (sv_i sv') pos = fbyte (disk s) (sv_i sv) pos).
  { intros sv' s' Hs Hf pos Hp. destruct (decide (pos / 512 < NBLOCKS)%nat) as [Hn|Hn].
    - apply (shrinks_bytes p sv sv' s s' pos F Hs Hn). apply Hf; [done|]. unfold blocklen. clear -Hp. dlia.
    - unfold fbyte. rewrite !fblock_out; [done|apply F|lia|apply (sh_file _ _ _ _ _ Hs)|lia]. }
  destruct (truncate_idblock_spec s1 p sv1 (blocklen len) (sh_vol _ _ _ _ _ S1) (sh_file _ _ _ _ _ S1) Hbl)
    as (sv2 & s2 & S2 & Hz2 & [(E2 & Hf2 & Hi2)|(E2 & -> & Hd2)]); pose proof (shrinks_trans _ _ _ _ _ _ _ S1 S2) as S12.
  - rewrite (bind_Done _ _ _ _ _ E2). rewrite (bind_Done _ _ _ sv2 s2) by (apply get_sv_eq, S2).
    pose proof (shrinks_size p sv sv2 s s2 (u32 len) S12) as S3. set (sv3 := dirty_i _ sv2) in *.
    assert (Hf : forall n, (n < NBLOCKS)%nat ->
      fblock (disk s2) (sv_i sv3) n = if decide (found len n) then 0 else fblock (disk s) (sv_i sv) n).
    { intros n Hn. simpl. rewrite fblock_size, Hf2, Hf1 by done. unfold past, found, dropped. clear -Hn.
      repeat case_decide; try done; lia. }
    eexists sv3, _. split; [exact S3|]. split.
    + apply (Hkeep _ _ S3). intros n Hn Hlt. etransitivity; [by apply Hf|]. rewrite decide_False; [done|]. unfold found, dropped. lia.
    + left. split; [done|]. split; [simpl; unfold u32; apply Z.mod_small; lia|]. split; [done|]. split; [exact Hf|exact Hi2].
  - rewrite (bind_Fail _ _ _ _ _ E2). exists sv1, s2. split; [done|]. split; [|by right].
    apply (Hkeep _ _ S12). intros n Hn Hlt. rewrite Hd2, Hf1 by done. rewrite decide_False; [done|]. lia.
Qed.


(** Truncating to nothing, which is what reclaiming a removed file does, gives back
    every block of the file and its indirect block: the file owns no block afterwards,
    the bits of its old blocks are clear and all other bits are as they were. *)
Theorem sfs_truncate_frees_all s p sv :
  vol_ok s -> file_ok s p sv ->
  (exists s', sfs_truncate p 0 s = Fail EIO s') \/
  exists sv' s', sfs_truncate p 0 s = Done tt s' /\ s_objs s' !! p = Some sv' /\
    blocks (disk s') (sv_i sv') = [] /\ sfi_size (sv_i sv') = 0 /\
    forall b, 0 <= b -> bit (s_freemap s') b = if decide (b ∈ blocks (disk s) (sv_i sv)) then false else bit (s_freemap s) b.
Proof.
  intros V F. destruct (sfs_truncate_spec s p sv 0 V F ltac:(lia)) as (sv' & s' & S & _ & [(E & Hz & _ & Hf & Hi)|[E _]]);
    [right|left; by eexists].
  assert (Hall : forall n, (n < NBLOCKS)%nat -> fblock (disk s') (sv_i sv') n = 0).
  { intros n Hn. rewrite Hf by done. rewrite decide_True; [done|]. unfold found, dropped, blocklen. dlia. }
  assert (Hnil : blocks (disk s') (sv_i sv') = []).
  { apply elem_of_nil_inv. intros b. rewrite elem_blocks by apply (sh_file _ _ _ _ _ S). intros [Hb [->|(n & Hn & <-)]].
    - rewrite Hi in Hb; [done|done|]. intros n Hn. apply Hall. lia.
    - by rewrite Hall in Hb. }
  exists sv', s'. split; [done|]. split; [apply (sh_file _ _ _ _ _ S)|]. split; [done|]. split; [done|]. intros b Hb.
  rewrite (sh_bits _ _ _ _ _ S) by done. rewrite Hnil. pose proof (not_elem_of_nil b). repeat case_decide; tauto.
Qed.

(** The comparison for the indirect entries is off by one: after truncating to
    exactly [n] blocks, with [n] at least 15, block [n] is past the end of the file but
    stays in its table and stays allocated. *)
Theorem sfs_truncate_keeps_block s p sv (n : nat) :
  vol_ok s -> file_ok s p sv -> (15 <= n < NBLOCKS)%nat -> fblock (disk s) (sv_i sv) n <> 0 ->
  (exists s', sfs_truncate p (512 * Z.of_nat n) s = Fail EIO s') \/
  exists sv' s', sfs_truncate p (512 * Z.of_nat n) s = Done tt s' /\ s_objs s' !! p = Some sv' /\
    sfi_size (sv_i sv') = 512 * Z.of_nat n /\ fblock (disk s') (sv_i sv') n = fblock (disk s) (sv_i sv) n /\
    bit (s_freemap s') (fblock (disk s) (sv_i sv) n) = true.
Proof.
  intros V F Hn H0. destruct (sfs_truncate_spec s p sv (512 * Z.of_nat n) V F ltac:(unfold NBLOCKS in Hn; lia))
    as (sv' & s' & S & _ & [(E & Hz & _ & Hf & Hi)|[E _]]); [right|left; by eexists].
  assert (Hfn : fblock (disk s') (sv_i sv') n = fblock (disk s) (sv_i sv) n).
  { rewrite Hf by lia. rewrite decide_False; [done|]. unfold found, dropped, blocklen. dlia. }
  exists sv', s'. split; [done|]. split; [apply (sh_file _ _ _ _ _ S)|]. split; [done|]. split; [done|].
  rewrite <- Hfn. destruct (file_ok_range s' p sv' n (sh_file _ _ _ _ _ S)) as [?|[_ Ht]]; [lia|congruence|done].
Qed.

End trunc.

#[global] Arguments truncated {K D _ _} w gone {_} p len sv s r.

Section correct.
Context {K D : Type} `{!Kmalloc K, !Locks K, !Device D, !DeviceSpec D}.
Implicit Types s : sfs_fs K D.


End correct.

End SfsTrunc.
