(* ===== verification/SfsDir.v ===== *)
(** * The file system: directories

    A directory as the relation between names and inode numbers that its entries
    hold.  Looking a name up finds its entry if there is one; linking adds one pair and
    removing a slot takes one away, and no other pair changes. *)

From Stdlib Require Import ZifyNat.
From S2P Require Import Prelude Kmalloc Array Bitmap Uio Blockdev Vnode Sfs SfsBlock SfsFile SfsIo.
Import Bitmap Uio Vnode Sfs SfsBlock SfsFile SfsIo.

Module SfsDir.

(** The entry in slot [j]. *)
Definition dent (dk : list (list Z)) (i : sfs_inode) (j : nat) : sfs_dir := dir_of_bytes (fbytes dk i (64 * j) 64).

Definition dname (d : sfs_dir) : list Z := cstring (terminated d).

Definition nslots (i : sfs_inode) : nat := Z.to_nat (sfi_size i / 64).

(** Slot [j] holds the name with the inode number. *)
Definition slot_binds (dk : list (list Z)) (i : sfs_inode) (j : nat) (name : list Z) (ino : Z) : Prop :=
  (j < nslots i)%nat /\ ino <> SFS_NOINO /\ sfd_ino (dent dk i j) = ino /\ dname (dent dk i j) = name.

Definition binds (dk : list (list Z)) (i : sfs_inode) (name : list Z) (ino : Z) : Prop :=
  exists j, slot_binds dk i j name ino.

Section dirs.
Context {K D : Type} `{!Kmalloc K, !Locks K, !Device D, !DeviceSpec D} {w : wear} `{!Writes w}.
Abbreviation sfs := (sfs_fs K D).
Abbreviation same_data := (SfsBlock.same_data w).
Abbreviation vol_ok := (SfsBlock.vol_ok w).
Abbreviation grows := (SfsFile.grows w).
Implicit Types s : sfs.

(** A directory: whole entries, and no name twice. *)
Record dirfile_ok s (p : Z) (sv : sfs_vnode) : Prop := {
  do_file : file_ok s p sv;
  do_type : sfi_type (sv_i sv) = SFS_TYPE_DIR;
  do_size : 0 <= sfi_size (sv_i sv) <= MAXFILE;
  do_whole : sfi_size (sv_i sv) mod 64 = 0;
  do_unique : forall j k name i1 i2,
    slot_binds (disk s) (sv_i sv) j name i1 -> slot_binds (disk s) (sv_i sv) k name i2 -> j = k;
}.

Lemma nslots_size i : 0 <= sfi_size i -> sfi_size i mod 64 = 0 -> sfi_size i = 64 * Z.of_nat (nslots i).
Proof. intros H0 Hm. unfold nslots. dlia. Qed.

(** ** Reading an entry *)

Lemma readdir_spec s p sv (j : nat) :
  vol_ok s -> file_ok s p sv -> 0 <= sfi_size (sv_i sv) <= MAXFILE -> 64 * Z.of_nat (S j) <= sfi_size (sv_i sv) ->
  exists d, same_data (s_dev s) d /\
    (sfs_readdir p (Z.of_nat j) s = Done (dent (disk s) (sv_i sv) j) (set_dev d s) \/
     exists m, sfs_readdir p (Z.of_nat j) s = Fail EIO (after_read s d (set_umem m (s_ctx s)))).
Proof.
  intros V F Hsz Hj. assert (HM : MAXFILE < 2 ^ 31) by (unfold MAXFILE, NBLOCKS; lia).
  unfold sfs_readdir. change sizeof_sfs_dir with 64. rewrite s32_small by lia.
  set (u := mk_kuio zero_dir 64 (Z.of_nat j * 64) UIO_READ).
  assert (Hu : io_ok s u).
  { split; [apply kuio_ok; [apply V|lia|done]|]. simpl. lia. }
  pose proof (sfs_read_spec s p sv u V F Hu eq_refl ltac:(simpl; lia) Hsz) as Hr. cbv zeta in Hr.
  simpl uio_resid in Hr. simpl uio_offset in Hr. rewrite decide_False in Hr by lia.
  replace (Z.min 64 (sfi_size (sv_i sv) - Z.of_nat j * 64)) with 64 in Hr by lia.
  replace (at_pos u) with (64 * j)%nat in Hr by (unfold at_pos; simpl; lia). change (Z.to_nat 64) with 64%nat in Hr.
  set (data := fbytes (disk s) (sv_i sv) (64 * j) 64) in *.
  assert (Hp : poke (s_ctx s) u data = Some (s_ctx s, set_kbuf data u)).
  { unfold poke, u, mk_kuio. cbn [uio_segflg iov_kbuf iov_base]. rewrite splice_all; [done|].
    unfold data. by rewrite length_fbytes. }
  rewrite Hp in Hr. destruct Hr as (d & Hd & [(c & u' & E & [= <- <-])|(e & m & u' & E & [->|[_ ?]])]); [| |done];
    exists d; (split; [done|]); unfold with_uio; munfold; rewrite E.
  - left. cbn [snd]. rewrite decide_False by (vm_compute; done). unfold after_read. by destruct s.
  - right. by exists m.
Qed.


(** ** Looking a name up *)

(** What is known after the first [k] slots. *)
Definition looked (dk : list (list Z)) (i : sfs_inode) (k : nat) (name : list Z) (found : option (Z * Z)) (empty : Z) : Prop :=
  match found with
  | Some (ino, slot) => exists j, (j < k)%nat /\ slot = Z.of_nat j /\ slot_binds dk i j name ino
  | None => forall j ino, (j < k)%nat -> ~ slot_binds dk i j name ino
  end /\
  (empty = -1 /\ (forall j, (j < k)%nat -> sfd_ino (dent dk i j) <> SFS_NOINO) \/
   exists j, (j < k)%nat /\ empty = Z.of_nat j /\ sfd_ino (dent dk i j) = SFS_NOINO).

Lemma dirfile_ok_dev s p sv d : dirfile_ok s p sv -> same_data (s_dev s) d -> dirfile_ok (set_dev d s) p sv.
Proof.
  intros [F T Sz Wh Un] Hd. pose proof Hd as [_ Hs]. assert (Hdk : disk (set_dev d s) = disk s) by exact Hs.
  split; try done; [by eapply file_ok_dev|]. by rewrite Hdk.
Qed.

Lemma looked_step dk i k name found empty e found' empty' :
  looked dk i k name found empty -> dent dk i k = e -> (k < nslots i)%nat ->
  (forall j1 j2 i1 i2, slot_binds dk i j1 name i1 -> slot_binds dk i j2 name i2 -> j1 = j2) ->
  (sfd_ino e = SFS_NOINO /\ found' = found /\ empty' = Z.of_nat k) \/
  (sfd_ino e <> SFS_NOINO /\ dname e = name /\ found' = Some (sfd_ino e, Z.of_nat k) /\ empty' = empty) \/
  (sfd_ino e <> SFS_NOINO /\ dname e <> name /\ found' = found /\ empty' = empty) ->
  looked dk i (S k) name found' empty'.
Proof.
  intros [Hf He] <- Hk Hu H.
  assert (Hempty : empty' = empty -> sfd_ino (dent dk i k) <> SFS_NOINO ->
    empty' = -1 /\ (forall j, (j < S k)%nat -> sfd_ino (dent dk i j) <> SFS_NOINO) \/
    exists j, (j < S k)%nat /\ empty' = Z.of_nat j /\ sfd_ino (dent dk i j) = SFS_NOINO).
  { intros -> Hne. destruct He as [[-> He]|(j & Hj & -> & He)]; [left|right; exists j; split; [lia|done]].
    split; [done|]. intros j Hj. destruct (decide (j = k)) as [->|]; [done|]. apply He. lia. }
  assert (Hfound : found' = found -> (forall ino, ~ slot_binds dk i k name ino) ->
    match found' with
    | Some (ino, slot) => exists j, (j < S k)%nat /\ slot = Z.of_nat j /\ slot_binds dk i j name ino
    | None => forall j ino, (j < S k)%nat -> ~ slot_binds dk i j name ino
    end).
  { intros -> Hno. destruct found as [[ino slot]|].
    - destruct Hf as (j & Hj & Hs & Hb). exists j. split; [lia|done].
    - intros j ino Hj. destruct (decide (j = k)) as [->|]; [apply Hno|]. apply Hf. lia. }
  destruct H as [(H0 & Ef & Ee)|[(H0 & Hn & Ef & Ee)|(H0 & Hn & Ef & Ee)]]; split.
  - apply Hfound; [done|]. intros ino (_ & Hnz & Hi & _). congruence.
  - right. exists k. split; [lia|done].
  - rewrite Ef. exists k. split; [lia|]. split; [done|]. done.
  - by apply Hempty.
  - apply Hfound; [done|]. intros ino (_ & _ & _ & Hd). done.
  - by apply Hempty.
Qed.

Lemma findname_loop_spec n k s p sv name found empty :
  vol_ok s -> dirfile_ok s p sv -> (k + n = nslots (sv_i sv))%nat -> looked (disk s) (sv_i sv) k name found empty ->
  exists d, same_data (s_dev s) d /\
    ((exists found' empty', findname_loop n p (Z.of_nat k) name found empty s = Done (found', empty') (set_dev d s) /\
        looked (disk s) (sv_i sv) (nslots (sv_i sv)) name found' empty') \/
     exists m, findname_loop n p (Z.of_nat k) name found empty s = Fail EIO (after_read s d (set_umem m (s_ctx s)))).
Proof.
  revert k s found empty. induction n as [|n IH]; intros k s found empty V O Hk Hl.
  { exists (s_dev s). split; [split; [apply V|done]|]. left. exists found, empty. split; [by destruct s|].
    by replace (nslots (sv_i sv)) with k by lia. }
  pose proof (nslots_size (sv_i sv) ltac:(apply O) (do_whole _ _ _ O)) as Hsz.
  destruct (readdir_spec s p sv k V (do_file _ _ _ O) (do_size _ _ _ O) ltac:(lia)) as (d & Hd & [E|[m E]]); cbn [findname_loop].
  2:{ exists d. split; [done|]. right. exists m. by rewrite (bind_Fail _ _ _ _ _ E). }
  rewrite (bind_Done _ _ _ _ _ E). replace (Z.of_nat k + 1) with (Z.of_nat (S k)) by lia. set (e := dent (disk s) (sv_i sv) k).
  assert (Hgo : forall found' empty', looked (disk s) (sv_i sv) (S k) name found' empty' ->
    exists d', same_data (s_dev s) d' /\
      ((exists found2 empty2, findname_loop n p (Z.of_nat (S k)) name found' empty' (set_dev d s) = Done (found2, empty2) (set_dev d' s) /\
          looked (disk s) (sv_i sv) (nslots (sv_i sv)) name found2 empty2) \/
       exists m, findname_loop n p (Z.of_nat (S k)) name found' empty' (set_dev d s) = Fail EIO (after_read s d' (set_umem m (s_ctx s))))).
  { intros found' empty' Hl'. assert (Hdk : disk (set_dev d s) = disk s) by apply Hd.
    destruct (IH (S k) (set_dev d s) found' empty' (vol_ok_dev s d V Hd) (dirfile_ok_dev s p sv d O Hd) ltac:(lia)) as (d' & Hd' & H).
    { by rewrite Hdk. }
    exists d'. split; [by eapply same_data_trans|]. rewrite Hdk in H. exact H. }
  assert (Hu : forall j1 j2 i1 i2, slot_binds (disk s) (sv_i sv) j1 name i1 -> slot_binds (disk s) (sv_i sv) j2 name i2 -> j1 = j2)
    by (intros; by eapply (do_unique _ _ _ O)).
  destruct (decide (sfd_ino e = SFS_NOINO)) as [H0|H0].
  { apply Hgo. eapply looked_step; [done|done|lia|done|]. by left. }
  destruct (decide (cstring (terminated e) = name)) as [Hn|Hn].
  - rewrite (bind_Done _ _ _ tt (set_dev d s)).
    + apply Hgo. eapply looked_step; [done|done|lia|done|]. right. by left.
    + unfold kassert. rewrite bool_decide_eq_true_2; [done|]. destruct found as [[ino slot]|]; [|done].
      destruct Hl as [(j & Hj & _ & Hb) _]. assert (j = k); [|lia].
      apply (Hu j k ino (sfd_ino e) Hb). split; [lia|done].
  - apply Hgo. eapply looked_step; [done|done|lia|done|]. right. by right.
Qed.

Lemma nentries_eq s p sv :
  dirfile_ok s p sv -> sfs_dir_nentries p s = Done (Z.of_nat (nslots (sv_i sv))) s.
Proof.
  intros O. pose proof (do_size _ _ _ O) as Hsz. pose proof (do_whole _ _ _ O) as Hw.
  assert (HM : MAXFILE < 2 ^ 31) by (unfold MAXFILE, NBLOCKS; lia).
  unfold sfs_dir_nentries. munfold. rewrite (get_sv_eq s p sv) by apply O.
  rewrite bool_decide_eq_true_2 by apply O. change sizeof_sfs_dir with 64.
  rewrite s32_small, u32_small by lia. rewrite decide_False by lia. rewrite s32_small by dlia.
  unfold nslots. by rewrite Z2Nat.id by dlia.
Qed.

Lemma findname_spec s p sv name :
  vol_ok s -> dirfile_ok s p sv ->
  exists d, same_data (s_dev s) d /\
    ((exists found empty, sfs_dir_findname p name s = Done (found, empty) (set_dev d s) /\
        looked (disk s) (sv_i sv) (nslots (sv_i sv)) name found empty) \/
     exists m, sfs_dir_findname p name s = Fail EIO (after_read s d (set_umem m (s_ctx s)))).
Proof.
  intros V O. destruct (findname_loop_spec (nslots (sv_i sv)) 0 s p sv name None (-1) V O eq_refl) as (d & Hd & H).
  { split; [intros; lia|]. left. split; [done|]. intros; lia. }
  exists d. split; [done|]. unfold sfs_dir_findname. by rewrite (bind_Done _ _ _ _ _ (nentries_eq s p sv O)), Nat2Z.id.
Qed.


(** ** Writing an entry *)

Lemma writedir_spec s p sv sd (j : nat) :
  vol_ok s -> file_ok s p sv -> 0 <= sfi_size (sv_i sv) <= MAXFILE -> 64 * Z.of_nat (S j) < 2 ^ 31 ->
  length (dir_bytes sd) = 64%nat ->
  exists sv' s' data, grows p sv sv' s s' /\
    (forall pos, fbyte (disk s') (sv_i sv') pos = overwritten (fbyte (disk s) (sv_i sv)) (64 * j) data pos) /\
    sfi_size (sv_i sv') = Z.max (sfi_size (sv_i sv)) (64 * Z.of_nat j + Z.of_nat (length data)) /\
    (sfs_writedir p sd (Z.of_nat j) s = Done tt s' /\ data = dir_bytes sd /\ 64 * Z.of_nat (S j) <= MAXFILE \/
     exists e, sfs_writedir p sd (Z.of_nat j) s = Fail e s' /\ data = [] /\
       (e = ENOSPC \/ e = EIO \/ e = EINVAL /\ MAXFILE < 64 * Z.of_nat (S j))).
Proof.
  intros V F Hsz Hj Hsd. assert (HM : MAXFILE < 2 ^ 31) by (unfold MAXFILE, NBLOCKS; lia).
  unfold sfs_writedir. change sizeof_sfs_dir with 64. rewrite s32_small by lia.
  rewrite (bind_Done _ _ s tt s) by (unfold kassert; by rewrite bool_decide_eq_true_2 by lia).
  set (u := mk_kuio (dir_bytes sd) 64 (Z.of_nat j * 64) UIO_WRITE).
  assert (Hu : io_ok s u).
  { split; [apply kuio_ok; [apply V|lia|by rewrite Hsd]|]. simpl. lia. }
  destruct (sfs_write_spec s p sv u V F Hu eq_refl ltac:(simpl; lia) ltac:(lia))
    as (sv' & s' & k & data & G & Hl & Hpk & Hs' & Hb & Hr).
  assert (Hall : peek (s_ctx s) u 64 = Some (dir_bytes sd)) by (apply slice_all; by rewrite Hsd).
  assert (Hat : at_pos u = (64 * j)%nat) by (unfold at_pos; simpl; lia).
  exists sv', s', data. simpl uio_offset in Hs', Hr. simpl uio_resid in Hr. rewrite Hat in Hb, Hr.
  split; [done|]. split; [done|]. split; [rewrite Hs'; f_equal; lia|]. unfold with_uio. munfold.
  destruct Hr as [(E & Hk64 & Hfit)|(e & E & He & Hlt & Hal)]; rewrite E.
  - left. cbn [snd]. rewrite Hk64, decide_False by (vm_compute; done). split; [done|].
    destruct Hpk as [->|Hpk]; [lia|]. rewrite Hk64 in Hpk. split; [congruence|lia].
  - right. exists e. split; [done|]. split; [destruct data; [done|simpl in Hl; dlia]|].
    destruct He as [|[|[[_ He]|[-> He]]]]; [by left|by right; left| |right; right; split; [done|simpl in He; lia]].
    change (uio_resid u) with 64 in He. congruence.
Qed.

(** Writing a slot leaves the other entries. *)
Lemma dent_other dk i dk' i' j data k :
  (forall pos, fbyte dk' i' pos = overwritten (fbyte dk i) (64 * j) data pos) -> (length data <= 64)%nat -> k <> j ->
  dent dk' i' k = dent dk i k.
Proof.
  intros Hb Hl Hk. unfold dent. f_equal. unfold fbytes. apply list_fmap_ext. intros n x Hx. apply lookup_seq in Hx as [-> Hn].
  rewrite Hb. unfold overwritten. rewrite decide_False; [done|]. lia.
Qed.

Lemma dent_written dk i dk' i' j sd :
  (forall pos, fbyte dk' i' pos = overwritten (fbyte dk i) (64 * j) (dir_bytes sd) pos) -> dir_ok sd ->
  dent dk' i' j = sd.
Proof.
  intros Hb Hd. destruct (dir_roundtrip sd Hd) as [Hl Hr]. unfold dent. change (Z.to_nat sizeof_sfs_dir) with 64%nat in Hl.
  pose proof (fbytes_overwritten dk i dk' i' (64 * j) (dir_bytes sd) Hb) as E. rewrite Hl in E. by rewrite E.
Qed.

(** The characters of a name that was stored. *)
Lemma cstring_app name l : (0 ∉ name) -> cstring (name ++ 0 :: l) = name.
Proof.
  induction name as [|c name IH]; [done|]. intros H. simpl. rewrite decide_False by (intros ->; apply H; left).
  f_equal. apply IH. intros H'. apply H. by right.
Qed.

Lemma dname_new ino name : (0 ∉ name) -> (length name <= 59)%nat -> dname (new_entry ino name) = name.
Proof.
  intros H0 Hl. unfold dname, terminated, new_entry. cbn [sfd_name]. change (Z.to_nat SFS_NAMELEN) with 60%nat.
  change (Z.to_nat (SFS_NAMELEN - 1)) with 59%nat.
  replace (60 - length name)%nat with (S (59 - length name)) by lia. simpl replicate.
  rewrite insert_app_r_alt by lia. destruct (59 - length name)%nat as [|n] eqn:E; simpl.
  - by apply cstring_app.
  - by apply cstring_app.
Qed.

Lemma new_entry_ok ino name : word_ok ino -> (length name <= 59)%nat -> dir_ok (new_entry ino name).
Proof. intros Hi Hl. split; [done|]. simpl. rewrite length_app, length_replicate. change (Z.to_nat SFS_NAMELEN) with 60%nat. lia. Qed.


(** ** Links *)

Lemma nslots_max i i' j (n : nat) :
  0 <= sfi_size i -> sfi_size i mod 64 = 0 -> sfi_size i' = Z.max (sfi_size i) (64 * Z.of_nat j + Z.of_nat n) ->
  (n <= 64)%nat -> (nslots i <= nslots i')%nat /\ (n = 64%nat -> nslots i' = Nat.max (nslots i) (S j)) /\
  ((j < nslots i)%nat -> nslots i' = nslots i).
Proof. intros H0 Hm E Hn. unfold nslots. rewrite E. split; [|split]; dlia. Qed.

(** Bindings of the other slots stay, whether the write is complete or not. *)
Lemma slot_binds_other dk i dk' i' j data k name ino :
  (forall pos, fbyte dk' i' pos = overwritten (fbyte dk i) (64 * j) data pos) -> (length data <= 64)%nat -> k <> j ->
  (k < nslots i)%nat -> (k < nslots i')%nat -> slot_binds dk' i' k name ino <-> slot_binds dk i k name ino.
Proof. intros Hb Hl Hk H1 H2. unfold slot_binds. rewrite (dent_other dk i dk' i' j data k Hb Hl Hk). tauto. Qed.

(** The directory after slot [j] was written. *)
Lemma slot_written s p sv s' sv' sd (j : nat) :
  vol_ok s -> dirfile_ok s p sv -> grows p sv sv' s s' -> dir_ok sd ->
  (forall pos, fbyte (disk s') (sv_i sv') pos = overwritten (fbyte (disk s) (sv_i sv)) (64 * j) (dir_bytes sd) pos) ->
  sfi_size (sv_i sv') = Z.max (sfi_size (sv_i sv)) (64 * Z.of_nat j + Z.of_nat (length (dir_bytes sd))) ->
  (j <= nslots (sv_i sv))%nat -> 64 * Z.of_nat (S j) <= MAXFILE ->
  (forall k name ino, slot_binds (disk s') (sv_i sv') k name ino <->
     k <> j /\ slot_binds (disk s) (sv_i sv) k name ino \/
     k = j /\ ino <> SFS_NOINO /\ ino = sfd_ino sd /\ name = dname sd) /\
  ((forall k ino, k <> j -> sfd_ino sd <> SFS_NOINO -> ~ slot_binds (disk s) (sv_i sv) k (dname sd) ino) -> dirfile_ok s' p sv').
Proof.
  intros V O G Hsd Hb Hsz Hj Hmx. destruct (dir_roundtrip sd Hsd) as [Hl _]. change (Z.to_nat sizeof_sfs_dir) with 64%nat in Hl.
  pose proof (do_size _ _ _ O) as H0. pose proof (do_whole _ _ _ O) as Hw.
  destruct (nslots_max (sv_i sv) (sv_i sv') j (length (dir_bytes sd)) ltac:(lia) Hw Hsz ltac:(lia)) as (N1 & N2 & _).
  specialize (N2 Hl).
  assert (Hsb : forall k name ino, slot_binds (disk s') (sv_i sv') k name ino <->
     k <> j /\ slot_binds (disk s) (sv_i sv) k name ino \/ k = j /\ ino <> SFS_NOINO /\ ino = sfd_ino sd /\ name = dname sd).
  { intros k name ino. destruct (decide (k = j)) as [->|Hk].
    - unfold slot_binds. rewrite (dent_written _ _ _ _ j sd Hb Hsd). split; [|].
      + intros (_ & Hz & Hi & Hn). right. by split_and!.
      + intros [[? _]|(_ & Hz & -> & ->)]; [done|]. split; [lia|done].
    - destruct (decide (k < nslots (sv_i sv))%nat) as [Hlt|Hge].
      + rewrite (slot_binds_other _ _ _ _ j (dir_bytes sd) k name ino Hb ltac:(lia) Hk Hlt ltac:(lia)). tauto.
      + split; [intros (? & _); lia|]. intros [[_ (? & _)]|[? _]]; [lia|done]. }
  split; [exact Hsb|]. intros Hnew. pose proof (g_sv _ _ _ _ _ G) as Hsv.
  split; [apply G|rewrite <- (do_type _ _ _ O); congruence|lia|rewrite Hsz, Hl; dlia|].
  intros k1 k2 name i1 i2 H1%Hsb H2%Hsb. destruct H1 as [[K1 H1]|(-> & Z1 & -> & ->)], H2 as [[K2 H2]|(-> & Z2 & E2 & E3)].
  - by eapply (do_unique _ _ _ O).
  - exfalso. subst i2 name. by eapply Hnew.
  - exfalso. by eapply Hnew.
  - done.
Qed.



(** Looking a name up in a directory finds the slot and the inode number of its
    entry exactly when there is one, and otherwise reports an empty slot if there is any;
    the one error is that the disk cannot be read.  The volume is only read. *)
Theorem sfs_dir_findname_correct s p sv name :
  vol_ok s -> dirfile_ok s p sv ->
  exists d, same_data (s_dev s) d /\
    ((exists ino (j : nat) empty, sfs_dir_findname p name s = Done (Some (ino, Z.of_nat j), empty) (set_dev d s) /\
        slot_binds (disk s) (sv_i sv) j name ino) \/
     (exists empty, sfs_dir_findname p name s = Done (None, empty) (set_dev d s) /\
        (forall ino, ~ binds (disk s) (sv_i sv) name ino) /\
        (empty = -1 /\ (forall j, (j < nslots (sv_i sv))%nat -> sfd_ino (dent (disk s) (sv_i sv) j) <> SFS_NOINO) \/
         exists j, (j < nslots (sv_i sv))%nat /\ empty = Z.of_nat j /\ sfd_ino (dent (disk s) (sv_i sv) j) = SFS_NOINO)) \/
     (exists m, sfs_dir_findname p name s = Fail EIO (after_read s d (set_umem m (s_ctx s))))).
Proof.
  intros V O. destruct (findname_spec s p sv name V O) as (d & Hd & [([[ino slot]|] & empty & E & Hf & He)|H]);
    exists d; (split; [done|]); [left|right; left|right; by right].
  - destruct Hf as (j & _ & -> & Hb). exists ino, j, empty. done.
  - exists empty. split; [done|]. split; [|done]. intros ino (j & Hb). apply (Hf j ino); [apply Hb|done].
Qed.

(** The slot a new entry goes to: the empty one that was found, or one past the end. *)
Lemma free_slot s p sv d name found empty :
  dirfile_ok s p sv -> same_data (s_dev s) d -> looked (disk s) (sv_i sv) (nslots (sv_i sv)) name found empty ->
  exists j, (j <= nslots (sv_i sv))%nat /\ (forall nm i, ~ slot_binds (disk s) (sv_i sv) j nm i) /\
    (if decide (empty < 0) then sfs_dir_nentries p else mret empty) (set_dev d s) = Done (Z.of_nat j) (set_dev d s).
Proof.
  intros O Hd [_ [[-> He]|(j & Hj & -> & He)]].
  - exists (nslots (sv_i sv)). split; [done|]. split; [intros nm i (? & _); lia|]. rewrite decide_True by lia.
    apply nentries_eq. by apply dirfile_ok_dev.
  - exists j. split; [lia|]. split; [intros nm i (_ & Hz & Hi & _); congruence|]. by rewrite decide_False by lia.
Qed.

(** An entry that was not written changes no name. *)
Lemma slot_unwritten s p sv s' sv' (j : nat) :
  dirfile_ok s p sv -> grows p sv sv' s s' ->
  (forall pos, fbyte (disk s') (sv_i sv') pos = overwritten (fbyte (disk s) (sv_i sv)) (64 * j) [] pos) ->
  sfi_size (sv_i sv') = Z.max (sfi_size (sv_i sv)) (64 * Z.of_nat j + Z.of_nat (length (A := Z) [])) ->
  (j <= nslots (sv_i sv))%nat ->
  dirfile_ok s' p sv' /\ forall nm i, binds (disk s') (sv_i sv') nm i <-> binds (disk s) (sv_i sv) nm i.
Proof.
  intros O G Hb Hs Hj. pose proof (do_size _ _ _ O) as H0. pose proof (do_whole _ _ _ O) as Hw.
  pose proof (nslots_size (sv_i sv) ltac:(lia) Hw) as Hns. simpl length in Hs.
  assert (Hsz : sfi_size (sv_i sv') = sfi_size (sv_i sv)) by lia.
  assert (Hd : forall k, dent (disk s') (sv_i sv') k = dent (disk s) (sv_i sv) k).
  { intros k. unfold dent. f_equal. unfold fbytes. apply list_fmap_ext. intros n x _. rewrite Hb. unfold overwritten.
    by rewrite decide_False by (simpl; lia). }
  assert (Hsb : forall k nm i, slot_binds (disk s') (sv_i sv') k nm i <-> slot_binds (disk s) (sv_i sv) k nm i).
  { intros k nm i. unfold slot_binds, nslots. by rewrite Hd, Hsz. }
  split; [|intros nm i; unfold binds; by setoid_rewrite Hsb].
  pose proof (g_sv _ _ _ _ _ G) as Hsv.
  split; [apply G|rewrite <- (do_type _ _ _ O); congruence|lia|by rewrite Hsz|]. intros k1 k2 nm i1 i2 H1%Hsb H2%Hsb.
  by eapply (do_unique _ _ _ O).
Qed.

(** The directory after it was read. *)
Lemma dirfile_ok_read s p sv d m :
  vol_ok s -> dirfile_ok s p sv -> same_data (s_dev s) d ->
  vol_ok (after_read s d (set_umem m (s_ctx s))) /\ dirfile_ok (after_read s d (set_umem m (s_ctx s))) p sv /\
  disk (after_read s d (set_umem m (s_ctx s))) = disk s.
Proof.
  intros V O Hd. destruct (after_read_ok s p sv d m V (do_file _ _ _ O) Hd) as (V' & F' & E). split; [done|].
  split; [|done]. destruct O. split; try done. by rewrite E.
Qed.

(** Why a link is refused or fails. *)
Definition link_error s (sv : sfs_vnode) (name : list Z) (e : errno) : Prop :=
  e = EEXIST /\ (exists i, binds (disk s) (sv_i sv) name i) \/ e = ENAMETOOLONG /\ (59 < length name)%nat \/
  e = ENOSPC \/ e = EIO \/ e = EINVAL /\ sfi_size (sv_i sv) = MAXFILE.

Lemma sfs_dir_link_spec s p sv name ino :
  vol_ok s -> dirfile_ok s p sv -> (0 ∉ name) -> word_ok ino -> ino <> SFS_NOINO ->
  exists sv' s', vol_ok s' /\ dirfile_ok s' p sv' /\
    ((exists e, sfs_dir_link p name ino s = Fail e s' /\ link_error s sv name e /\
        forall nm i, binds (disk s') (sv_i sv') nm i <-> binds (disk s) (sv_i sv) nm i) \/
     (exists slot, sfs_dir_link p name ino s = Done slot s' /\ grows p sv sv' s s' /\
        (forall i, ~ binds (disk s) (sv_i sv) name i) /\
        forall nm i, binds (disk s') (sv_i sv') nm i <-> nm = name /\ i = ino \/ binds (disk s) (sv_i sv) nm i)).
Proof.
  intros V O Hn0 Hino Hi0. pose proof (do_file _ _ _ O) as F. unfold sfs_dir_link.
  destruct (findname_spec s p sv name V O) as (d & Hd & [(found & empty & E & Hf & He)|[m E]]).
  2:{ exists sv, (after_read s d (set_umem m (s_ctx s))). destruct (dirfile_ok_read s p sv d m V O Hd) as (V' & O' & ->).
      split; [done|]. split; [done|]. left. exists EIO. rewrite (bind_Fail _ _ _ _ _ E). unfold link_error. by auto 10. }
  rewrite (bind_Done _ _ _ _ _ E). assert (Hdk : disk (set_dev d s) = disk s) by apply Hd.
  pose proof (vol_ok_dev s d V Hd) as V1. pose proof (dirfile_ok_dev s p sv d O Hd) as O1.
  destruct (decide (found <> None)) as [Hfd|Hfd].
  { exists sv, (set_dev d s). rewrite Hdk. split; [done|]. split; [done|]. left. exists EEXIST. split; [done|]. split; [|done].
    left. split; [done|]. destruct found as [[i slot]|]; [|done]. destruct Hf as (j & _ & _ & Hb). by exists i, j. }
  destruct found; [by destruct Hfd|]. clear Hfd. change SFS_NAMELEN with 60.
  destruct (decide (Z.of_nat (length name) + 1 > 60)) as [Hlen|Hlen].
  { exists sv, (set_dev d s). rewrite Hdk. split; [done|]. split; [done|]. left. exists ENAMETOOLONG. split; [done|].
    split; [|done]. right. left. split; [done|lia]. }
  pose proof (do_size _ _ _ O) as Hsz. pose proof (nslots_size (sv_i sv) ltac:(lia) (do_whole _ _ _ O)) as Hns.
  assert (HM : MAXFILE = 73216) by done.
  destruct (free_slot s p sv d name None empty O Hd (conj Hf He)) as (j & Hj & Hfree & Es). rewrite (bind_Done _ _ _ _ _ Es).
  pose proof (new_entry_ok ino name Hino ltac:(lia)) as Hsd. destruct (dir_roundtrip _ Hsd) as [Hl64 _].
  set (s1 := set_dev d s) in *.
  destruct (writedir_spec s1 p sv (new_entry ino name) j V1 (do_file _ _ _ O1) Hsz ltac:(lia) Hl64)
    as (sv' & s' & data & G & Hb & Hs' & Hr).
  pose proof (grows_trans _ _ _ _ _ _ _ (grows_dev s p sv d V F Hd) G) as G'. rewrite Hdk in Hb.
  exists sv', s'. split; [apply G'|]. destruct Hr as [(Ew & -> & Hfit)|(e & Ew & -> & He')].
  2:{ destruct (slot_unwritten s p sv s' sv' j O G' Hb Hs' Hj) as [O' Hsame]. split; [done|]. left. exists e.
      rewrite (bind_Fail _ _ _ _ _ Ew). split; [done|]. split; [|done]. unfold link_error.
      destruct He' as [|[|[-> Hmax]]]; [by auto|by auto|]. do 4 right. split; [done|lia]. }
  destruct (slot_written s p sv s' sv' (new_entry ino name) j V O G' Hsd Hb Hs' Hj Hfit) as [Hsb Hok].
  rewrite dname_new in Hsb, Hok by (done || lia).
  assert (Hno : forall i, ~ binds (disk s) (sv_i sv) name i) by (intros i (k & Hk); apply (Hf k i); [apply Hk|done]).
  split; [apply Hok; intros k i _ _ Hk; apply (Hno i); by exists k|]. right.
  exists (Z.of_nat j). rewrite (bind_Done _ _ _ _ _ Ew). split; [done|]. split; [done|]. split; [done|]. intros nm i. split.
  - intros (k & Hk%Hsb). destruct Hk as [[_ Hk]|(_ & _ & -> & ->)]; [right; by exists k|by left].
  - intros [[-> ->]|(k & Hk)]; [exists j; apply Hsb; by right|exists k; apply Hsb; left]. split; [|done].
    intros ->. by eapply Hfree.
Qed.

(** Removing a slot takes the name it holds out of the directory and leaves every other
    name; when the write fails the names are as they were. *)
Theorem sfs_dir_unlink_correct s p sv (j : nat) name ino :
  vol_ok s -> dirfile_ok s p sv -> slot_binds (disk s) (sv_i sv) j name ino ->
  exists sv' s', grows p sv sv' s s' /\ dirfile_ok s' p sv' /\
    ((sfs_dir_unlink p (Z.of_nat j) s = Done tt s' /\
      forall nm i, binds (disk s') (sv_i sv') nm i <-> binds (disk s) (sv_i sv) nm i /\ nm <> name) \/
     (exists e, sfs_dir_unlink p (Z.of_nat j) s = Fail e s' /\ (e = ENOSPC \/ e = EIO) /\
      forall nm i, binds (disk s') (sv_i sv') nm i <-> binds (disk s) (sv_i sv) nm i)).
Proof.
  intros V O Hj. pose proof (do_file _ _ _ O) as F. pose proof (do_size _ _ _ O) as Hsz. pose proof Hj as (Hlt & _).
  pose proof (nslots_size (sv_i sv) ltac:(lia) (do_whole _ _ _ O)) as Hns. assert (HM : MAXFILE = 73216) by done.
  pose proof (new_entry_ok SFS_NOINO [] ltac:(by vm_compute) ltac:(simpl; lia)) as Hsd. destruct (dir_roundtrip _ Hsd) as [Hl64 _].
  destruct (writedir_spec s p sv (new_entry SFS_NOINO []) j V F Hsz ltac:(lia) Hl64) as (sv' & s' & data & G & Hb & Hs' & Hr).
  assert (Hkey : forall k nm i, slot_binds (disk s) (sv_i sv) k nm i -> k <> j <-> nm <> name).
  { intros k nm i Hk. split; [|intros Hne ->; destruct Hk as (_ & _ & _ & <-), Hj as (_ & _ & _ & <-); done].
    intros Hne ->. apply Hne. by eapply (do_unique _ _ _ O). }
  exists sv', s'. split; [done|]. unfold sfs_dir_unlink. destruct Hr as [(Ew & -> & Hfit)|(e & Ew & -> & He)].
  - destruct (slot_written s p sv s' sv' (new_entry SFS_NOINO []) j V O G Hsd Hb Hs' ltac:(lia) Hfit) as [Hsb Hok].
    split; [apply Hok; intros k i _ Hz; by destruct Hz|]. left. split; [done|]. intros nm i. split.
    + intros (k & Hk%Hsb). destruct Hk as [[Hkj Hk]|(_ & Hz & Hz' & _)]; [|done]. split; [by exists k|]. by eapply Hkey.
    + intros [(k & Hk) Hne]. exists k. apply Hsb. left. split; [|done]. by eapply Hkey.
  - destruct (slot_unwritten s p sv s' sv' j O G Hb Hs' ltac:(lia)) as [O' Hsame]. split; [done|]. right. exists e.
    split; [done|]. split; [|done]. destruct He as [|[|[_ He]]]; [by left|by right|lia].
Qed.

End dirs.

Section correct.
Context {K D : Type} `{!Kmalloc K, !Locks K, !Device D, !DeviceSpec D}.
Implicit Types s : sfs_fs K D.

(** C20: On a disk whose writes complete, linking a name adds exactly the pair of the
    name and the inode number to the directory; a name that is there already is refused
    with [EEXIST], one that does not fit with [ENAMETOOLONG], and a directory of the
    largest size with [EINVAL].  Whenever the call fails, a full volume and read errors
    included, the directory [sv'] that is then in memory is well formed and holds the same
    names as before. *)
Theorem sfs_dir_link_correct s p sv name ino :
  vol_ok Sound s -> dirfile_ok s p sv -> (0 ∉ name) -> word_ok ino -> ino <> SFS_NOINO ->
  exists sv' s', vol_ok Sound s' /\ s_objs s' !! p = Some sv' /\ dirfile_ok s' p sv' /\
    ((exists e, sfs_dir_link p name ino s = Fail e s' /\ link_error s sv name e /\
        forall nm i, binds (disk s') (sv_i sv') nm i <-> binds (disk s) (sv_i sv) nm i) \/
     (exists slot, sfs_dir_link p name ino s = Done slot s' /\ grows Sound p sv sv' s s' /\
        (forall i, ~ binds (disk s) (sv_i sv) name i) /\
        forall nm i, binds (disk s') (sv_i sv') nm i <-> nm = name /\ i = ino \/ binds (disk s) (sv_i sv) nm i)).
Proof.
  intros V O H0 Hi Hz. destruct (sfs_dir_link_spec s p sv name ino V O H0 Hi Hz) as (sv' & s' & V' & O' & Hr).
  exists sv', s'. split; [done|]. split; [apply (do_file _ _ _ O')|]. done.
Qed.

End correct.

End SfsDir.
