(* ===== verification/SfsVol.v ===== *)
(** * The file system: volumes

    [sfs_sync] puts the inodes of the loaded vnodes, the free map and the superblock on the
    disk, [sfs_domount] gets them back: a volume that was synced and is mounted again has
    the same superblock, the same free blocks and the same inodes.  A mount that fails
    gives back the memory it took. *)

From Stdlib Require Import ZifyNat.
From S2P Require Import Prelude Kmalloc Array Bitmap Uio Blockdev Vnode Sfs SfsBlock SfsFile.
Import Bitmap Uio Vnode Sfs SfsBlock SfsFile.

Module SfsVol.

(** The number of sectors of the free map. *)
Definition mapsize (n : Z) : nat := Z.to_nat ((n + 4095) / 4096).

(** Sector [j] of the map. *)
Definition map_sector (V : list Z) (j : nat) : list Z := take 512 (drop (512 * j) V).

Definition map_stored (dk : list (list Z)) (V : list Z) (n : nat) : Prop :=
  forall j, (j < n)%nat -> dk !! (2 + j)%nat = Some (map_sector V j).

Lemma SFS_BITMAPSIZE_eq n : 0 <= n < 2 ^ 22 -> SFS_BITMAPSIZE n = 4096 * Z.of_nat (mapsize n).
Proof.
  intros Hn. unfold SFS_BITMAPSIZE, SFS_ROUNDUP, mapsize. change SFS_BLOCKBITS with 4096.
  rewrite (u32_small (n + 4096 - 1)) by lia. replace (n + 4096 - 1) with (n + 4095) by lia.
  rewrite Z2Nat.id by dlia. rewrite u32_small by dlia. lia.
Qed.

Lemma SFS_BITBLOCKS_eq n : 0 <= n < 2 ^ 22 -> Z.to_nat (SFS_BITBLOCKS n) = mapsize n.
Proof.
  intros Hn. unfold SFS_BITBLOCKS. rewrite SFS_BITMAPSIZE_eq by done. change SFS_BLOCKBITS with 4096.
  rewrite Z.mul_comm, Z.div_mul by done. lia.
Qed.

Lemma length_map_sector V j n : length V = (512 * n)%nat -> (j < n)%nat -> length (map_sector V j) = 512%nat.
Proof. intros HV Hj. unfold map_sector. rewrite length_take, length_drop. lia. Qed.

(** What a sector of the map is replaced by. *)
Lemma map_sector_inserts V W j n :
  length V = (512 * n)%nat -> length W = (512 * n)%nat -> (j < n)%nat ->
  take (512 * j) V = take (512 * j) W ->
  take (512 * S j) (list_inserts (512 * j) (map_sector W j) V) = take (512 * S j) W.
Proof.
  intros HV HW Hj E. apply list_eq. intros i. destruct (decide (i < 512 * S j)%nat) as [Hi|Hi].
  2:{ rewrite !lookup_ge_None_2; [done| |]; rewrite length_take, ?length_inserts; lia. }
  rewrite !lookup_take_lt by lia. pose proof (length_map_sector W j n HW Hj) as Hl.
  destruct (decide (i < 512 * j)%nat) as [H1|H1].
  - rewrite list_lookup_inserts_lt by lia. assert (take (512 * j) V !! i = take (512 * j) W !! i) as E' by (by rewrite E).
    by rewrite !lookup_take_lt in E' by lia.
  - rewrite list_lookup_inserts by lia. unfold map_sector. rewrite lookup_take_lt, lookup_drop by lia. f_equal. lia.
Qed.

Lemma mapsize_bytes b n :
  0 <= n < 2 ^ 22 -> wf b -> nbits b = SFS_BITMAPSIZE n -> length (v b) = (512 * mapsize n)%nat.
Proof.
  intros Hn Hw Hb. pose proof (wf_len _ Hw) as Hl. rewrite Hb, SFS_BITMAPSIZE_eq in Hl by lia.
  assert (Hm : Z.of_nat (mapsize n) <= 2 ^ 12) by (unfold mapsize; dlia). set (m := mapsize n) in *.
  unfold DIVROUNDUP, BITS_PER_WORD in Hl. rewrite u32_small in Hl by lia.
  replace (4096 * Z.of_nat m + 8 - 1) with (7 + (512 * Z.of_nat m) * 8) in Hl by lia.
  rewrite Z.div_add in Hl by lia. change (7 / 8) with 0 in Hl. lia.
Qed.

Section vol.
Context {K D : Type} `{!Kmalloc K, !Locks K, !Device D, !DeviceSpec D} {w : wear} `{!Writes w}.
Abbreviation sfs := (sfs_fs K D).
Abbreviation dev_ok := (Blockdev.dev_ok w).
Abbreviation same_data := (SfsBlock.same_data w).
Abbreviation vol_ok := (SfsBlock.vol_ok w).
Abbreviation dev_vol := (SfsBlock.dev_vol w).
Implicit Types s : sfs.

Lemma mapio_slice s (j n : nat) :
  length (v (s_freemap s)) = (512 * n)%nat -> (j < n)%nat ->
  slice (bitmap_getdata (s_freemap s)) (Z.of_nat j * SFS_BLOCKSIZE) SFS_BLOCKSIZE = Some (map_sector (v (s_freemap s)) j).
Proof.
  intros HV Hj. unfold bitmap_getdata, map_sector. replace (Z.of_nat j * SFS_BLOCKSIZE) with (Z.of_nat (512 * j)) by
    (unfold SFS_BLOCKSIZE; lia). change SFS_BLOCKSIZE with (Z.of_nat 512). apply slice_spec. lia.
Qed.

Lemma mapio_write_loop m k s (n : nat) :
  dev_vol s -> length (v (s_freemap s)) = (512 * n)%nat -> (k + m = n)%nat ->
  (2 + n <= length (disk s))%nat -> Z.of_nat (2 + n) <= 2 ^ 22 ->
  exists d, for_n m (Z.of_nat k) (mapio_sector UIO_WRITE) s = Done tt (set_dev d s) /\ dev_ok d /\
    length (sectors d) = length (disk s) /\
    (forall j, (k <= j < n)%nat -> sectors d !! (2 + j)%nat = Some (map_sector (v (s_freemap s)) j)) /\
    (forall b, (b < 2 + k \/ 2 + n <= b)%nat -> sectors d !! b = disk s !! b).
Proof.
  revert k s. induction m as [|m IH]; intros k s V HV Hk Hd Hmax.
  { exists (s_dev s). split; [by destruct s|]. split; [apply V|]. split; [done|]. split; [lia|done]. }
  destruct (lookup_lt_is_Some_2 (disk s) (2 + k) ltac:(lia)) as [x Hx].
  destruct (sfs_wblock_dev s (map_sector (v (s_freemap s)) k) (2 + k) x V) as (d1 & E1 & Hd1 & Hs1);
    [by rewrite (length_map_sector _ _ n) by lia|lia|done|].
  destruct (IH (S k) (set_dev d1 s) (dev_vol_dev s d1 V Hd1) HV ltac:(lia)) as (d & E & Hd' & Hl & Hj & Hb);
    [unfold disk; simpl; rewrite Hs1, length_insert; done|done|].
  exists d. cbn [for_n]. rewrite (bind_Done _ _ s tt (set_dev d1 s)).
  2:{ unfold mapio_sector. munfold. unfold id. rewrite (mapio_slice s k n HV ltac:(lia)).
      replace (SFS_MAP_LOCATION + Z.of_nat k) with (Z.of_nat (2 + k)) by (unfold SFS_MAP_LOCATION; lia). exact E1. }
  replace (Z.of_nat k + 1) with (Z.of_nat (S k)) by lia. unfold disk in *. simpl in *. rewrite Hs1 in *.
  split; [done|]. split; [done|]. split; [by rewrite Hl, length_insert|]. split.
  - intros j Hjk. destruct (decide (j = k)) as [->|Hne]; [|apply Hj; lia].
    rewrite Hb by lia. by rewrite list_lookup_insert_eq by lia.
  - intros b Hbb. rewrite Hb by lia. rewrite list_lookup_insert_ne by lia. done.
Qed.

Definition with_bytes (d : D) (V : list Z) s : sfs := set_freemap (Bitmap.set_v V (s_freemap s)) (set_dev d s).

Lemma mapio_read_loop m k s (n : nat) W :
  dev_vol s -> length (v (s_freemap s)) = (512 * n)%nat -> length W = (512 * n)%nat -> (k + m = n)%nat ->
  map_stored (disk s) W n -> Z.of_nat (2 + n) <= 2 ^ 22 ->
  take (512 * k) (v (s_freemap s)) = take (512 * k) W ->
  exists d, same_data (s_dev s) d /\
    (for_n m (Z.of_nat k) (mapio_sector UIO_READ) s = Done tt (with_bytes d W s) \/
     exists V, for_n m (Z.of_nat k) (mapio_sector UIO_READ) s = Fail EIO (with_bytes d V s)).
Proof.
  revert k s. induction m as [|m IH]; intros k s V HV HW Hk Hst Hmax HkV.
  { exists (s_dev s). split; [split; [apply V|done]|]. left. rewrite !take_ge in HkV by lia. rewrite <- HkV.
    by destruct s as [? ? ? ? ? ? ? ? []]. }
  pose proof (length_map_sector _ k n HV ltac:(lia)) as Hl1. pose proof (length_map_sector _ k n HW ltac:(lia)) as Hl2.
  destruct (sfs_rblock_dev s (map_sector (v (s_freemap s)) k) (2 + k) (map_sector W k) V Hl1 ltac:(lia) (Hst k ltac:(lia)))
    as (d1 & Hd1 & E1).
  replace (Z.of_nat (2 + k)) with (SFS_MAP_LOCATION + Z.of_nat k) in E1 by (unfold SFS_MAP_LOCATION; lia).
  cbn [for_n]. set (body := mapio_sector UIO_READ (Z.of_nat k)).
  assert (Eb : body s = match sfs_rblock (map_sector (v (s_freemap s)) k) (SFS_MAP_LOCATION + Z.of_nat k) s with
                        | Done b s' => (s ← gets id; v ← access (splice (bitmap_getdata (s_freemap s)) (Z.of_nat k * SFS_BLOCKSIZE) b);
                                         modify (set_freemap (Bitmap.set_v v (s_freemap s)))) s'
                        | Fail e s' => Fail e s' | Panic => Panic | Undef => Undef | NoFuel => NoFuel end).
  { unfold body, mapio_sector. munfold. unfold id. by rewrite (mapio_slice s k n HV ltac:(lia)). }
  destruct E1 as [E1|E1]; rewrite E1 in Eb.
  2:{ exists d1. split; [done|]. right. exists (v (s_freemap s)). rewrite (bind_Fail _ _ _ _ _ Eb).
      unfold with_bytes. by destruct s as [? ? ? ? ? ? ? ? []]. }
  set (V1 := list_inserts (512 * k) (map_sector W k) (v (s_freemap s))).
  assert (Eb' : body s = Done tt (with_bytes d1 V1 s)).
  { rewrite Eb. munfold. unfold id, bitmap_getdata.
    replace (Z.of_nat k * SFS_BLOCKSIZE) with (Z.of_nat (512 * k)) by (unfold SFS_BLOCKSIZE; lia).
    rewrite splice_spec; [done|]. simpl. lia. }
  rewrite (bind_Done _ _ _ _ _ Eb'). replace (Z.of_nat k + 1) with (Z.of_nat (S k)) by lia.
  destruct (IH (S k) (with_bytes d1 V1 s)) as (d & Hd & Hr); try done.
  - split; [apply Hd1|apply V].
  - unfold V1. simpl. by rewrite length_inserts.
  - lia.
  - unfold disk, map_stored in *. simpl. destruct Hd1 as [_ Hd1]. by rewrite Hd1.
  - simpl. by apply (map_sector_inserts _ W k n); try lia.
  - exists d. destruct Hd as [Hd Hsd], Hd1 as [_ Hd1]. simpl in Hsd. split; [split; [done|congruence]|].
    destruct Hr as [->|[V' ->]]; [by left|right]. by exists V'.
Qed.

(** ** Sync *)

(** The layout of a volume in memory. *)
Record layout s : Prop := {
  ly_super : super_ok (s_super s);
  ly_magic : sp_magic (s_super s) = SFS_MAGIC;
  ly_name : sp_volname (s_super s) !! 31%nat = Some 0;
  ly_map : nbits (s_freemap s) = SFS_BITMAPSIZE (sp_nblocks (s_super s));
  ly_fits : 2 + Z.of_nat (mapsize (sp_nblocks (s_super s))) <= sp_nblocks (s_super s);
}.

(** What is not marked dirty is on the disk. *)
Definition stored s : Prop :=
  (s_superdirty s = false -> disk s !! 0%nat = Some (super_bytes (s_super s))) /\
  (s_freemapdirty s = false -> map_stored (disk s) (v (s_freemap s)) (mapsize (sp_nblocks (s_super s)))).

Definition clean (d : D) s : sfs := set_superdirty false (set_freemapdirty false (set_dev d s)).

Lemma layout_bytes s : vol_ok s -> layout s ->
  length (v (s_freemap s)) = (512 * mapsize (sp_nblocks (s_super s)))%nat.
Proof.
  intros V L. pose proof (vo_blocks _ V). pose proof (vo_max _ V). apply mapsize_bytes; [lia|apply V|apply L].
Qed.

Lemma getnum_eq s : zoom vnodesL Array.array_getnum s = Done (Array.num (s_vnodes s)) s.
Proof. by destruct s. Qed.

Lemma sync_map s :
  vol_ok s -> layout s -> stored s ->
  exists d, ((if s_freemapdirty s then sfs_mapio UIO_WRITE ;; modify (set_freemapdirty false) else mret tt) : M sfs unit) s =
      Done tt (set_freemapdirty false (set_dev d s)) /\ dev_ok d /\ length (sectors d) = length (disk s) /\
    map_stored (sectors d) (v (s_freemap s)) (mapsize (sp_nblocks (s_super s))) /\
    forall b, (b < 2 \/ 2 + mapsize (sp_nblocks (s_super s)) <= b)%nat -> sectors d !! b = disk s !! b.
Proof.
  intros V L [_ St]. pose proof (vo_blocks _ V). pose proof (vo_max _ V). pose proof (ly_fits _ L).
  destruct (s_freemapdirty s) eqn:Ef.
  2:{ exists (s_dev s). split; [destruct s; simpl in *; by subst|]. split; [apply V|]. split; [done|]. split; [by apply St|done]. }
  destruct (mapio_write_loop (mapsize (sp_nblocks (s_super s))) 0 s _ (vol_dev s V) (layout_bytes s V L) eq_refl)
    as (d & E & Hd & Hl & Hst & Hb); [unfold disk in *; lia|lia|].
  exists d. rewrite (bind_Done _ _ s tt (set_dev d s)).
  2:{ unfold sfs_mapio. munfold. unfold id. rewrite SFS_BITBLOCKS_eq by lia. exact E. }
  split; [done|]. split; [done|]. split; [done|]. split; [intros j Hj; apply Hst; lia|]. intros b Hbb. apply Hb. lia.
Qed.

Definition sync_volume : M sfs unit :=
  s ← gets id;
  (if s_freemapdirty s then sfs_mapio UIO_WRITE ;; modify (set_freemapdirty false) else mret tt) ;;
  s ← gets id;
  if s_superdirty s then
    sfs_wblock (super_bytes (s_super s)) SFS_SB_LOCATION ;; modify (set_superdirty false)
  else mret tt.

(** [sfs_sync] after the sweep over the vnodes. *)
Lemma sync_volume_spec s :
  vol_ok s -> layout s -> stored s ->
  exists d, sync_volume s = Done tt (clean d s) /\ dev_ok d /\ length (sectors d) = length (disk s) /\
    sectors d !! 0%nat = Some (super_bytes (s_super s)) /\
    map_stored (sectors d) (v (s_freemap s)) (mapsize (sp_nblocks (s_super s))) /\
    forall b, (b = 1 \/ 2 + mapsize (sp_nblocks (s_super s)) <= b)%nat -> sectors d !! b = disk s !! b.
Proof.
  intros V L St. unfold sync_volume. rewrite (bind_Done (gets id) _ s s s) by done.
  destruct (sync_map s V L St) as (d & E & Hd & Hl & Hst & Hb). rewrite (bind_Done _ _ _ _ _ E).
  set (s1 := set_freemapdirty false (set_dev d s)) in *. rewrite (bind_Done (gets id) _ s1 s1 s1) by done.
  change (s_superdirty s1) with (s_superdirty s). destruct (s_superdirty s) eqn:Es.
  2:{ exists d. split; [unfold clean, s1; destruct s; simpl in *; by subst|]. split; [done|]. split; [done|].
      split; [rewrite Hb by lia; by apply (proj1 St)|]. split; [done|]. intros b Hbb. apply Hb. lia. }
  pose proof (vo_blocks _ V). pose proof (vo_max _ V). pose proof (ly_fits _ L).
  destruct (lookup_lt_is_Some_2 (sectors d) 0 ltac:(lia)) as [x Hx].
  destruct (sfs_wblock_dev s1 (super_bytes (s_super s)) 0 x) as (d1 & E1 & Hd1 & Hs1); [split; [done|apply V]| |lia|done|].
  { apply super_roundtrip, L. }
  exists d1. unfold SFS_SB_LOCATION. change 0 with (Z.of_nat 0) at 1. rewrite (bind_Done _ _ _ _ _ E1). unfold disk in Hs1.
  simpl in Hs1. rewrite Hs1. split; [done|]. split; [done|]. split; [by rewrite length_insert|].
  split; [by rewrite list_lookup_insert_eq by lia|]. split.
  - intros j Hj. rewrite list_lookup_insert_ne by lia. by apply Hst.
  - intros b Hbb. rewrite list_lookup_insert_ne by lia. apply Hb. lia.
Qed.

End vol.

(** ** Mount *)

Section mount.
Context {K D : Type} `{!Kmalloc K, !KmallocSpec K, !Locks K, !Device D, !DeviceSpec D} {w : wear}.
Abbreviation sfs := (sfs_fs K D).
Abbreviation dev_ok := (Blockdev.dev_ok w).
Abbreviation same_data := (SfsBlock.same_data w).
Abbreviation vol_ok := (SfsBlock.vol_ok w).
Abbreviation dev_vol := (SfsBlock.dev_vol w).
Implicit Types s : sfs.

(** The blocks of a file system structure and of its empty table of vnodes. *)
Record mounting s (B : gmap Z Z) : Prop := {
  mt_array : exists a, s_vnodes s = Array.mkarray a 0 0 0 [] /\ <[s_self s := sizeof_sfs_fs]> B !! a = None /\
    B !! s_self s = None /\ heap_rep (s_kern s) (<[a := Array.sizeof_array]> (<[s_self s := sizeof_sfs_fs]> B));
}.

Lemma mount_undo_spec {A} s B e :
  mounting s B ->
  exists s', mount_undo (A := A) e s = Fail e s' /\ heap_rep (s_kern s') B /\ s_ctx s' = s_ctx s /\ s_dev s' = s_dev s.
Proof.
  intros [(a & Ea & Ha & Hs & R)]. unfold mount_undo, Array.array_destroy, Array.getA, zoom. munfold. simpl. rewrite Ea. simpl.
  destruct (kfree_spec _ _ _ _ R (lookup_insert_eq _ _ _)) as (h1 & E1 & R1). rewrite E1. simpl.
  rewrite delete_insert_id in R1 by done.
  destruct (kfree_spec _ _ _ _ R1 (lookup_insert_eq _ _ _)) as (h2 & E2 & R2). rewrite E2. simpl.
  rewrite delete_insert_id in R2 by done. eexists. split; [done|]. done.
Qed.

Lemma mounting_same s s' B :
  mounting s B -> s_kern s' = s_kern s -> s_self s' = s_self s -> s_vnodes s' = s_vnodes s -> mounting s' B.
Proof. intros [(a & Ea & Ha & Hs & R)] E1 E2 E3. split. exists a. by rewrite E1, E2, E3. Qed.

Definition terminated_super (sp : sfs_super) : sfs_super :=
  mksuper (sp_magic sp) (sp_nblocks sp) (<[31%nat := 0]> (sp_volname sp)) (sp_reserved sp).

(** A disk that can be mounted: what its superblock says is there. *)
Record mountable (d : D) (sp : sfs_super) (W : list Z) : Prop := {
  mb_super : exists x, sectors d !! 0%nat = Some x /\ super_of_bytes x = sp;
  mb_blocks : sp_magic sp = SFS_MAGIC -> 0 <= sp_nblocks sp < 2 ^ 22 /\ Z.of_nat (2 + mapsize (sp_nblocks sp)) <= 2 ^ 22;
  mb_map : sp_magic sp = SFS_MAGIC ->
    length W = (512 * mapsize (sp_nblocks sp))%nat /\ map_stored (sectors d) W (mapsize (sp_nblocks sp));
}.

(** A mounted volume. *)
Definition mounted (sp : sfs_super) (W : list Z) s : Prop :=
  sp_magic sp = SFS_MAGIC /\ s_super s = terminated_super sp /\ v (s_freemap s) = W /\
  nbits (s_freemap s) = SFS_BITMAPSIZE (sp_nblocks sp) /\ s_superdirty s = false /\ s_freemapdirty s = false /\
  s_objs s = ∅ /\ Array.num (s_vnodes s) = 0.

Definition mount_error (sp : sfs_super) (e : errno) : Prop :=
  e = ENOMEM \/ e = EIO \/ e = EINVAL /\ sp_magic sp <> SFS_MAGIC.

(** The free map, once the superblock was accepted. *)
Lemma mount_map_spec s B sp W bm h :
  mounting s B -> dev_vol s -> mountable (s_dev s) sp W -> sp_magic sp = SFS_MAGIC -> s_super s = terminated_super sp ->
  s_objs s = ∅ -> bitmap_create (SFS_BITMAPSIZE (sp_nblocks sp)) (s_kern s) = Done (Some bm) h ->
  exists d, same_data (s_dev s) d /\
    let r := (modify (set_freemap bm) ;;
              r ← attempt (sfs_mapio UIO_READ);
              match r with
              | inl e => s ← gets id; zoom kernL (bitmap_destroy (s_freemap s)) ;; mount_undo e
              | inr _ => modify (set_superdirty false) ;; modify (set_freemapdirty false)
              end) (set_kern h s) in
    ((exists s', r = Fail EIO s' /\ heap_rep (s_kern s') B /\ s_ctx s' = s_ctx s /\ s_dev s' = d) \/
     (exists s', r = Done tt s' /\ s_ctx s' = s_ctx s /\ s_dev s' = d /\ mounted sp W s')).
Proof.
  intros [(a & Ea & Ha & Hs & R)] V Mb Hmg Hsup Ho Ec.
  destruct (mb_blocks _ _ _ Mb Hmg) as [Hn Hmax]. destruct (mb_map _ _ _ Mb Hmg) as [HW Hst].
  assert (HB : 0 <= SFS_BITMAPSIZE (sp_nblocks sp) <= MAXBITS).
  { rewrite SFS_BITMAPSIZE_eq by lia. unfold MAXBITS, mapsize. dlia. }
  destruct (bitmap_create_spec _ _ _ R HB) as (r & h' & Ec' & Hr). rewrite Ec in Ec'. injection Ec' as <- <-.
  destruct Hr as (Hw & _ & Hnb & Hb1 & Hb2 & R2). set (s1 := set_freemap bm (set_kern h s)).
  destruct (mapio_read_loop (w := w) (mapsize (sp_nblocks sp)) 0 s1 (mapsize (sp_nblocks sp)) W) as (d & Hd & Hr); try done.
  { by destruct V. }
  { by apply mapsize_bytes. }
  assert (Em : sfs_mapio UIO_READ s1 = for_n (mapsize (sp_nblocks sp)) (Z.of_nat 0) (mapio_sector UIO_READ) s1).
  { unfold sfs_mapio. munfold. unfold id. simpl. rewrite Hsup. simpl. by rewrite SFS_BITBLOCKS_eq. }
  rewrite <- Em in Hr. exists d. split; [done|]. cbv zeta. rewrite (bind_Done _ _ _ tt s1) by done.
  destruct Hr as [E|[V' E]].
  - right. rewrite (bind_Done _ _ _ _ _ (attempt_Done _ _ _ _ E)). eexists. split; [done|]. split; [done|]. split; [done|].
    unfold mounted. simpl. rewrite Hsup, Ea. done.
  - left. rewrite (bind_Done _ _ _ _ _ (attempt_Fail _ _ _ _ E)). rewrite (bind_Done (gets id) _ _ (with_bytes d V' s1) (with_bytes d V' s1)) by done.
    destruct (bitmap_destroy_spec h _ (s_freemap (with_bytes d V' s1)) _ _ R2 Hb1 Hb2) as (h2 & Ed & R3).
    rewrite (bind_Done _ _ _ tt (set_kern h2 (with_bytes d V' s1))).
    2:{ unfold zoom. cbn [lget lset kernL]. change (s_kern (with_bytes d V' s1)) with h. by rewrite Ed. }
    destruct (mount_undo_spec (A := unit) (set_kern h2 (with_bytes d V' s1)) B EIO) as (s' & -> & R4 & Hc & Hdv).
    { split. exists a. done. }
    exists s'. done.
Qed.

Lemma mount_load_spec s B sp W :
  mounting s B -> dev_vol s -> mountable (s_dev s) sp W -> s_objs s = ∅ ->
  exists d, same_data (s_dev s) d /\
    ((exists e s', mount_load s = Fail e s' /\ heap_rep (s_kern s') B /\ s_ctx s' = s_ctx s /\ s_dev s' = d /\ mount_error sp e) \/
     (exists s', mount_load s = Done tt s' /\ s_ctx s' = s_ctx s /\ s_dev s' = d /\ mounted sp W s')).
Proof.
  intros Mt V Mb Ho. destruct (mb_super _ _ _ Mb) as (x & Hx & Hsp).
  destruct (sfs_rblock_dev s zero_block 0 x V eq_refl ltac:(lia) Hx) as (d & Hd & E).
  change (Z.of_nat 0) with SFS_SB_LOCATION in E. unfold mount_load. destruct E as [E|E].
  2:{ exists d. split; [done|]. left. rewrite (bind_Done _ _ _ _ _ (attempt_Fail _ _ _ _ E)).
      destruct (mount_undo_spec (A := unit) (set_dev d s) B EIO) as (s' & -> & R & Hc & Hdv); [by eapply mounting_same|].
      exists EIO, s'. split; [done|]. split; [done|]. split; [done|]. split; [done|]. right. by left. }
  rewrite (bind_Done _ _ _ _ _ (attempt_Done _ _ _ _ E)). cbv zeta. rewrite Hsp.
  rewrite (bind_Done _ _ _ tt (set_super sp (set_dev d s))) by done.
  destruct (decide (sp_magic sp <> SFS_MAGIC)) as [Hm|Hm].
  { exists d. split; [done|]. left.
    destruct (mount_undo_spec (A := unit) (set_super sp (set_dev d s)) B EINVAL) as (s' & -> & R & Hc & Hdv); [by eapply mounting_same|].
    exists EINVAL, s'. split; [done|]. split; [done|]. split; [done|]. split; [done|]. right. by right. }
  assert (Hmg : sp_magic sp = SFS_MAGIC) by (destruct (decide (sp_magic sp = SFS_MAGIC)); [done|tauto]). clear Hm.
  set (s1 := set_super (terminated_super sp) (set_dev d s)). rewrite (bind_Done _ _ _ tt s1) by done.
  assert (Mt1 : mounting s1 B) by (by eapply mounting_same). pose proof Mt1 as [(a & Ea & Ha & Hs & R)].
  destruct (mb_blocks _ _ _ Mb Hmg) as [Hn Hmax].
  assert (HB : 0 <= SFS_BITMAPSIZE (sp_nblocks sp) <= MAXBITS).
  { rewrite SFS_BITMAPSIZE_eq by lia. unfold MAXBITS, mapsize. dlia. }
  destruct (bitmap_create_spec (s_kern s1) _ _ R HB) as ([bm|] & h & Ec & Hr).
  - rewrite (bind_Done _ _ _ (Some bm) (set_kern h s1)) by (unfold zoom, kernL; simpl; simpl in Ec; by rewrite Ec).
    destruct (mount_map_spec s1 B sp W bm h Mt1) as (d' & [Hd1 Hd2] & Hres); try done.
    { by destruct V, Hd. }
    { destruct Mb as [M1 M2 M3], Hd as [_ Hd]. split; [|done|]; simpl; rewrite Hd; [by exists x|done]. }
    exists d'. split; [split; [done|]; simpl in Hd2; destruct Hd as [_ Hd]; congruence|].
    destruct Hres as [(s' & E' & R' & Hc & Hdv)|(s' & E' & Hres)]; [left|right].
    + exists EIO, s'. split; [exact E'|]. split; [done|]. split; [done|]. split; [done|]. right. by left.
    + exists s'. split; [exact E'|exact Hres].
  - rewrite (bind_Done _ _ _ None (set_kern h s1)) by (unfold zoom, kernL; simpl; simpl in Ec; by rewrite Ec).
    exists d. split; [done|]. left.
    destruct (mount_undo_spec (A := unit) (set_kern h s1) B ENOMEM) as (s' & -> & R' & Hc & Hdv); [split; by exists a|].
    exists ENOMEM, s'. split; [done|]. split; [done|]. split; [done|]. split; [done|]. by left.
Qed.


Lemma sfs_domount_spec k c (d : D) B sp W :
  heap_rep k B -> dev_ok d -> badfault c = false -> mountable d sp W ->
  exists d' k', same_data d d' /\
    ((exists e, sfs_domount (k, (c, d)) = Fail e (k', (c, d')) /\ heap_rep k' B /\ mount_error sp e) \/
     (exists s, sfs_domount (k, (c, d)) = Done s (k', (c, d')) /\ s_kern s = k' /\ s_ctx s = c /\ s_dev s = d' /\ mounted sp W s)).
Proof.
  intros R Hd Hc Mb. unfold sfs_domount. rewrite (bind_Done _ _ _ d (k, (c, d))) by done.
  rewrite decide_False by (rewrite (dev_blocksize _ d Hd); intros H; by apply H).
  destruct (kmalloc_spec k B sizeof_sfs_fs R) as [(k1 & E & R1)|(self & k1 & E & Hs & HB & R1)];
    [unfold sizeof_sfs_fs, KMALLOC_MAX; lia|..].
  { exists d, k1. split; [done|]. left. exists ENOMEM. rewrite (bind_Done _ _ _ 0 (k1, (c, d))) by (unfold zoom; simpl; by rewrite E).
    split; [done|]. split; [done|]. by left. }
  rewrite (bind_Done _ _ _ self (k1, (c, d))) by (unfold zoom; simpl; by rewrite E). rewrite decide_False by done.
  destruct (kmalloc_spec k1 _ Array.sizeof_array R1) as [(k2 & E2 & R2)|(a & k2 & E2 & Ha & HBa & R2)];
    [unfold Array.sizeof_array, KMALLOC_MAX; lia|..].
  { destruct (kfree_spec k2 _ self _ R2 (lookup_insert_eq _ _ _)) as (k3 & E3 & R3). rewrite delete_insert_id in R3 by done.
    exists d, k3. split; [done|]. left. exists ENOMEM.
    unfold Array.array_create, zoom. munfold. simpl. rewrite E2. simpl. rewrite E3. simpl. split; [done|]. split; [done|]. by left. }
  set (vns := Array.mkarray a 0 0 0 [] : Array.array Z).
  rewrite (bind_Done _ _ _ (Some vns) (k2, (c, d))).
  2:{ unfold Array.array_create, zoom. munfold. simpl. rewrite E2. by rewrite decide_False. }
  set (s0 := mksfs k2 c d self (mksuper 0 0 [] []) false vns ∅ (mkbitmap 0 0 0 []) false).
  destruct (mount_load_spec s0 B sp W) as (d' & Hd' & Hres); [split; by exists a|by split|done|done|].
  destruct Hres as [(e & s' & El & R' & Hc' & Hdv & He)|(s' & El & Hc' & Hdv & Hm)]; exists d', (s_kern s'); (split; [done|]); [left|right].
  - exists e. unfold mount_run. simpl fst. simpl snd. fold s0. rewrite El, Hc', Hdv. done.
  - exists s'. unfold mount_run. simpl fst. simpl snd. fold s0. rewrite El, Hc', Hdv. done.
Qed.

(** C21: Mounting a disk whose superblock describes what is on it reads the superblock
    and the free map into a clean volume with no vnode loaded, or fails for want of memory,
    for a disk error, or because the magic number is wrong; a mount that fails leaves the
    heap with the blocks it had before.  The disk is only read. *)
Theorem sfs_domount_correct k c (d : D) B sp W :
  heap_rep k B -> dev_ok d -> badfault c = false -> mountable d sp W ->
  exists d' k', same_data d d' /\
    ((exists e, sfs_domount (k, (c, d)) = Fail e (k', (c, d')) /\ heap_rep k' B /\ mount_error sp e) \/
     (exists s, sfs_domount (k, (c, d)) = Done s (k', (c, d')) /\ s_kern s = k' /\ s_ctx s = c /\ s_dev s = d' /\ mounted sp W s)).
Proof. apply sfs_domount_spec. Qed.

Lemma terminated_super_id sp : sp_volname sp !! 31%nat = Some 0 -> terminated_super sp = sp.
Proof. intros H. unfold terminated_super. destruct sp; simpl in *. by rewrite list_insert_id. Qed.

End mount.

(** ** The sweep over the loaded vnodes *)

Section sweep.
Context {K D : Type} `{!Kmalloc K, !Locks K, !LockSpec K, !LockFrame K, !Device D, !DeviceSpec D} {w : wear} `{!Writes w}.
Abbreviation sfs := (sfs_fs K D).
Abbreviation dev_ok := (Blockdev.dev_ok w).
Abbreviation vol_ok := (SfsBlock.vol_ok w).
Implicit Types s : sfs.

(** A vnode that can be synced: its count lock is free, its inode has a block of its own
    past the map, which holds the inode unless the vnode is marked dirty. *)
Record vnode_ok s (p : Z) (sv : sfs_vnode) : Prop := {
  vk_obj : s_objs s !! p = Some sv;
  vk_ptr : p <> 0 /\ p <> deadbeef;
  vk_ops : exists o, vn_ops (sv_v sv) = Some o;
  vk_fs : vn_fs (sv_v sv) <> deadbeef;
  vk_counts : 0 < vn_refcount (sv_v sv) /\ 0 <= vn_opencount (sv_v sv);
  vk_lock : lk_free (s_kern s) (vn_countlock (sv_v sv));
  vk_inode : inode_ok (sv_i sv);
  vk_ino : sv_ino sv = SFS_ROOT_LOCATION \/ 2 + Z.of_nat (mapsize (sp_nblocks (s_super s))) <= sv_ino sv;
  vk_range : 0 < sv_ino sv < sp_nblocks (s_super s);
  vk_clean : sv_dirty sv = false -> disk s !! Z.to_nat (sv_ino sv) = Some (inode_bytes (sv_i sv));
}.

Definition in_table s (p : Z) : Prop :=
  exists j, (j < Z.to_nat (Array.num (s_vnodes s)))%nat /\ Array.vdata (s_vnodes s) !! j = Some (Some p).

(** The table of the loaded vnodes: no inode is loaded twice. *)
Record vtable_ok s : Prop := {
  tb_wf : Array.wf (s_vnodes s);
  tb_set : forall j, (j < Z.to_nat (Array.num (s_vnodes s)))%nat -> exists p, Array.vdata (s_vnodes s) !! j = Some (Some p);
  tb_each : forall p, in_table s p -> exists sv, vnode_ok s p sv;
  tb_once : forall p q sv sv', in_table s p -> in_table s q -> s_objs s !! p = Some sv -> s_objs s !! q = Some sv' ->
    sv_ino sv = sv_ino sv' -> p = q;
}.

(** From [s] to [s'] inodes of loaded vnodes were written. *)
Record swept s s' : Prop := {
  sw_vol : vol_ok s';
  sw_table : vtable_ok s';
  sw_rest : (s_ctx s', s_self s', s_super s', s_superdirty s', s_vnodes s', s_freemap s', s_freemapdirty s') =
            (s_ctx s, s_self s, s_super s, s_superdirty s, s_vnodes s, s_freemap s, s_freemapdirty s);
  sw_objs : forall p, s_objs s' !! p = s_objs s !! p \/ in_table s p /\ s_objs s' !! p = set_dirty false <$> s_objs s !! p;
  sw_len : length (disk s') = length (disk s);
  sw_disk : forall b, (forall p sv, in_table s p -> s_objs s !! p = Some sv -> sv_ino sv <> Z.of_nat b) -> disk s' !! b = disk s !! b;
}.

Lemma in_table_same s s' p : s_vnodes s' = s_vnodes s -> in_table s' p <-> in_table s p.
Proof. unfold in_table. by intros ->. Qed.

(** [vnode_check] on a vnode in order. *)
Lemma check_free s p sv op :
  vnode_ok s p sv ->
  exists k, vnode_check kernL vget p op s = Done tt (set_kern k s) /\ forall l, lk_free (s_kern s) l -> lk_free k l.
Proof.
  intros [Ho [Hp Hd] [o Hops] Hf [Hr Hn] Hl _ _ _ _]. unfold vnode_check. rewrite decide_False by tauto.
  rewrite (bind_Done _ _ _ _ _ (get_vn_eq s p sv Ho)), Hops, decide_False by done.
  destruct (acquire_free (s_kern s) _ Hl) as (k1 & E1 & Hm). destruct (release_mine k1 _ Hm) as (k2 & E2 & Hl2).
  rewrite (bind_Done _ _ s tt (set_kern k1 s)) by (unfold zoom; cbn [lget lset kernL]; by rewrite E1).
  rewrite (decide_False (P := vn_refcount (sv_v sv) < 0)) by lia. rewrite (decide_False (P := _ /\ _)) by (intros [? _]; lia).
  rewrite (decide_False (P := vn_opencount (sv_v sv) < 0)) by lia.
  rewrite (bind_Done (mret tt) _ _ tt (set_kern k1 s)), (bind_Done (mret tt) _ _ tt (set_kern k1 s)) by done.
  exists k2. split; [unfold zoom; cbn [lget lset kernL]; change (s_kern (set_kern k1 s)) with k1; by rewrite E2|].
  intros l H. destruct (decide (l = vn_countlock (sv_v sv))) as [->|Hne]; [done|].
  exact (release_frame k1 _ k2 l Hm E2 Hne (acquire_frame _ _ k1 l Hl E1 Hne H)).
Qed.

(** One vnode: afterwards it is clean and its inode is on the disk. *)
Lemma sync_vnode_step s (j : nat) p sv :
  vol_ok s -> vtable_ok s -> (j < Z.to_nat (Array.num (s_vnodes s)))%nat ->
  Array.vdata (s_vnodes s) !! j = Some (Some p) -> vnode_ok s p sv ->
  exists k d, sync_vnode (Z.of_nat j) s =
      Done tt (set_objs (<[p := set_dirty false sv]> (s_objs s)) (set_dev d (set_kern k s))) /\
    (forall l, lk_free (s_kern s) l -> lk_free k l) /\ dev_ok d /\
    sectors d = <[Z.to_nat (sv_ino sv) := inode_bytes (sv_i sv)]> (disk s).
Proof.
  intros V T Hj Hp Hk. destruct (check_free s p sv "fsync" Hk) as (k & Ec & Hl). exists k.
  set (s1 := set_kern k s). assert (Ho : s_objs s1 !! p = Some sv) by apply Hk.
  assert (Ev : forall r, sfs_sync_inode p s1 = r -> VOP_FSYNC p s = r).
  { intros r Er. unfold VOP_FSYNC, vop. rewrite (bind_Done _ _ _ _ _ Ec). fold s1.
    rewrite (bind_Done _ _ _ _ _ (get_vn_eq s1 p sv Ho)). destruct (vk_ops _ _ _ Hk) as [o ->]. exact Er. }
  assert (Es : forall s2, sfs_sync_inode p s1 = Done tt s2 -> sync_vnode (Z.of_nat j) s = Done tt s2).
  { intros s2 E2. unfold sync_vnode. rewrite (bind_Done _ _ _ _ _ (getguy_eq s j p (tb_wf _ T) Hj Hp)).
    rewrite (bind_Done _ _ s p s) by done. by rewrite (bind_Done _ _ _ _ _ (attempt_Done _ _ _ _ (Ev _ E2))). }
  unfold sfs_sync_inode in Es. rewrite (bind_Done _ _ _ _ _ (get_sv_eq s1 p sv Ho)) in Es.
  destruct (vk_range _ _ _ Hk) as [Hi0 Hi1]. destruct (sector_of s (sv_ino sv) V ltac:(lia)) as [x Hx].
  destruct (sv_dirty sv) eqn:Ed.
  - pose proof (vo_max _ V). destruct (inode_roundtrip _ (vk_inode _ _ _ Hk)) as [Hlen _].
    destruct (sfs_wblock_dev s1 (inode_bytes (sv_i sv)) (Z.to_nat (sv_ino sv)) x) as (d & E & Hd & Hs);
      [destruct V; by split|done|lia|done|].
    rewrite Z2Nat.id in E by lia. exists d. split; [|done]. apply Es. by rewrite (bind_Done _ _ _ _ _ E).
  - exists (s_dev s). split; [|split; [done|split; [apply V|]]].
    + rewrite (Es s1) by done. destruct s, sv; simpl in *. subst. by rewrite insert_id.
    + rewrite list_insert_id; [done|]. by apply (vk_clean _ _ _ Hk).
Qed.

(** The volume after one vnode was synced. *)
Lemma vnode_ok_sync s p sv q svq k d :
  vtable_ok s -> in_table s p -> in_table s q -> vnode_ok s p sv -> vnode_ok s q svq ->
  (sv_ino sv < Z.of_nat (length (disk s))) -> (forall l, lk_free (s_kern s) l -> lk_free k l) ->
  sectors d = <[Z.to_nat (sv_ino sv) := inode_bytes (sv_i sv)]> (disk s) ->
  let s' := set_objs (<[p := set_dirty false sv]> (s_objs s)) (set_dev d (set_kern k s)) in
  vnode_ok s' q (if decide (q = p) then set_dirty false sv else svq).
Proof.
  intros T Lp Lq Hp Hq Hlen Hl Hs s'. pose proof (vk_range _ _ _ Hp) as Hr. pose proof (vk_range _ _ _ Hq) as Hrq.
  destruct (decide (q = p)) as [->|Hne].
  - destruct Hp. split; try done; [simpl; by rewrite lookup_insert_eq|by apply Hl|].
    intros _. unfold disk. simpl. rewrite Hs. apply list_lookup_insert_eq. lia.
  - assert (Hino : sv_ino svq <> sv_ino sv) by (intros E; by apply Hne, (tb_once _ T q p svq sv Lq Lp (vk_obj _ _ _ Hq) (vk_obj _ _ _ Hp))).
    destruct Hq. split; try done; [simpl; by rewrite lookup_insert_ne|by apply Hl|].
    intros Hc. unfold disk. simpl. rewrite Hs, list_lookup_insert_ne by lia. by apply vk_clean0.
Qed.

Lemma swept_step s p sv k d :
  vol_ok s -> vtable_ok s -> in_table s p -> vnode_ok s p sv ->
  (forall l, lk_free (s_kern s) l -> lk_free k l) -> dev_ok d ->
  sectors d = <[Z.to_nat (sv_ino sv) := inode_bytes (sv_i sv)]> (disk s) ->
  swept s (set_objs (<[p := set_dirty false sv]> (s_objs s)) (set_dev d (set_kern k s))).
Proof.
  intros V T Lp Hp Hl Hd Hs. set (s' := set_objs _ _). pose proof (vk_range _ _ _ Hp) as Hr. pose proof (vo_blocks _ V) as Hb.
  assert (Hlen : length (disk s') = length (disk s)) by (unfold disk; simpl; by rewrite Hs, length_insert).
  assert (Hobj : forall q svq, s_objs s' !! q = Some svq -> exists sv0, s_objs s !! q = Some sv0 /\ sv_ino sv0 = sv_ino svq).
  { intros q svq. simpl. rewrite lookup_insert_Some. intros [[<- <-]|[_ E]]; [|by exists svq].
    exists sv. split; [apply Hp|done]. }
  split; try done.
  - destruct V. split; try done; rewrite ?Hlen; done.
  - destruct T as [T1 T2 T3 T4]. split; [done|done| |].
    + intros q Lq%(in_table_same s). 2:{ done. } destruct (T3 q Lq) as [svq Hq]. eexists.
      apply (vnode_ok_sync s p sv q svq k d); try done; lia.
    + intros q1 q2 v1 v2 L1 L2 E1 E2 E. destruct (Hobj _ _ E1) as (w1 & F1 & G1), (Hobj _ _ E2) as (w2 & F2 & G2).
      apply (T4 q1 q2 w1 w2); [done|done|done|done|congruence].
  - intros q. simpl. destruct (decide (q = p)) as [->|Hne]; [right|left; by rewrite lookup_insert_ne].
    split; [done|]. by rewrite lookup_insert_eq, (vk_obj _ _ _ Hp).
  - intros b Hb'. unfold disk. simpl. rewrite Hs. apply list_lookup_insert_ne. intros E.
    apply (Hb' p sv Lp (vk_obj _ _ _ Hp)). lia.
Qed.

Lemma swept_refl s : vol_ok s -> vtable_ok s -> swept s s.
Proof. intros V T. split; try done. intros p. by left. Qed.

(** The inode number of a vnode does not change. *)
Lemma swept_ino s s' p sv : swept s s' -> s_objs s' !! p = Some sv -> exists sv0, s_objs s !! p = Some sv0 /\ sv_ino sv0 = sv_ino sv.
Proof.
  intros W E. destruct (sw_objs _ _ W p) as [Eq|[_ Eq]]; rewrite E in Eq; [by exists sv|].
  destruct (s_objs s !! p) as [sv0|]; [|done]. injection Eq as ->. by exists sv0.
Qed.

Lemma swept_trans s1 s2 s3 : swept s1 s2 -> swept s2 s3 -> swept s1 s3.
Proof.
  intros W1 W2. assert (Hv : s_vnodes s2 = s_vnodes s1) by (pose proof (sw_rest _ _ W1); congruence).
  split; try apply W2.
  - rewrite (sw_rest _ _ W2). apply W1.
  - intros p. pose proof (in_table_same s1 s2 p Hv) as Hl. destruct (sw_objs _ _ W1 p) as [E1|[L1 E1]], (sw_objs _ _ W2 p) as [E2|[L2 E2]]; rewrite E2, E1.
    + by left.
    + right. by rewrite <- Hl.
    + by right.
    + right. split; [done|]. by destruct (s_objs s1 !! p).
  - rewrite (sw_len _ _ W2). apply W1.
  - intros b Hb. rewrite (sw_disk _ _ W2), (sw_disk _ _ W1); [done|done|]. intros p sv L%(in_table_same s1 s2 p Hv) E.
    destruct (swept_ino _ _ p sv W1 E) as (sv0 & E0 & <-). by eapply Hb.
Qed.

Lemma sync_loop m (j : nat) s :
  vol_ok s -> vtable_ok s -> (j + m = Z.to_nat (Array.num (s_vnodes s)))%nat ->
  exists s', for_n m (Z.of_nat j) sync_vnode s = Done tt s' /\ swept s s' /\
    forall i p, (j <= i < j + m)%nat -> Array.vdata (s_vnodes s) !! i = Some (Some p) ->
      exists sv, s_objs s' !! p = Some sv /\ sv_dirty sv = false.
Proof.
  revert j s. induction m as [|m IH]; intros j s V T Hj.
  { exists s. split; [done|]. split; [by apply swept_refl|]. intros; lia. }
  destruct (tb_set _ T j ltac:(lia)) as [p Hp]. assert (Lp : in_table s p) by (exists j; split; [lia|done]).
  destruct (tb_each _ T p Lp) as [sv Hk].
  destruct (sync_vnode_step s j p sv V T ltac:(lia) Hp Hk) as (k & d & E & Hl & Hd & Hs).
  pose proof (swept_step s p sv k d V T Lp Hk Hl Hd Hs) as W. set (s1 := set_objs _ _) in *.
  destruct (IH (S j) s1 (sw_vol _ _ W) (sw_table _ _ W)) as (s2 & E2 & W2 & Hc); [simpl; lia|].
  exists s2. cbn [for_n]. rewrite (bind_Done _ _ _ _ _ E). replace (Z.of_nat j + 1) with (Z.of_nat (S j)) by lia.
  split; [done|]. split; [by eapply swept_trans|]. intros i q Hi Hq.
  destruct (decide (i = j)) as [->|Hne]; [|apply (Hc i q); [lia|done]]. rewrite Hq in Hp. injection Hp as ->.
  assert (E1 : s_objs s1 !! p = Some (set_dirty false sv)) by (simpl; by rewrite lookup_insert_eq).
  exists (set_dirty false sv). split; [|done]. destruct (sw_objs _ _ W2 p) as [->|[_ ->]]; by rewrite E1.
Qed.

(** What [sfs_sync] leaves: nothing is marked dirty, the superblock, the map and the
    inodes of the loaded vnodes are on the disk, and nothing else changed there. *)
Record synced s s' : Prop := {
  sn_vol : vol_ok s';
  sn_flags : s_superdirty s' = false /\ s_freemapdirty s' = false;
  sn_rest : (s_ctx s', s_self s', s_super s', s_vnodes s', s_freemap s') = (s_ctx s, s_self s, s_super s, s_vnodes s, s_freemap s);
  sn_super : disk s' !! 0%nat = Some (super_bytes (s_super s));
  sn_map : map_stored (disk s') (v (s_freemap s)) (mapsize (sp_nblocks (s_super s)));
  sn_loaded : forall p sv, in_table s p -> s_objs s !! p = Some sv ->
    s_objs s' !! p = Some (set_dirty false sv) /\ disk s' !! Z.to_nat (sv_ino sv) = Some (inode_bytes (sv_i sv));
  sn_others : forall p, ~ in_table s p -> s_objs s' !! p = s_objs s !! p;
  sn_disk : forall b, (b = 1 \/ 2 + mapsize (sp_nblocks (s_super s)) <= b)%nat ->
    (forall p sv, in_table s p -> s_objs s !! p = Some sv -> sv_ino sv <> Z.of_nat b) -> disk s' !! b = disk s !! b;
}.

(** The sweep leaves the superblock and the map on the disk alone. *)
Lemma swept_stored s s' : vtable_ok s -> swept s s' -> layout s -> stored s -> layout s' /\ stored s'.
Proof.
  intros T W L [St1 St2]. pose proof (sw_rest _ _ W) as Hr. injection Hr as _ _ Hsup Hsd _ Hfm Hfd.
  assert (Hino : forall p sv, in_table s p -> s_objs s !! p = Some sv ->
    0 < sv_ino sv /\ (sv_ino sv = 1 \/ 2 + Z.of_nat (mapsize (sp_nblocks (s_super s))) <= sv_ino sv)).
  { intros p sv Lp E. destruct (tb_each _ T p Lp) as [sv0 Hk]. rewrite (vk_obj _ _ _ Hk) in E. injection E as ->.
    split; [apply Hk|]. apply (vk_ino _ _ _ Hk). }
  split; [destruct L; split; by rewrite ?Hsup, ?Hfm|]. split; rewrite Hsup, ?Hfm; intros Hc.
  - rewrite (sw_disk _ _ W); [apply St1; congruence|]. intros p sv Lp E. destruct (Hino p sv Lp E). lia.
  - intros j Hj. rewrite (sw_disk _ _ W); [apply St2; [congruence|done]|]. intros p sv Lp E. destruct (Hino p sv Lp E). lia.
Qed.

Lemma sfs_sync_spec s :
  vol_ok s -> layout s -> stored s -> vtable_ok s -> exists s', sfs_sync s = Done tt s' /\ synced s s'.
Proof.
  intros V L St T. unfold sfs_sync. rewrite (bind_Done _ _ _ _ _ (getnum_eq s)).
  destruct (sync_loop (Z.to_nat (Array.num (s_vnodes s))) 0 s V T eq_refl) as (s1 & E & W & Hc).
  change 0 with (Z.of_nat 0). rewrite (bind_Done _ _ _ _ _ E).
  destruct (swept_stored s s1 T W L St) as [L1 St1]. pose proof (sw_vol _ _ W) as V1.
  destruct (sync_volume_spec s1 V1 L1 St1) as (d & E1 & Hd & Hl & H0 & Hm & Hb). exists (clean d s1). split; [exact E1|].
  pose proof (sw_rest _ _ W) as Hr. injection Hr as Hcx Hself Hsup _ Hvn Hfm _. rewrite Hsup, ?Hfm in *.
  assert (Hobj : forall p sv, in_table s p -> s_objs s !! p = Some sv ->
    s_objs s1 !! p = Some (set_dirty false sv) /\ sectors d !! Z.to_nat (sv_ino sv) = Some (inode_bytes (sv_i sv))).
  { intros p sv Lp Ep. pose proof Lp as (j & Hj & Hp). destruct (Hc j p ltac:(lia) Hp) as (sv1 & Ev & Hcl).
    assert (sv1 = set_dirty false sv) as ->.
    { destruct (sw_objs _ _ W p) as [Eq|[_ Eq]]; rewrite Ev, Ep in Eq; injection Eq as ->; [by destruct sv; simpl in *; subst|done]. }
    destruct (tb_each _ (sw_table _ _ W) p) as [sv2 Hk]; [by apply (in_table_same s)|].
    pose proof (vk_obj _ _ _ Hk) as E2. rewrite Ev in E2. injection E2 as <-. split; [done|].
    pose proof (vk_clean _ _ _ Hk eq_refl) as Hst. pose proof (vk_ino _ _ _ Hk) as Hi. pose proof (vk_range _ _ _ Hk) as Hi'.
    simpl in Hst, Hi, Hi'. rewrite Hsup in Hi. unfold SFS_ROOT_LOCATION in Hi. by rewrite Hb by lia. }
  split; try done.
  - destruct V1. split; try done; simpl; rewrite ?Hl; try done; unfold disk; simpl; by rewrite Hl.
  - simpl. by rewrite Hcx, Hself, Hsup, Hvn, Hfm.
  - intros p Hn. destruct (sw_objs _ _ W p) as [Eq|[Lp _]]; [exact Eq|done].
  - intros b Hbb Hno. unfold disk at 1. simpl. rewrite Hb by done. by apply (sw_disk _ _ W).
Qed.

End sweep.

#[global] Arguments synced {K D _ _} w s s'.

Section correct.
Context {K D : Type} `{!Kmalloc K, !KmallocSpec K, !Locks K, !LockSpec K, !LockFrame K, !Device D, !DeviceSpec D}.
Implicit Types s : sfs_fs K D.

(** C22: On a disk whose writes complete, syncing a volume whose loaded vnodes have free
    count locks succeeds: afterwards nothing is marked dirty, the superblock, the free map
    and the inode of every loaded vnode are on the disk, and no other block was written
    ([synced]).  Mounting the disk again, whatever the state of the memory, gives a volume
    with the same superblock and the same free map on the same disk, where the inodes of
    the vnodes are found, unless memory or the disk fails the mount. *)
Theorem sync_mount_roundtrip s k c B :
  vol_ok Sound s -> layout s -> stored s -> vtable_ok s -> heap_rep k B -> badfault c = false ->
  exists s1, sfs_sync s = Done tt s1 /\ synced Sound s s1 /\
    exists k' d',
    ((exists e, sfs_domount (k, (c, s_dev s1)) = Fail e (k', (c, d')) /\ heap_rep k' B /\ (e = ENOMEM \/ e = EIO)) \/
     (exists s', sfs_domount (k, (c, s_dev s1)) = Done s' (k', (c, d')) /\ s_super s' = s_super s /\
        nbits (s_freemap s') = nbits (s_freemap s) /\ (forall b, bit (s_freemap s') b = bit (s_freemap s) b) /\
        disk s' = disk s1 /\ s_superdirty s' = false /\ s_freemapdirty s' = false /\
        forall p sv, in_table s p -> s_objs s !! p = Some sv ->
          inode_of_bytes <$> disk s' !! Z.to_nat (sv_ino sv) = Some (sv_i sv))).
Proof.
  intros V L St T R Hc. destruct (sfs_sync_spec s V L St T) as (s1 & E & Sy). exists s1. split; [done|]. split; [done|].
  pose proof (vo_blocks _ V). pose proof (vo_max _ V). pose proof (ly_fits _ L).
  destruct (super_roundtrip (s_super s) (ly_super _ L)) as [_ Hrt].
  destruct (sfs_domount_spec k c (s_dev s1) B (s_super s) (v (s_freemap s)) R (vo_dev _ (sn_vol _ _ Sy)) Hc) as (d' & k' & [Hd' Hs'] & Hres).
  { split; [eexists; split; [apply Sy|done]|intros _; lia|]. intros _. split; [by apply (layout_bytes s V)|apply Sy]. }
  exists k', d'. destruct Hres as [(e & Em & R' & He)|(s' & Em & Hk & Hcx & Hdv & Hm)]; [left|right].
  - exists e. split; [done|]. split; [done|]. destruct He as [|[|[_ Hmg]]]; [by left|by right|]. by destruct Hmg; apply L.
  - exists s'. destruct Hm as (_ & Hsup & Hv & Hnb & Hq1 & Hq2 & _). split; [done|].
    rewrite Hsup, terminated_super_id by apply L. split; [done|]. rewrite Hnb, (ly_map _ L). split; [done|].
    split; [intros b; unfold bit; by rewrite Hv|]. assert (Hdk : disk s' = disk s1) by (unfold disk; by rewrite Hdv).
    split; [done|]. split; [done|]. split; [done|]. intros p sv Lp Ep. rewrite Hdk.
    destruct (sn_loaded _ _ Sy p sv Lp Ep) as [_ ->]. destruct (tb_each _ T p Lp) as [sv0 Hvk].
    pose proof (vk_obj _ _ _ Hvk) as E0. rewrite Ep in E0. injection E0 as <-. simpl.
    by rewrite (proj2 (inode_roundtrip _ (vk_inode _ _ _ Hvk))).
Qed.

End correct.

End SfsVol.
