(* ===== verification/MksfsVol.v ===== *)
(** * Making a file system: correctness

    On a file that behaves as the system calls are documented to, mksfs ends with status 0 and leaves an
    empty file system of the size of the disk, which the kernel mounts. *)

From Stdlib Require Import ZifyNat.
From S2P Require Import Prelude Kmalloc Array Bitmap Uio Blockdev Vnode Sfs SfsBlock SfsDir SfsVol Mksfs.
Import Uio Vnode Sfs SfsBlock SfsVol Mksfs.

Module MksfsVol.

(** What the system calls promise for an open file that is not written past its end.  A call
    may be interrupted, but not for ever: [h_tries] bounds how often. *)
Class HostSpec (H : Type) `{!Host H} := {
  h_bytes : H -> list Z;
  h_pos : H -> nat;
  h_tries : H -> nat;
  h_ready : H -> Prop;
  size_law : forall h, h_ready h -> sys_size h = Some (Z.of_nat (length (h_bytes h)));
  lseek_law : forall h o, h_ready h -> (o <= length (h_bytes h))%nat ->
    exists h', sys_lseek (Z.of_nat o) h = (true, h') /\ h_ready h' /\ h_bytes h' = h_bytes h /\ h_pos h' = o /\
      (h_tries h' <= h_tries h)%nat;
  write_law : forall h data, h_ready h -> data <> [] -> (h_pos h + length data <= length (h_bytes h))%nat ->
    (exists n h' x, sys_write data h = (Moved (Z.of_nat n) x, h') /\ (0 < n <= length data)%nat /\ h_ready h' /\
       h_bytes h' = list_inserts (h_pos h) (take n data) (h_bytes h) /\ h_pos h' = (h_pos h + n)%nat /\
       (h_tries h' <= h_tries h)%nat) \/
    (exists h', sys_write data h = (Again, h') /\ h_ready h' /\ h_bytes h' = h_bytes h /\ h_pos h' = h_pos h /\
       (h_tries h' < h_tries h)%nat);
  read_law : forall h (n : nat), h_ready h -> (0 < n)%nat -> (h_pos h + n <= length (h_bytes h))%nat ->
    (exists k h', sys_read (Z.of_nat n) h = (Moved (Z.of_nat k) (take k (drop (h_pos h) (h_bytes h))), h') /\
       (0 < k <= n)%nat /\ h_ready h' /\ h_bytes h' = h_bytes h /\ h_pos h' = (h_pos h + k)%nat /\ (h_tries h' <= h_tries h)%nat) \/
    (exists h', sys_read (Z.of_nat n) h = (Again, h') /\ h_ready h' /\ h_bytes h' = h_bytes h /\ h_pos h' = h_pos h /\
       (h_tries h' < h_tries h)%nat);
  close_law : forall h, h_ready h -> exists h', sys_close h = (true, h') /\ h_bytes h' = h_bytes h;
}.

(** ** Lists *)

Lemma inserts_split (l data : list Z) (i n : nat) :
  (n <= length data)%nat -> (i + length data <= length l)%nat ->
  list_inserts (i + n) (drop n data) (list_inserts i (take n data) l) = list_inserts i data l.
Proof.
  intros Hn Hl. apply list_eq. intros j. destruct (decide (j < i)%nat); [by rewrite !list_lookup_inserts_lt by lia|].
  destruct (decide (j < i + n)%nat).
  { rewrite list_lookup_inserts_lt by lia. rewrite !list_lookup_inserts by (rewrite ?length_take; lia). by rewrite lookup_take_lt by lia. }
  destruct (decide (j < i + length data)%nat).
  { rewrite !list_lookup_inserts by (rewrite ?length_drop, ?length_inserts; lia). rewrite lookup_drop. f_equal. lia. }
  rewrite !list_lookup_inserts_ge; rewrite ?length_drop, ?length_take; try lia; done.
Qed.

(** Sector [b] of a file. *)
Definition sector (bytes : list Z) (b : nat) : list Z := take 512 (drop (512 * b) bytes).

Lemma sector_write bytes data b c :
  length data = 512%nat -> (512 * (b + 1) <= length bytes)%nat ->
  sector (list_inserts (512 * b) data bytes) c = if decide (c = b) then data else sector bytes c.
Proof.
  intros Hd Hl. unfold sector. case_decide as D; [subst|].
  - apply list_eq. intros j. destruct (decide (j < 512)%nat); [|rewrite !lookup_ge_None_2; rewrite ?length_take; lia || done].
    rewrite lookup_take_lt, lookup_drop, list_lookup_inserts by lia. f_equal. lia.
  - apply list_eq. intros j. destruct (decide (j < 512)%nat); [|by rewrite !lookup_take_ge by lia].
    rewrite !lookup_take_lt, !lookup_drop by lia. destruct (decide (c < b)%nat).
    + by rewrite list_lookup_inserts_lt by lia.
    + by rewrite list_lookup_inserts_ge by lia.
Qed.

(** ** The disk *)

Section disk.
Context {H : Type} `{!Host H, !HostSpec H}.
Variable host : bool.
Abbreviation hdr := (if host then 1%nat else 0%nat).
Implicit Types p : prog (H := H).

Definition opened p : Prop := p_fd p = true /\ h_ready (p_host p).

Lemma thenU_Done {A B} (m : M prog (option A)) (k : A -> M prog (option B)) p a p' :
  m p = Done (Some a) p' -> thenU m k p = k a p'.
Proof. intros E. unfold thenU. by rewrite (bind_Done _ _ _ _ _ E). Qed.

Lemma write_loop_spec fuel : forall data p,
  h_ready (p_host p) -> (h_pos (p_host p) + length data <= length (h_bytes (p_host p)))%nat ->
  (length data + h_tries (p_host p) <= fuel)%nat ->
  exists h', write_loop fuel data p = Done (Some tt) (set_host h' p) /\ h_ready h' /\ (h_tries h' <= h_tries (p_host p))%nat /\
    h_bytes h' = list_inserts (h_pos (p_host p)) data (h_bytes (p_host p)).
Proof.
  induction fuel as [|fuel IH]; intros data p Hr Hl Hf.
  - destruct data; [|simpl in Hf; lia]. exists (p_host p). by destruct p.
  - destruct data as [|c data]; [exists (p_host p); by destruct p|]. set (dt := c :: data) in *.
    assert (Hne : dt <> []) by done. change (write_loop (S fuel) dt) with (thenU (call (sys_write dt)) (fun r =>
      match r with Again => write_loop fuel dt | Error => errx
      | Moved n _ => if decide (n = 0) then errx else write_loop fuel (drop (Z.to_nat n) dt) end)).
    unfold thenU, call. munfold. cbv beta.
    destruct (write_law _ dt Hr Hne Hl) as [(n & h' & x & -> & Hn & Hr' & Hb & Hp & Ht)|(h' & -> & Hr' & Hb & Hp & Ht)].
    + rewrite decide_False by lia. rewrite Nat2Z.id.
      destruct (IH (drop n dt) (set_host h' p)) as (h2 & E & Hr2 & Ht2 & Hb2); cbn [p_host set_host].
      * done.
      * rewrite Hp, Hb, length_inserts, length_drop. lia.
      * rewrite length_drop. lia.
      * exists h2. rewrite E. split; [done|]. split; [done|]. cbn [p_host set_host] in *. split; [lia|].
        rewrite Hb2, Hb, Hp. apply inserts_split; lia.
    + destruct (IH dt (set_host h' p)) as (h2 & E & Hr2 & Ht2 & Hb2); cbn [p_host set_host]; [done|by rewrite Hp, Hb|lia|].
      exists h2. rewrite E. split; [done|]. split; [done|]. cbn [p_host set_host] in *. split; [lia|]. by rewrite Hb2, Hb, Hp.
Qed.

Lemma diskwrite_spec fuel data (b : nat) p :
  opened p -> length data = 512%nat -> (512 * (hdr + b + 1) <= length (h_bytes (p_host p)))%nat ->
  Z.of_nat (length (h_bytes (p_host p))) < 2 ^ 32 -> (512 + h_tries (p_host p) <= fuel)%nat ->
  exists h', diskwrite host fuel data (Z.of_nat b) p = Done (Some tt) (set_host h' p) /\ h_ready h' /\
    (h_tries h' <= h_tries (p_host p))%nat /\
    h_bytes h' = list_inserts (512 * (hdr + b)) data (h_bytes (p_host p)).
Proof.
  intros [Hfd Hr] Hd Hl Hm Hf. unfold diskwrite, thenU, getU, assertU, retU. munfold. rewrite Hfd. cbn [kassert].
  assert (Eo : u32 (u32 (Z.of_nat b + header host) * BLOCKSIZE) = Z.of_nat (512 * (hdr + b))).
  { unfold header, BLOCKSIZE. rewrite (u32_small (Z.of_nat b + _)) by (destruct host; lia). rewrite u32_small by (destruct host; lia).
    destruct host; lia. }
  rewrite Eo. unfold call. cbv beta. destruct (lseek_law _ (512 * (hdr + b))%nat Hr ltac:(lia)) as (h1 & -> & Hr1 & Hb1 & Hp1 & Ht1).
  destruct (write_loop_spec fuel data (set_host h1 p)) as (h2 & E & Hr2 & Ht2 & Hb2); cbn [p_host set_host] in *; [done|rewrite Hp1, Hb1; lia|lia|].
  exists h2. rewrite E. split; [done|]. split; [done|]. split; [lia|]. by rewrite Hb2, Hp1, Hb1.
Qed.

(** ** The bitmap *)

(** The buffer of mksfs.c: the bits set in it. *)
Definition bufbit (buf : list Z) (i : Z) : bool := match zlookup buf (i / 8) with Some w => Z.testbit w (i mod 8) | None => false end.

Definition BUFBITS : Z := 131072.

Definition empty_buf : list Z := replicate (Z.to_nat (MAXBITBLOCKS * SFS_BLOCKSIZE)) 0.

Record has_bits (buf : list Z) (P : Z -> bool) : Prop := {
  hb_len : Z.of_nat (length buf) = 16384;
  hb_bits : forall i, 0 <= i < BUFBITS -> bufbit buf i = P i;
}.

Lemma mask_bit w k i : 0 <= k < 8 -> 0 <= i -> Z.testbit (Z.lor w (u8 (Z.shiftl 1 k))) i = Z.testbit w i || (i =? k).
Proof.
  intros Hk Hi. rewrite Z.lor_spec. f_equal. unfold u8. rewrite Z.shiftl_1_l. rewrite Z.mod_small.
  - rewrite Z.pow2_bits_eqb by lia. by rewrite Z.eqb_sym.
  - split; [lia|]. apply Z.pow_lt_mono_r; lia.
Qed.

Lemma mask_clear w k : 0 <= k < 8 -> Z.testbit w k = false -> Z.land w (u8 (Z.shiftl 1 k)) = 0.
Proof.
  intros Hk Hw. apply Z.bits_inj_0. intros i. destruct (decide (i < 0)); [by apply Z.testbit_neg_r; lia|].
  rewrite Z.land_spec. unfold u8. rewrite Z.shiftl_1_l, Z.mod_small by (split; [lia|]; apply Z.pow_lt_mono_r; lia).
  rewrite Z.pow2_bits_eqb by lia. destruct (Z.eqb_spec k i); [subst; by rewrite Hw|]. by rewrite andb_false_r.
Qed.

Lemma doallocbit_spec p buf P b :
  p_bitbuf p = buf -> has_bits buf P -> 0 <= b < BUFBITS -> P b = false ->
  exists buf', doallocbit b p = Done (Some tt) (set_bitbuf buf' p) /\ has_bits buf' (fun i => P i || (i =? b)).
Proof.
  intros Hp [Hl Hb] Hr Hc. unfold BUFBITS in Hr. assert (Hi : is_Some (zlookup buf (b / 8))) by (apply zlookup_lt; rewrite Hl; dlia).
  destruct Hi as [w Hw]. unfold doallocbit, thenU, getU, assertU, modU, retU, CHAR_BIT. munfold. cbv zeta. rewrite Hp, Hw.
  pose proof (Hb b Hr) as Hbb. unfold bufbit in Hbb. rewrite Hw, Hc in Hbb.
  rewrite bool_decide_eq_true_2 by (apply mask_clear; [dlia|done]). eexists. split; [done|]. split; [by rewrite length_insert|].
  intros i Hi. rewrite <- (Hb i Hi). unfold bufbit. apply zlookup_Some in Hw as [_ Hw]. unfold BUFBITS in Hi.
  destruct (decide (i / 8 = b / 8)) as [E|E].
  - unfold zlookup. rewrite E, !decide_True by dlia. rewrite list_lookup_insert_eq by dlia. rewrite Hw.
    rewrite mask_bit by dlia. f_equal. destruct (Z.eqb_spec (i mod 8) (b mod 8)), (Z.eqb_spec i b); try done; exfalso; dlia.
  - unfold zlookup. rewrite !decide_True by dlia. rewrite list_lookup_insert_ne by (intros ?; dlia).
    destruct (Z.eqb_spec i b) as [->|_]; [done|]. by rewrite orb_false_r.
Qed.

Lemma forU_bits n : forall p buf P a (f : Z -> Z),
  p_bitbuf p = buf -> has_bits buf P -> (forall j, f j = f 0 + j) -> 0 <= f a -> f a + Z.of_nat n <= BUFBITS ->
  (forall i, f a <= i < f a + Z.of_nat n -> P i = false) ->
  exists buf', forU n a (fun i => doallocbit (f i)) p = Done (Some tt) (set_bitbuf buf' p) /\
    has_bits buf' (fun i => P i || ((f a <=? i) && (i <? f a + Z.of_nat n))).
Proof.
  induction n as [|n IH]; intros p buf P a f Hp Hb Hf Ha Hn Hc.
  - exists buf. split; [subst; by destruct p|]. destruct Hb as [Hl Hb]. split; [done|]. intros i Hi. rewrite Hb by done.
    destruct (Z.leb_spec (f a) i), (Z.ltb_spec i (f a + Z.of_nat 0)); try lia; by rewrite orb_false_r.
  - destruct (doallocbit_spec p buf P (f a) Hp Hb ltac:(lia) (Hc (f a) ltac:(lia))) as (b1 & E1 & Hb1).
    assert (Hs : f (a + 1) = f a + 1) by (rewrite (Hf (a + 1)), (Hf a); lia).
    destruct (IH (set_bitbuf b1 p) b1 (fun i => P i || (i =? f a)) (a + 1) f) as (b2 & E2 & Hb2); try done; try lia.
    { intros i Hi. rewrite Hc by lia. simpl. apply Z.eqb_neq. lia. }
    exists b2. cbn [forU]. unfold thenU. munfold. rewrite E1, E2. split; [by destruct p|]. destruct Hb2 as [Hl2 Hb2]. split; [done|].
    intros i Hi. rewrite Hb2, Hs by done. destruct (P i); [done|]. simpl.
    destruct (Z.eqb_spec i (f a)), (Z.leb_spec (f a + 1) i), (Z.ltb_spec i (f a + 1 + Z.of_nat n)), (Z.leb_spec (f a) i),
      (Z.ltb_spec i (f a + Z.of_nat (S n))); try done; lia.
Qed.

(** ** The program *)

(** The file after some sectors were written: [f] says what is in them. *)
Record wrote p (h' : H) (f : nat -> list Z) : Prop := {
  wr_ready : h_ready h';
  wr_tries : (h_tries h' <= h_tries (p_host p))%nat;
  wr_len : length (h_bytes h') = length (h_bytes (p_host p));
  wr_sec : forall c, sector (h_bytes h') c = f c;
}.

Lemma diskwrite_wrote fuel data (b : nat) p :
  opened p -> length data = 512%nat -> (512 * (hdr + b + 1) <= length (h_bytes (p_host p)))%nat ->
  Z.of_nat (length (h_bytes (p_host p))) < 2 ^ 32 -> (512 + h_tries (p_host p) <= fuel)%nat ->
  exists h', diskwrite host fuel data (Z.of_nat b) p = Done (Some tt) (set_host h' p) /\
    wrote p h' (fun c => if decide (c = (hdr + b)%nat) then data else sector (h_bytes (p_host p)) c).
Proof.
  intros Ho Hd Hl Hm Hf. destruct (diskwrite_spec fuel data b p Ho Hd Hl Hm Hf) as (h' & E & Hr & Ht & Hb).
  exists h'. split; [done|]. split; [done|done|by rewrite Hb, length_inserts|]. intros c. rewrite Hb. apply sector_write; [done|lia].
Qed.

Lemma map_writes fuel n : forall (a : nat) p V,
  opened p -> p_bitbuf p = V -> (512 * (a + n) <= length V)%nat -> Z.of_nat (a + n) <= 32 ->
  (512 * (hdr + 2 + a + n) <= length (h_bytes (p_host p)))%nat ->
  Z.of_nat (length (h_bytes (p_host p))) < 2 ^ 32 -> (512 + h_tries (p_host p) <= fuel)%nat ->
  exists h', forU n (Z.of_nat a) (write_map_sector host fuel) p = Done (Some tt) (set_host h' p) /\
    wrote p h' (fun c => if decide (hdr + 2 + a <= c < hdr + 2 + a + n)%nat then map_sector V (c - hdr - 2)
                         else sector (h_bytes (p_host p)) c).
Proof.
  induction n as [|n IH]; intros a p V Ho HV HlV Ha Hl Hm Hf.
  - exists (p_host p). split; [by destruct p|]. split; [apply Ho|done|done|]. intros c. by rewrite decide_False by lia.
  - assert (Ew : write_map_sector host fuel (Z.of_nat a) p = diskwrite host fuel (map_sector V a) (Z.of_nat (2 + a)) p).
    { unfold write_map_sector, thenU, getU. munfold. rewrite HV. unfold map_sector, SFS_BLOCKSIZE, SFS_MAP_LOCATION.
      rewrite u32_small by lia. replace (Z.to_nat (Z.of_nat a * 512)) with (512 * a)%nat by lia.
      change (Z.to_nat 512) with 512%nat. f_equal. lia. }
    destruct (diskwrite_wrote fuel (map_sector V a) (2 + a) p Ho) as (h1 & E1 & [Hr1 Ht1 Hl1 Hs1]); try lia.
    { unfold map_sector. rewrite length_take, length_drop. lia. }
    destruct (IH (S a) (set_host h1 p) V) as (h2 & E2 & [Hr2 Ht2 Hl2 Hs2]); cbn [p_host set_host p_bitbuf] in *; try lia; try done.
    { split; [apply Ho|done]. }
    exists h2. cbn [forU]. unfold thenU. munfold. rewrite Ew, E1. replace (Z.of_nat a + 1) with (Z.of_nat (S a)) by lia. rewrite E2.
    split; [by destruct p|]. split; [done|lia|congruence|]. intros c. rewrite Hs2. destruct (decide (c = (hdr + (2 + a))%nat)) as [->|Hc].
    + rewrite decide_False by lia. rewrite Hs1, decide_True by lia. rewrite decide_True by lia. f_equal. lia.
    + destruct (decide (hdr + 2 + S a <= c < hdr + 2 + S a + n)%nat); [by rewrite decide_True by lia|].
      rewrite Hs1, decide_False by done. by rewrite decide_False by lia.
Qed.

(** The blocks in use in an empty volume of [n] blocks. *)
Definition fresh_map (n i : Z) : bool := (i <? 2 + Z.of_nat (mapsize n)) || (n <=? i).

Lemma writebitmap_spec fuel n p :
  opened p -> p_bitbuf p = empty_buf -> 3 <= n <= BUFBITS ->
  Z.of_nat (length (h_bytes (p_host p))) = 512 * (Z.of_nat hdr + n) -> (512 + h_tries (p_host p) <= fuel)%nat ->
  exists h' V, writebitmap host fuel n p = Done (Some tt) (set_host h' (set_bitbuf V p)) /\ Z.of_nat (length V) = 16384 /\
    (forall i, 0 <= i < 4096 * Z.of_nat (mapsize n) -> bufbit V i = fresh_map n i) /\
    wrote p h' (fun c => if decide (hdr + 2 <= c < hdr + 2 + mapsize n)%nat then map_sector V (c - hdr - 2)
                         else sector (h_bytes (p_host p)) c).
Proof.
  intros Ho Hb Hn Hl Hf. unfold BUFBITS in *. assert (Hh : (hdr <= 1)%nat) by (destruct host; lia).
  assert (Hm1 : 4096 * Z.of_nat (mapsize n) < n + 4096) by (unfold mapsize; dlia).
  assert (Hm2 : n <= 4096 * Z.of_nat (mapsize n)) by (unfold mapsize; dlia). assert (Hm3 : Z.of_nat (mapsize n) <= 32) by lia.
  unfold writebitmap. cbv zeta. pose proof (SFS_BITBLOCKS_eq n ltac:(lia)) as Hbb. rewrite Hbb, SFS_BITMAPSIZE_eq by lia.
  rewrite decide_False by (unfold MAXBITBLOCKS; rewrite <- (Z2Nat.id (SFS_BITBLOCKS n)), Hbb by (unfold SFS_BITBLOCKS; rewrite SFS_BITMAPSIZE_eq by lia; apply Z.div_pos; [lia|done]); lia).
  assert (H0 : has_bits (empty_buf) (fun _ => false)).
  { split; [by vm_compute|]. intros i Hi. unfold bufbit, zlookup. rewrite decide_True by (unfold BUFBITS in Hi; dlia).
    destruct (empty_buf !! _) eqn:E; [|done]. apply lookup_replicate in E as [-> _]. apply Z.bits_0. }
  destruct (doallocbit_spec p _ _ SFS_SB_LOCATION Hb H0 ltac:(done) eq_refl) as (b1 & E1 & B1).
  destruct (doallocbit_spec (set_bitbuf b1 p) b1 _ SFS_ROOT_LOCATION eq_refl B1 ltac:(done) eq_refl) as (b2 & E2 & B2).
  destruct (forU_bits (mapsize n) (set_bitbuf b2 p) b2 _ 0 (fun i => SFS_MAP_LOCATION + i) eq_refl B2) as (b3 & E3 & B3);
    unfold SFS_SB_LOCATION, SFS_ROOT_LOCATION, SFS_MAP_LOCATION, BUFBITS in *; [intros; lia|lia|lia|intros i Hi; simpl; lia|].
  destruct (forU_bits (Z.to_nat (4096 * Z.of_nat (mapsize n) - n)) (set_bitbuf b3 p) b3 _ n (fun i => i) eq_refl B3) as (b4 & E4 & [L4 B4]);
    unfold BUFBITS in *; [intros; lia|lia|lia|intros i Hi; simpl; lia|].
  destruct (map_writes fuel (mapsize n) 0 (set_bitbuf b4 p) b4) as (h' & E5 & Hw); cbn [p_host set_bitbuf p_bitbuf]; try lia.
  { by destruct Ho. }
  { done. }
  exists h', b4. split.
  { eapply eq_trans; [eapply thenU_Done; exact E1|]. eapply eq_trans; [eapply thenU_Done; exact E2|].
    eapply eq_trans; [eapply thenU_Done; exact E3|]. eapply eq_trans; [eapply thenU_Done; exact E4|]. exact E5. }
  split; [lia|]. split.
  - intros i Hi. rewrite B4 by (unfold BUFBITS; lia). unfold fresh_map. apply eq_true_iff_eq.
    rewrite !orb_true_iff, !andb_true_iff, ?Z.eqb_eq, ?Z.leb_le, ?Z.ltb_lt. lia.
  - destruct Hw as [W1 W2 W3 W4]. split; [done|done|done|]. intros c. rewrite W4. cbn [p_host set_bitbuf]. 
    by rewrite !(decide_ext (hdr + 2 + 0 <= c < hdr + 2 + 0 + mapsize n)%nat (hdr + 2 <= c < hdr + 2 + mapsize n)%nat) by lia.
Qed.

(** A file that can be opened and, built for the host, starts with the header of a disk image, which
    one call of [read] delivers. *)
Definition disk_file (h : H) (n : Z) : Prop :=
  Z.of_nat (length (h_bytes h)) = 512 * (Z.of_nat hdr + n) /\
  exists h1, sys_open h = (true, h1) /\ h_ready h1 /\ h_bytes h1 = h_bytes h /\ (h_tries h1 <= h_tries h)%nat /\
    if host then exists k data h2, sys_read 63 h1 = (Moved k data, h2) /\ h_ready h2 /\ h_bytes h2 = h_bytes h /\
      (h_tries h2 <= h_tries h)%nat /\ take (length HOSTSTRING) (cstring (data ++ [0])) = HOSTSTRING
    else True.

Lemma opendisk_spec p n :
  p_fd p = false -> disk_file (p_host p) n -> 0 <= n <= BUFBITS ->
  exists h, opendisk host p = Done (Some tt) (set_host h (set_nblocks n (set_fd true p))) /\ h_ready h /\
    h_bytes h = h_bytes (p_host p) /\ (h_tries h <= h_tries (p_host p))%nat.
Proof.
  intros Hfd (Hl & h1 & E1 & Hr1 & Hb1 & Ht1 & Hh) Hn. unfold BUFBITS in Hn.
  assert (Hq : u32 (Z.quot (Z.of_nat (length (h_bytes h1))) BLOCKSIZE) = Z.of_nat hdr + n).
  { rewrite Hb1, Hl. unfold BLOCKSIZE. rewrite Z.quot_div_nonneg by (destruct host; lia). rewrite Z.mul_comm, Z.div_mul by lia.
    apply u32_small. destruct host; lia. }
  assert (E : opendisk host p =
    (if host then thenU (modU (fun p => set_nblocks (u32 (p_nblocks p - 1)) p)) (fun _ => check_header) else retU tt)
      (set_nblocks (Z.of_nat hdr + n) (set_fd true (set_host h1 p)))).
  { unfold opendisk. unfold thenU, getU, assertU, modU, retU, call. munfold. rewrite Hfd. cbn [negb].
    rewrite E1. cbn [p_host set_host set_fd]. rewrite (size_law h1 Hr1), Hq. done. }
  rewrite E. clear E Hq. destruct host.
  - destruct Hh as (k & data & h2 & E2 & Hr2 & Hb2 & Ht2 & Hs). exists h2. split; [|done].
    unfold check_header, thenU, modU, call, retU. munfold. cbn [p_host set_nblocks set_host set_fd p_nblocks]. rewrite E2.
    rewrite decide_True by done. replace (u32 (Z.of_nat 1 + n - 1)) with n by (rewrite u32_small by lia; lia). done.
  - exists h1. split; [done|]. split; [done|]. split; [done|lia].
Qed.

(** What mksfs leaves on the disk. *)
Record formatted (h h' : H) (name : list Z) (n : Z) (V : list Z) : Prop := {
  fm_super : sector (h_bytes h') hdr = super_bytes (new_super name n);
  fm_root : sector (h_bytes h') (hdr + 1) = inode_bytes new_rootdir;
  fm_map : forall j, (j < mapsize n)%nat -> sector (h_bytes h') (hdr + 2 + j) = map_sector V j;
  fm_bits : forall i, 0 <= i < 4096 * Z.of_nat (mapsize n) -> bufbit V i = fresh_map n i;
  fm_len : Z.of_nat (length V) = 16384;
  fm_rest : forall c, (c < hdr \/ hdr + 2 + mapsize n <= c)%nat -> sector (h_bytes h') c = sector (h_bytes h) c;
}.

Lemma length_volname_field name : length (volname_field name) = 32%nat.
Proof. unfold volname_field. rewrite length_take, length_app, length_replicate. lia. Qed.

Lemma new_super_ok name n : 0 <= n < 2 ^ 32 -> super_ok (new_super name n).
Proof.
  intros Hn. unfold super_ok, new_super, word_ok. cbn [sp_magic sp_nblocks sp_volname sp_reserved].
  split; [by vm_compute|]. split; [done|]. split; [apply length_volname_field|]. split; [done|].
  by apply Forall_replicate.
Qed.

Lemma new_rootdir_ok : inode_ok new_rootdir.
Proof. unfold inode_ok, word_ok. simpl. repeat split; try lia; by repeat constructor. Qed.

Lemma main_formats fuel arg name n p :
  p_fd p = false -> p_bitbuf p = empty_buf -> disk_file (p_host p) n -> 3 <= n <= BUFBITS ->
  check_volname arg = Some name -> (length name < 32)%nat -> (512 + h_tries (p_host p) <= fuel)%nat ->
  exists p' V, main host fuel arg p = Done 0 p' /\ formatted (p_host p) (p_host p') name n V.
Proof.
  intros Hfd Hbuf Hfile Hn Hv Hlen Hf. pose proof Hn as Hn'. unfold BUFBITS in Hn'. assert (Hh : (hdr <= 1)%nat) by (destruct host; lia).
  destruct (opendisk_spec p n Hfd Hfile ltac:(lia)) as (h0 & E0 & Hr0 & Hb0 & Ht0). destruct Hfile as [Hl _].
  assert (Hm1 : (1 <= mapsize n)%nat) by (unfold mapsize; dlia).
  assert (Hm2 : 2 + Z.of_nat (mapsize n) <= n) by (unfold mapsize; dlia).
  set (p0 := set_host h0 (set_nblocks n (set_fd true p))) in *.
  destruct (diskwrite_wrote fuel (super_bytes (new_super name n)) 0 p0) as (h1 & E1 & [R1 T1 L1 S1]);
    [by split|apply super_roundtrip, new_super_ok; lia|cbn; rewrite Hb0; lia|cbn; rewrite Hb0; lia|cbn; lia|].
  set (p1 := set_host h1 p0) in *. cbn [p_host p0 set_host] in T1, L1, S1.
  destruct (diskwrite_wrote fuel (inode_bytes new_rootdir) 1 p1) as (h2 & E2 & [R2 T2 L2 S2]);
    [by split|apply inode_roundtrip, new_rootdir_ok|cbn; rewrite L1, Hb0; lia|cbn; rewrite L1, Hb0; lia|cbn; lia|].
  set (p2 := set_host h2 p1) in *. cbn [p_host p1 set_host] in T2, L2, S2.
  destruct (writebitmap_spec fuel n p2) as (h3 & V & E3 & HV & Hbits & [R3 T3 L3 S3]);
    [by split|exact Hbuf|done|cbn; rewrite L2, L1, Hb0; done|cbn; lia|]. cbn [p_host p2 set_host] in T3, L3, S3.
  destruct (close_law h3 R3) as (h4 & E4 & Hb4). exists (set_fd false (set_host h4 (set_bitbuf V p2))), V. split.
  - unfold main. rewrite Hv. eapply eq_trans; [eapply (bind_Done _ _ _ (Some tt))|reflexivity]. eapply eq_trans; [eapply thenU_Done; exact E0|].
    eapply eq_trans; [eapply (thenU_Done diskblocksize _ p0 BLOCKSIZE p0); reflexivity|]. rewrite decide_False by (unfold BLOCKSIZE, SFS_BLOCKSIZE; lia).
    eapply eq_trans; [eapply (thenU_Done diskblocks _ p0 n p0); reflexivity|].
    eapply eq_trans; [eapply thenU_Done; unfold writesuper; rewrite decide_False by (unfold SFS_VOLNAME_SIZE; lia); exact E1|].
    eapply eq_trans; [eapply thenU_Done; exact E2|]. eapply eq_trans; [eapply thenU_Done; exact E3|].
    unfold closedisk, thenU, getU, assertU, modU, retU, call. munfold. cbn [p_fd set_host set_bitbuf p2 p1 p0 set_nblocks set_fd p_host].
    rewrite E4. done.
  - cbn [p_host set_fd set_host]. split; rewrite ?Hb4; try done.
    + rewrite S3, decide_False by lia. rewrite S2, decide_False by lia. rewrite S1, decide_True by lia. done.
    + rewrite S3, decide_False by lia. by rewrite S2, decide_True by lia.
    + intros j Hj. rewrite S3, decide_True by lia. f_equal. lia.
    + intros c Hc. rewrite S3, decide_False by lia. rewrite S2, decide_False by lia. rewrite S1, decide_False by lia. by rewrite Hb0.
Qed.

End disk.

(** ** The kernel mounts what mksfs made *)

Lemma volname_field_eq name : (length name < 32)%nat -> volname_field name = name ++ 0 :: replicate (31 - length name) 0.
Proof.
  intros Hl. unfold volname_field. rewrite take_app_ge by lia. f_equal. rewrite take_replicate.
  replace (32 `min` 32)%nat with 32%nat by lia. replace ((32 - length name) `min` 32)%nat with (S (31 - length name)) by lia. done.
Qed.

Section mount.
Context {H K D : Type} `{!Host H, !HostSpec H, !Kmalloc K, !KmallocSpec K, !Locks K, !Device D, !DeviceSpec D} (w : wear).
Variable host : bool.
Abbreviation hdr := (if host then 1%nat else 0%nat).

(** The disk [d] that the file [h] is the image of. *)
Definition image_of (h : H) (d : D) (n : Z) : Prop :=
  forall b, (b < Z.to_nat n)%nat -> sectors d !! b = Some (sector (h_bytes h) (hdr + b)).

Lemma formatted_mountable h h' name n V (d : D) :
  formatted host h h' name n V -> image_of h' d n -> 3 <= n <= BUFBITS -> (length name < 32)%nat ->
  mountable d (new_super name n) (take (512 * mapsize n) V).
Proof.
  intros [F1 F2 F3 F4 F5 F6] Him Hn Hlen. unfold BUFBITS in Hn. assert (Hm : 2 + Z.of_nat (mapsize n) <= n) by (unfold mapsize; dlia).
  assert (Hm2 : 4096 * Z.of_nat (mapsize n) < n + 4096) by (unfold mapsize; dlia).
  split.
  - exists (super_bytes (new_super name n)). split; [rewrite (Him 0%nat) by lia; f_equal; rewrite Nat.add_0_r; apply F1|].
    apply super_roundtrip, new_super_ok. lia.
  - intros _. cbn. lia.
  - intros _. cbn [new_super sp_nblocks]. split; [rewrite length_take; lia|]. intros j Hj. rewrite (Him (2 + j)%nat) by lia.
    replace (hdr + (2 + j))%nat with (hdr + 2 + j)%nat by lia. rewrite F3 by done. f_equal. unfold map_sector.
    rewrite !take_drop_commute, take_take. do 2 f_equal. lia.
Qed.

(** C15: mksfs on a disk of [n] blocks, 3 at least and no more than its buffer has bits for, exits with
    status 0 and touches nothing but the superblock, the root directory and the map; whatever it
    was before, the disk is then one that the kernel mounts, unless memory or the disk fails it, as a
    clean volume of [n] blocks with the name given, where the blocks written by mksfs and
    no others are in use and the root directory is an empty directory with one link. *)
Theorem mksfs_mount_roundtrip fuel arg name n (p : Mksfs.prog (H := H)) :
  p_fd p = false -> p_bitbuf p = empty_buf -> disk_file host (p_host p) n -> 3 <= n <= BUFBITS ->
  check_volname arg = Some name -> (length name < 32)%nat -> (0 ∉ name) ->
  (512 + h_tries (p_host p) <= fuel)%nat ->
  exists p', main host fuel arg p = Done 0 p' /\
    (forall c, (c < hdr \/ hdr + 2 + mapsize n <= c)%nat -> sector (h_bytes (p_host p')) c = sector (h_bytes (p_host p)) c) /\
    forall (d : D) (k : K) c B, image_of (p_host p') d n -> dev_ok w d -> heap_rep k B -> badfault c = false ->
    exists k' d',
    ((exists e, sfs_domount (k, (c, d)) = Fail e (k', (c, d')) /\ heap_rep k' B /\ (e = ENOMEM \/ e = EIO)) \/
     (exists s, sfs_domount (k, (c, d)) = Done s (k', (c, d')) /\ sfs_getvolname s = Done name s /\ sp_nblocks (s_super s) = n /\
        (forall i, 0 <= i < 4096 * Z.of_nat (mapsize n) -> Bitmap.bit (s_freemap s) i = fresh_map n i) /\
        s_superdirty s = false /\ s_freemapdirty s = false /\ s_objs s = ∅ /\
        exists x, disk s !! Z.to_nat SFS_ROOT_LOCATION = Some x /\ inode_of_bytes x = new_rootdir)).
Proof.
  intros Hfd Hbuf Hfile Hn Hv Hlen Hname Hf. destruct (main_formats host fuel arg name n p Hfd Hbuf Hfile Hn Hv Hlen Hf) as (p' & V & E & F).
  exists p'. split; [done|]. split; [apply F|]. intros d k c B Him Hd R Hc.
  destruct (sfs_domount_spec k c d B _ _ R Hd Hc (formatted_mountable _ _ _ _ _ _ F Him Hn Hlen)) as (d' & k' & [_ Hs'] & Hres).
  exists k', d'. destruct Hres as [(e & Em & R' & He)|(s & Em & Hk & Hcx & Hdv & Hm)]; [left|right].
  - exists e. split; [done|]. split; [done|]. destruct He as [|[|[_ Hmg]]]; [by left|by right|]. by destruct Hmg.
  - exists s. destruct Hm as (_ & Hsup & Hw & Hnb & Hq1 & Hq2 & Hq3 & _). split; [done|].
    rewrite terminated_super_id in Hsup by (cbn; rewrite volname_field_eq by done; rewrite lookup_app_r by lia;
      destruct (decide (length name = 31)%nat) as [->|]; [done|]; rewrite lookup_cons_ne_0 by lia; apply lookup_replicate; split; [done|lia]).
    split; [unfold sfs_getvolname, gets; rewrite Hsup; cbn; rewrite volname_field_eq by done; by rewrite SfsDir.cstring_app|].
    split; [by rewrite Hsup|]. split; [|split; [done|split; [done|split; [done|]]]].
    + intros i Hi. rewrite <- (fm_bits _ _ _ _ _ _ F i Hi). unfold Bitmap.bit, bufbit, Bitmap.BITS_PER_WORD. rewrite Hw.
      unfold zlookup. rewrite !decide_True by dlia. rewrite lookup_take_lt by dlia. done.
    + unfold disk. rewrite Hdv, Hs'. change (Z.to_nat SFS_ROOT_LOCATION) with 1%nat. rewrite (Him 1%nat) by lia. eexists. split; [done|]. rewrite (fm_root _ _ _ _ _ _ F).
      apply inode_roundtrip, new_rootdir_ok.
Qed.

End mount.

End MksfsVol.
