(* ===== verification/FsKernel.v ===== *)
(** * The file system on the kernel

    The interfaces the file system is proved against, discharged by the components
    below it: the heap and the locks of the thread system (Kheap.v, Synch.v), the disk
    driver (Lhd.v).  A thread that finds a lock taken sleeps and its call goes on when it
    is woken; here the calls that go through without waiting are followed. *)

From S2P Require Import Prelude Kmalloc Array Bitmap Ram Kheap Thread ThreadInv Synch SynchInv Boot Uio Blockdev Lhd Vnode Sfs Devfs SfsFile.
Import Boot.

Module FsKernel.

Abbreviation kernel := (Synch.ksys Kheap.kheap unit).

#[export] Instance kernel_kmalloc : Kmalloc kernel := {
  kmalloc := Synch.kalloc;
  kfree := Synch.kdrop;
}.

(** The heap of the kernel keeps what the allocator promises. *)
#[export] #[refine] Instance kernel_kmalloc_spec : KmallocSpec kernel := {|
  heap_rep := fun s B => heap_rep (H := Kheap.kheap) (Thread.heap (Synch.ts s)) B;
|}.
Proof.
  - intros s B p n R. by apply (heap_rep_range (Thread.heap (Synch.ts s))).
  - intros s B p n q m R. by apply (heap_rep_disjoint (Thread.heap (Synch.ts s))).
  - intros s B sz R Hsz. unfold kmalloc, kernel_kmalloc, Synch.kalloc, Synch.kt, zoom. simpl.
    destruct (kmalloc_spec (Thread.heap (Synch.ts s)) B sz R Hsz) as [(h & E & R')|(p & h & E & Hp & HB & R')];
      cbn [kmalloc Kheap.kheap_Kmalloc] in E; rewrite E; [left|right].
    + eexists. split; [done|]. exact R'.
    + eexists p, _. split; [done|]. split; [done|]. split; [done|]. exact R'.
  - intros s B p n R HB. unfold kfree, kernel_kmalloc, Synch.kdrop, Synch.kt, zoom. simpl.
    destruct (kfree_spec (Thread.heap (Synch.ts s)) B p n R HB) as (h & E & R').
    cbn [kfree Kheap.kheap_Kmalloc] in E. rewrite E. eexists. split; [done|]. exact R'.
  - intros s B R. by destruct s as [[]].
Defined.

#[export] Instance kernel_locks : Vnode.Locks kernel := {
  Vnode.lock_create := fun n => o ← Synch.lock_create n; mret (default 0 o);
  Vnode.lock_destroy := Synch.lock_destroy;
  Vnode.lock_acquire := fun l => b ← Synch.lock_acquire l; if b : bool then mret tt else nofuel;
  Vnode.lock_release := fun l => _ ← Synch.lock_release l; mret tt;
}.

#[export] Instance kernel_query : Devfs.LockQuery kernel := { Devfs.lock_do_i_hold := Synch.lock_do_i_hold }.

(** ** The lock operations report no error *)

Section void.
Import Thread.

Lemma on_array_void {A} get set (m : M (Kheap.kheap * Array.array Z) A) :
  nofail m -> nofail (on_array (V := unit) get set m).
Proof.
  intros Hm s e s'. unfold on_array. destruct (get s) as [a|]; [|done]. pose proof (Hm (heap s, a)) as H.
  destruct (m (heap s, a)) as [? []|? []| | |]; try done. by edestruct H.
Qed.

Lemma array_getnum_void : nofail (Array.array_getnum (H := Kheap.kheap) (V := Z)).
Proof. done. Qed.
Lemma array_getguy_void i : nofail (Array.array_getguy (H := Kheap.kheap) (V := Z) i).
Proof. unfold Array.array_getguy, Array.getA. nofail. Qed.
Lemma array_remove_void i : nofail (Array.array_remove (H := Kheap.kheap) (V := Z) i).
Proof. unfold Array.array_remove, Array.getA, Array.modA. nofail. Qed.
#[local] Hint Resolve on_array_void array_getnum_void array_getguy_void array_remove_void : nofail.

Lemma upd_thread_void t f : nofail (upd_thread (H := Kheap.kheap) (V := unit) t f).
Proof. unfold upd_thread, get_thread. nofail. Qed.
Lemma assert_spl_void : nofail (assert_spl (H := Kheap.kheap) (V := unit)).
Proof. unfold assert_spl. nofail. Qed.
#[local] Hint Resolve upd_thread_void assert_spl_void : nofail.

Lemma mi_switch_out_void n r : nofail (mi_switch_out (H := Kheap.kheap) (V := unit) n r).
Proof. unfold mi_switch_out, check_magic, get_thread, assert_stack. nofail. Qed.
#[local] Hint Resolve mi_switch_out_void : nofail.

Lemma thread_sleep_void a : nofail (thread_sleep (H := Kheap.kheap) (V := unit) a).
Proof. unfold thread_sleep. nofail. Qed.

Lemma wakeup_loop_void n : forall i a, nofail (wakeup_loop (H := Kheap.kheap) (V := unit) n i a).
Proof.
  induction n as [|n IH]; intros i a; cbn [wakeup_loop]; unfold on_sleepers, get_thread; nofail.
Qed.
#[local] Hint Resolve thread_sleep_void wakeup_loop_void : nofail.

Lemma thread_wakeup_void a : nofail (thread_wakeup (H := Kheap.kheap) (V := unit) a).
Proof. unfold thread_wakeup, on_sleepers. nofail. Qed.
#[local] Hint Resolve thread_wakeup_void : nofail.

#[export] Instance kernel_void : Vnode.VoidLocks kernel.
Proof.
  split; intros l; cbn; [unfold Synch.lock_acquire, Synch.lock_acquire_loop|unfold Synch.lock_release, Synch.lock_do_i_hold];
    unfold Synch.get_lock, Synch.put_lock, Synch.set_wait, Synch.kt, splhigh, splx; nofail.
Qed.

End void.

(** Every state of the kernel that satisfies its invariant has a heap. *)
Lemma kernel_heap lbolt F (k : kernel) : SynchInv.SynchInv.kok lbolt F k -> exists B, heap_rep k B.
Proof.
  intros (R & S & Zs & K). destruct (SynchInv.SynchInv.ki_thr _ _ _ _ _ _ _ K) as (B & sl & zs & rq & I).
  destruct (ThreadInv.ThreadInv.tb_heap _ _ _ _ _ _ _ _ (ThreadInv.ThreadInv.ti_tbl _ _ _ _ _ _ _ _ I)) as [_ Hr].
  exists (B ∪ F). exact Hr.
Qed.


(** ** The count lock of a vnode *)

Section vnodes.
Variable lbolt : Z.
Import SynchInv.SynchInv.

(** The running thread finds the lock free, or holds it. *)
Definition held_by (k : kernel) (l t : Z) : Prop :=
  (exists F, kok lbolt F k) /\ Thread.curthread (Synch.ts k) <> 0 /\ holders k !! l = Some t.
Definition idle_lock (k : kernel) (l : Z) : Prop := held_by k l 0.
Definition held_lock (k : kernel) (l : Z) : Prop := held_by k l (Thread.curthread (Synch.ts k)).

Lemma held_by_lock k l t : held_by k l t -> exists y, Synch.locks k !! l = Some y /\ Synch.holder y = t /\ lock_ok y.
Proof.
  intros ((F & R & S & Zs & K) & _ & H). unfold holders in H. rewrite lookup_fmap in H.
  destruct (Synch.locks k !! l) as [y|] eqn:E; [|done]. injection H as <-. exists y. split; [done|]. split; [done|].
  by eapply (ki_lock _ _ _ _ _ _ _ K).
Qed.

Lemma acquire_idle k l : idle_lock k l -> l <> 0 -> exists k', Vnode.lock_acquire l k = Done tt k' /\ held_lock k' l.
Proof.
  intros Hi Hl. destruct (held_by_lock k l 0 Hi) as (y & Ey & Hy & Hok). destruct Hi as ((F & R & S & Zs & K) & Hc & Hh).
  destruct Hok as [[Ha _]|[_ ?]]; [|done].
  assert (E : exists k', Synch.lock_acquire l k = Done true k').
  { unfold Synch.lock_acquire. munfold. rewrite bool_decide_eq_true_2 by done. unfold Thread.splhigh. rewrite kt_splx.
    set (k1 := Synch.set_ts _ k). unfold Synch.lock_acquire_loop. munfold. rewrite (get_lock_eq l k1 y Ey), kt_gets.
    rewrite Ha, decide_False, bool_decide_eq_true_2 by done. by eexists. }
  destruct E as [k' E].
  destruct (acquire_spec lbolt F k R S Zs l y K Hc Hl Ey) as [[E' _]|(b & s' & E' & K' & _ & Hb)]; rewrite E in E'; [done|].
  injection E' as <- <-. destruct Hb as (_ & Hh' & Hc'). exists k'.
  split; [cbn [Vnode.lock_acquire kernel_locks]; by rewrite (bind_Done _ _ _ _ _ E)|].
  split; [by exists F|]. rewrite Hc', Hh'. split; [done|]. apply lookup_insert_eq.
Qed.

Lemma release_held k l : held_lock k l -> l <> 0 ->
  Vnode.lock_release l k = Panic \/ exists k', Vnode.lock_release l k = Done tt k' /\ idle_lock k' l.
Proof.
  intros Hi Hl. destruct (held_by_lock k l _ Hi) as (y & Ey & Hy & _). destruct Hi as ((F & R & S & Zs & K) & Hc & Hh).
  cbn [Vnode.lock_release kernel_locks].
  destruct (release_spec lbolt F k R S Zs l y K Hc Hl Ey) as [[E _]|(b & k' & E & K' & _ & Hb & Hc' & Hh')].
  { left. munfold. by rewrite E. }
  right. exists k'. rewrite (bind_Done _ _ _ _ _ E). split; [done|]. rewrite bool_decide_eq_true_2 in Hb by done. subst b.
  split; [by exists F|]. rewrite Hc', Hh'. split; [done|]. apply lookup_insert_eq.
Qed.

(** [lock_destroy] on a free lock panics. *)
Lemma destroy_idle k l : idle_lock k l -> l <> 0 -> Vnode.lock_destroy l k = Panic.
Proof.
  intros Hi Hl. destruct (held_by_lock k l 0 Hi) as (y & Ey & Hy & [[Ha _]|[_ ?]]); [|done].
  destruct Hi as ((F & Hk) & _). destruct (kernel_heap lbolt F k Hk) as [B R].
  cbn [Vnode.lock_destroy kernel_locks]. unfold Synch.lock_destroy. munfold. rewrite bool_decide_eq_true_2 by done.
  rewrite (get_lock_eq l k y Ey), Ha. unfold Synch.kdrop at 1. rewrite (kt_Panic _ k); [done|].
  unfold zoom. simpl. by rewrite (Kheap.kfree_misaligned _ B).
Qed.


Section files.
Context {D : Type} `{!Blockdev.Device D}.
Import Vnode Sfs SfsFile.
Abbreviation sfs := (sfs_fs kernel D).
Implicit Types s : sfs.

Lemma fs_acquire s l : idle_lock (s_kern s) l -> l <> 0 ->
  exists k, zoom kernL (Vnode.lock_acquire l) s = Done tt (set_kern k s) /\ held_lock k l.
Proof. intros Hi Hl. destruct (acquire_idle _ _ Hi Hl) as (k & E & Hh). exists k. unfold zoom. cbn [lget lset kernL]. by rewrite E. Qed.

Lemma fs_release s l : held_lock (s_kern s) l -> l <> 0 ->
  zoom kernL (Vnode.lock_release l) s = Panic \/
  exists k, zoom kernL (Vnode.lock_release l) s = Done tt (set_kern k s) /\ idle_lock k l.
Proof.
  intros Hi Hl. unfold zoom. cbn [lget lset kernL]. destruct (release_held _ _ Hi Hl) as [->|(k & -> & Hh)]; [by left|right].
  by exists k.
Qed.

(** A vnode whose count lock is free. *)
Record quiet s (p : Z) (sv : sfs_vnode) : Prop := {
  qu_obj : s_objs s !! p = Some sv;
  qu_lock : idle_lock (s_kern s) (vn_countlock (sv_v sv));
  qu_nz : vn_countlock (sv_v sv) <> 0;
}.

Lemma quiet_kern s p sv k : quiet s p sv -> idle_lock k (vn_countlock (sv_v sv)) -> quiet (set_kern k s) p sv.
Proof. by intros []. Qed.

Lemma check_quiet s p sv op o :
  quiet s p sv -> p <> 0 -> p <> deadbeef -> vn_ops (sv_v sv) = Some o -> vn_fs (sv_v sv) <> deadbeef ->
  0 < vn_refcount (sv_v sv) -> 0 <= vn_opencount (sv_v sv) ->
  vnode_check kernL vget p op s = Panic \/ exists k, vnode_check kernL vget p op s = Done tt (set_kern k s) /\ quiet (set_kern k s) p sv.
Proof.
  intros Q Hp Hd Ho Hf Hr Hn. unfold vnode_check. rewrite decide_False by tauto.
  rewrite (bind_Done _ _ _ _ _ (get_vn_eq s p sv (qu_obj _ _ _ Q))), Ho, decide_False by done.
  destruct (fs_acquire s _ (qu_lock _ _ _ Q) (qu_nz _ _ _ Q)) as (k & E & Hh). rewrite (bind_Done _ _ _ _ _ E).
  rewrite (decide_False (P := vn_refcount (sv_v sv) < 0)) by lia. rewrite (decide_False (P := _ /\ _)) by (intros [? _]; lia).
  rewrite (decide_False (P := vn_opencount (sv_v sv) < 0)) by lia.
  rewrite (bind_Done (mret tt) _ _ tt (set_kern k s)), (bind_Done (mret tt) _ _ tt (set_kern k s)) by done.
  destruct (fs_release (set_kern k s) _ Hh (qu_nz _ _ _ Q)) as [Er|(k' & Er & Hi)]; [by left|right].
  exists k'. split; [exact Er|]. by apply (quiet_kern s).
Qed.

(** The table of vnodes is well formed and its entries are set. *)
Definition table_ok s : Prop := Array.wf (s_vnodes s) /\ forall n, (n < Z.to_nat (Array.num (s_vnodes s)))%nat ->
  exists q, Array.vdata (s_vnodes s) !! n = Some (Some q).

Lemma find_index_spec n (i : nat) p s :
  table_ok s -> (i + n <= Z.to_nat (Array.num (s_vnodes s)))%nat ->
  exists ix, find_index n (Z.of_nat i) p s = Done ix s /\ ix < Array.num (s_vnodes s).
Proof.
  intros [W T]. revert i. induction n as [|n IH]; intros i Hi.
  { exists (-1). split; [done|]. destruct W. lia. }
  cbn [find_index]. destruct (T i ltac:(lia)) as [q Hq]. rewrite (bind_Done _ _ _ _ _ (getguy_eq s i q W ltac:(lia) Hq)).
  rewrite (bind_Done _ _ s q s) by done. case_decide as D0; [exists (Z.of_nat i); split; [done|lia]|].
  replace (Z.of_nat i + 1) with (Z.of_nat (S i)) by lia. apply IH. lia.
Qed.

Lemma remove_eq s ix :
  Array.wf (s_vnodes s) -> 0 <= ix < Array.num (s_vnodes s) ->
  exists a, zoom vnodesL (Array.array_remove ix) s = Done tt (set_vnodes a s).
Proof.
  intros [] Hi. unfold Array.array_remove, Array.getA, Array.modA, zoom. munfold. simpl.
  rewrite !bool_decide_eq_true_2 by lia.
  destruct (Array.move_down_lookup (Z.to_nat (Array.num (s_vnodes s) - (ix + 1))) ix (Array.vdata (s_vnodes s)))
    as (d & -> & _); [lia..|].
  eexists. by destruct s.
Qed.

Lemma kill_panics s p sv :
  quiet s p sv -> vn_refcount (sv_v sv) = 1 -> vn_opencount (sv_v sv) = 0 -> vnode_kill kernL vget vput p s = Panic.
Proof.
  intros Q Hr Ho. unfold vnode_kill. rewrite (bind_Done _ _ _ _ _ (get_vn_eq s p sv (qu_obj _ _ _ Q))).
  unfold kassert. munfold. rewrite !bool_decide_eq_true_2 by (done || apply Q).
  unfold zoom. cbn [lget lset kernL]. by rewrite (destroy_idle _ _ (qu_lock _ _ _ Q) (qu_nz _ _ _ Q)).
Qed.

Lemma reclaim_panics s p sv :
  quiet s p sv -> table_ok s -> vn_refcount (sv_v sv) = 1 -> vn_opencount (sv_v sv) = 0 -> sv_dirty sv = false ->
  sfi_linkcount (sv_i sv) <> 0 -> sfs_reclaim p s = Panic.
Proof.
  intros Q T Hr Ho Hd Hl. pose proof (qu_obj _ _ _ Q) as Hob. unfold sfs_reclaim.
  rewrite (bind_Done _ _ _ _ _ (SfsFile.get_sv_eq s p sv Hob)).
  destruct (fs_acquire s _ (qu_lock _ _ _ Q) (qu_nz _ _ _ Q)) as (k & E & Hh). rewrite (bind_Done _ _ _ _ _ E).
  rewrite (bind_Done _ _ (set_kern k s) sv (set_kern k s)) by (by apply SfsFile.get_sv_eq). rewrite decide_False by (intros Hx; by apply Hx).
  destruct (fs_release (set_kern k s) _ Hh (qu_nz _ _ _ Q)) as [Er|(k' & Er & Hi)]; [by apply bind_Panic|].
  rewrite (bind_Done _ _ _ _ _ Er). change (set_kern k' (set_kern k s)) with (set_kern k' s). set (s' := set_kern k' s) in *.
  pose proof (quiet_kern s p sv k' Q Hi) as Q'. rewrite decide_False by done.
  rewrite (bind_Done (mret tt) _ s' tt s') by done.
  rewrite (bind_Done _ _ s' tt s'). 2:{ unfold sfs_sync_inode. rewrite (bind_Done _ _ _ _ _ (SfsFile.get_sv_eq s' p sv Hob)). by rewrite Hd. }
  rewrite (bind_Done _ _ _ _ _ (SfsFile.get_sv_eq s' p sv Hob)). rewrite decide_False by done.
  rewrite (bind_Done (mret tt) _ s' tt s') by done.
  rewrite (bind_Done _ _ s' (Array.num (s_vnodes s')) s') by (by destruct s).
  destruct (find_index_spec (Z.to_nat (Array.num (s_vnodes s'))) 0 p s' T ltac:(lia)) as (ix & Ef & Hix).
  change 0 with (Z.of_nat 0) at 1. rewrite (bind_Done _ _ _ _ _ Ef). case_decide as D0; [done|].
  destruct (remove_eq s' ix (proj1 T) ltac:(lia)) as [a Ea]. rewrite (bind_Done _ _ _ _ _ Ea).
  apply bind_Panic. apply (kill_panics (set_vnodes a s') p sv); [|done|done]. by destruct Q'.
Qed.

(** C39: Dropping the last reference to a file panics, on the kernel as it is: the vnode
    is taken out of the table and killed, and [vnode_kill] destroys the count lock, whose
    [lock_destroy] passes the flag of the lock to [kfree].  This is so for every clean,
    linked file that is not open, whatever else the kernel holds. *)
Theorem last_decref_panics s p sv o :
  quiet s p sv -> table_ok s -> p <> 0 -> p <> deadbeef -> vn_ops (sv_v sv) = Some o -> vn_fs (sv_v sv) <> deadbeef ->
  vn_refcount (sv_v sv) = 1 -> vn_opencount (sv_v sv) = 0 -> sv_dirty sv = false -> sfi_linkcount (sv_i sv) <> 0 ->
  VOP_DECREF p s = Panic.
Proof.
  intros Q T Hp Hdb Hops Hfs Hr Ho Hd Hl. pose proof (qu_obj _ _ _ Q) as Hob. unfold VOP_DECREF, vnode_decref.
  rewrite (bind_Done _ _ s tt s) by (unfold kassert; by rewrite bool_decide_eq_true_2).
  rewrite (bind_Done _ _ _ _ _ (get_vn_eq s p sv Hob)).
  destruct (fs_acquire s _ (qu_lock _ _ _ Q) (qu_nz _ _ _ Q)) as (k & E & Hh). rewrite (bind_Done _ _ _ _ _ E).
  rewrite (bind_Done _ _ (set_kern k s) (sv_v sv) (set_kern k s)) by (by apply get_vn_eq).
  rewrite (bind_Done _ _ (set_kern k s) tt (set_kern k s)) by (unfold kassert; by rewrite bool_decide_eq_true_2 by lia).
  rewrite decide_False by lia. rewrite (bind_Done (mret true) _ (set_kern k s) true (set_kern k s)) by done.
  destruct (fs_release (set_kern k s) _ Hh (qu_nz _ _ _ Q)) as [Er|(k' & Er & Hi)]; [by apply bind_Panic|].
  rewrite (bind_Done _ _ _ _ _ Er). change (set_kern k' (set_kern k s)) with (set_kern k' s).
  pose proof (quiet_kern s p sv k' Q Hi) as Q'.
  destruct (check_quiet (set_kern k' s) p sv "reclaim" o Q' Hp Hdb Hops Hfs ltac:(lia) ltac:(lia)) as [Ec|(k2 & Ec & Q2)];
    [by apply bind_Panic|].
  rewrite (bind_Done _ _ _ _ _ Ec). apply bind_Panic. unfold attempt. by rewrite (reclaim_panics _ p sv Q2).
Qed.

End files.

End vnodes.

End FsKernel.
