(* ===== verification/Emu.v ===== *)
(** * The emulator file system: kern/dev/lamebus/emu.c

    Files of the host, reached through a card that opens, reads and writes them by handle.  The driver part
    talks to the registers and the transfer buffer of the card; the file system part keeps the vnodes that are
    loaded, by handle.  The card is a parameter: what it does when an operation is started.  One thread
    is in the driver at a time, and [P(e_sem)] waits for the card, whose interrupt runs [emu_irq]. *)

From S2P Require Import Prelude Kmalloc Array Uio Vnode Devfs.
Import Array Uio Vnode.

Module Emu.

(** ** The card *)

Definition EMU_MAXIO : Z := 16384.
Definition EMU_ROOTHANDLE : Z := 0.

Definition EMU_OP_OPEN : Z := 1.
Definition EMU_OP_CREATE : Z := 2.
Definition EMU_OP_EXCLCREATE : Z := 3.
Definition EMU_OP_CLOSE : Z := 4.
Definition EMU_OP_READ : Z := 5.
Definition EMU_OP_READDIR : Z := 6.
Definition EMU_OP_WRITE : Z := 7.
Definition EMU_OP_GETSIZE : Z := 8.
Definition EMU_OP_TRUNC : Z := 9.

Definition EMU_RES_SUCCESS : Z := 1.
Definition EMU_RES_BADHANDLE : Z := 2.
Definition EMU_RES_BADOP : Z := 3.
Definition EMU_RES_BADPATH : Z := 4.
Definition EMU_RES_BADSIZE : Z := 5.
Definition EMU_RES_EXISTS : Z := 6.
Definition EMU_RES_ISDIR : Z := 7.
Definition EMU_RES_MEDIA : Z := 8.
Definition EMU_RES_NOHANDLES : Z := 9.
Definition EMU_RES_NOSPACE : Z := 10.
Definition EMU_RES_NOTDIR : Z := 11.
Definition EMU_RES_UNKNOWN : Z := 12.
Definition EMU_RES_UNSUPP : Z := 13.

(** The registers REG_HANDLE, REG_OFFSET and REG_IOLEN. *)
Record regs := mkregs { REG_HANDLE : Z; REG_OFFSET : Z; REG_IOLEN : Z }.

(** Carrying out an operation, with the registers and the transfer buffer, leaves a result code, the registers, the
    buffer and the files of the host. *)
Class EmuCard (HW : Type) := {
  emu_run : Z -> regs -> list Z -> HW -> Z * regs * list Z * HW;
}.

Record emu_softc (HW : Type) := mkemu {
  e_card : HW;
  e_regs : regs;
  e_oper : Z;                   (* register REG_OPER *)
  e_res : Z;                    (* register REG_RESULT *)
  e_lock : Z;
  e_sem : Z;                    (* the count of the semaphore *)
  e_iobuf : list Z;
  e_result : Z;
}.
Arguments mkemu {HW} _ _ _ _ _ _ _ _.
Arguments e_card {HW} _.
Arguments e_regs {HW} _.
Arguments e_oper {HW} _.
Arguments e_res {HW} _.
Arguments e_lock {HW} _.
Arguments e_sem {HW} _.
Arguments e_iobuf {HW} _.
Arguments e_result {HW} _.

Section card.
Context {HW : Type} `{!EmuCard HW}.
Abbreviation softc := (emu_softc HW).

Definition set_regs x (e : softc) : softc :=
  mkemu (e_card e) x (e_oper e) (e_res e) (e_lock e) (e_sem e) (e_iobuf e) (e_result e).
Definition set_oper x (e : softc) : softc :=
  mkemu (e_card e) (e_regs e) x (e_res e) (e_lock e) (e_sem e) (e_iobuf e) (e_result e).
Definition set_sem x (e : softc) : softc :=
  mkemu (e_card e) (e_regs e) (e_oper e) (e_res e) (e_lock e) x (e_iobuf e) (e_result e).
Definition set_iobuf x (e : softc) : softc :=
  mkemu (e_card e) (e_regs e) (e_oper e) (e_res e) (e_lock e) (e_sem e) x (e_result e).

(** [emu_wreg] for each of the registers that are written. *)
Definition wreg_handle (x : Z) : M softc unit :=
  modify (fun e => set_regs (mkregs (u32 x) (REG_OFFSET (e_regs e)) (REG_IOLEN (e_regs e))) e).
Definition wreg_offset (x : Z) : M softc unit :=
  modify (fun e => set_regs (mkregs (REG_HANDLE (e_regs e)) (u32 x) (REG_IOLEN (e_regs e))) e).
Definition wreg_iolen (x : Z) : M softc unit :=
  modify (fun e => set_regs (mkregs (REG_HANDLE (e_regs e)) (REG_OFFSET (e_regs e)) (u32 x)) e).
Definition wreg_oper (x : Z) : M softc unit := modify (set_oper x).
Definition rreg (f : regs -> Z) : M softc Z := gets (fun e => f (e_regs e)).

Definition emu_irq : M softc unit :=
  modify (fun e => mkemu (e_card e) (e_regs e) (e_oper e) 0 (e_lock e) (e_sem e + 1) (e_iobuf e) (e_res e)).

Definition translate_err (code : Z) : M softc unit :=
  if decide (code = EMU_RES_SUCCESS) then mret tt
  else if decide (code = EMU_RES_BADHANDLE \/ code = EMU_RES_BADOP \/ code = EMU_RES_BADSIZE) then panic
  else if decide (code = EMU_RES_BADPATH) then fail ENOENT
  else if decide (code = EMU_RES_EXISTS) then fail EEXIST
  else if decide (code = EMU_RES_ISDIR) then fail EISDIR
  else if decide (code = EMU_RES_MEDIA) then fail EIO
  else if decide (code = EMU_RES_NOHANDLES) then fail ENFILE
  else if decide (code = EMU_RES_NOSPACE) then fail ENOSPC
  else if decide (code = EMU_RES_NOTDIR) then fail ENOTDIR
  else if decide (code = EMU_RES_UNKNOWN) then fail EIO
  else if decide (code = EMU_RES_UNSUPP) then fail EUNIMP
  else fail EAGAIN.

(** The operation that the register asks for. *)
Definition card_operates : M softc unit := fun e =>
  let '(code, r, buf, card) := emu_run (e_oper e) (e_regs e) (e_iobuf e) (e_card e) in
  Done tt (mkemu card r (e_oper e) code (e_lock e) (e_sem e) buf (e_result e)).

Definition emu_waitdone : M softc unit :=
  n ← gets e_sem;
  (if decide (n = 0) then card_operates ;; emu_irq else mret tt) ;;
  modify (fun e => set_sem (e_sem e - 1) e) ;;
  code ← gets e_result;
  translate_err code.

End card.

(** ** The file system: kern/include/emufs.h *)

(** The two tables of operations. *)
Inductive emufs_ops := fileops | dirops.

Record emufs_vnode := mkev {
  ev_v : vnode emufs_ops;
  ev_handle : Z;
}.

(** [struct emufs_fs] with its device and vnodes, beside the kernel and the user context. *)
Record emufs_fs (K HW : Type) := mkemufs {
  ef_kern : K;
  ef_ctx : uctx;
  ef_emu : emu_softc HW;
  ef_self : Z;                      (* address of the structure *)
  ef_root : Z;
  ef_vnodes : array Z;
  ef_objs : gmap Z emufs_vnode;     (* the vnode structures, by address *)
}.
Arguments mkemufs {K HW} _ _ _ _ _ _ _.
Arguments ef_kern {K HW} _.
Arguments ef_ctx {K HW} _.
Arguments ef_emu {K HW} _.
Arguments ef_self {K HW} _.
Arguments ef_root {K HW} _.
Arguments ef_vnodes {K HW} _.
Arguments ef_objs {K HW} _.

Definition sizeof_emufs_vnode : Z := 32.
Definition sizeof_emufs_fs : Z := 32.

Section ops.
Context {K HW : Type} `{!Kmalloc K, !Locks K, !Devfs.LockQuery K, !EmuCard HW}.
Abbreviation emufs := (emufs_fs K HW).
Abbreviation EM := (M emufs).
(** Operations that are handed a uio. *)
Abbreviation XM := (M (emufs * uio)).

Definition set_kern x (s : emufs) : emufs :=
  mkemufs x (ef_ctx s) (ef_emu s) (ef_self s) (ef_root s) (ef_vnodes s) (ef_objs s).
Definition set_emu x (s : emufs) : emufs :=
  mkemufs (ef_kern s) (ef_ctx s) x (ef_self s) (ef_root s) (ef_vnodes s) (ef_objs s).
Definition set_ctx x (s : emufs) : emufs :=
  mkemufs (ef_kern s) x (ef_emu s) (ef_self s) (ef_root s) (ef_vnodes s) (ef_objs s).
Definition set_root x (s : emufs) : emufs :=
  mkemufs (ef_kern s) (ef_ctx s) (ef_emu s) (ef_self s) x (ef_vnodes s) (ef_objs s).
Definition set_vnodes x (s : emufs) : emufs :=
  mkemufs (ef_kern s) (ef_ctx s) (ef_emu s) (ef_self s) (ef_root s) x (ef_objs s).
Definition set_objs x (s : emufs) : emufs :=
  mkemufs (ef_kern s) (ef_ctx s) (ef_emu s) (ef_self s) (ef_root s) (ef_vnodes s) x.

Definition kernL : lens emufs K := Lens ef_kern set_kern.
Definition emuL : lens emufs (emu_softc HW) := Lens ef_emu set_emu.
Definition vnodesL : lens emufs (K * array Z) :=
  Lens (fun s => (ef_kern s, ef_vnodes s)) (fun t s => set_vnodes t.2 (set_kern t.1 s)).
Definition fsL : lens (emufs * uio) emufs := Lens fst (fun s x => (s, x.2)).
Definition bufL : lens (emufs * uio) (list Z * (uctx * uio)) :=
  Lens (fun x => (e_iobuf (ef_emu x.1), (ef_ctx x.1, x.2)))
       (fun t x => (set_ctx t.2.1 (set_emu (set_iobuf t.1 (ef_emu x.1)) x.1), t.2.2)).

Definition fs {A} (m : EM A) : XM A := zoom fsL m.
Definition emu {A} (m : M (emu_softc HW) A) : EM A := zoom emuL m.
Definition get_uio {A} (f : uio -> A) : XM A := gets (fun x => f x.2).

Definition lock_emu : EM unit := s ← gets id; zoom kernL (lock_acquire (e_lock (ef_emu s))).
Definition unlock_emu : EM unit := s ← gets id; zoom kernL (lock_release (e_lock (ef_emu s))).

(** An error found under the lock, or none. *)
Definition finish {S A} (r : errno + A) : M S A := match r with inl e => fail e | inr a => mret a end.

(** ** Operations on handles *)

(** The new handle, and whether it is a directory; names are without their terminator. *)
Definition emu_open (handle : Z) (name : list Z) (create excl : bool) : EM (Z * bool) :=
  if decide (Z.of_nat (length name) + 1 > EMU_MAXIO) then fail ENAMETOOLONG
  else
    let op := if create && excl then EMU_OP_EXCLCREATE else if create then EMU_OP_CREATE else EMU_OP_OPEN in
    lock_emu ;;
    s ← gets id;
    buf ← access (splice (e_iobuf (ef_emu s)) 0 (name ++ [0]));
    emu (modify (set_iobuf buf)) ;;
    emu (wreg_iolen (Z.of_nat (length name))) ;;
    emu (wreg_handle handle) ;;
    emu (wreg_oper op) ;;
    r ← attempt (emu emu_waitdone);
    match r with
    | inl e => unlock_emu ;; fail e
    | inr _ =>
        newhandle ← emu (rreg REG_HANDLE);
        n ← emu (rreg REG_IOLEN);
        unlock_emu ;;
        mret (newhandle, bool_decide (n > 0))
    end.

(** The loop of [emu_close]; [left] retries are left. *)
Fixpoint close_loop (left : nat) (handle : Z) : EM unit :=
  emu (wreg_handle handle) ;;
  emu (wreg_oper EMU_OP_CLOSE) ;;
  r ← attempt (emu emu_waitdone);
  match r, left with
  | inl EIO, S left' => close_loop left' handle
  | _, _ => finish r
  end.

Definition emu_close (handle : Z) : EM unit :=
  s ← gets id;
  mine ← zoom kernL (Devfs.lock_do_i_hold (e_lock (ef_emu s)));
  (if decide (mine = 0) then lock_emu else mret tt) ;;
  r ← attempt (close_loop 10 handle);
  (if decide (mine = 0) then unlock_emu else mret tt) ;;
  finish r.

Definition emu_doread (handle len op : Z) : XM unit :=
  u ← get_uio id;
  kassert (bool_decide (rw u = UIO_READ)) ;;
  fs lock_emu ;;
  fs (emu (wreg_handle handle)) ;;
  fs (emu (wreg_iolen len)) ;;
  fs (emu (wreg_offset (uio_offset u))) ;;
  fs (emu (wreg_oper op)) ;;
  r ← attempt (fs (emu emu_waitdone));
  r ← match r with
      | inl e => mret (inl e)
      | inr _ =>
          n ← fs (emu (rreg REG_IOLEN));
          r ← attempt (zoom bufL (uiomove 0 n));
          o ← fs (emu (rreg REG_OFFSET));
          modify (fun x => (x.1, set_offset (s32 o) x.2)) ;;
          mret r
      end;
  fs unlock_emu ;;
  finish r.

Definition emu_read (handle len : Z) : XM unit := emu_doread handle len EMU_OP_READ.
Definition emu_readdir (handle len : Z) : XM unit := emu_doread handle len EMU_OP_READDIR.

Definition emu_write (handle len : Z) : XM unit :=
  u ← get_uio id;
  kassert (bool_decide (rw u = UIO_WRITE)) ;;
  fs lock_emu ;;
  fs (emu (wreg_handle handle)) ;;
  fs (emu (wreg_iolen len)) ;;
  fs (emu (wreg_offset (uio_offset u))) ;;
  r ← attempt (zoom bufL (uiomove 0 len));
  r ← match r with
      | inl e => mret (inl e)
      | inr _ => fs (emu (wreg_oper EMU_OP_WRITE)) ;; attempt (fs (emu emu_waitdone))
      end;
  fs unlock_emu ;;
  finish r.

Definition emu_getsize (handle : Z) : EM Z :=
  lock_emu ;;
  emu (wreg_handle handle) ;;
  emu (wreg_oper EMU_OP_GETSIZE) ;;
  r ← attempt (emu emu_waitdone);
  match r with
  | inl e => unlock_emu ;; fail e
  | inr _ => n ← emu (rreg REG_IOLEN); unlock_emu ;; mret (s32 n)
  end.

Definition emu_trunc (handle len : Z) : EM unit :=
  lock_emu ;;
  emu (wreg_handle handle) ;;
  emu (wreg_iolen len) ;;
  emu (wreg_oper EMU_OP_TRUNC) ;;
  r ← attempt (emu emu_waitdone);
  unlock_emu ;;
  finish r.

(** ** Vnodes *)

Definition O_ACCMODE : Z := 3.
Definition O_RDONLY : Z := 0.
Definition O_APPEND : Z := 32.
Definition S_IFREG : Z := 4096.
Definition S_IFDIR : Z := 8192.

Definition get_ev (p : Z) : EM emufs_vnode := s ← gets id; access (ef_objs s !! p).
Definition vget (p : Z) (s : emufs) : option (vnode emufs_ops) := ev_v <$> ef_objs s !! p.
Definition vput (p : Z) (v : vnode emufs_ops) (s : emufs) : emufs :=
  set_objs (alter (fun ev => mkev v (ev_handle ev)) p (ef_objs s)) s.

Definition VOP_INCREF (p : Z) : EM unit := vnode_incref kernL vget vput p.

(** [kfree(ev)] *)
Definition free_ev (p : Z) : EM unit :=
  zoom kernL (kfree p) ;;
  modify (fun s => set_objs (delete p (ef_objs s)) s).

(** The sweep over the loaded vnodes in [emufs_loadvnode]. *)
Fixpoint find_handle (n : nat) (i handle : Z) : EM (option Z) :=
  match n with
  | O => mret None
  | S n' =>
      o ← zoom vnodesL (array_getguy i);
      p ← access o;
      ev ← get_ev p;
      if decide (ev_handle ev = handle) then mret (Some p) else find_handle n' (i + 1) handle
  end.

Definition emufs_loadvnode (handle : Z) (isdir : bool) : EM Z :=
  lock_emu ;;
  num ← zoom vnodesL array_getnum;
  o ← find_handle (Z.to_nat num) 0 handle;
  match o with
  | Some p => VOP_INCREF p ;; unlock_emu ;; mret p
  | None =>
      p ← zoom kernL (kmalloc sizeof_emufs_vnode);
      if decide (p = 0) then unlock_emu ;; fail ENOMEM
      else
        modify (fun s => set_objs (<[p := mkev (mkvnode 0 0 0 0 0 None) handle]> (ef_objs s)) s) ;;
        s ← gets id;
        r ← attempt (vnode_init kernL vput p (if isdir then dirops else fileops) (ef_self s) p);
        match r with
        | inl e => unlock_emu ;; free_ev p ;; fail e
        | inr _ =>
            r ← attempt (zoom vnodesL (array_add p));
            match r with
            | inl e => unlock_emu ;; vnode_kill kernL vget vput p ;; free_ev p ;; fail e
            | inr _ => unlock_emu ;; mret p
            end
        end
  end.

Definition emufs_open (openflags : Z) : EM unit :=
  if decide (Z.land openflags O_APPEND <> 0) then fail EUNIMP else mret tt.

Definition emufs_opendir (openflags : Z) : EM unit :=
  if decide (Z.land openflags O_ACCMODE <> O_RDONLY) then fail EISDIR
  else if decide (Z.land openflags O_APPEND <> 0) then fail EISDIR
  else mret tt.

Definition emufs_close : EM unit := mret tt.

(** The index of a vnode in the table, -1 when it is not there. *)
Fixpoint find_index (n : nat) (i p : Z) : EM Z :=
  match n with
  | O => mret (-1)
  | S n' =>
      o ← zoom vnodesL (array_getguy i);
      q ← access o;
      if decide (q = p) then mret i else find_index n' (i + 1) p
  end.

Definition emufs_reclaim (p : Z) : EM unit :=
  ev ← get_ev p;
  lock_emu ;;
  zoom kernL (lock_acquire (vn_countlock (ev_v ev))) ;;
  ev ← get_ev p;
  if decide (vn_refcount (ev_v ev) <> 1) then
    zoom kernL (lock_release (vn_countlock (ev_v ev))) ;;
    unlock_emu ;;
    fail EBUSY
  else
    zoom kernL (lock_release (vn_countlock (ev_v ev))) ;;
    r ← attempt (emu_close (ev_handle ev));
    match r with
    | inl e => unlock_emu ;; fail e
    | inr _ =>
        num ← zoom vnodesL array_getnum;
        ix ← find_index (Z.to_nat num) 0 p;
        if decide (ix < 0) then panic
        else
          zoom vnodesL (array_remove ix) ;;
          unlock_emu ;;
          vnode_kill kernL vget vput p ;;
          free_ev p
    end.

(** The loop of [emufs_read] and [emufs_write]: a turn that moves nothing is the last. *)
Fixpoint io_loop (fuel : nat) (io : Z -> XM unit) : XM unit :=
  u ← get_uio id;
  if decide (uio_resid u > 0) then
    match fuel with
    | O => nofuel
    | S fuel' =>
        io (Z.min (uio_resid u) EMU_MAXIO) ;;
        u' ← get_uio id;
        if decide (uio_resid u' = uio_resid u) then mret tt else io_loop fuel' io
    end
  else mret tt.

Definition emufs_read (p : Z) : XM unit :=
  ev ← fs (get_ev p);
  u ← get_uio id;
  kassert (bool_decide (rw u = UIO_READ)) ;;
  io_loop (Z.to_nat (uio_resid u)) (emu_read (ev_handle ev)).

Definition emufs_getdirentry (p : Z) : XM unit :=
  ev ← fs (get_ev p);
  u ← get_uio id;
  kassert (bool_decide (rw u = UIO_READ)) ;;
  emu_readdir (ev_handle ev) (Z.min (uio_resid u) EMU_MAXIO).

Definition emufs_write (p : Z) : XM unit :=
  ev ← fs (get_ev p);
  u ← get_uio id;
  kassert (bool_decide (rw u = UIO_WRITE)) ;;
  io_loop (Z.to_nat (uio_resid u)) (emu_write (ev_handle ev)).

Definition emufs_ioctl (op data : Z) : EM unit := fail EINVAL.

Definition emufs_file_gettype : EM Z := mret S_IFREG.
Definition emufs_dir_gettype : EM Z := mret S_IFDIR.
Definition emufs_gettype (o : emufs_ops) : EM Z :=
  match o with fileops => emufs_file_gettype | dirops => emufs_dir_gettype end.

(** A call through the table of operations of a vnode: the macro [__VOP]. *)
Definition vop {A} (p : Z) (opstr : string) (f : emufs_ops -> EM A) : EM A :=
  vnode_check kernL vget p opstr ;;
  v ← get_vn vget p;
  match vn_ops v with Some o => f o | None => undef end.

Record stat := mkstat { st_mode : Z; st_nlink : Z; st_size : Z; st_blocks : Z }.

Definition emufs_stat (p : Z) : EM stat :=
  ev ← get_ev p;
  mode ← vop p "gettype" emufs_gettype;
  size ← emu_getsize (ev_handle ev);
  mret (mkstat mode 1 size 0).

Definition emufs_tryseek (pos : Z) : EM unit := if decide (pos < 0) then fail EINVAL else mret tt.
Definition emufs_fsync : EM unit := mret tt.

Definition emufs_truncate (p len : Z) : EM unit := ev ← get_ev p; emu_trunc (ev_handle ev) len.

(** The vnode of a handle that was just opened. *)
Definition load_or_close (handle : Z) (isdir : bool) : EM Z :=
  r ← attempt (emufs_loadvnode handle isdir);
  match r with
  | inl e => _ ← attempt (emu_close handle); fail e
  | inr p => mret p
  end.

Definition emufs_creat (dir : Z) (name : list Z) (excl : bool) : EM Z :=
  ev ← get_ev dir;
  '(handle, isdir) ← emu_open (ev_handle ev) name true excl;
  load_or_close handle isdir.

Definition emufs_lookup (dir : Z) (pathname : list Z) : EM Z :=
  ev ← get_ev dir;
  '(handle, isdir) ← emu_open (ev_handle ev) pathname false false;
  load_or_close handle isdir.

(** The parts of a path before and after its last slash. *)
Fixpoint split_last (path : list Z) : option (list Z * list Z) :=
  match path with
  | [] => None
  | c :: path' =>
      match split_last path' with
      | Some (d, s) => Some (c :: d, s)
      | None => if decide (c = 47) then Some ([], path') else None
      end
  end.

(** The directory, and the name that is copied to the buffer of the caller. *)
Definition emufs_lookparent (dir : Z) (pathname : list Z) (len : Z) : EM (Z * list Z) :=
  match split_last pathname with
  | None =>
      if decide (Z.of_nat (length pathname) + 1 > len) then fail ENAMETOOLONG
      else VOP_INCREF dir ;; mret (dir, pathname)
  | Some (d, s) =>
      if decide (Z.of_nat (length s) + 1 > len) then fail ENAMETOOLONG
      else p ← emufs_lookup dir d; mret (p, s)
  end.

Definition emufs_namefile (p : Z) : XM unit :=
  root ← gets (fun x => ef_root x.1);
  if decide (p = root) then mret tt else fail EUNIMP.

Definition emufs_notdir {S A} : M S A := fail ENOTDIR.
Definition emufs_isdir {S A} : M S A := fail EISDIR.
Definition emufs_unimp {S A} : M S A := fail EUNIMP.

(** [struct vnode_ops], of the operations that have arguments of their own. *)
Record vnode_ops := mkops {
  vop_open : Z -> Z -> EM unit;
  vop_close : Z -> EM unit;
  vop_reclaim : Z -> EM unit;
  vop_read : Z -> XM unit;
  vop_readlink : Z -> XM unit;
  vop_getdirentry : Z -> XM unit;
  vop_write : Z -> XM unit;
  vop_ioctl : Z -> Z -> Z -> EM unit;
  vop_stat : Z -> EM stat;
  vop_gettype : Z -> EM Z;
  vop_tryseek : Z -> Z -> EM unit;
  vop_fsync : Z -> EM unit;
  vop_mmap : Z -> EM unit;
  vop_truncate : Z -> Z -> EM unit;
  vop_namefile : Z -> XM unit;
  vop_creat : Z -> list Z -> bool -> EM Z;
  vop_symlink : Z -> EM unit;
  vop_mkdir : Z -> EM unit;
  vop_link : Z -> EM unit;
  vop_remove : Z -> EM unit;
  vop_rmdir : Z -> EM unit;
  vop_rename : Z -> EM unit;
  vop_lookup : Z -> list Z -> EM Z;
  vop_lookparent : Z -> list Z -> Z -> EM (Z * list Z);
}.

Definition emufs_fileops : vnode_ops := {|
  vop_open _ := emufs_open;
  vop_close _ := emufs_close;
  vop_reclaim := emufs_reclaim;
  vop_read := emufs_read;
  vop_readlink _ := emufs_notdir;
  vop_getdirentry _ := emufs_notdir;
  vop_write := emufs_write;
  vop_ioctl _ := emufs_ioctl;
  vop_stat := emufs_stat;
  vop_gettype _ := emufs_file_gettype;
  vop_tryseek _ := emufs_tryseek;
  vop_fsync _ := emufs_fsync;
  vop_mmap _ := emufs_unimp;
  vop_truncate := emufs_truncate;
  vop_namefile _ := emufs_notdir;
  vop_creat _ _ _ := emufs_notdir;
  vop_symlink _ := emufs_notdir;
  vop_mkdir _ := emufs_notdir;
  vop_link _ := emufs_notdir;
  vop_remove _ := emufs_notdir;
  vop_rmdir _ := emufs_notdir;
  vop_rename _ := emufs_notdir;
  vop_lookup _ _ := emufs_notdir;
  vop_lookparent _ _ _ := emufs_notdir;
|}.

Definition emufs_dirops : vnode_ops := {|
  vop_open _ := emufs_opendir;
  vop_close _ := emufs_close;
  vop_reclaim := emufs_reclaim;
  vop_read _ := emufs_isdir;
  vop_readlink _ := emufs_isdir;
  vop_getdirentry := emufs_getdirentry;
  vop_write _ := emufs_isdir;
  vop_ioctl _ := emufs_ioctl;
  vop_stat := emufs_stat;
  vop_gettype _ := emufs_dir_gettype;
  vop_tryseek _ _ := emufs_unimp;
  vop_fsync _ := emufs_isdir;
  vop_mmap _ := emufs_isdir;
  vop_truncate _ _ := emufs_isdir;
  vop_namefile := emufs_namefile;
  vop_creat := emufs_creat;
  vop_symlink _ := emufs_unimp;
  vop_mkdir _ := emufs_unimp;
  vop_link _ := emufs_unimp;
  vop_remove _ := emufs_unimp;
  vop_rmdir _ := emufs_unimp;
  vop_rename _ := emufs_unimp;
  vop_lookup := emufs_lookup;
  vop_lookparent := emufs_lookparent;
|}.

Definition ops_of (o : emufs_ops) : vnode_ops := match o with fileops => emufs_fileops | dirops => emufs_dirops end.

Definition VOP_DECREF (p : Z) : EM unit :=
  vnode_decref kernL vget vput (fun p => v ← get_vn vget p; o ← access (vn_ops v); vop_reclaim (ops_of o) p) p.
Definition VOP_READ (p : Z) : XM unit := o ← fs (vop p "read" mret); vop_read (ops_of o) p.
Definition VOP_WRITE (p : Z) : XM unit := o ← fs (vop p "write" mret); vop_write (ops_of o) p.

(** ** The volume *)

Definition emufs_sync : EM unit := mret tt.
Definition emufs_getvolname : EM (option (list Z)) := mret None.
Definition emufs_unmount : EM unit := fail EBUSY.

Definition emufs_getroot : EM Z :=
  root ← gets ef_root;
  kassert (bool_decide (root <> 0)) ;;
  VOP_INCREF root ;;
  mret root.

(** [emufs_addtovfs] from the point where the structure and the table exist; [vfs_addfs] enters the file system
    in the table of Vfs.v. *)
Definition addtovfs_load (vfs_addfs : EM unit) : EM unit :=
  s ← gets id;
  r ← attempt (emufs_loadvnode EMU_ROOTHANDLE true);
  match r with
  | inl e => zoom kernL (kfree (ef_self s)) ;; fail e
  | inr root =>
      modify (set_root root) ;;
      kassert (bool_decide (root <> 0)) ;;
      r ← attempt vfs_addfs;
      match r with
      | inl e => VOP_DECREF root ;; zoom kernL (kfree (ef_self s)) ;; fail e
      | inr _ => mret tt
      end
  end.

Definition addtovfs_run (vfs_addfs : EM unit) (self : Z) (vns : array Z) : M (K * (uctx * emu_softc HW)) emufs := fun x =>
  match addtovfs_load vfs_addfs (mkemufs x.1 x.2.1 x.2.2 self 0 vns ∅) with
  | Done _ s' => Done s' (ef_kern s', (ef_ctx s', ef_emu s'))
  | Fail e s' => Fail e (ef_kern s', (ef_ctx s', ef_emu s'))
  | Panic => Panic | Undef => Undef | NoFuel => NoFuel
  end.

Definition emufs_addtovfs (vfs_addfs : EM unit) : M (K * (uctx * emu_softc HW)) emufs :=
  self ← zoom heapL (kmalloc sizeof_emufs_fs);
  if decide (self = 0) then fail ENOMEM
  else
    o ← zoom heapL array_create;
    match o with
    | None => zoom heapL (kfree self) ;; fail ENOMEM
    | Some vns => addtovfs_run vfs_addfs self vns
    end.

End ops.

End Emu.
