(* ===== verification/EmuSpec.v ===== *)
(** * What the emulator file system does

    Reads and writes of a file, in pieces that the card may cut short; and the handles that are open on
    the card, which are those of the loaded vnodes. *)

From S2P Require Import Prelude Kmalloc Array Uio Vnode Devfs Emu.
Import Array Uio Vnode Emu.

Module EmuSpec.

(** ** What the driver relies on *)

(** [d] with [x] in place from position [o] on, and zeros between. *)
Definition overlay (d : list Z) (o : nat) (x : list Z) : list Z :=
  take o (d ++ replicate (o - length d) 0) ++ x ++ drop (o + length x) d.

(** The card: [emu_files] are the files that are open, by handle.  A read delivers the bytes from the position on, at most as many as asked
    for, and none only at the end of the file; a write that succeeds stores all of the buffer.  Both can fail.
    [emu_write] has to rely on the latter: it looks at the completion code alone and never reads back how much
    was stored (emu.c:306), so with a card that stores less it would report bytes as written that are not. *)
Class EmuCardSpec (HW : Type) `{!EmuCard HW} := {
  emu_files : HW -> gmap Z (list Z);
  card_reads : forall hw h d (o n : nat) buf, emu_files hw !! h = Some d -> (0 < n <= Z.to_nat EMU_MAXIO)%nat -> length buf = Z.to_nat EMU_MAXIO ->
    exists code r buf' hw', emu_run EMU_OP_READ (mkregs h (Z.of_nat o) (Z.of_nat n)) buf hw = (code, r, buf', hw') /\
      emu_files hw' = emu_files hw /\ length buf' = length buf /\
      (code = EMU_RES_MEDIA \/ code = EMU_RES_UNKNOWN \/ code = EMU_RES_SUCCESS /\ exists k : nat, (k <= n)%nat /\
         REG_IOLEN r = Z.of_nat k /\ REG_OFFSET r = Z.of_nat (o + k) /\ take k buf' = take k (drop o d) /\ (o + k <= length d \/ k = 0)%nat /\
         (k = 0%nat -> (length d <= o)%nat));
  card_writes : forall hw h d (o n : nat) buf, emu_files hw !! h = Some d -> (0 < n <= Z.to_nat EMU_MAXIO)%nat -> length buf = Z.to_nat EMU_MAXIO ->
    exists code r buf' hw' d', emu_run EMU_OP_WRITE (mkregs h (Z.of_nat o) (Z.of_nat n)) buf hw = (code, r, buf', hw') /\
      emu_files hw' = <[h := d']> (emu_files hw) /\ length buf' = length buf /\
      (code = EMU_RES_MEDIA \/ code = EMU_RES_UNKNOWN \/ code = EMU_RES_NOSPACE \/
       code = EMU_RES_SUCCESS /\ d' = overlay d o (take n buf));
}.

Section spec.
Context {K HW : Type} `{!Kmalloc K, !Locks K, LQ : Devfs.LockQuery K, !EmuCard HW, !LockSpec K, !EmuCardSpec HW}.
Abbreviation emufs := (emufs_fs K HW).
Implicit Types s : emufs.

Definition card s : HW := e_card (ef_emu s).
Definition files s : gmap Z (list Z) := emu_files (card s).

(** The driver between two calls. *)
Record idle s : Prop := {
  id_lock : lk_free (ef_kern s) (e_lock (ef_emu s));
  id_sem : e_sem (ef_emu s) = 0;
  id_buf : length (e_iobuf (ef_emu s)) = Z.to_nat EMU_MAXIO;
}.

(** What a transfer does not change. *)
Record rest s s' : Prop := {
  re_self : ef_self s' = ef_self s;
  re_root : ef_root s' = ef_root s;
  re_vnodes : ef_vnodes s' = ef_vnodes s;
  re_objs : ef_objs s' = ef_objs s;
}.

#[local] Instance rest_preorder : PreOrder rest.
Proof. split; [by intros s|]. intros s1 s2 s3 [] []. split; congruence. Qed.

(** The state while the lock is held. *)
Record busy s s' : Prop := {
  bu_mine : lk_mine (ef_kern s') (e_lock (ef_emu s'));
  bu_sem : e_sem (ef_emu s') = 0;
  bu_buf : length (e_iobuf (ef_emu s')) = Z.to_nat EMU_MAXIO;
  bu_ctx : ef_ctx s' = ef_ctx s;
  bu_rest : rest s s';
}.

Lemma lock_emu_spec s : idle s -> exists k, lock_emu s = Done tt (set_kern k s) /\ busy s (set_kern k s).
Proof.
  intros [Hl Hs Hb]. destruct (acquire_free _ _ Hl) as (k & E & Hm). exists k.
  split; [unfold lock_emu, zoom; munfold; cbn [id lget lset kernL]; by rewrite E|]. by split.
Qed.

Lemma unlock_emu_spec s0 s : busy s0 s -> exists k, unlock_emu s = Done tt (set_kern k s) /\ idle (set_kern k s).
Proof.
  intros [Hl Hs Hb _ _]. destruct (release_mine _ _ Hl) as (k & E & Hm). exists k.
  split; [unfold unlock_emu, zoom; munfold; cbn [id lget lset kernL]; by rewrite E|]. by split.
Qed.

(** An operation of the card, from the registers to the result. *)
Definition operated s (r : regs) (op : Z) : emufs :=
  let '(code, r', buf, hw) := emu_run op r (e_iobuf (ef_emu s)) (card s) in
  set_emu (mkemu hw r' op 0 (e_lock (ef_emu s)) 0 buf code) s.
Definition code_of s (r : regs) (op : Z) : Z := (emu_run op r (e_iobuf (ef_emu s)) (card s)).1.1.1.

Lemma waitdone_eq s :
  e_sem (ef_emu s) = 0 ->
  emu emu_waitdone s = emu (translate_err (code_of s (e_regs (ef_emu s)) (e_oper (ef_emu s)))) (operated s (e_regs (ef_emu s)) (e_oper (ef_emu s))).
Proof.
  intros Hs. unfold emu, zoom, emu_waitdone, card_operates, emu_irq, operated, code_of, card. munfold. cbn [lget lset emuL ef_emu set_emu].
  rewrite Hs, decide_True by done. destruct (emu_run _ _ _ _) as [[[code r] buf] hw]. cbn [fst snd]. unfold set_sem.
  cbn [e_card e_regs e_oper e_res e_lock e_sem e_iobuf e_result]. rewrite Hs. cbn [ef_emu set_emu Z.add Z.sub Z.opp Z.pos_sub]. by destruct (translate_err code _).
Qed.

Lemma emufs_Done {A} (m : M emufs A) s u a s' : m s = Done a s' -> fs m (s, u) = Done a (s', u).
Proof. intros E. unfold fs, zoom. cbn [lget fsL fst]. by rewrite E. Qed.
Lemma emufs_Fail {A} (m : M emufs A) s u e s' : m s = Fail e s' -> fs m (s, u) = Fail e (s', u).
Proof. intros E. unfold fs, zoom. cbn [lget fsL fst]. by rewrite E. Qed.

(** The registers are set. *)
Definition started s (r : regs) (op : Z) : emufs :=
  set_emu (mkemu (card s) r op (e_res (ef_emu s)) (e_lock (ef_emu s)) (e_sem (ef_emu s)) (e_iobuf (ef_emu s)) (e_result (ef_emu s))) s.

Lemma start_eq {A} (k : M (emufs * uio) A) s u h len op :
  (fs (emu (wreg_handle h)) ;; fs (emu (wreg_iolen len)) ;; fs (emu (wreg_offset (uio_offset u))) ;; fs (emu (wreg_oper op)) ;; k) (s, u) =
  k (started s (mkregs (u32 h) (u32 (uio_offset u)) (u32 len)) op, u).
Proof. by destruct s. Qed.

Lemma operated_started s r op r' op' : operated (started s r op) r' op' = operated s r' op'.
Proof. unfold operated, started, card. cbn [ef_emu set_emu e_iobuf e_card e_lock]. by destruct (emu_run _ _ _ _) as [[[? ?] ?] ?]. Qed.

(** The card fails, or it reads [k] bytes of the file. *)
Lemma card_read_spec s0 s h d (o n : nat) :
  busy s0 s -> files s !! h = Some d -> (0 < n <= Z.to_nat EMU_MAXIO)%nat ->
  let r := mkregs h (Z.of_nat o) (Z.of_nat n) in let s1 := operated s r EMU_OP_READ in
  busy s0 s1 /\ files s1 = files s /\
  (emu emu_waitdone (started s r EMU_OP_READ) = Fail EIO s1 \/
   emu emu_waitdone (started s r EMU_OP_READ) = Done tt s1 /\ exists k : nat, (k <= n)%nat /\ REG_IOLEN (e_regs (ef_emu s1)) = Z.of_nat k /\
     REG_OFFSET (e_regs (ef_emu s1)) = Z.of_nat (o + k) /\ take k (e_iobuf (ef_emu s1)) = take k (drop o d) /\
     (o + k <= length d \/ k = 0)%nat /\ (k = 0%nat -> (length d <= o)%nat)).
Proof.
  intros [Hm Hs Hb Hc Hr] Hd Hn r s1. rewrite waitdone_eq by done. change (e_oper _) with EMU_OP_READ. change (e_regs (ef_emu (started s r EMU_OP_READ))) with r.
  rewrite operated_started. fold s1. change (code_of (started s r EMU_OP_READ)) with (code_of s). destruct (card_reads (card s) h d o n _ Hd Hn Hb) as (code & r' & buf & hw & E & Hf & Hl & H).
  assert (E1 : s1 = set_emu (mkemu hw r' EMU_OP_READ 0 (e_lock (ef_emu s)) 0 buf code) s) by (unfold s1, operated; fold r in E; by rewrite E).
  assert (Ec : code_of s r EMU_OP_READ = code) by (unfold code_of; fold r in E; by rewrite E). rewrite Ec. clearbody s1. subst s1.
  split; [split; [done|done|cbn; congruence|done|by destruct Hr]|]. split; [done|].
  destruct H as [->|[->|[-> H]]]; [by left|by left|right]. split; [done|exact H].
Qed.

Lemma rreg_eq f s u : fs (emu (rreg f)) (s, u) = Done (f (e_regs (ef_emu s))) (s, u).
Proof. by destruct s. Qed.

Lemma finish_unlock {A} s0 s u (r : errno + A) :
  busy s0 s -> exists s', idle s' /\ rest s s' /\ ef_ctx s' = ef_ctx s /\ files s' = files s /\
    (fs unlock_emu ;; finish r) (s, u) = match r with inl e => Fail e (s', u) | inr a => Done a (s', u) end.
Proof.
  intros Hb. destruct (unlock_emu_spec _ _ Hb) as (k & E & Hi). exists (set_kern k s). split; [done|]. split; [done|]. split; [done|]. split; [done|].
  rewrite (bind_Done _ _ _ _ _ (emufs_Done _ s u _ _ E)). by destruct r.
Qed.

Lemma busy_moved s0 s c buf : busy s0 s -> length buf = length (e_iobuf (ef_emu s)) ->
  busy (set_ctx c s0) (set_ctx c (set_emu (set_iobuf buf (ef_emu s)) s)).
Proof. intros [Hm Hs Hb Hc [? ? ? ?]] Hl. split; [done|done|cbn; congruence|done|by split]. Qed.

Lemma set_iobuf_id s c : set_ctx c (set_emu (set_iobuf (e_iobuf (ef_emu s)) (ef_emu s)) s) = set_ctx c s.
Proof. by destruct s as [? ? []]. Qed.

(** What a read of [n] bytes does to the driver and the uio. *)
Definition read_done s u (o n : nat) (d : list Z) (res : outcome (emufs * uio) unit) : Prop :=
  exists s', idle s' /\ rest s s' /\ files s' = files s /\
  (ef_ctx s' = ef_ctx s /\ res = Fail EIO (s', u) \/
   exists k : nat, (k <= n)%nat /\ (o + k <= length d \/ k = 0)%nat /\ (k = 0%nat -> (length d <= o)%nat) /\
     if decide (k = 0%nat) then ef_ctx s' = ef_ctx s /\ res = Done tt (s', u)
     else match poke (ef_ctx s) u (take k (drop o d)) with
          | Some (c, u') => ef_ctx s' = c /\ res = Done tt (s', advance (Z.of_nat k) u')
          | None => exists m u', ef_ctx s' = set_umem m (ef_ctx s) /\ res = Fail EFAULT (s', u')
          end).

Lemma set_offset_id u : set_offset (uio_offset u) u = u.
Proof. by destruct u. Qed.

(** The outcome of [uiomove], with the error as a value. *)
Definition moved (r : errno + unit) (x : list Z * (uctx * uio)) : outcome (list Z * (uctx * uio)) unit :=
  match r with inl e => Fail e x | inr _ => Done tt x end.

Lemma move_cases buf c u (k : nat) :
  uio_ok c u -> rw u = UIO_READ -> Z.of_nat k <= uio_resid u -> (k <= length buf)%nat ->
  exists r c' u', uiomove 0 (Z.of_nat k) (buf, (c, u)) = moved r (buf, (c', u')) /\
    if decide (k = 0%nat) then r = inr tt /\ c' = c /\ u' = u
    else match poke c u (take k buf) with
         | Some (c1, u1) => r = inr tt /\ c' = c1 /\ u' = advance (Z.of_nat k) u1
         | None => r = inl EFAULT /\ exists m, c' = set_umem m c
         end.
Proof.
  intros Hu Hrw Hres Hk. destruct (decide (k = 0%nat)) as [->|Dk].
  { exists (inr tt), c, u. split; [|done]. by apply uiomove_none; [|left]. }
  pose proof (uiomove_read buf c u k 0 Hu Hrw ltac:(lia) Hres Hk) as M. rewrite drop_0 in M. change (Z.of_nat 0) with 0 in M.
  destruct (poke c u (take k buf)) as [[c1 u1]|].
  - by exists (inr tt), c1, (advance (Z.of_nat k) u1).
  - destruct M as [m M]. exists (inl EFAULT), (set_umem m c), u. split; [done|]. split; [done|by exists m].
Qed.

Lemma deliver_eq s u n r buf c u' :
  REG_IOLEN (e_regs (ef_emu s)) = n -> uiomove 0 n (e_iobuf (ef_emu s), (ef_ctx s, u)) = moved r (buf, (c, u')) ->
  (n ← fs (emu (rreg REG_IOLEN)); r ← attempt (zoom bufL (uiomove 0 n)); o ← fs (emu (rreg REG_OFFSET));
   modify (fun x => (x.1, set_offset (s32 o) x.2)) ;; mret r) (s, u) =
  Done r (set_ctx c (set_emu (set_iobuf buf (ef_emu s)) s), set_offset (s32 (REG_OFFSET (e_regs (ef_emu s)))) u').
Proof.
  intros <- E. rewrite (bind_Done _ _ _ _ _ (rreg_eq _ s u)). unfold attempt, zoom at 1. munfold. cbn [lget lset bufL fst snd]. rewrite E.
  by destruct r as [e|[]].
Qed.

Lemma emu_read_spec s u h d (o n : nat) :
  idle s -> uio_ok (ef_ctx s) u -> rw u = UIO_READ -> (0 < n <= Z.to_nat EMU_MAXIO)%nat -> Z.of_nat n <= uio_resid u ->
  uio_offset u = Z.of_nat o -> uio_offset u + uio_resid u < 2 ^ 31 -> 0 <= h < 2 ^ 32 -> files s !! h = Some d ->
  read_done s u o n d (emu_read h (Z.of_nat n) (s, u)).
Proof.
  intros Hi Hu Hrw Hn Hres Ho Hlim Hh Hd. assert (HM : EMU_MAXIO = 16384) by done. unfold emu_read, emu_doread.
  rewrite (bind_Done _ _ (s, u) u (s, u)) by done. rewrite (bind_Done _ _ (s, u) tt (s, u)) by (unfold kassert; by rewrite bool_decide_eq_true_2).
  destruct (lock_emu_spec s Hi) as (k0 & El & Hb). rewrite (bind_Done _ _ _ _ _ (emufs_Done _ s u _ _ El)). set (s1 := set_kern k0 s) in *.
  rewrite start_eq. rewrite Ho, !u32_small by lia. destruct (card_read_spec s s1 h d o n Hb Hd Hn) as (Hb2 & Hf2 & H).
  set (s2 := operated s1 _ _) in *. destruct H as [E|(E & k & Hk & Eio & Eoff & Ebuf & Hlt & Hz)].
  { rewrite (bind_Done _ _ _ _ _ (attempt_Fail _ _ _ _ (emufs_Fail _ _ u _ _ E))). rewrite (bind_Done _ _ (s2, u) (inl EIO) (s2, u)) by done.
    destruct (finish_unlock (A := unit) s s2 u (inl EIO) Hb2) as (s' & ? & Hr' & Hc' & Hf' & ->). exists s'. split; [done|].
    split; [etransitivity; [apply (bu_rest _ _ Hb2)|done]|]. split; [by rewrite Hf'|]. left. split; [|done]. rewrite Hc'. apply Hb2. }
  rewrite (bind_Done _ _ _ _ _ (attempt_Done _ _ _ _ (emufs_Done _ _ u _ _ E))).
  destruct (move_cases (e_iobuf (ef_emu s2)) (ef_ctx s) u k Hu Hrw ltac:(lia) ltac:(rewrite (bu_buf _ _ Hb2); lia)) as (r & c & u' & Em & Hr).
  rewrite <-(bu_ctx _ _ Hb2) in Em. rewrite (bind_Done _ _ _ _ _ (deliver_eq s2 u _ _ _ _ _ Eio Em)), Eoff.
  destruct (finish_unlock _ _ (set_offset (s32 (Z.of_nat (o + k))) u') r (busy_moved s s2 c _ Hb2 eq_refl)) as (s' & Hi' & Hr' & Hc' & Hf' & ->).
  exists s'. split; [done|]. split; [etransitivity; [apply (bu_rest _ _ Hb2)|]; by destruct Hr'|]. split; [by rewrite Hf'|]. right. exists k.
  split; [done|]. split; [done|]. split; [done|]. change (ef_ctx s' = c) in Hc'. rewrite Ebuf in Hr. clear Hf' Hr'.
  destruct (decide (k = 0%nat)) as [->|Dk].
  { destruct Hr as (-> & -> & ->). split; [done|]. rewrite Nat.add_0_r, <-Ho, s32_small by lia. by rewrite set_offset_id. }
  destruct (poke (ef_ctx s) u _) as [[c1 u1]|] eqn:Ep; [|destruct Hr as (-> & m & ->); by eexists _, _].
  destruct Hr as (-> & -> & ->). split; [done|]. do 2 f_equal. rewrite <-(set_offset_id (advance (Z.of_nat k) u1)). f_equal.
  destruct (poke_uio _ _ _ _ _ Ep) as (_ & _ & kb & -> & _). cbn [uio_offset advance set_kbuf]. f_equal. lia.
Qed.

(** ** Reading *)

(** The bytes that a read at [o] for [n] bytes delivers. *)
Definition part (d : list Z) (o n : nat) : list Z := take n (drop o d).

Lemma length_part d o n : length (part d o n) = Nat.min n (length d - o).
Proof. unfold part. by rewrite length_take, length_drop. Qed.

Lemma part_split d (o k n : nat) : (k <= n)%nat -> (o + k <= length d)%nat -> part d o n = part d o k ++ part d (o + k) (n - k).
Proof.
  intros Hk Hl. unfold part. rewrite <-drop_drop. replace n with (k + (n - k))%nat at 1 by lia. by rewrite <-take_take_drop.
Qed.

(** A read that delivers [x]: the uio is moved by as much, or the transfer fails. *)
Definition delivers s u (x : list Z) (res : outcome (emufs * uio) unit) : Prop :=
  exists s', idle s' /\ rest s s' /\ files s' = files s /\
  ((exists m u', ef_ctx s' = set_umem m (ef_ctx s) /\ res = Fail EIO (s', u')) \/
   if decide (x = []) then ef_ctx s' = ef_ctx s /\ res = Done tt (s', u)
   else match poke (ef_ctx s) u x with
        | Some (c, u') => ef_ctx s' = c /\ res = Done tt (s', advance (Z.of_nat (length x)) u')
        | None => exists m u', ef_ctx s' = set_umem m (ef_ctx s) /\ res = Fail EFAULT (s', u')
        end).

Lemma poke_umem c u x c' u' : poke c u x = Some (c', u') -> exists m, c' = set_umem m c.
Proof.
  unfold poke. destruct (uio_segflg u); [|destruct (splice _ _ _); [|done]|]; try (destruct (uread _ _ _); [|done]); cbn; intros [= <- _]; try (by eexists).
  exists (umem c). by destruct c.
Qed.

(** A first piece, and then the others. *)
Lemma delivers_app s u x y s1 c1 u1 res :
  x <> [] -> poke (ef_ctx s) u x = Some (c1, u1) -> ef_ctx s1 = c1 -> rest s s1 -> files s1 = files s ->
  delivers s1 (advance (Z.of_nat (length x)) u1) y res -> delivers s u (x ++ y) res.
Proof.
  intros Hx Ep Hc Hr Hf (s' & Hi' & Hr' & Hf' & H). exists s'. split; [done|]. split; [by etransitivity|]. split; [by rewrite Hf'|].
  destruct (poke_umem _ _ _ _ _ Ep) as [m1 Em1]. rewrite Hc in H. destruct H as [(m & u' & Hm & E)|H].
  { left. exists m, u'. split; [|done]. by rewrite Hm, Em1. }
  right. rewrite decide_False by (intros [? _]%app_nil; done). destruct (decide (y = [])) as [->|Hy].
  { rewrite app_nil_r, Ep. destruct H as [-> ->]. done. }
  pose proof (poke_app (ef_ctx s) u x y Hx Hy) as A. rewrite Ep in A. destruct (poke c1 _ y) as [[c2 u2]|].
  - destruct A as (u3 & -> & A). rewrite A. done.
  - rewrite A. destruct H as (m & u' & Hm & E). exists m, u'. split; [|done]. by rewrite Hm, Em1.
Qed.

Lemma read_loop h d fuel : forall s u (o : nat),
  idle s -> uio_ok (ef_ctx s) u -> rw u = UIO_READ -> uio_offset u = Z.of_nat o -> uio_offset u + uio_resid u < 2 ^ 31 ->
  0 <= h < 2 ^ 32 -> files s !! h = Some d -> (Z.to_nat (uio_resid u) <= fuel)%nat ->
  delivers s u (part d o (Z.to_nat (uio_resid u))) (io_loop fuel (emu_read h) (s, u)).
Proof.
  induction fuel as [|fuel IH]; intros s u o Hi Hu Hrw Ho Hlim Hh Hd Hf; pose proof Hu as (_ & Hlen & Hres & _); unfold io_loop; fold (io_loop (K := K) (HW := HW));
    rewrite (bind_Done _ _ (s, u) u (s, u)) by done.
  { rewrite decide_False by lia. exists s. split; [done|]. split; [done|]. split; [done|]. right.
    by replace (Z.to_nat (uio_resid u)) with 0%nat by lia. }
  destruct (decide (uio_resid u > 0)) as [D|D].
  2:{ exists s. split; [done|]. split; [done|]. split; [done|]. right. by replace (Z.to_nat (uio_resid u)) with 0%nat by lia. }
  assert (HM : EMU_MAXIO = 16384) by done. set (n := Z.to_nat (Z.min (uio_resid u) EMU_MAXIO)). replace (Z.min (uio_resid u) EMU_MAXIO) with (Z.of_nat n) by lia.
  destruct (emu_read_spec s u h d o n Hi Hu Hrw ltac:(lia) ltac:(lia) Ho Hlim Hh Hd) as (s1 & Hi1 & Hr1 & Hf1 & H).
  destruct H as [(Hc & E)|(k & Hk & Hkd & Hk0 & H)].
  { rewrite (bind_Fail _ _ _ _ _ E). exists s1. split; [done|]. split; [done|]. split; [done|]. left. exists (umem (ef_ctx s)), u. split; [|done].
    rewrite Hc. by destruct (ef_ctx s). }
  destruct (decide (k = 0%nat)) as [->|Dk].
  { destruct H as [Hc E]. rewrite (bind_Done _ _ _ _ _ E), (bind_Done _ _ (s1, u) u (s1, u)) by done. rewrite decide_True by done.
    exists s1. split; [done|]. split; [done|]. split; [done|]. right. rewrite decide_True; [done|]. apply nil_length_inv. rewrite length_part.
    specialize (Hk0 eq_refl). lia. }
  rewrite (part_split d o k) by lia. change (take k (drop o d)) with (part d o k) in H.
  assert (Hlx : length (part d o k) = k) by (rewrite length_part; lia). assert (Hx : part d o k <> []) by (intros E; rewrite E in Hlx; cbn in Hlx; lia).
  destruct (poke (ef_ctx s) u (part d o k)) as [[c1 u1]|] eqn:Ep.
  - destruct H as [Hc E]. rewrite (bind_Done _ _ _ _ _ E). set (u2 := advance (Z.of_nat k) u1) in *. rewrite (bind_Done _ _ (s1, u2) u2 (s1, u2)) by done.
    destruct (poke_uio _ _ _ _ _ Ep) as (_ & _ & kb & Eu1 & _).
    assert (Hr2 : uio_resid u2 = uio_resid u - Z.of_nat k) by (unfold u2; rewrite advance_resid; subst u1; cbn [uio_resid set_kbuf]; lia).
    rewrite decide_False by lia. apply (delivers_app s u _ _ s1 c1 u1); [done|done|done|done|done|]. rewrite Hlx. fold u2.
    replace (Z.to_nat (uio_resid u) - k)%nat with (Z.to_nat (uio_resid u2)) by lia. apply IH; try done.
    + rewrite Hc. unfold u2. rewrite <-Hlx. by eapply poke_advance_ok; [done| |done]; lia.
    + unfold u2. by rewrite Eu1.
    + unfold u2. rewrite advance_offset; subst u1; cbn [uio_offset set_kbuf]; lia.
    + rewrite Hr2. unfold u2. rewrite advance_offset; subst u1; cbn [uio_offset set_kbuf]; lia.
    + by rewrite Hf1.
    + lia.
  - destruct H as (m & u' & Hm & E). rewrite (bind_Fail _ _ _ _ _ E). exists s1. split; [done|]. split; [done|]. split; [done|]. right.
    rewrite decide_False by (intros [? _]%app_nil; done). replace (poke _ _ (_ ++ _)) with (@None (uctx * uio)); [by exists m, u'|].
    destruct (decide (part d (o + k) (Z.to_nat (uio_resid u) - k) = [])) as [->|Dy]; [by rewrite app_nil_r|].
    pose proof (poke_app (ef_ctx s) u _ _ Hx Dy) as A. by rewrite Ep in A.
Qed.

(** ** Writing *)

Lemma length_overlay d o x : length (overlay d o x) = Nat.max (length d) (o + length x).
Proof. unfold overlay. rewrite !length_app, length_take, length_app, length_replicate, length_drop. lia. Qed.

Lemma overlay_app d o x y : overlay (overlay d o x) (o + length x) y = overlay d o (x ++ y).
Proof.
  unfold overlay at 1. rewrite length_overlay. replace (o + length x - Nat.max (length d) (o + length x))%nat with 0%nat by lia. cbn [replicate]. rewrite app_nil_r.
  unfold overlay. set (t := take o (d ++ replicate (o - length d) 0)).
  assert (Ht : length t = o) by (unfold t; rewrite length_take, length_app, length_replicate; lia).
  rewrite (app_assoc t x), take_app_length' by (rewrite length_app; lia). rewrite drop_app_ge by (rewrite length_app; lia).
  rewrite length_app, Ht, drop_drop, <-!app_assoc, length_app. do 3 f_equal. f_equal. lia.
Qed.

Lemma card_write_spec s0 s h d (o n : nat) :
  busy s0 s -> files s !! h = Some d -> (0 < n <= Z.to_nat EMU_MAXIO)%nat ->
  let r := mkregs h (Z.of_nat o) (Z.of_nat n) in let s1 := operated s r EMU_OP_WRITE in
  busy s0 s1 /\ exists d', files s1 = <[h := d']> (files s) /\
  ((exists e, (e = EIO \/ e = ENOSPC) /\ emu emu_waitdone (started s r EMU_OP_WRITE) = Fail e s1) \/
   emu emu_waitdone (started s r EMU_OP_WRITE) = Done tt s1 /\ d' = overlay d o (take n (e_iobuf (ef_emu s)))).
Proof.
  intros [Hm Hs Hb Hc Hr] Hd Hn r s1. rewrite waitdone_eq by done. change (e_oper _) with EMU_OP_WRITE. change (e_regs (ef_emu (started s r EMU_OP_WRITE))) with r.
  rewrite operated_started. fold s1. change (code_of (started s r EMU_OP_WRITE)) with (code_of s). destruct (card_writes (card s) h d o n _ Hd Hn Hb) as (code & r' & buf & hw & d' & E & Hf & Hl & H).
  assert (E1 : s1 = set_emu (mkemu hw r' EMU_OP_WRITE 0 (e_lock (ef_emu s)) 0 buf code) s) by (unfold s1, operated; fold r in E; by rewrite E).
  assert (Ec : code_of s r EMU_OP_WRITE = code) by (unfold code_of; fold r in E; by rewrite E). rewrite Ec. clearbody s1. subst s1.
  split; [split; [done|done|cbn; congruence|done|by destruct Hr]|]. exists d'. split; [done|].
  destruct H as [->|[->|[->|[-> H]]]]; [left; exists EIO|left; exists EIO|left; exists ENOSPC|right]; (split; [tauto|done]) || done.
Qed.

(** [x] is written at [o] of the file [h] with contents [d], or the transfer fails, and no other file changes. *)
Definition stores s u h d (o : nat) (x : option (list Z)) (res : outcome (emufs * uio) unit) : Prop :=
  exists s' d', idle s' /\ rest s s' /\ ef_ctx s' = ef_ctx s /\ files s' = <[h := d']> (files s) /\
  ((exists y, x = Some y /\ d' = overlay d o y /\ res = Done tt (s', advance (Z.of_nat (length y)) u)) \/
   (exists e u', (e = EIO \/ e = ENOSPC \/ e = EFAULT /\ x = None) /\ res = Fail e (s', u'))).

Lemma start_write_eq {A} (k : M (emufs * uio) A) s u h len :
  (fs (emu (wreg_handle h)) ;; fs (emu (wreg_iolen len)) ;; fs (emu (wreg_offset (uio_offset u))) ;; k) (s, u) =
  k (started s (mkregs (u32 h) (u32 (uio_offset u)) (u32 len)) (e_oper (ef_emu s)), u).
Proof. by destruct s. Qed.

Lemma busy_filled s0 s r op buf : busy s0 s -> length buf = length (e_iobuf (ef_emu s)) ->
  busy s0 (set_ctx (ef_ctx s0) (set_emu (set_iobuf buf (ef_emu (started s r op))) (started s r op))).
Proof. intros [Hm Hs Hb Hc [? ? ? ?]] Hl. split; [done|done|cbn; congruence|done|by split]. Qed.

Lemma iobuf_eq s u n o' :
  uiomove 0 n (e_iobuf (ef_emu s), (ef_ctx s, u)) = o' ->
  zoom bufL (uiomove 0 n) (s, u) = match o' with
    | Done a (b, (c, u')) => Done a (set_ctx c (set_emu (set_iobuf b (ef_emu s)) s), u')
    | Fail e (b, (c, u')) => Fail e (set_ctx c (set_emu (set_iobuf b (ef_emu s)) s), u')
    | Panic => Panic | Undef => Undef | NoFuel => NoFuel
    end.
Proof. intros E. unfold zoom. cbn [lget lset bufL fst snd]. rewrite E. by destruct o' as [? (? & ? & ?)|? (? & ? & ?)| | |]. Qed.

Lemma emu_write_spec s u h d (o n : nat) :
  idle s -> uio_ok (ef_ctx s) u -> rw u = UIO_WRITE -> (0 < n <= Z.to_nat EMU_MAXIO)%nat -> Z.of_nat n <= uio_resid u ->
  uio_offset u = Z.of_nat o -> uio_offset u + uio_resid u < 2 ^ 31 -> 0 <= h < 2 ^ 32 -> files s !! h = Some d ->
  stores s u h d o (peek (ef_ctx s) u (Z.of_nat n)) (emu_write h (Z.of_nat n) (s, u)).
Proof.
  intros Hi Hu Hrw Hn Hres Ho Hlim Hh Hd. assert (HM : EMU_MAXIO = 16384) by done. unfold emu_write.
  rewrite (bind_Done _ _ (s, u) u (s, u)) by done. rewrite (bind_Done _ _ (s, u) tt (s, u)) by (unfold kassert; by rewrite bool_decide_eq_true_2).
  destruct (lock_emu_spec s Hi) as (k0 & El & Hb). rewrite (bind_Done _ _ _ _ _ (emufs_Done _ s u _ _ El)). set (s1 := set_kern k0 s) in *.
  rewrite start_write_eq. rewrite Ho, !u32_small by lia. set (r := mkregs _ _ _). set (s2 := started s1 r _).
  pose proof (uiomove_write (e_iobuf (ef_emu s1)) (ef_ctx s) u n 0 Hu Hrw ltac:(lia) Hres ltac:(rewrite (bu_buf _ _ Hb); lia)) as M. change (Z.of_nat 0) with 0 in M.
  pose proof (fun o' => iobuf_eq s2 u (Z.of_nat n) o') as Hz. change (e_iobuf (ef_emu s2)) with (e_iobuf (ef_emu s1)) in Hz. change (ef_ctx s2) with (ef_ctx s) in Hz.
  destruct (peek (ef_ctx s) u (Z.of_nat n)) as [x|] eqn:Ex.
  2:{ destruct M as (b & M & Hl). rewrite (bind_Done _ _ _ _ _ (attempt_Fail _ _ _ _ (Hz _ M))). set (s3 := set_ctx _ _).
      assert (Hb3 : busy s s3) by by apply busy_filled. rewrite (bind_Done _ _ (s3, u) (inl EFAULT) (s3, u)) by done.
      destruct (finish_unlock (A := unit) s s3 u (inl EFAULT) Hb3) as (s' & ? & Hr' & Hc' & Hf' & ->). exists s', d. split; [done|].
      split; [etransitivity; [apply (bu_rest _ _ Hb3)|done]|]. split; [done|]. split; [by rewrite Hf', insert_id|]. right. exists EFAULT, u. tauto. }
  rewrite (bind_Done _ _ _ _ _ (attempt_Done _ _ _ _ (Hz _ M))). set (s3 := set_ctx _ _). clear Hz M.
  pose proof (peek_length _ _ _ _ Ex) as Hlx. assert (Hb3 : busy s s3) by (apply busy_filled; [done|by rewrite length_inserts]).
  destruct (card_write_spec s s3 h d o n Hb3 Hd Hn) as (Hb4 & d' & Hf4 & H). fold r in Hb4, Hf4, H. set (s4 := operated s3 r _) in *. set (u' := advance (Z.of_nat n) u).
  rewrite (bind_assoc_eq (fs (emu (wreg_oper EMU_OP_WRITE)))). rewrite (bind_Done _ _ (s3, u') tt (started s3 r EMU_OP_WRITE, u')) by done.
  destruct H as [(e & He & E)|(E & Ed)].
  - rewrite (bind_Done _ _ _ _ _ (attempt_Fail _ _ _ _ (emufs_Fail _ _ u' _ _ E))).
    destruct (finish_unlock (A := unit) s s4 u' (inl e) Hb4) as (s' & ? & Hr' & Hc' & Hf' & ->). exists s', d'. split; [done|].
    split; [etransitivity; [apply (bu_rest _ _ Hb4)|done]|]. split; [rewrite Hc'; apply Hb4|]. split; [by rewrite Hf', Hf4|]. right. exists e, u'. tauto.
  - rewrite (bind_Done _ _ _ _ _ (attempt_Done _ _ _ _ (emufs_Done _ _ u' _ _ E))).
    destruct (finish_unlock s s4 u' (inr tt) Hb4) as (s' & ? & Hr' & Hc' & Hf' & ->). exists s', d'. split; [done|].
    split; [etransitivity; [apply (bu_rest _ _ Hb4)|done]|]. split; [rewrite Hc'; apply Hb4|]. split; [by rewrite Hf', Hf4|]. left. exists x.
    split; [done|]. rewrite Hlx. split; [|done]. rewrite Ed. f_equal. change (e_iobuf (ef_emu s3)) with (list_inserts 0 x (e_iobuf (ef_emu s1))).
    rewrite <-(take_drop n (e_iobuf (ef_emu s1))). assert (Hb1 : length (e_iobuf (ef_emu s1)) = Z.to_nat EMU_MAXIO) by apply Hb.
    rewrite list_inserts_0_r by (rewrite length_take; lia). apply take_app_length'. lia.
Qed.

Lemma stores_app s u h d o x s1 d1 n1 n2 res :
  0 < n1 -> 0 < n2 -> peek (ef_ctx s) u n1 = Some x -> d1 = overlay d o x -> rest s s1 -> ef_ctx s1 = ef_ctx s -> files s1 = <[h := d1]> (files s) ->
  stores s1 (advance n1 u) h d1 (o + length x) (peek (ef_ctx s1) (advance n1 u) n2) res -> stores s u h d o (peek (ef_ctx s) u (n1 + n2)) res.
Proof.
  intros H1 H2 Ex Ed Hr Hc Hf (s' & d' & Hi' & Hr' & Hc' & Hf' & H). exists s', d'. split; [done|]. split; [by etransitivity|]. split; [congruence|].
  split; [by rewrite Hf', Hf, insert_insert_eq|]. rewrite peek_app by done. rewrite Ex. rewrite Hc in H. pose proof (peek_length _ _ _ _ Ex) as Hl.
  destruct H as [(y & Ey & Edy & E)|(e & u' & He & E)]; [left|right].
  - exists (x ++ y). rewrite Ey. split; [done|]. split; [by rewrite Edy, Ed, overlay_app|]. rewrite E, advance_advance, length_app. do 3 f_equal. lia.
  - exists e, u'. split; [|done]. destruct He as [He|[He|[He Ey]]]; [tauto|tauto|]. right. right. split; [done|]. by rewrite Ey.
Qed.

Lemma write_loop h fuel : forall s u d (o : nat),
  idle s -> uio_ok (ef_ctx s) u -> rw u = UIO_WRITE -> uio_offset u = Z.of_nat o -> uio_offset u + uio_resid u < 2 ^ 31 ->
  0 <= h < 2 ^ 32 -> files s !! h = Some d -> 0 < uio_resid u -> (Z.to_nat (uio_resid u) <= fuel)%nat ->
  stores s u h d o (peek (ef_ctx s) u (uio_resid u)) (io_loop fuel (emu_write h) (s, u)).
Proof.
  induction fuel as [|fuel IH]; intros s u d o Hi Hu Hrw Ho Hlim Hh Hd Hpos Hf; pose proof Hu as (_ & Hlen & Hres & _); [lia|].
  unfold io_loop; fold (io_loop (K := K) (HW := HW)). rewrite (bind_Done _ _ (s, u) u (s, u)) by done. rewrite decide_True by lia.
  assert (HM : EMU_MAXIO = 16384) by done. set (n := Z.to_nat (Z.min (uio_resid u) EMU_MAXIO)). replace (Z.min (uio_resid u) EMU_MAXIO) with (Z.of_nat n) by lia.
  destruct (emu_write_spec s u h d o n Hi Hu Hrw ltac:(lia) ltac:(lia) Ho Hlim Hh Hd) as (s1 & d1 & Hi1 & Hr1 & Hc1 & Hf1 & H).
  destruct H as [(x & Ex & Ed & E)|(e & u' & He & E)].
  - pose proof (peek_length _ _ _ _ Ex) as Hlx. rewrite Hlx in E. rewrite (bind_Done _ _ _ _ _ E). set (u1 := advance (Z.of_nat n) u) in *.
    rewrite (bind_Done _ _ (s1, u1) u1 (s1, u1)) by done. assert (Hr2 : uio_resid u1 = uio_resid u - Z.of_nat n) by (apply advance_resid; lia).
    rewrite decide_False by lia. destruct (decide (uio_resid u1 = 0)) as [D|D].
    + assert (Hn : uio_resid u = Z.of_nat n) by lia. exists s1, d1. split; [done|]. split; [done|]. split; [done|]. split; [done|]. left. exists x. rewrite Hn, Hlx.
      split; [done|]. split; [done|]. destruct fuel; unfold io_loop; fold (io_loop (K := K) (HW := HW)); rewrite (bind_Done _ _ (s1, u1) u1 (s1, u1)) by done; by rewrite decide_False by lia.
    + assert (Ho1 : uio_offset u1 = uio_offset u + Z.of_nat n) by (apply advance_offset; lia).
      replace (uio_resid u) with (Z.of_nat n + uio_resid u1) by lia. apply (stores_app s u h d o x s1 d1); try (done || lia). apply IH; try (done || lia).
      * rewrite Hc1. by apply (peek_advance_ok _ _ _ x); [|lia|].
      * by rewrite Hf1, lookup_insert_eq.
  - rewrite (bind_Fail _ _ _ _ _ E). exists s1, d1. split; [done|]. split; [done|]. split; [done|]. split; [done|]. right. exists e, u'. split; [|done].
    destruct He as [He|[He|[He Ex]]]; [tauto|tauto|]. right. right. split; [done|]. destruct (decide (uio_resid u = Z.of_nat n)) as [->|D]; [done|].
    replace (uio_resid u) with (Z.of_nat n + (uio_resid u - Z.of_nat n)) by lia. rewrite peek_app by lia. by rewrite Ex.
Qed.

(** ** The properties *)

(** A file with its handle, and a transfer within the positions of an [off_t]. *)
Record transfer s u (p : Z) (ev : emufs_vnode) (d : list Z) : Prop := {
  tr_idle : idle s;
  tr_obj : ef_objs s !! p = Some ev;
  tr_handle : 0 <= ev_handle ev < 2 ^ 32;
  tr_file : files s !! ev_handle ev = Some d;
  tr_uio : uio_ok (ef_ctx s) u;
  tr_pos : 0 <= uio_offset u;
  tr_end : uio_offset u + uio_resid u < 2 ^ 31;
}.

Lemma get_ev_eq s u p ev : ef_objs s !! p = Some ev -> fs (get_ev p) (s, u) = Done ev (s, u).
Proof. intros E. apply emufs_Done. unfold get_ev. munfold. unfold id. by rewrite E. Qed.

(** C23: A read of a file of the host delivers its bytes from the position on, as many as there are and were asked for, however the card cuts
    the transfer into pieces.  It fails when the card or the memory of the user does; files, vnodes and the driver stay as they were. *)
Theorem emufs_read_correct s u p ev d :
  transfer s u p ev d -> rw u = UIO_READ ->
  delivers s u (part d (Z.to_nat (uio_offset u)) (Z.to_nat (uio_resid u))) (emufs_read p (s, u)).
Proof.
  intros [Hi Ho Hh Hd Hu Hp He] Hrw. unfold emufs_read. rewrite (bind_Done _ _ _ _ _ (get_ev_eq s u p ev Ho)).
  rewrite (bind_Done _ _ (s, u) u (s, u)) by done. rewrite (bind_Done _ _ (s, u) tt (s, u)) by (unfold kassert; by rewrite bool_decide_eq_true_2).
  apply read_loop; try done; lia.
Qed.

(** C24: A write that succeeds puts the bytes of the user at the position, extending the file when needed, and leaves
    every other file alone; one that fails changes no other file either. *)
Theorem emufs_write_correct s u p ev d :
  transfer s u p ev d -> rw u = UIO_WRITE -> 0 < uio_resid u ->
  stores s u (ev_handle ev) d (Z.to_nat (uio_offset u)) (peek (ef_ctx s) u (uio_resid u)) (emufs_write p (s, u)).
Proof.
  intros [Hi Ho Hh Hd Hu Hp He] Hrw Hr. unfold emufs_write. rewrite (bind_Done _ _ _ _ _ (get_ev_eq s u p ev Ho)).
  rewrite (bind_Done _ _ (s, u) u (s, u)) by done. rewrite (bind_Done _ _ (s, u) tt (s, u)) by (unfold kassert; by rewrite bool_decide_eq_true_2).
  apply write_loop; try done; lia.
Qed.

End spec.

End EmuSpec.
