(* ===== verification/EmuHandles.v ===== *)
(** * Handles of the emulator file system

    A file that is opened on the card gets a vnode, or is closed again: whatever the locks and the heap
    do, no handle is left open that no vnode has. *)

From S2P Require Import Prelude Kmalloc Array Uio Vnode Devfs Emu EmuSpec.
Import Array Uio Vnode Emu EmuSpec.

Module EmuHandles.

(** The handles that are open on the card: opening returns one of them, which may be one that was open before, and
    closing takes it away. *)
Class EmuHandles (HW : Type) `{!EmuCard HW} := {
  opened : HW -> gset Z;
  card_opens : forall op r buf hw, op = EMU_OP_OPEN \/ op = EMU_OP_CREATE \/ op = EMU_OP_EXCLCREATE ->
    let '(code, r', _, hw') := emu_run op r buf hw in
    if decide (code = EMU_RES_SUCCESS) then 0 <= REG_HANDLE r' < 2 ^ 32 /\ opened hw' = {[REG_HANDLE r']} ∪ opened hw else opened hw' = opened hw;
  card_closes : forall r buf hw,
    let '(code, _, _, hw') := emu_run EMU_OP_CLOSE r buf hw in
    opened hw' = if decide (code = EMU_RES_SUCCESS) then opened hw ∖ {[REG_HANDLE r]} else opened hw;
}.

(** Asking who holds a lock reports no error. *)
Class VoidQuery (K : Type) {LQ : Devfs.LockQuery K} : Prop := { query_void : forall l, nofail (Devfs.lock_do_i_hold (K := K) l) }.

Section handles.
Context {K HW : Type} `{!Kmalloc K, !Locks K, !VoidLocks K, LQ : Devfs.LockQuery K, !VoidQuery K, !EmuCard HW, !EmuHandles HW}.
Abbreviation emufs := (emufs_fs K HW).
Implicit Types s : emufs.

Definition handles s : gset Z := opened (card s).

(** The handle of each vnode structure. *)
Definition hmap s : gmap Z Z := ev_handle <$> ef_objs s.

(** Every open handle is that of a vnode in the table. *)
Definition tabled s : Prop := forall h, h ∈ handles s ->
  exists j p, 0 <= j < num (ef_vnodes s) /\ zlookup (vdata (ef_vnodes s)) j = Some (Some p) /\ hmap s !! p = Some h.

(** [Q] of the results and [E] of the errors. *)
Definition post {A} (o : outcome emufs A) (Q : A -> emufs -> Prop) (E : emufs -> Prop) : Prop :=
  match o with Done a s' => Q a s' | Fail _ s' => E s' | _ => True end.

Lemma post_bind {A B} (m : M emufs A) (k : A -> M emufs B) s Q E :
  post (m s) (fun a s' => post (k a s') Q E) E -> post ((m ≫= k) s) Q E.
Proof. unfold mbind, M_bind. by destruct (m s). Qed.
Lemma post_mono {A} (o : outcome emufs A) (Q Q' : A -> emufs -> Prop) (E E' : emufs -> Prop) :
  post o Q E -> (forall a s, Q a s -> Q' a s) -> (forall s, E s -> E' s) -> post o Q' E'.
Proof. intros H HQ HE. destruct o; cbn in *; auto. Qed.
Lemma post_attempt {A} (m : M emufs A) s Q E :
  post (m s) (fun a s' => Q (inr a) s') (fun s' => forall e, Q (inl e) s') -> post (attempt m s) Q E.
Proof. unfold attempt. destruct (m s); cbn; auto. Qed.
Lemma post_keeps {A X} (f : emufs -> X) (m : M emufs A) s : keeps_fn f m -> post (m s) (fun _ s' => f s' = f s) (fun s' => f s' = f s).
Proof. intros H. specialize (H s). by destruct (m s). Qed.

Lemma post_void {A X} (f : emufs -> X) (m : M emufs A) s E : keeps_fn f m -> nofail m -> post (m s) (fun _ s' => f s' = f s) E.
Proof. intros H N. specialize (H s). specialize (N s). destruct (m s) as [| e s'| | |]; cbn; try done. by destruct (N e s'). Qed.

(** ** What does not concern the card *)

Definition outside s : emu_softc HW * gmap Z Z * array Z := (ef_emu s, hmap s, ef_vnodes s).

Lemma hmap_vput p v s : hmap (vput p v s) = hmap s.
Proof.
  unfold hmap, vput, set_objs. cbn [ef_objs]. apply map_eq. intros q. rewrite !lookup_fmap. destruct (decide (p = q)) as [->|D].
  - rewrite lookup_alter_eq. by destruct (ef_objs s !! q).
  - by rewrite lookup_alter_ne.
Qed.

Lemma outside_kern {A} (m : M K A) : keeps_fn outside (zoom kernL m).
Proof. by apply keeps_zoom. Qed.
Lemma outside_get_vn p : keeps_fn outside (get_vn vget p).
Proof. unfold get_vn. keeps_fn. Qed.
Lemma outside_put_vn p v : keeps_fn outside (put_vn vput p v).
Proof. intros s. unfold put_vn, modify, outside. by rewrite hmap_vput. Qed.
#[local] Hint Resolve outside_kern outside_get_vn outside_put_vn : keeps_fn.
Lemma outside_lock : keeps_fn outside lock_emu.
Proof. unfold lock_emu. keeps_fn. Qed.
Lemma outside_unlock : keeps_fn outside unlock_emu.
Proof. unfold unlock_emu. keeps_fn. Qed.
Lemma outside_incref p : keeps_fn outside (VOP_INCREF p).
Proof. unfold VOP_INCREF, vnode_incref. keeps_fn. Qed.
Lemma outside_init p o f d : keeps_fn outside (vnode_init kernL vput p o f d).
Proof. unfold vnode_init. keeps_fn. Qed.
#[local] Hint Resolve outside_lock outside_unlock outside_incref outside_init : keeps_fn.

(** ** Operations of the card *)

Lemma translate_cases code (t : emu_softc HW) :
  match translate_err code t with Done _ t' => t' = t /\ code = EMU_RES_SUCCESS | Fail _ t' => t' = t /\ code <> EMU_RES_SUCCESS | _ => True end.
Proof. unfold translate_err. repeat case_decide; done. Qed.

Lemma waitdone_cases s : e_sem (ef_emu s) = 0 ->
  let r := e_regs (ef_emu s) in let op := e_oper (ef_emu s) in
  post (emu emu_waitdone s) (fun _ s' => s' = operated s r op /\ code_of s r op = EMU_RES_SUCCESS)
    (fun s' => s' = operated s r op /\ code_of s r op <> EMU_RES_SUCCESS).
Proof.
  intros Hs r op. rewrite waitdone_eq by done. fold r op. set (s1 := operated s r op). unfold emu, zoom. cbn [lget lset emuL].
  pose proof (translate_cases (code_of s r op) (ef_emu s1)) as H. destruct (translate_err _ _) as [[] t|e t| | |]; cbn; try done; destruct H as [-> ?];
    (split; [by destruct s1|done]).
Qed.

Lemma operated_rest s r op : hmap (operated s r op) = hmap s /\ ef_vnodes (operated s r op) = ef_vnodes s /\ e_sem (ef_emu (operated s r op)) = 0 /\
  e_result (ef_emu (operated s r op)) = code_of s r op.
Proof. unfold operated, code_of. by destruct (emu_run op r _ _) as [[[? ?] ?] ?]. Qed.

Lemma operated_closes s r :
  handles (operated s r EMU_OP_CLOSE) = if decide (code_of s r EMU_OP_CLOSE = EMU_RES_SUCCESS) then handles s ∖ {[REG_HANDLE r]} else handles s.
Proof. unfold operated, code_of, handles. pose proof (card_closes r (e_iobuf (ef_emu s)) (card s)) as H. by destruct (emu_run _ r _ _) as [[[? ?] ?] ?]. Qed.

Lemma operated_opens s r op : op = EMU_OP_OPEN \/ op = EMU_OP_CREATE \/ op = EMU_OP_EXCLCREATE ->
  let h := REG_HANDLE (e_regs (ef_emu (operated s r op))) in
  if decide (code_of s r op = EMU_RES_SUCCESS) then 0 <= h < 2 ^ 32 /\ handles (operated s r op) = {[h]} ∪ handles s else handles (operated s r op) = handles s.
Proof. intros Hop. unfold operated, code_of, handles. pose proof (card_opens op r (e_iobuf (ef_emu s)) (card s) Hop) as H. by destruct (emu_run _ r _ _) as [[[? ?] ?] ?]. Qed.

(** The part of the state that the calls of the card leave alone. *)
Definition same s s' : Prop := hmap s' = hmap s /\ ef_vnodes s' = ef_vnodes s /\ e_sem (ef_emu s') = 0.

Lemma outside_same s s' : e_sem (ef_emu s) = 0 -> outside s' = outside s -> same s s' /\ handles s' = handles s.
Proof. unfold outside, same, handles, card. intros Hs [= -> -> ->]. done. Qed.

Lemma outside_handles s s' : outside s' = outside s -> handles s' = handles s /\ ef_emu s' = ef_emu s.
Proof. unfold outside, handles, card. by intros [= -> _ _]. Qed.

Lemma close_loop_spec h n : 0 <= h < 2 ^ 32 -> forall s, e_sem (ef_emu s) = 0 ->
  post (close_loop n h s) (fun _ s' => same s s' /\ handles s' = handles s ∖ {[h]})
    (fun s' => same s s' /\ handles s' = handles s /\ e_result (ef_emu s') <> EMU_RES_SUCCESS).
Proof.
  intros Hh. induction n as [|n IH]; intros s Hs; cbn [close_loop];
    rewrite (bind_Done _ _ s tt (started s (mkregs h (REG_OFFSET (e_regs (ef_emu s))) (REG_IOLEN (e_regs (ef_emu s)))) (e_oper (ef_emu s))))
      by (unfold emu, zoom, wreg_handle, modify, started, set_regs; cbn [lget lset emuL]; by rewrite u32_small);
    set (r := mkregs _ _ _); set (s0 := started s r _);
    rewrite (bind_Done _ _ s0 tt (started s r EMU_OP_CLOSE)) by done; apply post_bind, post_attempt;
    pose proof (waitdone_cases (started s r EMU_OP_CLOSE) Hs) as W; cbn zeta in W; change (e_oper _) with EMU_OP_CLOSE in W;
    change (e_regs (ef_emu (started s r EMU_OP_CLOSE))) with r in W; rewrite operated_started in W; change (code_of (started s r EMU_OP_CLOSE)) with (code_of s) in W;
    destruct (operated_rest s r EMU_OP_CLOSE) as (R1 & R2 & R3 & R4); pose proof (operated_closes s r) as C.
  all: apply (post_mono _ _ _ _ _ W); clear W; [intros a s' [-> Hc]; by rewrite decide_True in C by done|].
  all: intros s' [-> Hc] e; rewrite decide_False in C by done.
  all: assert (F : same s (operated s r EMU_OP_CLOSE) /\ handles (operated s r EMU_OP_CLOSE) = handles s /\
    e_result (ef_emu (operated s r EMU_OP_CLOSE)) <> EMU_RES_SUCCESS) by (split; [done|]; split; [done|by rewrite R4]).
  - by destruct e.
  - destruct e; try exact F. cbn zeta. apply (post_mono _ _ _ _ _ (IH (operated s r EMU_OP_CLOSE) R3)).
    + intros a s' [(? & ? & ?) ->]. split; [by split; [congruence|split; [congruence|]]|by rewrite C].
    + intros s' [(? & ? & ?) [-> ?]]. split; [by split; [congruence|split; [congruence|]]|done].
Qed.

Lemma lock_void : nofail (lock_emu (K := K) (HW := HW)).
Proof. unfold lock_emu. nofail. Qed.
Lemma unlock_void : nofail (unlock_emu (K := K) (HW := HW)).
Proof. unfold unlock_emu. nofail. Qed.
Lemma lock_post s E : post (lock_emu s) (fun _ s' => outside s' = outside s) E.
Proof. apply post_void; [apply outside_lock|apply lock_void]. Qed.
Lemma unlock_post s E : post (unlock_emu s) (fun _ s' => outside s' = outside s) E.
Proof. apply post_void; [apply outside_unlock|apply unlock_void]. Qed.

(** A step that leaves the card alone, in front of the others. *)
Lemma step_post {A B X} (f : emufs -> X) (m : M emufs A) (k : A -> M emufs B) s Q E :
  (forall E', post (m s) (fun _ s' => f s' = f s) E') -> (forall a s', f s' = f s -> post (k a s') Q E) -> post ((m ≫= k) s) Q E.
Proof. intros Hm Hk. apply post_bind. eapply post_mono; [apply (Hm E)|intros a s' H; by apply Hk|done]. Qed.

Lemma same_trans s1 s2 s3 : same s1 s2 -> same s2 s3 -> same s1 s3.
Proof. intros (? & ? & ?) (? & ? & ?). split; [congruence|]. split; [congruence|done]. Qed.

Lemma emu_close_spec h s : 0 <= h < 2 ^ 32 -> e_sem (ef_emu s) = 0 ->
  post (emu_close h s) (fun _ s' => handles s' = handles s ∖ {[h]}) (fun s' => handles s' = handles s /\ e_result (ef_emu s') <> EMU_RES_SUCCESS).
Proof.
  intros Hh Hs. unfold emu_close. rewrite (bind_Done _ _ s s s) by done.
  apply (step_post outside); [intros E'; apply post_void; [apply outside_kern|apply nofail_zoom, query_void]|]. intros mine s1 H1.
  apply (step_post outside); [intros E'; apply post_void; [case_decide; keeps_fn|case_decide; [apply lock_void|nofail]]|]. intros _ s2 H2.
  destruct (outside_same s s2 Hs ltac:(congruence)) as ((_ & _ & Hs2) & Hh2). apply post_bind, post_attempt.
  assert (Hu : forall (r : errno + unit) s3 Q E, (forall s', outside s' = outside s3 -> post (finish r s') Q E) ->
    post (((if decide (mine = 0) then unlock_emu else mret tt) ;; finish r) s3) Q E).
  { intros r s3 Q E H. apply (step_post outside); [intros E'; apply post_void; [case_decide; keeps_fn|case_decide; [apply unlock_void|nofail]]|]. intros _ s4 H4. by apply H. }
  apply (post_mono _ _ _ _ _ (close_loop_spec h 10 Hh s2 Hs2)).
  - intros [] s3 [_ H3]. apply Hu. intros s4 [E4 _]%outside_handles. cbn. by rewrite E4, H3, Hh2.
  - intros s3 (_ & H3 & Hr) e. apply Hu. intros s4 [E4 E5]%outside_handles. cbn. rewrite E4, E5. split; [congruence|done].
Qed.

Lemma emu_open_spec h name c x s : e_sem (ef_emu s) = 0 ->
  post (emu_open h name c x s) (fun r s' => 0 <= r.1 < 2 ^ 32 /\ same s s' /\ handles s' = {[r.1]} ∪ handles s) (fun s' => handles s' = handles s).
Proof.
  intros Hs. unfold emu_open. case_decide; [done|]. set (op := if c && x then _ else _).
  assert (Hop : op = EMU_OP_OPEN \/ op = EMU_OP_CREATE \/ op = EMU_OP_EXCLCREATE) by (unfold op; destruct c, x; cbn; tauto). clearbody op.
  apply (step_post outside); [apply lock_post|]. intros _ s1 H1. destruct (outside_same s s1 Hs H1) as (S1 & Hh1). rewrite (bind_Done _ _ s1 s1 s1) by done.
  apply post_bind. unfold access at 1. destruct (splice _ 0 _) as [buf|]; [cbn|done].
  set (s2 := set_emu (set_oper op (set_regs (mkregs (u32 h) (REG_OFFSET (e_regs (ef_emu s1))) (u32 (Z.of_nat (length name)))) (set_iobuf buf (ef_emu s1)))) s1).
  match goal with |- post (?m s1) ?Q ?E => change (post ((r ← attempt (emu emu_waitdone); match r with
    | inl e => unlock_emu ;; fail e
    | inr _ => newhandle ← emu (rreg REG_HANDLE); n ← emu (rreg REG_IOLEN); unlock_emu ;; mret (newhandle, bool_decide (n > 0)) end) s2) Q E) end.
  assert (S2 : same s s2) by exact S1. assert (Hh2 : handles s2 = handles s) by exact Hh1. apply post_bind, post_attempt. set (r := e_regs (ef_emu s2)).
  destruct (operated_rest s2 r op) as (R1 & R2 & R3 & R4). pose proof (operated_opens s2 r op Hop) as C. cbn zeta in C.
  apply (post_mono _ _ _ _ _ (waitdone_cases s2 (proj2 (proj2 S2)))); change (e_oper (ef_emu s2)) with op; fold r; set (s3 := operated s2 r op) in *.
  - intros [] s' [-> Hc]. rewrite decide_True in C by done. destruct C as [Hr C]. rewrite (bind_Done _ _ s3 (REG_HANDLE (e_regs (ef_emu s3))) s3) by (by destruct s3).
    rewrite (bind_Done _ _ s3 (REG_IOLEN (e_regs (ef_emu s3))) s3) by (by destruct s3). apply (step_post outside); [apply unlock_post|]. intros _ s4 H4.
    destruct (outside_same s3 s4 R3 H4) as (S4 & Hh4). cbn. split; [done|]. split; [|by rewrite Hh4, C, Hh2]. eapply same_trans; [exact S2|]. by eapply same_trans.
  - intros s' [-> Hc] e. rewrite decide_False in C by done. apply (step_post outside); [apply unlock_post|]. intros _ s4 H4.
    destruct (outside_same s3 s4 R3 H4) as (_ & Hh4). cbn. by rewrite Hh4, C.
Qed.

(** ** Vnodes *)

(** Slot [j] of the table has a vnode with handle [h]. *)
Definition slot s (j h : Z) : Prop := exists p, zlookup (vdata (ef_vnodes s)) j = Some (Some p) /\ hmap s !! p = Some h.

Lemma find_handle_spec h n s : forall i,
  match find_handle n i h s with
  | Done (Some p) s' => s' = s /\ hmap s !! p = Some h
  | Done None s' => s' = s /\ forall j, i <= j < i + Z.of_nat n -> ~ slot s j h
  | Fail _ _ => False
  | _ => True
  end.
Proof.
  induction n as [|n IH]; intros i; cbn [find_handle]; [split; [done|lia]|].
  assert (G : zoom vnodesL (array_getguy i) s = Panic \/ zoom vnodesL (array_getguy i) s = Undef \/
    exists o, zoom vnodesL (array_getguy i) s = Done o s /\ zlookup (vdata (ef_vnodes s)) i = Some o).
  { unfold zoom, array_getguy, getA, kassert, access. munfold. cbn [lget lset vnodesL fst snd id]. repeat destruct (bool_decide _); try tauto.
    destruct (zlookup _ i) as [o|]; [|tauto]. right. right. exists o. by destruct s. }
  destruct G as [G|[G|(o & G & Ho)]]; [unfold mbind, M_bind; by rewrite G..|]. rewrite (bind_Done _ _ _ _ _ G).
  destruct o as [p|]; [|done]. rewrite (bind_Done (access (Some p)) _ s p s) by done. unfold get_ev. unfold mbind at 1 2, M_bind at 1 2, gets, access, id.
  destruct (ef_objs s !! p) as [ev|] eqn:Ev; [|done]. assert (Hp : hmap s !! p = Some (ev_handle ev)) by (unfold hmap; by rewrite lookup_fmap, Ev).
  destruct (decide (ev_handle ev = h)) as [D|D]; [split; [done|congruence]|]. specialize (IH (i + 1)).
  destruct (find_handle n (i + 1) h s) as [[q|] s'|e s'| | |]; try done. destruct IH as [-> IH]. split; [done|].
  intros j Hj (q & Hq & Hh). destruct (decide (j = i)) as [->|Dj]; [congruence|]. apply (IH j); [lia|]. by exists q.
Qed.

Lemma emu_kern {A} (m : M K A) : keeps_fn ef_emu (zoom (kernL (HW := HW)) m).
Proof. by apply keeps_zoom. Qed.
Lemma emu_modify_objs f : keeps_fn (ef_emu (K := K) (HW := HW)) (modify (fun s => set_objs (f s) s)).
Proof. by intros s. Qed.
#[local] Hint Resolve emu_kern emu_modify_objs : keeps_fn.
Lemma emu_free p : keeps_fn (ef_emu (K := K) (HW := HW)) (free_ev p).
Proof. unfold free_ev. keeps_fn. Qed.
Lemma emu_unlock : keeps_fn (ef_emu (K := K) (HW := HW)) unlock_emu.
Proof. unfold unlock_emu. keeps_fn. Qed.
Lemma emu_kill p : keeps_fn (ef_emu (K := K) (HW := HW)) (vnode_kill kernL vget vput p).
Proof. unfold vnode_kill, get_vn, put_vn, vput. keeps_fn. Qed.
#[local] Hint Resolve emu_free emu_unlock emu_kill : keeps_fn.

(** A routine that ends with an error, if at all. *)
Definition never {A} (m : M emufs A) : Prop := forall s a s', m s <> Done a s'.
Lemma never_fail {A} e : never (A := A) (fail e).
Proof. done. Qed.
Lemma never_bind {A B} (m : M emufs A) (k : A -> M emufs B) : (forall a, never (k a)) -> never (m ≫= k).
Proof. intros H s b s'. unfold mbind, M_bind. destruct (m s); try done. apply H. Qed.
Lemma post_never {A} (m : M emufs A) s0 s Q : keeps_fn (ef_emu (K := K) (HW := HW)) m -> never m -> ef_emu s = ef_emu s0 -> post (m s) Q (fun s' => ef_emu s' = ef_emu s0).
Proof. intros H N E. specialize (H s). specialize (N s). destruct (m s) as [a s'|e s'| | |]; cbn; try done; [by destruct (N a s')|congruence]. Qed.
#[local] Hint Resolve never_fail never_bind : keeps_fn.

(** Making a vnode. *)
Lemma make_vnode h (isdir : bool) s0 s : ef_emu s = ef_emu s0 ->
  post ((p ← zoom kernL (kmalloc sizeof_emufs_vnode);
    if decide (p = 0) then unlock_emu ;; fail ENOMEM
    else
      modify (fun s => set_objs (<[p := mkev (mkvnode 0 0 0 0 0 None) h]> (ef_objs s)) s) ;;
      s ← gets id;
      r ← attempt (vnode_init kernL vput p (if isdir then dirops else fileops) (ef_self s) p);
      match r with
      | inl e => unlock_emu ;; free_ev p ;; fail e
      | inr _ =>
          r ← attempt (zoom vnodesL (array_add p));
          match r with
          | inl e => unlock_emu ;; vnode_kill kernL vget vput p ;; free_ev p ;; fail e
          | inr _ => unlock_emu ;; mret p
          end
      end) s) (fun p s' => ef_emu s' = ef_emu s0 /\ hmap s' !! p = Some h) (fun s' => ef_emu s' = ef_emu s0).
Proof.
  intros E0. apply post_bind. eapply post_mono; [apply (post_keeps ef_emu), emu_kern| |intros s' ->; done]. intros p s1 E1.
  case_decide as D; [apply post_never; [keeps_fn|eauto with keeps_fn|congruence]|].
  set (s2 := set_objs (<[p := mkev (mkvnode 0 0 0 0 0 None) h]> (ef_objs s1)) s1). rewrite (bind_Done _ _ s1 tt s2) by done. rewrite (bind_Done _ _ s2 s2 s2) by done.
  assert (H2 : hmap s2 !! p = Some h) by (unfold hmap, s2; cbn; by rewrite fmap_insert, lookup_insert_eq).
  apply post_bind, post_attempt. eapply post_mono; [apply (post_keeps outside), outside_init| |].
  2:{ intros s3 [= E3 _ _] e. apply post_never; [keeps_fn|eauto with keeps_fn|]. rewrite E3. unfold s2. cbn. congruence. }
  intros [] s3 [= E3 H3 _]. apply post_bind, post_attempt.
  eapply post_mono; [apply (post_keeps (fun s => (ef_emu s, hmap s))); by apply keeps_zoom| |].
  2:{ intros s4 [= E4 _] e. apply post_never; [keeps_fn|eauto 6 with keeps_fn|]. rewrite E4, E3. unfold s2. cbn. congruence. }
  intros [] s4 [= E4 H4]. apply (step_post outside); [apply unlock_post|]. intros _ s5 [= E5 H5 _]. cbn.
  split; [rewrite E5, E4, E3; unfold s2; cbn; congruence|]. by rewrite H5, H4, H3.
Qed.

(** The vnode for a handle; an error only when the handle is not in the table. *)
Lemma loadvnode_spec h isdir s : e_sem (ef_emu s) = 0 ->
  post (emufs_loadvnode h isdir s) (fun p s' => ef_emu s' = ef_emu s /\ hmap s' !! p = Some h)
    (fun s' => ef_emu s' = ef_emu s /\ forall j, 0 <= j < num (ef_vnodes s) -> ~ slot s j h).
Proof.
  intros Hs. unfold emufs_loadvnode. apply (step_post outside); [apply lock_post|]. intros _ s1 [= E1 H1 V1].
  rewrite (bind_Done _ _ s1 (num (ef_vnodes s1)) s1) by (by destruct s1). pose proof (find_handle_spec h (Z.to_nat (num (ef_vnodes s1))) s1 0) as F.
  unfold mbind at 1, M_bind at 1. destruct (find_handle _ 0 h s1) as [[p|] s'|e s'| | |]; try done; destruct F as [-> F].
  - apply (step_post outside); [intros E'; apply post_void; [apply outside_incref|unfold VOP_INCREF; nofail]|]. intros _ s2 [= E2 H2 _].
    apply (step_post outside); [apply unlock_post|]. intros _ s3 [= E3 H3 _]. cbn. split; [congruence|]. by rewrite H3, H2.
  - eapply post_mono; [apply (make_vnode h isdir s s1 E1)|done|]. intros s' E. split; [done|]. intros j Hj (p & Hp & Hh).
    apply (F j); [rewrite V1; lia|]. exists p. by rewrite V1, H1.
Qed.

Lemma load_or_close_spec h isdir s :
  0 <= h < 2 ^ 32 -> e_sem (ef_emu s) = 0 ->
  post (load_or_close h isdir s) (fun p s' => handles s' = handles s /\ hmap s' !! p = Some h)
    (fun s' => (forall j, 0 <= j < num (ef_vnodes s) -> ~ slot s j h) /\
       (handles s' = handles s ∖ {[h]} \/ handles s' = handles s /\ e_result (ef_emu s') <> EMU_RES_SUCCESS)).
Proof.
  intros Hh Hs. unfold load_or_close. apply post_bind, post_attempt. eapply post_mono; [apply (loadvnode_spec h isdir s Hs)| |].
  - intros p s' [E Hp]. cbn. split; [unfold handles, card; by rewrite E|done].
  - intros s' [E Hn] e. assert (E' : handles s' = handles s) by (unfold handles, card; by rewrite E). apply post_bind, post_attempt.
    eapply post_mono; [apply (emu_close_spec h s' Hh); by rewrite E| |].
    + intros [] s2 H2. cbn. split; [done|]. left. congruence.
    + intros s2 [H2 Hr] e2. cbn. split; [done|]. right. split; [congruence|done].
Qed.

(** Opening a file on the card and loading its vnode. *)
Lemma open_load_spec hd name c x s :
  e_sem (ef_emu s) = 0 -> tabled s ->
  post (('(h, isdir) ← emu_open hd name c x; load_or_close h isdir) s)
    (fun p s' => exists h, hmap s' !! p = Some h /\ handles s' = {[h]} ∪ handles s)
    (fun s' => handles s' = handles s \/ e_result (ef_emu s') <> EMU_RES_SUCCESS /\ exists h, (h ∉ handles s) /\ handles s' = {[h]} ∪ handles s).
Proof.
  intros Hs T. apply post_bind. eapply post_mono; [apply (emu_open_spec hd name c x s Hs)| |by left]. intros [h isdir] s1 (Hh & (H1 & V1 & Hs1) & E1). cbn [fst] in *.
  eapply post_mono; [apply (load_or_close_spec h isdir s1 Hh Hs1)| |].
  - intros p s2 [E2 Hp]. exists h. split; [done|congruence].
  - intros s2 [Hn H2]. assert (Hf : h ∉ handles s).
    { intros (j & p & Hj & Hp & Hm)%T. apply (Hn j); [by rewrite V1|]. exists p. by rewrite V1, H1. }
    destruct H2 as [H2|[H2 Hr]]; [left; rewrite H2, E1; set_solver|right]. split; [done|]. exists h. split; [done|congruence].
Qed.

(** A result without a value, and its cause. *)
Definition refused {A} (s : emufs) (o : outcome emufs A) : Prop :=
  match o with Done _ _ => False | Fail e s' => e = EBUSY /\ ef_objs s' = ef_objs s | _ => True end.

Lemma refused_step {A B} s0 s (m : M emufs A) (k : A -> M emufs B) :
  keeps_fn ef_objs m -> nofail m -> ef_objs s = ef_objs s0 -> (forall a s', ef_objs s' = ef_objs s0 -> refused s0 (k a s')) -> refused s0 ((m ≫= k) s).
Proof.
  intros H N E Hk. specialize (H s). specialize (N s). unfold mbind, M_bind. destruct (m s) as [a s'|e s'| | |]; try done; [apply Hk; congruence|by destruct (N e s')].
Qed.

(** The reference that [vnode_decref] hands to [emufs_reclaim] is still counted when it returns [EBUSY]. *)
Lemma reclaim_keeps_reference p ev s : ef_objs s !! p = Some ev -> vn_refcount (ev_v ev) <> 1 -> refused s (emufs_reclaim p s).
Proof.
  intros Ho Hr. assert (Hg : forall s', ef_objs s' = ef_objs s -> get_ev p s' = Done ev s') by (intros s' E; unfold get_ev; munfold; unfold id; by rewrite E, Ho).
  assert (Hl : keeps_fn (ef_objs (K := K) (HW := HW)) lock_emu) by (unfold lock_emu; keeps_fn; by apply keeps_zoom).
  assert (Hu : keeps_fn (ef_objs (K := K) (HW := HW)) unlock_emu) by (unfold unlock_emu; keeps_fn; by apply keeps_zoom).
  unfold emufs_reclaim. rewrite (bind_Done _ _ _ _ _ (Hg s eq_refl)). apply refused_step; [done|apply lock_void|done|]. intros _ s1 E1.
  apply refused_step; [by apply keeps_zoom|nofail|done|]. intros _ s2 E2. rewrite (bind_Done _ _ _ _ _ (Hg s2 E2)), decide_True by done.
  apply refused_step; [by apply keeps_zoom|nofail|done|]. intros _ s3 E3. apply refused_step; [done|apply unlock_void|done|]. done.
Qed.

(** ** The property *)

(** The vnode that is returned has the one handle that is open in addition; after an error there is none, unless the card did not close it. *)
Definition kept s (o : outcome emufs Z) : Prop :=
  match o with
  | Done p s' => exists ev, ef_objs s' !! p = Some ev /\ handles s' = {[ev_handle ev]} ∪ handles s
  | Fail _ s' => handles s' = handles s \/ e_result (ef_emu s') <> EMU_RES_SUCCESS /\ exists h, (h ∉ handles s) /\ handles s' = {[h]} ∪ handles s
  | _ => True
  end.

(** C25: When every open handle is that of a vnode in the table, looking up or creating a file leaves just the handle of the vnode that is returned open
    in addition; on an error none, unless the card refuses to close it. *)
Theorem emufs_handles_kept s dir name excl :
  e_sem (ef_emu s) = 0 -> tabled s -> kept s (emufs_lookup dir name s) /\ kept s (emufs_creat dir name excl s).
Proof.
  intros Hs T. assert (G : forall c x, kept s ((ev ← get_ev dir; '(h, isdir) ← emu_open (ev_handle ev) name c x; load_or_close h isdir) s)); [|split; apply G].
  intros c x. unfold get_ev. match goal with |- kept s ?o => change (post o (fun p s' => exists ev, ef_objs s' !! p = Some ev /\ handles s' = {[ev_handle ev]} ∪ handles s)
    (fun s' => handles s' = handles s \/ e_result (ef_emu s') <> EMU_RES_SUCCESS /\ exists h, (h ∉ handles s) /\ handles s' = {[h]} ∪ handles s)) end.
  apply post_bind, post_bind. cbn. unfold id, access. destruct (ef_objs s !! dir) as [ev|]; [cbn|done].
  eapply post_mono; [apply (open_load_spec (ev_handle ev) name c x s Hs T)| |done]. intros p s' (h & Hp & E). unfold hmap in Hp.
  rewrite lookup_fmap in Hp. destruct (ef_objs s' !! p) as [ev'|] eqn:Ev; [|done]. injection Hp as <-. by exists ev'.
Qed.

End handles.

End EmuHandles.
