(* ===== verification/EmuKernel.v ===== *)
(** * The emulator file system on the kernel

    The locks of Synch.v are as the driver relies on them, when nobody else holds the lock and the run queue has room for every thread. *)

From S2P Require Import Prelude Kmalloc Kheap Thread ThreadInv Synch SynchInv Boot Vnode Devfs FsKernel Emu EmuSpec EmuHandles.
Import Boot Vnode FsKernel EmuSpec EmuHandles.

Module EmuKernel.

Section kernel.
Variable lbolt : Z.
Import SynchInv.SynchInv.

Definition roomy_rq (k : kernel) : Prop := room_rq (Synch.ts k).

Lemma acquire_roomy k l : idle_lock lbolt k l -> l <> 0 -> roomy_rq k ->
  exists k', Vnode.lock_acquire l k = Done tt k' /\ held_lock lbolt k' l /\ roomy_rq k'.
Proof.
  intros Hi Hl Hr. destruct (acquire_idle lbolt k l Hi Hl) as (k' & E & Hh). exists k'. split; [done|]. split; [done|].
  destruct (held_by_lock lbolt k l 0 Hi) as (y & Ey & Hy & [[Ha _]|[_ ?]]); [|done].
  revert E. cbn [Vnode.lock_acquire kernel_locks]. unfold Synch.lock_acquire. munfold. rewrite bool_decide_eq_true_2 by done. unfold Thread.splhigh. rewrite kt_splx.
  set (k1 := Synch.set_ts _ k). unfold Synch.lock_acquire_loop. munfold. rewrite (get_lock_eq l k1 y Ey), kt_gets.
  rewrite Ha, decide_False, bool_decide_eq_true_2 by done. intros [= <-]. exact Hr.
Qed.

Lemma release_roomy k l : held_lock lbolt k l -> l <> 0 -> roomy_rq k ->
  exists k', Vnode.lock_release l k = Done tt k' /\ idle_lock lbolt k' l /\ roomy_rq k'.
Proof.
  intros Hh Hl Hr. destruct (held_by_lock lbolt k l _ Hh) as (y & Ey & Hy & _). pose proof Hh as ((F & R & S & Zs & I) & Hc & _).
  destruct (release_spec lbolt F k R S Zs l y I Hc Hl Ey) as [[_ Hn]|(b & k' & E & _)]; [by destruct (Hn Hr)|].
  destruct (release_held lbolt k l Hh Hl) as [Ep|(k2 & E2 & Hi)]; cbn [Vnode.lock_release kernel_locks] in *; rewrite (bind_Done _ _ _ _ _ E) in *; [done|].
  injection E2 as <-. exists k'. split; [done|]. split; [done|]. exact (release_room lbolt F k R S Zs l y b k' I Hc Hl Ey Hy E Hr).
Qed.

#[refine] Definition kernel_lock_spec : LockSpec kernel := {|
  lk_free k l := idle_lock lbolt k l /\ l <> 0 /\ roomy_rq k;
  lk_mine k l := held_lock lbolt k l /\ l <> 0 /\ roomy_rq k;
|}.
Proof.
  - intros k l (Hi & Hl & Hr). destruct (acquire_roomy k l Hi Hl Hr) as (k' & E & Hh & Hr'). by exists k'.
  - intros k l (Hi & Hl & Hr). destruct (release_roomy k l Hi Hl Hr) as (k' & E & Hh & Hr'). by exists k'.
Defined.

(** The other locks are as they were. *)
Lemma idle_other (k k' : kernel) (l l' t : Z) :
  (exists F, kok lbolt F k') -> Thread.curthread (Synch.ts k') = Thread.curthread (Synch.ts k) ->
  holders k' = <[l := t]> (holders k) -> l' <> l -> idle_lock lbolt k l' -> idle_lock lbolt k' l'.
Proof. intros Hk Hc Hh Hne (_ & Hc0 & Hl). split; [done|]. rewrite Hc, Hh. split; [done|]. by rewrite lookup_insert_ne. Qed.

Lemma kernel_lock_frame : @LockFrame kernel _ kernel_lock_spec.
Proof.
  split; intros k l k' l' (Hi & Hl & Hr) E Hne (Hi' & Hl' & _); (split; [|split; [done|]]).
  - destruct (held_by_lock lbolt k l 0 Hi) as (y & Ey & _ & _). pose proof Hi as ((F & R & S & Zs & I) & Hc & _).
    cbn [Vnode.lock_acquire kernel_locks] in E. destruct (acquire_spec lbolt F k R S Zs l y I Hc Hl Ey) as [[Ep _]|(b & k1 & Eb & Hk & _ & Hb)].
    { unfold mbind, M_bind in E. by rewrite Ep in E. }
    rewrite (bind_Done _ _ _ _ _ Eb) in E. destruct b; [|done]. injection E as <-. destruct Hb as (_ & Hh & Hcur).
    by apply (idle_other k k1 l l' (Thread.curthread (Synch.ts k))); [exists F|..].
  - destruct (acquire_roomy k l Hi Hl Hr) as (k2 & E2 & _ & Hr2). rewrite E in E2. by injection E2 as <-.
  - destruct (held_by_lock lbolt k l _ Hi) as (y & Ey & Hy & _). pose proof Hi as ((F & R & S & Zs & I) & Hc & _).
    cbn [Vnode.lock_release kernel_locks] in E. destruct (release_spec lbolt F k R S Zs l y I Hc Hl Ey) as [[Ep _]|(b & k1 & Eb & Hk & _ & Hb & Hcur & Hh)].
    { unfold mbind, M_bind in E. by rewrite Ep in E. }
    rewrite (bind_Done _ _ _ _ _ Eb) in E. injection E as <-. rewrite bool_decide_eq_true_2 in Hb by done. subst b.
    by apply (idle_other k k1 l l' 0); [exists F|..].
  - destruct (release_roomy k l Hi Hl Hr) as (k2 & E2 & _ & Hr2). rewrite E in E2. by injection E2 as <-.
Qed.

End kernel.

#[export] Instance kernel_void_query : VoidQuery kernel.
Proof. split. intros l. cbn. unfold Synch.lock_do_i_hold, Synch.get_lock, Synch.kt. nofail. Qed.

End EmuKernel.
