(* ===== verification/Libc.v ===== *)
(** * The string and memory routines of the C library

    lib/libc: the files that are shared by the kernel and user programs.  The memory is bytes by
    address; a pointer is an address, 0 for [NULL].  An access outside the memory is undefined.
    The theorems relate the routines to lists of bytes. *)

From S2P Require Import Prelude.

Module Libc.

Abbreviation mem := (gmap Z Z).

(** ** Memory *)

(** The bytes are unsigned; [char] is signed on this machine. *)
Definition s8 (z : Z) : Z := (z + 2 ^ 7) mod 2 ^ 8 - 2 ^ 7.

Definition load (p : Z) : M mem Z := m ← gets id; access (m !! p).
Definition store (p b : Z) : M mem unit := _ ← load p; modify (<[p := u8 b]>).

(** A value of type [long] is moved as its four bytes. *)
Fixpoint loads (n : nat) (p : Z) : M mem (list Z) :=
  match n with
  | O => mret []
  | S n' => b ← load p; l ← loads n' (p + 1); mret (b :: l)
  end.
Fixpoint stores (p : Z) (l : list Z) : M mem unit :=
  match l with
  | [] => mret tt
  | b :: l' => store p b ;; stores (p + 1) l'
  end.
Definition sizeof_long : Z := 4.
Definition load_long (p : Z) : M mem (list Z) := loads 4 p.

(** The turns of a loop that ends at a zero byte: it looks at a new address each time. *)
Definition scan : M mem nat := gets (fun m => S (size m)).

(** ** Blocks *)

(** [for (i = from; i < from+n; i++) d[i] = s[i]], for elements of [k] bytes. *)
Fixpoint copy_up (k : nat) (n : nat) (i d s : Z) : M mem unit :=
  match n with
  | O => mret tt
  | S n' => l ← loads k (s + Z.of_nat k * i); stores (d + Z.of_nat k * i) l ;; copy_up k n' (i + 1) d s
  end.

(** [for (i = n; i > 0; i--) d[i-1] = s[i-1]]. *)
Fixpoint copy_down (k : nat) (n : nat) (d s : Z) : M mem unit :=
  match n with
  | O => mret tt
  | S n' => l ← loads k (s + Z.of_nat k * Z.of_nat n'); stores (d + Z.of_nat k * Z.of_nat n') l ;; copy_down k n' d s
  end.

Definition aligned (p : Z) : bool := bool_decide (p mod sizeof_long = 0).

Definition memcpy (dst src len : Z) : M mem Z :=
  (if aligned dst && aligned src && aligned len then copy_up 4 (Z.to_nat (len / sizeof_long)) 0 dst src
   else copy_up 1 (Z.to_nat len) 0 dst src) ;;
  mret dst.

Definition memmove (dst src len : Z) : M mem Z :=
  if decide (dst < src) then memcpy dst src len
  else
    (if aligned dst && aligned src && aligned len then copy_down 4 (Z.to_nat (len / sizeof_long)) dst src
     else copy_down 1 (Z.to_nat len) dst src) ;;
    mret dst.

Fixpoint fill (n : nat) (p : Z) (l : list Z) : M mem unit :=
  match n with
  | O => mret tt
  | S n' => stores p l ;; fill n' (p + Z.of_nat (length l)) l
  end.

Definition bzero (block len : Z) : M mem unit :=
  if aligned block && aligned len then fill (Z.to_nat (len / sizeof_long)) block [0; 0; 0; 0]
  else fill (Z.to_nat len) block [0].

Definition memset (ptr ch len : Z) : M mem Z := fill (Z.to_nat len) ptr [ch] ;; mret ptr.

Fixpoint memcmp_loop (n : nat) (i a b : Z) : M mem Z :=
  match n with
  | O => mret 0
  | S n' =>
      x ← load (a + i);
      y ← load (b + i);
      if decide (x <> y) then mret (x - y) else memcmp_loop n' (i + 1) a b
  end.
Definition memcmp (a b len : Z) : M mem Z := memcmp_loop (Z.to_nat len) 0 a b.

(** ** Strings *)

Fixpoint strlen_loop (fuel : nat) (s ret : Z) : M mem Z :=
  match fuel with
  | O => nofuel
  | S fuel' => c ← load (s + ret); if decide (c <> 0) then strlen_loop fuel' s (u32 (ret + 1)) else mret ret
  end.
Definition strlen (s : Z) : M mem Z := n ← scan; strlen_loop n s 0.

(** The index of the terminator of the source. *)
Fixpoint strcpy_loop (fuel : nat) (dest src i : Z) : M mem Z :=
  match fuel with
  | O => nofuel
  | S fuel' =>
      c ← load (src + i);
      if decide (c <> 0) then store (dest + i) c ;; strcpy_loop fuel' dest src (u32 (i + 1)) else mret i
  end.
Definition strcpy (dest src : Z) : M mem Z :=
  n ← scan;
  i ← strcpy_loop n dest src 0;
  store (dest + i) 0 ;;
  mret dest.

Definition strcat (dest src : Z) : M mem Z :=
  offset ← strlen dest;
  _ ← strcpy (dest + offset) src;
  mret dest.

Fixpoint strcmp_loop (fuel : nat) (a b i : Z) : M mem Z :=
  match fuel with
  | O => nofuel
  | S fuel' =>
      x ← load (a + i);
      if decide (x = 0) then mret i
      else
        y ← load (b + i);
        if decide (x = y) then strcmp_loop fuel' a b (u32 (i + 1)) else mret i
  end.
Definition strcmp (a b : Z) : M mem Z :=
  n ← scan;
  i ← strcmp_loop n a b 0;
  x ← load (a + i);
  y ← load (b + i);
  mret (if decide (s8 x > s8 y) then 1 else if decide (x = y) then 0 else -1).

Fixpoint strchr_loop (fuel : nat) (s ch : Z) : M mem Z :=
  match fuel with
  | O => nofuel
  | S fuel' =>
      c ← load s;
      if decide (c <> 0) then if decide (s8 c = ch) then mret s else strchr_loop fuel' (s + 1) ch
      else mret (if decide (s8 c = ch) then s else 0)
  end.
Definition strchr (s ch : Z) : M mem Z := n ← scan; strchr_loop n s ch.

(** From one past the terminator down. *)
Fixpoint strrchr_loop (n : nat) (s ch : Z) : M mem Z :=
  match n with
  | O => mret 0
  | S n' => c ← load (s + Z.of_nat n'); if decide (s8 c = ch) then mret (s + Z.of_nat n') else strrchr_loop n' s ch
  end.
Definition strrchr (s ch : Z) : M mem Z := n ← strlen s; strrchr_loop (Z.to_nat (u32 (n + 1))) s ch.

(** [while ( *head && strchr(seps, *head)) head++], and the same for the end of a word with [want]
    false. *)
Fixpoint span_loop (fuel : nat) (want : bool) (p seps : Z) : M mem Z :=
  match fuel with
  | O => nofuel
  | S fuel' =>
      c ← load p;
      if decide (c = 0) then mret p
      else
        w ← strchr seps (s8 c);
        if Bool.eqb (bool_decide (w <> 0)) want then span_loop fuel' want (p + 1) seps else mret p
  end.

(** The word, or [NULL], and the new value of the context. *)
Definition strtok_r (string seps context : Z) : M mem (Z * Z) :=
  let head := if decide (string <> 0) then string else context in
  if decide (head = 0) then mret (0, head)
  else
    n ← scan;
    head ← span_loop n true head seps;
    c ← load head;
    if decide (c = 0) then mret (0, 0)
    else
      tail ← span_loop n false head seps;
      c ← load tail;
      if decide (c = 0) then mret (head, 0) else store tail 0 ;; mret (head, tail + 1).

(** ** Numbers *)

Definition is_space (c : Z) : bool := bool_decide (c = 32 \/ c = 9).

Fixpoint skip_space (fuel : nat) (s : Z) : M mem Z :=
  match fuel with
  | O => nofuel
  | S fuel' => c ← load s; if is_space c then skip_space fuel' (s + 1) else mret s
  end.

(** The index of the character in "0123456789", as [strchr] finds it. *)
Definition digit_of (c : Z) : option Z := if decide (48 <= s8 c <= 57) then Some (s8 c - 48) else None.

Fixpoint atoi_loop (fuel : nat) (s val : Z) : M mem Z :=
  match fuel with
  | O => nofuel
  | S fuel' =>
      c ← load s;
      if decide (c = 0) then mret val
      else
        match digit_of c with
        | Some d => atoi_loop fuel' (s + 1) (u32 (val * 10 + d))
        | None => mret val
        end
  end.

Definition atoi (s : Z) : M mem Z :=
  n ← scan;
  s ← skip_space n s;
  c ← load s;
  let neg := bool_decide (c = 45) in
  let s := if decide (c = 45 \/ c = 43) then s + 1 else s in
  val ← atoi_loop n s 0;
  mret (s32 (if neg then u32 (- val) else val)).

(** ** Memory as lists *)

(** The bytes [l] are at [p]. *)
Definition holds (m : mem) (p : Z) (l : list Z) : Prop := forall (i : nat) b, l !! i = Some b -> m !! (p + Z.of_nat i) = Some b.
(** There is memory for [n] bytes at [p]. *)
Definition mapped (m : mem) (p n : Z) : Prop := forall a, p <= a < p + n -> is_Some (m !! a).
Definition byte (b : Z) : Prop := 0 <= b < 2 ^ 8.

(** The memory with [l] at [p]. *)
Fixpoint write (p : Z) (l : list Z) (m : mem) : mem :=
  match l with
  | [] => m
  | b :: l' => write (p + 1) l' (<[p := b]> m)
  end.

(** A string: bytes that are not zero, and a zero. *)
Definition cstr (m : mem) (p : Z) (l : list Z) : Prop := holds m p (l ++ [0]) /\ Forall (fun b => 0 < b < 2 ^ 8) l.

Lemma write_lookup p l m a :
  write p l m !! a = if decide (p <= a < p + Z.of_nat (length l)) then l !! Z.to_nat (a - p) else m !! a.
Proof.
  revert p m. induction l as [|b l IH]; intros p m; cbn [write length].
  { rewrite decide_False by lia. done. }
  rewrite IH. destruct (decide (a = p)) as [->|Hne].
  - rewrite decide_False, decide_True by lia. rewrite lookup_insert_eq, Z.sub_diag. done.
  - rewrite lookup_insert_ne by done. destruct (decide (p + 1 <= a < p + 1 + Z.of_nat (length l))).
    + rewrite decide_True by lia. replace (Z.to_nat (a - p)) with (S (Z.to_nat (a - (p + 1)))) by lia. done.
    + by rewrite decide_False by lia.
Qed.

Lemma write_out p l m a : ~ (p <= a < p + Z.of_nat (length l)) -> write p l m !! a = m !! a.
Proof. intros H. rewrite write_lookup. by rewrite decide_False. Qed.

Lemma write_app p l1 l2 m : write p (l1 ++ l2) m = write (p + Z.of_nat (length l1)) l2 (write p l1 m).
Proof.
  revert p m. induction l1 as [|b l1 IH]; intros p m; cbn [app write length]; [by rewrite Z.add_0_r|].
  rewrite IH. f_equal. lia.
Qed.

Lemma write_app_rev p l1 l2 m : write p (l1 ++ l2) m = write p l1 (write (p + Z.of_nat (length l1)) l2 m).
Proof.
  apply map_eq. intros a. rewrite !write_lookup, length_app.
  destruct (decide (p <= a < p + Z.of_nat (length l1))).
  - rewrite decide_True by lia. rewrite lookup_app_l by lia. done.
  - destruct (decide (p + Z.of_nat (length l1) <= a < p + Z.of_nat (length l1) + Z.of_nat (length l2))).
    + rewrite decide_True by lia. rewrite lookup_app_r by lia. f_equal. lia.
    + by rewrite decide_False by lia.
Qed.

Lemma holds_app m p l1 l2 : holds m p (l1 ++ l2) <-> holds m p l1 /\ holds m (p + Z.of_nat (length l1)) l2.
Proof.
  split.
  - intros H. split; intros i b E.
    + apply H. by apply lookup_app_l_Some.
    + replace (p + _ + _) with (p + Z.of_nat (length l1 + i)) by lia. apply H. rewrite lookup_app_r by lia. rewrite <-E. f_equal. lia.
  - intros [H1 H2] i b E. apply lookup_app_Some in E as [E|[Hi E]]; [by apply H1|]. apply H2 in E. rewrite <-E. f_equal. lia.
Qed.

Lemma holds_cons m p b l : holds m p (b :: l) <-> m !! p = Some b /\ holds m (p + 1) l.
Proof.
  rewrite (holds_app m p [b] l). cbn [length]. split; intros [H1 H2]; (split; [|done]).
  - specialize (H1 O b eq_refl). by rewrite Z.add_0_r in H1.
  - intros [|i] c E; [|done]. injection E as <-. by rewrite Z.add_0_r.
Qed.

Lemma holds_write m p l : holds (write p l m) p l.
Proof.
  intros i b E. pose proof (lookup_lt_Some _ _ _ E). rewrite write_lookup, decide_True by lia.
  rewrite <-E. f_equal. lia.
Qed.

(** What is elsewhere stays. *)
Lemma holds_write_out m p l q l' :
  holds m q l' -> q + Z.of_nat (length l') <= p \/ p + Z.of_nat (length l) <= q -> holds (write p l m) q l'.
Proof. intros H Ho i b E. pose proof (lookup_lt_Some _ _ _ E). rewrite write_out by lia. by apply H. Qed.

Lemma mapped_write m p l q n : mapped m q n -> mapped (write p l m) q n.
Proof.
  intros H a Ha. rewrite write_lookup. destruct (decide _); [|by apply H]. apply lookup_lt_is_Some_2. lia.
Qed.

Lemma holds_mapped m p l : holds m p l -> mapped m p (Z.of_nat (length l)).
Proof.
  intros H a Ha. destruct (lookup_lt_is_Some_2 l (Z.to_nat (a - p))) as [b E]; [lia|]. exists b.
  rewrite <-(H _ _ E). f_equal. lia.
Qed.

(** A string is no longer than the memory. *)
Lemma holds_size m p l : holds m p l -> (length l <= size m)%nat.
Proof.
  intros H. set (L := (fun i : nat => p + Z.of_nat i) <$> seq 0 (length l)).
  assert (Hn : NoDup L) by (apply NoDup_fmap_2; [intros x y; lia|apply NoDup_seq]).
  replace (length l) with (length L) by (unfold L; by rewrite length_fmap, length_seq).
  rewrite <-size_dom, <-(size_list_to_set (C := gset Z) L Hn). apply subseteq_size. intros a Ha.
  apply elem_of_list_to_set, list_elem_of_fmap in Ha as (i & -> & Hi). apply elem_of_seq in Hi.
  destruct (lookup_lt_is_Some_2 l i) as [b E]; [lia|]. apply elem_of_dom. exists b. by apply H.
Qed.

(** ** Loads and stores *)

Lemma load_eq m p b : m !! p = Some b -> load p m = Done b m.
Proof. intros E. unfold load. munfold. unfold id. by rewrite E. Qed.

Lemma mstore_eq m p b : is_Some (m !! p) -> byte b -> store p b m = Done tt (<[p := b]> m).
Proof.
  intros [c E] Hb. unfold store. rewrite (bind_Done _ _ _ _ _ (load_eq m p c E)). unfold modify, u8. by rewrite Z.mod_small.
Qed.

Lemma loads_eq m p l : holds m p l -> loads (length l) p m = Done l m.
Proof.
  revert p. induction l as [|b l IH]; intros p H; [done|]. apply holds_cons in H as [Hb H]. cbn [length loads].
  rewrite (bind_Done _ _ _ _ _ (load_eq m p b Hb)). by rewrite (bind_Done _ _ _ _ _ (IH (p + 1) H)).
Qed.

Lemma stores_eq m p l : mapped m p (Z.of_nat (length l)) -> Forall byte l -> stores p l m = Done tt (write p l m).
Proof.
  revert p m. induction l as [|b l IH]; intros p m Hm Hl; [done|]. inversion_clear Hl as [|? ? Hb Hl']. cbn [stores write length] in *.
  rewrite (bind_Done _ _ _ _ _ (mstore_eq m p b (Hm p ltac:(lia)) Hb)). apply IH; [|done].
  intros a Ha. change (<[p := b]> m) with (write p [b] m). apply (mapped_write m p [b] a 1); [|lia]. intros a' Ha'. apply Hm. lia.
Qed.

(** ** Blocks *)


Lemma copy_up_eq k n i d s l m :
  0 <= i -> length l = (k * n)%nat -> holds m (s + Z.of_nat k * i) l -> mapped m (d + Z.of_nat k * i) (Z.of_nat (length l)) -> Forall byte l ->
  d <= s \/ s + Z.of_nat k * (i + Z.of_nat n) <= d ->
  copy_up k n i d s m = Done tt (write (d + Z.of_nat k * i) l m).
Proof.
  revert i l m. induction n as [|n IH]; intros i l m Hi Hlen Hh Hm Hb Ho.
  { rewrite Nat.mul_0_r in Hlen. by destruct l. }
  rewrite <-(take_drop k l) in Hh, Hb. apply holds_app in Hh as [H1 H2]. apply Forall_app in Hb as [B1 B2].
  assert (Lk : length (take k l) = k) by (rewrite length_take; nia). assert (Ld : length (drop k l) = (k * n)%nat) by (rewrite length_drop; nia).
  cbn [copy_up]. rewrite <-Lk at 1. rewrite (bind_Done _ _ _ _ _ (loads_eq m _ _ H1)).
  rewrite (bind_Done _ _ _ tt (write (d + Z.of_nat k * i) (take k l) m)).
  2: { apply stores_eq; [|done]. intros a Ha. apply Hm. lia. }
  rewrite Lk in H2. rewrite (IH (i + 1) (drop k l)); [|lia|done| |intros a Ha; apply (mapped_write _ _ _ _ _ Hm); lia|done|lia].
  - rewrite <-(take_drop k l) at 3. rewrite write_app, Lk. do 2 f_equal. lia.
  - replace (s + Z.of_nat k * (i + 1)) with (s + Z.of_nat k * i + Z.of_nat k) by lia. apply holds_write_out; [done|].
    rewrite Lk, Ld. destruct Ho as [?|Ho]; [right; lia|left]. rewrite Nat2Z.inj_mul. nia.
Qed.

Lemma copy_down_eq k n d s l m :
  length l = (k * n)%nat -> holds m s l -> mapped m d (Z.of_nat (length l)) -> Forall byte l -> s <= d ->
  copy_down k n d s m = Done tt (write d l m).
Proof.
  revert l m. induction n as [|n IH]; intros l m Hlen Hh Hm Hb Ho.
  { rewrite Nat.mul_0_r in Hlen. by destruct l. }
  rewrite <-(take_drop (k * n) l) in Hh, Hb. apply holds_app in Hh as [H1 H2]. apply Forall_app in Hb as [B1 B2].
  assert (Lk : length (take (k * n) l) = (k * n)%nat) by (rewrite length_take; nia).
  assert (Ld : length (drop (k * n) l) = k) by (rewrite length_drop; nia).
  cbn [copy_down]. rewrite <-Ld at 1. rewrite Lk in H2. replace (Z.of_nat k * Z.of_nat n) with (Z.of_nat (k * n)) by lia.
  rewrite (bind_Done _ _ _ _ _ (loads_eq m _ _ H2)).
  rewrite (bind_Done _ _ _ tt (write (d + Z.of_nat (k * n)) (drop (k * n) l) m)).
  2: { apply stores_eq; [|done]. intros a Ha. apply Hm. lia. }
  rewrite (IH (take (k * n) l)); [|done| |intros a Ha; apply (mapped_write _ _ _ _ _ Hm); lia|done|done].
  - rewrite <-(take_drop (k * n) l) at 3. by rewrite write_app_rev, Lk.
  - apply holds_write_out; [done|]. rewrite Lk. lia.
Qed.

Lemma aligned_length (l : list Z) : aligned (Z.of_nat (length l)) = true -> length l = (4 * Z.to_nat (Z.of_nat (length l) / sizeof_long))%nat.
Proof. unfold aligned, sizeof_long. rewrite bool_decide_eq_true. intros H. dlia. Qed.

Lemma memcpy_eq m dst src l :
  holds m src l -> mapped m dst (Z.of_nat (length l)) -> Forall byte l -> dst <= src \/ src + Z.of_nat (length l) <= dst ->
  memcpy dst src (Z.of_nat (length l)) m = Done dst (write dst l m).
Proof.
  intros Hh Hm Hb Ho. unfold memcpy. destruct (aligned dst && aligned src && aligned (Z.of_nat (length l))) eqn:E.
  - apply andb_true_iff in E as [_ E]. pose proof (aligned_length l E) as El.
    rewrite (bind_Done _ _ _ tt (write dst l m)); [done|].
    rewrite (copy_up_eq 4 _ 0 dst src l m ltac:(lia) El); [by rewrite Z.add_0_r|by rewrite Z.add_0_r..|done|lia].
  - rewrite (bind_Done _ _ _ tt (write dst l m)); [done|]. rewrite Nat2Z.id.
    rewrite (copy_up_eq 1 (length l) 0 dst src l m); [by rewrite Z.add_0_r|lia|lia|by rewrite Z.add_0_r..|done|lia].
Qed.

(** C35: The bytes that were at the source are at the destination, wherever the two are: also when
    they overlap, by words or by bytes, and nothing else changes. *)
Theorem memmove_correct m dst src l :
  holds m src l -> mapped m dst (Z.of_nat (length l)) -> Forall byte l ->
  memmove dst src (Z.of_nat (length l)) m = Done dst (write dst l m).
Proof.
  intros Hh Hm Hb. unfold memmove. case_decide as D; [apply memcpy_eq; try done; lia|].
  destruct (aligned dst && aligned src && aligned (Z.of_nat (length l))) eqn:E.
  - apply andb_true_iff in E as [_ E]. rewrite (bind_Done _ _ _ _ _ (copy_down_eq 4 _ dst src l m (aligned_length l E) Hh Hm Hb ltac:(lia))). done.
  - rewrite Nat2Z.id. rewrite (bind_Done _ _ _ _ _ (copy_down_eq 1 (length l) dst src l m ltac:(lia) Hh Hm Hb ltac:(lia))). done.
Qed.

Lemma fill_eq n p l m :
  mapped m p (Z.of_nat (n * length l)) -> Forall byte l -> fill n p l m = Done tt (write p (concat (replicate n l)) m).
Proof.
  revert p m. induction n as [|n IH]; intros p m Hm Hb; [done|]. cbn [fill replicate concat].
  rewrite (bind_Done _ _ _ tt (write p l m)) by (apply stores_eq; [intros a Ha; apply Hm; lia|done]).
  rewrite IH; [by rewrite write_app| |done]. intros a Ha. apply (mapped_write m p l p (Z.of_nat (S n * length l))); [done|lia].
Qed.

Lemma concat_replicate n k (b : Z) : concat (replicate n (replicate k b)) = replicate (n * k) b.
Proof. induction n as [|n IH]; [done|]. cbn [replicate concat]. by rewrite IH, <-replicate_add. Qed.

Lemma bzero_eq m p n : mapped m p (Z.of_nat n) -> bzero p (Z.of_nat n) m = Done tt (write p (replicate n 0) m).
Proof.
  intros Hm. unfold bzero. assert (B : forall k, Forall byte (replicate k 0)) by (intros k; apply Forall_replicate; by split).
  destruct (aligned p && aligned (Z.of_nat n)) eqn:E.
  - apply andb_true_iff in E as [_ E]. unfold aligned, sizeof_long in E. apply bool_decide_eq_true in E.
    assert (En : n = (Z.to_nat (Z.of_nat n / sizeof_long) * 4)%nat) by (unfold sizeof_long; dlia).
    rewrite (fill_eq _ p (replicate 4 0)); [|rewrite length_replicate, <-En; done|apply B]. by rewrite concat_replicate, <-En.
  - rewrite Nat2Z.id, (fill_eq n p (replicate 1 0)); [by rewrite concat_replicate, Nat.mul_1_r|by rewrite Nat.mul_1_r|apply B].
Qed.

(** ** Strings *)

Lemma cstr_nil m p : cstr m p [] <-> m !! p = Some 0.
Proof. unfold cstr. cbn [app]. rewrite holds_cons. split; [by intros [[? _] _]|]. intros E. split; [|done]. split; [done|]. intros i b. done. Qed.

Lemma cstring_cons m p b l : cstr m p (b :: l) <-> m !! p = Some b /\ 0 < b < 2 ^ 8 /\ cstr m (p + 1) l.
Proof. unfold cstr. cbn [app]. rewrite holds_cons, Forall_cons. naive_solver. Qed.

Lemma cstr_app m p l1 l2 :
  cstr m p (l1 ++ l2) <-> holds m p l1 /\ Forall (fun b => 0 < b < 2 ^ 8) l1 /\ cstr m (p + Z.of_nat (length l1)) l2.
Proof. unfold cstr. rewrite <-app_assoc, holds_app, Forall_app. naive_solver. Qed.

Lemma cstr_size m p l : cstr m p l -> (length l < size m)%nat.
Proof. intros [H _]. apply holds_size in H. rewrite length_app in H. cbn in H. lia. Qed.

Lemma cstr_bytes m p l : cstr m p l -> Forall byte l.
Proof. intros [_ H]. apply (Forall_impl _ _ _ H). unfold byte. lia. Qed.

Lemma cstr_write_out m p l q l' :
  cstr m q l' -> q + Z.of_nat (length l') < p \/ p + Z.of_nat (length l) <= q -> cstr (write p l m) q l'.
Proof. intros [H Hb] Ho. split; [|done]. apply holds_write_out; [done|]. rewrite length_app. cbn. lia. Qed.

(** The end of a scan over a string. *)
Lemma scan_eq m : scan m = Done (S (size m)) m.
Proof. done. Qed.

Lemma s8_inj a b : byte a -> byte b -> s8 a = s8 b -> a = b.
Proof. unfold byte, s8. intros. dlia. Qed.

Lemma s8_nz a : 0 < a < 2 ^ 8 -> s8 a <> 0.
Proof. unfold s8. intros. dlia. Qed.

Lemma strlen_loop_eq fuel m s l ret :
  cstr m (s + ret) l -> (length l < fuel)%nat -> 0 <= ret -> ret + Z.of_nat (length l) < 2 ^ 32 ->
  strlen_loop fuel s ret m = Done (ret + Z.of_nat (length l)) m.
Proof.
  revert l ret. induction fuel as [|fuel IH]; intros l ret Hc Hf Hr Hb; [lia|]. cbn [strlen_loop].
  destruct l as [|b l].
  - apply cstr_nil in Hc. rewrite (bind_Done _ _ _ _ _ (load_eq _ _ _ Hc)), decide_False by lia. by rewrite Z.add_0_r.
  - apply cstring_cons in Hc as (E & Hnz & Hc). cbn [length] in *. rewrite (bind_Done _ _ _ _ _ (load_eq _ _ _ E)), decide_True by lia.
    rewrite u32_small by lia. rewrite (IH l); [f_equal; lia|by rewrite Z.add_assoc|lia..].
Qed.

Lemma strlen_eq m s l : cstr m s l -> Z.of_nat (length l) < 2 ^ 32 -> strlen s m = Done (Z.of_nat (length l)) m.
Proof.
  intros Hc Hb. unfold strlen. rewrite (bind_Done _ _ _ _ _ (scan_eq m)). pose proof (cstr_size _ _ _ Hc).
  rewrite (strlen_loop_eq _ m s l 0); [done|by rewrite Z.add_0_r|lia..].
Qed.

Lemma strcpy_loop_eq fuel m dest src l i :
  cstr m (src + i) l -> mapped m (dest + i) (Z.of_nat (length l)) -> (length l < fuel)%nat -> 0 <= i -> i + Z.of_nat (length l) < 2 ^ 32 ->
  dest < src \/ src + i + Z.of_nat (length l) < dest + i ->
  strcpy_loop fuel dest src i m = Done (i + Z.of_nat (length l)) (write (dest + i) l m).
Proof.
  revert l i m. induction fuel as [|fuel IH]; intros l i m Hc Hm Hf Hi Hb Ho; [lia|]. cbn [strcpy_loop].
  destruct l as [|b l].
  - apply cstr_nil in Hc. rewrite (bind_Done _ _ _ _ _ (load_eq _ _ _ Hc)), decide_False by lia. by rewrite Z.add_0_r.
  - apply cstring_cons in Hc as (E & Hnz & Hc). cbn [length write] in *. rewrite (bind_Done _ _ _ _ _ (load_eq _ _ _ E)), decide_True by lia.
    rewrite (bind_Done _ _ _ _ _ (mstore_eq _ _ b (Hm (dest + i) ltac:(lia)) ltac:(unfold byte; lia))), u32_small by lia.
    change (<[dest + i := b]> m) with (write (dest + i) [b] m). rewrite (IH l (i + 1)); [rewrite Z.add_assoc; f_equal; lia| | |lia..].
    + rewrite Z.add_assoc. apply cstr_write_out; [done|]. cbn [length]. lia.
    + rewrite Z.add_assoc. intros a Ha. apply (mapped_write m (dest + i) [b] (dest + i) (Z.of_nat (S (length l)))); [done|lia].
Qed.

(** The string and its terminator are copied, unless the two overlap with the destination behind. *)
Lemma strcpy_eq m dest src l :
  cstr m src l -> mapped m dest (Z.of_nat (length l) + 1) -> Z.of_nat (length l) < 2 ^ 32 ->
  dest < src \/ src + Z.of_nat (length l) < dest ->
  strcpy dest src m = Done dest (write dest (l ++ [0]) m).
Proof.
  intros Hc Hm Hb Ho. pose proof (cstr_size _ _ _ Hc). unfold strcpy. rewrite (bind_Done _ _ _ _ _ (scan_eq m)).
  rewrite (bind_Done _ _ _ _ _ (strcpy_loop_eq (S (size m)) m dest src l 0 ltac:(by rewrite Z.add_0_r)
    ltac:(intros a Ha; apply Hm; lia) ltac:(lia) ltac:(lia) ltac:(lia) ltac:(lia))).
  rewrite Z.add_0_r, Z.add_0_l.
  rewrite (bind_Done _ _ _ _ _ (mstore_eq (write dest l m) (dest + Z.of_nat (length l)) 0 ltac:(apply (mapped_write m dest l _ _ Hm); lia) ltac:(by split))).
  by rewrite write_app.
Qed.

Lemma strcat_eq m dest src l1 l2 :
  cstr m dest l1 -> cstr m src l2 -> mapped m dest (Z.of_nat (length l1 + length l2) + 1) -> Z.of_nat (length l1 + length l2) < 2 ^ 32 ->
  dest + Z.of_nat (length l1) < src \/ src + Z.of_nat (length l2) < dest ->
  strcat dest src m = Done dest (write (dest + Z.of_nat (length l1)) (l2 ++ [0]) m).
Proof.
  intros H1 H2 Hm Hb Ho. unfold strcat. rewrite (bind_Done _ _ _ _ _ (strlen_eq m dest l1 H1 ltac:(lia))).
  rewrite (bind_Done _ _ _ _ _ (strcpy_eq m (dest + Z.of_nat (length l1)) src l2 H2 ltac:(intros a Ha; apply Hm; lia) ltac:(lia) ltac:(lia))). done.
Qed.

(** The order of two strings, by the first character that differs, as signed characters. *)
Fixpoint order (a b : list Z) : Z :=
  match a, b with
  | [], [] => 0
  | [], y :: _ => if decide (0 > s8 y) then 1 else -1
  | x :: _, [] => if decide (s8 x > 0) then 1 else -1
  | x :: a', y :: b' => if decide (x = y) then order a' b' else if decide (s8 x > s8 y) then 1 else -1
  end.

Lemma order_zero a b : order a b = 0 <-> a = b.
Proof.
  revert b. induction a as [|x a IH]; intros [|y b]; cbn [order]; try (case_decide; done); [done|].
  case_decide as D; [subst; rewrite IH; naive_solver|]. case_decide; split; try done; congruence.
Qed.

Lemma strcmp_loop_eq fuel m a b la lb i :
  cstr m (a + i) la -> cstr m (b + i) lb -> (length la < fuel)%nat -> 0 <= i -> i + Z.of_nat (length la) < 2 ^ 32 ->
  exists j x y, strcmp_loop fuel a b i m = Done j m /\ m !! (a + j) = Some x /\ m !! (b + j) = Some y /\
    order la lb = if decide (s8 x > s8 y) then 1 else if decide (x = y) then 0 else -1.
Proof.
  revert la lb i. induction fuel as [|fuel IH]; intros la lb i Ha Hb Hf Hi Hlen; [lia|]. cbn [strcmp_loop].
  destruct la as [|x la].
  - apply cstr_nil in Ha. rewrite (bind_Done _ _ _ _ _ (load_eq _ _ _ Ha)), decide_True by lia. exists i, 0. destruct lb as [|y lb].
    + apply cstr_nil in Hb. exists 0. done.
    + apply cstring_cons in Hb as (E & Hy & _). exists y. split; [done|]. split; [done|]. split; [done|]. cbn [order].
      change (s8 0) with 0. case_decide; [done|]. by rewrite decide_False by lia.
  - apply cstring_cons in Ha as (Ex & Hx & Ha). rewrite (bind_Done _ _ _ _ _ (load_eq _ _ _ Ex)), decide_False by lia.
    pose proof (s8_nz x Hx). destruct lb as [|y lb].
    + apply cstr_nil in Hb. rewrite (bind_Done _ _ _ _ _ (load_eq _ _ _ Hb)), decide_False by lia. exists i, x, 0.
      split; [done|]. split; [done|]. split; [done|]. cbn [order]. change (s8 0) with 0. case_decide; [done|]. by rewrite decide_False by lia.
    + apply cstring_cons in Hb as (Ey & Hy & Hb). rewrite (bind_Done _ _ _ _ _ (load_eq _ _ _ Ey)). cbn [order length] in *. case_decide as D.
      * rewrite u32_small by lia. apply IH; [by rewrite Z.add_assoc..|lia|lia|lia].
      * exists i, x, y. split; [done|]. split; [done|]. split; [done|]. case_decide; [done|]. by rewrite decide_False.
Qed.

Lemma strcmp_eq m a b la lb :
  cstr m a la -> cstr m b lb -> Z.of_nat (length la) < 2 ^ 32 -> strcmp a b m = Done (order la lb) m.
Proof.
  intros Ha Hb Hlen. pose proof (cstr_size _ _ _ Ha). unfold strcmp. rewrite (bind_Done _ _ _ _ _ (scan_eq m)).
  destruct (strcmp_loop_eq (S (size m)) m a b la lb 0) as (j & x & y & E & Ex & Ey & Ho); [by rewrite Z.add_0_r..|lia|lia|lia|].
  rewrite (bind_Done _ _ _ _ _ E), (bind_Done _ _ _ _ _ (load_eq _ _ _ Ex)), (bind_Done _ _ _ _ _ (load_eq _ _ _ Ey)). by rewrite Ho.
Qed.

End Libc.
