(* ===== verification/LibcStr.v ===== *)
(** * Searching, splitting and reading strings

    What strchr.c, strrchr.c, strtok_r.c and atoi.c of the C library compute, on the lists of bytes
    that the strings in memory are. *)

From S2P Require Import Prelude Libc.
Import Libc.

Module LibcStr.

(** ** Searching *)

Lemma strchr_loop_eq fuel m p l c :
  cstr m p l -> (length l < fuel)%nat -> 0 < c < 2 ^ 8 ->
  ((c ∉ l) /\ strchr_loop fuel p (s8 c) m = Done 0 m) \/
  exists l1 l2, l = l1 ++ c :: l2 /\ (c ∉ l1) /\ strchr_loop fuel p (s8 c) m = Done (p + Z.of_nat (length l1)) m.
Proof.
  revert p l. induction fuel as [|fuel IH]; intros p l Hs Hf Hc; [lia|]. cbn [strchr_loop]. destruct l as [|b l].
  - left. apply cstr_nil in Hs. rewrite (bind_Done _ _ _ _ _ (load_eq _ _ _ Hs)), decide_False by lia.
    rewrite decide_False by (pose proof (s8_nz c Hc); by intros ?). split; [apply not_elem_of_nil|done].
  - apply cstring_cons in Hs as (E & Hb & Hs). cbn [length] in Hf. rewrite (bind_Done _ _ _ _ _ (load_eq _ _ _ E)), decide_True by lia.
    destruct (decide (b = c)) as [->|Hne].
    + right. exists [], l. rewrite decide_True by done. split; [done|]. split; [apply not_elem_of_nil|]. by rewrite Z.add_0_r.
    + rewrite decide_False by (intros H; apply s8_inj in H; unfold byte; lia).
      destruct (IH (p + 1) l Hs ltac:(lia) Hc) as [[Hni ->]|(l1 & l2 & -> & Hni & ->)]; [left|right].
      * split; [|done]. apply not_elem_of_cons. by split.
      * exists (b :: l1), l2. split; [done|]. split; [apply not_elem_of_cons; by split|]. cbn [length]. f_equal. lia.
Qed.

(** The first place of the character, or [NULL]. *)
Lemma strchr_eq m p l c :
  cstr m p l -> 0 < c < 2 ^ 8 ->
  ((c ∉ l) /\ strchr p (s8 c) m = Done 0 m) \/
  exists l1 l2, l = l1 ++ c :: l2 /\ (c ∉ l1) /\ strchr p (s8 c) m = Done (p + Z.of_nat (length l1)) m.
Proof.
  intros Hs Hc. pose proof (cstr_size _ _ _ Hs). unfold strchr. rewrite (bind_Done _ _ _ _ _ (scan_eq m)).
  apply strchr_loop_eq; [done|lia|done].
Qed.

Lemma strchr_in m p l c : cstr m p l -> 0 < c < 2 ^ 8 -> 0 < p -> exists w, strchr p (s8 c) m = Done w m /\ (w <> 0 <-> c ∈ l).
Proof.
  intros Hs Hc Hp. destruct (strchr_eq m p l c Hs Hc) as [[Hn E]|(l1 & l2 & -> & _ & E)]; eexists; (split; [exact E|]).
  - done.
  - split; [intros _; apply elem_of_app; right; apply list_elem_of_here|lia].
Qed.

Lemma strrchr_loop_eq n m s l c :
  holds m s l -> Forall byte l -> byte c -> length l = n ->
  ((c ∉ l) /\ strrchr_loop n s (s8 c) m = Done 0 m) \/
  exists l1 l2, l = l1 ++ c :: l2 /\ (c ∉ l2) /\ strrchr_loop n s (s8 c) m = Done (s + Z.of_nat (length l1)) m.
Proof.
  revert l. induction n as [|n IH]; intros l Hh Hb Hc Hl.
  { destruct l; [|done]. left. split; [apply not_elem_of_nil|done]. }
  destruct l as [|b l _] using rev_ind; [done|]. rewrite length_app in Hl. cbn [length] in Hl.
  apply holds_app in Hh as [H1 H2]. apply Forall_app in Hb as [B1 B2]. apply Forall_cons in B2 as [B2 _].
  apply holds_cons in H2 as [H2 _]. cbn [strrchr_loop]. replace (Z.of_nat n) with (Z.of_nat (length l)) by lia.
  rewrite (bind_Done _ _ _ _ _ (load_eq _ _ _ H2)). destruct (decide (b = c)) as [->|Hne].
  - right. exists l, []. rewrite decide_True by done. split; [done|]. split; [apply not_elem_of_nil|done].
  - rewrite decide_False by (intros H; by apply s8_inj in H).
    destruct (IH l H1 B1 Hc ltac:(lia)) as [[Hni ->]|(l1 & l2 & -> & Hni & ->)]; [left|right].
    + split; [|done]. rewrite elem_of_app, list_elem_of_singleton. intros [?|?]; congruence.
    + exists l1, (l2 ++ [b]). split; [by rewrite <-app_assoc|]. split; [|done].
      rewrite elem_of_app, list_elem_of_singleton. intros [?|?]; congruence.
Qed.

(** The last place of the character, or [NULL]. *)
Lemma strrchr_eq m p l c :
  cstr m p l -> 0 < c < 2 ^ 8 -> Z.of_nat (length l) + 1 < 2 ^ 32 ->
  ((c ∉ l) /\ strrchr p (s8 c) m = Done 0 m) \/
  exists l1 l2, l = l1 ++ c :: l2 /\ (c ∉ l2) /\ strrchr p (s8 c) m = Done (p + Z.of_nat (length l1)) m.
Proof.
  intros Hs Hc Hlen. unfold strrchr. rewrite (bind_Done _ _ _ _ _ (strlen_eq m p l Hs ltac:(lia))), u32_small by lia.
  replace (Z.to_nat (Z.of_nat (length l) + 1)) with (S (length l)) by lia. cbn [strrchr_loop].
  pose proof (cstr_bytes _ _ _ Hs) as Hb. destruct Hs as [Hh _]. apply holds_app in Hh as [H1 [H2 _]%holds_cons].
  rewrite (bind_Done _ _ _ _ _ (load_eq _ _ _ H2)), decide_False by (pose proof (s8_nz c Hc); by intros ?).
  apply strrchr_loop_eq; [done..|unfold byte; lia|done].
Qed.

(** ** Splitting *)

(** The leading elements that satisfy [f], and what follows them. *)
Fixpoint take_while (f : Z -> bool) (l : list Z) : list Z :=
  match l with [] => [] | b :: l' => if f b then b :: take_while f l' else [] end.
Fixpoint drop_while (f : Z -> bool) (l : list Z) : list Z :=
  match l with [] => [] | b :: l' => if f b then drop_while f l' else l end.

Lemma take_drop_while f l : take_while f l ++ drop_while f l = l.
Proof. induction l as [|b l IH]; [done|]. cbn. destruct (f b); cbn; [by rewrite IH|done]. Qed.

Definition is_sep (seps : list Z) (b : Z) : bool := bool_decide (b ∈ seps).
Definition not_sep (seps : list Z) (b : Z) : bool := negb (is_sep seps b).

(** The words of [l]: what is between separators, without empty words; [cur] is the word so far,
    reversed. *)
Fixpoint words_from (seps cur l : list Z) : list (list Z) :=
  match l with
  | [] => if decide (cur = []) then [] else [reverse cur]
  | b :: l' =>
      if is_sep seps b then (if decide (cur = []) then [] else [reverse cur]) ++ words_from seps [] l'
      else words_from seps (b :: cur) l'
  end.
Definition words (seps l : list Z) : list (list Z) := words_from seps [] l.

Lemma words_skip seps l : words seps l = words seps (drop_while (is_sep seps) l).
Proof. unfold words. induction l as [|b l IH]; [done|]. cbn. destruct (is_sep seps b) eqn:E; [done|]. cbn. by rewrite E. Qed.

Lemma words_from_word seps cur l :
  cur <> [] -> words_from seps cur l = (reverse cur ++ take_while (not_sep seps) l) :: words seps (drop_while (not_sep seps) l).
Proof.
  revert cur. induction l as [|b l IH]; intros cur Hc; cbn.
  - rewrite decide_False by done. by rewrite app_nil_r.
  - destruct (is_sep seps b) eqn:E; (assert (N : not_sep seps b = negb (is_sep seps b)) by done); rewrite E in N; cbn in N; rewrite N; cbn.
    + rewrite decide_False, app_nil_r by done. unfold words. cbn. by rewrite E.
    + rewrite IH by done. by rewrite reverse_cons, <-app_assoc.
Qed.

(** After the leading separators, a word and then the rest. *)
Lemma words_step seps b l :
  is_sep seps b = false ->
  words seps (b :: l) = take_while (not_sep seps) (b :: l) :: words seps (drop_while (not_sep seps) (b :: l)).
Proof.
  intros E. assert (N : not_sep seps b = true) by (unfold not_sep; by rewrite E). unfold words at 1.
  cbn [words_from take_while drop_while]. by rewrite E, N, words_from_word.
Qed.

Lemma span_loop_eq fuel m p l q sl (want : bool) :
  cstr m p l -> cstr m q sl -> 0 < q -> (length l < fuel)%nat ->
  let f := if want then is_sep sl else not_sep sl in
  span_loop fuel want p q m = Done (p + Z.of_nat (length (take_while f l))) m.
Proof.
  revert p l. induction fuel as [|fuel IH]; intros p l Hs Hq Hq0 Hf; [lia|]. cbn [span_loop]. destruct l as [|b l].
  - apply cstr_nil in Hs. rewrite (bind_Done _ _ _ _ _ (load_eq _ _ _ Hs)), decide_True by done. by rewrite Z.add_0_r.
  - apply cstring_cons in Hs as (E & Hb & Hs). cbn [length] in Hf. rewrite (bind_Done _ _ _ _ _ (load_eq _ _ _ E)), decide_False by lia.
    destruct (strchr_in m q sl b Hq Hb Hq0) as (w & Ew & Hw). rewrite (bind_Done _ _ _ _ _ Ew).
    assert (Hi : bool_decide (w <> 0) = is_sep sl b) by (unfold is_sep; by apply bool_decide_ext). rewrite Hi. cbn [take_while].
    assert (Hi' : Bool.eqb (is_sep sl b) want = (if want then is_sep sl else not_sep sl) b) by (unfold not_sep; by destruct want, (is_sep sl b)).
    rewrite Hi'. destruct ((if want then is_sep sl else not_sep sl) b); [|by rewrite Z.add_0_r].
    rewrite (IH (p + 1) l Hs Hq Hq0) by lia. cbn [length]. f_equal. lia.
Qed.

(** [m'] differs from [m] only between [lo] and [hi]. *)
Definition agree (m m' : mem) (lo hi : Z) : Prop := forall a, ~ (lo <= a < hi) -> m' !! a = m !! a.

Lemma agree_refl m lo hi : agree m m lo hi.
Proof. done. Qed.
Lemma agree_trans m1 m2 m3 lo hi lo' hi' :
  agree m1 m2 lo hi -> agree m2 m3 lo' hi' -> lo <= lo' -> hi' <= hi -> agree m1 m3 lo hi.
Proof. intros H1 H2 ? ? a Ha. rewrite H2 by lia. by apply H1. Qed.
Lemma agree_holds m m' lo hi p l : agree m m' lo hi -> holds m p l -> p + Z.of_nat (length l) <= lo \/ hi <= p -> holds m' p l.
Proof. intros A H Ho i b E. pose proof (lookup_lt_Some _ _ _ E). rewrite A by lia. by apply H. Qed.
Lemma agree_cstr m m' lo hi p l : agree m m' lo hi -> cstr m p l -> p + Z.of_nat (length l) < lo \/ hi <= p -> cstr m' p l.
Proof. intros A [H Hb] Ho. split; [|done]. apply (agree_holds m m' lo hi); [done..|]. rewrite length_app. cbn. lia. Qed.

Lemma take_while_all f l b : b ∈ take_while f l -> f b = true.
Proof.
  induction l as [|c l IH]; [by intros ?%elem_of_nil|]. cbn. destruct (f c) eqn:E; [|by intros ?%elem_of_nil].
  intros [->|?]%elem_of_cons; [done|by apply IH].
Qed.

Lemma drop_while_head f l b l' : drop_while f l = b :: l' -> f b = false.
Proof. induction l as [|c l IH]; [done|]. cbn. destruct (f c) eqn:E; [done|]. by intros [= -> _]. Qed.

(** One call of [strtok_r] on the string [l] at [p]: no word is left, or the first word is at [a],
    terminated in place, and the words of [r], where the search goes on, are the others. *)
Lemma strtok_step m string seps context p l sl :
  (if decide (string <> 0) then string else context) = p -> 0 < p -> cstr m p l -> 0 < seps -> cstr m seps sl ->
  (words sl l = [] /\ strtok_r string seps context m = Done (0, 0) m) \/
  exists a w c m', strtok_r string seps context m = Done (a, c) m' /\ p <= a /\
    a + Z.of_nat (length w) <= p + Z.of_nat (length l) /\ cstr m' a w /\
    agree m m' p (p + Z.of_nat (length l)) /\
    ((c = 0 /\ words sl l = [w]) \/
     exists r, words sl l = w :: words sl r /\ a + Z.of_nat (length w) < c /\ cstr m' c r /\
       c + Z.of_nat (length r) = p + Z.of_nat (length l)).
Proof.
  intros Hp Hp0 Hs Hq Hsl. unfold strtok_r. rewrite Hp, decide_False by lia. rewrite (bind_Done _ _ _ _ _ (scan_eq m)).
  pose proof (cstr_size _ _ _ Hs) as Hsz.
  rewrite (bind_Done _ _ _ _ _ (span_loop_eq (S (size m)) m p l seps sl true Hs Hsl Hq ltac:(lia))). cbn [negb].
  rewrite words_skip. pose proof (take_drop_while (is_sep sl) l) as Hl. pose proof (f_equal length Hl) as Hlen. rewrite length_app in Hlen.
  rewrite <-Hl in Hs. apply cstr_app in Hs as (_ & _ & Hs). set (a := p + Z.of_nat (length (take_while (is_sep sl) l))) in *.
  destruct (drop_while (is_sep sl) l) as [|b l'] eqn:Ed.
  { left. apply cstr_nil in Hs. rewrite (bind_Done _ _ _ _ _ (load_eq _ _ _ Hs)). by rewrite decide_True. }
  right. apply drop_while_head in Ed. rewrite (words_step sl b l' Ed).
  rewrite (bind_Done _ _ _ b m) by (apply load_eq; by apply cstring_cons in Hs as (? & _)).
  rewrite decide_False by (apply cstring_cons in Hs as (_ & ? & _); lia).
  rewrite (bind_Done _ _ _ _ _ (span_loop_eq (S (size m)) m a (b :: l') seps sl false Hs Hsl Hq ltac:(lia))).
  pose proof (take_drop_while (not_sep sl) (b :: l')) as Hl2. pose proof (f_equal length Hl2) as Hlen2. rewrite length_app in Hlen2.
  rewrite <-Hl2 in Hs. set (w := take_while (not_sep sl) (b :: l')) in *. apply cstr_app in Hs as (Hw & Hnz & Hs).
  destruct (drop_while (not_sep sl) (b :: l')) as [|c r] eqn:Er.
  - apply cstr_nil in Hs. rewrite (bind_Done _ _ _ _ _ (load_eq _ _ _ Hs)), decide_True by done.
    exists a, w, 0, m. split; [done|]. split; [lia|]. split; [cbn [length] in *; lia|]. split; [|split; [apply agree_refl|left; done]].
    split; [|done]. apply holds_app. split; [done|]. apply holds_cons. split; [done|]. intros i ? ?; done.
  - pose proof Hs as Hs'. apply cstring_cons in Hs as (Ec & Hc & Hr). rewrite (bind_Done _ _ _ _ _ (load_eq _ _ _ Ec)), decide_False by lia.
    rewrite (bind_Done _ _ _ _ _ (mstore_eq m _ 0 ltac:(by eexists) ltac:(by split))). cbn [length] in Hlen2.
    change (<[a + Z.of_nat (length w) := 0]> m) with (write (a + Z.of_nat (length w)) [0] m).
    eexists a, w, _, _. split; [reflexivity|]. split; [lia|]. split; [cbn [length] in *; lia|]. split; [|split].
    + split; [|done]. apply holds_app. split; [apply holds_write_out; [done|lia]|apply holds_write].
    + intros x Hx. apply write_out. cbn [length] in *. lia.
    + right. exists r. split; [|split; [lia|]; split; [apply cstr_write_out; [done|cbn; lia]|cbn [length] in *; lia]].
      f_equal. apply drop_while_head in Er. unfold not_sep in Er. apply negb_false_iff in Er. unfold words at 1. cbn. by rewrite Er.
Qed.

(** ** Reading numbers *)

Definition is_digit (d : Z) : Prop := 0 <= d < 10.
(** The value of a list of digits. *)
Definition dec_value (ds : list Z) : Z := foldl (fun v d => v * 10 + d) 0 ds.

Lemma digit_of_eq d : is_digit d -> digit_of (48 + d) = Some d.
Proof. unfold is_digit, digit_of. intros Hd. assert (s8 (48 + d) = 48 + d) as -> by (unfold s8; dlia). rewrite decide_True by lia. f_equal. lia. Qed.

Lemma foldl_ge ds v : Forall is_digit ds -> 0 <= v -> v <= foldl (fun v d => v * 10 + d) v ds.
Proof.
  revert v. induction ds as [|d ds IH]; intros v Hd Hv; cbn; [lia|]. apply Forall_cons in Hd as [Hd Hds]. unfold is_digit in Hd.
  etrans; [|apply IH; [done|lia]]. lia.
Qed.

Lemma atoi_loop_eq fuel m p ds v :
  cstr m p ((fun d => 48 + d) <$> ds) -> Forall is_digit ds -> (length ds < fuel)%nat -> 0 <= v ->
  foldl (fun v d => v * 10 + d) v ds < 2 ^ 32 ->
  atoi_loop fuel p v m = Done (foldl (fun v d => v * 10 + d) v ds) m.
Proof.
  revert p ds v. induction fuel as [|fuel IH]; intros p ds v Hs Hd Hf Hv Hb; [lia|]. cbn [atoi_loop]. destruct ds as [|d ds].
  - apply cstr_nil in Hs. by rewrite (bind_Done _ _ _ _ _ (load_eq _ _ _ Hs)), decide_True.
  - apply cstring_cons in Hs as (E & Hnz & Hs). apply Forall_cons in Hd as [Hd Hds]. cbn [foldl length] in *.
    rewrite (bind_Done _ _ _ _ _ (load_eq _ _ _ E)), decide_False by (unfold is_digit in Hd; lia). rewrite digit_of_eq by done.
    unfold is_digit in Hd. pose proof (foldl_ge ds (v * 10 + d) Hds ltac:(lia)). rewrite u32_small by lia. apply IH; try done; lia.
Qed.

(** The byte a string starts with: its terminator when it is empty. *)
Definition first (l : list Z) : Z := match l with [] => 0 | b :: _ => b end.

Lemma cstr_first m p l : cstr m p l -> m !! p = Some (first l).
Proof. destruct l; [by intros ?%cstr_nil|by intros (? & _)%cstring_cons]. Qed.

Lemma skip_space_eq fuel m p l1 l2 :
  cstr m p (l1 ++ l2) -> (length l1 < fuel)%nat -> Forall (fun b => is_space b = true) l1 -> is_space (first l2) = false ->
  skip_space fuel p m = Done (p + Z.of_nat (length l1)) m.
Proof.
  revert p l1. induction fuel as [|fuel IH]; intros p l1 Hs Hf Hsp Hn; [lia|]. cbn [skip_space]. destruct l1 as [|b l1].
  - rewrite (bind_Done _ _ _ _ _ (load_eq _ _ _ (cstr_first _ _ _ Hs))). cbn [app]. by rewrite Hn, Z.add_0_r.
  - apply Forall_cons in Hsp as [Hb Hsp]. apply cstring_cons in Hs as (E & _ & Hs). rewrite (bind_Done _ _ _ _ _ (load_eq _ _ _ E)), Hb.
    cbn [length] in *. rewrite (IH (p + 1) l1 Hs) by (done || lia). f_equal. lia.
Qed.

(** Leading blanks, a sign and digits are read as the number they denote. *)
Lemma atoi_spec m p blanks (neg : bool) ds :
  cstr m p (blanks ++ (if neg then [45] else []) ++ ((fun d => 48 + d) <$> ds)) ->
  Forall (fun b => is_space b = true) blanks -> Forall is_digit ds -> dec_value ds < 2 ^ 31 + (if neg then 1 else 0) ->
  atoi p m = Done (if neg then - dec_value ds else dec_value ds) m.
Proof.
  intros Hs Hsp Hd Hv. pose proof (cstr_size _ _ _ Hs) as Hsz. rewrite !length_app, length_fmap in Hsz.
  unfold atoi. rewrite (bind_Done _ _ _ _ _ (scan_eq m)). set (l := _ ++ _) in Hs at 2.
  assert (Hf : is_space (first l) = false /\ (first l = 45 <-> neg = true) /\ first l <> 43).
  { unfold l. destruct neg; [done|]. destruct ds as [|d ds]; [done|]. apply Forall_cons in Hd as [Hd _]. unfold is_digit in Hd. cbn.
    unfold is_space. rewrite bool_decide_eq_false_2 by lia. split; [done|]. split; [split; [lia|done]|lia]. }
  destruct Hf as (Hf & H45 & H43). rewrite (bind_Done _ _ _ _ _ (skip_space_eq (S (size m)) m p blanks l Hs ltac:(lia) Hsp Hf)).
  apply cstr_app in Hs as (_ & _ & Hs). rewrite (bind_Done _ _ _ _ _ (load_eq _ _ _ (cstr_first _ _ _ Hs))).
  pose proof (foldl_ge ds 0 Hd ltac:(lia)) as Hge. fold (dec_value ds) in Hge. unfold l in Hs. apply cstr_app in Hs as (_ & _ & Hs).
  rewrite (bind_Done _ _ m (dec_value ds) m).
  2: { apply atoi_loop_eq; [|done|lia|lia|fold (dec_value ds); destruct neg; lia].
       destruct neg; [rewrite decide_True by tauto|rewrite decide_False by (intros [?%H45|?]; done)]; cbn [length] in Hs; [done|by rewrite Z.add_0_r in Hs]. }
  destruct neg; [rewrite bool_decide_eq_true_2 by tauto|rewrite bool_decide_eq_false_2 by (intros ?%H45; done)];
    unfold mret, M_ret; f_equal; unfold s32, u32; dlia.
Qed.

End LibcStr.
