(* ===== verification/Printf.v ===== *)
(** * Formatted output: lib/libc/__printf.c and snprintf.c

    The state machine that reads a format, one character at a time, and sends text to a client; the
    client of [snprintf] is a buffer.  The arguments are the words of the argument list, in their
    order. *)

From S2P Require Import Prelude Libc.
Import Libc.

Module Printf.

(** ** State *)

Inductive argsize := INTSZ | LONGSZ.

Record PF := mkPF {
  ap : list Z;
  charcount : Z;
  in_pct : bool;
  asize : argsize;
  num : Z;
  sign : Z;
  spacing : Z;
  rightspc : bool;
  fillchar : Z;
  base : Z;
  baseprefix : bool;
  altformat : bool;
}.

Definition set_ap x (p : PF) : PF := mkPF x (charcount p) (in_pct p) (asize p) (num p) (sign p) (spacing p)
  (rightspc p) (fillchar p) (base p) (baseprefix p) (altformat p).
Definition set_charcount x (p : PF) : PF := mkPF (ap p) x (in_pct p) (asize p) (num p) (sign p) (spacing p)
  (rightspc p) (fillchar p) (base p) (baseprefix p) (altformat p).
Definition set_in_pct x (p : PF) : PF := mkPF (ap p) (charcount p) x (asize p) (num p) (sign p) (spacing p)
  (rightspc p) (fillchar p) (base p) (baseprefix p) (altformat p).
Definition set_asize x (p : PF) : PF := mkPF (ap p) (charcount p) (in_pct p) x (num p) (sign p) (spacing p)
  (rightspc p) (fillchar p) (base p) (baseprefix p) (altformat p).
Definition set_num sg x (p : PF) : PF := mkPF (ap p) (charcount p) (in_pct p) (asize p) x sg (spacing p)
  (rightspc p) (fillchar p) (base p) (baseprefix p) (altformat p).
Definition set_spacing x (p : PF) : PF := mkPF (ap p) (charcount p) (in_pct p) (asize p) (num p) (sign p) x
  (rightspc p) (fillchar p) (base p) (baseprefix p) (altformat p).
Definition set_rightspc x (p : PF) : PF := mkPF (ap p) (charcount p) (in_pct p) (asize p) (num p) (sign p) (spacing p)
  x (fillchar p) (base p) (baseprefix p) (altformat p).
Definition set_fillchar x (p : PF) : PF := mkPF (ap p) (charcount p) (in_pct p) (asize p) (num p) (sign p) (spacing p)
  (rightspc p) x (base p) (baseprefix p) (altformat p).
Definition set_base x (p : PF) : PF := mkPF (ap p) (charcount p) (in_pct p) (asize p) (num p) (sign p) (spacing p)
  (rightspc p) (fillchar p) x (baseprefix p) (altformat p).
Definition set_baseprefix x (p : PF) : PF := mkPF (ap p) (charcount p) (in_pct p) (asize p) (num p) (sign p) (spacing p)
  (rightspc p) (fillchar p) (base p) x (altformat p).
Definition set_altformat x (p : PF) : PF := mkPF (ap p) (charcount p) (in_pct p) (asize p) (num p) (sign p) (spacing p)
  (rightspc p) (fillchar p) (base p) (baseprefix p) x.

(** [__pf_endfield]. *)
Definition endfield (p : PF) : PF := mkPF (ap p) (charcount p) false INTSZ 0 0 0 false 32 0 false false.

Definition NUMBER_BUF_SIZE : Z := 4 * 8 / 3 + 2.

(** The text of a string in a local array: up to its first zero. *)
Fixpoint text (l : list Z) : list Z :=
  match l with [] => [] | b :: l' => if decide (b = 0) then [] else b :: text l' end.

(** "0123456789abcdef" *)
Definition digit_chars : list Z := [48; 49; 50; 51; 52; 53; 54; 55; 56; 57; 97; 98; 99; 100; 101; 102].
(** "#-ql0123456789" and "doupx" *)
Definition modifiers : list Z := [35; 45; 113; 108; 48; 49; 50; 51; 52; 53; 54; 55; 56; 57].
Definition int_types : list Z := [100; 111; 117; 112; 120].

Section printf.
(** The client: its state, the memory in it, and the function that takes the text. *)
Context {S : Type} (memL : lens S mem) (sendfunc : list Z -> M S unit).

Abbreviation PM := (M (PF * S)).
Definition pfL : lens (PF * S) PF := Lens fst (fun p s => (p, snd s)).
Definition clientL : lens (PF * S) S := Lens snd (fun c s => (fst s, c)).

Definition getp {A} (f : PF -> A) : PM A := gets (fun s => f (fst s)).
Definition modp (f : PF -> PF) : PM unit := modify (fun s => (f (fst s), snd s)).
Definition mem_op {A} (m : M mem A) : PM A := zoom clientL (zoom memL m).

Definition pf_print (txt : list Z) : PM unit :=
  zoom clientL (sendfunc txt) ;; modp (fun p => set_charcount (s32 (charcount p + Z.of_nat (length txt))) p).

Definition pf_modifier (ch : Z) : PM unit :=
  if decide (ch = 35) then modp (set_altformat true)
  else if decide (ch = 45) then modp (set_rightspc true)
  else if decide (ch = 108 \/ ch = 113) then modp (set_asize LONGSZ)
  else if decide (ch = 48) then
    modp (fun p => if decide (spacing p > 0) then set_spacing (s32 (spacing p * 10)) p else set_fillchar 48 p)
  else
    kassert (bool_decide (48 < ch <= 57)) ;;
    modp (fun p => set_spacing (s32 (spacing p * 10 + (ch - 48))) p).

(** [va_arg] *)
Definition va_arg : PM Z :=
  l ← getp ap;
  match l with
  | [] => undef
  | w :: l' => modp (set_ap l') ;; mret w
  end.

(** [int] and [long] have the same size. *)
Definition pf_getnum (ch : Z) : PM unit :=
  w ← va_arg;
  if decide (ch = 100) then
    let signednum := s32 w in
    if decide (signednum < 0) then modp (set_num (-1) (u32 (- signednum)))
    else modp (fun p => set_num (sign p) signednum p)
  else modp (fun p => set_num (sign p) (u32 w) p).

Definition pf_setbase (ch : Z) : PM unit :=
  (if decide (ch = 100 \/ ch = 117) then modp (set_base 10)
   else if decide (ch = 120 \/ ch = 112) then modp (set_base 16)
   else if decide (ch = 111) then modp (set_base 8)
   else mret tt) ;;
  alt ← getp altformat;
  if alt || bool_decide (ch = 112) then modp (set_baseprefix true) else mret tt.

Definition pf_fill (spc : Z) : PM unit :=
  f ← getp fillchar;
  for_n (Z.to_nat spc) 0 (fun _ => pf_print [u8 f]).

Definition pf_printstuff (prefix prefix2 stuff : list Z) : PM unit :=
  let len := s32 (Z.of_nat (length prefix) + Z.of_nat (length prefix2) + Z.of_nat (length stuff)) in
  sp ← getp spacing;
  right ← getp rightspc;
  f ← getp fillchar;
  let spc := if decide (sp > len) then sp - len else 0 in
  (if bool_decide (spc > 0) && negb right && bool_decide (f <> 48) then pf_fill spc else mret tt) ;;
  pf_print prefix ;;
  pf_print prefix2 ;;
  (if bool_decide (spc > 0) && negb right && bool_decide (f = 48) then pf_fill spc else mret tt) ;;
  pf_print stuff ;;
  (if bool_decide (spc > 0) && right then pf_fill spc else mret tt).

(** The conversion from right to left; where it stopped, one slot before the number, and the
    buffer. *)
Fixpoint digit_loop (fuel : nat) (b x xnum : Z) (buf : list Z) : PM (Z * list Z) :=
  match fuel with
  | O => nofuel
  | Datatypes.S fuel' =>
      if decide (b = 0) then undef
      else
        d ← access (zlookup digit_chars (xnum mod b));
        buf ← access (zinsert buf x d);
        if decide (xnum / b > 0) then digit_loop fuel' b (x - 1) (xnum / b) buf else mret (x - 1, buf)
  end.

(** A base is at least 2 and the number has 32 bits. *)
Definition pf_printnum : PM unit :=
  p ← getp id;
  let last := NUMBER_BUF_SIZE - 1 in
  buf ← access (zinsert (replicate (Z.to_nat NUMBER_BUF_SIZE) 0) last 0);
  r ← digit_loop 32 (base p) (last - 1) (num p) buf;
  let x := text (drop (Z.to_nat (fst r + 1)) (snd r)) in
  let bprefix := if baseprefix p && bool_decide (base p = 16) then [48; 120]
                 else if baseprefix p && bool_decide (base p = 8) then [48] else [] in
  let sprefix := if decide (sign p <> 0) then [45] else [] in
  pf_printstuff sprefix bprefix x.

(** "(null)" *)
Definition null_text : list Z := [40; 110; 117; 108; 108; 41].

Definition get_string (p : Z) : PM (list Z) := n ← mem_op (strlen p); mem_op (loads (Z.to_nat n) p).

Definition pf_send (ch : Z) : PM unit :=
  kassert (bool_decide (ch <> 0)) ;;
  pct ← getp in_pct;
  if negb pct && bool_decide (ch <> 37) then pf_print [u8 ch]
  else if negb pct then modp (set_in_pct true)
  else if bool_decide (ch ∈ modifiers) then pf_modifier ch
  else if bool_decide (ch ∈ int_types) then
    pf_getnum ch ;; pf_setbase ch ;; pf_printnum ;; modp endfield
  else if decide (ch = 115) then
    str ← va_arg;
    t ← (if decide (str = 0) then mret null_text else get_string str);
    pf_printstuff [] [] t ;; modp endfield
  else
    x ← (if decide (ch = 99) then va_arg else mret ch);
    pf_printstuff [] [] (text [u8 x; 0]) ;; modp endfield.

Fixpoint vprintf_loop (fuel : nat) (format i : Z) : PM unit :=
  match fuel with
  | O => nofuel
  | Datatypes.S fuel' =>
      c ← mem_op (load (format + i));
      if decide (c = 0) then mret tt else pf_send (s8 c) ;; vprintf_loop fuel' format (i + 1)
  end.

Definition pf_start (args : list Z) : PF := endfield (mkPF args 0 false INTSZ 0 0 0 false 32 0 false false).

(** [__vprintf]: the number of characters that were sent. *)
Definition vprintf (format : Z) (args : list Z) : M S Z := fun s =>
  match (n ← mem_op scan; vprintf_loop n format 0 ;; getp charcount) (pf_start args, s) with
  | Done c (_, s') => Done c s'
  | Fail e (_, s') => Fail e s'
  | Panic => Panic | Undef => Undef | NoFuel => NoFuel
  end.

End printf.

(** ** Printing into a buffer *)

Record SNP := mkSNP { buf : Z; buflen : Z; bufpos : Z }.

Definition snp_memL : lens (mem * SNP) mem := Lens fst (fun m s => (m, snd s)).

Fixpoint snprintf_send (data : list Z) : M (mem * SNP) unit :=
  match data with
  | [] => mret tt
  | b :: data' =>
      snp ← gets snd;
      (if decide (bufpos snp < buflen snp) then
         zoom snp_memL (store (buf snp + bufpos snp) b) ;;
         modify (fun s => (fst s, mkSNP (buf snp) (buflen snp) (u32 (bufpos snp + 1))))
       else mret tt) ;;
      snprintf_send data'
  end.

(** [vsnprintf]; [snprintf] hands its arguments on. *)
Definition vsnprintf (b len fmt : Z) (args : list Z) : M mem Z := fun m =>
  match vprintf snp_memL snprintf_send fmt args (m, mkSNP b (if decide (len = 0) then 0 else len - 1) 0) with
  | Done chars (m', snp) =>
      ((if decide (len > 0) then store (b + bufpos snp) 0 else mret tt) ;; mret chars) m'
  | Fail e (m', _) => Fail e m'
  | Panic => Panic | Undef => Undef | NoFuel => NoFuel
  end.
Definition snprintf (b len fmt : Z) (args : list Z) : M mem Z := vsnprintf b len fmt args.

End Printf.
