(* ===== verification/PrintfSpec.v ===== *)
(** * What formatted output prints

    Formats are given as lists of items, each with its argument: the text, a number in a base, a
    string, a character, with the width and the flags; what an item prints is defined on lists.  The
    state machine prints the same, for every client. *)

From S2P Require Import Prelude Libc LibcStr Printf.
Import Libc LibcStr Printf.

Module PrintfSpec.

(** ** The reference *)

(** The digits of [n] in base [b], the most significant first. *)
Fixpoint base_digits (fuel : nat) (b n : Z) : list Z :=
  match fuel with
  | O => []
  | S fuel' => (if decide (n / b > 0) then base_digits fuel' b (n / b) else []) ++ [n mod b]
  end.
Definition digits (b n : Z) : list Z := base_digits 32 b n.

(** '0' to '9', then 'a' to 'f'. *)
Definition digit_char (d : Z) : Z := if decide (d < 10) then 48 + d else 87 + d.

Record flags := mkflags { f_alt : bool; f_left : bool; f_zero : bool; f_long : bool; f_width : list Z }.

Inductive numtype := Dec | Uns | Oct | Hex | Ptr.

Inductive item :=
  | Lit (b : Z)
  | Num (f : flags) (t : numtype) (w : Z)
  | Str (f : flags) (p : Z) (l : list Z)
  | Chr (f : flags) (w : Z)
  | Oth (f : flags) (b : Z).

Definition width (f : flags) : Z := dec_value (f_width f).

(** A prefix and a text in a field: aligned to the left, padded with zeros after the prefix, or aligned to the right. *)
Definition field (f : flags) (pre body : list Z) : list Z :=
  let pad := Z.to_nat (width f - Z.of_nat (length pre) - Z.of_nat (length body)) in
  if f_left f then pre ++ body ++ replicate pad 32
  else if f_zero f then pre ++ replicate pad 48 ++ body
  else replicate pad 32 ++ pre ++ body.

Definition num_base (t : numtype) : Z := match t with Dec | Uns => 10 | Oct => 8 | Hex | Ptr => 16 end.
Definition num_value (t : numtype) (w : Z) : Z := match t with Dec => Z.abs (s32 w) | _ => u32 w end.
Definition num_prefix (f : flags) (t : numtype) (w : Z) : list Z :=
  match t with
  | Dec => if decide (s32 w < 0) then [45] else []
  | Uns => []
  | Oct => if f_alt f then [48] else []
  | Hex => if f_alt f then [48; 120] else []
  | Ptr => [48; 120]
  end.

(** What an item prints, as man/libc/printf.html has it; a character that is no conversion is printed as such. *)
Definition render (i : item) : list Z :=
  match i with
  | Lit b => [b]
  | Num f t w => field f (num_prefix f t w) (digit_char <$> digits (num_base t) (num_value t w))
  | Str f p l => field f [] l
  | Chr f w => field f [] [u8 w]
  | Oth f b => field f [] [b]
  end.

(** How it is written in a format, and the words it takes from the arguments. *)
Definition flag_text (f : flags) : list Z :=
  (if f_alt f then [35] else []) ++ (if f_left f then [45] else []) ++ (if f_zero f then [48] else []) ++
  ((fun d => 48 + d) <$> f_width f) ++ (if f_long f then [108] else []).
Definition num_char (t : numtype) : Z := match t with Dec => 100 | Uns => 117 | Oct => 111 | Hex => 120 | Ptr => 112 end.

Definition item_text (i : item) : list Z :=
  match i with
  | Lit b => [b]
  | Num f t _ => 37 :: flag_text f ++ [num_char t]
  | Str f _ _ => 37 :: flag_text f ++ [115]
  | Chr f _ => 37 :: flag_text f ++ [99]
  | Oth f b => 37 :: flag_text f ++ [b]
  end.
Definition item_args (i : item) : list Z :=
  match i with
  | Lit _ | Oth _ _ => []
  | Num _ _ w | Chr _ w => [w]
  | Str _ p _ => [p]
  end.

(** A width without leading zeros that is an [int]; the flags for left alignment and for zeros are not both given:
    the machine would then pad on the right with zeros. *)
Definition flags_ok (f : flags) : Prop :=
  f_left f && f_zero f = false /\ Forall is_digit (f_width f) /\ (match f_width f with d :: _ => d <> 0 | [] => True end) /\ width f < 2 ^ 31.

(** A string argument is [NULL], or in the memory.  The character of a "%c" is not 0, which the machine does not
    print, and "%X" is left out: the manual has it as uppercase hex, the machine prints an "X" and takes no argument. *)
Definition item_ok (m : mem) (i : item) : Prop :=
  match i with
  | Lit b => 0 < b < 2 ^ 8 /\ b <> 37
  | Num f _ _ => flags_ok f
  | Chr f w => flags_ok f /\ u8 w <> 0
  | Str f p l => flags_ok f /\ Z.of_nat (length l) < 2 ^ 31 /\ (if decide (p = 0) then l = null_text else cstr m p l)
  | Oth f b => flags_ok f /\ 0 < b < 2 ^ 7 /\ (b ∉ modifiers ++ int_types ++ [115; 99; 88])
  end.

(** ** Numbers *)

Lemma base_digits_value fuel b n : 2 <= b -> 0 <= n < b ^ Z.of_nat fuel -> (0 < fuel)%nat ->
  foldl (fun v d => v * b + d) 0 (base_digits fuel b n) = n.
Proof.
  intros Hb. revert n. induction fuel as [|fuel IH]; intros n Hn Hf; [lia|]. cbn [base_digits]. rewrite foldl_app. cbn [foldl].
  pose proof (Z.div_mod n b ltac:(lia)). destruct (decide (n / b > 0)) as [D|D].
  - assert (Hq : n / b < b ^ Z.of_nat fuel) by (apply Z.div_lt_upper_bound; [lia|]; rewrite Nat2Z.inj_succ, Z.pow_succ_r in Hn; lia).
    destruct fuel as [|fuel]; [rewrite Z.pow_0_r in Hq; lia|]. rewrite IH by lia. lia.
  - pose proof (Z.div_pos n b ltac:(lia) ltac:(lia)). cbn [foldl]. assert (n / b = 0) by lia. lia.
Qed.

Lemma base_digits_range fuel b n : 2 <= b -> Forall (fun d => 0 <= d < b) (base_digits fuel b n).
Proof.
  intros Hb. revert n. induction fuel as [|fuel IH]; intros n; [constructor|]. cbn [base_digits]. apply Forall_app. split.
  - case_decide; [apply IH|constructor].
  - constructor; [apply Z.mod_pos_bound; lia|constructor].
Qed.

Lemma base_digits_length fuel b n k : 2 <= b -> 0 <= n < b ^ Z.of_nat k -> (0 < k)%nat -> (length (base_digits fuel b n) <= k)%nat.
Proof.
  intros Hb. revert n k. induction fuel as [|fuel IH]; intros n k Hn Hk; [cbn; lia|]. cbn [base_digits]. rewrite length_app. cbn [length].
  case_decide as D; [|cbn [length]; lia].
  destruct k as [|[|k]]; [lia|exfalso; change (Z.of_nat 1) with 1 in Hn; rewrite Z.pow_1_r in Hn; rewrite Z.div_small in D; lia|].
  assert (Hq : n / b < b ^ Z.of_nat (S k)) by (apply Z.div_lt_upper_bound; [lia|]; rewrite Nat2Z.inj_succ, Z.pow_succ_r in Hn; lia).
  specialize (IH (n / b) (S k) ltac:(lia) ltac:(lia)). lia.
Qed.

Lemma digits_length b n : 8 <= b -> 0 <= n < 2 ^ 32 -> (length (digits b n) <= 11)%nat.
Proof.
  intros Hb Hn. apply base_digits_length; [lia| |lia]. split; [lia|]. apply Z.lt_le_trans with (8 ^ Z.of_nat 11); [lia|].
  apply Z.pow_le_mono_l. lia.
Qed.

Lemma digits_value b n : 2 <= b -> 0 <= n < 2 ^ 32 -> foldl (fun v d => v * b + d) 0 (digits b n) = n.
Proof.
  intros Hb Hn. apply base_digits_value; [done| |lia]. split; [lia|]. apply Z.lt_le_trans with (2 ^ Z.of_nat 32); [lia|].
  apply Z.pow_le_mono_l. lia.
Qed.

Lemma digit_chars_lookup d : 0 <= d < 16 -> zlookup digit_chars d = Some (digit_char d).
Proof.
  intros Hd. assert (H : forall k : nat, (k < 16)%nat -> zlookup digit_chars (Z.of_nat k) = Some (digit_char (Z.of_nat k))).
  { intros k Hk. do 16 (destruct k as [|k]; [done|]). lia. }
  rewrite <-(Z2Nat.id d) by lia. apply H. lia.
Qed.

Lemma digit_char_range d : 0 <= d < 16 -> 0 < digit_char d < 2 ^ 8.
Proof. intros Hd. unfold digit_char. case_decide; lia. Qed.

(** The characters of a list of digits, and that they are the text of a buffer they are in. *)
Lemma text_app l1 l2 : Forall (fun b => 0 < b < 2 ^ 8) l1 -> text (l1 ++ 0 :: l2) = l1.
Proof.
  induction l1 as [|b l1 IH]; intros H; [done|]. apply Forall_cons in H as [Hb H]. cbn. rewrite decide_False by lia. by rewrite IH.
Qed.

(** ** Clients *)

(** A client takes any text, and the strings that are to be printed stay readable. *)
Class Client {S} (memL : lens S mem) (sendfunc : list Z -> M S unit) := {
  good : S -> Prop;
  emit : list Z -> S -> S;
  emit_good : forall l s, good s -> good (emit l s);
  emit_app : forall l1 l2 s, emit (l1 ++ l2) s = emit l2 (emit l1 s);
  emit_nil : forall s, emit [] s = s;
  send_emit : forall l s, good s -> Forall byte l -> sendfunc l s = Done tt (emit l s);
  client_lens : LensLaws memL;
}.

Section machine.
Context {S : Type} (memL : lens S mem) (sendfunc : list Z -> M S unit) `{!Client memL sendfunc}.
Implicit Types (s : S) (x : PF * S).

(** The state after the text [l]. *)
Definition out (l : list Z) x : PF * S := (set_charcount (s32 (charcount (fst x) + Z.of_nat (length l))) (fst x), emit l (snd x)).

Lemma s32_add a b : s32 (s32 a + b) = s32 (a + b).
Proof. unfold s32. dlia. Qed.

Lemma out_app l1 l2 x : out l2 (out l1 x) = out (l1 ++ l2) x.
Proof.
  unfold out. cbn [fst snd]. f_equal; [|by rewrite emit_app]. unfold set_charcount at 1 3. cbn. rewrite s32_add, length_app.
  by rewrite Nat2Z.inj_add, Z.add_assoc.
Qed.

(** The count is an [int]. *)
Definition counted x : Prop := good (snd x) /\ s32 (charcount (fst x)) = charcount (fst x).

Lemma counted_out l x : counted x -> counted (out l x).
Proof. intros [Hg _]. split; [by apply emit_good|]. cbn. apply s32_small, s32_range. Qed.

Lemma out_nil x : counted x -> out [] x = x.
Proof. intros [_ Hc]. unfold out. cbn. rewrite emit_nil, Z.add_0_r, Hc. destruct x as [[] ?]. done. Qed.

Lemma pf_print_eq l x : counted x -> Forall byte l -> pf_print sendfunc l x = Done tt (out l x).
Proof.
  intros [Hg _] Hl. unfold pf_print. rewrite (bind_Done _ _ _ tt (fst x, emit l (snd x))); [done|].
  unfold zoom. cbn. rewrite (send_emit l (snd x) Hg Hl). done.
Qed.

Lemma getp_eq {A} (f : PF -> A) x : getp f x = Done (f (fst x)) x.
Proof. done. Qed.

Lemma pf_fill_eq n x : counted x -> byte (fillchar (fst x)) ->
  pf_fill sendfunc n x = Done tt (out (replicate (Z.to_nat n) (fillchar (fst x))) x).
Proof.
  intros Hc Hf. unfold pf_fill. rewrite (bind_Done _ _ _ _ _ (getp_eq fillchar x)). assert (Eu : u8 (fillchar (fst x)) = fillchar (fst x)) by (by apply Z.mod_small).
  rewrite Eu. generalize (fillchar (fst x)) Hf. intros c Hb. generalize 0 at 1. revert x Hc Hf Eu.
  induction (Z.to_nat n) as [|k IH]; intros x Hc Hf Eu i; cbn [for_n replicate]; [by rewrite out_nil|].
  rewrite (bind_Done _ _ _ _ _ (pf_print_eq [c] x Hc ltac:(by constructor))).
  rewrite IH; [by rewrite out_app|by apply counted_out|done..].
Qed.

(** The state at the start of an item, and after the flags. *)
Definition start (args : list Z) (cc : Z) : PF := mkPF args cc false INTSZ 0 0 0 false 32 0 false false.
Definition in_field (args : list Z) (cc : Z) (f : flags) : PF :=
  mkPF args cc true (if f_long f then LONGSZ else INTSZ) 0 0 (width f) (f_left f) (if f_zero f then 48 else 32) 0 false (f_alt f).

(** The padding is printed in one of three places, or not at all. *)
Lemma pad_eq (b : bool) n x :
  counted x -> byte (fillchar (fst x)) ->
  (if bool_decide (n > 0) && b then pf_fill sendfunc n else mret tt) x =
  Done tt (out (if b then replicate (Z.to_nat n) (fillchar (fst x)) else []) x).
Proof.
  intros Hc Hf. case_bool_decide as D; destruct b; cbn [andb]; try (by rewrite out_nil).
  - by apply pf_fill_eq.
  - replace (Z.to_nat n) with O by lia. by rewrite out_nil.
Qed.

Lemma printstuff_eq f pre pre2 body x :
  f_left f && f_zero f = false -> counted x -> spacing (fst x) = width f -> rightspc (fst x) = f_left f -> fillchar (fst x) = (if f_zero f then 48 else 32) ->
  Forall byte pre -> Forall byte pre2 -> Forall byte body -> Z.of_nat (length pre + length pre2 + length body) < 2 ^ 31 ->
  pf_printstuff sendfunc pre pre2 body x = Done tt (out (field f (pre ++ pre2) body) x).
Proof.
  intros Hlz Hc Hsp Hrt Hfl B1 B2 B3 Hlen. unfold pf_printstuff. rewrite s32_small by lia.
  rewrite (bind_Done _ _ _ _ _ (getp_eq spacing x)), (bind_Done _ _ _ _ _ (getp_eq rightspc x)), (bind_Done _ _ _ _ _ (getp_eq fillchar x)).
  rewrite Hsp, Hrt, Hfl. set (n := if decide (width f > _) then _ else _).
  assert (En : Z.to_nat n = Z.to_nat (width f - Z.of_nat (length (pre ++ pre2)) - Z.of_nat (length body)))
    by (unfold n; rewrite length_app; case_decide; lia).
  assert (Hb : byte (if f_zero f then 48 else 32)) by (by destruct (f_zero f)).
  rewrite <-!andb_assoc. rewrite (bind_Done _ _ _ _ _ (pad_eq _ n x Hc ltac:(by rewrite Hfl))). set (x1 := out _ x).
  assert (C1 : counted x1) by (by apply counted_out). rewrite (bind_Done _ _ _ _ _ (pf_print_eq pre x1 C1 B1)).
  rewrite (bind_Done _ _ _ _ _ (pf_print_eq pre2 _ (counted_out _ _ C1) B2)). unfold x1. rewrite !out_app.
  rewrite (bind_Done _ _ _ _ _ (pad_eq _ n _ (counted_out _ _ Hc) ltac:(cbn; by rewrite Hfl))), out_app.
  rewrite (bind_Done _ _ _ _ _ (pf_print_eq body _ (counted_out _ _ Hc) B3)), out_app.
  rewrite (pad_eq _ n _ (counted_out _ _ Hc) ltac:(cbn; by rewrite Hfl)), out_app. f_equal. f_equal.
  unfold field. rewrite <-En. cbn [fillchar fst out set_charcount]. rewrite Hfl.
  destruct (f_left f), (f_zero f); try done; cbn; rewrite ?app_nil_r, <-?app_assoc; done.
Qed.

(** ** Numbers *)

Lemma digit_loop_eq fuel b n k pre rest x :
  2 <= b <= 16 -> 0 <= n < b ^ Z.of_nat fuel -> (0 < fuel)%nat -> (length (base_digits fuel b n) <= k)%nat -> length pre = k ->
  exists pre', digit_loop (S := S) fuel b (Z.of_nat k - 1) n (pre ++ rest) x =
    Done (Z.of_nat (length pre') - 1, pre' ++ (digit_char <$> base_digits fuel b n) ++ rest) x.
Proof.
  intros Hb. revert n k pre rest. induction fuel as [|fuel IH]; intros n k pre rest Hn Hf Hk Hpre; [lia|].
  cbn [digit_loop base_digits] in *. rewrite length_app in Hk. cbn [length] in Hk. rewrite decide_False by lia.
  pose proof (Z.mod_pos_bound n b ltac:(lia)) as Hm. rewrite (bind_Done _ _ _ (digit_char (n mod b)) x) by (unfold access; by rewrite digit_chars_lookup by lia).
  destruct pre as [|c pre _] using rev_ind; [cbn in Hpre; lia|]. rewrite length_app in Hpre. cbn [length] in Hpre.
  assert (Ei : zinsert ((pre ++ [c]) ++ rest) (Z.of_nat k - 1) (digit_char (n mod b)) = Some (pre ++ digit_char (n mod b) :: rest)).
  { rewrite zinsert_in by (rewrite !length_app; cbn; lia). rewrite <-app_assoc. replace (Z.to_nat (Z.of_nat k - 1)) with (length pre + 0)%nat by lia.
    by rewrite insert_app_r. }
  rewrite (bind_Done _ _ _ (pre ++ digit_char (n mod b) :: rest) x) by (unfold access; by rewrite Ei).
  destruct (decide (n / b > 0)) as [D|D].
  - assert (Hq : n / b < b ^ Z.of_nat fuel) by (apply Z.div_lt_upper_bound; [lia|]; rewrite Nat2Z.inj_succ, Z.pow_succ_r in Hn; lia).
    assert (0 < fuel)%nat by (destruct fuel; [rewrite Z.pow_0_r in Hq|]; lia).
    destruct (IH (n / b) (length pre) pre (digit_char (n mod b) :: rest) ltac:(lia) ltac:(lia) ltac:(lia) eq_refl) as (pre' & E).
    exists pre'. replace (Z.of_nat k - 1 - 1) with (Z.of_nat (length pre) - 1) by lia. rewrite E. by rewrite fmap_app, <-app_assoc.
  - exists pre. cbn. unfold mret, M_ret. do 2 f_equal. lia.
Qed.

Lemma printnum_eq f x :
  f_left f && f_zero f = false -> counted x -> spacing (fst x) = width f -> rightspc (fst x) = f_left f -> fillchar (fst x) = (if f_zero f then 48 else 32) ->
  8 <= base (fst x) <= 16 -> 0 <= num (fst x) < 2 ^ 32 ->
  pf_printnum sendfunc x = Done tt (out (field f
    ((if decide (sign (fst x) <> 0) then [45] else []) ++
     (if baseprefix (fst x) && bool_decide (base (fst x) = 16) then [48; 120]
      else if baseprefix (fst x) && bool_decide (base (fst x) = 8) then [48] else []))
    (digit_char <$> digits (base (fst x)) (num (fst x)))) x).
Proof.
  intros Hlz Hc Hsp Hrt Hfl Hb Hn. unfold pf_printnum. rewrite (bind_Done _ _ _ _ _ (getp_eq id x)). unfold id.
  rewrite (bind_Done _ _ _ (replicate 11 0 ++ [0]) x) by done. pose proof (digits_length (base (fst x)) (num (fst x)) ltac:(lia) Hn) as Hl.
  assert (Hp : 2 ^ 32 <= base (fst x) ^ Z.of_nat 32) by (change (Z.of_nat 32) with 32; apply Z.pow_le_mono_l; lia).
  destruct (digit_loop_eq 32 (base (fst x)) (num (fst x)) 11 (replicate 11 0) [0] x ltac:(lia) ltac:(lia) ltac:(lia) Hl eq_refl) as (pre & E).
  change (NUMBER_BUF_SIZE - 1 - 1) with (Z.of_nat 11 - 1). rewrite (bind_Done _ _ _ _ _ E). cbn [fst snd].
  replace (Z.to_nat (Z.of_nat (length pre) - 1 + 1)) with (length pre) by lia. rewrite drop_app_length.
  assert (Hr : Forall (fun d => 0 <= d < 16) (digits (base (fst x)) (num (fst x)))).
  { eapply Forall_impl; [apply base_digits_range; lia|]. cbn. lia. }
  assert (Hch : Forall (fun c => 0 < c < 2 ^ 8) (digit_char <$> digits (base (fst x)) (num (fst x)))).
  { apply Forall_fmap. eapply Forall_impl; [exact Hr|]. intros d Hd. by apply digit_char_range. }
  rewrite text_app by done. apply printstuff_eq; try done.
  - case_decide; repeat constructor; done.
  - destruct (baseprefix (fst x)); cbn; [|constructor]. repeat case_bool_decide; repeat constructor; done.
  - eapply Forall_impl; [exact Hch|]. unfold byte. cbn. lia.
  - rewrite length_fmap. assert (H1 : Z.of_nat (length (if decide (sign (fst x) <> 0) then [45] else [])) <= 1) by (case_decide; cbn; lia).
    assert (H2 : Z.of_nat (length (if baseprefix (fst x) && bool_decide (base (fst x) = 16) then [48; 120]
      else if baseprefix (fst x) && bool_decide (base (fst x) = 8) then [48] else [])) <= 2)
      by (destruct (baseprefix (fst x)); cbn; [|lia]; repeat case_bool_decide; cbn; lia). lia.
Qed.

(** ** Items *)

Fixpoint send_all (l : list Z) : M (PF * S) unit :=
  match l with
  | [] => mret tt
  | b :: l' => pf_send memL sendfunc (s8 b) ;; send_all l'
  end.

Lemma send_all_app l1 l2 x : send_all (l1 ++ l2) x = (send_all l1 ;; send_all l2) x.
Proof.
  revert x. induction l1 as [|b l1 IH]; intros x; [done|]. cbn [send_all app]. rewrite bind_assoc_eq. unfold mbind, M_bind.
  destruct (pf_send _ _ _ x) as [[] x'|? ?| | |]; [apply IH|done..].
Qed.

Lemma send_all_one b x : send_all [b] x = pf_send memL sendfunc (s8 b) x.
Proof. cbn [send_all]. unfold mbind, M_bind. by destruct (pf_send _ _ _ x) as [[] ?|? ?| | |]. Qed.

Lemma digit_cases d : is_digit d -> d = 0 \/ d = 1 \/ d = 2 \/ d = 3 \/ d = 4 \/ d = 5 \/ d = 6 \/ d = 7 \/ d = 8 \/ d = 9.
Proof. unfold is_digit. lia. Qed.

(** The digits of a width. *)
Lemma send_width ds args cc sz v r fc alt s :
  Forall is_digit ds -> 0 <= v -> (v > 0 \/ match ds with d :: _ => d <> 0 | [] => True end) ->
  foldl (fun v d => v * 10 + d) v ds < 2 ^ 31 ->
  send_all ((fun d => 48 + d) <$> ds) (mkPF args cc true sz 0 0 v r fc 0 false alt, s) =
  Done tt (mkPF args cc true sz 0 0 (foldl (fun v d => v * 10 + d) v ds) r fc 0 false alt, s).
Proof.
  revert v. induction ds as [|d ds IH]; intros v Hd Hv Hz Hb; [done|]. apply Forall_cons in Hd as [Hd Hds]. cbn [fmap list_fmap send_all foldl] in *.
  pose proof (foldl_ge ds (v * 10 + d) Hds ltac:(unfold is_digit in Hd; lia)) as Hge.
  assert (E : pf_send memL sendfunc (s8 (48 + d)) (mkPF args cc true sz 0 0 v r fc 0 false alt, s) =
    Done tt (mkPF args cc true sz 0 0 (v * 10 + d) r fc 0 false alt, s)).
  { rewrite <-(s32_small (v * 10 + d)) by (unfold is_digit in Hd; lia). destruct (digit_cases d Hd) as [->|Hd'].
    - transitivity (modp (S := S) (fun p => if decide (spacing p > 0) then set_spacing (s32 (spacing p * 10)) p else set_fillchar 48 p)
        (mkPF args cc true sz 0 0 v r fc 0 false alt, s)); [reflexivity|].
      unfold modp, modify. cbn [fst snd spacing]. rewrite decide_True, Z.add_0_r by lia. done.
    - repeat (destruct Hd' as [->|Hd']; [reflexivity|]). by subst. }
  rewrite (bind_Done _ _ _ _ _ E). apply IH; [done|unfold is_digit in Hd; lia| |done]. left. unfold is_digit in Hd. lia.
Qed.

(** The flags of an item. *)
Lemma send_flags f args cc s : flags_ok f -> send_all (37 :: flag_text f) (start args cc, s) = Done tt (in_field args cc f, s).
Proof.
  destruct f as [alt left zero long ds]. intros (_ & Hd & Hz & Hw). unfold width in Hw. cbn [f_width] in *.
  cbn [send_all]. rewrite (bind_Done _ _ _ tt (mkPF args cc true INTSZ 0 0 0 false 32 0 false false, s)) by reflexivity.
  unfold flag_text, in_field, width. cbn [f_alt f_left f_zero f_long f_width]. rewrite send_all_app.
  rewrite (bind_Done _ _ _ tt (mkPF args cc true INTSZ 0 0 0 false 32 0 false alt, s)) by (destruct alt; reflexivity). rewrite send_all_app.
  rewrite (bind_Done _ _ _ tt (mkPF args cc true INTSZ 0 0 0 left 32 0 false alt, s)) by (destruct left; reflexivity). rewrite send_all_app.
  rewrite (bind_Done _ _ _ tt (mkPF args cc true INTSZ 0 0 0 left (if zero then 48 else 32) 0 false alt, s)) by (destruct zero; reflexivity).
  rewrite send_all_app. rewrite (bind_Done _ _ _ _ _ (send_width ds args cc INTSZ 0 left _ alt s Hd ltac:(lia) ltac:(by right) Hw)).
  destruct long; reflexivity.
Qed.

Lemma endfield_out l args cc f s :
  endfield (fst (out l (in_field args cc f, s))) = start args (s32 (cc + Z.of_nat (length l))).
Proof. done. Qed.

(** A conversion in a field, and the end of the field. *)
Lemma field_end (m : M (PF * S) unit) l args cc f s x :
  m x = Done tt (out l (in_field args cc f, s)) ->
  (m ;; modp endfield) x = Done tt (out l (start args cc, s)).
Proof. intros E. by rewrite (bind_Done _ _ _ _ _ E). Qed.

Lemma counted_start args cc s f : counted (start args cc, s) -> counted (in_field args cc f, s).
Proof. done. Qed.

Lemma getnum_dec f w args cc s :
  pf_getnum 100 (in_field (w :: args) cc f, s) =
  Done tt (set_num (if decide (s32 w < 0) then -1 else 0) (Z.abs (s32 w)) (in_field args cc f), s).
Proof.
  pose proof (s32_range w). unfold pf_getnum. rewrite (bind_Done _ _ _ w (in_field args cc f, s)), decide_True by done.
  case_decide; unfold modp, modify; cbn [fst snd]; [rewrite u32_small by lia; by rewrite Z.abs_neq by lia|by rewrite Z.abs_eq by lia].
Qed.

(** A conversion from a state with the fields of [in_field], except for what the conversion set. *)
Lemma send_number f t w args cc s :
  flags_ok f -> counted (start args cc, s) ->
  send_all [num_char t] (in_field (w :: args) cc f, s) = Done tt (out (render (Num f t w)) (start args cc, s)).
Proof.
  intros [Hlz _] Hc. rewrite send_all_one.
  set (sg := match t with Dec => if decide (s32 w < 0) then -1 else 0 | _ => 0 end).
  set (bp := match t with Ptr => true | _ => f_alt f end).
  set (x := (mkPF args cc true (if f_long f then LONGSZ else INTSZ) (num_value t w) sg (width f) (f_left f)
    (if f_zero f then 48 else 32) (num_base t) bp (f_alt f), s)).
  assert (E : pf_send memL sendfunc (s8 (num_char t)) (in_field (w :: args) cc f, s) = (pf_printnum sendfunc ;; modp endfield) x).
  { unfold x, sg, bp, num_value, num_base. destruct t; try (destruct (f_alt f) eqn:Ea; unfold in_field; rewrite Ea; reflexivity).
    transitivity ((pf_getnum 100 ;; pf_setbase 100 ;; pf_printnum sendfunc ;; modp endfield) (in_field (w :: args) cc f, s)); [reflexivity|].
    rewrite (bind_Done _ _ _ _ _ (getnum_dec f w args cc s)). unfold in_field. destruct (f_alt f); reflexivity. }
  rewrite E. pose proof (s32_range w). pose proof (u32_range w).
  rewrite (bind_Done _ _ _ _ _ (printnum_eq f x Hlz Hc eq_refl eq_refl eq_refl ltac:(by destruct t) ltac:(destruct t; cbn; lia))).
  unfold modp, modify, out. cbn [fst snd x sign baseprefix base num]. f_equal.
  assert (Ep : (if decide (sg <> 0) then [45] else []) ++
    (if bp && bool_decide (num_base t = 16) then [48; 120] else if bp && bool_decide (num_base t = 8) then [48] else []) = num_prefix f t w).
  { unfold sg, bp. destruct t; cbn; try (by destruct (f_alt f)). rewrite !andb_false_r. cbn. destruct (decide (s32 w < 0)); done. }
  by rewrite Ep.
Qed.

Lemma mem_op_eq {A} (m : M mem A) p s a : m (lget memL s) = Done a (lget memL s) -> mem_op memL m (p, s) = Done a (p, s).
Proof. intros E. unfold mem_op, zoom. cbn. rewrite E. pose proof client_lens as []. by rewrite lset_lget. Qed.

Lemma get_string_eq p s l q :
  cstr (lget memL s) p l -> Z.of_nat (length l) < 2 ^ 31 -> get_string memL p (q, s) = Done l (q, s).
Proof.
  intros Hc Hl. unfold get_string. rewrite (bind_Done _ _ _ _ _ (mem_op_eq _ q s _ (strlen_eq _ _ _ Hc ltac:(lia)))).
  rewrite Nat2Z.id. apply mem_op_eq, loads_eq. destruct Hc as [Hh _]. by apply holds_app in Hh as [? _].
Qed.

Lemma send_string f p l args cc s :
  counted (start args cc, s) -> item_ok (lget memL s) (Str f p l) ->
  send_all [115] (in_field (p :: args) cc f, s) = Done tt (out (render (Str f p l)) (start args cc, s)).
Proof.
  intros Hc ([Hlz _] & Hlen & Hp). rewrite send_all_one.
  assert (E : pf_send memL sendfunc (s8 115) (in_field (p :: args) cc f, s) =
    (t ← (if decide (p = 0) then mret null_text else get_string memL p); pf_printstuff sendfunc [] [] t ;; modp endfield) (in_field args cc f, s))
    by reflexivity.
  rewrite E. rewrite (bind_Done _ _ _ l (in_field args cc f, s)).
  2: { case_decide; [by subst|]. by apply get_string_eq. }
  apply field_end with (f := f). apply printstuff_eq; try done.
  case_decide; [subst; repeat constructor; done|by apply cstr_bytes in Hp].
Qed.

Lemma send_char f w args cc s :
  flags_ok f -> u8 w <> 0 -> counted (start args cc, s) -> send_all [99] (in_field (w :: args) cc f, s) = Done tt (out (render (Chr f w)) (start args cc, s)).
Proof.
  intros [Hlz _] Hw Hc. rewrite send_all_one.
  assert (E : pf_send memL sendfunc (s8 99) (in_field (w :: args) cc f, s) =
    (pf_printstuff sendfunc [] [] (text [u8 w; 0]) ;; modp endfield) (in_field args cc f, s)) by reflexivity.
  rewrite E. assert (Et : text [u8 w; 0] = [u8 w]) by (cbn; by rewrite decide_False by done). rewrite Et.
  assert (Hu : byte (u8 w)) by (apply Z.mod_pos_bound; lia).
  apply field_end with (f := f). apply printstuff_eq; try done; repeat constructor; by destruct Hu.
Qed.

Lemma send_other f b args cc s :
  flags_ok f -> counted (start args cc, s) -> 0 < b < 2 ^ 7 -> b ∉ modifiers ++ int_types ++ [115; 99; 88] ->
  send_all [b] (in_field args cc f, s) = Done tt (out (render (Oth f b)) (start args cc, s)).
Proof.
  intros [Hlz _] Hc Hb Hn. rewrite send_all_one. assert (s8 b = b) as -> by (unfold s8; dlia). rewrite !not_elem_of_app in Hn. destruct Hn as (N1 & N2 & N3).
  apply not_elem_of_cons in N3 as [N115 N99]. apply not_elem_of_cons in N99 as [N99 _].
  unfold pf_send. rewrite (bind_Done _ _ _ tt (in_field args cc f, s)) by (unfold kassert; by rewrite bool_decide_eq_true_2 by lia).
  rewrite (bind_Done _ _ _ _ _ (getp_eq in_pct _)). cbn [in_pct fst in_field negb andb].
  rewrite (bool_decide_eq_false_2 _ N1), (bool_decide_eq_false_2 _ N2), decide_False, decide_False by done.
  rewrite (bind_Done _ _ _ b (in_field args cc f, s)) by done.
  assert (Eu : u8 b = b) by (apply Z.mod_small; lia). rewrite Eu. assert (Et : text [b; 0] = [b]) by (cbn; by rewrite decide_False by lia). rewrite Et.
  apply field_end with (f := f). apply printstuff_eq; try done. repeat constructor; unfold byte in *; lia.
Qed.

Lemma send_lit b args cc s :
  counted (start args cc, s) -> 0 < b < 2 ^ 8 -> b <> 37 -> send_all [b] (start args cc, s) = Done tt (out [b] (start args cc, s)).
Proof.
  intros Hc Hb Hp. rewrite send_all_one. unfold pf_send.
  assert (H37 : s8 b <> 37) by (unfold s8; dlia). pose proof (s8_nz b Hb) as Hz.
  rewrite (bind_Done _ _ _ tt (start args cc, s)) by (unfold kassert; by rewrite bool_decide_eq_true_2).
  rewrite (bind_Done _ _ _ _ _ (getp_eq in_pct _)). cbn [in_pct fst start negb andb]. rewrite bool_decide_eq_true_2 by done.
  assert (u8 (s8 b) = b) as -> by (unfold u8, s8; dlia). apply pf_print_eq; [done|]. repeat constructor; lia.
Qed.

(** An item, from the start of a field to the start of the next. *)
Lemma send_item i args cc s :
  counted (start args cc, s) -> item_ok (lget memL s) i ->
  send_all (item_text i) (start (item_args i ++ args) cc, s) = Done tt (out (render i) (start args cc, s)).
Proof.
  intros Hc Hi. destruct i as [b|f t w|f p l|f w|f b]; cbn [item_text item_args app].
  - destruct Hi. by apply send_lit.
  - rewrite app_comm_cons, send_all_app, (bind_Done _ _ _ _ _ (send_flags f (w :: args) cc s Hi)). by apply send_number.
  - rewrite app_comm_cons, send_all_app, (bind_Done _ _ _ _ _ (send_flags f (p :: args) cc s (proj1 Hi))). by apply send_string.
  - rewrite app_comm_cons, send_all_app, (bind_Done _ _ _ _ _ (send_flags f (w :: args) cc s (proj1 Hi))). destruct Hi. by apply send_char.
  - destruct Hi as (Hf & Hb & Hn). rewrite app_comm_cons, send_all_app, (bind_Done _ _ _ _ _ (send_flags f args cc s Hf)). by apply send_other.
Qed.

(** ** The loop over the format *)

(** The client is good before each character of [l], and after the last. *)
Definition steady (l : list Z) x : Prop := forall l1 l2, l = l1 ++ l2 -> exists x1, send_all l1 x = Done tt x1 /\ good (snd x1).

Lemma steady_app l1 l2 x x1 : steady l1 x -> send_all l1 x = Done tt x1 -> steady l2 x1 -> steady (l1 ++ l2) x.
Proof.
  intros H1 E H2 la lb Eq. apply app_eq_inv in Eq as [(k & E1 & E2)|(k & E1 & E2)].
  - by apply (H1 la k).
  - subst la. destruct (H2 k lb E2) as (x2 & Ex & Hg). exists x2. split; [|done]. by rewrite send_all_app, (bind_Done _ _ _ _ _ E).
Qed.

Lemma steady_nil x : good (snd x) -> steady [] x.
Proof. intros Hg l1 l2 E. symmetry in E. apply app_eq_nil in E as [-> ->]. by exists x. Qed.

Lemma steady_one b x x1 : good (snd x) -> send_all [b] x = Done tt x1 -> good (snd x1) -> steady [b] x.
Proof.
  intros Hg E Hg1 [|c l1] l2 Eq; [by exists x|]. injection Eq as <- Eq. symmetry in Eq. apply app_eq_nil in Eq as [-> ->]. by exists x1.
Qed.

(** The flags leave the client alone. *)
Lemma modifier_client b x x1 :
  in_pct (fst x) = true -> b ∈ modifiers -> send_all [b] x = Done tt x1 -> in_pct (fst x1) = true /\ snd x1 = snd x.
Proof.
  intros Hp Hb. assert (Hs : s8 b = b /\ b <> 0 /\ bool_decide (b ∈ modifiers) = true).
  { rewrite bool_decide_eq_true_2 by done. unfold modifiers in Hb. repeat (apply elem_of_cons in Hb as [->|Hb]; [done|]). by apply elem_of_nil in Hb. }
  destruct Hs as (Es & Hz & Em). rewrite send_all_one, Es. unfold pf_send.
  rewrite (bind_Done _ _ _ tt x) by (unfold kassert; by rewrite bool_decide_eq_true_2).
  rewrite (bind_Done _ _ _ _ _ (getp_eq in_pct x)), Hp, Em. cbn [negb andb]. unfold pf_modifier, kassert, mbind, M_bind, modp, modify. destruct x as [p s].
  cbn [fst snd] in *. repeat case_decide; try (intros [= <-]; done).
Qed.

Lemma steady_modifiers l x x1 :
  good (snd x) -> in_pct (fst x) = true -> Forall (fun b => b ∈ modifiers) l -> send_all l x = Done tt x1 -> steady l x /\ snd x1 = snd x.
Proof.
  revert x. induction l as [|b l IH]; intros x Hg Hp Hl E.
  { injection E as <-. split; [by apply steady_nil|done]. }
  apply Forall_cons in Hl as [Hb Hl]. change (b :: l) with ([b] ++ l) in E |- *. rewrite send_all_app in E.
  apply bind_Done_inv in E as ([] & x2 & E1 & E2). destruct (modifier_client b x x2 Hp Hb E1) as [Hp2 Hs2].
  destruct (IH x2 ltac:(by rewrite Hs2) Hp2 Hl E2) as [St Hs]. split; [|congruence].
  apply (steady_app [b] l x x2); [|done|done]. apply (steady_one b x x2); [done..|by rewrite Hs2].
Qed.

Lemma flag_text_modifiers f : flags_ok f -> Forall (fun b => b ∈ modifiers) (flag_text f).
Proof.
  intros (_ & Hd & _). unfold flag_text. rewrite !Forall_app.
  assert (H : forall b : Z, bool_decide (b ∈ modifiers) = true -> b ∈ modifiers) by (intros b; apply bool_decide_eq_true_1).
  split; [destruct (f_alt f); repeat constructor; by apply H|]. split; [destruct (f_left f); repeat constructor; by apply H|].
  split; [destruct (f_zero f); repeat constructor; by apply H|]. split; [|destruct (f_long f); repeat constructor; by apply H].
  apply Forall_fmap. eapply Forall_impl; [exact Hd|]. intros d Hx. cbn. destruct (digit_cases d Hx) as [->|Hd']; [by apply H|].
  repeat (destruct Hd' as [->|Hd']; [by apply H|]). subst. by apply H.
Qed.

Lemma steady_conv f c args cc s x1 :
  good s -> flags_ok f -> send_all [c] (in_field args cc f, s) = Done tt x1 -> good (snd x1) ->
  steady (37 :: flag_text f ++ [c]) (start args cc, s).
Proof.
  intros Hg Hf E Hg1. pose proof (send_flags f args cc s Hf) as Es. change (37 :: flag_text f) with ([37] ++ flag_text f) in Es.
  rewrite send_all_app in Es. apply bind_Done_inv in Es as ([] & x & E1 & E2).
  set (x2 := (mkPF args cc true INTSZ 0 0 0 false 32 0 false false, s)).
  assert (Ex : x = x2) by (assert (E37 : send_all [37] (start args cc, s) = Done tt x2) by reflexivity; rewrite E1 in E37; by injection E37).
  subst x. destruct (steady_modifiers (flag_text f) x2 (in_field args cc f, s) Hg eq_refl (flag_text_modifiers f Hf) E2) as [St _].
  apply (steady_app [37] _ _ x2); [by apply (steady_one 37 _ x2)|done|].
  apply (steady_app _ [c] _ _ St E2). by apply (steady_one c _ x1).
Qed.

Lemma steady_item i args cc s :
  counted (start args cc, s) -> item_ok (lget memL s) i -> steady (item_text i) (start (item_args i ++ args) cc, s).
Proof.
  intros Hc Hi. pose proof (proj1 Hc) as Hg. assert (Hg1 : forall l, good (snd (out l (start args cc, s)))) by (intros l; by apply emit_good).
  destruct i as [b|f t w|f p l|f w|f b]; cbn [item_text item_args app].
  - destruct Hi. apply (steady_one b _ (out [b] (start args cc, s))); [done|by apply send_lit|done].
  - eapply steady_conv; [done|done|by apply send_number|done].
  - eapply steady_conv; [done|apply Hi|by apply send_string|done].
  - destruct Hi. eapply steady_conv; [done|done|by apply send_char|done].
  - destruct Hi as (Hf & Hb & Hn). eapply steady_conv; [done|done|by apply send_other|done].
Qed.

Definition format_text (items : list item) : list Z := concat (item_text <$> items).
Definition format_args (items : list item) : list Z := concat (item_args <$> items).
Definition printed (items : list item) : list Z := concat (render <$> items).

Lemma send_items items args cc s :
  counted (start args cc, s) -> (forall s', good s' -> Forall (item_ok (lget memL s')) items) ->
  send_all (format_text items) (start (format_args items ++ args) cc, s) = Done tt (out (printed items) (start args cc, s)) /\
  steady (format_text items) (start (format_args items ++ args) cc, s).
Proof.
  revert cc s. induction items as [|i items IH]; intros cc s Hc Hi.
  { split; [by cbn; rewrite out_nil|by apply steady_nil, Hc]. }
  assert (Hi1 : item_ok (lget memL s) i) by (specialize (Hi s (proj1 Hc)); by apply Forall_cons in Hi as [? _]).
  assert (Hi2 : forall s', good s' -> Forall (item_ok (lget memL s')) items) by (intros s' Hg; specialize (Hi s' Hg); by apply Forall_cons in Hi as [_ ?]).
  unfold format_text, format_args, printed in *. cbn [fmap list_fmap concat]. rewrite <-app_assoc.
  set (args' := concat (item_args <$> items) ++ args) in *.
  pose proof (send_item i args' cc s Hc Hi1) as E. pose proof (steady_item i args' cc s Hc Hi1) as St.
  destruct (IH (s32 (cc + Z.of_nat (length (render i)))) (emit (render i) s)) as [E2 St2]; [by apply (counted_out (render i) (start args cc, s))|done|].
  change (start args' (s32 (cc + Z.of_nat (length (render i)))), emit (render i) s) with (out (render i) (start args' cc, s)) in E2, St2.
  split; [|by apply (steady_app _ _ _ _ St E)]. rewrite send_all_app, (bind_Done _ _ _ _ _ E), E2.
  change (start args (s32 (cc + Z.of_nat (length (render i)))), emit (render i) s) with (out (render i) (start args cc, s)).
  by rewrite out_app.
Qed.

Lemma loop_eq fuel fmt i l x :
  (length l < fuel)%nat -> (forall s, good s -> cstr (lget memL s) (fmt + i) l) -> steady l x ->
  vprintf_loop memL sendfunc fuel fmt i x = send_all l x.
Proof.
  revert i l x. induction fuel as [|fuel IH]; intros i l x Hf Hc St; [lia|]. cbn [vprintf_loop].
  destruct (St [] l eq_refl) as (x0 & E0 & Hg). injection E0 as <-. pose proof (Hc _ Hg) as Hs. destruct x as [p s]. destruct l as [|b l].
  - apply cstr_nil in Hs. rewrite (bind_Done _ _ _ _ _ (mem_op_eq _ p s _ (load_eq _ _ _ Hs))). by rewrite decide_True.
  - apply cstring_cons in Hs as (E & Hb & _). rewrite (bind_Done _ _ _ _ _ (mem_op_eq _ p s _ (load_eq _ _ _ E))), decide_False by lia.
    cbn [send_all]. destruct (St [b] l eq_refl) as (x1 & E1 & _). rewrite send_all_one in E1. rewrite !(bind_Done _ _ _ _ _ E1). cbn [length] in Hf.
    apply IH; [lia| |].
    + intros s' Hg'. rewrite Z.add_assoc. by apply Hc, cstring_cons in Hg' as (_ & _ & ?).
    + intros l1 l2 ->. destruct (St (b :: l1) l2 eq_refl) as (x2 & E2 & Hg2). exists x2. split; [|done].
      cbn [send_all] in E2. by rewrite (bind_Done _ _ _ _ _ E1) in E2.
Qed.

(** Formatted output prints the items of the format, one after the other, for every client, and
    returns the number of characters. *)
Lemma vprintf_spec items fmt args s :
  good s -> (forall s', good s' -> cstr (lget memL s') fmt (format_text items) /\ Forall (item_ok (lget memL s')) items) ->
  vprintf memL sendfunc fmt (format_args items ++ args) s = Done (s32 (Z.of_nat (length (printed items)))) (emit (printed items) s).
Proof.
  intros Hg Hi. unfold vprintf. change (pf_start (format_args items ++ args)) with (start (format_args items ++ args) 0).
  pose proof (cstr_size _ _ _ (proj1 (Hi s Hg))) as Hsz. rewrite (bind_Done _ _ _ _ _ (mem_op_eq scan _ s _ (scan_eq _))).
  destruct (send_items items args 0 s) as [E St]; [by split|intros s' Hs; by apply Hi|].
  rewrite (bind_Done _ _ _ tt (out (printed items) (start args 0, s))); [done|]. rewrite (loop_eq _ _ _ (format_text items)); [done|lia| |done].
  intros s' Hs. rewrite Z.add_0_r. by apply Hi.
Qed.

End machine.

(** ** The buffer of [snprintf] *)

Section buffer.
Variables (m0 : mem) (b L : Z).

(** The buffer is partly filled, and nothing else has changed. *)
Record filling (s : mem * SNP) : Prop := {
  fl_buf : buf (snd s) = b;
  fl_len : buflen (snd s) = L;
  fl_pos : 0 <= bufpos (snd s) <= L;
  fl_bound : L < 2 ^ 32;
  fl_mapped : mapped (fst s) b L;
  fl_agree : agree m0 (fst s) b (b + L);
}.

Definition room (s : SNP) : nat := Z.to_nat (buflen s - bufpos s).
Definition fill_in (l : list Z) (s : mem * SNP) : mem * SNP :=
  let l' := take (room (snd s)) l in
  (write (buf (snd s) + bufpos (snd s)) l' (fst s), mkSNP (buf (snd s)) (buflen (snd s)) (bufpos (snd s) + Z.of_nat (length l'))).

Lemma fill_in_app l1 l2 s : fill_in (l1 ++ l2) s = fill_in l2 (fill_in l1 s).
Proof.
  unfold fill_in. cbn [fst snd buf buflen bufpos]. set (r := room (snd s)).
  assert (Er : room (mkSNP (buf (snd s)) (buflen (snd s)) (bufpos (snd s) + Z.of_nat (length (take r l1)))) = (r - length l1)%nat).
  { unfold room, r. cbn. rewrite length_take. unfold room. lia. }
  rewrite Er, take_app, write_app, length_app. f_equal; [by rewrite Z.add_assoc|]. f_equal. lia.
Qed.

Lemma fill_in_nil s : fill_in [] s = s.
Proof. destruct s as [m []]. unfold fill_in. cbn. rewrite take_nil. cbn. by rewrite Z.add_0_r. Qed.

Lemma fill_in_good l s : filling s -> filling (fill_in l s).
Proof.
  intros [Eb El Hp Hb Hm Ha]. assert (Hlen : Z.of_nat (length (take (room (snd s)) l)) <= L - bufpos (snd s)) by (rewrite length_take; unfold room; lia).
  split; cbn [fst snd buf buflen bufpos fill_in]; try done; [lia|by apply mapped_write|].
  intros x Hx. rewrite write_out by lia. by apply Ha.
Qed.

Lemma snprintf_send_eq l s : filling s -> Forall byte l -> snprintf_send l s = Done tt (fill_in l s).
Proof.
  revert s. induction l as [|c l IH]; intros s Hs Hl; [by rewrite fill_in_nil|]. apply Forall_cons in Hl as [Hc Hl]. cbn [snprintf_send].
  rewrite (bind_Done _ _ _ (snd s) s) by done. rewrite (bind_Done _ _ _ tt (fill_in [c] s)).
  { rewrite IH by (done || by apply fill_in_good). by rewrite <-fill_in_app. }
  destruct s as [m [sb sl sp]]. destruct Hs as [Eb El Hp Hb Hm Ha]. cbn [fst snd buf buflen bufpos] in *. subst sb sl. unfold fill_in, room. cbn [fst snd buf buflen bufpos].
  case_decide as D.
  - replace (Z.to_nat (L - sp)) with (S (Z.to_nat (L - sp - 1))) by lia. cbn [take length write].
    assert (Es : zoom snp_memL (store (b + sp) c) (m, mkSNP b L sp) = Done tt (<[b + sp := c]> m, mkSNP b L sp)).
    { unfold zoom. cbn [lget lset snp_memL fst snd]. rewrite mstore_eq; [done|apply Hm; lia|done]. }
    rewrite (bind_Done _ _ _ _ _ Es). unfold modify. cbn [fst snd]. rewrite take_nil. cbn [write length]. by rewrite u32_small by lia.
  - replace (Z.to_nat (L - sp)) with O by lia. cbn. by rewrite Z.add_0_r.
Qed.

Lemma snp_lens : LensLaws snp_memL.
Proof. split; intros; by destruct s as [? []] || by destruct s. Qed.

Definition buffer_client : Client snp_memL snprintf_send := {|
  good := filling;
  emit := fill_in;
  emit_good := fill_in_good;
  emit_app := fill_in_app;
  emit_nil := fill_in_nil;
  send_emit := snprintf_send_eq;
  client_lens := snp_lens;
|}.

End buffer.

(** A string is outside the buffer. *)
Definition outside (b len p : Z) (l : list Z) : Prop := p + Z.of_nat (length l) < b \/ b + len <= p.
Definition item_outside (b len : Z) (i : item) : Prop := match i with Str _ p l => p = 0 \/ outside b len p l | _ => True end.

Lemma item_ok_agree m m' b L i : agree m m' b (b + L) -> item_outside b L i -> item_ok m i -> item_ok m' i.
Proof.
  intros Ha Ho. destruct i as [c|f t w|f p l|f w|f c]; try done. cbn. intros (? & ? & Hp). split; [done|]. split; [done|]. case_decide; [done|].
  destruct Ho as [?|Ho]; [done|]. by apply (agree_cstr m m' b (b + L)).
Qed.

Lemma snprintf_spec m b len fmt items args :
  0 <= len < 2 ^ 32 -> mapped m b len -> cstr m fmt (format_text items) -> outside b len fmt (format_text items) ->
  Forall (item_ok m) items -> Forall (item_outside b len) items ->
  snprintf b len fmt (format_args items ++ args) m =
  Done (s32 (Z.of_nat (length (printed items))))
    (if decide (len = 0) then m else write b (take (Z.to_nat (len - 1)) (printed items) ++ [0]) m).
Proof.
  intros Hlen Hm Hf Ho Hi Hio. unfold snprintf, vsnprintf. set (L := if decide (len = 0) then 0 else len - 1).
  assert (HL : 0 <= L <= len) by (unfold L; case_decide; lia).
  assert (Hg : filling m b L (m, mkSNP b L 0)).
  { split; cbn; try done; [lia|lia|]. intros a Ha. apply Hm. lia. }
  rewrite (vprintf_spec snp_memL snprintf_send (Client0 := buffer_client m b L) items fmt args (m, mkSNP b L 0) Hg).
  2: { intros s' [_ _ _ _ _ Ha]. cbn [lget snp_memL]. assert (Ha' : agree m (fst s') b (b + len)) by (intros x Hx; apply Ha; lia).
       split; [by apply (agree_cstr m _ b (b + len))|]. rewrite Forall_forall in *. intros i Hin.
       apply (item_ok_agree m _ b len); [done|by apply Hio|by apply Hi]. }
  cbn [emit buffer_client]. unfold fill_in, room. cbn [fst snd buf buflen bufpos]. rewrite Z.sub_0_r, Z.add_0_r, Z.add_0_l. unfold L. destruct (decide (len = 0)) as [D|D].
  - by rewrite decide_False by lia.
  - rewrite decide_True by lia. set (t := take _ _).
    assert (Ht : Z.of_nat (length t) <= len - 1) by (unfold t; rewrite length_take; lia).
    rewrite (bind_Done _ _ _ _ _ (mstore_eq (write b t m) (b + Z.of_nat (length t)) 0 ltac:(apply (mapped_write m b t b len Hm); lia) ltac:(by split))).
    by rewrite write_app.
Qed.

(** ** The properties *)

(** C31: [snprintf] puts the text that the format denotes into the buffer, cut to its length less one and terminated,
    changes nothing outside of it, and returns the length of the whole text.  The formats are the documented ones other than
    "%X", the two flags "-" and "0" together, and "%c" of 0. *)
Theorem snprintf_correct m b len fmt items args :
  0 <= len < 2 ^ 32 -> mapped m b len -> cstr m fmt (format_text items) -> outside b len fmt (format_text items) ->
  Forall (item_ok m) items -> Forall (item_outside b len) items -> Z.of_nat (length (printed items)) < 2 ^ 31 ->
  exists m', snprintf b len fmt (format_args items ++ args) m = Done (Z.of_nat (length (printed items))) m' /\
    agree m m' b (b + len) /\ (0 < len -> holds m' b (take (Z.to_nat (len - 1)) (printed items) ++ [0])).
Proof.
  intros Hlen Hm Hf Ho Hi Hio Hn. eexists. rewrite (snprintf_spec m b len fmt items args) by done. rewrite s32_small by lia. split; [reflexivity|].
  case_decide as D; [split; [done|lia]|]. split; [|intros _; apply holds_write].
  intros a Ha. apply write_out. rewrite length_app, length_take. cbn [length]. lia.
Qed.

(** The format "%d". *)
Definition percent_d : list Z := [37; 100].
Definition plain : flags := mkflags false false false false [].

Lemma digits10_length n : 0 <= n < 2 ^ 32 -> (length (digits 10 n) <= 10)%nat.
Proof. intros Hn. apply base_digits_length; lia. Qed.

Lemma printed_d n : - 2 ^ 31 <= n < 2 ^ 31 ->
  printed [Num plain Dec n] = (if bool_decide (n < 0) then [45] else []) ++ ((fun d => 48 + d) <$> digits 10 (Z.abs n)).
Proof.
  intros Hn. unfold printed. cbn [fmap list_fmap concat render]. rewrite app_nil_r. unfold field. cbn [f_left f_zero plain].
  change (width plain) with 0. replace (Z.to_nat _) with O by lia. cbn [replicate app num_prefix num_base num_value]. rewrite s32_small by done.
  f_equal; [by repeat case_decide|]. apply list_fmap_ext. intros i d Hd.
  pose proof (base_digits_range 32 10 (Z.abs n) ltac:(lia)) as Hr. rewrite Forall_lookup in Hr. specialize (Hr i d Hd). cbn in Hr.
  unfold digit_char. by rewrite decide_True by lia.
Qed.

(** A number printed with "%d" into a buffer of 12 bytes is read back by [atoi]. *)
Theorem print_atoi_roundtrip m b fmt n :
  - 2 ^ 31 <= n < 2 ^ 31 -> mapped m b 12 -> cstr m fmt percent_d -> outside b 12 fmt percent_d ->
  exists c m', snprintf b 12 fmt [n] m = Done c m' /\ atoi b m' = Done n m'.
Proof.
  intros Hn Hm Hf Ho. pose proof (snprintf_spec m b 12 fmt [Num plain Dec n] [] ltac:(lia) Hm Hf Ho) as E.
  assert (Hok : Forall (item_ok m) [Num plain Dec n]) by (repeat constructor).
  eexists _, _. split; [apply E; [exact Hok|by repeat constructor]|]. rewrite decide_False by lia. rewrite printed_d by done.
  pose proof (digits10_length (Z.abs n) ltac:(lia)) as Hl. pose proof (base_digits_range 32 10 (Z.abs n) ltac:(lia)) as Hr.
  rewrite take_ge by (rewrite length_app, length_fmap; case_bool_decide; cbn [length]; lia). set (m' := write _ _ _).
  assert (Hv : dec_value (digits 10 (Z.abs n)) = Z.abs n) by (apply digits_value; lia).
  rewrite (atoi_spec m' b [] (bool_decide (n < 0)) (digits 10 (Z.abs n))); [case_bool_decide; f_equal; lia| |constructor|exact Hr|case_bool_decide; lia].
  split; [rewrite app_nil_l; apply holds_write|]. rewrite app_nil_l. apply Forall_app. split; [destruct (bool_decide _); repeat constructor; lia|].
  apply Forall_fmap. eapply Forall_impl; [exact Hr|]. cbn. lia.
Qed.

End PrintfSpec.
