(* ===== verification/Kgets.v ===== *)
(** * The line editor of the console: kern/lib/kgets.c

    The characters typed are a list; a call that has used them all without an end of line is still
    waiting.  What is echoed is left out. *)

From S2P Require Import Prelude Libc LibcStr.
Import Libc LibcStr.

Module Kgets.

(** [while (pos > 0 && buf[pos-1]==' ') pos--], and with [!=] for [space] false; [n] is [pos]. *)
Fixpoint erase_while (space : bool) (buf : Z) (n : nat) : M mem nat :=
  match n with
  | O => mret O
  | S n' =>
      c ← load (buf + Z.of_nat n');
      if Bool.eqb (bool_decide (c = 32)) space then erase_while space buf n' else mret n
  end.

(** What is left of the input at the end of the line, and the position. *)
Fixpoint kgets_loop (input : list Z) (buf maxlen pos : Z) : M mem (option (Z * list Z)) :=
  match input with
  | [] => mret None
  | ch :: input' =>
      if decide (ch = 10 \/ ch = 13) then mret (Some (pos, input'))
      else if decide (32 <= ch < 127 /\ pos < u32 (maxlen - 1)) then
        store (buf + pos) ch ;; kgets_loop input' buf maxlen (u32 (pos + 1))
      else if decide ((ch = 8 \/ ch = 127) /\ pos > 0) then kgets_loop input' buf maxlen (pos - 1)
      else if decide (ch = 3) then mret (Some (0, input'))
      else if decide (ch = 18) then store (buf + pos) 0 ;; kgets_loop input' buf maxlen pos
      else if decide (ch = 21) then kgets_loop input' buf maxlen 0
      else if decide (ch = 23) then
        n ← erase_while true buf (Z.to_nat pos);
        n ← erase_while false buf n;
        kgets_loop input' buf maxlen (Z.of_nat n)
      else kgets_loop input' buf maxlen pos
  end.

(** [None]: the call waits for more input. *)
Definition kgets (input : list Z) (buf maxlen : Z) : M mem (option (list Z)) :=
  r ← kgets_loop input buf maxlen 0;
  match r with
  | None => mret None
  | Some (pos, rest) => store (buf + pos) 0 ;; mret (Some rest)
  end.

(** ** What the user sees *)

(** The line without its last word and the spaces after it. *)
Definition erase_last (f : Z -> bool) (l : list Z) : list Z := reverse (drop_while f (reverse l)).
Definition blank (c : Z) : bool := bool_decide (c = 32).
Definition erase_word (l : list Z) : list Z := erase_last (fun c => negb (blank c)) (erase_last blank l).

(** A line of at most [room] characters after one key. *)
Definition key (room : Z) (l : list Z) (ch : Z) : list Z :=
  if decide (32 <= ch < 127) then if decide (Z.of_nat (length l) < room) then l ++ [ch] else l
  else if decide (ch = 8 \/ ch = 127) then removelast l
  else if decide (ch = 21) then []
  else if decide (ch = 23) then erase_word l
  else l.

(** The line that is read, and the rest of the input. *)
Fixpoint reads (room : Z) (l input : list Z) : option (list Z * list Z) :=
  match input with
  | [] => None
  | ch :: input' =>
      if decide (ch = 10 \/ ch = 13) then Some (l, input')
      else if decide (ch = 3) then Some ([], input')
      else reads room (key room l ch) input'
  end.

Lemma erase_last_snoc f l c : erase_last f (l ++ [c]) = if f c then erase_last f l else l ++ [c].
Proof.
  unfold erase_last. rewrite reverse_snoc. cbn [drop_while]. destruct (f c); [done|]. by rewrite <-reverse_snoc, reverse_involutive.
Qed.

Lemma erase_last_prefix f l : exists k, l = erase_last f l ++ k.
Proof.
  induction l as [|c l IH] using rev_ind; [by exists []|]. rewrite erase_last_snoc. destruct (f c); [|exists []; by rewrite app_nil_r].
  destruct IH as [k Hk]. exists (k ++ [c]). rewrite app_assoc. by rewrite <-Hk.
Qed.

Lemma erase_last_ext f g l : (forall c, f c = g c) -> erase_last f l = erase_last g l.
Proof. intros H. unfold erase_last. f_equal. induction (reverse l) as [|c r IH]; [done|]. cbn. by rewrite H, IH. Qed.

Lemma erase_while_eq space m buf l :
  holds m buf l ->
  erase_while space buf (length l) m = Done (length (erase_last (fun c => Bool.eqb (blank c) space) l)) m.
Proof.
  induction l as [|c l IH] using rev_ind; intros Hh; [done|]. apply holds_app in Hh as [Hl Hc]. apply holds_cons in Hc as [Hc _].
  rewrite erase_last_snoc, length_app, Nat.add_1_r. cbn [erase_while]. rewrite (bind_Done _ _ _ _ _ (load_eq _ _ _ Hc)).
  change (bool_decide (c = 32)) with (blank c). destruct (Bool.eqb (blank c) space); [by apply IH|].
  by rewrite length_app, Nat.add_1_r.
Qed.

Lemma erase_word_eq m buf l :
  holds m buf l ->
  exists n, erase_while true buf (length l) m = Done n m /\ erase_while false buf n m = Done (length (erase_word l)) m.
Proof.
  intros Hh. eexists. split; [by apply erase_while_eq|].
  rewrite (erase_last_ext (fun c => Bool.eqb (blank c) true) blank) by (intros c; by destruct (blank c)).
  destruct (erase_last_prefix blank l) as [k Hk].
  rewrite (erase_while_eq false m buf (erase_last blank l)) by (rewrite Hk in Hh; by apply holds_app in Hh as [? _]).
  unfold erase_word. by rewrite (erase_last_ext (fun c => Bool.eqb (blank c) false) (fun c => negb (blank c))) by (intros c; by destruct (blank c)).
Qed.

(** What is in the buffer so far. *)
Definition typed (room : Z) (m : mem) (buf : Z) (l : list Z) : Prop :=
  holds m buf l /\ Forall (fun c => 0 < c < 2 ^ 8) l /\ Z.of_nat (length l) <= room.

Lemma typed_prefix room m buf l k : typed room m buf (l ++ k) -> typed room m buf l.
Proof.
  intros (Hh & Hf & Hl). apply holds_app in Hh as [Hh _]. apply Forall_app in Hf as [Hf _]. rewrite length_app in Hl.
  split; [done|]. split; [done|lia].
Qed.

Lemma key_prefix room l ch : exists k, key room l ch ++ k = l \/ (key room l ch = l ++ [ch] /\ 32 <= ch < 127 /\ Z.of_nat (length l) < room).
Proof.
  unfold key. repeat case_decide; try (by exists []; left; rewrite app_nil_r); [exists []; right; split; [done|lia]| | |].
  - destruct l as [|c l _] using rev_ind; [by exists []; left|]. exists [c]. left. by rewrite removelast_last.
  - by exists l; left.
  - unfold erase_word. destruct (erase_last_prefix blank l) as [k Hk].
    destruct (erase_last_prefix (fun c => negb (blank c)) (erase_last blank l)) as [k' Hk']. exists (k' ++ k). left.
    by rewrite app_assoc, <-Hk', <-Hk.
Qed.

(** The buffer holds [k], and what is outside of it has not changed since [m]. *)
Definition follows (maxlen : Z) (m : mem) (buf : Z) (k : list Z) (m' : mem) : Prop :=
  agree m m' buf (buf + maxlen) /\ mapped m' buf maxlen /\ typed (maxlen - 1) m' buf k.

Section line.
Context (maxlen buf : Z).
Hypothesis (Hlen : 1 <= maxlen < 2 ^ 32).

Lemma follows_prefix m l k k' : follows maxlen m buf l m -> k ++ k' = l -> follows maxlen m buf k m.
Proof. intros (A & Hm & Ht) <-. split; [done|]. split; [done|]. by apply typed_prefix in Ht. Qed.

Lemma follows_store m l b :
  follows maxlen m buf l m -> byte b ->
  let m' := write (buf + Z.of_nat (length l)) [b] m in
  store (buf + Z.of_nat (length l)) b m = Done tt m' /\ follows maxlen m buf l m' /\ holds m' buf (l ++ [b]).
Proof.
  intros (_ & Hm & Hh & Hf & Hr) Hb. cbn zeta.
  assert (Hl : holds (write (buf + Z.of_nat (length l)) [b] m) buf l) by (apply holds_write_out; [done|lia]).
  split; [apply mstore_eq; [apply Hm; lia|done]|]. split.
  - split; [intros a Ha; apply write_out; cbn; lia|]. split; [by apply mapped_write|]. by split.
  - apply holds_app. split; [done|apply holds_write].
Qed.

(** One key: the position and the memory follow the line. *)
Lemma kgets_key input m l ch :
  follows maxlen m buf l m -> ~ (ch = 10 \/ ch = 13) -> ch <> 3 ->
  exists m', kgets_loop (ch :: input) buf maxlen (Z.of_nat (length l)) m =
      kgets_loop input buf maxlen (Z.of_nat (length (key (maxlen - 1) l ch))) m' /\
    follows maxlen m buf (key (maxlen - 1) l ch) m'.
Proof.
  intros F Hnl H3. pose proof F as (_ & Hm & Hh & Hf & Hr). cbn [kgets_loop]. rewrite decide_False by done. rewrite (u32_small (maxlen - 1)) by lia.
  destruct (key_prefix (maxlen - 1) l ch) as [k Hk].
  assert (Hsame : ~ (32 <= ch < 127 /\ Z.of_nat (length l) < maxlen - 1) -> follows maxlen m buf (key (maxlen - 1) l ch) m).
  { intros Hn. destruct Hk as [Hk|(_ & ? & ?)]; [by apply (follows_prefix m l _ k)|]. by destruct Hn. }
  destruct (decide (32 <= ch < 127 /\ Z.of_nat (length l) < maxlen - 1)) as [[Hp Hroom]|Hn].
  { destruct (follows_store m l ch F ltac:(unfold byte; lia)) as (Es & (A & Hm' & _) & Hh'). rewrite (bind_Done _ _ _ _ _ Es).
    eexists. unfold key. rewrite !decide_True by done. rewrite length_app, u32_small by lia. cbn [length].
    split; [f_equal; lia|]. split; [done|]. split; [done|]. split; [done|].
    split; [apply Forall_app; split; [done|repeat constructor; lia]|rewrite length_app; cbn [length]; lia]. }
  specialize (Hsame Hn). unfold key in *. destruct (decide (32 <= ch < 127)) as [Hp|Hp].
  { rewrite (decide_False (P := Z.of_nat (length l) < maxlen - 1)) in * by tauto. rewrite !decide_False by lia. by exists m. }
  rewrite (decide_False (P := ch = 3)) by done. destruct (decide (ch = 8 \/ ch = 127)) as [Hb|Hb].
  { destruct l as [|c l _] using rev_ind; [rewrite !decide_False by (cbn; lia); by exists m|].
    rewrite removelast_last, length_app in *. cbn [length] in *. rewrite decide_True by lia. exists m. split; [f_equal; lia|done]. }
  rewrite decide_False by tauto. destruct (decide (ch = 18)) as [->|H18].
  { destruct (follows_store m l 0 F ltac:(by split)) as (Es & F' & _). rewrite (bind_Done _ _ _ _ _ Es). rewrite !decide_False by lia.
    eexists. split; [done|exact F']. }
  destruct (decide (ch = 21)) as [->|H21]; [by exists m|]. destruct (decide (ch = 23)) as [->|H23]; [|by exists m].
  destruct (erase_word_eq m buf l Hh) as (n & E1 & E2). rewrite Nat2Z.id, (bind_Done _ _ _ _ _ E1), (bind_Done _ _ _ _ _ E2). by exists m.
Qed.

Lemma kgets_loop_eq input m l :
  follows maxlen m buf l m ->
  match reads (maxlen - 1) l input with
  | None => exists m', kgets_loop input buf maxlen (Z.of_nat (length l)) m = Done None m' /\ agree m m' buf (buf + maxlen) /\ mapped m' buf maxlen
  | Some (l', rest) => exists m', kgets_loop input buf maxlen (Z.of_nat (length l)) m = Done (Some (Z.of_nat (length l'), rest)) m' /\
      follows maxlen m buf l' m'
  end.
Proof.
  revert m l. induction input as [|ch input IH]; intros m l F; [exists m; split; [done|]; split; [done|apply F]|]. cbn [reads].
  destruct (decide (ch = 10 \/ ch = 13)) as [D|D]; [exists m; split; [cbn [kgets_loop]; by rewrite decide_True|done]|].
  destruct (decide (ch = 3)) as [->|D3].
  { exists m. cbn [kgets_loop]. rewrite !decide_False by lia. rewrite decide_True by done. split; [done|]. by apply (follows_prefix m l [] l). }
  destruct (kgets_key input m l ch F D D3) as (m1 & E & A & F1). rewrite E.
  specialize (IH m1 (key (maxlen - 1) l ch) (conj (agree_refl _ _ _) F1)). destruct (reads _ _ input) as [[l' rest]|].
  - destruct IH as (m' & E' & A' & F'). exists m'. split; [done|]. split; [|done]. by apply (agree_trans m m1 m' _ _ buf (buf + maxlen)).
  - destruct IH as (m' & E' & A' & Hm'). exists m'. split; [done|]. split; [|done]. by apply (agree_trans m m1 m' _ _ buf (buf + maxlen)).
Qed.

(** The terminated line is in the buffer, or the call waits; only the buffer is written. *)
Lemma kgets_spec input m :
  mapped m buf maxlen ->
  exists m', agree m m' buf (buf + maxlen) /\ mapped m' buf maxlen /\
  match reads (maxlen - 1) [] input with
  | None => kgets input buf maxlen m = Done None m'
  | Some (l, rest) => kgets input buf maxlen m = Done (Some rest) m' /\ cstr m' buf l /\ Z.of_nat (length l) < maxlen
  end.
Proof.
  intros Hm. assert (F : follows maxlen m buf [] m) by (do 2 (split; [done|]); split; [intros i b; done|]; split; [constructor|cbn; lia]).
  pose proof (kgets_loop_eq input m [] F) as H. destruct (reads _ [] input) as [[l rest]|].
  - destruct H as (m1 & E & A & Hm1 & T). destruct (follows_store m1 l 0 (conj (agree_refl _ _ _) (conj Hm1 T)) ltac:(by split)) as (Es & (A' & Hm' & _) & Hh).
    eexists. split; [by apply (agree_trans m m1 _ _ _ buf (buf + maxlen))|]. split; [done|]. unfold kgets. rewrite (bind_Done _ _ _ _ _ E), (bind_Done _ _ _ _ _ Es).
    split; [done|]. split; [by split; [|apply T]|]. destruct T as (_ & _ & ?). lia.
  - destruct H as (m1 & E & A & Hm1). exists m1. split; [done|]. split; [done|]. unfold kgets. by rewrite (bind_Done _ _ _ _ _ E).
Qed.
End line.

(** ** The property *)

(** C34: Whatever is typed, [kgets] reads the line that the keys edit, and writes only the buffer of
    [maxlen] bytes it was given, in which the line is terminated. *)
Theorem kgets_correct input m buf maxlen :
  1 <= maxlen < 2 ^ 32 -> mapped m buf maxlen ->
  exists m', agree m m' buf (buf + maxlen) /\
  match reads (maxlen - 1) [] input with
  | None => kgets input buf maxlen m = Done None m'
  | Some (l, rest) => kgets input buf maxlen m = Done (Some rest) m' /\ cstr m' buf l /\ Z.of_nat (length l) < maxlen
  end.
Proof. intros Hlen Hm. destruct (kgets_spec maxlen buf Hlen input m Hm) as (m' & A & _ & H). by exists m'. Qed.

End Kgets.
