(* ===== verification/Menu.v ===== *)
(** * The command menu: kern/main/menu.c

    A line is cut into commands and a command into words, in place; the first word is looked up in
    the table of commands.  The commands on file systems call the name space of Vfs.v; the
    functions that the menu gets from other parts of the kernel are arguments of the section.
    The options are those of the configuration ASST1. *)

From S2P Require Import Prelude Libc Uio Vnode Vfs Kgets.
Import Libc Kgets.

Module Menu.

Definition MAXMENUARGS : Z := 16.
Definition PATH_MAX : Z := 1024.

(** The characters of a literal. *)
Definition bytes (s : string) : list Z := (fun c => Z.of_N (Ascii.N_of_ascii c)) <$> String.list_ascii_of_string s.

(** The interval between two times, in seconds and nanoseconds. *)
Definition getinterval (s1 ns1 s2 ns2 : Z) : Z * Z :=
  let (ns2, s2) := if decide (ns2 < ns1) then (u32 (ns2 + 1000000000), s32 (s2 - 1)) else (ns2, s2) in
  (s32 (s2 - s1), u32 (ns2 - ns1)).

(** The functions of the table of commands. *)
Inductive cmd :=
  | Cmd_mainmenu | Cmd_opsmenu | Cmd_testmenu
  | Cmd_shell | Cmd_prog | Cmd_mount | Cmd_unmount | Cmd_bootfs | Printfile | Cmd_chdir | Cmd_pwd | Cmd_sync
  | Cmd_panic | Cmd_quit
  | Catmousesem | Catmouselock | Createvehicles
  | Cmd_kheapstats
  | Arraytest | Bitmaptest | Queuetest | Malloctest | Mallocstress | Threadtest | Threadtest2 | Threadtest3 | Semtest
  | Locktest | Cvtest
  | Fstest | Readstress | Writestress | Writestress2 | Createstress.

Definition cmdtable : list (list Z * cmd) :=
  [(bytes "?", Cmd_mainmenu); (bytes "h", Cmd_mainmenu); (bytes "help", Cmd_mainmenu); (bytes "?o", Cmd_opsmenu);
   (bytes "?t", Cmd_testmenu);
   (bytes "s", Cmd_shell); (bytes "p", Cmd_prog); (bytes "mount", Cmd_mount); (bytes "unmount", Cmd_unmount);
   (bytes "bootfs", Cmd_bootfs); (bytes "pf", Printfile); (bytes "cd", Cmd_chdir); (bytes "pwd", Cmd_pwd);
   (bytes "sync", Cmd_sync); (bytes "panic", Cmd_panic); (bytes "q", Cmd_quit); (bytes "exit", Cmd_quit);
   (bytes "halt", Cmd_quit);
   (bytes "1a", Catmousesem); (bytes "1b", Catmouselock); (bytes "1c", Createvehicles);
   (bytes "kh", Cmd_kheapstats);
   (bytes "at", Arraytest); (bytes "bt", Bitmaptest); (bytes "qt", Queuetest); (bytes "km1", Malloctest);
   (bytes "km2", Mallocstress); (bytes "tt1", Threadtest); (bytes "tt2", Threadtest2); (bytes "tt3", Threadtest3);
   (bytes "sy1", Semtest);
   (bytes "sy2", Locktest); (bytes "sy3", Cvtest);
   (bytes "fs1", Fstest); (bytes "fs2", Readstress); (bytes "fs3", Writestress); (bytes "fs4", Writestress2);
   (bytes "fs5", Createstress)].

(** " \t" and ";" *)
Definition blanks : list Z := [32; 9].
Definition semicolon : list Z := [59].

(** ** Lines *)

Section menu.
(** The state of the kernel with its memory, the addresses of the literals, and the functions of the
    table. *)
Context {St : Type} (memL : lens St mem) (lit : list Z -> Z) (run : cmd -> list Z -> M St unit).

Definition in_mem {A} (m : M mem A) : M St A := zoom memL m.

(** The words of a command; [string] is the command at the first call of [strtok_r] and [NULL] after
    it. *)
Fixpoint args_loop (fuel : nat) (string context : Z) (args : list Z) : M St (list Z) :=
  match fuel with
  | O => nofuel
  | S fuel' =>
      r ← in_mem (strtok_r string (lit blanks) context);
      if decide (r.1 = 0) then mret args
      else if decide (Z.of_nat (length args) >= MAXMENUARGS) then fail E2BIG
      else args_loop fuel' 0 r.2 (args ++ [r.1])
  end.

Fixpoint find_cmd (table : list (list Z * cmd)) (name : Z) : M St (option cmd) :=
  match table with
  | [] => mret None
  | (n, c) :: table' =>
      r ← (if decide (n = []) then mret 1 else in_mem (strcmp name (lit n)));
      if decide (r = 0) then mret (Some c) else find_cmd table' name
  end.

Definition cmd_dispatch (command : Z) : M St unit :=
  n ← in_mem scan;
  args ← args_loop n command 0 [];
  match args with
  | [] => mret tt
  | name :: _ =>
      c ← find_cmd cmdtable name;
      match c with
      | Some c => run c args
      | None => fail EINVAL
      end
  end.

Fixpoint execute_loop (fuel : nat) (string context : Z) (isargs : bool) : M St unit :=
  match fuel with
  | O => nofuel
  | S fuel' =>
      r ← in_mem (strtok_r string (lit semicolon) context);
      if decide (r.1 = 0) then mret tt
      else
        result ← attempt (cmd_dispatch r.1);
        (match result with
         | inl _ => if isargs then panic else mret tt
         | inr _ => mret tt
         end) ;;
        execute_loop fuel' 0 r.2 isargs
  end.
Definition menu_execute (line : Z) (isargs : bool) : M St unit := n ← in_mem scan; execute_loop n line 0 isargs.

(** The lines of [input], until the menu waits for more; [buf] is the address of its buffer. *)
Fixpoint menu_loop (fuel : nat) (buf : Z) (input : list Z) : M St unit :=
  match fuel with
  | O => nofuel
  | S fuel' =>
      r ← in_mem (kgets input buf 64);
      match r with
      | None => mret tt
      | Some rest => menu_execute buf false ;; menu_loop fuel' buf rest
      end
  end.
Definition menu (args buf : Z) (input : list Z) : M St unit :=
  menu_execute args true ;; menu_loop (S (length input)) buf input.

End menu.

(** ** Commands *)

Section commands.
Context {W : Type} `{!Vfs.FileSystems W}.
Abbreviation kst := (mem * Vfs.vfs W)%type.
(** A path is passed to the name space by value; the code lets it overwrite the word.  The arguments:
    the literals, the start of a thread with a name and arguments, the mount function of SFS, the shutdown, the exit
    of the current thread, and the exercises and tests. *)
Context (lit : list Z -> Z) (thread_fork : Z -> list Z -> M kst unit) (sfs_domount : Z -> M W Z)
  (sys_reboot : M kst unit) (thread_exit : M kst unit) (others : cmd -> list Z -> M kst unit).

Definition kmemL : lens kst mem := Lens fst (fun m s => (m, s.2)).
Definition kvfsL : lens kst (Vfs.vfs W) := Lens snd (fun v s => (s.1, v)).

Definition string_at (p : Z) : M mem (list Z) := n ← strlen p; loads (Z.to_nat n) p.
(** The [i]th word. *)
Definition arg (args : list Z) (i : Z) : M kst Z := access (zlookup args i).

Definition common_prog (args : list Z) : M kst unit := name ← arg args 0; thread_fork name args.

Definition cmd_prog (args : list Z) : M kst unit :=
  if decide (Z.of_nat (length args) < 2) then fail EINVAL else common_prog (drop 1 args).

Definition cmd_shell (args : list Z) : M kst unit :=
  if decide (Z.of_nat (length args) <> 1) then fail EINVAL
  else args ← access (zinsert args 0 (lit (bytes "/bin/sh"))); common_prog args.

Definition cmd_chdir (args : list Z) : M kst unit :=
  if decide (Z.of_nat (length args) <> 2) then fail EINVAL
  else p ← arg args 1; path ← zoom kmemL (string_at p); zoom kvfsL (Vfs.vfs_chdir path).

Definition cmd_pwd : M kst unit := fun '(m, v) =>
  match Vfs.vfs_getcwd (v, Uio.mk_kuio (replicate (Z.to_nat (PATH_MAX + 1)) 0) PATH_MAX 0 Uio.UIO_READ) with
  | Done _ (v', ku) => (if decide (0 <= PATH_MAX - Uio.uio_resid ku <= PATH_MAX) then mret tt else undef) (m, v')
  | Fail e (v', _) => Fail e (m, v')
  | Panic => Panic | Undef => Undef | NoFuel => NoFuel
  end.

Definition cmd_sync : M kst unit := zoom kvfsL Vfs.vfs_sync.
Definition cmd_panic : M kst unit := panic.
Definition cmd_quit : M kst unit := zoom kvfsL Vfs.vfs_sync ;; _ ← attempt sys_reboot; thread_exit.

(** [if (device[strlen(device)-1]==':') device[strlen(device)-1] = 0] *)
Definition strip_colon (device : Z) : M mem unit :=
  n ← strlen device;
  c ← load (device + n - 1);
  if decide (c = 58) then n ← strlen device; store (device + n - 1) 0 else mret tt.

Definition sfs_mount (device : list Z) : M (Vfs.vfs W) unit := Vfs.vfs_mount device sfs_domount.

Definition mounttable : list (list Z * (list Z -> M (Vfs.vfs W) unit)) := [(bytes "sfs", sfs_mount)].

Fixpoint mount_loop (table : list (list Z * (list Z -> M (Vfs.vfs W) unit))) (fstype device : Z) : M kst unit :=
  match table with
  | [] => fail EINVAL
  | (n, f) :: table' =>
      r ← zoom kmemL (strcmp (lit n) fstype);
      if decide (r = 0) then name ← zoom kmemL (string_at device); zoom kvfsL (f name)
      else mount_loop table' fstype device
  end.

Definition cmd_mount (args : list Z) : M kst unit :=
  if decide (Z.of_nat (length args) <> 3) then fail EINVAL
  else
    fstype ← arg args 1;
    device ← arg args 2;
    zoom kmemL (strip_colon device) ;;
    mount_loop mounttable fstype device.

Definition on_device (f : list Z -> M (Vfs.vfs W) unit) (args : list Z) : M kst unit :=
  if decide (Z.of_nat (length args) <> 2) then fail EINVAL
  else
    device ← arg args 1;
    zoom kmemL (strip_colon device) ;;
    name ← zoom kmemL (string_at device);
    zoom kvfsL (f name).
Definition cmd_unmount : list Z -> M kst unit := on_device Vfs.vfs_unmount.
Definition cmd_bootfs : list Z -> M kst unit := on_device Vfs.vfs_setbootfs.

(** The menus and the heap statistics only print. *)
Definition run (c : cmd) (args : list Z) : M kst unit :=
  match c with
  | Cmd_mainmenu | Cmd_opsmenu | Cmd_testmenu | Cmd_kheapstats => mret tt
  | Cmd_shell => cmd_shell args
  | Cmd_prog => cmd_prog args
  | Cmd_mount => cmd_mount args
  | Cmd_unmount => cmd_unmount args
  | Cmd_bootfs => cmd_bootfs args
  | Cmd_chdir => cmd_chdir args
  | Cmd_pwd => cmd_pwd
  | Cmd_sync => cmd_sync
  | Cmd_panic => cmd_panic
  | Cmd_quit => cmd_quit
  | _ => others c args
  end.

End commands.

End Menu.
