(* ===== verification/MenuSpec.v ===== *)
(** * What a command line means

    The line is split at semicolons and each command at blanks; the commands run in order, each with
    its words, whatever the commands do outside of the line. *)

From S2P Require Import Prelude Libc LibcStr Uio Vnode Vfs Kgets Menu.
Import Libc LibcStr Kgets Menu.

Module MenuSpec.

(** ** Times *)

(** The interval is the difference of the times. *)
Lemma getinterval_spec s1 ns1 s2 ns2 :
  0 <= s1 < 2 ^ 31 -> 0 <= s2 < 2 ^ 31 -> 0 <= ns1 < 10 ^ 9 -> 0 <= ns2 < 10 ^ 9 -> s1 * 10 ^ 9 + ns1 <= s2 * 10 ^ 9 + ns2 ->
  let (rs, rns) := getinterval s1 ns1 s2 ns2 in
  rs * 10 ^ 9 + rns = (s2 * 10 ^ 9 + ns2) - (s1 * 10 ^ 9 + ns1) /\ 0 <= rns < 10 ^ 9.
Proof.
  intros H1 H2 H3 H4 Hle. unfold getinterval. case_decide.
  - rewrite (u32_small (ns2 + 1000000000)), (s32_small (s2 - 1)), s32_small, u32_small by lia. lia.
  - rewrite s32_small, u32_small by lia. lia.
Qed.

(** ** The meaning of a line *)

Fixpoint find_name (table : list (list Z * cmd)) (w : list Z) : option cmd :=
  match table with
  | [] => None
  | (n, c) :: table' => if decide (n = w) then Some c else find_name table' w
  end.

(** What the words of a command ask for: nothing, an error, or a function of the table. *)
Definition answer (ws : list (list Z)) : option (errno + cmd) :=
  match ws with
  | [] => None
  | w :: _ =>
      if decide (Z.of_nat (length ws) > MAXMENUARGS) then Some (inl E2BIG)
      else match find_name cmdtable w with Some c => Some (inr c) | None => Some (inl EINVAL) end
  end.

Definition commands_of (l : list Z) : list (list (list Z)) := words blanks <$> words semicolon l.

Definition literals : list (list Z) := [blanks; semicolon] ++ (fst <$> cmdtable).

(** The bytes of the words. *)
Definition own (args : list Z) (ws : list (list Z)) (a : Z) : Prop :=
  exists i p w, args !! i = Some p /\ ws !! i = Some w /\ p <= a < p + Z.of_nat (length w).

(** Returned, with or without an error. *)
Definition returned {S A} (o : outcome S A) (s : S) : Prop := (exists a, o = Done a s) \/ exists e, o = Fail e s.

Lemma returned_bind {S A B} (m : M S A) (k : A -> M S B) s s1 :
  returned ((m ≫= k) s) s1 -> (exists a s', m s = Done a s' /\ returned (k a s') s1) \/ exists e, m s = Fail e s1.
Proof.
  unfold mbind, M_bind. destruct (m s) as [a s'|e s'| | |]; [intros H; left; by exists a, s'|..]; intros [[? E]|[e' E]]; try done.
  injection E as -> ->. right. by exists e'.
Qed.

Section lines.
Context {St : Type} (memL : lens St mem) `{!LensLaws memL} (lit : list Z -> Z) (run : cmd -> list Z -> M St unit).

(** The literals are in memory, outside of [lo .. hi). *)
Definition lits_in (m : mem) (lo hi : Z) : Prop :=
  forall s, s ∈ literals -> 0 < lit s /\ cstr m (lit s) s /\ (lit s + Z.of_nat (length s) < lo \/ hi <= lit s).

(** A command of the words [ws] in a line between [lo] and [hi], of which the separators may have been
    overwritten: the function it names is called with the addresses of its words. *)
Inductive dispatched (lo hi : Z) (ws : list (list Z)) (s : St) : outcome St unit -> Prop :=
  | dispatched_empty m :
      answer ws = None -> agree (lget memL s) m lo hi -> dispatched lo hi ws s (Done tt (lset memL m s))
  | dispatched_error m e :
      answer ws = Some (inl e) -> agree (lget memL s) m lo hi -> dispatched lo hi ws s (Fail e (lset memL m s))
  | dispatched_run m c args :
      answer ws = Some (inr c) -> agree (lget memL s) m lo hi -> Forall2 (cstr m) args ws ->
      (forall a, own args ws a -> lo <= a < hi) -> dispatched lo hi ws s (run c args (lset memL m s)).

(** The commands in order.  A failure is only reported, or panics on the line from the boot loader. *)
Inductive executes (lo hi : Z) (isargs : bool) : list (list (list Z)) -> St -> outcome St unit -> Prop :=
  | executes_nil s : executes lo hi isargs [] s (Done tt s)
  | executes_done ws cs s s1 o :
      dispatched lo hi ws s (Done tt s1) -> executes lo hi isargs cs s1 o -> executes lo hi isargs (ws :: cs) s o
  | executes_failed ws cs s e s1 o :
      isargs = false -> dispatched lo hi ws s (Fail e s1) -> executes lo hi isargs cs s1 o ->
      executes lo hi isargs (ws :: cs) s o
  | executes_boot ws cs s e s1 :
      isargs = true -> dispatched lo hi ws s (Fail e s1) -> executes lo hi isargs (ws :: cs) s Panic
  | executes_stop ws cs s o :
      dispatched lo hi ws s o -> ~ safe o -> executes lo hi isargs (ws :: cs) s o.

(** ** Words and names *)

Lemma in_mem_Done {A} (f : M mem A) m s a m' : f m = Done a m' -> in_mem memL f (lset memL m s) = Done a (lset memL m' s).
Proof. intros E. unfold in_mem, zoom. rewrite lget_lset, E. by rewrite lset_lset. Qed.

Lemma lits_agree m m' lo hi : lits_in m lo hi -> agree m m' lo hi -> lits_in m' lo hi.
Proof. intros H A s Hs. destruct (H s Hs) as (? & ? & ?). split; [done|]. split; [|done]. by apply (agree_cstr m m' lo hi). Qed.

Lemma lits_narrow m lo hi lo' hi' : lits_in m lo hi -> lo <= lo' -> hi' <= hi -> lits_in m lo' hi'.
Proof. intros H ? ? s Hs. destruct (H s Hs) as (? & ? & ?). split; [done|]. split; [done|lia]. Qed.

Lemma find_cmd_eq table m name w lo hi s :
  (forall n, n ∈ fst <$> table -> n ∈ literals) -> lits_in m lo hi -> cstr m name w -> Z.of_nat (length w) < 2 ^ 32 -> w <> [] ->
  find_cmd memL lit table name (lset memL m s) = Done (find_name table w) (lset memL m s).
Proof.
  intros Hin Hl Hw Hlen Hne. induction table as [|[n c] table IH]; [done|]. cbn [find_cmd find_name].
  destruct (Hl n (Hin n (list_elem_of_here _ _))) as (_ & Hn & _).
  assert (IH' := IH ltac:(intros x Hx; apply Hin; cbn; by apply elem_of_cons; right)).
  destruct (decide (n = [])) as [->|Hnn].
  - rewrite (bind_Done _ _ _ 1 (lset memL m s)) by done. rewrite decide_False by done. by rewrite decide_False by congruence.
  - rewrite (bind_Done _ _ _ _ _ (in_mem_Done _ _ _ _ _ (strcmp_eq m name (lit n) w n Hw Hn Hlen))).
    destruct (decide (n = w)) as [->|D]; [by rewrite decide_True by (by apply order_zero)|].
    rewrite decide_False; [done|]. intros E. apply D. symmetry. by apply order_zero.
Qed.

Lemma strtok_null q m : strtok_r 0 q 0 m = Done (0, 0) m.
Proof. done. Qed.

Lemma own_cons p ps w ws a : own (p :: ps) (w :: ws) a <-> p <= a < p + Z.of_nat (length w) \/ own ps ws a.
Proof.
  split.
  - intros ([|i] & q & u & Hq & Hu & Ha); [left; by simplify_eq/=|right; by exists i, q, u].
  - intros [Ha|(i & q & u & ? & ? & ?)]; [by exists O, p, w|by exists (S i), q, u].
Qed.

Lemma own_nil ws a : ~ own [] ws a.
Proof. by intros (i & p & w & Hp & _). Qed.

(** The words of a command are terminated in place; more than the table of words holds are an error. *)
Lemma args_loop_eq fuel string context p l m s (args : list Z) :
  (if decide (string <> 0) then string else context) = p -> 0 < p -> cstr m p l -> lits_in m p (p + Z.of_nat (length l)) ->
  (length l < fuel)%nat -> Z.of_nat (length args) <= MAXMENUARGS ->
  exists m', agree m m' p (p + Z.of_nat (length l)) /\
  if decide (Z.of_nat (length args) + Z.of_nat (length (words blanks l)) > MAXMENUARGS) then
    args_loop memL lit fuel string context args (lset memL m s) = Fail E2BIG (lset memL m' s)
  else exists ps, args_loop memL lit fuel string context args (lset memL m s) = Done (args ++ ps) (lset memL m' s) /\
    Forall2 (cstr m') ps (words blanks l) /\ (forall a, own ps (words blanks l) a -> p <= a < p + Z.of_nat (length l)).
Proof.
  revert string context p l m args. induction fuel as [|fuel IH]; intros string context p l m args Hp Hp0 Hs Hl Hf Hn; [lia|].
  destruct (Hl blanks (list_elem_of_here _ _)) as (Hb0 & Hb & _). cbn [args_loop].
  destruct (strtok_step m string (lit blanks) context p l blanks Hp Hp0 Hs Hb0 Hb) as [(Ew & E)|(a & w & c & m1 & E & Ha & Haw & Hw & A & Hc)].
  { rewrite (bind_Done _ _ _ _ _ (in_mem_Done _ _ s _ _ E)). cbn [fst]. rewrite decide_True by done. exists m. split; [done|]. rewrite Ew.
    rewrite decide_False by (cbn [length]; lia). exists []. rewrite app_nil_r. split; [done|]. split; [constructor|]. by intros x (i & q & u & Hi & _). }
  rewrite (bind_Done _ _ _ _ _ (in_mem_Done _ _ s _ _ E)). cbn [fst snd]. rewrite decide_False by lia.
  pose proof (lits_agree _ _ _ _ Hl A) as Hl1. assert (Hl0 : l <> []) by (intros ->; by destruct Hc as [[_ ?]|(? & ? & _)]).
  destruct (decide (Z.of_nat (length args) >= MAXMENUARGS)) as [Hfull|Hroom].
  { exists m1. split; [done|]. rewrite decide_True; [done|]. destruct Hc as [[_ ->]|(r & -> & _)]; cbn [length]; lia. }
  destruct Hc as [[-> ->]|(r & -> & Hac & Hr & Hcr)].
  - exists m1. split; [done|]. rewrite decide_False by (cbn [length]; lia). destruct fuel as [|fuel]; [destruct l; cbn [length] in *; [done|lia]|].
    cbn [args_loop]. rewrite (bind_Done _ _ _ _ _ (in_mem_Done _ _ s _ _ (strtok_null _ m1))). cbn [fst]. rewrite decide_True by done.
    exists [a]. split; [done|]. split; [constructor; [exact Hw|constructor]|]. intros x [Hx|Hx]%own_cons; [lia|by apply own_nil in Hx].
  - destruct (IH 0 c c r m1 (args ++ [a]) eq_refl ltac:(lia) Hr (lits_narrow _ _ _ c (c + Z.of_nat (length r)) Hl1 ltac:(lia) ltac:(lia)) ltac:(lia)
      ltac:(rewrite length_app; cbn [length]; lia)) as (m2 & A2 & H). exists m2.
    split; [apply (agree_trans m m1 m2 _ _ c (c + Z.of_nat (length r))); [done|done|lia|lia]|]. rewrite length_app in H. cbn [length] in *.
    destruct (decide (Z.of_nat (length args) + Z.of_nat (S (length (words blanks r))) > MAXMENUARGS)) as [D|D];
      [rewrite decide_True in H by lia; done|rewrite decide_False in H by lia].
    destruct H as (ps & E2 & H2 & Ho). exists (a :: ps). rewrite <-app_assoc in E2. split; [exact E2|]. split.
    + constructor; [|done]. apply (agree_cstr m1 m2 c (c + Z.of_nat (length r))); [done..|lia].
    + intros x [Hx|Hx%Ho]%own_cons; lia.
Qed.

Lemma words_nonempty seps l w : w ∈ words seps l -> w <> [] /\ (length w <= length l)%nat.
Proof.
  unfold words. assert (H : forall cur, w ∈ words_from seps cur l -> w <> [] /\ (length w <= length cur + length l)%nat).
  { induction l as [|b l IH]; intros cur; cbn [words_from].
    - case_decide; [by intros ?%elem_of_nil|]. intros ->%list_elem_of_singleton. rewrite length_reverse. split; [|lia].
      intros E. by apply (f_equal reverse) in E; rewrite reverse_involutive in E.
    - destruct (is_sep seps b); [|intros [? ?]%IH; split; [done|]; cbn [length] in *; lia].
      intros [Hw|[? ?]%IH]%elem_of_app; [|split; [done|]; cbn [length] in *; lia].
      case_decide; [by apply elem_of_nil in Hw|]. apply list_elem_of_singleton in Hw as ->. rewrite length_reverse. split; [|lia].
      intros E. by apply (f_equal reverse) in E; rewrite reverse_involutive in E. }
  apply H.
Qed.

Lemma words_all seps l : Forall (fun w => w <> []) (words seps l).
Proof. apply Forall_forall. intros w Hw. by apply words_nonempty in Hw as [? _]. Qed.

(** One command. *)
Lemma dispatch_spec p l s lo hi :
  0 < p -> cstr (lget memL s) p l -> lits_in (lget memL s) lo hi -> lo <= p -> p + Z.of_nat (length l) <= hi ->
  Z.of_nat (length l) < 2 ^ 32 ->
  dispatched lo hi (words blanks l) s (cmd_dispatch memL lit run p s).
Proof.
  intros Hp Hs Hl Hlo Hhi Hlen. unfold cmd_dispatch. pose proof (cstr_size _ _ _ Hs) as Hsz. set (m := lget memL s) in *.
  assert (Hms : lset memL m s = s) by apply lset_lget. pose proof (in_mem_Done scan m s _ _ (scan_eq m)) as Es. rewrite Hms in Es.
  rewrite (bind_Done _ _ _ _ _ Es). clear Es. rewrite <-Hms at 2.
  destruct (args_loop_eq (S (size m)) p 0 p l m s [] ltac:(by rewrite decide_True by lia) Hp Hs (lits_narrow _ _ _ _ _ Hl Hlo Hhi) ltac:(lia) ltac:(by vm_compute))
    as (m' & A & H). apply (fun x => agree_trans m m m' lo hi _ _ (agree_refl _ _ _) x Hlo Hhi) in A. cbn [length app] in H. case_decide as D.
  - rewrite (bind_Fail _ _ _ _ _ H). apply dispatched_error; [|done]. unfold answer. destruct (words blanks l); [cbn [length] in D; unfold MAXMENUARGS in D; lia|].
    by rewrite decide_True by lia.
  - destruct H as (ps & E & Hps & Ho). rewrite (bind_Done _ _ _ _ _ E). destruct (words blanks l) as [|w ws] eqn:Ew.
    { apply Forall2_nil_inv_r in Hps as ->. by apply dispatched_empty. }
    apply Forall2_cons_inv_r in Hps as Hps'. destruct Hps' as (p0 & ps0 & Hw & _ & ->).
    destruct (words_nonempty blanks l w ltac:(rewrite Ew; apply list_elem_of_here)) as [Hne Hwl].
    rewrite (bind_Done _ _ _ _ _ (find_cmd_eq cmdtable m' p0 w lo hi s ltac:(intros n Hn; apply elem_of_app; by right) (lits_agree _ _ _ _ Hl A) Hw ltac:(lia) Hne)).
    destruct (find_name cmdtable w) as [c|] eqn:Ef.
    + apply dispatched_run; [|done|done|intros a Ha; apply Ho in Ha; lia]. unfold answer. rewrite decide_False by lia. by rewrite Ef.
    + apply dispatched_error; [|done]. unfold answer. rewrite decide_False by lia. by rewrite Ef.
Qed.

(** ** Lines *)

Definition lit_byte (a : Z) : Prop := exists l, l ∈ literals /\ lit l <= a <= lit l + Z.of_nat (length l).

(** A command changes, of the line and the literals, at most its own words. *)
Definition keeps_line (lo hi : Z) : Prop := forall c args ws s s1 a,
  Forall2 (cstr (lget memL s)) args ws -> Forall (fun w => w <> []) ws -> (forall x, own args ws x -> lo <= x < hi) ->
  returned (run c args s) s1 ->
  lo <= a < hi \/ lit_byte a -> ~ own args ws a -> lget memL s1 !! a = lget memL s !! a.

Lemma dispatched_widen lo hi lo' hi' ws m s o :
  dispatched lo' hi' ws (lset memL m s) o -> agree (lget memL s) m lo hi -> lo <= lo' -> hi' <= hi -> dispatched lo hi ws s o.
Proof.
  intros D A Hlo Hhi. assert (H : forall m', agree (lget memL (lset memL m s)) m' lo' hi' -> agree (lget memL s) m' lo hi).
  { intros m'. rewrite lget_lset. intros A'. by apply (agree_trans _ m m' lo hi lo' hi'). }
  destruct D as [m' Ha A'|m' e Ha A'|m' c args Ha A' Hw Ho]; rewrite lset_lset.
  - apply dispatched_empty; auto.
  - apply dispatched_error; auto.
  - apply dispatched_run; auto. intros a Hown. apply Ho in Hown. lia.
Qed.

Lemma dispatched_keeps lo hi lo' hi' ws s o s1 a :
  keeps_line lo hi -> dispatched lo' hi' ws s o -> Forall (fun w => w <> []) ws -> returned o s1 -> lo <= lo' -> hi' <= hi ->
  lo <= a < hi \/ lit_byte a -> ~ (lo' <= a < hi') -> lget memL s1 !! a = lget memL s !! a.
Proof.
  intros K D Hne R Hlo Hhi Ha Hn. destruct D as [m Hans A|m e Hans A|m c args Hans A Hw Ho].
  - destruct R as [[? [= _ <-]]|[e [=]]]. rewrite lget_lset. by apply A.
  - destruct R as [[? [=]]|[e' [= -> <-]]]. rewrite lget_lset. by apply A.
  - rewrite (K c args ws (lset memL m s) s1 a); [|by rewrite lget_lset|done|intros x Hx; apply Ho in Hx; lia|done|done|intros Hx; by apply Ho in Hx].
    rewrite lget_lset. by apply A.
Qed.

Lemma cstr_same m m' p l : cstr m p l -> (forall x, p <= x <= p + Z.of_nat (length l) -> m' !! x = m !! x) -> cstr m' p l.
Proof.
  intros [H Hf] E. split; [|done]. intros i b Hi. pose proof (lookup_lt_Some _ _ _ Hi) as Hlt. rewrite length_app in Hlt. cbn [length] in Hlt.
  rewrite E by lia. by apply H.
Qed.

Lemma lits_same m m' lo hi :
  lits_in m lo hi -> (forall x, lit_byte x -> ~ (lo <= x < hi) -> m' !! x = m !! x) -> lits_in m' lo hi.
Proof.
  intros H E l Hl. destruct (H l Hl) as (? & ? & Ho). split; [done|]. split; [|done]. apply (cstr_same m); [done|].
  intros x Hx. apply E; [by exists l|lia].
Qed.

(** A command and then the rest. *)
Lemma execute_cons lo hi isargs fuel a c ws cs s s1 :
  dispatched lo hi ws s (cmd_dispatch memL lit run a s1) ->
  (forall s2, returned (cmd_dispatch memL lit run a s1) s2 -> executes lo hi isargs cs s2 (execute_loop memL lit run fuel 0 c isargs s2)) ->
  executes lo hi isargs (ws :: cs) s ((result ← attempt (cmd_dispatch memL lit run a);
    (match result with inl _ => if isargs then panic else mret tt | inr _ => mret tt end) ;; execute_loop memL lit run fuel 0 c isargs) s1).
Proof.
  intros D H. destruct (cmd_dispatch memL lit run a s1) as [[] s2|e s2| | |] eqn:E.
  - rewrite (bind_Done _ _ _ _ _ (attempt_Done _ _ _ _ E)). eapply executes_done; [exact D|]. apply H. left. by exists tt.
  - rewrite (bind_Done _ _ _ _ _ (attempt_Fail _ _ _ _ E)). destruct isargs; [by eapply executes_boot|].
    eapply executes_failed; [done|exact D|]. apply H. right. by exists e.
  - unfold mbind at 1, M_bind at 1, attempt. rewrite E. by apply executes_stop; [|intros []].
  - unfold mbind at 1, M_bind at 1, attempt. rewrite E. by apply executes_stop; [|intros []].
  - unfold mbind at 1, M_bind at 1, attempt. rewrite E. by apply executes_stop; [|intros []].
Qed.

Lemma execute_loop_eq lo hi isargs fuel string context p l s :
  keeps_line lo hi -> (if decide (string <> 0) then string else context) = p -> 0 < p -> lo <= p -> p + Z.of_nat (length l) < hi ->
  Z.of_nat (length l) < 2 ^ 32 -> cstr (lget memL s) p l -> lits_in (lget memL s) lo hi -> (length l < fuel)%nat ->
  executes lo hi isargs (commands_of l) s (execute_loop memL lit run fuel string context isargs s).
Proof.
  intros K. revert string context p l s. induction fuel as [|fuel IH]; intros string context p l s Hp Hp0 Hlo Hhi Hlen Hs Hl Hf; [lia|].
  set (m := lget memL s) in *. assert (Hms : lset memL m s = s) by apply lset_lget. cbn [execute_loop].
  destruct (Hl semicolon (ltac:(right; left))) as (Hb0 & Hb & _).
  destruct (strtok_step m string (lit semicolon) context p l semicolon Hp Hp0 Hs Hb0 Hb) as [(Ew & E)|(a & w & c & m1 & E & Ha & Haw & Hw & A & Hc)];
    apply (in_mem_Done _ _ s) in E; rewrite Hms in E; rewrite (bind_Done _ _ _ _ _ E); cbn [fst snd]; unfold commands_of.
  { rewrite Ew. rewrite decide_True by done. constructor. }
  assert (Hl0 : l <> []) by (intros ->; by destruct Hc as [[_ ?]|(? & ? & _)]).
  rewrite decide_False by lia. assert (A' : agree m m1 lo hi) by (apply (agree_trans m m m1 lo hi p (p + Z.of_nat (length l))); [done|done|lia|lia]).
  pose proof (lits_agree _ _ _ _ Hl A') as Hl1. set (s1 := lset memL m1 s).
  assert (G1 : lget memL s1 = m1) by apply lget_lset. rewrite <-G1 in Hw, Hl1.
  pose proof (dispatch_spec a w s1 a (a + Z.of_nat (length w)) ltac:(lia) Hw (lits_narrow _ lo hi a (a + Z.of_nat (length w)) Hl1 ltac:(lia) ltac:(lia)) ltac:(lia) ltac:(lia) ltac:(lia)) as D.
  assert (Hkeep : forall s2, returned (cmd_dispatch memL lit run a s1) s2 -> forall x, lo <= x < hi \/ lit_byte x -> ~ (a <= x < a + Z.of_nat (length w)) ->
    lget memL s2 !! x = lget memL s1 !! x) by (intros s2 R x Hx Hn; apply (dispatched_keeps lo hi _ _ _ _ _ s2 x K D); [apply words_all|done|lia|lia|done|done]).
  apply (dispatched_widen lo hi) in D; [|done|lia|lia].
  destruct Hc as [[-> ->]|(r & -> & Hac & Hr & Hcr)]; cbn [fmap list_fmap]; apply execute_cons; try exact D; intros s2 R.
  - destruct fuel as [|fuel]; [destruct l; [done|cbn [length] in *; lia]|]. cbn [execute_loop].
    pose proof (in_mem_Done _ _ s2 _ _ (strtok_null (lit semicolon) (lget memL s2))) as E0. rewrite lset_lget in E0.
    rewrite (bind_Done _ _ _ _ _ E0). cbn [fst]. rewrite decide_True by done. constructor.
  - apply (IH 0 c c r); [done|lia|lia|lia|lia| | |lia].
    + apply (cstr_same (lget memL s1)); [by rewrite G1|]. intros x Hx. apply (Hkeep s2 R); [left; lia|lia].
    + apply (lits_same (lget memL s1)); [done|]. intros x Hx Hn. apply (Hkeep s2 R); [by right|lia].
Qed.

(** A line of the menu. *)
Lemma execute_spec line l isargs s :
  0 < line -> Z.of_nat (length l) < 2 ^ 32 -> cstr (lget memL s) line l ->
  lits_in (lget memL s) line (line + Z.of_nat (length l) + 1) -> keeps_line line (line + Z.of_nat (length l) + 1) ->
  executes line (line + Z.of_nat (length l) + 1) isargs (commands_of l) s (menu_execute memL lit run line isargs s).
Proof.
  intros Hp Hlen Hs Hl K. unfold menu_execute. pose proof (cstr_size _ _ _ Hs) as Hsz.
  pose proof (in_mem_Done scan (lget memL s) s _ _ (scan_eq _)) as Es. rewrite lset_lget in Es. rewrite (bind_Done _ _ _ _ _ Es).
  apply (execute_loop_eq _ _ _ _ _ _ line); [done|by rewrite decide_True by lia|done|lia|lia|done|done|done|lia].
Qed.

End lines.

(** ** The commands of the kernel *)

Definition readonly {A} (f : M mem A) : Prop := forall m m', returned (f m) m' -> m' = m.

Lemma readonly_ret {A} (a : A) : readonly (mret a).
Proof. by intros m m' [[? [= _ <-]]|[? [=]]]. Qed.
Lemma readonly_gets {A} (f : mem -> A) : readonly (gets f).
Proof. by intros m m' [[? [= _ <-]]|[? [=]]]. Qed.
Lemma readonly_nofuel {A} : readonly (A := A) nofuel.
Proof. by intros m m' [[? [=]]|[? [=]]]. Qed.
Lemma readonly_bind {A B} (f : M mem A) (k : A -> M mem B) : readonly f -> (forall a, readonly (k a)) -> readonly (f ≫= k).
Proof.
  intros Hf Hk m m' [(a & m1 & E & R)|[e E]]%returned_bind.
  - apply Hk in R as ->. apply Hf. left. by exists a.
  - apply Hf. right. by exists e.
Qed.
Lemma readonly_load p : readonly (load p).
Proof.
  intros m m' R. change (returned (access (m !! p) m) m') in R. unfold access in R.
  by destruct (m !! p); destruct R as [[? E]|[? E]]; [injection E as _ <-|..].
Qed.

Create HintDb readonly.
#[local] Hint Resolve readonly_ret readonly_gets readonly_nofuel readonly_load : readonly.
Ltac readonly :=
  repeat lazymatch goal with
  | |- readonly (_ ≫= _) => apply readonly_bind; [|intros ?]
  | |- readonly (match ?x with _ => _ end) => destruct x
  end; eauto with readonly.

Lemma readonly_strlen p : readonly (strlen p).
Proof.
  unfold strlen, scan. readonly. generalize 0. match goal with |- context [strlen_loop ?n] => induction n end; intros r; cbn [strlen_loop]; readonly.
Qed.
Lemma readonly_loads n p : readonly (loads n p).
Proof. revert p. induction n; intros p; cbn [loads]; readonly. Qed.
Lemma readonly_strcmp p q : readonly (strcmp p q).
Proof.
  unfold strcmp, scan. readonly. generalize 0. match goal with |- context [strcmp_loop ?n] => induction n end; intros r; cbn [strcmp_loop]; readonly.
Qed.
#[local] Hint Resolve readonly_strlen readonly_loads readonly_strcmp : readonly.
Lemma readonly_string_at p : readonly (string_at p).
Proof. unfold string_at. readonly. Qed.
#[local] Hint Resolve readonly_string_at : readonly.

(** The word without the colon at its end. *)
Definition without_colon (w : list Z) : list Z := if decide (last w = Some 58) then removelast w else w.

Lemma without_colon_length w n : Z.of_nat (length w) < n -> Z.of_nat (length (without_colon w)) < n.
Proof.
  unfold without_colon. case_decide; [|done]. destruct w as [|c w _] using rev_ind; [done|]. rewrite removelast_last, length_app. cbn [length]. lia.
Qed.

Lemma strip_colon_eq m p w :
  cstr m p w -> w <> [] -> Z.of_nat (length w) < 2 ^ 32 ->
  exists m', strip_colon p m = Done tt m' /\ agree m m' p (p + Z.of_nat (length w)) /\ cstr m' p (without_colon w).
Proof.
  intros Hs Hne Hlen. unfold strip_colon, without_colon. rewrite (bind_Done _ _ _ _ _ (strlen_eq m p w Hs Hlen)).
  destruct w as [|c w _] using rev_ind; [done|]. rewrite last_snoc, removelast_last. pose proof Hs as [Hh Hf].
  rewrite <-app_assoc in Hh. apply holds_app in Hh as [Hw Hc]. apply holds_cons in Hc as [Hc Hz].
  rewrite length_app in *. cbn [length] in *. replace (p + Z.of_nat (length w + 1) - 1) with (p + Z.of_nat (length w)) by lia.
  rewrite (bind_Done _ _ _ _ _ (load_eq _ _ _ Hc)). destruct (decide (c = 58)) as [->|D].
  - rewrite decide_True by done. rewrite (bind_Done _ _ _ _ _ (strlen_eq m p (w ++ [58]) Hs ltac:(rewrite length_app; cbn [length]; lia))).
    rewrite length_app. cbn [length]. replace (p + Z.of_nat (length w + 1) - 1) with (p + Z.of_nat (length w)) by lia.
    rewrite (mstore_eq m _ 0 ltac:(by eexists) ltac:(by split)). change (<[p + Z.of_nat (length w) := 0]> m) with (write (p + Z.of_nat (length w)) [0] m).
    eexists. split; [done|]. split; [intros a Ha; apply write_out; cbn [length]; lia|]. apply Forall_app in Hf as [Hf _]. split; [|done].
    apply holds_app. split; [apply holds_write_out; [done|lia]|apply holds_write].
  - rewrite decide_False by congruence. exists m. split; [done|]. split; [apply agree_refl|done].
Qed.

Section kernel.
Context {W : Type} {FS : Vfs.FileSystems W}.
Abbreviation kst := (mem * Vfs.vfs W)%type.
Context (lit : list Z -> Z) (thread_fork : Z -> list Z -> M kst unit) (sfs_domount : Z -> M W Z)
  (sys_reboot : M kst unit) (thread_exit : M kst unit) (others : cmd -> list Z -> M kst unit).

#[local] Instance kmem_laws : LensLaws (kmemL (W := W)).
Proof. split; [done|by intros []|done]. Qed.

(** [f] changes no byte of [P]. *)
Definition leaves {A} (P : Z -> Prop) (f : M kst A) : Prop :=
  forall s s1, returned (f s) s1 -> forall a, P a -> s1.1 !! a = s.1 !! a.

Lemma leaves_same {A} P (f : M kst A) : (forall s s1, returned (f s) s1 -> s1 = s) -> leaves P f.
Proof. intros H s s1 R a _. by rewrite (H s s1 R). Qed.
Lemma leaves_ret {A} P (a : A) : leaves P (mret a).
Proof. apply leaves_same. by intros s s1 [[? [= _ <-]]|[? [=]]]. Qed.
Lemma leaves_fail {A} P e : leaves (A := A) P (fail e).
Proof. apply leaves_same. by intros s s1 [[? [=]]|[? [= _ <-]]]. Qed.
Lemma leaves_panic {A} P : leaves (A := A) P panic.
Proof. by intros s s1 [[? [=]]|[? [=]]]. Qed.
Lemma leaves_access {A} P (o : option A) : leaves P (access o).
Proof. apply leaves_same. unfold access. intros s s1. by destruct o; intros [[? E]|[? E]]; [injection E as _ <-|..]. Qed.
Lemma leaves_bind {A B} P (f : M kst A) (k : A -> M kst B) : leaves P f -> (forall a, leaves P (k a)) -> leaves P (f ≫= k).
Proof.
  intros Hf Hk s s1 [(b & s' & E & R)|[e E]]%returned_bind a Ha.
  - rewrite (Hk b s' s1 R a Ha). apply (Hf s); [left; by exists b|done].
  - apply (Hf s); [right; by exists e|done].
Qed.
Lemma leaves_attempt {A} P (f : M kst A) : leaves P f -> leaves P (attempt f).
Proof.
  intros Hf s s1 R. apply Hf. revert R. unfold attempt. destruct (f s) as [b s'|e s'| | |]; intros [[? E]|[? E]]; try done;
    injection E as _ <-; [left|right]; by eexists.
Qed.
Lemma leaves_vfs {A} P (f : M (Vfs.vfs W) A) : leaves P (zoom kvfsL f).
Proof. intros s s1. unfold zoom. destruct (f _); intros [[? E]|[? E]]; try done; injection E as _ <-; done. Qed.
Lemma leaves_mem {A} P (f : M mem A) : readonly f -> leaves P (zoom kmemL f).
Proof.
  intros Hf. apply leaves_same. intros [m v] s1. unfold zoom. cbn [kmemL lget lset fst snd]. specialize (Hf m).
  destruct (f m) as [b m'|e m'| | |]; intros [[? E]|[? E]]; try done; injection E as _ <-;
    (rewrite (Hf m'); [done|]); [left|right]; by eexists.
Qed.

#[local] Hint Resolve leaves_ret leaves_fail leaves_panic leaves_access leaves_vfs leaves_mem leaves_attempt : readonly.
Ltac leaves :=
  repeat lazymatch goal with
  | |- leaves _ (_ ≫= _) => apply leaves_bind; [|intros ?]
  | |- leaves _ (match ?x with _ => _ end) => destruct x
  end; eauto with readonly.

Lemma leaves_mount P table fstype device : leaves P (mount_loop lit table fstype device).
Proof. induction table as [|[n f] table IH]; cbn [mount_loop]; leaves. Qed.
Lemma leaves_pwd P : leaves P cmd_pwd.
Proof.
  intros [m v] s1. unfold cmd_pwd. destruct (Vfs.vfs_getcwd _) as [b [v' ku]|e [v' ku]| | |]; [case_decide|..]; intros [[? E]|[? E]]; try done; by injection E as _ <-.
Qed.

(** Of the words, the one that names the device is changed. *)
Lemma strip_then {A} (k : M kst A) args ws i p s s1 a :
  Forall2 (cstr s.1) args ws -> Forall (fun w => w <> [] /\ Z.of_nat (length w) < 2 ^ 32) ws -> args !! i = Some p -> leaves (eq a) k ->
  returned ((zoom kmemL (strip_colon p) ;; k) s) s1 -> ~ own args ws a -> s1.1 !! a = s.1 !! a.
Proof.
  intros Hw Hne Hi Hk R Hn. destruct (Forall2_lookup_l _ _ _ _ _ Hw Hi) as (w & Ew & Hs). rewrite Forall_lookup in Hne. destruct (Hne _ _ Ew) as [Hw0 Hlen].
  destruct (strip_colon_eq s.1 p w Hs Hw0 Hlen) as (m' & E & A' & _).
  rewrite (bind_Done _ _ _ tt (m', s.2)) in R by (unfold zoom; cbn [kmemL lget lset]; by rewrite E).
  rewrite (Hk _ _ R a eq_refl). apply A'. intros Ha. apply Hn. by exists i, p, w.
Qed.

(** The line and the literals. *)
Definition guarded (lo hi a : Z) : Prop := lo <= a < hi \/ lit_byte lit a.

(** The functions the menu gets from other parts of the kernel leave the line and the literals as they are; an
    exercise or test may change its own words. *)
Record calls_keep (lo hi : Z) : Prop := {
  keep_fork : forall name args, leaves (guarded lo hi) (thread_fork name args);
  keep_reboot : leaves (guarded lo hi) sys_reboot;
  keep_exit : leaves (guarded lo hi) thread_exit;
  keep_others : keeps_line kmemL lit others lo hi;
}.

Abbreviation krun := (run lit thread_fork sfs_domount sys_reboot thread_exit others).

Lemma run_keeps lo hi : hi - lo < 2 ^ 32 -> calls_keep lo hi -> keeps_line kmemL lit krun lo hi.
Proof.
  intros Hsz [Hfork Hreboot Hexit Hothers] c args ws s s1 a Hw Hne Ho R Hg Hn. cbn [lget kmemL] in *.
  assert (Hbig : Forall (fun w => w <> [] /\ Z.of_nat (length w) < 2 ^ 32) ws).
  { apply Forall_lookup. intros i w Ew. rewrite Forall_lookup in Hne. specialize (Hne i w Ew). split; [done|].
    destruct (Forall2_lookup_r _ _ _ _ _ Hw Ew) as (p & Ep & _). assert (0 < length w)%nat by (destruct w; [done|cbn; lia]).
    pose proof (Ho p ltac:(exists i, p, w; split; [done|]; split; [done|lia])).
    pose proof (Ho (p + Z.of_nat (length w) - 1) ltac:(exists i, p, w; split; [done|]; split; [done|lia])). lia. }
  assert (Hl : leaves (guarded lo hi) (krun c args) -> s1.1 !! a = s.1 !! a) by (intros L; by apply (L s s1 R)).
  assert (Hdev : forall f, returned (on_device f args s) s1 -> s1.1 !! a = s.1 !! a).
  { intros f. unfold on_device. case_decide; [intros R'; by apply (leaves_fail (eq a) EINVAL s s1 R')|]. unfold arg.
    destruct (zlookup args 1) as [p|] eqn:E1; cbn [access]; [|by intros [[? [=]]|[? [=]]]]. apply zlookup_Some in E1 as [_ E1].
    intros R'. eapply (strip_then _ args ws _ p s s1 a Hw Hbig E1); [|exact R'|done]. leaves. }
  destruct c; cbn [run] in R, Hl; try (by apply Hl; unfold cmd_shell, cmd_prog, common_prog, cmd_chdir, cmd_sync, cmd_panic, cmd_quit, arg; leaves);
    try (by apply (Hdev _ R)); try exact (Hothers _ args ws s s1 a Hw Hne Ho R Hg Hn); [|by apply Hl, leaves_pwd].
  unfold cmd_mount, arg in R. case_decide; [by apply (leaves_fail (eq a) EINVAL s s1 R)|].
  destruct (zlookup args 1) as [p1|]; cbn [access] in R; [|by destruct R as [[? [=]]|[? [=]]]].
  destruct (zlookup args 2) as [p2|] eqn:E2; cbn [access] in R; [|by destruct R as [[? [=]]|[? [=]]]]. apply zlookup_Some in E2 as [_ E2].
  eapply (strip_then _ args ws _ p2 s s1 a Hw Hbig E2); [|exact R|done]. apply leaves_mount.
Qed.

Lemma kmem_Done {A} (f : M mem A) m (v : Vfs.vfs W) a m' : f m = Done a m' -> zoom kmemL f (m, v) = Done a (m', v).
Proof. intros E. unfold zoom. cbn [kmemL lget lset fst snd]. by rewrite E. Qed.

Lemma string_at_eq m p w : cstr m p w -> Z.of_nat (length w) < 2 ^ 32 -> string_at p m = Done w m.
Proof.
  intros Hs Hlen. unfold string_at. rewrite (bind_Done _ _ _ _ _ (strlen_eq m p w Hs Hlen)), Nat2Z.id. apply loads_eq.
  destruct Hs as [Hs _]. by apply holds_app in Hs as [? _].
Qed.

(** Mounting: a file system of type sfs on the device, named with a colon or without. *)
Lemma cmd_mount_spec m v a0 a1 a2 t w :
  cstr m a1 t -> cstr m a2 w -> w <> [] -> Z.of_nat (length w) < 2 ^ 32 -> cstr m (lit (bytes "sfs")) (bytes "sfs") ->
  (a1 + Z.of_nat (length t) < a2 \/ a2 + Z.of_nat (length w) <= a1) ->
  (lit (bytes "sfs") + 3 < a2 \/ a2 + Z.of_nat (length w) <= lit (bytes "sfs")) ->
  exists m', agree m m' a2 (a2 + Z.of_nat (length w)) /\
    cmd_mount lit sfs_domount [a0; a1; a2] (m, v) =
      if decide (t = bytes "sfs") then zoom kvfsL (Vfs.vfs_mount (without_colon w) sfs_domount) (m', v) else Fail EINVAL (m', v).
Proof.
  intros Ht Hw Hne Hlen Hl Ho1 Ho2. destruct (strip_colon_eq m a2 w Hw Hne Hlen) as (m' & E & A & Hs). exists m'. split; [done|].
  unfold cmd_mount. rewrite decide_False by (cbn [length]; lia). rewrite (bind_Done _ _ _ a1 (m, v)) by done. rewrite (bind_Done _ _ _ a2 (m, v)) by done.
  rewrite (bind_Done _ _ _ _ _ (kmem_Done _ _ v _ _ E)). cbn [mount_loop mounttable].
  assert (Ht' : cstr m' a1 t) by (by apply (agree_cstr m m' a2 (a2 + Z.of_nat (length w)))).
  assert (Hl' : cstr m' (lit (bytes "sfs")) (bytes "sfs")) by (by apply (agree_cstr m m' a2 (a2 + Z.of_nat (length w)))).
  rewrite (bind_Done _ _ _ _ _ (kmem_Done _ _ v _ _ (strcmp_eq m' _ _ _ _ Hl' Ht' ltac:(cbn; lia)))).
  destruct (decide (t = bytes "sfs")) as [->|D].
  - rewrite decide_True by (by apply order_zero). rewrite (bind_Done _ _ _ _ _ (kmem_Done _ _ v _ _ (string_at_eq m' a2 (without_colon w) Hs (without_colon_length w _ Hlen)))). done.
  - rewrite decide_False; [done|]. intros E0. apply D. symmetry. by apply order_zero.
Qed.

(** ** The property *)

(** C33: A line runs its commands, those between semicolons, in order: the function of the table with the name that is the
    first word is called with all the words; more than 16 words are [E2BIG], an unknown name
    [EINVAL], and no words nothing. *)
Theorem menu_execute_correct line l isargs s :
  0 < line -> Z.of_nat (length l) + 1 < 2 ^ 32 -> cstr s.1 line l -> lits_in lit s.1 line (line + Z.of_nat (length l) + 1) ->
  calls_keep line (line + Z.of_nat (length l) + 1) ->
  executes kmemL krun line (line + Z.of_nat (length l) + 1) isargs (commands_of l) s (menu_execute kmemL lit krun line isargs s).
Proof.
  intros Hp Hlen Hs Hl K. apply (execute_spec kmemL lit krun line l isargs s Hp ltac:(lia) Hs Hl). apply run_keeps; [lia|done].
Qed.

End kernel.

End MenuSpec.
