(* ===== verification/Loadelf.v ===== *)
(** * Programs: kern/userprog/loadelf.c

    An executable file in ELF format is read into the current address space.  The
    file, through its vnode, and the address space are reached through the interface [Program]. *)

From S2P Require Import Prelude Uio.
Import Uio.

Module Loadelf.

(** ** kern/include/elf.h: the fields are in the byte order of the machine *)

Record Elf_Ehdr := mkehdr {
  e_ident : list Z;
  e_type : Z;
  e_machine : Z;
  e_version : Z;
  e_entry : Z;
  e_phoff : Z;
  e_phentsize : Z;
  e_phnum : Z;
}.

Record Elf_Phdr := mkphdr {
  p_type : Z;
  p_offset : Z;
  p_vaddr : Z;
  p_filesz : Z;
  p_memsz : Z;
  p_flags : Z;
}.

Definition sizeof_ehdr : Z := 52.
Definition sizeof_phdr : Z := 32.

(** The field of [n] bytes at [o]. *)
Definition be (b : list Z) (o n : nat) : Z := foldl (fun v x => v * 256 + x) 0 (take n (drop o b)).

(** The structures as they are in memory. *)
Definition ehdr_of (b : list Z) : Elf_Ehdr :=
  mkehdr (take 16 b) (be b 16 2) (be b 18 2) (be b 20 4) (be b 24 4) (be b 28 4) (be b 42 2) (be b 44 2).
Definition phdr_of (b : list Z) : Elf_Phdr := mkphdr (be b 0 4) (be b 4 4) (be b 8 4) (be b 16 4) (be b 20 4) (be b 24 4).

Definition PT_NULL : Z := 0.
Definition PT_LOAD : Z := 1.
Definition PT_PHDR : Z := 6.
Definition PT_MIPS_REGINFO : Z := 0x70000000.
Definition PF_X : Z := 1.

(** Magic number, class, byte order and version in [e_ident], then version, type and machine. *)
Definition ehdr_ok (eh : Elf_Ehdr) : bool :=
  bool_decide (take 7 (e_ident eh) = [127; 69; 76; 70; 1; 2; 1]) && bool_decide (e_version eh = 1) &&
  bool_decide (e_type eh = 2) && bool_decide (e_machine eh = 8).

(** The [switch] on the type of a segment. *)
Inductive segment := Skip | Load | Unknown.
Definition segment_of (ph : Elf_Phdr) : segment :=
  if decide (p_type ph = PT_NULL \/ p_type ph = PT_PHDR \/ p_type ph = PT_MIPS_REGINFO) then Skip
  else if decide (p_type ph = PT_LOAD) then Load
  else Unknown.

(** ** The interface *)

(** [curthread->t_vmspace]; [VOP_READ] and [uiomovezeros], which store into the current address space;
    and the operations of addrspace.h, without the permissions. *)
Class Program (S : Type) := {
  pr_space : S -> Z;
  VOP_READ : Z -> M (S * uio) unit;
  uiomovezeros : Z -> M (S * uio) unit;
  as_define_region : Z -> Z -> Z -> M S unit;
  as_prepare_load : Z -> M S unit;
  as_complete_load : Z -> M S unit;
}.

(** ** Loading *)

Section loadelf.
Context {S : Type} `{!Program S}.

(** A call with a local uio, which is then looked at. *)
Definition with_uio (u : uio) (m : M (S * uio) unit) : M S uio := fun s =>
  match m (s, u) with
  | Done _ (s', u') => Done u' s'
  | Fail e (s', _) => Fail e s'
  | Panic => Panic | Undef => Undef | NoFuel => NoFuel
  end.

Definition t_vmspace : M S Z := gets pr_space.

Definition load_segment (v offset vaddr memsize filesize is_executable : Z) : M S unit :=
  let filesize := if decide (filesize > memsize) then memsize else filesize in
  space ← t_vmspace;
  let seg := if decide (is_executable <> 0) then UIO_USERISPACE else UIO_USERSPACE in
  u ← with_uio (mkuio vaddr [] memsize offset filesize seg UIO_READ space) (VOP_READ v);
  if decide (uio_resid u <> 0) then fail ENOEXEC
  else
    let fillamt := memsize - filesize in
    if decide (fillamt > 0) then
      _ ← with_uio (set_resid (u32 (uio_resid u + fillamt)) u) (uiomovezeros fillamt); mret tt
    else mret tt.

(** A structure of [n] bytes in the file. *)
Definition read_struct (v n offset : Z) : M S (list Z) :=
  ku ← with_uio (mk_kuio (replicate (Z.to_nat n) 0) n offset UIO_READ) (VOP_READ v);
  if decide (uio_resid ku <> 0) then fail ENOEXEC else mret (iov_kbuf ku).

Definition phdr_offset (eh : Elf_Ehdr) (i : Z) : Z := s32 (u32 (e_phoff eh + i * e_phentsize eh)).

(** One turn of the two loops over the segments. *)
Definition on_phdr (v : Z) (eh : Elf_Ehdr) (body : Elf_Phdr -> M S unit) (i : Z) : M S unit :=
  b ← read_struct v sizeof_phdr (phdr_offset eh i);
  match segment_of (phdr_of b) with
  | Skip => mret tt
  | Load => body (phdr_of b)
  | Unknown => fail ENOEXEC
  end.

Definition define_segment (ph : Elf_Phdr) : M S unit :=
  space ← t_vmspace; as_define_region space (p_vaddr ph) (p_memsz ph).
Definition load_phdr (v : Z) (ph : Elf_Phdr) : M S unit :=
  load_segment v (s32 (p_offset ph)) (p_vaddr ph) (p_memsz ph) (p_filesz ph) (Z.land (p_flags ph) PF_X).

(** The entry point. *)
Definition load_elf (v : Z) : M S Z :=
  b ← read_struct v sizeof_ehdr 0;
  let eh := ehdr_of b in
  if negb (ehdr_ok eh) then fail ENOEXEC
  else
    for_n (Z.to_nat (e_phnum eh)) 0 (on_phdr v eh define_segment) ;;
    space ← t_vmspace;
    as_prepare_load space ;;
    for_n (Z.to_nat (e_phnum eh)) 0 (on_phdr v eh (load_phdr v)) ;;
    space ← t_vmspace;
    as_complete_load space ;;
    mret (e_entry eh).

End loadelf.

End Loadelf.
