(* ===== verification/LoadelfSpec.v ===== *)
(** * What loading a program does

    What the loader relies on is the class [ProgramSpec]: the file has the bytes [data], and the pages of the regions
    that were defined can be stored to once they are prepared, as long as the TLB has room for them. *)

From S2P Require Import Prelude Uio Loadelf.
Import Uio Loadelf.

Module LoadelfSpec.

(** ** The program in a file *)

(** The structure of [n] bytes at [o]. *)
Definition struct_at (data : list Z) (n o : Z) : option (list Z) :=
  if decide (o + n <= Z.of_nat (length data)) then Some (take (Z.to_nat n) (drop (Z.to_nat o) data)) else None.

(** The [n] segment headers from number [i] on, those that are loaded. *)
Fixpoint segments (data : list Z) (eh : Elf_Ehdr) (n : nat) (i : Z) : option (list Elf_Phdr) :=
  match n with
  | O => Some []
  | S n' =>
      b ← struct_at data sizeof_phdr (phdr_offset eh i);
      match segment_of (phdr_of b) with
      | Skip => segments data eh n' (i + 1)
      | Load => l ← segments data eh n' (i + 1); Some (phdr_of b :: l)
      | Unknown => None
      end
  end.

(** The header of the file, when it is one of an executable for this machine. *)
Definition header (data : list Z) : option Elf_Ehdr :=
  b ← struct_at data sizeof_ehdr 0; if ehdr_ok (ehdr_of b) then Some (ehdr_of b) else None.

(** The entry point and the segments to load. *)
Definition image (data : list Z) : option (Z * list Elf_Phdr) :=
  eh ← header data; l ← segments data eh (Z.to_nat (e_phnum eh)) 0; Some (e_entry eh, l).

(** The bytes of a segment that are in the file, and the segment in memory. *)
Definition file_part (ph : Elf_Phdr) : Z := Z.min (p_filesz ph) (p_memsz ph).
Definition contents (data : list Z) (ph : Elf_Phdr) : list Z :=
  take (Z.to_nat (file_part ph)) (drop (Z.to_nat (p_offset ph)) data) ++ replicate (Z.to_nat (p_memsz ph - file_part ph)) 0.
(** [d] from address [a] on, in a memory that is [f]. *)
Definition laid (f : Z -> option Z) (a : Z) (d : list Z) (x : Z) : option Z :=
  if decide (a <= x < a + Z.of_nat (length d)) then d !! Z.to_nat (x - a) else f x.
Definition loaded (data : list Z) (f : Z -> option Z) (ph : Elf_Phdr) : Z -> option Z := laid f (p_vaddr ph) (contents data ph).

(** The file has all of the segment. *)
Definition complete (data : list Z) (ph : Elf_Phdr) : Prop := file_part ph = 0 \/ p_offset ph + file_part ph <= Z.of_nat (length data).

(** A program that can be loaded: two segments at most, all of them in the file. *)
Definition acceptable (data : list Z) : Prop :=
  exists entry l, image data = Some (entry, l) /\ (length l <= 2)%nat /\ Forall (complete data) l.

(** A region that user memory can have, not in the first page. *)
Definition region_ok (va sz : Z) : Prop := 4096 <= va /\ 0 < sz /\ va + sz <= USERTOP.

(** Regions of more pages than the TLB has entries. *)
Definition pages_of (r : Z * Z) : Z := (r.1 + r.2 + 4095) / 4096 - r.1 / 4096.
Definition crowded (l : list (Z * Z)) : Prop := 64 < foldr (fun r n => pages_of r + n) 0 l.
Definition region_of (ph : Elf_Phdr) : Z * Z := (p_vaddr ph, p_memsz ph).

(** The positions in the file are those of an [off_t], and the segments are in user memory. *)
Record placed (data : list Z) : Prop := {
  pl_phdr : forall eh i, header data = Some eh -> 0 <= i < e_phnum eh ->
    0 <= phdr_offset eh i /\ phdr_offset eh i + sizeof_phdr < 2 ^ 31;
  pl_seg : forall eh i b, header data = Some eh -> 0 <= i < e_phnum eh -> struct_at data sizeof_phdr (phdr_offset eh i) = Some b ->
    segment_of (phdr_of b) = Load ->
    region_ok (p_vaddr (phdr_of b)) (p_memsz (phdr_of b)) /\ 0 <= p_filesz (phdr_of b) /\
    0 <= p_offset (phdr_of b) /\ p_offset (phdr_of b) + file_part (phdr_of b) < 2 ^ 31;
}.

(** ** What the loader relies on *)

(** A uio for a transfer into the memory of the program, and the place it names. *)
Definition user_io (space : Z) (u : uio) : Prop :=
  rw u = UIO_READ /\ uio_segflg u <> UIO_SYSSPACE /\ uio_space u = space /\ 0 <= uio_resid u <= iov_len u /\ iov_len u < 2 ^ 32.
Definition inside (l : list (Z * Z)) (a n : Z) : Prop := exists r, r ∈ l /\ r.1 <= a /\ a + n <= r.1 + r.2.

(** The bytes of the file a read of [n] bytes at [o] delivers. *)
Definition part (data : list Z) (o n : Z) : list Z := take (Z.to_nat n) (drop (Z.to_nat o) data).

(** Memory is touched through [vm_fault], which stops the kernel when an address space does not have two regions,
    and fails for a page the TLB has no room for. *)
Class ProgramSpec (S : Type) `{!Program S} (v : Z) (data : list Z) := {
  (** The state in which the regions [l] were defined, before and after their pages are allocated. *)
  ready : bool -> list (Z * Z) -> S -> Prop;
  (** What the program sees. *)
  seen : S -> Z -> option Z;
  wrote s a d s1 := (forall b l, ready b l s -> ready b l s1) /\ pr_space s1 = pr_space s /\
    forall x, seen s1 x = laid (seen s) a d x;
  read_kernel : forall b l s n o, ready b l s -> 0 <= o -> o + n < 2 ^ 31 -> 0 < n ->
    let r := VOP_READ v (s, mk_kuio (replicate (Z.to_nat n) 0) n o UIO_READ) in
    let d := part data o n in
    (exists x, r = Fail EIO x) \/
    exists s1 u, r = Done tt (s1, u) /\ wrote s 0 [] s1 /\ uio_resid u = n - Z.of_nat (length d) /\
      (uio_resid u = 0 -> iov_kbuf u = d);
  read_user : forall l s u, ready true l s -> user_io (pr_space s) u -> inside l (iov_base u) (iov_len u) ->
    0 <= uio_offset u -> uio_offset u + uio_resid u < 2 ^ 31 ->
    let d := part data (uio_offset u) (uio_resid u) in
    (exists x, VOP_READ v (s, u) = Fail EIO x) \/
    if decide (length l = 2%nat \/ d = []) then
      (crowded l /\ exists x, VOP_READ v (s, u) = Fail EFAULT x) \/
      exists s1, wrote s (iov_base u) d s1 /\
        VOP_READ v (s, u) = Done tt (s1, if decide (d = []) then u else advance (Z.of_nat (length d)) u)
    else VOP_READ v (s, u) = Panic;
  zeros_user : forall l s u, ready true l s -> user_io (pr_space s) u -> inside l (iov_base u) (iov_len u) -> 0 < uio_resid u ->
    if decide (length l = 2%nat) then
      (crowded l /\ exists x, uiomovezeros (uio_resid u) (s, u) = Fail EFAULT x) \/
      exists s1 u1, uiomovezeros (uio_resid u) (s, u) = Done tt (s1, u1) /\
        wrote s (iov_base u) (replicate (Z.to_nat (uio_resid u)) 0) s1
    else uiomovezeros (uio_resid u) (s, u) = Panic;
  define_law : forall l s va sz, ready false l s -> region_ok va sz ->
    if decide (length l < 2)%nat then
      exists s1, as_define_region (pr_space s) va sz s = Done tt s1 /\ ready false (l ++ [(va, sz)]) s1
    else exists s1, as_define_region (pr_space s) va sz s = Fail EUNIMP s1;
  prepare_law : forall l s, ready false l s -> (length l <= 2)%nat ->
    (exists s1, as_prepare_load (pr_space s) s = Fail ENOMEM s1) \/
    exists s1, as_prepare_load (pr_space s) s = Done tt s1 /\ ready true l s1;
  complete_law : forall l s, ready true l s -> as_complete_load (pr_space s) s = Done tt s;
}.

(** ** Reading *)

Section spec.
Context {S : Type} `{!Program S} (v : Z) (data : list Z) `{!ProgramSpec S v data}.

Definition keeps (s s1 : S) : Prop := wrote s 0 [] s1.

Lemma laid_nil f a x : laid f a [] x = f x.
Proof. unfold laid. by rewrite decide_False by (cbn [length]; lia). Qed.

Lemma laid_app f a d1 d2 x : laid (laid f a d1) (a + Z.of_nat (length d1)) d2 x = laid f a (d1 ++ d2) x.
Proof.
  unfold laid. rewrite length_app. repeat case_decide; try lia; try done.
  - rewrite lookup_app_r by lia. f_equal. lia.
  - by rewrite lookup_app_l by lia.
Qed.

Lemma file_part_length o n : 0 <= o -> 0 <= n -> Z.of_nat (length (part data o n)) = Z.max 0 (Z.min n (Z.of_nat (length data) - o)).
Proof. intros Ho Hn. unfold part. rewrite length_take, length_drop. lia. Qed.

Lemma read_struct_spec b R s n o :
  ready b R s -> 0 <= o -> o + n < 2 ^ 31 -> 0 < n ->
  (exists x, read_struct v n o s = Fail EIO x) \/
  match struct_at data n o with
  | Some d => exists s1, read_struct v n o s = Done d s1 /\ keeps s s1
  | None => exists x, read_struct v n o s = Fail ENOEXEC x
  end.
Proof.
  intros Hr Ho Hon Hn. unfold read_struct, with_uio, struct_at. pose proof (file_part_length o n Ho ltac:(lia)) as Hd.
  destruct (read_kernel b R s n o Hr Ho Hon Hn) as [[[s' u'] E]|(s1 & u & E & Hk & Hres & Hbuf)].
  { left. exists s'. apply bind_Fail. by rewrite E. }
  right. rewrite (bind_Done _ _ s u s1) by (by rewrite E). case_decide as D.
  - rewrite decide_False by lia. exists s1. rewrite Hbuf by lia. by split.
  - rewrite decide_True by lia. by exists s1.
Qed.

(** ** Segments *)

(** The state after a segment was loaded, or the reason why it was not. *)
Definition load_outcome (R : list (Z * Z)) (s : S) (ph : Elf_Phdr) (r : outcome S unit) : Prop :=
  (exists x, r = Fail EIO x) \/ (crowded R /\ exists x, r = Fail EFAULT x) \/
  (~ complete data ph /\ exists x, r = Fail ENOEXEC x) \/
  (length R <> 2%nat /\ r = Panic) \/
  (complete data ph /\ length R = 2%nat /\ exists s1, r = Done tt s1 /\ wrote s (p_vaddr ph) (contents data ph) s1).

(** The rest of the memory after the file part [d]. *)
Lemma fill_spec R s s1 ph (d : list Z) u :
  wrote s (p_vaddr ph) d s1 -> ready true R s1 -> region_of ph ∈ R -> region_ok (p_vaddr ph) (p_memsz ph) ->
  complete data ph -> contents data ph = d ++ replicate (Z.to_nat (p_memsz ph - Z.of_nat (length d))) 0 ->
  Z.of_nat (length d) = file_part ph -> length R = 2%nat \/ d = [] ->
  rw u = UIO_READ -> uio_segflg u <> UIO_SYSSPACE -> uio_space u = pr_space s -> uio_resid u = 0 ->
  iov_base u = p_vaddr ph + Z.of_nat (length d) -> iov_len u = p_memsz ph - Z.of_nat (length d) ->
  load_outcome R s ph ((let fillamt := p_memsz ph - file_part ph in
     if decide (fillamt > 0) then _ ← with_uio (set_resid (u32 (uio_resid u + fillamt)) u) (uiomovezeros fillamt); mret tt else mret tt) s1).
Proof.
  intros (Hk & Hsp & Hseen) Hr Hin (Hva & Hms & Htop) Hcom Hc Hd HR Hrw Hseg Hspace Hres Hb Hl. cbv zeta. rewrite <- Hd.
  unfold USERTOP in Htop. set (n := p_memsz ph - Z.of_nat (length d)) in *.
  assert (Hn : n = p_memsz ph - file_part ph /\ file_part ph <= p_memsz ph) by (unfold n, file_part in *; lia). case_decide as D.
  2:{ right. right. right. right. split; [done|]. destruct HR as [HR| ->]; [|cbn [length] in *; lia]. split; [done|]. exists s1.
      split; [done|]. rewrite Hc. replace (Z.to_nat n) with O by lia. rewrite app_nil_r. by split. }
  rewrite Hres, Z.add_0_l, u32_small by lia. set (u1 := set_resid n u).
  pose proof (zeros_user R s1 u1 Hr) as Hz. change (uio_resid u1) with n in Hz. change (iov_base u1) with (iov_base u) in Hz. change (iov_len u1) with (iov_len u) in Hz.
  assert (Hu : user_io (pr_space s1) u1) by (split; [done|]; split; [done|]; split; [by rewrite Hsp|]; cbn [u1 set_resid uio_resid iov_len]; lia).
  specialize (Hz Hu ltac:(exists (region_of ph); split; [done|]; unfold region_of; cbn [fst snd]; lia) ltac:(lia)). case_decide as D2.
  - destruct Hz as [(Hcr & [s' u'] & E)|(s2 & u2 & E & Hk2 & Hsp2 & Hseen2)].
    + right. left. split; [done|]. exists s'. apply bind_Fail. unfold with_uio. by rewrite E.
    + right. right. right. right. split; [done|]. split; [done|]. exists s2.
      rewrite (bind_Done _ _ s1 u2 s2) by (unfold with_uio; by rewrite E). split; [done|]. split; [auto|]. split; [congruence|].
      intros x. rewrite Hseen2, Hc, <- laid_app, Hb. unfold laid at 1 3. by rewrite Hseen.
  - right. right. right. left. split; [done|]. unfold mbind, M_bind, with_uio. by rewrite Hz.
Qed.

Lemma load_phdr_spec R s ph :
  ready true R s -> region_of ph ∈ R -> region_ok (p_vaddr ph) (p_memsz ph) -> 0 <= p_filesz ph -> 0 <= p_offset ph ->
  p_offset ph + file_part ph < 2 ^ 31 -> load_outcome R s ph (load_phdr v ph s).
Proof.
  intros Hr Hin Hok Hfs Ho Hof. pose proof Hok as (Hva & Hms & Htop). unfold USERTOP in Htop.
  unfold load_phdr, load_segment. rewrite (s32_small (p_offset ph)) by (unfold file_part in Hof; lia).
  replace (if decide (p_filesz ph > p_memsz ph) then p_memsz ph else p_filesz ph) with (file_part ph) by (unfold file_part; case_decide; lia).
  rewrite (bind_Done _ _ _ (pr_space s) s) by done. set (seg := if decide _ then _ else _).
  assert (Hseg : seg <> UIO_SYSSPACE) by (unfold seg; by case_decide). set (f := file_part ph) in *.
  assert (Hf : 0 <= f <= p_memsz ph) by (unfold f, file_part; lia). set (u := mkuio _ _ _ _ _ _ _ _).
  assert (Hu : user_io (pr_space s) u) by (split; [done|]; split; [done|]; split; [done|]; cbn [u uio_resid iov_len]; lia).
  assert (Hins : inside R (iov_base u) (iov_len u)) by (exists (region_of ph); split; [done|]; cbn [u iov_base iov_len region_of fst snd]; lia).
  pose proof (file_part_length (p_offset ph) f Ho ltac:(lia)) as Hlen.
  destruct (read_user R s u Hr Hu Hins Ho Hof) as [[[s' u'] E]|H].
  { left. exists s'. apply bind_Fail. unfold with_uio. by rewrite E. }
  cbn [u uio_resid uio_offset iov_base] in H. set (d := part data (p_offset ph) f) in *. case_decide as D.
  2:{ right. right. right. left. split; [tauto|]. unfold mbind, M_bind, with_uio. fold u in H. by rewrite H. }
  destruct H as [(Hcr & [s' u'] & E)|(s1 & Hw & E)].
  { right. left. split; [done|]. exists s'. apply bind_Fail. unfold with_uio. fold u in E. by rewrite E. }
  fold u in E. set (u1 := if decide (d = []) then u else _) in E. rewrite (bind_Done _ _ s u1 s1) by (unfold with_uio; by rewrite E).
  assert (Hres : uio_resid u1 = f - Z.of_nat (length d)).
  { unfold u1. destruct (decide (d = [])) as [Ed|Ed]; [rewrite Ed; cbn; lia|]. rewrite advance_resid; cbn [u uio_resid]; lia. }
  destruct (decide (uio_resid u1 <> 0)) as [D1|D1].
  { right. right. left. split; [|by exists s1]. intros [?|?]; unfold f in *; lia. }
  assert (Hfd : Z.of_nat (length d) = file_part ph) by (unfold f in *; lia).
  apply (fill_spec R s s1 ph d u1); try done.
  - by apply Hw.
  - unfold complete. fold f. destruct (decide (f = 0)); [by left|right]. unfold f in *. lia.
  - unfold contents. fold f. unfold d at 1, part. do 3 f_equal. unfold f in *. lia.
  - unfold u1. by case_decide.
  - unfold u1. by case_decide.
  - unfold u1. by case_decide.
  - lia.
  - unfold u1. destruct (decide (d = [])) as [->|]; cbn [u advance iov_base length]; lia.
  - unfold u1. destruct (decide (d = [])) as [->|]; cbn [u advance iov_len length]; [lia|]. rewrite u32_small; lia.
Qed.

(** ** The loops *)

Section loops.
Context (eh : Elf_Ehdr).
Hypotheses (Heh : header data = Some eh) (Hpl : placed data).

Definition total : option (list Elf_Phdr) := segments data eh (Z.to_nat (e_phnum eh)) 0.

(** A header that is read in one of the loops. *)
Definition load_header (ph : Elf_Phdr) : Prop :=
  exists i b, 0 <= i < e_phnum eh /\ struct_at data sizeof_phdr (phdr_offset eh i) = Some b /\ ph = phdr_of b /\ segment_of ph = Load.

Lemma load_header_ok ph :
  load_header ph -> region_ok (p_vaddr ph) (p_memsz ph) /\ 0 <= p_filesz ph /\ 0 <= p_offset ph /\ p_offset ph + file_part ph < 2 ^ 31.
Proof. intros (i & b & Hi & Hb & -> & Hl). by apply (pl_seg data Hpl eh i b). Qed.

(** [P] holds of the segments that were handled, [Q] of the errors, [T] when the kernel stops. *)
Lemma phdr_loop b (P : list Elf_Phdr -> S -> Prop) (Q : errno -> Prop) (T : Prop) body :
  (forall l s, P l s -> exists R, ready b R s) -> (forall l s s1, P l s -> keeps s s1 -> P l s1) ->
  (forall l s ph, load_header ph -> P l s -> total = None \/ (exists rest, total = Some (l ++ ph :: rest)) ->
     (exists s1, body ph s = Done tt s1 /\ P (l ++ [ph]) s1) \/ (exists e x, body ph s = Fail e x /\ Q e) \/ body ph s = Panic /\ T) ->
  Q EIO -> (total = None -> Q ENOEXEC) ->
  forall n i l s, i + Z.of_nat n = Z.max 0 (e_phnum eh) -> 0 <= i -> P l s -> total = app l <$> segments data eh n i ->
  let r := for_n n i (on_phdr v eh body) s in
  (exists s1 l', total = Some l' /\ r = Done tt s1 /\ P l' s1) \/ (exists e x, r = Fail e x /\ Q e) \/ r = Panic /\ T.
Proof.
  intros HP Hk Hbody HQ HQ'. induction n as [|n IH]; intros i l s Hi Hi0 Hs Ht; cbn [segments for_n] in *.
  { left. exists s, l. rewrite Ht. cbn. by rewrite app_nil_r. }
  destruct (pl_phdr data Hpl eh i Heh ltac:(lia)) as [Ho1 Ho2].
  destruct (HP _ _ Hs) as [R Hr]. destruct (read_struct_spec b R s sizeof_phdr (phdr_offset eh i) Hr Ho1 Ho2 ltac:(by vm_compute)) as [[x E]|E].
  { right. left. exists EIO, x. split; [|done]. apply bind_Fail. unfold on_phdr. by apply bind_Fail. }
  destruct (struct_at data sizeof_phdr (phdr_offset eh i)) as [d|] eqn:Ed.
  2:{ destruct E as [x E]. right. left. exists ENOEXEC, x. split; [apply bind_Fail; unfold on_phdr; by apply bind_Fail|]. apply HQ'. by rewrite Ht. }
  destruct E as (s1 & E & K). pose proof (Hk _ _ _ Hs K) as Hs1. cbn [mbind option_bind] in Ht. destruct (segment_of (phdr_of d)) eqn:Eseg.
  - assert (E1 : on_phdr v eh body i s = Done tt s1) by (unfold on_phdr; by rewrite (bind_Done _ _ _ _ _ E), Eseg).
    rewrite (bind_Done _ _ _ _ _ E1). apply (IH _ l); [lia|lia|done|done].
  - assert (E1 : on_phdr v eh body i s = body (phdr_of d) s1) by (unfold on_phdr; by rewrite (bind_Done _ _ _ _ _ E), Eseg).
    destruct (Hbody l s1 (phdr_of d)) as [(s2 & E2 & Hs2)|[(e & x & E2 & He)|[E2 Hp]]]; [exists i, d; split; [lia|done]|done| | | |].
    + destruct (segments data eh n (i + 1)) as [r|]; cbn in Ht; [right; by exists r|by left].
    + rewrite <-E1 in E2. rewrite (bind_Done _ _ _ _ _ E2). apply (IH _ (l ++ [phdr_of d])); [lia|lia|done|]. rewrite Ht.
      destruct (segments data eh n (i + 1)); cbn; [by rewrite <-app_assoc|done].
    + right. left. exists e, x. split; [|done]. apply bind_Fail. by rewrite E1.
    + right. right. split; [|done]. unfold mbind, M_bind. by rewrite E1, E2.
  - right. left. exists ENOEXEC, s1. split; [|by apply HQ'; rewrite Ht]. apply bind_Fail. unfold on_phdr. by rewrite (bind_Done _ _ _ _ _ E), Eseg.
Qed.

(** The errors, with their causes. *)
Definition load_error (e : errno) : Prop :=
  e = EIO \/ e = ENOMEM \/ (e = ENOEXEC \/ e = EUNIMP) /\ ~ acceptable data \/
  e = EFAULT /\ exists entry l, image data = Some (entry, l) /\ crowded (region_of <$> l).

Lemma acceptable_total : acceptable data -> exists l, total = Some l /\ (length l <= 2)%nat /\ Forall (complete data) l.
Proof.
  intros (entry & l & Hi & Hl & Hc). exists l. split; [|done]. unfold image in Hi. rewrite Heh in Hi. cbn [mbind option_bind] in Hi.
  unfold total. destruct (segments data eh _ 0); [|done]. by injection Hi as _ <-.
Qed.

Lemma total_image l : total = Some l -> image data = Some (e_entry eh, l).
Proof. unfold total, image. intros Hl. rewrite Heh. cbn [mbind option_bind]. by rewrite Hl. Qed.

Lemma load_error_none : total = None -> load_error ENOEXEC.
Proof. intros E. right. right. left. split; [by left|]. intros (l & El & _)%acceptable_total. congruence. Qed.

Definition defined (l : list Elf_Phdr) (s : S) : Prop := ready false (region_of <$> l) s /\ (length l <= 2)%nat.

Lemma define_loop s :
  ready false [] s ->
  (exists s1 l, total = Some l /\ for_n (Z.to_nat (e_phnum eh)) 0 (on_phdr v eh define_segment) s = Done tt s1 /\ defined l s1) \/
  exists e x, for_n (Z.to_nat (e_phnum eh)) 0 (on_phdr v eh define_segment) s = Fail e x /\ load_error e.
Proof.
  intros Hr. destruct (phdr_loop false defined load_error False define_segment) with (n := Z.to_nat (e_phnum eh)) (i := 0) (l := @nil Elf_Phdr) (s := s)
    as [H|[H|[_ []]]]; [by intros l s' [? _]; eexists|..|by left|apply load_error_none|lia|lia|split; [done|cbn; lia]| | |].
  - intros l s0 s1 (Hr0 & Hl0) (Hr1 & _). split; [by apply Hr1|done].
  - intros l s0 ph Hh (Hr0 & Hl0) Ht. destruct (load_header_ok ph Hh) as [Hok _]. pose proof (define_law _ s0 _ _ Hr0 Hok) as H.
    unfold define_segment. rewrite (bind_Done _ _ _ (pr_space s0) s0) by done. rewrite length_fmap in H. case_decide as D.
    + left. destruct H as (s1 & E & Hr1). exists s1. split; [done|]. split; [by rewrite fmap_app|rewrite length_app; cbn [length]; lia].
    + right. left. destruct H as (x & E). exists EUNIMP, x. split; [done|]. right. right. left. split; [by right|]. intros (l' & El & Hl & _)%acceptable_total.
      destruct Ht as [Ht|[rest Ht]]; [congruence|]. rewrite El in Ht. injection Ht as ->. rewrite length_app in Hl. cbn [length] in Hl. lia.
  - unfold total. by destruct (segments data eh _ 0).
  - by left.
  - by right.
Qed.

(** The segments [done] of [l] are in the memory that was seen as [f]. *)
Definition loading (R : list (Z * Z)) (f : Z -> option Z) (done : list Elf_Phdr) (s : S) : Prop :=
  ready true R s /\ (forall x, seen s x = foldl (loaded data) f done x) /\ Forall (complete data) done /\
  (done <> [] -> length R = 2%nat).

Lemma load_loop f l s :
  total = Some l -> ready true (region_of <$> l) s -> (forall x, seen s x = f x) ->
  let r := for_n (Z.to_nat (e_phnum eh)) 0 (on_phdr v eh (load_phdr v)) s in
  (exists s1, r = Done tt s1 /\ loading (region_of <$> l) f l s1) \/ (exists e x, r = Fail e x /\ load_error e) \/
  r = Panic /\ l <> [] /\ length l <> 2%nat.
Proof.
  intros Hl Hr Hf. set (R := region_of <$> l) in *.
  destruct (phdr_loop true (loading R f) load_error (l <> [] /\ length l <> 2%nat) (load_phdr v))
    with (n := Z.to_nat (e_phnum eh)) (i := 0) (l := @nil Elf_Phdr) (s := s)
    as [(s1 & l' & El & E & Hs)|H]; [by intros ? ? [? _]; exists R|..|by left|apply load_error_none|lia|lia|by split| | |].
  - intros d s0 s1 (Hr0 & Hu & Hd) (Hr1 & _ & Hc). split; [by apply Hr1|]. split; [|done]. intros x. by rewrite Hc, laid_nil.
  - intros d s0 ph Hh (Hr0 & Hu0 & Hd0 & Hlen) [Ht|[rest Ht]]; [congruence|]. rewrite Hl in Ht. injection Ht as Ht.
    destruct (load_header_ok ph Hh) as (Hok & Hfs & Ho & Hof). assert (HR : length R = length l) by apply length_fmap.
    assert (Hin : region_of ph ∈ R) by (apply list_elem_of_fmap_2; rewrite Ht; apply elem_of_app; right; apply list_elem_of_here).
    destruct (load_phdr_spec R s0 ph Hr0 Hin Hok Hfs Ho Hof) as [[x E]|[(Hc & x & E)|[(Hc & x & E)|[(Hn & E)|(Hcom & H2 & s1 & E & Hr1 & _ & Hs1)]]]].
    + right. left. exists EIO, x. split; [done|by left].
    + right. left. exists EFAULT, x. split; [done|]. right. right. right. split; [done|]. exists (e_entry eh), l. split; [by apply total_image|done].
    + right. left. exists ENOEXEC, x. split; [done|]. right. right. left. split; [by left|]. intros (l' & El & _ & Hall)%acceptable_total.
      rewrite Hl in El. injection El as <-. rewrite Forall_forall in Hall. apply Hc, Hall. rewrite Ht. apply elem_of_app. right. apply list_elem_of_here.
    + right. right. split; [done|]. split; [intros ->; by destruct d|congruence].
    + left. exists s1. split; [done|]. split; [by apply Hr1|]. split; [|split; [apply Forall_app; by split; [|apply Forall_singleton]|done]].
      intros x. rewrite foldl_app. cbn [foldl]. rewrite Hs1. unfold loaded at 1, laid. case_decide; [done|]. apply Hu0.
  - unfold total. by destruct (segments data eh _ 0).
  - rewrite Hl in El. injection El as <-. left. by exists s1.
  - by right.
Qed.

End loops.

(** Loading a program puts its two segments into the address space, each with its bytes from the file and
    zeros after them, and returns the entry point; with one segment only the kernel stops; or it fails, because the
    disk or memory fails, because the TLB has no room, or because the file is not such a program. *)
Lemma load_elf_spec s :
  placed data -> ready false [] s ->
  (exists entry l f s1, image data = Some (entry, l) /\ acceptable data /\ length l <> 1%nat /\ load_elf v s = Done entry s1 /\
     forall x, seen s1 x = foldl (loaded data) f l x) \/
  (exists entry ph, image data = Some (entry, [ph]) /\ load_elf v s = Panic) \/
  exists e s1, load_elf v s = Fail e s1 /\ load_error e.
Proof.
  intros Hpl Hr. unfold load_elf. destruct (read_struct_spec false [] s sizeof_ehdr 0 Hr ltac:(lia) ltac:(by vm_compute) ltac:(by vm_compute)) as [[x E]|E].
  { right. right. exists EIO, x. split; [by apply bind_Fail|by left]. }
  assert (Hno : header data = None -> load_error ENOEXEC).
  { intros Hh. right. right. left. split; [by left|]. intros (? & ? & Hi & _). unfold image in Hi. by rewrite Hh in Hi. }
  unfold header in Hno. destruct (struct_at data sizeof_ehdr 0) as [b|] eqn:Eb; [|destruct E as [x E]; right; right; exists ENOEXEC, x; split; [by apply bind_Fail|by apply Hno]].
  destruct E as (s0 & E & Hr0 & _). rewrite (bind_Done _ _ _ _ _ E). cbn [mbind option_bind] in Hno. destruct (ehdr_ok (ehdr_of b)) eqn:Eok; cbn [negb].
  2:{ right. right. exists ENOEXEC, s0. split; [done|by apply Hno]. }
  assert (Heh : header data = Some (ehdr_of b)) by (unfold header; rewrite Eb; cbn [mbind option_bind]; by rewrite Eok). set (eh := ehdr_of b) in *.
  destruct (define_loop eh Heh Hpl s0 (Hr0 _ _ Hr)) as [(s1 & l & Hl & E1 & Hr1 & Hlen)|(e & x & E1 & He)].
  2:{ right. right. exists e, x. split; [by apply bind_Fail|done]. }
  pose proof (total_image eh Heh l Hl) as Hi. rewrite (bind_Done _ _ _ _ _ E1). rewrite (bind_Done _ _ _ (pr_space s1) s1) by done.
  destruct (prepare_law _ s1 Hr1 ltac:(by rewrite length_fmap)) as [(x & E2)|(s2 & E2 & Hr2)].
  { right. right. exists ENOMEM, x. split; [by apply bind_Fail|]. right. by left. }
  rewrite (bind_Done _ _ _ _ _ E2).
  destruct (load_loop eh Heh Hpl (seen s2) l s2 Hl Hr2 ltac:(done)) as [(s3 & E3 & Hr3 & Hu3 & Hc3 & H2)|[(e & x & E3 & He)|(E3 & Hne & H2)]].
  - rewrite (bind_Done _ _ _ _ _ E3), (bind_Done _ _ _ (pr_space s3) s3), (bind_Done _ _ _ _ _ (complete_law _ s3 Hr3)) by done.
    left. exists (e_entry eh), l, (seen s2), s3. split; [done|]. split; [by exists (e_entry eh), l|]. split; [|by split].
    intros H1. rewrite length_fmap, H1 in H2. destruct l; [done|]. by specialize (H2 ltac:(done)).
  - right. right. exists e, x. split; [by apply bind_Fail|done].
  - right. left. destruct l as [|ph [|ph2 [|ph3 l]]]; cbn [length] in *; [done| |done|lia]. exists (e_entry eh), ph. split; [done|].
    unfold mbind, M_bind. by rewrite E3.
Qed.

End spec.

End LoadelfSpec.
