(* ===== verification/Runprogram.v ===== *)
(** * Running a program: kern/userprog/runprogram.c

    [runprogram] opens the file, makes an address space, loads the program and enters user mode.
    The memory the loader writes is that of the running thread in Vm.v: each byte goes through the TLB,
    which [vm_fault] refills. *)

From S2P Require Import Prelude Kmalloc Ram Uio Blockdev Vnode Sfs Thread Vm VmInv Loadelf.
Import Ram Uio Vm VmInv Loadelf.

Module Runprogram.

(** ** User memory *)

Section memory.
Context {V : Type}.
Implicit Types s : vmsys V.

(** [curthread->t_vmspace] *)
Definition curspace_of s : Z := default 0 (Thread.t_vmspace <$> Thread.threads (vts s) !! Thread.curthread (vts s)).

(** [memcpy] to user addresses. *)
Fixpoint store_bytes (va : Z) (d : list Z) : M (vmsys V) unit :=
  match d with
  | [] => mret tt
  | x :: d' => store_byte va x ;; store_bytes (va + 1) d'
  end.

(** A transfer that took the data block from [u] to [u'] and left it as it is in [m]: its bytes, in user memory. *)
Definition moved (u u' : uio) (m : gmap Z Z) : list Z :=
  take (Z.to_nat (iov_base u' - iov_base u)) (default [] (ubytes m (iov_base u) (Z.to_nat (iov_len u)))).
Definition user_stores (u u' : uio) (m : gmap Z Z) : M (vmsys V) unit :=
  if decide (uio_segflg u = UIO_SYSSPACE) then mret tt else store_bytes (iov_base u) (moved u u' m).

End memory.

(** ** The file and the address space *)

Section program.
Context {K D V : Type} `{!Kmalloc K, !Vnode.Locks K, !Device D}.

Record pstate := mkps { ps_fs : Sfs.sfs_fs K D; ps_vm : vmsys V }.

(** A memory with the addresses of the data block. *)
Definition scratch (u : uio) : gmap Z Z := uwrite ∅ (iov_base u) (replicate (Z.to_nat (iov_len u)) 0).
Definition ps_ctx (s : pstate) (u : uio) : uctx :=
  mkuctx (scratch u) (curspace_of (ps_vm s)) (badfault (Sfs.s_ctx (ps_fs s))).

(** A transfer of the file system to user memory.  It collects the bytes, which are then stored in their order; what
    it reads from the disk does not depend on the stores.  A store that fails or stops the kernel comes before
    whatever the file system returns after it. *)
Definition ps_io (m : M (Sfs.sfs_fs K D * uio) unit) : M (pstate * uio) unit := fun '(s, u) =>
  let finish (f : Sfs.sfs_fs K D) (u' : uio) (r : pstate * uio -> outcome (pstate * uio) unit) :=
    let f' := Sfs.set_ctx (mkuctx ∅ 0 (badfault (Sfs.s_ctx f))) f in
    match user_stores u u' (umem (Sfs.s_ctx f)) (ps_vm s) with
    | Done _ vm => r (mkps f' vm, u')
    | Fail e vm => Fail e (mkps f' vm, u')
    | Panic => Panic | Undef => Undef | NoFuel => NoFuel
    end in
  match m (Sfs.set_ctx (ps_ctx s u) (ps_fs s), u) with
  | Done _ (f, u') => finish f u' (Done tt)
  | Fail e (f, u') => finish f u' (Fail e)
  | Panic => Panic | Undef => Undef | NoFuel => NoFuel
  end.

Definition psvmL : lens pstate (vmsys V) := Lens ps_vm (fun x s => mkps (ps_fs s) x).

#[export] Instance program : Program pstate := {|
  pr_space s := curspace_of (ps_vm s);
  VOP_READ v := ps_io (Sfs.VOP_READ v);
  uiomovezeros n := ps_io (Sfs.zeros_io n);
  as_define_region p va sz := zoom psvmL (Vm.as_define_region p va sz);
  as_prepare_load p := zoom psvmL (Vm.as_prepare_load p);
  as_complete_load p := zoom psvmL (Vm.as_complete_load p);
|}.

End program.

(** ** runprogram.c *)

(** What [runprogram] calls besides the loader; [set_vmspace] is the assignment to [curthread->t_vmspace]. *)
Class Runner (S : Type) := {
  run_program :: Program S;
  vfs_open : list Z -> Z -> M S Z;
  vfs_close : Z -> M S unit;
  as_create : M S Z;
  set_vmspace : Z -> M S unit;
  as_activate : M S unit;
  as_define_stack : Z -> M S Z;
}.

Section runprogram.
Context {S : Type} `{!Runner S}.

Definition O_RDONLY : Z := 0.

(** The stack pointer and the entry point with which user mode is entered. *)
Definition runprogram (progname : list Z) : M S (Z * Z) :=
  v ← vfs_open progname O_RDONLY;
  space ← t_vmspace;
  kassert (bool_decide (space = 0)) ;;
  p ← as_create;
  set_vmspace p ;;
  if decide (p = 0) then vfs_close v ;; fail ENOMEM
  else
    as_activate ;;
    result ← attempt (load_elf v);
    match result with
    | inl e => vfs_close v ;; fail e
    | inr entrypoint =>
        vfs_close v ;;
        space ← t_vmspace;
        stackptr ← as_define_stack space;
        mret (stackptr, entrypoint)
    end.

End runprogram.

End Runprogram.
