(* ===== verification/RunprogramSpec.v ===== *)
(** * Programs from a volume into an address space

    What the loader relies on, for a file of an SFS volume (SfsIo.v) and an address space of Vm.v. *)

From Stdlib Require Import ZifyNat.
From S2P Require Import Prelude Kmalloc Ram Uio Blockdev Vnode Sfs SfsBlock SfsFile SfsIo Thread Vm VmInv Loadelf LoadelfSpec Runprogram.
Import Ram Uio Vnode Sfs SfsBlock SfsFile SfsIo Vm VmInv Loadelf LoadelfSpec Runprogram.

Module RunprogramSpec.

Section file.
Context {K D : Type} `{!Kmalloc K, !Locks K, !Device D, !DeviceSpec D} {w : wear}.
Abbreviation same_data := (SfsBlock.same_data w).
Abbreviation vol_ok := (SfsBlock.vol_ok w).
Implicit Types s : sfs_fs K D.

Lemma partialio_nothing s p sv u :
  vol_ok s -> file_ok s p sv -> io_ok s u -> rw u = UIO_READ -> (at_pos u / 512 < NBLOCKS)%nat ->
  exists d, same_data (s_dev s) d /\
    (sfs_partialio p (Z.of_nat (at_pos u mod 512)) 0 (s, u) = Done tt (set_dev d s, u) \/
     sfs_partialio p (Z.of_nat (at_pos u mod 512)) 0 (s, u) = Fail EIO (set_dev d s, u)).
Proof.
  intros V F Hu Hrw Hn. destruct (fileblock_eq s u Hu) as [Efb _]. unfold sfs_partialio. rewrite get_uio_bind. cbn [snd].
  rewrite kassert_bind by (apply bool_decide_eq_true_2; unfold SFS_BLOCKSIZE; rewrite u32_small; dlia).
  rewrite Efb, (read_not_write u Hrw). set (n := (at_pos u / 512)%nat) in *.
  destruct (sfs_bmap_read s p sv n V F Hn) as (d & Hd & [E|E]).
  2:{ exists d. split; [done|]. right. by rewrite (bind_Fail _ _ _ _ _ (fs_Fail _ s u _ _ E)). }
  rewrite (bind_Done _ _ _ _ _ (fs_Done _ s u _ _ E)). assert (Hdk : disk (set_dev d s) = disk s) by apply Hd.
  destruct (load_block (w := w) (set_dev d s) p sv u n) as (d' & Hd' & E'); [by apply vol_ok_dev|by eapply file_ok_dev|done|done|].
  rewrite Hdk in E'. change (set_dev d' (set_dev d s)) with (set_dev d' s) in E'. exists d'. split; [by apply (same_data_trans _ _ _ Hd Hd')|].
  destruct E' as [E'|E']; [left|right; by rewrite (bind_Fail _ _ _ _ _ E')]. rewrite (bind_Done _ _ _ _ _ E').
  rewrite (bind_Done _ _ _ (blockdata (disk s) (sv_i sv) n) (set_dev d' s, u)); [done|].
  unfold move_buf. change (s_ctx (set_dev d' s)) with (s_ctx s). rewrite uiomove_none by (apply Hu || by left). by destruct s.
Qed.

(** A read of nothing. *)
Lemma sfs_read_nothing s p sv u :
  vol_ok s -> file_ok s p sv -> io_ok s u -> rw u = UIO_READ -> uio_resid u = 0 -> 0 <= sfi_size (sv_i sv) <= MAXFILE ->
  exists d, same_data (s_dev s) d /\
    (sfs_read p (s, u) = Done tt (set_dev d s, u) \/ sfs_read p (s, u) = Fail EIO (set_dev d s, u)).
Proof.
  intros V F Hu Hrw Hr Hsz. pose proof Hu as ((_ & Hlen & Hres & _) & Ho & Hm).
  assert (HM : MAXFILE < 2 ^ 31) by (unfold MAXFILE, NBLOCKS; lia).
  assert (Hsame : same_data (s_dev s) (s_dev s)) by (split; [apply V|done]). assert (Hid : set_dev (s_dev s) s = s) by (by destruct s).
  unfold sfs_read, sfs_io. rewrite get_uio_bind. cbn [snd]. rewrite kassert_bind by by apply bool_decide_eq_true_2.
  rewrite get_uio_bind. cbn [snd]. rewrite (decide_True (P := rw u = UIO_READ)) by done.
  rewrite (bind_Done _ _ _ _ _ (fs_Done _ s u _ _ (get_sv_eq s p sv (fo_obj _ _ _ F)))).
  rewrite !s32_small by lia. rewrite Hr, Z.add_0_r.
  destruct (decide (uio_offset u >= sfi_size (sv_i sv))) as [D0|D0]; [exists (s_dev s); split; [done|]; left; by rewrite Hid|].
  rewrite decide_False by lia. unfold io_run.
  assert (Hfin : forall d, set_resid (u32 (uio_resid u + 0)) u = u /\ io_finish p 0 (set_dev d s, u) = Done tt (set_dev d s, u)).
  { intros d. assert (Hset : set_resid (u32 (uio_resid u + 0)) u = u) by (rewrite Hr, u32_small by lia; destruct u; cbn in *; by subst).
    split; [done|]. rewrite (io_finish_read p sv) by (apply F || done). by rewrite Hset. }
  assert (Hb : exists d, same_data (s_dev s) d /\ (io_blocks p (s, u) = Done tt (set_dev d s, u) \/ io_blocks p (s, u) = Fail EIO (set_dev d s, u))).
  { unfold io_blocks. rewrite get_uio_bind. cbn [snd]. destruct (fileblock_eq s u Hu) as [_ Ebo]. rewrite Ebo.
    destruct (decide (Z.of_nat (at_pos u mod 512) <> 0)) as [D1|D1].
    - rewrite Hr, decide_True by (unfold SFS_BLOCKSIZE; rewrite u32_small; dlia).
      destruct (partialio_nothing s p sv u V F Hu Hrw) as (d & Hd & [E|E]); [unfold MAXFILE, NBLOCKS, at_pos in *; dlia| |].
      + exists d. split; [done|]. left. rewrite (bind_Done _ _ _ _ _ E), get_uio_bind. cbn [snd]. by rewrite decide_True.
      + exists d. split; [done|]. right. by rewrite (bind_Fail _ _ _ _ _ E).
    - exists (s_dev s). split; [done|]. left. rewrite (bind_Done _ _ _ tt (s, u)) by done. rewrite get_uio_bind. cbn [snd]. rewrite decide_True by done. by rewrite Hid. }
  destruct Hb as (d & Hd & [E|E]); exists d; (split; [done|]).
  - left. rewrite (bind_Done _ _ _ _ _ (attempt_Done _ _ _ _ E)). destruct (Hfin d) as [_ Ef]. by rewrite (bind_Done _ _ _ _ _ Ef).
  - right. rewrite (bind_Done _ _ _ _ _ (attempt_Fail _ _ _ _ E)). destruct (Hfin d) as [_ Ef]. by rewrite (bind_Done _ _ _ _ _ Ef).
Qed.

(** The bytes of a file. *)
Definition file_data s (sv : sfs_vnode) : list Z := fbytes (disk s) (sv_i sv) 0 (Z.to_nat (sfi_size (sv_i sv))).

Lemma file_data_part s sv o n :
  (o + n <= Z.to_nat (sfi_size (sv_i sv)))%nat -> take n (drop o (file_data s sv)) = fbytes (disk s) (sv_i sv) o n.
Proof.
  intros H. unfold file_data. replace (Z.to_nat (sfi_size (sv_i sv))) with (o + (n + (Z.to_nat (sfi_size (sv_i sv)) - o - n)))%nat by lia.
  rewrite fbytes_app, drop_app_length' by (by rewrite length_fbytes). rewrite fbytes_app, take_app_length' by (by rewrite length_fbytes). done.
Qed.


End file.

(** ** The state of the loader *)

(** The region of a segment, and the pages it is given. *)
Definition covered (r : Z * Z) (vb n : Z) : Prop := region_ok r.1 r.2 /\ vb = page r.1 /\ n = pages_of r.

Definition covers (a : addrspace) (l : list (Z * Z)) : Prop :=
  match l with
  | [] => as_vbase1 a = 0 /\ as_vbase2 a = 0
  | [r] => covered r (as_vbase1 a) (as_npages1 a) /\ as_vbase2 a = 0
  | [r1; r2] => covered r1 (as_vbase1 a) (as_npages1 a) /\ covered r2 (as_vbase2 a) (as_npages2 a)
  | _ => False
  end.

Definition prepared (a : addrspace) : Prop := as_pbase1 a <> 0 /\ as_pbase2 a <> 0 /\ as_stackpbase a <> 0.

(** The pages of the two regions, and those the TLB has an entry for. *)
Definition run_pages (vb n : Z) : list Z := (fun i => vb + i * 4096) <$> seqZ 0 n.
Definition region_list (a : addrspace) : list Z :=
  run_pages (as_vbase1 a) (as_npages1 a) ++ run_pages (as_vbase2 a) (as_npages2 a).
Definition held (t : list (Z * Z)) : list Z := (filter tlb_valid t).*1.
Definition tidy (a : addrspace) (t : list (Z * Z)) : Prop := NoDup (held t) /\ held t ⊆ region_list a.

Lemma covered_range r vb n x :
  covered r vb n -> r.1 <= x < r.1 + r.2 -> in_region vb n x /\ 0 <= x < USERTOP /\ page x ∈ run_pages vb n.
Proof.
  intros ((H1 & H2 & H3) & -> & ->) Hx. unfold in_region, pages_of, page, PAGE_SIZE, Uio.USERTOP, USERTOP, MIPS_KSEG0 in *. split; [dlia|]. split; [lia|].
  apply list_elem_of_fmap. exists (x / 4096 - r.1 / 4096). rewrite elem_of_seqZ. split; dlia.
Qed.

Lemma covered_set r vb n : covered r vb n -> vb <> 0 /\ n <> 0.
Proof. intros ((H1 & H2 & H3) & -> & ->). unfold pages_of, page. dlia. Qed.

Lemma covers_loaded a l : covers a l -> prepared a -> VmInv.loaded a <-> length l = 2%nat.
Proof.
  intros Hc (P1 & P2 & P3). unfold VmInv.loaded. destruct l as [|r1 [|r2 [|r3 l]]]; cbn [covers length] in *; [naive_solver..| |done].
  destruct Hc as [C1%covered_set C2%covered_set]. tauto.
Qed.

Lemma length_run vb n : 0 <= n -> length (run_pages vb n) = Z.to_nat n.
Proof. intros Hn. unfold run_pages. rewrite length_fmap, length_seqZ. done. Qed.

(** More pages than the TLB has entries. *)
Lemma covers_crowded a l : as_wf a -> covers a l -> length l = 2%nat -> (64 < length (region_list a))%nat -> crowded l.
Proof.
  intros W Hc Hl. destruct l as [|r1 [|r2 [|r3 l]]]; try done. destruct Hc as [(_ & _ & N1) (_ & _ & N2)]. unfold region_list, crowded.
  rewrite length_app, !length_run by apply W. cbn [foldr]. rewrite <- N1, <- N2. destruct W. lia.
Qed.

Lemma covers_inside a l x n y :
  covers a l -> inside l x n -> x <= y < x + n ->
  0 <= y < USERTOP /\ page y ∈ region_list a /\ is_Some (translate a y).
Proof.
  intros Hc (r & Hr & H1 & H2) Hy. assert (Hin : (in_region (as_vbase1 a) (as_npages1 a) y /\ 0 <= y < USERTOP /\ page y ∈ run_pages (as_vbase1 a) (as_npages1 a)) \/
    (in_region (as_vbase2 a) (as_npages2 a) y /\ 0 <= y < USERTOP /\ page y ∈ run_pages (as_vbase2 a) (as_npages2 a))).
  { destruct l as [|r1 [|r2 [|r3 l]]]; cbn [covers] in Hc; [by apply elem_of_nil in Hr| | |done].
    - apply list_elem_of_singleton in Hr as ->. left. eapply covered_range; [apply Hc|lia].
    - apply elem_of_cons in Hr as [->|Hr]; [left|apply list_elem_of_singleton in Hr as ->; right]; (eapply covered_range; [apply Hc|lia]). }
  unfold region_list, translate. rewrite elem_of_app. destruct Hin as [(I & U & P)|(I & U & P)]; (split; [done|]); (split; [tauto|]).
  - rewrite decide_True by done. by eexists.
  - destruct (decide (in_region (as_vbase1 a) _ y)); [by eexists|]. rewrite decide_True by done. by eexists.
Qed.

(** ** Stores *)

Section stores.
Context {V : Type}.
Implicit Types s : vmsys V.

Lemma held_refill va t t' a :
  Forall (entry_ok a) t -> tidy a t -> page va ∈ region_list a -> 0 <= va < USERTOP -> refilled va t t' -> tidy a t'.
Proof.
  intros He [Hn Hs] Hp Hva [->|(j & e & pb & -> & Hj & Hv & Hno)]; [done|]. unfold tidy, held.
  assert (Hnot : page va ∉ held t).
  { intros ([x y] & Ex & [Hx Hin]%list_elem_of_filter)%list_elem_of_fmap. cbn in Ex. subst x. rewrite Forall_forall in Hno. apply (Hno _ Hin).
    split; [done|by left]. }
  pose proof (take_drop_middle t j e Hj) as Et. rewrite insert_take_drop by by eapply lookup_lt_Some. rewrite <- Et in Hn, Hs, Hnot.
  unfold held in *. rewrite filter_app, filter_cons in Hn, Hs, Hnot |- *. rewrite (decide_False (P := tlb_valid e)) in Hn, Hs, Hnot by done.
  case_decide; [|done]. rewrite fmap_app in Hn, Hs, Hnot |- *. cbn [fmap list_fmap fst]. split.
  - by rewrite <- Permutation_middle, NoDup_cons.
  - rewrite <- Permutation_middle. intros x [->|Hx]%elem_of_cons; [done|by apply Hs].
Qed.

(** The TLB is full of other pages only when the regions are too many for it. *)
Lemma full_crowded va t a :
  length t = 64%nat -> tidy a t -> page va ∈ region_list a -> 
  Forall (fun e => tlb_valid e /\ ~ tlb_match (page va) e) t -> (64 < length (region_list a))%nat.
Proof.
  intros Hl [Hn Hs] Hp [Hv Hno]%Forall_and. assert (Eh : held t = t.*1).
  { unfold held. f_equal. clear -Hv. induction Hv as [|e t He Hv IH]; [done|]. rewrite filter_cons, decide_True by done. by f_equal. }
  rewrite Eh in *. assert (Hnd : NoDup (page va :: t.*1)).
  { apply NoDup_cons. split; [|done]. intros ([x y] & Ex & Hin)%list_elem_of_fmap. cbn in Ex. subst x. rewrite Forall_forall in Hno.
    apply (Hno _ Hin). split; [done|by left]. }
  apply NoDup_submseteq with (k := region_list a) in Hnd; [|intros x [->|Hx]%elem_of_cons; [done|by apply Hs]].
  apply submseteq_length in Hnd. cbn [length] in Hnd. rewrite length_fmap in Hnd. lia.
Qed.

(** What the running thread has in memory while a program is loaded. *)
Record loading_at (b : bool) (l : list (Z * Z)) s : Prop := {
  la_vm : exists B, vm_ok s B;
  la_space : exists a, spaces s !! curspace_of s = Some a /\ covers a l /\ if b then prepared a /\ tidy a (tlb s) else unprepared a;
}.

Definition kept s s' : Prop := vts s' = vts s /\ forall b l, loading_at b l s -> loading_at b l s'.

Definition sees s : Z -> option Z := view s (curspace_of s).

Lemma curspace_current s a B : vm_ok s B -> spaces s !! curspace_of s = Some a -> current s (curspace_of s).
Proof.
  intros O Ha. unfold current, curspace_of in *. destruct (Thread.threads (vts s) !! _) as [th|] eqn:E; [by exists th|].
  cbn in Ha. by destruct (space_nonzero _ _ _ _ O Ha).
Qed.

Lemma store_in l s x v :
  loading_at true l s -> inside l x 1 ->
  if decide (length l = 2%nat) then
    (crowded l /\ store_byte x v s = Fail EFAULT s) \/
    exists s', store_byte x v s = Done tt s' /\ kept s s' /\ forall y, sees s' y = laid (sees s) x [v] y
  else store_byte x v s = Panic.
Proof.
  intros [[B O] (a & Ha & Hc & Hp & Ht)] Hi. destruct (covers_inside a l x 1 x Hc Hi ltac:(lia)) as (Hx & Hpg & [pa Hpa]).
  pose proof (curspace_current s a B O Ha) as Hcur. pose proof (covers_loaded a l Hc Hp) as HL. unfold store_byte. case_decide as D.
  2:{ unfold mbind, M_bind. by rewrite (user_access_unloaded s B (curspace_of s) a true x O Hcur Ha) by tauto. }
  apply HL in D as L. destruct (user_access_spec s B _ a true x O Hcur Ha L Hx) as [(pb & t & E & Et & O' & Hr)|[E [Hn|Hfull]]]; [|congruence|].
  2:{ left. rewrite (bind_Fail _ _ _ _ _ E). split; [|done]. eapply covers_crowded; [by apply (vo_struct _ _ O _ _ Ha)|done|done|].
      apply (full_crowded x (tlb s)); [by rewrite (vo_tlb _ _ O)|done..]. }
  right. rewrite (bind_Done _ _ _ _ _ E). eexists. split; [done|].
  assert (Ht' : tidy a t) by (eapply held_refill; [by apply (vo_entries _ _ O _ _ Hcur Ha)|done..]).
  split. { split; [done|]. intros b l' [_ (a' & Ha' & Hc' & Hb)]. rewrite Ha in Ha'. injection Ha' as <-.
    split; [exists B; by apply vm_ok_pmem|]. exists a. destruct b; [|done]. by destruct Hb. } rewrite Hpa in Et. injection Et as <-.
  assert (Ep : paddr s (curspace_of s) x = Some pa) by (apply paddr_Some; eauto).
  intros y. change (sees (set_pmem (<[pa := v]> (pmem (set_tlb t s))) (set_tlb t s)) y) with (rd (<[pa := v]> (pmem s)) <$> paddr s (curspace_of s) y).
  unfold laid. cbn [length]. case_decide as Dy.
  - assert (y = x) as -> by lia. rewrite Ep. cbn [fmap option_fmap option_map]. rewrite rd_insert, decide_True by done. by rewrite Z.sub_diag.
  - unfold sees, view. destruct (paddr s (curspace_of s) y) as [pc|] eqn:Ey; [|done]. cbn [fmap option_fmap option_map]. f_equal. rewrite rd_insert, decide_False; [done|].
    intros ->. destruct (paddr_inj s B _ _ y x pa O Ey Ep). lia.
Qed.

Lemma store_bytes_in l d : forall s x,
  loading_at true l s -> inside l x (Z.of_nat (length d)) ->
  if decide (length l = 2%nat \/ d = []) then
    (length l = 2%nat /\ crowded l /\ exists s', store_bytes x d s = Fail EFAULT s') \/
    exists s', store_bytes x d s = Done tt s' /\ kept s s' /\ forall y, sees s' y = laid (sees s) x d y
  else store_bytes x d s = Panic.
Proof.
  induction d as [|v d IH]; intros s x Hl Hi; cbn [store_bytes].
  { rewrite decide_True by by right. right. exists s. split; [done|]. split; [done|]. intros y. by rewrite laid_nil. }
  destruct Hi as (r & Hr & H1 & H2). cbn [length] in H2.
  pose proof (store_in l s x v Hl ltac:(exists r; split; [done|lia])) as Hs. destruct (decide (length l = 2%nat)) as [D|D].
  2:{ rewrite decide_False by (intros [?|?]; done). unfold mbind, M_bind. by rewrite Hs. }
  rewrite decide_True by by left. destruct Hs as [(Hc & E)|(s1 & E & [Hv1 Hk1] & Hs1)].
  { left. split; [done|]. split; [done|]. exists s. by apply bind_Fail. }
  rewrite (bind_Done _ _ _ _ _ E). specialize (IH s1 (x + 1) (Hk1 _ _ Hl) ltac:(exists r; split; [done|lia])). rewrite decide_True in IH by by left.
  destruct IH as [?|(s2 & E2 & [Hv2 Hk2] & Hs2)]; [by left|right]. exists s2. split; [done|]. split; [split; [congruence|auto]|].
  intros y. rewrite Hs2. change (x + 1) with (x + Z.of_nat (length [v])). etransitivity; [|exact (laid_app (sees s) x [v] d y)].
  unfold laid at 1 2. case_decide; [done|apply Hs1].
Qed.

End stores.

Section spec.
Context {K D V : Type} `{!Kmalloc K, !Locks K, !Device D, !DeviceSpec D} {w : wear} (v : Z) (data : list Z).
Abbreviation same_data := (SfsBlock.same_data w).
Abbreviation vol_ok := (SfsBlock.vol_ok w).
Abbreviation pst := (pstate (K := K) (D := D) (V := V)).
Implicit Types s : pst.

(** A volume with the file, which is open, and the address space of the running thread with the regions
    [l]. *)
Record ready_at (b : bool) (l : list (Z * Z)) s : Prop := {
  ra_mem : loading_at b l (ps_vm s);
  ra_vol : vol_ok (ps_fs s);
  ra_file : exists sv, file_ok (ps_fs s) v sv /\ 0 <= sfi_size (sv_i sv) <= MAXFILE /\ file_data (ps_fs s) sv = data;
  ra_vop : forall c d u, fs (vop v "read" mret) (set_ctx c (set_dev d (ps_fs s)), u) = Done sfs_fileops (set_ctx c (set_dev d (ps_fs s)), u);
}.

Definition written s (a : Z) (d : list Z) s1 : Prop :=
  (forall b l, ready_at b l s -> ready_at b l s1) /\ curspace_of (ps_vm s1) = curspace_of (ps_vm s) /\
  forall x, sees (ps_vm s1) x = laid (sees (ps_vm s)) a d x.

Lemma vol_ok_ctx (f : sfs_fs K D) c : vol_ok f -> badfault c = false -> vol_ok (set_ctx c f).
Proof. intros [] H. by split. Qed.
Lemma file_ok_ctx (f : sfs_fs K D) c p sv : file_ok f p sv -> file_ok (set_ctx c f) p sv.
Proof. intros []. by split. Qed.

(** The state after a transfer. *)
Definition after s (c : uctx) (d : D) (vm : vmsys V) : pst := mkps (set_ctx (mkuctx ∅ 0 (badfault c)) (set_dev d (ps_fs s))) vm.

Lemma ready_after b l s c d vm :
  ready_at b l s -> same_data (s_dev (ps_fs s)) d -> badfault c = false -> loading_at b l vm -> ready_at b l (after s c d vm).
Proof.
  intros [_ Hvol (sv & Hf & Hsz & Hd) Hvop] Hdev Hc Hm. split; [done|by apply vol_ok_ctx; [apply vol_ok_dev|]| |done].
  exists sv. split; [by eapply file_ok_ctx, file_ok_dev|]. split; [done|]. rewrite <-Hd. unfold file_data. cbn [ps_fs after].
  by assert (disk (set_ctx (mkuctx ∅ 0 (badfault c)) (set_dev d (ps_fs s))) = disk (ps_fs s)) as -> by apply Hdev.
Qed.

Lemma written_after s c d vm a x :
  same_data (s_dev (ps_fs s)) d -> badfault c = false -> kept (ps_vm s) vm -> (forall y, sees vm y = laid (sees (ps_vm s)) a x y) ->
  written s a x (after s c d vm).
Proof.
  intros Hd Hc [Hv Hk] Hs. split; [intros b l Hr; apply ready_after; [done..|]; apply Hk, Hr|]. split; [|done].
  cbn [after ps_vm]. unfold curspace_of. by rewrite Hv.
Qed.

(** Reading the file, with the bytes kept in the kernel. *)
Lemma read_file b l s u :
  ready_at b l s -> uio_ok (ps_ctx s u) u -> rw u = UIO_READ -> 0 <= uio_offset u -> uio_offset u + uio_resid u < 2 ^ 31 ->
  let x := part data (uio_offset u) (uio_resid u) in
  let r := Sfs.VOP_READ v (set_ctx (ps_ctx s u) (ps_fs s), u) in
  exists d, same_data (s_dev (ps_fs s)) d /\
    if decide (x = []) then
      let f := set_ctx (ps_ctx s u) (set_dev d (ps_fs s)) in r = Done tt (f, u) \/ r = Fail EIO (f, u)
    else
      (exists c u', r = Done tt (set_ctx c (set_dev d (ps_fs s)), advance (Z.of_nat (length x)) u') /\ poke (ps_ctx s u) u x = Some (c, u')) \/
      (exists e m u', r = Fail e (set_ctx (set_umem m (ps_ctx s u)) (set_dev d (ps_fs s)), u') /\
         (e = EIO \/ e = EFAULT /\ poke (ps_ctx s u) u x = None)).
Proof.
  intros Hr Hu Hrw Ho Hor x r. pose proof Hu as (_ & _ & Hres & _). pose proof Hr as [_ Hvol (sv & Hf & Hsz & Hd) Hvop].
  set (f := set_ctx (ps_ctx s u) (ps_fs s)) in *.
  assert (Vo : vol_ok f) by (apply vol_ok_ctx; [done|apply Hvol]). assert (Fo : file_ok f v sv) by (by apply file_ok_ctx).
  assert (Io : io_ok f u) by (by split). assert (Hlen : Z.of_nat (length data) = sfi_size (sv_i sv)) by (rewrite <-Hd; unfold file_data; rewrite length_fbytes; lia).
  assert (Hx : Z.of_nat (length x) = Z.max 0 (Z.min (uio_resid u) (Z.of_nat (length data) - uio_offset u))) by (apply file_part_length; lia).
  assert (Er : r = sfs_read v (f, u)).
  { unfold r, Sfs.VOP_READ. specialize (Hvop (ps_ctx s u) (s_dev (ps_fs s)) u). replace (set_ctx (ps_ctx s u) (set_dev (s_dev (ps_fs s)) (ps_fs s))) with f in Hvop by (by destruct s as [[] ?]).
    by rewrite (bind_Done _ _ _ _ _ Hvop). }
  rewrite Er. destruct (decide (uio_resid u = 0)) as [Hz|Hz].
  { destruct (sfs_read_nothing f v sv u Vo Fo Io Hrw Hz Hsz) as (d & Hdev & E). exists d. split; [done|]. by rewrite decide_True by (apply nil_length_inv; lia). }
  pose proof (sfs_read_spec f v sv u Vo Fo Io Hrw ltac:(lia) Hsz) as H. cbv zeta in H. rewrite <-Hlen in H.
  assert (Es : sfs_read v (f, u) = sfs_io v (f, u)) by (unfold sfs_read; rewrite get_uio_bind; cbn [snd]; by rewrite kassert_bind by by apply bool_decide_eq_true_2).
  rewrite <-Es in H. destruct (decide (Z.of_nat (length data) <= uio_offset u)) as [D0|D0].
  { exists (s_dev f). split; [by split; [apply Vo|]|]. rewrite decide_True by (apply nil_length_inv; lia). left. rewrite H. by destruct s as [[] ?]. }
  replace (Z.min (uio_resid u) (Z.of_nat (length data) - uio_offset u)) with (Z.of_nat (length x)) in H by lia. rewrite Nat2Z.id in H.
  change (disk f) with (disk (ps_fs s)) in H. change (s_ctx f) with (ps_ctx s u) in H.
  assert (Ex : fbytes (disk (ps_fs s)) (sv_i sv) (at_pos u) (length x) = x).
  { rewrite <-(file_data_part (ps_fs s) sv (at_pos u)) by (unfold at_pos; lia). rewrite Hd. unfold x, part, at_pos.
    by rewrite length_take, <-take_take, (take_ge (drop _ _) (length _)). }
  rewrite Ex in H. destruct H as (d & Hdev & H). exists d. split; [done|]. by rewrite decide_False by (intros E; rewrite E in Hx; cbn [length] in Hx; lia).
Qed.

(** ** The scratch memory *)

Lemma scratch_poke s u d :
  uio_segflg u <> UIO_SYSSPACE -> d <> [] -> Z.of_nat (length d) <= iov_len u -> iov_base u + iov_len u <= Uio.USERTOP ->
  poke (ps_ctx s u) u d = Some (set_umem (uwrite (scratch u) (iov_base u) d) (ps_ctx s u), u) /\
  moved u (advance (Z.of_nat (length d)) u) (uwrite (scratch u) (iov_base u) d) = d.
Proof.
  intros Hs Hd Hl Ht. assert (Hlen : (0 < length d)%nat) by (destruct d; [done|cbn; lia]).
  assert (Hlk : forall i, (i < Z.to_nat (iov_len u))%nat -> scratch u !! (iov_base u + Z.of_nat i) = Some 0).
  { intros i Hi. unfold scratch. rewrite uwrite_lookup, decide_True by (rewrite length_replicate; lia). apply lookup_replicate_2. lia. }
  assert (Hr : uread (ps_ctx s u) (iov_base u) (Z.of_nat (length d)) = Some (replicate (length d) 0)).
  { unfold uread. rewrite decide_True by lia. rewrite Nat2Z.id. apply ubytes_lookup. rewrite length_replicate. split; [done|].
    intros i Hi. cbn [ps_ctx umem]. rewrite Hlk by lia. symmetry. by apply lookup_replicate_2. }
  split; [unfold poke; destruct (uio_segflg u); try done; by rewrite Hr|]. unfold moved.
  assert (Hb : ubytes (uwrite (scratch u) (iov_base u) d) (iov_base u) (Z.to_nat (iov_len u)) = Some (d ++ replicate (Z.to_nat (iov_len u) - length d) 0)).
  { apply ubytes_lookup. rewrite length_app, length_replicate. split; [lia|]. intros i Hi. rewrite uwrite_lookup. case_decide as Di.
    - rewrite lookup_app_l by lia. f_equal. lia.
    - rewrite lookup_app_r, Hlk by lia. symmetry. apply lookup_replicate_2. lia. }
  rewrite Hb. cbn [from_option id advance iov_base]. rewrite take_app_length'; [done|lia].
Qed.

Lemma moved_length u u' m : 0 <= iov_len u -> Z.of_nat (length (moved u u' m)) <= iov_len u.
Proof.
  intros Hl. unfold moved. rewrite length_take. destruct (ubytes m (iov_base u) (Z.to_nat (iov_len u))) as [d|] eqn:E; cbn [from_option id length]; [|lia].
  apply ubytes_length in E. lia.
Qed.

Lemma inside_less l a n k : inside l a n -> k <= n -> inside l a k.
Proof. intros (r & Hr & H1 & H2) Hk. exists r. split; [done|]. lia. Qed.

Lemma inside_top b l s a n : ready_at b l s -> inside l a n -> 4096 <= a /\ a + n <= Uio.USERTOP.
Proof.
  intros [[_ (sp & _ & Hc & _)] _ _ _] (r & Hr & H1 & H2). assert (Hok : region_ok r.1 r.2).
  { destruct l as [|r1 [|r2 [|r3 l]]]; cbn [covers] in Hc; [by apply elem_of_nil in Hr| | |done].
    - apply list_elem_of_singleton in Hr as ->. apply Hc.
    - apply elem_of_cons in Hr as [->|Hr]; [apply Hc|apply list_elem_of_singleton in Hr as ->; apply Hc]. }
  destruct Hok as (? & ? & ?). change Uio.USERTOP with USERTOP in *. lia.
Qed.

(** A transfer of [x] that ends well. *)
Lemma io_user l s u m d x c u' :
  ready_at true l s -> same_data (s_dev (ps_fs s)) d -> user_io (pr_space s) u -> inside l (iov_base u) (iov_len u) ->
  x <> [] -> Z.of_nat (length x) <= iov_len u -> poke (ps_ctx s u) u x = Some (c, u') ->
  m (set_ctx (ps_ctx s u) (ps_fs s), u) = Done tt (set_ctx c (set_dev d (ps_fs s)), advance (Z.of_nat (length x)) u') ->
  if decide (length l = 2%nat) then
    (crowded l /\ exists y, ps_io m (s, u) = Fail EFAULT y) \/
    exists s1, written s (iov_base u) x s1 /\ ps_io m (s, u) = Done tt (s1, advance (Z.of_nat (length x)) u)
  else ps_io m (s, u) = Panic.
Proof.
  intros Hr Hd (Hrw & Hseg & Hsp & Hres & Hl) Hi Hx Hxl Hp E. destruct (inside_top true l s _ _ Hr Hi) as [_ Ht].
  destruct (scratch_poke s u x Hseg Hx Hxl Ht) as [Ep Em]. rewrite Hp in Ep. injection Ep as -> ->.
  pose proof (store_bytes_in l x (ps_vm s) (iov_base u) (ra_mem _ _ _ Hr) (inside_less _ _ _ _ Hi Hxl)) as Hst.
  unfold ps_io. rewrite E. unfold user_stores. cbn [s_ctx set_ctx set_umem umem badfault]. rewrite Em, (decide_False (P := uio_segflg u = _)) by done.
  destruct (decide (length l = 2%nat)) as [D1|D1].
  - rewrite decide_True in Hst by by left. destruct Hst as [(_ & Hc & vm & Es)|(vm & Es & Hk & Hs)]; rewrite Es; [left; by eauto|right].
    eexists. split; [|reflexivity]. apply (written_after s (ps_ctx s u)); [done|apply (vo_ctx _ (ra_vol _ _ _ Hr))|done|done].
  - rewrite decide_False in Hst by tauto. by rewrite Hst.
Qed.

(** A transfer that ends with an error of the file system. *)
Lemma io_user_fail l s u m f u' e :
  ready_at true l s -> user_io (pr_space s) u -> inside l (iov_base u) (iov_len u) ->
  m (set_ctx (ps_ctx s u) (ps_fs s), u) = Fail e (f, u') ->
  (exists y, ps_io m (s, u) = Fail e y) \/ (length l = 2%nat /\ crowded l /\ exists y, ps_io m (s, u) = Fail EFAULT y) \/ length l <> 2%nat /\ ps_io m (s, u) = Panic.
Proof.
  intros Hr (Hrw & Hseg & Hsp & Hres & Hl) Hi E. unfold ps_io. rewrite E. unfold user_stores. rewrite (decide_False (P := uio_segflg u = _)) by done.
  pose proof (store_bytes_in l (moved u u' (umem (s_ctx f))) (ps_vm s) (iov_base u) (ra_mem _ _ _ Hr)) as Hst.
  specialize (Hst (inside_less _ _ _ _ Hi (moved_length u u' (umem (s_ctx f)) ltac:(lia)))). case_decide as D1.
  - destruct Hst as [(H2 & Hc & vm & ->)|(vm & -> & _)]; [right; left; eauto|left; eauto].
  - rewrite Hst. right. right. tauto.
Qed.

(** A transfer of nothing. *)
Lemma io_still s u m (r : unit + errno) d :
  m (set_ctx (ps_ctx s u) (ps_fs s), u) = match r with inl t => Done t (set_ctx (ps_ctx s u) (set_dev d (ps_fs s)), u) | inr e => Fail e (set_ctx (ps_ctx s u) (set_dev d (ps_fs s)), u) end ->
  ps_io m (s, u) = match r with inl t => Done tt (after s (ps_ctx s u) d (ps_vm s), u) | inr e => Fail e (after s (ps_ctx s u) d (ps_vm s), u) end.
Proof.
  intros E. assert (Hs : user_stores u u (scratch u) (ps_vm s) = Done tt (ps_vm s)).
  { unfold user_stores, moved. case_decide; [done|]. by rewrite Z.sub_diag. }
  unfold ps_io. rewrite E. by destruct r; cbn [s_ctx set_ctx umem ps_ctx]; rewrite Hs.
Qed.

Lemma still_written s u d : vol_ok (ps_fs s) -> same_data (s_dev (ps_fs s)) d -> written s 0 [] (after s (ps_ctx s u) d (ps_vm s)).
Proof. intros Vo Hd. apply written_after; [done|apply Vo|done|]. intros y. by rewrite laid_nil. Qed.

Lemma written_nil s a s1 : written s 0 [] s1 -> written s a [] s1.
Proof. intros (H1 & H2 & H3). split; [done|]. split; [done|]. intros x. by rewrite H3, !laid_nil. Qed.

(** ** The laws of the loader *)

Lemma read_user_ready l s u :
  ready_at true l s -> user_io (pr_space s) u -> inside l (iov_base u) (iov_len u) ->
  0 <= uio_offset u -> uio_offset u + uio_resid u < 2 ^ 31 ->
  let d := part data (uio_offset u) (uio_resid u) in
  let r := ps_io (Sfs.VOP_READ v) (s, u) in
  (exists x, r = Fail EIO x) \/
  if decide (length l = 2%nat \/ d = []) then
    (crowded l /\ exists x, r = Fail EFAULT x) \/
    exists s1, written s (iov_base u) d s1 /\ r = Done tt (s1, if decide (d = []) then u else advance (Z.of_nat (length d)) u)
  else r = Panic.
Proof.
  intros Hr Hio Hi Ho Hor x r. pose proof Hio as (Hrw & Hseg & Hsp & Hres & Hl). destruct (inside_top true l s _ _ Hr Hi) as [Hb Ht].
  assert (Hu : uio_ok (ps_ctx s u) u).
  { split; [apply (vo_ctx _ (ra_vol _ _ _ Hr))|]. split; [lia|]. split; [lia|]. split; [lia|].
    assert (iov_base u < 2 ^ 32) by (change Uio.USERTOP with (2 ^ 31) in Ht; lia). by destruct (uio_segflg u). }
  assert (Hx : Z.of_nat (length x) <= iov_len u) by (unfold x; rewrite file_part_length; lia).
  destruct (read_file true l s u Hr Hu Hrw Ho Hor) as (d & Hd & H). fold x in H. destruct (decide (x = [])) as [Ex|Ex].
  - destruct H as [E|E]; [right; rewrite decide_True by tauto; right|left; unfold r; rewrite (io_still s u _ (inr EIO) d E); by eexists].
    unfold r. rewrite (io_still s u _ (inl tt) d E). eexists. split; [|done]. rewrite Ex. apply written_nil, still_written; [apply Hr|done].
  - destruct H as [(c & u' & E & Ep)|(e & m & u' & E & He)].
    + right. pose proof (io_user l s u _ d x c u' Hr Hd Hio Hi Ex Hx Ep E) as H. destruct (decide (length l = 2%nat)); [by rewrite decide_True by tauto|by rewrite decide_False by tauto].
    + assert (e = EIO) as ->. { destruct He as [?|[_ Hn]]; [done|]. destruct (scratch_poke s u x Hseg Ex Hx Ht) as [Ep _]. congruence. }
      destruct (io_user_fail l s u _ _ _ _ Hr Hio Hi E) as [?|[(H1 & H2)|[H1 H2]]]; [by left|right; rewrite decide_True by tauto; by left|right; by rewrite decide_False by tauto].
Qed.

Lemma read_kernel_ready b l s n o :
  ready_at b l s -> 0 <= o -> o + n < 2 ^ 31 -> 0 < n ->
  let r := ps_io (Sfs.VOP_READ v) (s, mk_kuio (replicate (Z.to_nat n) 0) n o UIO_READ) in
  let d := part data o n in
  (exists x, r = Fail EIO x) \/
  exists s1 u, r = Done tt (s1, u) /\ written s 0 [] s1 /\ uio_resid u = n - Z.of_nat (length d) /\
    (uio_resid u = 0 -> iov_kbuf u = d).
Proof.
  intros Hr Ho Hon Hn r x. set (u := mk_kuio _ n o UIO_READ) in *. assert (Hl : length (replicate (Z.to_nat n) 0) = Z.to_nat n) by apply length_replicate.
  assert (Hu : uio_ok (ps_ctx s u) u) by (split; [apply (vo_ctx _ (ra_vol _ _ _ Hr))|]; cbn; rewrite Hl; lia).
  pose proof (file_part_length data o n Ho ltac:(lia)) as Hx. fold x in Hx.
  destruct (read_file b l s u Hr Hu eq_refl Ho Hon) as (d & Hd & H). change (part data (uio_offset u) (uio_resid u)) with x in H.
  destruct (decide (x = [])) as [Ex|Ex].
  - destruct H as [E|E]; [right|left; unfold r; rewrite (io_still s u _ (inr EIO) d E); by eexists].
    unfold r. rewrite (io_still s u _ (inl tt) d E). eexists _, u. split; [done|]. split; [apply still_written; [apply Hr|done]|].
    rewrite Ex. cbn [u mk_kuio uio_resid length]. lia.
  - destruct H as [(c & u' & E & Ep)|(e & m & u' & E & He)].
    + right. unfold poke in Ep. cbn [u mk_kuio uio_segflg iov_kbuf iov_base] in Ep. destruct (splice _ 0 x) as [kb|] eqn:Ek; [|done].
      cbn [mbind option_bind] in Ep. injection Ep as <- <-. unfold r, ps_io. fold u. rewrite E. cbn [user_stores].
      eexists _, _. split; [reflexivity|]. split; [apply (still_written s u); [apply Hr|done]|].
      rewrite advance_resid by (cbn [set_kbuf u mk_kuio uio_resid]; lia). cbn [set_kbuf advance u mk_kuio uio_resid iov_kbuf]. split; [done|].
      intros H0. rewrite splice_all in Ek by lia. by injection Ek as <-.
    + left. destruct He as [->|[_ Hp]]; [|unfold poke, splice in Hp; cbn [u mk_kuio uio_segflg iov_kbuf iov_base] in Hp; by rewrite decide_True in Hp by lia].
      unfold r, ps_io. fold u. rewrite E. by eexists.
Qed.

Lemma zeros_ready l s u :
  ready_at true l s -> user_io (pr_space s) u -> inside l (iov_base u) (iov_len u) -> 0 < uio_resid u ->
  let r := ps_io (Sfs.zeros_io (uio_resid u)) (s, u) in
  if decide (length l = 2%nat) then
    (crowded l /\ exists x, r = Fail EFAULT x) \/
    exists s1 u1, r = Done tt (s1, u1) /\ written s (iov_base u) (replicate (Z.to_nat (uio_resid u)) 0) s1
  else r = Panic.
Proof.
  intros Hr Hio Hi Hpos r. pose proof Hio as (Hrw & Hseg & Hsp & Hres & Hl). destruct (inside_top true l s _ _ Hr Hi) as [Hb Ht].
  set (x := replicate _ 0) in *. assert (Hx : Z.of_nat (length x) = uio_resid u) by (unfold x; rewrite length_replicate; lia).
  assert (Hne : x <> []) by (intros E; rewrite E in Hx; cbn [length] in Hx; lia).
  assert (Hu : uio_ok (ps_ctx s u) u).
  { split; [apply (vo_ctx _ (ra_vol _ _ _ Hr))|]. split; [lia|]. split; [lia|]. split; [lia|].
    assert (iov_base u < 2 ^ 32) by (change Uio.USERTOP with (2 ^ 31) in Ht; lia). by destruct (uio_segflg u). }
  destruct (scratch_poke s u x Hseg Hne ltac:(lia) Ht) as [Ep _].
  destruct (uiomovezeros_spec (ps_ctx s u) u (Z.to_nat (uio_resid u)) Hu Hrw ltac:(lia) ltac:(lia)) as [(c & u' & E & Ep')|(m & u' & _ & _ & Ep')];
    fold x in Ep'; [|congruence]. rewrite Z2Nat.id, <-Hx in E by lia.
  assert (Em : Sfs.zeros_io (uio_resid u) (set_ctx (ps_ctx s u) (ps_fs s), u) =
    Done tt (set_ctx c (set_dev (s_dev (ps_fs s)) (ps_fs s)), advance (Z.of_nat (length x)) u')).
  { unfold Sfs.zeros_io, zoom. cbn [lget lset fst snd s_ctx set_ctx]. rewrite <-Hx, E. by destruct s as [[] ?]. }
  assert (Hd : same_data (s_dev (ps_fs s)) (s_dev (ps_fs s))) by (split; [apply (vo_dev _ (ra_vol _ _ _ Hr))|done]).
  pose proof (io_user l s u _ _ x c u' Hr Hd Hio Hi Hne ltac:(lia) Ep' Em) as H. fold r in H.
  destruct (decide (length l = 2%nat)); [|done]. destruct H as [?|(s1 & Hw & Es)]; [by left|right; eauto].
Qed.

Lemma psvm_Done {A} (m : M (vmsys V) A) s x vm : m (ps_vm s) = Done x vm -> zoom psvmL m s = Done x (mkps (ps_fs s) vm).
Proof. intros E. unfold zoom. cbn [psvmL lget lset]. by rewrite E. Qed.

(** Another address space for the thread. *)
Lemma ready_space (b : bool) l (b' : bool) l' s h a B :
  ready_at b l s -> vm_ok (with_space (ps_vm s) h (curspace_of (ps_vm s)) a) B -> covers a l' ->
  (if b' then prepared a /\ tidy a (tlb (ps_vm s)) else unprepared a) ->
  ready_at b' l' (mkps (ps_fs s) (with_space (ps_vm s) h (curspace_of (ps_vm s)) a)).
Proof.
  intros [_ Hvol Hf Hvop] O Hc Hb. split; [|done..]. split; [by exists B|]. exists a. split; [apply lookup_insert_eq|done].
Qed.

Lemma define_ready l s va sz :
  ready_at false l s -> region_ok va sz ->
  if decide (length l < 2)%nat then
    exists s1, zoom psvmL (Vm.as_define_region (curspace_of (ps_vm s)) va sz) s = Done tt s1 /\ ready_at false (l ++ [(va, sz)]) s1
  else exists s1, zoom psvmL (Vm.as_define_region (curspace_of (ps_vm s)) va sz) s = Fail EUNIMP s1.
Proof.
  intros Hr Hok. pose proof Hok as (Hva & Hsz & Htop). pose proof Hr as [[[B O] (a & Ha & Hc & U)] _ _ _].
  destruct (define_region_eq _ B _ a va sz O Ha U) as (n & Hn & Hcov & O1 & O2 & E).
  { unfold seg_fits, SEGMAX, MAXPAGES, PAGE_SIZE. change USERTOP with (2 ^ 31) in Htop. lia. }
  assert (Hn0 : covered (va, sz) (page va) n) by (split; [done|]; split; [done|]; unfold pages_of, page, PAGE_SIZE in *; cbn [fst snd]; dlia).
  destruct l as [|r1 [|r2 [|r3 l]]]; cbn [length app covers] in *; [..|done].
  - destruct Hc as [Hc1 Hc2]. rewrite decide_True in E by done. rewrite decide_True by lia. eexists. split; [by apply psvm_Done|].
    apply (ready_space false [] _ _ s _ _ B); [done|done|by split|done].
  - destruct Hc as [Hc1 Hc2]. destruct (covered_set _ _ _ Hc1) as [H0 _]. rewrite decide_False, decide_True in E by done. rewrite decide_True by lia.
    eexists. split; [by apply psvm_Done|]. apply (ready_space false [r1] _ _ s _ _ B); [done|done|by split|done].
  - destruct Hc as [[H1 _]%covered_set [H2 _]%covered_set]. rewrite !decide_False in E by done. rewrite decide_False by lia. eexists. unfold zoom. cbn [psvmL lget]. by rewrite E.
Qed.

(** Before the pages are allocated no entry of the TLB is valid. *)
Lemma unprepared_held (vm : vmsys V) B a : vm_ok vm B -> spaces vm !! curspace_of vm = Some a -> unprepared a -> held (tlb vm) = [].
Proof.
  intros O Ha (U & _). pose proof (vo_entries _ _ O _ _ (curspace_current vm a B O Ha) Ha) as He. unfold held.
  induction He as [|e t [(_ & (_ & ? & _) & _)|[Hv _]] He IH]; [done|done|]. by rewrite filter_cons, decide_False by done.
Qed.

Lemma prepare_ready l s :
  ready_at false l s -> (length l <= 2)%nat ->
  (exists s1, zoom psvmL (Vm.as_prepare_load (curspace_of (ps_vm s))) s = Fail ENOMEM s1) \/
  exists s1, zoom psvmL (Vm.as_prepare_load (curspace_of (ps_vm s))) s = Done tt s1 /\ ready_at true l s1.
Proof.
  intros Hr _. pose proof Hr as [[[B O] (a & Ha & Hc & U)] _ _ _].
  destruct (prepare_load_spec _ B _ a O Ha U) as (h & a' & B' & O' & _ & Hsame & [(E & P1 & P2 & P3)|E]).
  2:{ left. eexists. unfold zoom. cbn [psvmL lget]. by rewrite E. }
  right. eexists. split; [by apply psvm_Done|]. destruct Hsame as (S1 & S2 & S3 & S4).
  apply (ready_space false l _ _ s _ _ B'); [done|done| |].
  - destruct l as [|r1 [|r2 [|r3 l]]]; cbn [covers] in *; by rewrite ?S1, ?S2, ?S3, ?S4.
  - split; [done|]. unfold tidy. rewrite (unprepared_held _ B a O Ha U). split; [apply NoDup_nil_2|apply list_subseteq_nil].
Qed.

Lemma complete_ready l s : ready_at true l s -> zoom psvmL (Vm.as_complete_load (curspace_of (ps_vm s))) s = Done tt s.
Proof. by destruct s. Qed.

(** What the loader relies on. *)
Definition program_spec : ProgramSpec pst v data := {|
  ready := ready_at;
  seen s := sees (ps_vm s);
  read_kernel := read_kernel_ready;
  read_user := read_user_ready;
  zeros_user := zeros_ready;
  define_law := define_ready;
  prepare_law := prepare_ready;
  complete_law := complete_ready;
|}.

(** ** The property *)

Lemma loaded_lookup l1 ph l2 f x :
  (forall q, q ∈ l2 -> ~ (p_vaddr q <= x < p_vaddr q + Z.of_nat (length (contents data q)))) ->
  p_vaddr ph <= x < p_vaddr ph + Z.of_nat (length (contents data ph)) ->
  foldl (LoadelfSpec.loaded data) f (l1 ++ ph :: l2) x = contents data ph !! Z.to_nat (x - p_vaddr ph).
Proof.
  intros Hl2 Hx. rewrite foldl_app. cbn [foldl]. generalize (foldl (LoadelfSpec.loaded data) f l1). clear f l1. intros f.
  assert (H : forall f', foldl (LoadelfSpec.loaded data) f' l2 x = f' x).
  { clear Hx. induction l2 as [|q l2 IH]; intros f'; [done|]. cbn [foldl]. rewrite IH by (intros q' Hq'; apply Hl2; by apply elem_of_cons; right).
    unfold LoadelfSpec.loaded, laid. rewrite decide_False; [done|]. apply Hl2, list_elem_of_here. }
  rewrite H. unfold LoadelfSpec.loaded, laid. by rewrite decide_True.
Qed.


End spec.

(** ** Open files *)

(** How often each vnode is open; only [vfs_open] and [vfs_close] change it. *)
Class RunnerSpec (S : Type) `{!Runner S} := {
  opens : S -> Z -> Z;
  open_law : forall name flags s, match vfs_open name flags s with
    | Done v s1 => forall q, opens s1 q = opens s q + if decide (q = v) then 1 else 0
    | Fail _ s1 => opens s1 = opens s
    | _ => True
    end;
  close_law : forall v s, match vfs_close v s with
    | Done _ s1 | Fail _ s1 => forall q, opens s1 q = opens s q - if decide (q = v) then 1 else 0
    | _ => True
    end;
  opens_read : forall v, keeps_fn (fun x => opens x.1) (VOP_READ v);
  opens_zeros : forall n, keeps_fn (fun x => opens x.1) (Loadelf.uiomovezeros n);
  opens_define : forall p va sz, keeps_fn opens (as_define_region p va sz);
  opens_prepare : forall p, keeps_fn opens (as_prepare_load p);
  opens_complete : forall p, keeps_fn opens (as_complete_load p);
  opens_create : keeps_fn opens as_create;
  opens_vmspace : forall p, keeps_fn opens (set_vmspace p);
  opens_activate : keeps_fn opens as_activate;
  opens_stack : forall p, keeps_fn opens (as_define_stack p);
}.

Section runner.
Context {S : Type} `{!Runner S, !RunnerSpec S}.
#[local] Hint Resolve opens_read opens_zeros opens_define opens_prepare opens_complete opens_create opens_vmspace opens_activate opens_stack : keeps_fn.

Lemma keeps_uio u (m : M (S * uio) unit) : keeps_fn (fun x => opens x.1) m -> keeps_fn opens (Loadelf.with_uio u m).
Proof. intros H s. unfold Loadelf.with_uio. specialize (H (s, u)). by destruct (m (s, u)) as [[] [? ?]|e [? ?]| | |]. Qed.

#[local] Hint Resolve keeps_uio : keeps_fn.

Lemma keeps_load v : keeps_fn opens (load_elf v).
Proof.
  assert (Hs : forall n o, keeps_fn opens (read_struct v n o)) by (intros; unfold read_struct; keeps_fn).
  assert (Hp : forall eh body, (forall ph, keeps_fn opens (body ph)) -> forall j, keeps_fn opens (on_phdr v eh body j)) by (intros; unfold on_phdr; keeps_fn).
  unfold load_elf, t_vmspace. keeps_fn; apply keeps_for, Hp; intros ph; unfold define_segment, load_phdr, load_segment, t_vmspace; keeps_fn.
Qed.

(** The state has the open files of [s0] and one more opening of [v]. *)
Definition opened (s0 : S) (v : Z) (s : S) : Prop := forall q, opens s q = opens s0 q + if decide (q = v) then 1 else 0.
(** A call that returns, with or without an error, leaves each vnode open as often as it was in [s0]. *)
Definition balanced {A} (s0 : S) (o : outcome S A) : Prop :=
  match o with Done _ s' | Fail _ s' => forall q, opens s' q = opens s0 q | _ => True end.

Lemma close_then {A} s0 v s (k : M S A) : opened s0 v s -> keeps_fn opens k -> balanced s0 ((vfs_close v ;; k) s).
Proof.
  intros Ho Hk. unfold mbind, M_bind. pose proof (close_law v s) as Hc. destruct (vfs_close v s) as [[] s1|e s1| | |]; try done.
  - specialize (Hk s1). destruct (k s1); try done; intros q; rewrite Hk, Hc, Ho; lia.
  - intros q. rewrite Hc, Ho. lia.
Qed.

(** A step that leaves the open files alone, and may not fail. *)
Lemma step_then {A B} s0 v s (m : M S A) (k : A -> M S B) :
  opened s0 v s -> keeps_fn opens m -> nofail m -> (forall a s1, opened s0 v s1 -> balanced s0 (k a s1)) -> balanced s0 ((m ≫= k) s).
Proof.
  intros Ho Hm Hf Hk. unfold mbind, M_bind. specialize (Hm s). specialize (Hf s). destruct (m s) as [a s1|e s1| | |]; try done.
  - apply Hk. intros q. by rewrite Hm.
  - by destruct (Hf e s1).
Qed.

(** C32: A file that [runprogram] opened is closed again when it returns an error, and when it enters user
    mode. *)
Theorem runprogram_closes progname s : nofail as_create -> (forall p, nofail (set_vmspace p)) -> nofail as_activate ->
  balanced s (runprogram progname s).
Proof.
  intros Nc Nv Na. unfold runprogram. pose proof (open_law progname O_RDONLY s) as Ho.
  unfold mbind at 1, M_bind at 1. destruct (vfs_open progname O_RDONLY s) as [v s1|e s1| | |]; try done; [|intros q; by rewrite Ho].
  apply (step_then s v); [done|apply keeps_gets|apply nofail_gets|]. intros sp s2 H2.
  apply (step_then s v); [done|intros s'; unfold kassert; by destruct (bool_decide _)|apply nofail_kassert|]. intros _ s3 H3.
  apply (step_then s v); [done|apply opens_create|done|]. intros p s4 H4.
  apply (step_then s v); [done|apply opens_vmspace|done|]. intros _ s5 H5. case_decide; [apply close_then; [done|apply keeps_fail]|].
  apply (step_then s v); [done|apply opens_activate|done|]. intros _ s6 H6.
  apply (step_then s v); [done|intros s'; pose proof (keeps_load v s') as K; unfold attempt; by destruct (load_elf v s')|apply nofail_attempt|].
  intros [e|entry] s7 H7; apply close_then; try done; unfold t_vmspace; keeps_fn.
Qed.
End runner.

End RunprogramSpec.
