(* ===== verification/Stoplight.v ===== *)
(** * The intersection: kern/asst1/stoplight.c

    Vehicles wait in queues and a scheduler lets them into the intersection, whose three
    segments are locks.  The structures are linked lists of vehicles, each with its lock, on the
    heap of the kernel; the threads use the locks of synch.c and sleep on addresses.  A call
    that sleeps cuts the program: what is left of it is run when the thread is switched in. *)

From S2P Require Import Prelude Kmalloc Kheap Thread Synch Boot FsKernel.
Import Boot.

Module Stoplight.
Abbreviation kernel := FsKernel.FsKernel.kernel.

(** ** Data *)

Inductive VehicleType := AMBULANCE | CAR | TRUCK.
Inductive Direction := A | B | C.
Inductive TurnDirection := R | L.

(** [None] is a field that has not been assigned. *)
Record Vehicle := mkVehicle {
  vehiclenumber : option Z;
  vehicle_type : option VehicleType;
  entrance : option Direction;
  turndirection : option TurnDirection;
  lock : option Z;
  sleepAddr : option Z;
  next : option Z;
}.

Record Queue := mkQueue { head : Z; tail : Z; size : Z }.

Record MLQ := mkMLQ {
  mlq_A : Z; mlq_C : Z; mlq_T : Z;
  lockA : Z; lockC : Z; lockT : Z;
  mlq_sleepAddr : Z;
}.

Definition sizeof_Vehicle : Z := 28.
Definition sizeof_Queue : Z := 12.
Definition sizeof_MLQ : Z := 28.
Definition NVEHICLES : Z := 30.

Definition SUCCESS : Z := 0.
Definition ERROR_NULL_POINTER : Z := -1.
Definition ERROR_LOCK_CREATION_FAILED : Z := -5.
Definition ERROR_QUEUE_EMPTY : Z := -7.
Definition ERROR_QUEUE_CONSUME_FAILED : Z := -8.

(** The lines the vehicles print: what happened, and the vehicle. *)
Inductive segment := AB | BC | CA.
Inductive event := Arrived | Turning (d : TurnDirection) | Entered (x : segment) | Exited (x : segment) | Completely.
Abbreviation line := (event * (Z * VehicleType * Direction * TurnDirection))%type.

(** The kernel, the structures by their addresses, and the global variables. *)
Record st := mkst {
  kern : kernel;
  vehicles : gmap Z Vehicle;
  queues : gmap Z Queue;
  mlqs : gmap Z MLQ;
  vehicle_scheduler : Z;
  waiting_zone : Z;
  numExitedV : Z;
  numExitedVLock : Z;
  isegAB_lock : Z;
  isegBC_lock : Z;
  isegCA_lock : Z;
  console : list line;
}.

Definition set_kern x (s : st) : st := mkst x (vehicles s) (queues s) (mlqs s) (vehicle_scheduler s) (waiting_zone s)
  (numExitedV s) (numExitedVLock s) (isegAB_lock s) (isegBC_lock s) (isegCA_lock s) (console s).
Definition set_vehicles x (s : st) : st := mkst (kern s) x (queues s) (mlqs s) (vehicle_scheduler s) (waiting_zone s)
  (numExitedV s) (numExitedVLock s) (isegAB_lock s) (isegBC_lock s) (isegCA_lock s) (console s).
Definition set_queues x (s : st) : st := mkst (kern s) (vehicles s) x (mlqs s) (vehicle_scheduler s) (waiting_zone s)
  (numExitedV s) (numExitedVLock s) (isegAB_lock s) (isegBC_lock s) (isegCA_lock s) (console s).
Definition set_mlqs x (s : st) : st := mkst (kern s) (vehicles s) (queues s) x (vehicle_scheduler s) (waiting_zone s)
  (numExitedV s) (numExitedVLock s) (isegAB_lock s) (isegBC_lock s) (isegCA_lock s) (console s).
Definition set_zones x y (s : st) : st := mkst (kern s) (vehicles s) (queues s) (mlqs s) x y
  (numExitedV s) (numExitedVLock s) (isegAB_lock s) (isegBC_lock s) (isegCA_lock s) (console s).
Definition set_numExitedV x (s : st) : st := mkst (kern s) (vehicles s) (queues s) (mlqs s) (vehicle_scheduler s)
  (waiting_zone s) x (numExitedVLock s) (isegAB_lock s) (isegBC_lock s) (isegCA_lock s) (console s).
Definition set_numExitedVLock x (s : st) : st := mkst (kern s) (vehicles s) (queues s) (mlqs s) (vehicle_scheduler s)
  (waiting_zone s) (numExitedV s) x (isegAB_lock s) (isegBC_lock s) (isegCA_lock s) (console s).
Definition set_isegs x y z (s : st) : st := mkst (kern s) (vehicles s) (queues s) (mlqs s) (vehicle_scheduler s)
  (waiting_zone s) (numExitedV s) (numExitedVLock s) x y z (console s).
Definition set_console x (s : st) : st := mkst (kern s) (vehicles s) (queues s) (mlqs s) (vehicle_scheduler s)
  (waiting_zone s) (numExitedV s) (numExitedVLock s) (isegAB_lock s) (isegBC_lock s) (isegCA_lock s) x.

Definition kernL : lens st kernel := Lens kern set_kern.
(** A call of the kernel. *)
Definition kcall {X} (m : M kernel X) : M st X := zoom kernL m.

(** ** Programs of threads *)

(** A program: it has ended, it does something and goes on, or it makes a call that may
    sleep ([true] when the call returned at once) and goes on after it. *)
#[warnings="-register-all"]
Inductive code (X : Type) : Type :=
  | Ret (x : X)
  | Do (m : M st (code X))
  | Wait (m : M st bool) (k : code X).
Arguments Ret {X} _.
Arguments Do {X} _.
Arguments Wait {X} _ _.

#[global] Instance code_ret : MRet code := fun X x => Ret x.
#[global] Instance code_bind : MBind code := fun X Y f =>
  fix bind (c : code X) : code Y :=
    match c with
    | Ret x => f x
    | Do m => Do (fun s =>
        match m s with
        | Done c' s' => Done (bind c') s'
        | Fail e s' => Fail e s'
        | Panic => Panic | Undef => Undef | NoFuel => NoFuel
        end)
    | Wait m k => Wait m (bind k)
    end.

Definition lift {X} (m : M st X) : code X := Do (x ← m; mret (Ret x)).

(** Runs a program to its end, or to a call that sleeps: then what is left is returned. *)
Fixpoint exec {X} (c : code X) : M st (X + code X) :=
  match c with
  | Ret x => mret (inl x)
  | Do m => fun s =>
      match m s with
      | Done c' s' => exec c' s'
      | Fail e s' => Fail e s'
      | Panic => Panic | Undef => Undef | NoFuel => NoFuel
      end
  | Wait m k => fun s =>
      match m s with
      | Done true s' => exec k s'
      | Done false s' => Done (inr k) s'
      | Fail e s' => Fail e s'
      | Panic => Panic | Undef => Undef | NoFuel => NoFuel
      end
  end.

(** ** The kernel's calls *)

Definition kmalloc (n : Z) : code Z := lift (kcall (Synch.kalloc n)).
Definition kfree (p : Z) : code unit := lift (kcall (Synch.kdrop p)).
(** For a name of [len] characters; 0 for [NULL]. *)
Definition lock_create (len : Z) : code Z := lift (o ← kcall (Synch.lock_create len); mret (default 0 o)).
Definition lock_destroy (l : Z) : code unit := lift (kcall (Synch.lock_destroy l)).
Definition lock_acquire (l : Z) : code unit := Wait (kcall (Synch.lock_acquire l)) (Ret tt).
Definition lock_try_acquire_alert (l : Z) : code Z := lift (kcall (Synch.lock_try_acquire_alert l)).
Definition lock_release (l : Z) : code unit := lift (_ ← kcall (Synch.lock_release l); mret tt).
Definition lock_do_i_hold (l : Z) : code Z := lift (kcall (Synch.lock_do_i_hold l)).
Definition thread_wakeup (a : Z) : code unit := lift (kcall (Synch.kt (Thread.thread_wakeup a))).
Definition thread_sleep (a : Z) : code unit :=
  Wait (b ← kcall (Synch.kt (Thread.thread_sleep a)); mret (negb b)) (Ret tt).
(** The error number, or the new thread. *)
Definition thread_fork (len : Z) : code (errno + Z) := lift (attempt (kcall (Synch.kt (Thread.thread_fork len)))).

(** ** Access to the structures *)

Definition get_vehicle (v : Z) : M st Vehicle := s ← gets id; access (vehicles s !! v).
Definition put_vehicle (v : Z) (x : Vehicle) : M st unit := modify (fun s => set_vehicles (<[v := x]> (vehicles s)) s).
(** A field that must have been assigned. *)
Definition field {X} (f : Vehicle -> option X) (v : Z) : code X := lift (x ← get_vehicle v; access (f x)).
Definition get_queue (q : Z) : code Queue := lift (s ← gets id; access (queues s !! q)).
Definition put_queue (q : Z) (x : Queue) : code unit := lift (modify (fun s => set_queues (<[q := x]> (queues s)) s)).
Definition get_mlq (m : Z) : code MLQ := lift (s ← gets id; access (mlqs s !! m)).
Definition global {X} (f : st -> X) : code X := lift (gets f).

Definition set_lock x (v : Vehicle) : Vehicle :=
  mkVehicle (vehiclenumber v) (vehicle_type v) (entrance v) (turndirection v) x (sleepAddr v) (next v).
Definition set_sleepAddr x (v : Vehicle) : Vehicle :=
  mkVehicle (vehiclenumber v) (vehicle_type v) (entrance v) (turndirection v) (lock v) x (next v).
Definition set_next x (v : Vehicle) : Vehicle :=
  mkVehicle (vehiclenumber v) (vehicle_type v) (entrance v) (turndirection v) (lock v) (sleepAddr v) x.
Definition upd (v : Z) (f : Vehicle -> Vehicle) : code unit := lift (x ← get_vehicle v; put_vehicle v (f x)).

Definition set_head x (q : Queue) : Queue := mkQueue x (tail q) (size q).
Definition set_tail x (q : Queue) : Queue := mkQueue (head q) x (size q).
Definition set_size x (q : Queue) : Queue := mkQueue (head q) (tail q) x.

Definition free_vehicle (v : Z) : code unit :=
  kfree v ;; lift (modify (fun s => set_vehicles (delete v (vehicles s)) s)).

(** ** Vehicles *)

Definition Vehicle_free (v : Z) : code Z :=
  if decide (v = 0) then mret ERROR_NULL_POINTER
  else
    l ← field lock v;
    (if decide (l <> 0) then lock_destroy l ;; upd v (set_lock (Some 0)) else mret tt) ;;
    a ← field sleepAddr v;
    (if decide (a <> 0) then lock_destroy a else mret tt) ;;
    free_vehicle v ;;
    mret SUCCESS.

(** Digits of an unsigned number of 32 bits. *)
Fixpoint digits (fuel : nat) (n : Z) : Z :=
  match fuel with
  | O => 1
  | S fuel' => if decide (n < 10) then 1 else 1 + digits fuel' (n / 10)
  end.

(** "Vehicle Lock Number: " and the number. *)
Definition lock_name_length (n : Z) : Z := 21 + digits 10 n.

(** The address of the string. *)
Definition createVehicleLockNameString (n : Z) : code Z :=
  fullString ← kmalloc (lock_name_length n + 1);
  mret fullString.

(** The second half of [Vehicle_create], from the lock of the vehicle on. *)
Definition Vehicle_locks (v n : Z) : code Z :=
  l ← lock_create (lock_name_length n);
  upd v (set_lock (Some l)) ;;
  if decide (l = 0) then Vehicle_free v ;; mret 0
  else
    upd v (set_next (Some 0)) ;;
    a ← lock_create 9;
    upd v (set_sleepAddr (Some a)) ;;
    if decide (a = 0) then Vehicle_free v ;; mret 0
    else mret v.

Definition Vehicle_create (n : Z) (t : VehicleType) (e : Direction) (d : TurnDirection) : code Z :=
  v ← kmalloc sizeof_Vehicle;
  if decide (v = 0) then mret 0
  else
    lift (put_vehicle v (mkVehicle (Some n) (Some t) (Some e) (Some d) None None None)) ;;
    lockName ← createVehicleLockNameString n;
    if decide (lockName = 0) then Vehicle_free v ;; mret 0
    else Vehicle_locks v n.

(** ** Queues *)

Definition Queue_init : code Z :=
  q ← kmalloc sizeof_Queue;
  if decide (q = 0) then mret 0
  else
    dummy ← kmalloc sizeof_Vehicle;
    if decide (dummy = 0) then kfree q ;; mret 0
    else
      lift (put_vehicle dummy (mkVehicle None None None None None None (Some 0))) ;;
      l ← lock_create 10;
      upd dummy (set_lock (Some l)) ;;
      if decide (l = 0) then free_vehicle dummy ;; kfree q ;; mret 0
      else
        put_queue q (mkQueue dummy dummy 0) ;;
        mret q.

Definition Queue_enqueue (q v : Z) : code Z :=
  if decide (q = 0 \/ v = 0) then mret ERROR_NULL_POINTER
  else
    upd v (set_next (Some 0)) ;;
    l ← lock_create 12;
    upd v (set_lock (Some l)) ;;
    if decide (l = 0) then Vehicle_free v ;; mret ERROR_LOCK_CREATION_FAILED
    else
      x ← get_queue q;
      tl ← field lock (tail x);
      lock_acquire tl ;;
      x ← get_queue q;
      upd (tail x) (set_next (Some v)) ;;
      put_queue q (set_size (s32 (size x + 1)) (set_tail v x)) ;;
      x ← get_queue q;
      tl ← field lock (tail x);
      lock_release tl ;;
      mret SUCCESS.

Definition Queue_dequeue (q : Z) : code Z :=
  if decide (q = 0) then mret 0
  else
    x ← get_queue q;
    if decide (size x = 0) then mret 0
    else
      hl ← field lock (head x);
      lock_acquire hl ;;
      x ← get_queue q;
      let temp := head x in
      v ← field next temp;
      if decide (v = 0) then tl ← field lock temp; lock_release tl ;; mret 0
      else
        vl ← field lock v;
        lock_acquire vl ;;
        x ← get_queue q;
        put_queue q (set_head v x) ;;
        n ← field next v;
        upd temp (set_next (Some n)) ;;
        x ← get_queue q;
        (if decide (tail x = v) then put_queue q (set_tail (head x) x) else mret tt) ;;
        x ← get_queue q;
        put_queue q (set_size (s32 (size x - 1)) x) ;;
        tl ← field lock temp;
        lock_release tl ;;
        vl ← field lock v;
        lock_release vl ;;
        upd v (set_next (Some 0)) ;;
        mret v.

Fixpoint free_loop (fuel : nat) (current : Z) : code unit :=
  if decide (current = 0) then mret tt
  else
    match fuel with
    | O => lift nofuel
    | S fuel' =>
        n ← field next current;
        l ← field lock current;
        (if decide (l <> 0) then lock_destroy l else mret tt) ;;
        _ ← Vehicle_free current;
        free_loop fuel' n
    end.

(** Every turn of the loop gives back a vehicle. *)
Definition Queue_free (q : Z) : code Z :=
  if decide (q = 0) then mret ERROR_NULL_POINTER
  else
    x ← get_queue q;
    n ← global (fun s => base.size (vehicles s));
    free_loop n (head x) ;;
    kfree q ;;
    lift (modify (fun s => set_queues (delete q (queues s)) s)) ;;
    mret SUCCESS.

Definition Queue_produce (q v : Z) : code Z :=
  if decide (q = 0 \/ v = 0) then mret ERROR_NULL_POINTER
  else
    upd v (set_next (Some 0)) ;;
    x ← get_queue q;
    tl ← field lock (tail x);
    lock_acquire tl ;;
    x ← get_queue q;
    upd (tail x) (set_next (Some v)) ;;
    put_queue q (set_tail v x) ;;
    x ← get_queue q;
    tl ← field lock (tail x);
    lock_release tl ;;
    x ← get_queue q;
    put_queue q (set_size (s32 (size x + 1)) x) ;;
    mret (s32 (size x + 1)).

(** The loop of [Queue_consume], from the node [current]. *)
Fixpoint consume_loop (fuel : nat) (pq dq current : Z) : code unit :=
  if decide (current = 0) then mret tt
  else
    match fuel with
    | O => lift nofuel
    | S fuel' =>
        l ← field lock current;
        lock_acquire l ;;
        n ← field next current;
        x ← get_queue pq;
        upd (head x) (set_next (Some n)) ;;
        (if decide (tail x = current) then put_queue pq (set_tail (head x) x) else mret tt) ;;
        n ← field next current;
        upd current (set_next (Some 0)) ;;
        l ← field lock current;
        lock_release l ;;
        _ ← Queue_produce dq current;
        consume_loop fuel' pq dq n
    end.

Definition head_lock (q : Z) : code Z := x ← get_queue q; field lock (head x).

Definition Queue_consume (fuel : nat) (pq dq : Z) : code Z :=
  if decide (pq = 0 \/ dq = 0) then mret ERROR_NULL_POINTER
  else
    x ← get_queue pq;
    if decide (size x = 0) then mret ERROR_QUEUE_EMPTY
    else
      l ← head_lock pq;
      lock_acquire l ;;
      l ← head_lock dq;
      lock_acquire l ;;
      x ← get_queue pq;
      current ← field next (head x);
      consume_loop fuel pq dq current ;;
      l ← head_lock dq;
      lock_release l ;;
      x ← get_queue pq;
      put_queue pq (set_size 0 x) ;;
      l ← head_lock pq;
      lock_release l ;;
      mret SUCCESS.

(** ** The multilevel queues *)

Definition mlq_free (m : Z) : code Z :=
  if decide (m = 0) then mret ERROR_NULL_POINTER
  else
    x ← get_mlq m;
    _ ← Queue_free (mlq_A x);
    lock_destroy (lockA x) ;;
    _ ← Queue_free (mlq_C x);
    lock_destroy (lockC x) ;;
    _ ← Queue_free (mlq_T x);
    lock_destroy (lockT x) ;;
    (if decide (mlq_sleepAddr x <> 0) then lock_destroy (mlq_sleepAddr x) else mret tt) ;;
    mret SUCCESS.

(** The locks of [mlq_init], once its queues are there. *)
Definition mlq_locks (m qa qc qt : Z) : code Z :=
  la ← lock_create 10;
  lc ← lock_create 10;
  lt ← lock_create 10;
  lift (kassert (bool_decide (la <> 0))) ;;
  lift (kassert (bool_decide (lc <> 0))) ;;
  lift (kassert (bool_decide (lt <> 0))) ;;
  a ← lock_create 9;
  lift (modify (fun s => set_mlqs (<[m := mkMLQ qa qc qt la lc lt a]> (mlqs s)) s)) ;;
  if decide (a = 0) then _ ← mlq_free m; mret 0 else mret m.

Definition mlq_init : code Z :=
  m ← kmalloc sizeof_MLQ;
  if decide (m = 0) then mret 0
  else
    qa ← Queue_init;
    if decide (qa = 0) then kfree m ;; mret 0
    else
      qc ← Queue_init;
      if decide (qc = 0) then _ ← Queue_free qa; kfree m ;; mret 0
      else
        qt ← Queue_init;
        if decide (qt = 0) then _ ← Queue_free qa; _ ← Queue_free qc; kfree m ;; mret 0
        else mlq_locks m qa qc qt.

(** One level: the queue of the waiting zone into that of the scheduler. *)
Definition consume_level (fuel : nat) (level : MLQ -> Z) (result : Z) : code Z :=
  w ← global waiting_zone;
  w ← get_mlq w;
  x ← get_queue (level w);
  if decide (size x > 0) then
    v ← global vehicle_scheduler;
    v ← get_mlq v;
    r ← Queue_consume fuel (level w) (level v);
    mret (if decide (r <> SUCCESS) then ERROR_QUEUE_CONSUME_FAILED else result)
  else mret result.

(** A lock of the scheduler's queues. *)
Definition scheduler_field (f : MLQ -> Z) : code Z := v ← global vehicle_scheduler; v ← get_mlq v; mret (f v).

Definition Waiting_zone_consume (fuel : nat) : code Z :=
  l ← scheduler_field lockA; lock_acquire l ;;
  l ← scheduler_field lockC; lock_acquire l ;;
  l ← scheduler_field lockT; lock_acquire l ;;
  r ← consume_level fuel mlq_A SUCCESS;
  r ← consume_level fuel mlq_C r;
  r ← consume_level fuel mlq_T r;
  l ← scheduler_field lockT; lock_release l ;;
  l ← scheduler_field lockC; lock_release l ;;
  l ← scheduler_field lockA; lock_release l ;;
  mret r.

(** ** The scheduler *)

(** The segments a vehicle crosses, in their order. *)
Definition segments (e : Direction) (d : TurnDirection) : list segment :=
  match e, d with
  | A, L => [AB; BC] | A, R => [AB]
  | B, L => [BC; CA] | B, R => [BC]
  | C, L => [CA; AB] | C, R => [CA]
  end.

Definition iseg_lock (x : segment) : code Z :=
  global (match x with AB => isegAB_lock | BC => isegBC_lock | CA => isegCA_lock end).

Fixpoint hold_all (l : list segment) : code bool :=
  match l with
  | [] => mret true
  | x :: l' =>
      lk ← iseg_lock x;
      h ← lock_do_i_hold lk;
      if decide (h <> 0) then hold_all l' else mret false
  end.

Fixpoint release_all (l : list segment) : code unit :=
  match l with
  | [] => mret tt
  | x :: l' => lk ← iseg_lock x; lock_release lk ;; release_all l'
  end.

(** A vehicle whose segments are held is taken out and woken; the node after it. *)
Definition service (q current : Z) (l : list segment) : code Z :=
  n ← field next current;
  x ← get_queue q;
  upd (head x) (set_next (Some n)) ;;
  (if decide (tail x = current) then put_queue q (set_tail (head x) x) else mret tt) ;;
  n ← field next current;
  upd current (set_next (Some 0)) ;;
  cl ← field lock current;
  lock_release cl ;;
  release_all l ;;
  a ← field sleepAddr current;
  thread_wakeup a ;;
  a ← scheduler_field mlq_sleepAddr;
  thread_sleep a ;;
  mret n.

Fixpoint search_loop (fuel : nat) (q current : Z) : code unit :=
  if decide (current = 0) then mret tt
  else
    match fuel with
    | O => lift nofuel
    | S fuel' =>
        l ← field lock current;
        lock_acquire l ;;
        e ← field entrance current;
        d ← field turndirection current;
        ok ← hold_all (segments e d);
        n ← (if ok : bool then service q current (segments e d) else field next current);
        search_loop fuel' q n
    end.

Definition Scheduler_search_for_next_serviceable_vehicle (fuel : nat) (q : Z) : code Z :=
  if decide (q = 0) then mret ERROR_NULL_POINTER
  else
    l ← head_lock q;
    lock_acquire l ;;
    x ← get_queue q;
    current ← field next (head x);
    search_loop fuel q current ;;
    l ← head_lock q;
    lock_release l ;;
    mret SUCCESS.

(** One level of the scheduler, under its lock. *)
Definition search_level (fuel : nat) (lk level : MLQ -> Z) : code unit :=
  l ← scheduler_field lk; lock_acquire l ;;
  q ← scheduler_field level;
  _ ← Scheduler_search_for_next_serviceable_vehicle fuel q;
  l ← scheduler_field lk; lock_release l.

(** No vehicle waits, at any of the levels. *)
Definition idle_zones : code bool :=
  v ← global vehicle_scheduler; v ← get_mlq v;
  w ← global waiting_zone; w ← get_mlq w;
  a ← get_queue (mlq_A v); c ← get_queue (mlq_C v); t ← get_queue (mlq_T v);
  a' ← get_queue (mlq_A w); c' ← get_queue (mlq_C w); t' ← get_queue (mlq_T w);
  mret (bool_decide (size a = 0 /\ size c = 0 /\ size t = 0 /\ size a' = 0 /\ size c' = 0 /\ size t' = 0)).

Definition try_iseg (x : segment) : code unit := l ← iseg_lock x; _ ← lock_try_acquire_alert l; mret tt.

(** [fuel] bounds the turns of the loop and of the loops over the queues. *)
Fixpoint Schedule_vehicles (fuel : nat) : code unit :=
  match fuel with
  | O => lift nofuel
  | S fuel' =>
      l ← global numExitedVLock; lock_acquire l ;;
      n ← global numExitedV;
      if decide (n < NVEHICLES) then
        l ← global numExitedVLock; lock_release l ;;
        idle ← idle_zones;
        if idle : bool then Schedule_vehicles fuel'
        else
          _ ← Waiting_zone_consume fuel;
          try_iseg AB ;; try_iseg BC ;; try_iseg CA ;;
          search_level fuel lockA mlq_A ;;
          search_level fuel lockC mlq_C ;;
          search_level fuel lockT mlq_T ;;
          Schedule_vehicles fuel'
      else mret tt
  end.

(** ** The vehicles *)

Definition say (e : event) (v : Z) : code unit :=
  n ← field vehiclenumber v; t ← field vehicle_type v; x ← field entrance v; d ← field turndirection v;
  lift (modify (fun s => set_console (console s ++ [(e, (n, t, x, d))]) s)).

Fixpoint acquire_all (l : list segment) : code unit :=
  match l with
  | [] => mret tt
  | x :: l' => lk ← iseg_lock x; lock_acquire lk ;; acquire_all l'
  end.

(** The lock of a segment is released before the line that says so. *)
Fixpoint cross (v : Z) (l : list segment) : code unit :=
  match l with
  | [] => mret tt
  | x :: l' => say (Entered x) v ;; lk ← iseg_lock x; lock_release lk ;; say (Exited x) v ;; cross v l'
  end.

(** What a vehicle does once it has been woken. *)
Definition turn (v : Z) : code unit :=
  l ← field lock v; lock_acquire l ;;
  e ← field entrance v;
  d ← field turndirection v;
  acquire_all (segments e d) ;;
  a ← scheduler_field mlq_sleepAddr; thread_wakeup a ;;
  say (Turning d) v ;;
  cross v (segments e d) ;;
  say Completely v ;;
  l ← field lock v; lock_release l ;;
  _ ← Vehicle_free v;
  l ← global numExitedVLock; lock_acquire l ;;
  n ← global numExitedV;
  lift (modify (set_numExitedV (s32 (n + 1)))) ;;
  l ← global numExitedVLock; lock_release l.

Definition direction_of (n : Z) : Direction := match n mod 3 with 0 => A | 1 => B | _ => C end.
Definition turn_of (n : Z) : TurnDirection := match n mod 2 with 0 => R | _ => L end.
Definition type_of (n : Z) : VehicleType := match n mod 3 with 0 => AMBULANCE | 1 => CAR | _ => TRUCK end.

Section vehicle.
(** Declared and called, but not defined by any file. *)
Variable Waiting_zone_produce : Z -> code Z.

(** With the three values [random()] gives. *)
Definition approachintersection (r1 r2 r3 vehiclenumber : Z) : code unit :=
  v ← Vehicle_create vehiclenumber (type_of r3) (direction_of r1) (turn_of r2);
  _ ← Waiting_zone_produce v;
  say Arrived v ;;
  a ← field sleepAddr v; thread_sleep a ;;
  turn v.

End vehicle.

Fixpoint fork_vehicles (n : nat) : code unit :=
  match n with
  | O => mret tt
  | S n' =>
      r ← thread_fork 27;
      match r with
      | inl _ => lift panic
      | inr _ => fork_vehicles n'
      end
  end.

Definition createvehicles : code Z :=
  ab ← lock_create 6; bc ← lock_create 6; ca ← lock_create 6;
  lift (modify (fun s => set_numExitedV 0 (set_isegs ab bc ca s))) ;;
  l ← lock_create 6;
  lift (modify (set_numExitedVLock l)) ;;
  lift (kassert (bool_decide (l <> 0))) ;;
  v ← mlq_init;
  lift (modify (fun s => set_zones v (waiting_zone s) s)) ;;
  w ← mlq_init;
  lift (modify (fun s => set_zones v w s)) ;;
  r ← thread_fork 16;
  match r with
  | inl _ => lift panic
  | inr _ => fork_vehicles (Z.to_nat NVEHICLES) ;; mret 0
  end.

End Stoplight.
