(* ===== verification/StoplightInv.v ===== *)
(** * The queues of the intersection

    What the routines of stoplight.c do to their queues and to the locks of the vehicles in
    them, on the kernel with its invariant: a queue is a list of vehicles behind a dummy. *)

From S2P Require Import Prelude Kmalloc Kheap Thread ThreadInv Synch SynchInv Boot FsKernel Stoplight.
Import Boot Stoplight.Stoplight.
Import SynchInv.SynchInv (kok, holders, kreach, EvAcquire, EvRelease, room_sl, lock_ok).

Module StoplightInv.

(** ** Queues as lists *)

(** The vehicles after the node [p]. *)
Fixpoint chain (vs : gmap Z Vehicle) (p : Z) (l : list Z) : Prop :=
  exists x, vs !! p = Some x /\
  match l with
  | [] => next x = Some 0
  | v :: l' => next x = Some v /\ v <> 0 /\ chain vs v l'
  end.

Record rep (s : st) (q : Z) (x : Queue) (l : list Z) : Prop := {
  rep_queue : queues s !! q = Some x;
  rep_chain : chain (vehicles s) (head x) l;
  rep_tail : last (head x :: l) = Some (tail x);
  rep_nodup : NoDup (head x :: l);
}.

(** ** Programs *)

Lemma exec_bind {X Y} (c : code X) (f : X -> code Y) : forall s,
  exec (c ≫= f) s =
  match exec c s with
  | Done (inl x) s' => exec (f x) s'
  | Done (inr k) s' => Done (inr (k ≫= f)) s'
  | Fail e s' => Fail e s'
  | Panic => Panic | Undef => Undef | NoFuel => NoFuel
  end.
Proof.
  revert c. fix IH 1. intros [x|m|m k] s; [done|..]; cbn.
  - destruct (m s) as [c' s'|e s'| | |]; [apply IH|done..].
  - destruct (m s) as [[] s'|e s'| | |]; [apply IH|done..].
Qed.

Lemma exec_then {X Y} (c : code X) (f : X -> code Y) s x s' :
  exec c s = Done (inl x) s' -> exec (c ≫= f) s = exec (f x) s'.
Proof. intros E. by rewrite exec_bind, E. Qed.
Lemma exec_block {X Y} (c : code X) (f : X -> code Y) s k s' :
  exec c s = Done (inr k) s' -> exec (c ≫= f) s = Done (inr (k ≫= f)) s'.
Proof. intros E. by rewrite exec_bind, E. Qed.
Lemma exec_panic {X Y} (c : code X) (f : X -> code Y) s : exec c s = Panic -> exec (c ≫= f) s = Panic.
Proof. intros E. by rewrite exec_bind, E. Qed.

Lemma exec_lift {X} (m : M st X) s x s' : m s = Done x s' -> exec (lift m) s = Done (inl x) s'.
Proof. intros E. cbn. unfold mbind, M_bind. by rewrite E. Qed.

Lemma field_eq {X} (f : Vehicle -> option X) v s x y :
  vehicles s !! v = Some x -> f x = Some y -> exec (field f v) s = Done (inl y) s.
Proof. intros E F. apply exec_lift. unfold get_vehicle. munfold. unfold id. by rewrite E, F. Qed.
Lemma upd_eq v f s x :
  vehicles s !! v = Some x -> exec (upd v f) s = Done (inl tt) (set_vehicles (<[v := f x]> (vehicles s)) s).
Proof. intros E. apply exec_lift. unfold get_vehicle. munfold. unfold id. by rewrite E. Qed.
Lemma get_queue_eq q s x : queues s !! q = Some x -> exec (get_queue q) s = Done (inl x) s.
Proof. intros E. apply exec_lift. munfold. unfold id. by rewrite E. Qed.
Lemma put_queue_eq q s x : exec (put_queue q x) s = Done (inl tt) (set_queues (<[q := x]> (queues s)) s).
Proof. done. Qed.

Lemma chain_ne vs v x p l : v ∉ p :: l -> chain vs p l -> chain (<[v := x]> vs) p l.
Proof.
  revert p. induction l as [|w l IH]; intros p Hv (y & Ey & Hy); apply not_elem_of_cons in Hv as [Hp Hv]; exists y;
    rewrite lookup_insert_ne by congruence; (split; [done|]); [done|].
  destruct Hy as (? & ? & ?). split; [done|]. split; [done|]. by apply IH.
Qed.

Lemma chain_snoc vs p l t x v y :
  chain vs p l -> last (p :: l) = Some t -> NoDup (p :: l) -> vs !! t = Some x -> vs !! v = Some y -> next y = Some 0 ->
  v <> 0 -> v ∉ p :: l -> chain (<[t := set_next (Some v) x]> vs) p (l ++ [v]).
Proof.
  intros Hc Hl Hn Hx Hy Hz Hv Hin. revert p Hc Hl Hn Hin. induction l as [|w l IH]; intros p (z & Ez & Hc) Hl Hn Hin; simpl.
  - injection Hl as ->. exists (set_next (Some v) x). rewrite lookup_insert_eq. split; [done|]. split; [done|]. split; [done|].
    exists y. apply not_elem_of_cons in Hin as [? _]. by rewrite lookup_insert_ne.
  - destruct Hc as (Hw & Hw0 & Hc). apply NoDup_cons in Hn as [Hp Hn]. rewrite last_cons_cons in Hl.
    exists z. split; [|split; [done|]; split; [done|]; apply IH; try done; by apply not_elem_of_cons in Hin as [_ ?]].
    rewrite lookup_insert_ne; [done|]. intros ->. apply Hp. apply last_Some in Hl as [l' ->]. apply elem_of_app. right.
    by apply list_elem_of_singleton.
Qed.

Lemma rep_tail_in s q x l : rep s q x l -> tail x ∈ head x :: l.
Proof. intros [_ _ H _]. apply last_Some in H as [l' ->]. apply elem_of_app. right. by apply list_elem_of_singleton. Qed.

(** The lock of a vehicle. *)
Definition lock_of (s : st) (v : Z) : option Z := vehicles s !! v ≫= lock.

Lemma lock_of_inv s v l : lock_of s v = Some l -> exists x, vehicles s !! v = Some x /\ lock x = Some l.
Proof. unfold lock_of. destruct (vehicles s !! v) as [x|]; [|done]. intros E. by exists x. Qed.

(** ** Locks *)

Section locks.
Variable lbolt : Z.

Definition cur (s : st) : Z := Thread.curthread (Synch.ts (kern s)).
Abbreviation hs s := (holders (kern s)).

(** The kernel keeps its invariant, and a thread runs. *)
Definition running (s : st) : Prop := (exists F, kok lbolt F (kern s)) /\ cur s <> 0.

Lemma holders_inv (k : kernel) l t : holders k !! l = Some t -> exists y, Synch.locks k !! l = Some y /\ Synch.holder y = t.
Proof.
  unfold holders. rewrite lookup_fmap. destruct (Synch.locks k !! l) as [y|] eqn:E; [|done]. intros [= <-]. by exists y.
Qed.

Lemma kcall_eq {X} (m : M kernel X) s x k : m (kern s) = Done x k -> kcall m s = Done x (set_kern k s).
Proof. intros E. unfold kcall, zoom. cbn [lget lset kernL]. by rewrite E. Qed.

(** A free lock is taken at once. *)
Lemma acquire_free s l :
  running s -> l <> 0 -> hs s !! l = Some 0 ->
  exists k, exec (lock_acquire l) s = Done (inl tt) (set_kern k s) /\ running (set_kern k s) /\
    cur (set_kern k s) = cur s /\ holders k = <[l := cur s]> (hs s).
Proof.
  intros [(F & R & S & Zs & K) Hc] Hl Hh. destruct (holders_inv _ _ _ Hh) as (y & Ey & Hy).
  destruct (SynchInv.SynchInv.ki_lock _ _ _ _ _ _ _ K l y Ey) as [[Ha _]|[_ ?]]; [|done].
  assert (E : exists k, Synch.lock_acquire l (kern s) = Done true k).
  { unfold Synch.lock_acquire. munfold. rewrite bool_decide_eq_true_2 by done. unfold Thread.splhigh.
    rewrite SynchInv.SynchInv.kt_splx. set (k1 := Synch.set_ts _ _). unfold Synch.lock_acquire_loop. munfold.
    rewrite (SynchInv.SynchInv.get_lock_eq l k1 y Ey), SynchInv.SynchInv.kt_gets.
    rewrite Ha, decide_False, bool_decide_eq_true_2 by done. by eexists. }
  destruct E as [k E].
  destruct (SynchInv.SynchInv.acquire_spec lbolt F (kern s) R S Zs l y K Hc Hl Ey) as [[E' _]|(b & s' & E' & K' & _ & Hb)];
    rewrite E in E'; [done|].
  injection E' as <- <-. destruct Hb as (_ & Hh' & Hc'). exists k. split.
  { cbn. by rewrite (kcall_eq _ _ _ _ E). }
  split; [split; [by exists F|by unfold cur; cbn; rewrite Hc']|]. done.
Qed.

(** A lock that is taken, by whatever thread, puts the caller to sleep. *)
Lemma acquire_taken s l t :
  running s -> l <> 0 -> hs s !! l = Some t -> t <> 0 ->
  exec (lock_acquire l) s = Panic /\ ~ room_sl (Synch.ts (kern s)) \/
  exists k, exec (lock_acquire l) s = Done (inr (Ret tt)) (set_kern k s) /\ (exists F, kok lbolt F k) /\ holders k = hs s /\
    exists n, Synch.waits k !! cur s = Some (Synch.InAcquire l n).
Proof.
  intros [(F & R & S & Zs & K) Hc] Hl Hh Ht. destruct (holders_inv _ _ _ Hh) as (y & Ey & Hy).
  destruct (SynchInv.SynchInv.acquire_spec lbolt F (kern s) R S Zs l y K Hc Hl Ey) as [[E Hr]|([] & k & E & K' & _ & Hb)].
  - left. split; [|done]. cbn. unfold kcall, zoom. cbn [lget lset kernL]. by rewrite E.
  - destruct Hb. congruence.
  - right. exists k. split; [cbn; by rewrite (kcall_eq _ _ _ _ E)|]. split; [by exists F|]. split; [done|].
    destruct (SynchInv.SynchInv.holders_taken lbolt _ _ _ _ _ _ l t K Hh Ht) as (z & Ez & Ha).
    exact (SynchInv.SynchInv.acquire_waits l (kern s) false k z E Ez Ha).
Qed.

(** A thread that does not hold the lock releases nothing. *)
Lemma release_other s l t : l <> 0 -> hs s !! l = Some t -> t <> cur s -> exec (lock_release l) s = Done (inl tt) s.
Proof.
  intros Hl Hh Ht. destruct (holders_inv _ _ _ Hh) as (y & Ey & Hy). apply exec_lift.
  assert (E : Synch.lock_release l (kern s) = Done false (kern s)).
  { unfold Synch.lock_release. munfold. rewrite bool_decide_eq_true_2 by done. unfold Thread.splhigh.
    rewrite SynchInv.SynchInv.kt_splx. set (k1 := Synch.set_ts _ _).
    rewrite (SynchInv.SynchInv.do_i_hold_eq l k1 y Hl Ey). rewrite (decide_False (P := Synch.holder y = _)) by (by rewrite Hy).
    rewrite decide_False by done. cbn. by destruct (kern s) as [[]]. }
  unfold mbind, M_bind. rewrite (kcall_eq _ _ _ _ E). by destruct s.
Qed.

(** The holder releases it. *)
Lemma release_mine s l :
  running s -> l <> 0 -> hs s !! l = Some (cur s) ->
  exec (lock_release l) s = Panic \/
  exists k, exec (lock_release l) s = Done (inl tt) (set_kern k s) /\ running (set_kern k s) /\
    cur (set_kern k s) = cur s /\ holders k = <[l := 0]> (hs s).
Proof.
  intros [(F & R & S & Zs & K) Hc] Hl Hh. destruct (holders_inv _ _ _ Hh) as (y & Ey & Hy).
  destruct (SynchInv.SynchInv.release_spec lbolt F (kern s) R S Zs l y K Hc Hl Ey) as [[E _]|(b & k & E & K' & _ & Hb & Hc' & Hh')].
  { left. cbn. unfold mbind, M_bind, kcall, zoom. cbn [lget lset kernL]. by rewrite E. }
  right. exists k. split; [apply exec_lift; unfold mbind, M_bind; by rewrite (kcall_eq _ _ _ _ E)|].
  rewrite bool_decide_eq_true_2 in Hb by done. subst b. split; [split; [by exists F|by unfold cur; cbn; rewrite Hc']|]. done.
Qed.

(** ** Adding a vehicle *)

(** What adding [v] at the end makes of the structures. *)
Record appended (s s' : st) (q : Z) (x : Queue) (v : Z) : Prop := {
  ap_queues : queues s' = <[q := mkQueue (head x) v (s32 (size x + 1))]> (queues s);
  ap_vehicles : exists y z, vehicles s !! v = Some y /\ vehicles s !! tail x = Some z /\
    vehicles s' = <[tail x := set_next (Some v) z]> (<[v := set_next (Some 0) y]> (vehicles s));
}.

Lemma appended_rep s s' q x l v :
  rep s q x l -> v <> 0 -> v ∉ head x :: l -> appended s s' q x v ->
  rep s' q (mkQueue (head x) v (s32 (size x + 1))) (l ++ [v]).
Proof.
  intros R Hv Hin [Hq (y & z & Hy & Hz & Hvs)]. pose proof (rep_tail_in _ _ _ _ R) as Ht. destruct R as [Eq Ec El En].
  split.
  - by rewrite Hq, lookup_insert_eq.
  - rewrite Hvs. assert (v <> tail x) by (intros ->; done).
    apply (chain_snoc _ _ _ _ _ v (set_next (Some 0) y)); try done; [by apply chain_ne|by rewrite lookup_insert_ne|by rewrite lookup_insert_eq].
  - cbn [head tail]. by rewrite app_comm_cons, last_snoc.
  - cbn [head]. rewrite app_comm_cons. apply NoDup_app. split; [done|]. split; [|apply NoDup_singleton].
    intros w Hw Hwv. apply list_elem_of_singleton in Hwv as ->. done.
Qed.

Lemma produce_spec s q x l v tl vl t :
  running s -> rep s q x l -> q <> 0 -> v <> 0 -> v ∉ head x :: l ->
  lock_of s (tail x) = Some tl -> lock_of s v = Some vl -> tl <> 0 -> vl <> 0 -> tl <> vl ->
  hs s !! tl = Some 0 -> hs s !! vl = Some t -> t <> cur s ->
  exists s', exec (Queue_produce q v) s = Done (inl (s32 (size x + 1))) s' /\ running s' /\ cur s' = cur s /\
    appended s s' q x v /\ hs s' = <[tl := cur s]> (hs s).
Proof.
  intros Hr R Hq Hv Hin Htl Hvl Ht0 Hv0 Hne Hfree Hother Ht. pose proof (rep_tail_in _ _ _ _ R) as Htin.
  destruct (lock_of_inv _ _ _ Htl) as (z & Ez & Hz). destruct (lock_of_inv _ _ _ Hvl) as (y & Ey & Hy).
  assert (Htv : v <> tail x) by (intros ->; done). pose proof (rep_queue _ _ _ _ R) as Eq.
  unfold Queue_produce. rewrite decide_False by tauto. rewrite (exec_then _ _ _ _ _ (upd_eq v _ s y Ey)).
  set (s1 := set_vehicles _ s).
  assert (Ez1 : vehicles s1 !! tail x = Some z) by (cbn; by rewrite lookup_insert_ne).
  rewrite (exec_then _ _ _ _ _ (get_queue_eq q s1 x Eq)), (exec_then _ _ _ _ _ (field_eq lock _ s1 z tl Ez1 Hz)).
  destruct (acquire_free s1 tl Hr Ht0 Hfree) as (k & Ea & Hr2 & Hc2 & Hh2). rewrite (exec_then _ _ _ _ _ Ea).
  set (s2 := set_kern k s1) in *.
  rewrite (exec_then _ _ _ _ _ (get_queue_eq q s2 x Eq)), (exec_then _ _ _ _ _ (upd_eq (tail x) _ s2 z Ez1)).
  rewrite (exec_then _ _ _ _ _ (put_queue_eq q _ _)). set (s3 := set_queues _ _).
  rewrite (exec_then _ _ _ _ _ (get_queue_eq q s3 (set_tail v x) ltac:(cbn; by rewrite lookup_insert_eq))).
  assert (Ey3 : vehicles s3 !! v = Some (set_next (Some 0) y)) by (cbn; by rewrite lookup_insert_ne, lookup_insert_eq).
  cbn [tail set_tail]. rewrite (exec_then _ _ _ _ _ (field_eq lock _ s3 _ vl Ey3 Hy)).
  assert (Ho3 : hs s3 !! vl = Some t) by (change (hs s3) with (holders k); by rewrite Hh2, lookup_insert_ne).
  rewrite (exec_then _ _ _ _ _ (release_other s3 vl t Hv0 Ho3 ltac:(change (cur s3) with (cur s2); by rewrite Hc2))).
  rewrite (exec_then _ _ _ _ _ (get_queue_eq q s3 (set_tail v x) ltac:(cbn; by rewrite lookup_insert_eq))).
  eexists. split; [reflexivity|]. split; [exact Hr2|]. split; [exact Hc2|]. split; [|exact Hh2].
  split; [cbn; apply insert_insert_eq|]. by exists y, z.
Qed.

(** ** Moving vehicles *)

(** The call never returns: it stops the kernel, or sleeps on a lock its own thread holds. *)
Definition stuck {X} (o : outcome st (X + code X)) (l t : Z) : Prop :=
  o = Panic \/ exists c s, o = Done (inr c) s /\ (exists F, kok lbolt F (kern s)) /\ SynchInv.SynchInv.caught t l (kern s).

Lemma stuck_bind {X Y} (c : code X) (f : X -> code Y) s l t : stuck (exec c s) l t -> stuck (exec (c ≫= f) s) l t.
Proof.
  intros [E|(c' & s' & E & H)]; [left; by apply exec_panic|right]. eexists _, s'. split; [by apply exec_block|done].
Qed.

Lemma produce_stuck s q x v y z tl :
  running s -> q <> 0 -> v <> 0 -> queues s !! q = Some x -> vehicles s !! v = Some y -> vehicles s !! tail x = Some z ->
  v <> tail x -> lock z = Some tl -> tl <> 0 -> hs s !! tl = Some (cur s) -> stuck (exec (Queue_produce q v) s) tl (cur s).
Proof.
  intros Hr Hq Hv Eq Ey Ez Hne Hz Htl Hh. unfold Queue_produce. rewrite decide_False by tauto.
  rewrite (exec_then _ _ _ _ _ (upd_eq v _ s y Ey)). set (s1 := set_vehicles _ s).
  assert (Ez1 : vehicles s1 !! tail x = Some z) by (cbn; by rewrite lookup_insert_ne).
  rewrite (exec_then _ _ _ _ _ (get_queue_eq q s1 x Eq)), (exec_then _ _ _ _ _ (field_eq lock _ s1 z tl Ez1 Hz)).
  apply stuck_bind. destruct (acquire_taken s1 tl (cur s) Hr Htl Hh (proj2 Hr)) as [[E _]|(k & E & K & Hk & Hw)]; [by left|right].
  eexists _, _. split; [exact E|]. split; [done|]. split; [exact Hw|]. cbn. by rewrite Hk.
Qed.

(** Two queues, the second of them empty, and the locks of the dummies and of the first vehicle. *)
Record moving (s : st) (pq dq : Z) (x y : Queue) (c : Z) (l : list Z) (hp hd lc : Z) : Prop := {
  mv_from : rep s pq x (c :: l);
  mv_to : rep s dq y [];
  mv_nz : pq <> 0 /\ dq <> 0 /\ pq <> dq /\ hp <> 0 /\ hd <> 0 /\ lc <> 0;
  mv_sep : head y <> head x /\ head y <> c;
  mv_locks : lock_of s (head x) = Some hp /\ lock_of s (head y) = Some hd /\ lock_of s c = Some lc;
  mv_ne : hp <> hd /\ hp <> lc /\ hd <> lc;
}.

Lemma moving_kern s pq dq x y c l hp hd lc k :
  moving s pq dq x y c l hp hd lc -> moving (set_kern k s) pq dq x y c l hp hd lc.
Proof. intros [[] [] ? ? ? ?]. split; try done; by split. Qed.

Lemma consume_loop_stuck fuel s pq dq x y c l hp hd lc :
  running s -> moving s pq dq x y c l hp hd lc -> hs s !! hd = Some (cur s) -> hs s !! lc = Some 0 ->
  stuck (exec (consume_loop (S fuel) pq dq c) s) hd (cur s).
Proof.
  intros Hr [[Eq Ec _ En] [Eq' Ec' El' _] Hnz [Hs1 Hs2] (Hlp & Hld & Hlc) Hne] Hh Hf.
  destruct (lock_of_inv _ _ _ Hlp) as (a & Ea & Ha). destruct (lock_of_inv _ _ _ Hld) as (b & Eb & Hb).
  destruct (lock_of_inv _ _ _ Hlc) as (d & Ed & Hd). injection El' as El'.
  destruct Ec as (a' & Ea' & Hn & Hc & Ec). assert (exists n, next d = Some n) as [n Hnx].
  { destruct l; destruct Ec as (d' & Ed' & Hd'); rewrite Ed in Ed'; injection Ed' as <-; [by exists 0|by destruct Hd'; eexists]. }
  apply NoDup_cons in En as [En _]. apply not_elem_of_cons in En as [En _].
  cbn [consume_loop]. rewrite decide_False by done. rewrite (exec_then _ _ _ _ _ (field_eq lock _ s d lc Ed Hd)).
  destruct (acquire_free s lc Hr ltac:(tauto) Hf) as (k & E & Hr2 & Hc2 & Hh2). rewrite (exec_then _ _ _ _ _ E).
  set (s2 := set_kern k s) in *. rewrite (exec_then _ _ _ _ _ (field_eq next _ s2 d n Ed Hnx)).
  rewrite (exec_then _ _ _ _ _ (get_queue_eq pq s2 x Eq)), (exec_then _ _ _ _ _ (upd_eq (head x) _ s2 a Ea)).
  set (s3 := set_vehicles _ s2). set (m := if decide (tail x = c) then _ else _).
  assert (exists Q, exec m s3 = Done (inl tt) (set_queues Q s3) /\ Q !! dq = Some y) as (Q & Em & EQ).
  { unfold m. case_decide; [exists (<[pq := set_tail (head x) x]> (queues s)); split; [done|by rewrite lookup_insert_ne by tauto]|].
    exists (queues s). split; [by destruct s|done]. }
  rewrite (exec_then _ _ _ _ _ Em). set (s4 := set_queues Q s3).
  assert (Ed4 : vehicles s4 !! c = Some d) by (cbn; by rewrite lookup_insert_ne).
  rewrite (exec_then _ _ _ _ _ (field_eq next _ s4 d n Ed4 Hnx)), (exec_then _ _ _ _ _ (upd_eq c _ s4 d Ed4)).
  set (s5 := set_vehicles _ s4). assert (Ed5 : vehicles s5 !! c = Some (set_next (Some 0) d)) by (cbn; by rewrite lookup_insert_eq).
  rewrite (exec_then _ _ _ _ _ (field_eq lock _ s5 _ lc Ed5 Hd)).
  assert (Hm5 : hs s5 !! lc = Some (cur s5)).
  { change (hs s5) with (holders k). change (cur s5) with (cur s2). by rewrite Hh2, lookup_insert_eq, Hc2. }
  destruct (release_mine s5 lc Hr2 ltac:(tauto) Hm5) as [Er|(k6 & Er & Hr6 & Hc6 & Hh6)]; [left; by apply exec_panic|].
  rewrite (exec_then _ _ _ _ _ Er). apply stuck_bind. set (s6 := set_kern k6 s5) in *.
  replace (cur s) with (cur s6) by (by rewrite Hc6).
  apply (produce_stuck s6 dq y c (set_next (Some 0) d) b hd Hr6); try tauto; [by rewrite <-El'; cbn; rewrite !lookup_insert_ne|congruence|].
  change (hs s6) with (holders k6). rewrite Hh6, Hc6, lookup_insert_ne by (intros ?; by apply Hne).
  change (hs s5) with (holders k). rewrite Hh2, lookup_insert_ne by (intros ?; by apply Hne). rewrite Hh. by rewrite <-Hc2.
Qed.

Lemma head_lock_eq s q x l : queues s !! q = Some x -> lock_of s (head x) = Some l -> exec (head_lock q) s = Done (inl l) s.
Proof.
  intros Eq Hl. destruct (lock_of_inv _ _ _ Hl) as (y & Ey & Hy). unfold head_lock.
  rewrite (exec_then _ _ _ _ _ (get_queue_eq q s x Eq)). by apply (field_eq lock _ s y).
Qed.

Lemma consume_stuck fuel s pq dq x y c l hp hd lc :
  running s -> moving s pq dq x y c l hp hd lc -> size x <> 0 ->
  hs s !! hp = Some 0 -> hs s !! hd = Some 0 -> hs s !! lc = Some 0 ->
  stuck (exec (Queue_consume (S fuel) pq dq) s) hd (cur s).
Proof.
  intros Hr M Hsz Hp Hd Hc. pose proof (mv_nz _ _ _ _ _ _ _ _ _ _ M) as Hnz. pose proof (mv_ne _ _ _ _ _ _ _ _ _ _ M) as Hne.
  pose proof (rep_queue _ _ _ _ (mv_from _ _ _ _ _ _ _ _ _ _ M)) as Eq. destruct (mv_locks _ _ _ _ _ _ _ _ _ _ M) as (Lp & Ld & _).
  unfold Queue_consume. rewrite decide_False by tauto. rewrite (exec_then _ _ _ _ _ (get_queue_eq pq s x Eq)), decide_False by done.
  rewrite (exec_then _ _ _ _ _ (head_lock_eq s pq x hp Eq Lp)).
  destruct (acquire_free s hp Hr ltac:(tauto) Hp) as (k & E & Hr1 & Hc1 & Hh1). rewrite (exec_then _ _ _ _ _ E).
  set (s1 := set_kern k s) in *. rewrite (exec_then _ _ _ _ _ (head_lock_eq s1 dq y hd (rep_queue _ _ _ _ (mv_to _ _ _ _ _ _ _ _ _ _ M)) Ld)).
  assert (Hd1 : hs s1 !! hd = Some 0) by (change (hs s1) with (holders k); rewrite Hh1, lookup_insert_ne; tauto).
  destruct (acquire_free s1 hd Hr1 ltac:(tauto) Hd1) as (k2 & E2 & Hr2 & Hc2 & Hh2). rewrite (exec_then _ _ _ _ _ E2).
  set (s2 := set_kern k2 s1) in *. rewrite (exec_then _ _ _ _ _ (get_queue_eq pq s2 x Eq)).
  destruct (rep_chain _ _ _ _ (mv_from _ _ _ _ _ _ _ _ _ _ M)) as (a & Ea & Hn & _).
  rewrite (exec_then _ _ _ _ _ (field_eq next _ s2 a c Ea Hn)). apply stuck_bind.
  replace (cur s) with (cur s2) by congruence.
  apply (consume_loop_stuck fuel s2 pq dq x y c l hp hd lc Hr2); [by apply (moving_kern s)|..];
    change (hs s2) with (holders k2); rewrite Hh2.
  - rewrite lookup_insert_eq. by rewrite Hc2.
  - rewrite lookup_insert_ne by tauto. change (hs s1) with (holders k). rewrite Hh1, lookup_insert_ne; tauto.
Qed.

(** ** Sleeping with interrupts on *)

Abbreviation spl s := (Thread.curspl (Synch.ts (kern s))).

Lemma wakeup_panics s a : spl s = 0 -> exec (thread_wakeup a) s = Panic.
Proof.
  intros E. cbn. unfold mbind, M_bind, kcall, Synch.kt, zoom, Thread.thread_wakeup, Thread.assert_spl, gets, kassert. cbn.
  unfold mbind, M_bind. cbn. by rewrite E.
Qed.

Lemma running_thread s : running s -> exists th, Thread.threads (Synch.ts (kern s)) !! cur s = Some th.
Proof.
  intros [(F & R & S & Zs & K) Hc]. pose proof (SynchInv.SynchInv.ki_thr _ _ _ _ _ _ _ K) as I.
  apply SynchInv.SynchInv.tinvF_part in I. apply (ThreadInv.ThreadInv.pt_dom _ _ _ _ I).
  unfold ThreadInv.ThreadInv.cur_list. rewrite decide_False by done. apply elem_of_app. left. by apply list_elem_of_singleton.
Qed.

Lemma sleep_panics s a : running s -> spl s = 0 -> exec (thread_sleep a) s = Panic.
Proof.
  intros Hr E. destruct (running_thread s Hr) as [th Eth]. destruct Hr as [(F & R & S & Zs & K) Hc].
  pose proof (SynchInv.SynchInv.ki_cur _ _ _ _ _ _ _ K Hc) as Hi. cbn.
  assert (Ep : Thread.thread_sleep a (Synch.ts (kern s)) = Panic).
  { unfold Thread.thread_sleep, Thread.mi_switch_out, Thread.assert_spl, Thread.upd_thread, Thread.get_thread. munfold.
    rewrite bool_decide_eq_true_2 by done. unfold id. unfold cur in Eth. rewrite Eth. cbn. by rewrite E. }
  unfold mbind, M_bind, kcall, zoom. cbn [lget lset kernL]. by rewrite (SynchInv.SynchInv.kt_Panic _ _ Ep).
Qed.

(** ** Creating a vehicle *)

(** The same thread runs, at the same interrupt level. *)
Definition calm (k k' : kernel) : Prop :=
  Thread.curspl (Synch.ts k') = Thread.curspl (Synch.ts k) /\ Thread.curthread (Synch.ts k') = Thread.curthread (Synch.ts k).

Lemma calm_trans k1 k2 k3 : calm k1 k2 -> calm k2 k3 -> calm k1 k3.
Proof. intros [] []. split; congruence. Qed.

Lemma heap_calm {X} (m : M Kheap.kheap X) (k k' : kernel) x : Synch.kt (zoom Thread.theapL m) k = Done x k' -> calm k k'.
Proof.
  unfold Synch.kt, zoom. cbn. destruct (m _) as [y h|? ?| | |]; [|done..]. intros [= _ <-]. done.
Qed.

Lemma lock_create_calm len (k k' : kernel) r : Synch.lock_create len k = Done r k' -> calm k k'.
Proof.
  unfold Synch.lock_create, Synch.kalloc, Synch.kdrop, Synch.put_lock, Thread.kstrdup. munfold.
  destruct (Synch.kt _ k) as [p k1|? ?| | |] eqn:E1; [|done..]. apply heap_calm in E1. case_decide; [by intros [= _ <-]|].
  destruct (Synch.kt _ k1) as [nm k2|? ?| | |] eqn:E2; [|done..]. apply heap_calm in E2.
  pose proof (calm_trans _ _ _ E1 E2) as E12. case_decide; [|by intros [= _ <-]].
  destruct (Synch.kt _ k2) as [[] k3|? ?| | |] eqn:E3; [|done..]. apply heap_calm in E3.
  intros [= _ <-]. by apply (calm_trans _ k2).
Qed.

(** A step of the kernel that keeps the thread, its level and all but the locks. *)
Record step (s s' : st) (h : gmap Z Z) : Prop := {
  sp_kern : exists k, s' = set_kern k s;
  sp_run : running s';
  sp_calm : calm (kern s) (kern s');
  sp_holders : hs s' = h;
}.

Lemma kmalloc_step s n :
  running s -> 0 <= n <= Kmalloc.KMALLOC_MAX -> exists p s', exec (kmalloc n) s = Done (inl p) s' /\ step s s' (hs s).
Proof.
  intros [(F & R & S & Zs & K) Hc] Hn.
  assert (exists p k F', Synch.kalloc n (kern s) = Done p k /\ kok lbolt F' k /\ holders k = hs s) as (p & k & F' & E & Hk & Hh).
  { destruct (SynchInv.SynchInv.kalloc_spec lbolt F (kern s) R S Zs n K Hn) as [(k & E & K' & _ & Hl)|(p & k & E & _ & _ & K' & _ & Hl)];
      (eexists _, k, _; split; [exact E|]; split; [by exists R, S, Zs|]; unfold holders; by rewrite Hl). }
  exists p, (set_kern k s). pose proof (heap_calm _ _ _ _ E) as Q.
  split; [apply exec_lift; by apply kcall_eq|]. split; [by exists k| |done|done].
  split; [by exists F'|]. destruct Q as [_ Q]. unfold cur in *. cbn. by rewrite Q.
Qed.

Lemma lock_create_step s len :
  running s -> 0 <= len < 2 ^ 30 ->
  exists l s', exec (lock_create len) s = Done (inl l) s' /\
    ((l = 0 /\ exists h, step s s' h /\ forall x, x <> 0 -> h !! x = hs s !! x) \/ (l <> 0 /\ hs s !! l = None /\ step s s' (<[l := 0]> (hs s)))).
Proof.
  intros [(F & R & S & Zs & K) Hc] Hn.
  destruct (SynchInv.SynchInv.lock_create_spec lbolt F (kern s) R S Zs len K Hn) as (r & k & F' & E & Hk & _ & Hr).
  pose proof (lock_create_calm _ _ _ _ E) as Q. exists (default 0 r), (set_kern k s).
  split; [apply exec_lift; unfold mbind, M_bind; by rewrite (kcall_eq _ _ _ _ E)|].
  assert (St : step s (set_kern k s) (holders k)).
  { split; [by exists k| |done|done]. split; [by exists F'|]. destruct Q as [_ Q]. unfold cur in *. cbn. by rewrite Q. }
  destruct (decide (default 0 r = 0)) as [D|D]; [left; split; [done|]; exists (holders k)|right]; (split; [done|]).
  { intros x Hx. destruct r as [l|]; [|by rewrite Hr]. destruct Hr as [_ ->]. cbn in D. by rewrite D, lookup_insert_ne. }
  destruct r as [l|]; [|done]. destruct Hr as [Hf Hh]. split; [done|]. by rewrite Hh in St.
Qed.

Lemma running_vehicles vs s : running s -> running (set_vehicles vs s).
Proof. done. Qed.

Lemma digits_bound fuel n : 1 <= digits fuel n <= 1 + Z.of_nat fuel.
Proof. revert n. induction fuel as [|fuel IH]; intros n; cbn [digits]; [lia|]. case_decide; [lia|]. specialize (IH (n / 10)). lia. Qed.

Lemma name_length n : 22 <= lock_name_length n <= 32.
Proof. unfold lock_name_length. pose proof (digits_bound 10 n). lia. Qed.

Lemma step_state s s' h : step s s' h -> s' = set_kern (kern s') s.
Proof. by intros [[k ->] _ _ _]. Qed.

(** A vehicle that has been made: its fields are set, and its two locks are new and free. *)
Record made (s s' : st) (v n : Z) (t : VehicleType) (e : Direction) (d : TurnDirection) (l a : Z) : Prop := {
  md_nz : v <> 0;
  md_vehicles : vehicles s' = <[v := mkVehicle (Some n) (Some t) (Some e) (Some d) (Some l) (Some a) (Some 0)]> (vehicles s);
  md_queues : queues s' = queues s;
  md_run : running s';
  md_calm : calm (kern s) (kern s');
  md_locks : l <> 0 /\ a <> 0 /\ l <> a /\ hs s !! l = None /\ hs s !! a = None;
  md_holders : hs s' = <[a := 0]> (<[l := 0]> (hs s));
}.

Lemma exec_undef {X Y} (c : code X) (f : X -> code Y) s : exec c s = Undef -> exec (c ≫= f) s = Undef.
Proof. intros E. by rewrite exec_bind, E. Qed.

Lemma field_undef {X} (f : Vehicle -> option X) v s x : vehicles s !! v = Some x -> f x = None -> exec (field f v) s = Undef.
Proof. intros E F. cbn. unfold get_vehicle. munfold. unfold id. by rewrite E, F. Qed.

(** [Vehicle_free] of a vehicle whose locks are not both there. *)
Lemma free_unset s v x : v <> 0 -> vehicles s !! v = Some x -> (lock x = None \/ lock x = Some 0 /\ sleepAddr x = None) ->
  exec (Vehicle_free v) s = Undef.
Proof.
  intros Hv E [Hl|[Hl Ha]]; unfold Vehicle_free; rewrite decide_False by done.
  - apply exec_undef. by apply (field_undef lock v s x).
  - rewrite (exec_then _ _ _ _ _ (field_eq lock v s x 0 E Hl)), decide_False by (intros H; by apply H).
    rewrite (exec_then _ _ s tt s) by done. apply exec_undef. by apply (field_undef sleepAddr v s x).
Qed.

Lemma free_panics s v x l : running s -> v <> 0 -> vehicles s !! v = Some x -> lock x = Some l -> l <> 0 -> hs s !! l = Some 0 ->
  exec (Vehicle_free v) s = Panic.
Proof.
  intros [Hk Hc] Hv E Hl Hl0 Hh. unfold Vehicle_free. rewrite decide_False by done.
  rewrite (exec_then _ _ _ _ _ (field_eq lock v s x l E Hl)), decide_True by done.
  apply exec_panic, exec_panic. cbn. unfold mbind, M_bind, kcall, zoom. cbn [lget lset kernL].
  pose proof (FsKernel.FsKernel.destroy_idle lbolt (kern s) l) as Hd. cbn in Hd.
  rewrite Hd; [done|by split|done].
Qed.

(** The locks of the vehicle [v], whose other fields are set. *)
Lemma locks_spec s v n t e d :
  running s -> v <> 0 -> vehicles s !! v = Some (mkVehicle (Some n) (Some t) (Some e) (Some d) None None None) ->
  exec (Vehicle_locks v n) s = Undef \/ exec (Vehicle_locks v n) s = Panic \/
  exists l a s', exec (Vehicle_locks v n) s = Done (inl v) s' /\ made s s' v n t e d l a.
Proof.
  intros Hr Dv V3. pose proof (name_length n) as Hn. unfold Vehicle_locks.
  destruct (lock_create_step s (lock_name_length n) Hr ltac:(lia)) as (l & s4 & E4 & H4).
  assert (exists h, step s s4 h) as [h4 S4] by (destruct H4 as [(_ & ? & ? & _)|(_ & _ & ?)]; by eexists).
  assert (V4 : vehicles s4 !! v = Some (mkVehicle (Some n) (Some t) (Some e) (Some d) None None None)) by (by rewrite (step_state _ _ _ S4)).
  rewrite (exec_then _ _ _ _ _ E4), (exec_then _ _ _ _ _ (upd_eq v _ s4 _ V4)). set (s5 := set_vehicles _ s4).
  case_decide as Dl; [left; apply exec_undef; eapply (free_unset s5 v _ Dv); [cbn; by rewrite lookup_insert_eq|right; by subst]|].
  rewrite (exec_then _ _ _ _ _ (upd_eq v _ s5 (mkVehicle (Some n) (Some t) (Some e) (Some d) (Some l) None None) ltac:(cbn; by rewrite lookup_insert_eq))).
  set (s6 := set_vehicles _ s5). destruct (lock_create_step s6 9 (sp_run _ _ _ S4) ltac:(lia)) as (a & s7 & E7 & H7).
  assert (exists h, step s6 s7 h) as [h7 S7] by (destruct H7 as [(_ & ? & ? & _)|(_ & _ & ?)]; by eexists).
  assert (V7 : vehicles s7 !! v = Some (mkVehicle (Some n) (Some t) (Some e) (Some d) (Some l) None (Some 0)))
    by (rewrite (step_state _ _ _ S7); cbn; by rewrite lookup_insert_eq).
  rewrite (exec_then _ _ _ _ _ E7), (exec_then _ _ _ _ _ (upd_eq v _ s7 _ V7)). right. set (s8 := set_vehicles _ s7).
  destruct H4 as [[? _]|(_ & F4 & S4')]; [done|]. pose proof (sp_holders _ _ _ S4') as Hh4.
  destruct H7 as [(-> & h & Sh & Hx)|(Da & F7 & S7')].
  - left. rewrite decide_True by done. apply exec_panic. eapply (free_panics s8 v _ l (sp_run _ _ _ S7) Dv);
      [cbn; by rewrite lookup_insert_eq|done|done|]. change (hs s8) with (hs s7). rewrite (sp_holders _ _ _ Sh), Hx by done.
    change (hs s6) with (hs s4). by rewrite Hh4, lookup_insert_eq.
  - right. rewrite decide_False by done. exists l, a, s8. split; [done|].
    change (hs s6) with (hs s4) in F7. rewrite Hh4 in F7. apply lookup_insert_None in F7 as [F7 Hla].
    split; [done| | |exact (sp_run _ _ _ S7)|exact (calm_trans _ _ _ (sp_calm _ _ _ S4) (sp_calm _ _ _ S7))|done|].
    + cbn. rewrite (step_state _ _ _ S7). cbn. rewrite (step_state _ _ _ S4). cbn. by rewrite !insert_insert_eq.
    + cbn. rewrite (step_state _ _ _ S7). cbn. by rewrite (step_state _ _ _ S4).
    + change (hs s8) with (hs s7). rewrite (sp_holders _ _ _ S7'). change (hs s6) with (hs s4). by rewrite Hh4.
Qed.

(** Without memory for the vehicle there is none; when memory ends later, what was not yet
    assigned is read, or a free lock is destroyed. *)
Lemma create_spec s n t e d :
  running s ->
  (exists s', exec (Vehicle_create n t e d) s = Done (inl 0) s' /\ step s s' (hs s)) \/
  exec (Vehicle_create n t e d) s = Undef \/ exec (Vehicle_create n t e d) s = Panic \/
  exists v l a s', exec (Vehicle_create n t e d) s = Done (inl v) s' /\ made s s' v n t e d l a.
Proof.
  intros Hr. unfold Vehicle_create.
  destruct (kmalloc_step s sizeof_Vehicle Hr ltac:(unfold sizeof_Vehicle, Kmalloc.KMALLOC_MAX; lia)) as (v & s1 & E1 & S1).
  rewrite (exec_then _ _ _ _ _ E1). case_decide as Dv; [left; exists s1; by subst|right].
  rewrite (exec_then (lift _) _ s1 tt (set_vehicles (<[v := mkVehicle (Some n) (Some t) (Some e) (Some d) None None None]> (vehicles s1)) s1)) by done.
  set (s2 := set_vehicles _ s1). pose proof (name_length n) as Hn. unfold createVehicleLockNameString.
  destruct (kmalloc_step s2 (lock_name_length n + 1) (sp_run _ _ _ S1) ltac:(unfold Kmalloc.KMALLOC_MAX; lia)) as (nm & s3 & E3 & S3).
  rewrite (exec_then _ _ s2 nm s3) by (rewrite (exec_then _ _ _ _ _ E3); done).
  assert (V3 : vehicles s3 !! v = Some (mkVehicle (Some n) (Some t) (Some e) (Some d) None None None))
    by (rewrite (step_state _ _ _ S3); cbn; by rewrite lookup_insert_eq).
  case_decide as Dn; [left; apply exec_undef; by apply (free_unset s3 v _ Dv V3); left|].
  destruct (locks_spec s3 v n t e d (sp_run _ _ _ S3) Dv V3) as [E|[E|(l & a & s' & E & M)]]; [by left|by right; left|right; right].
  exists v, l, a, s'. split; [exact E|]. destruct M as [_ Mv Mq Mr Mc Ml Mh].
  assert (Hh : hs s3 = hs s) by (rewrite (sp_holders _ _ _ S3); exact (sp_holders _ _ _ S1)).
  split; [done| | |done| |by rewrite <-Hh|by rewrite <-Hh].
  - rewrite Mv, (step_state _ _ _ S3). cbn. rewrite insert_insert_eq. by rewrite (step_state _ _ _ S1).
  - rewrite Mq, (step_state _ _ _ S3). cbn. by rewrite (step_state _ _ _ S1).
  - eapply calm_trans; [exact (sp_calm _ _ _ S1)|]. eapply calm_trans; [exact (sp_calm _ _ _ S3)|exact Mc].
Qed.

Lemma create_made s n t e d v s' :
  running s -> exec (Vehicle_create n t e d) s = Done (inl v) s' -> v <> 0 -> exists l a, made s s' v n t e d l a.
Proof.
  intros Hr E Hv. destruct (create_spec s n t e d Hr) as [(s1 & E' & _)|[E'|[E'|(v' & l & a & s1 & E' & M)]]];
    rewrite E in E'; try congruence. injection E' as <- <-. by exists l, a.
Qed.

Lemma say_eq e v s x n t a d :
  vehicles s !! v = Some x -> vehiclenumber x = Some n -> vehicle_type x = Some t -> entrance x = Some a -> turndirection x = Some d ->
  exec (say e v) s = Done (inl tt) (set_console (console s ++ [(e, (n, t, a, d))]) s).
Proof.
  intros E Hn Ht Ha Hd. unfold say. rewrite (exec_then _ _ _ _ _ (field_eq vehiclenumber v s x n E Hn)).
  rewrite (exec_then _ _ _ _ _ (field_eq vehicle_type v s x t E Ht)), (exec_then _ _ _ _ _ (field_eq entrance v s x a E Ha)).
  by rewrite (exec_then _ _ _ _ _ (field_eq turndirection v s x d E Hd)).
Qed.

(** ** The search of the scheduler *)

Definition seg_lock (s : st) (x : segment) : Z :=
  match x with AB => isegAB_lock s | BC => isegBC_lock s | CA => isegCA_lock s end.

(** The running thread holds all the segments. *)
Definition holds (s : st) (l : list segment) : bool := forallb (fun x => bool_decide (hs s !! seg_lock s x = Some (cur s))) l.

(** The locks of the segments are there. *)
Definition segs_ok (s : st) : Prop := forall x, seg_lock s x <> 0 /\ is_Some (hs s !! seg_lock s x).

Lemma do_i_hold_spec s l t : l <> 0 -> hs s !! l = Some t ->
  exec (lock_do_i_hold l) s = Done (inl (if decide (t = cur s) then 1 else 0)) s.
Proof.
  intros Hl Hh. destruct (holders_inv _ _ _ Hh) as (y & Ey & Hy). apply exec_lift.
  rewrite (kcall_eq _ _ _ _ (SynchInv.SynchInv.do_i_hold_eq l (kern s) y Hl Ey)), Hy. by destruct s.
Qed.

Lemma hold_all_spec s l : segs_ok s -> exec (hold_all l) s = Done (inl (holds s l)) s.
Proof.
  intros Hs. induction l as [|x l IH]; [done|]. cbn [hold_all]. unfold iseg_lock, global.
  rewrite (exec_then (lift _) _ s (seg_lock s x) s) by (by destruct x). destruct (Hs x) as [Hx [t Ht]].
  rewrite (exec_then _ _ _ _ _ (do_i_hold_spec s _ t Hx Ht)). unfold holds. cbn [forallb]. destruct (decide (t = cur s)) as [D|D].
  - rewrite bool_decide_eq_true_2 by congruence. by rewrite decide_True.
  - rewrite bool_decide_eq_false_2 by congruence. by rewrite decide_False by (intros H; by apply H).
Qed.

(** Vehicles that cannot be let in, with their locks: free, and not those of a segment. *)
Record waiting (s : st) (v lk : Z) : Prop := {
  wt_lock : lock_of s v = Some lk;
  wt_nz : lk <> 0;
  wt_free : hs s !! lk = Some 0;
  wt_seg : forall x, seg_lock s x <> lk;
  wt_way : exists e d, (vehicles s !! v ≫= entrance) = Some e /\ (vehicles s !! v ≫= turndirection) = Some d /\
    holds s (segments e d) = false;
}.

(** All the locks of the list taken by [t]. *)
Definition take_locks (t : Z) (ls : list Z) (h : gmap Z Z) : gmap Z Z := foldl (fun h l => <[l := t]> h) h ls.

Lemma holds_kern s k lk l :
  (forall x, seg_lock s x <> lk) -> holders k = <[lk := cur s]> (hs s) -> cur (set_kern k s) = cur s ->
  holds (set_kern k s) l = holds s l.
Proof.
  intros Hx Hh Hc. unfold holds. induction l as [|x l IH]; [done|]. cbn [forallb]. rewrite IH, Hc. f_equal.
  change (hs (set_kern k s)) with (holders k). change (seg_lock (set_kern k s) x) with (seg_lock s x).
  by rewrite Hh, lookup_insert_ne.
Qed.

Lemma segs_kern s k lk :
  segs_ok s -> (forall x, seg_lock s x <> lk) -> holders k = <[lk := cur s]> (hs s) -> segs_ok (set_kern k s).
Proof.
  intros Hs Hx Hh x. destruct (Hs x) as [? ?]. split; [done|]. change (hs (set_kern k s)) with (holders k).
  change (seg_lock (set_kern k s) x) with (seg_lock s x). by rewrite Hh, lookup_insert_ne.
Qed.

Lemma waiting_kern s k lk v l :
  waiting s v l -> l <> lk -> (forall x, seg_lock s x <> lk) -> holders k = <[lk := cur s]> (hs s) -> cur (set_kern k s) = cur s ->
  waiting (set_kern k s) v l.
Proof.
  intros [] Hl Hx Hh Hc. split; try done; [cbn; by rewrite Hh, lookup_insert_ne|].
  destruct wt_way0 as (e & d & ? & ? & ?). exists e, d. split; [done|]. split; [done|]. by rewrite (holds_kern s k lk).
Qed.

Lemma waiting_all s k lk vs ls :
  Forall2 (waiting s) vs ls -> lk ∉ ls -> (forall x, seg_lock s x <> lk) -> holders k = <[lk := cur s]> (hs s) ->
  cur (set_kern k s) = cur s -> Forall2 (waiting (set_kern k s)) vs ls.
Proof.
  intros Hw Hni Hx Hh Hc. induction Hw as [|w l vs ls Hl Hw IH]; [constructor|]. apply not_elem_of_cons in Hni as [? ?].
  constructor; [by apply (waiting_kern s k lk)|by apply IH].
Qed.

Lemma take_locks_ne t ls h l : l ∉ ls -> take_locks t ls h !! l = h !! l.
Proof.
  revert h. induction ls as [|l' ls IH]; intros h Hl; [done|]. apply not_elem_of_cons in Hl as [Hl Hls].
  unfold take_locks in *. cbn [foldl]. by rewrite IH, lookup_insert_ne.
Qed.

Lemma take_locks_in t ls h l : l ∈ ls -> take_locks t ls h !! l = Some t.
Proof.
  revert h. induction ls as [|l' ls IH]; intros h Hl; [by apply elem_of_nil in Hl|]. change (take_locks t ls (<[l' := t]> h) !! l = Some t).
  destruct (decide (l ∈ ls)) as [Hi|Hi]; [by apply IH|]. rewrite take_locks_ne by done.
  apply elem_of_cons in Hl as [->|?]; [by rewrite lookup_insert_eq|done].
Qed.

Lemma search_loop_spec fuel s q p vs ls x :
  running s -> segs_ok s -> vehicles s !! p = Some x -> chain (vehicles s) p vs -> Forall2 (waiting s) vs ls -> NoDup ls ->
  (length vs <= fuel)%nat ->
  exists k c, next x = Some c /\ exec (search_loop fuel q c) s = Done (inl tt) (set_kern k s) /\ running (set_kern k s) /\
    cur (set_kern k s) = cur s /\ holders k = take_locks (cur s) ls (hs s).
Proof.
  revert s p vs ls x. induction fuel as [|fuel IH]; intros s p vs ls x Hr Hs Ex Hc Hw Hn Hlen.
  all: destruct Hw as [|v lk vs ls Hw Hws]; destruct Hc as (x' & Ex' & Hc); rewrite Ex in Ex'; injection Ex' as <-.
  1,3: exists (kern s), 0; split; [done|]; split; [by destruct s|done].
  { cbn in Hlen. lia. }
  destruct Hc as (Hnx & Hv & Hc). apply NoDup_cons in Hn as [Hni Hn].
  destruct (wt_way _ _ _ Hw) as (e & d & He & Hd & Hh). destruct (lock_of_inv _ _ _ (wt_lock _ _ _ Hw)) as (y & Ey & Hy).
  rewrite Ey in He, Hd. destruct (acquire_free s lk Hr (wt_nz _ _ _ Hw) (wt_free _ _ _ Hw)) as (k & E & Hr1 & Hc1 & Hh1).
  set (s1 := set_kern k s) in *. pose proof (wt_seg _ _ _ Hw) as Hseg.
  pose proof (waiting_all s k lk vs ls Hws Hni Hseg Hh1 Hc1) as Hws1.
  destruct (IH s1 v vs ls y Hr1 (segs_kern s k lk Hs Hseg Hh1) Ey Hc Hws1 Hn ltac:(cbn in Hlen; lia)) as (k' & c & Hnc & E' & Hr' & Hc' & Hh').
  exists k', v. split; [done|]. split; [|split; [done|]; split; [by rewrite <-Hc1|rewrite Hh', Hc1; change (hs s1) with (holders k); by rewrite Hh1]].
  cbn [search_loop]. rewrite decide_False by done. rewrite (exec_then _ _ _ _ _ (field_eq lock v s y lk Ey Hy)), (exec_then _ _ _ _ _ E).
  rewrite (exec_then _ _ _ _ _ (field_eq entrance v s1 y e Ey He)), (exec_then _ _ _ _ _ (field_eq turndirection v s1 y d Ey Hd)).
  rewrite (exec_then _ _ _ _ _ (hold_all_spec s1 _ (segs_kern s k lk Hs Hseg Hh1))), (holds_kern s k lk) by done.
  rewrite Hh. by rewrite (exec_then _ _ _ _ _ (field_eq next v s1 y c Ey Hnc)).
Qed.

(** ** A new queue *)

Lemma exec_void {X} (c : code X) s (r : Z) s' : exec (c ;; mret 0) s = Done (inl r) s' -> r = 0.
Proof. rewrite exec_bind. destruct (exec c s) as [[x|k] s1|? ?| | |]; try done. by intros [= <- _]. Qed.

Lemma Queue_init_spec s q s' :
  running s -> exec Queue_init s = Done (inl q) s' -> q <> 0 ->
  exists d l, rep s' q (mkQueue d d 0) [] /\ lock_of s' d = Some l /\ l <> 0 /\ running s' /\ calm (kern s) (kern s') /\
    hs s !! l = None /\ hs s' = <[l := 0]> (hs s) /\
    vehicles s' = <[d := mkVehicle None None None None (Some l) None (Some 0)]> (vehicles s) /\
    queues s' = <[q := mkQueue d d 0]> (queues s).
Proof.
  intros Hr. unfold Queue_init.
  destruct (kmalloc_step s sizeof_Queue Hr ltac:(unfold sizeof_Queue, Kmalloc.KMALLOC_MAX; lia)) as (p & s1 & E1 & S1).
  rewrite (exec_then _ _ _ _ _ E1). case_decide as Dq; [intros [= <- _]; by subst|].
  destruct (kmalloc_step s1 sizeof_Vehicle (sp_run _ _ _ S1) ltac:(unfold sizeof_Vehicle, Kmalloc.KMALLOC_MAX; lia)) as (d & s2 & E2 & S2).
  rewrite (exec_then _ _ _ _ _ E2). case_decide as Dd; [intros E%exec_void; by subst|].
  rewrite (exec_then (lift _) _ s2 tt (set_vehicles (<[d := mkVehicle None None None None None None (Some 0)]> (vehicles s2)) s2)) by done.
  set (s3 := set_vehicles _ s2). destruct (lock_create_step s3 10 (sp_run _ _ _ S2) ltac:(lia)) as (l & s4 & E4 & H4).
  assert (exists h, step s3 s4 h) as [h4 S4] by (destruct H4 as [(_ & ? & ? & _)|(_ & _ & ?)]; by eexists).
  rewrite (exec_then _ _ _ _ _ E4), (exec_then _ _ _ _ _ (upd_eq d _ s4 (mkVehicle None None None None None None (Some 0))
    ltac:(rewrite (step_state _ _ _ S4); cbn; by rewrite lookup_insert_eq))).
  case_decide as Dl.
  { rewrite exec_bind. destruct (exec (free_vehicle d) _) as [[[]|k] s5|? ?| | |]; try done. intros E%exec_void. by subst. }
  rewrite (exec_then _ _ _ _ _ (put_queue_eq p _ _)). intros [= <- <-] _. destruct H4 as [[? _]|(_ & F4 & S4')]; [done|].
  assert (Hh : hs s3 = hs s) by (change (hs s3) with (hs s2); rewrite (sp_holders _ _ _ S2); exact (sp_holders _ _ _ S1)).
  assert (Hv : <[d := set_lock (Some l) (mkVehicle None None None None None None (Some 0))]> (vehicles s4) =
    <[d := mkVehicle None None None None (Some l) None (Some 0)]> (vehicles s)).
  { rewrite (step_state _ _ _ S4). cbn. rewrite insert_insert_eq, (step_state _ _ _ S2). cbn. by rewrite (step_state _ _ _ S1). }
  assert (Hq : queues s4 = queues s) by (by rewrite (step_state _ _ _ S4); cbn; rewrite (step_state _ _ _ S2); cbn; rewrite (step_state _ _ _ S1)).
  exists d, l. cbn. unfold lock_of. cbn. rewrite Hv, Hq, lookup_insert_eq.
  split; [split; cbn; rewrite ?Hv, ?Hq, ?lookup_insert_eq; [done| |done|apply NoDup_singleton]; by eexists|].
  split; [done|]. split; [done|]. split; [exact (sp_run _ _ _ S4)|].
  split; [eapply calm_trans; [exact (sp_calm _ _ _ S1)|]; eapply calm_trans; [exact (sp_calm _ _ _ S2)|exact (sp_calm _ _ _ S4)]|].
  rewrite Hh in F4. split; [done|]. split; [|done]. change (hs s4 = <[l := 0]> (hs s)). by rewrite (sp_holders _ _ _ S4'), Hh.
Qed.

(** ** Taking a vehicle out *)

(** The vehicle that is returned becomes the dummy, and its link is cleared: whatever came after it
    is no longer in the queue, though it is still counted. *)
Lemma dequeue_loses s q x v w l hl vl :
  running s -> rep s q x (v :: w :: l) -> q <> 0 -> size x <> 0 ->
  lock_of s (head x) = Some hl -> lock_of s v = Some vl -> hl <> 0 -> vl <> 0 -> hl <> vl ->
  hs s !! hl = Some 0 -> hs s !! vl = Some 0 ->
  exec (Queue_dequeue q) s = Panic \/
  exists s', exec (Queue_dequeue q) s = Done (inl v) s' /\ queues s' !! q = Some (mkQueue v (tail x) (s32 (size x - 1))) /\
    chain (vehicles s') v [].
Proof.
  intros Hr [Eq (a & Ea & Hna & Hv & b & Eb & Hnb & _) Et En] Hq Hsz Hhl Hvl Hh0 Hv0 Hne Hfh Hfv.
  destruct (lock_of_inv _ _ _ Hhl) as (a' & Ea' & Hla). rewrite Ea in Ea'. injection Ea' as <-.
  destruct (lock_of_inv _ _ _ Hvl) as (b' & Eb' & Hlb). rewrite Eb in Eb'. injection Eb' as <-.
  apply NoDup_cons in En as [Hhv En]. apply not_elem_of_cons in Hhv as [Hhv _]. apply NoDup_cons in En as [Hvn _].
  assert (Htv : tail x <> v).
  { intros E. rewrite E, !last_cons_cons in Et. apply Hvn. apply last_Some in Et as [l' ->]. apply elem_of_app. right. by apply list_elem_of_singleton. }
  unfold Queue_dequeue. rewrite decide_False by done. rewrite (exec_then _ _ _ _ _ (get_queue_eq q s x Eq)), decide_False by done.
  rewrite (exec_then _ _ _ _ _ (field_eq lock (head x) s a hl Ea Hla)).
  destruct (acquire_free s hl Hr Hh0 Hfh) as (k1 & E1 & Hr1 & Hc1 & Hh1). rewrite (exec_then _ _ _ _ _ E1). set (s1 := set_kern k1 s) in *.
  rewrite (exec_then _ _ _ _ _ (get_queue_eq q s1 x Eq)), (exec_then _ _ _ _ _ (field_eq next (head x) s1 a v Ea Hna)), decide_False by done.
  rewrite (exec_then _ _ _ _ _ (field_eq lock v s1 b vl Eb Hlb)).
  assert (Hfv1 : hs s1 !! vl = Some 0) by (change (hs s1) with (holders k1); by rewrite Hh1, lookup_insert_ne).
  destruct (acquire_free s1 vl Hr1 Hv0 Hfv1) as (k2 & E2 & Hr2 & Hc2 & Hh2). rewrite (exec_then _ _ _ _ _ E2). set (s2 := set_kern k2 s1) in *.
  rewrite (exec_then _ _ _ _ _ (get_queue_eq q s2 x Eq)), (exec_then _ _ _ _ _ (put_queue_eq q _ _)). set (s3 := set_queues _ s2).
  rewrite (exec_then _ _ _ _ _ (field_eq next v s3 b w Eb Hnb)), (exec_then _ _ _ _ _ (upd_eq (head x) _ s3 a Ea)). set (s4 := set_vehicles _ s3).
  assert (Eq4 : queues s4 !! q = Some (set_head v x)) by (cbn; by rewrite lookup_insert_eq).
  rewrite (exec_then _ _ _ _ _ (get_queue_eq q s4 _ Eq4)), decide_False by done. rewrite (exec_then (mret tt) _ s4 tt s4) by done.
  rewrite (exec_then _ _ _ _ _ (get_queue_eq q s4 _ Eq4)), (exec_then _ _ _ _ _ (put_queue_eq q _ _)). set (s5 := set_queues _ s4).
  rewrite (exec_then _ _ _ _ _ (field_eq lock (head x) s5 (set_next (Some w) a) hl ltac:(cbn; by rewrite lookup_insert_eq) Hla)).
  assert (Hm : hs s5 !! hl = Some (cur s5)).
  { change (hs s5) with (holders k2). change (cur s5) with (cur s2). rewrite Hh2, lookup_insert_ne by done. rewrite Hc2, Hc1.
    change (hs s1) with (holders k1). by rewrite Hh1, lookup_insert_eq. }
  destruct (release_mine s5 hl Hr2 Hh0 Hm) as [Er|(k6 & Er & Hr6 & Hc6 & Hh6)]; [left; by apply exec_panic|].
  rewrite (exec_then _ _ _ _ _ Er). set (s6 := set_kern k6 s5) in *.
  assert (Eb6 : vehicles s6 !! v = Some b) by (cbn; by rewrite lookup_insert_ne).
  rewrite (exec_then _ _ _ _ _ (field_eq lock v s6 b vl Eb6 Hlb)).
  assert (Hm6 : hs s6 !! vl = Some (cur s6)).
  { change (hs s6) with (holders k6). rewrite Hh6, lookup_insert_ne by done. change (hs s5) with (holders k2).
    rewrite Hh2, lookup_insert_eq, Hc6. change (cur s5) with (cur s2). by rewrite Hc2. }
  destruct (release_mine s6 vl Hr6 Hv0 Hm6) as [Er'|(k7 & Er' & _)]; [left; by apply exec_panic|right].
  rewrite (exec_then _ _ _ _ _ Er'), (exec_then _ _ _ _ _ (upd_eq v _ (set_kern k7 s6) b Eb6)).
  eexists. split; [reflexivity|]. split; [cbn; by rewrite lookup_insert_eq|]. exists (set_next (Some 0) b). cbn. by rewrite lookup_insert_eq.
Qed.

(** ** The properties *)

(** Adding a vehicle to a queue whose last lock is free puts it at the end, counts it and
    returns the new size, at once and without panicking.  The lock of the node that was the last
    stays with the caller: the lock that is released is that of the new last node. *)
Theorem Queue_produce_appends s q x l v tl vl t :
  running s -> rep s q x l -> q <> 0 -> v <> 0 -> v ∉ head x :: l ->
  lock_of s (tail x) = Some tl -> lock_of s v = Some vl -> tl <> 0 -> vl <> 0 -> tl <> vl ->
  hs s !! tl = Some 0 -> hs s !! vl = Some t -> t <> cur s ->
  exists s' x', exec (Queue_produce q v) s = Done (inl (s32 (size x + 1))) s' /\ rep s' q x' (l ++ [v]) /\
    size x' = s32 (size x + 1) /\ (forall q', q' <> q -> queues s' !! q' = queues s !! q') /\
    running s' /\ hs s' = <[tl := cur s]> (hs s).
Proof.
  intros Hr R Hq Hv Hin Htl Hvl Ht0 Hv0 Hne Hf Ho Ht.
  destruct (produce_spec s q x l v tl vl t Hr R Hq Hv Hin Htl Hvl Ht0 Hv0 Hne Hf Ho Ht) as (s' & E & Hr' & _ & Ha & Hh).
  exists s', (mkQueue (head x) v (s32 (size x + 1))). split; [done|]. split; [by apply (appended_rep s)|]. split; [done|].
  split; [|done]. intros q' Hne'. by rewrite (ap_queues _ _ _ _ _ Ha), lookup_insert_ne.
Qed.


(** A search that can let no vehicle in leaves the queue as it is and takes the lock of every
    vehicle of it, to keep: only the lock of the dummy is released. *)
Theorem search_keeps_locks fuel s q x vs ls hl :
  running s -> segs_ok s -> rep s q x vs -> q <> 0 -> lock_of s (head x) = Some hl -> hl <> 0 -> hs s !! hl = Some 0 ->
  (forall y, seg_lock s y <> hl) -> Forall2 (waiting s) vs ls -> NoDup (hl :: ls) -> (length vs <= fuel)%nat ->
  exec (Scheduler_search_for_next_serviceable_vehicle fuel q) s = Panic \/
  exists k, exec (Scheduler_search_for_next_serviceable_vehicle fuel q) s = Done (inl SUCCESS) (set_kern k s) /\
    running (set_kern k s) /\ holders k !! hl = Some 0 /\ (forall l, l ∈ ls -> holders k !! l = Some (cur s)) /\
    (forall l, l ∉ hl :: ls -> holders k !! l = hs s !! l).
Proof.
  intros Hr Hs R Hq Hl Hl0 Hf Hseg Hw Hn Hlen. pose proof (rep_queue _ _ _ _ R) as Eq. apply NoDup_cons in Hn as [Hni Hn].
  unfold Scheduler_search_for_next_serviceable_vehicle. rewrite decide_False by done.
  rewrite (exec_then _ _ _ _ _ (head_lock_eq s q x hl Eq Hl)).
  destruct (acquire_free s hl Hr Hl0 Hf) as (k1 & E1 & Hr1 & Hc1 & Hh1). rewrite (exec_then _ _ _ _ _ E1).
  set (s1 := set_kern k1 s) in *. destruct (lock_of_inv _ _ _ Hl) as (d & Ed & _).
  destruct (search_loop_spec fuel s1 q (head x) vs ls d Hr1 (segs_kern s k1 hl Hs Hseg Hh1) Ed (rep_chain _ _ _ _ R)
    (waiting_all s k1 hl vs ls Hw Hni Hseg Hh1 Hc1) Hn Hlen) as (k2 & c & Hnx & E2 & Hr2 & Hc2 & Hh2).
  rewrite (exec_then _ _ _ _ _ (get_queue_eq q s1 x Eq)), (exec_then _ _ _ _ _ (field_eq next (head x) s1 d c Ed Hnx)).
  rewrite (exec_then _ _ _ _ _ E2). set (s2 := set_kern k2 s1) in *. rewrite (exec_then _ _ _ _ _ (head_lock_eq s2 q x hl Eq Hl)).
  change (hs s1) with (holders k1) in Hh2. rewrite Hh1, Hc1 in Hh2.
  assert (Hm : hs s2 !! hl = Some (cur s2)).
  { change (hs s2) with (holders k2). rewrite Hh2, take_locks_ne, lookup_insert_eq by done. congruence. }
  destruct (release_mine s2 hl Hr2 Hl0 Hm) as [Er|(k & Er & Hr3 & _ & Hh3)]; [left; by apply exec_panic|right].
  exists k. rewrite (exec_then _ _ _ _ _ Er). split; [done|]. split; [exact Hr3|].
  change (hs s2) with (holders k2) in Hh3. rewrite Hh3, Hh2. split; [apply lookup_insert_eq|]. split; intros l Hin.
  - rewrite lookup_insert_ne by (intros ->; done). by apply take_locks_in.
  - apply not_elem_of_cons in Hin as [? ?]. rewrite lookup_insert_ne, take_locks_ne, lookup_insert_ne by done. done.
Qed.

(** What is asked of [Waiting_zone_produce]: the vehicle keeps its data, the thread its level. *)
Record keeps (s s' : st) (v : Z) : Prop := {
  kp_run : running s';
  kp_spl : spl s' = spl s;
  kp_vehicle : exists x y, vehicles s !! v = Some x /\ vehicles s' !! v = Some y /\
    vehiclenumber y = vehiclenumber x /\ vehicle_type y = vehicle_type x /\ entrance y = entrance x /\
    turndirection y = turndirection x /\ sleepAddr y = sleepAddr x;
}.

(** A vehicle never gets to the intersection: whatever [Waiting_zone_produce] does, when it has
    put the vehicle into the waiting zone and comes back at the interrupt level it was called at, the
    thread panics as it goes to sleep, since [thread_sleep] is called with interrupts on. *)
Theorem approachintersection_panics (Waiting_zone_produce : Z -> code Z) r1 r2 r3 n s v s1 r s2 :
  running s -> spl s = 0 ->
  exec (Vehicle_create n (type_of r3) (direction_of r1) (turn_of r2)) s = Done (inl v) s1 -> v <> 0 ->
  exec (Waiting_zone_produce v) s1 = Done (inl r) s2 -> keeps s1 s2 v ->
  exec (approachintersection Waiting_zone_produce r1 r2 r3 n) s = Panic.
Proof.
  intros Hr Hspl E Hv Ep [Hr2 Hs2 (x & y & Ex & Ey & Hn & Ht & He & Hd & Ha)].
  unfold approachintersection. rewrite (exec_then _ _ _ _ _ E).
  destruct (create_made s _ _ _ _ v s1 Hr E Hv) as (l & a & M).
  destruct (md_calm _ _ _ _ _ _ _ _ _ M) as [Q _]. rewrite (md_vehicles _ _ _ _ _ _ _ _ _ M), lookup_insert_eq in Ex. injection Ex as <-.
  rewrite (exec_then _ _ _ _ _ Ep), (exec_then _ _ _ _ _ (say_eq Arrived v s2 y _ _ _ _ Ey Hn Ht He Hd)).
  set (s3 := set_console _ s2). rewrite (exec_then _ _ _ _ _ (field_eq sleepAddr v s3 y a Ey Ha)).
  apply exec_panic, sleep_panics; [done|]. change (spl s2 = 0). congruence.
Qed.

End locks.

End StoplightInv.
