(* ===== verification/Examples.v ===== *)
(** * Concrete inputs

    For each theorem with hypotheses, an input at which they hold: heaps,
    tables, threads and file systems built by running the definitions. *)

From S2P Require Import Prelude Kmalloc Array Queue Bitmap Ram Kheap Thread ThreadInv Synch SynchInv Boot.
Import Array Queue Thread ThreadInv Synch SynchInv Boot.

Module Examples.

Lemma done_eq {S A} (d : S) (o : outcome S A) (a : A) :
  match o with Done a' _ => a' = a | _ => False end -> o = Done a (after d o).
Proof. by destruct o; intros; subst. Qed.

(** Discharge the computed side conditions. *)
Ltac computed := vm_compute; (done || (intros; discriminate)).

(** ** Heap *)

Definition h0 := heap0 64.
Lemma h0_rep : heap_rep h0 ∅.
Proof. apply heap0_rep. lia. Qed.

(** One block of 40 bytes. *)
Definition p1 : Z := result 0 (Kheap.kmalloc 40 h0).
Definition h1 := after h0 (Kheap.kmalloc 40 h0).
Lemma h1_eq : Kheap.kmalloc 40 h0 = Done p1 h1.
Proof. apply done_eq. computed. Qed.
Lemma h1_rep : Kheap.kheap_rep h1 {[p1 := 40]}.
Proof.
  destruct (alloc_rep h0 ∅ 40 p1 h1 h0_rep) as [_ R]; [unfold KMALLOC_MAX; lia|apply h1_eq|computed|exact R].
Qed.

Lemma kmalloc_correct_witness :
  (exists h', Kheap.kmalloc 100 h1 = Done 0 h' /\ Kheap.kheap_rep h' {[p1 := 40]}) \/
  (exists p h', Kheap.kmalloc 100 h1 = Done p h' /\ Kheap.kheap_rep h' (<[p := 100]> {[p1 := 40]}) /\
     Ram.MIPS_KSEG0 < p /\ p + 100 <= Ram.MIPS_KSEG0 + Ram.lastpaddr (Kheap.phys h') /\ p mod 16 = 0 /\
     forall q n, ({[p1 := 40]} : gmap Z Z) !! q = Some n -> p + 100 <= q \/ q + n <= p).
Proof. apply (Kheap.kmalloc_correct h1 {[p1 := 40]} 100); [apply h1_rep|unfold KMALLOC_MAX; lia]. Defined.

Lemma kfree_correct_witness :
  exists h', Kheap.kfree p1 h1 = Done tt h' /\ Kheap.kheap_rep h' (delete p1 {[p1 := 40]}).
Proof. apply (Kheap.kfree_correct h1 {[p1 := 40]} p1 40); [apply h1_rep|apply lookup_insert_eq]. Defined.

Lemma client_store_preserves_witness :
  exists h', Kheap.store (p1 + 36) 7 h1 = Done tt h' /\ Kheap.load (p1 + 36) h' = Done 7 h' /\
    Kheap.kheap_rep h' {[p1 := 40]}.
Proof.
  apply (Kheap.client_store_preserves h1 {[p1 := 40]} p1 40); [apply h1_rep|apply lookup_insert_eq|lia|lia|computed].
Defined.

Lemma kheap_reachable_safe_witness :
  (forall p n q m, ({[p1 := 40]} : gmap Z Z) !! p = Some n -> ({[p1 := 40]} : gmap Z Z) !! q = Some m -> p < q -> p + n <= q) /\
  (forall op, Kheap.op_allowed {[p1 := 40]} op -> exists v h', Kheap.run_heap_op op h1 = Done v h').
Proof.
  apply (Kheap.kheap_reachable_safe (pages 64)); [apply pages_wf; lia|].
  apply (Kheap.reach_step (pages 64) h0 ∅ (Kheap.OMalloc 40) p1 h1 (Kheap.reach_init (pages 64))); [|exact h1_eq].
  vm_compute. split; intros; discriminate.
Defined.

Lemma kheap_empty_clean_witness :
  Kheap.allbase h0 = None /\ (forall b, (b < 8)%nat -> Kheap.sizebases h0 !! b = Some None) /\
  Kheap.pagerefs_inuse h0 = replicate Kheap.INUSE_WORDS 0.
Proof. apply (Kheap.kheap_empty_clean h0). apply h0_rep. Defined.

Lemma kmalloc_size_wraps_witness :
  Kheap.kmalloc (2 ^ 32 - 1) h0 = Done (Kheap.top h0) h0 /\
  (Ram.firstpaddr (Kheap.phys h0) + Ram.PAGE_SIZE <= Ram.lastpaddr (Kheap.phys h0) ->
   exists h', Kheap.kmalloc Ram.PAGE_SIZE h0 = Done (Kheap.top h0) h').
Proof. apply (Kheap.kmalloc_size_wraps h0). apply pages_wf. lia. Defined.

Lemma ram_stealmem_disjoint_witness :
  exists ps r', Ram.steal_all [1; 2] (pages 8) = Done ps r' /\ Ram.wf r' /\ length ps = 2%nat /\
    forall i p n, ps !! i = Some p -> [1; 2] !! i = Some n -> p <> 0 ->
      p mod Ram.PAGE_SIZE = 0 /\ Ram.firstpaddr (pages 8) <= p /\ p + n * Ram.PAGE_SIZE <= Ram.lastpaddr (pages 8) /\
      forall j q m, ps !! j = Some q -> [1; 2] !! j = Some m -> q <> 0 -> i <> j ->
        forall a, ~ (Ram.in_run p n a /\ Ram.in_run q m a).
Proof.
  apply (Ram.ram_stealmem_disjoint [1; 2] (pages 8)); [apply pages_wf; lia|].
  repeat constructor; unfold Ram.MAXPAGES; lia.
Defined.

Lemma ram_stealmem_wraps_witness :
  Ram.ram_stealmem (2 ^ 20 - 1) (pages 8) =
    Done (Ram.firstpaddr (pages 8)) (Ram.mkram (Ram.firstpaddr (pages 8) - Ram.PAGE_SIZE) (Ram.lastpaddr (pages 8))).
Proof. apply (Ram.ram_stealmem_wraps (pages 8)); [apply pages_wf; lia|computed]. Defined.

(** ** Arrays, queues, bitmaps *)

Definition ap : Z := result 0 (Kheap.kmalloc sizeof_array h0).
Definition ah := after h0 (Kheap.kmalloc sizeof_array h0).
Lemma ah_rep : heap_rep ah {[ap := sizeof_array]}.
Proof.
  destruct (alloc_rep h0 ∅ sizeof_array ap ah h0_rep) as [_ R]; [unfold sizeof_array, KMALLOC_MAX; lia| |computed|exact R].
  apply done_eq. computed.
Qed.
Definition empty_array : array Z := mkarray ap 0 0 0 [].
Lemma empty_array_wf : wf empty_array.
Proof. split; simpl; unfold MAXGUYS; done || lia. Qed.
Lemma empty_array_owned : owned {[ap := sizeof_array]} empty_array.
Proof. split; [apply lookup_insert_eq|intros Hx; by destruct Hx|computed]. Qed.

Lemma array_refines_list_witness :
  (exists h', run_op (OAdd 7) (ah, empty_array) = Fail ENOMEM (h', empty_array) /\
     heap_rep h' {[ap := sizeof_array]}) \/
  (exists h' B' a', run_op (OAdd 7) (ah, empty_array) = Done tt (h', a') /\ heap_rep h' B' /\
     evolves {[ap := sizeof_array]} empty_array B' a' /\ spec_step (contents empty_array) (OAdd 7) (contents a')).
Proof.
  apply (array_refines_list ah {[ap := sizeof_array]} empty_array (OAdd 7));
    [apply ah_rep|apply empty_array_wf|apply empty_array_owned|computed].
Defined.

Definition two_guys : array Z := mkarray 4096 2 4 8192 [Some 1; Some 2; None; None].

Lemma array_index_bounds_witness :
  (0 <= 1 < num two_guys ->
     exists x, array_getguy 1 (h0, two_guys) = Done x (h0, two_guys) /\ contents two_guys !! Z.to_nat 1 = Some x) /\
  (~ (0 <= 1 < num two_guys) ->
     array_getguy 1 (h0, two_guys) = Panic /\ array_remove 1 (h0, two_guys) = Panic /\
     forall p, array_setguy 1 p (h0, two_guys) = Panic).
Proof.
  apply (array_index_bounds h0 two_guys 1). split; simpl; unfold MAXGUYS; done || lia.
Defined.

Definition qp : Z := result 0 (Kheap.kmalloc sizeof_queue h0).
Definition qh1 := after h0 (Kheap.kmalloc sizeof_queue h0).
Definition qd : Z := result 0 (Kheap.kmalloc (4 * sizeof_word) qh1).
Definition qh2 := after h0 (Kheap.kmalloc (4 * sizeof_word) qh1).
Definition qB : gmap Z Z := <[qd := 4 * sizeof_word]> {[qp := sizeof_queue]}.
Lemma qh2_rep : heap_rep qh2 qB.
Proof.
  destruct (alloc_rep h0 ∅ sizeof_queue qp qh1 h0_rep) as [_ R];
    [unfold sizeof_queue, KMALLOC_MAX; lia|apply done_eq; computed|computed|].
  destruct (alloc_rep qh1 _ (4 * sizeof_word) qd qh2 R) as [_ R2];
    [unfold sizeof_word, KMALLOC_MAX; lia|apply done_eq; computed|computed|exact R2].
Qed.
Definition ring : queue Z := mkqueue qp 4 1 0 qd [Some 5; None; None; None].
Lemma ring_wf : qwf ring.
Proof. split; simpl; unfold MAXQ; done || lia. Qed.
Lemma ring_owned : qowned qB ring.
Proof. split; computed. Qed.

Lemma queue_refines_fifo_witness :
  (exists h', run_qop QRemhead (qh2, ring) = Fail ENOMEM (h', ring) /\ heap_rep h' qB) \/
  (QRemhead = QRemhead (V := Z) /\ qcontents ring = [] /\ run_qop QRemhead (qh2, ring) = Panic) \/
  (exists ret h' B' q', run_qop QRemhead (qh2, ring) = Done ret (h', q') /\ heap_rep h' B' /\
     qevolves qB ring B' q' /\ fifo_step (qcontents ring) QRemhead ret (qcontents q')).
Proof.
  apply (queue_refines_fifo qh2 qB ring QRemhead);
    [apply qh2_rep|apply ring_wf|apply ring_owned|computed|done].
Defined.

Lemma q_ring_capacity_witness :
  (qlen ring < Queue.size ring - 1 ->
     exists q', q_addtail 6 (qh2, ring) = Done tt (qh2, q') /\ Queue.size q' = Queue.size ring /\
       qcontents q' = qcontents ring ++ [Some 6]) /\
  (qlen ring = Queue.size ring - 1 -> kmalloc (2 * Queue.size ring * sizeof_word) qh2 = Done 0 h0 ->
     q_addtail 6 (qh2, ring) = Fail ENOMEM (h0, ring)).
Proof.
  apply (q_ring_capacity qh2 h0 qB ring 6); [apply qh2_rep|apply ring_wf|apply ring_owned|computed].
Defined.

Definition ten_bits : Bitmap.bitmap := Bitmap.mkbitmap 4096 10 8192 [5; 252].
Lemma ten_bits_wf : Bitmap.wf ten_bits.
Proof.
  split; [simpl; unfold Bitmap.MAXBITS; lia|done|repeat constructor; lia|]. simpl. intros i Hi.
  assert (i = 10 \/ i = 11 \/ i = 12 \/ i = 13 \/ i = 14 \/ i = 15) as Hc by (unfold Bitmap.BITS_PER_WORD in *; lia).
  by destruct Hc as [->|[->|[->|[->|[->| ->]]]]].
Qed.

Lemma bitmap_alloc_least_witness :
  (exists i b', Bitmap.bitmap_alloc ten_bits = Done i b' /\ Bitmap.first_free ten_bits i /\
     Bitmap.bit_set ten_bits i true b' /\ Bitmap.wf b') \/
  (Bitmap.bitmap_alloc ten_bits = Fail ENOSPC ten_bits /\
     forall i, 0 <= i < Bitmap.nbits ten_bits -> Bitmap.bit ten_bits i = true).
Proof. apply (Bitmap.bitmap_alloc_least ten_bits). apply ten_bits_wf. Defined.

Lemma bitmap_mark_unmark_witness :
  (3 < Bitmap.nbits ten_bits -> Bitmap.bit ten_bits 3 = false ->
     exists b', Bitmap.bitmap_mark 3 ten_bits = Done tt b' /\ Bitmap.bit_set ten_bits 3 true b' /\ Bitmap.wf b' /\
       Bitmap.bitmap_unmark 3 b' = Done tt ten_bits) /\
  (Bitmap.nbits ten_bits <= 3 \/ Bitmap.bit ten_bits 3 = true -> Bitmap.bitmap_mark 3 ten_bits = Panic) /\
  (Bitmap.nbits ten_bits <= 3 \/ Bitmap.bit ten_bits 3 = false -> Bitmap.bitmap_unmark 3 ten_bits = Panic).
Proof. apply (Bitmap.bitmap_mark_unmark ten_bits 3); [apply ten_bits_wf|lia]. Defined.

(** ** Threads *)

Definition x00 : tsys Kheap.kheap unit := tsys_init h0 tt.
Definition x0 := after x00 (boot_threads x00).
Definition me : Z := result 0 (boot_threads x00).
Lemma x0_eq : boot_threads x00 = Done me x0.
Proof. apply done_eq. computed. Qed.
Lemma me_nz : me <> 0.
Proof. computed. Qed.
Lemma x0_inv : tinv x0 [] [] [] /\ curthread x0 = me /\ base.size (threads x0) = 1%nat.
Proof. exact (boot_ok h0 ∅ x0 me h0_rep x0_eq). Qed.

Lemma boot_threads_inv_witness :
  boot_threads (tsys_init h0 tt) = Panic \/
  exists me s, boot_threads (tsys_init h0 tt) = Done me s /\ curthread s = me /\
    numthreads s = 1 /\ tinv s [] [] [].
Proof. apply (boot_threads_inv h0 ∅ tt). apply h0_rep. Defined.

Lemma x0_fork_ok : top_ok x0 (TFork 4).
Proof.
  destruct x0_inv as (I & Hc & Hn). split; [rewrite Hc; exact me_nz|]. split; [lia|]. rewrite Hn. split; [done|].
  intros th _ _. by exists tt.
Qed.

Lemma thread_ops_refine_witness :
  (run_top (TFork 4) x0 = Panic /\ table_full x0 (TFork 4) [] [] []) \/
  (exists s', run_top (TFork 4) x0 = Fail ENOMEM s' /\ fork_undone x0 s' /\ tinv s' [] [] []) \/
  (exists s' R' S' Zs', run_top (TFork 4) x0 = Done tt s' /\ tinv s' R' S' Zs' /\
     abs_step x0 (TFork 4) s' [] [] [] R' S' Zs').
Proof. apply (thread_ops_refine x0 (TFork 4) [] [] []); [apply x0_inv|apply x0_fork_ok]. Defined.

Definition x1 := after x00 (run_top (TFork 4) x0).

Lemma threads_partitioned_witness :
  exists R' S' Zs',
    NoDup (cur_list x1 ++ R' ++ S' ++ Zs') /\
    (forall t, t ∈ cur_list x1 ++ R' ++ S' ++ Zs' <-> is_Some (threads x1 !! t)) /\
    numthreads x1 = Z.of_nat (length (cur_list x1 ++ R' ++ S')) /\
    (exists sl, sleepers x1 = Some sl /\ contents sl = Some <$> S') /\
    (exists zs, zombies x1 = Some zs /\ contents zs = Some <$> Zs') /\
    (exists rq, runqueue x1 = Some rq /\ qcontents rq = Some <$> R').
Proof.
  apply (threads_partitioned x0 x1 [] [] []); [apply x0_inv|].
  apply (treach_done x0 x0 (TFork 4) x1); [constructor|apply x0_fork_ok|]. apply done_eq. computed.
Defined.

(** Three threads, the first running. *)
Definition x3 := after x00 (forks 2 x0).
Lemma x3_eq : forks 2 x0 = Done tt x3.
Proof. apply done_eq. computed. Qed.
Lemma x3_inv : curthread x3 <> 0 /\ exists R, tinv x3 R [] [].
Proof.
  destruct x0_inv as (I & Hc & Hn).
  apply (forks_inv 2 x0 [] [] [] x3 I); [rewrite Hc; exact me_nz|rewrite Hn; done|exact x3_eq].
Qed.

Lemma thread_sleep_never_fails_witness :
  exists R s', thread_sleep 4096 x3 = Done true s' /\ tinv s' R ([] ++ [curthread x3]) [] /\
    t_sleepaddr <$> threads s' !! curthread x3 = Some 4096.
Proof.
  destruct x3_inv as (Hc & R & I). exists R.
  apply (thread_sleep_never_fails x3 R [] [] 4096); [done|done|computed|computed|computed].
Defined.

(** Thirty-two threads in thirty-seven pages, and the rest of the memory given
    out in blocks of 256 bytes. *)
Definition y00 : tsys Kheap.kheap unit := tsys_init (heap0 37) tt.
Definition y0 := after y00 (boot_threads y00).
Definition y1 := after y00 (forks 31 y0).
Definition y2 := default y00 (mallocs 14 256 y1).
Definition y2_rq := default ring (runqueue y2).

Lemma y0_eq : boot_threads y00 = Done me y0.
Proof. apply done_eq. computed. Qed.
Lemma y1_eq : forks 31 y0 = Done tt y1.
Proof. apply done_eq. computed. Qed.
Lemma y1_inv : curthread y1 <> 0 /\ exists R, tinv y1 R [] [].
Proof.
  destruct (boot_ok (heap0 37) ∅ y0 me) as (I & Hc & Hn); [apply heap0_rep; lia|exact y0_eq|].
  apply (forks_inv 31 y0 [] [] [] y1 I); [rewrite Hc; exact me_nz|rewrite Hn; done|exact y1_eq].
Qed.

Lemma some_eq {A} (d : A) (o : option A) : match o with Some _ => True | None => False end -> o = Some (default d o).
Proof. by destruct o. Qed.
Lemma y2_eq : mallocs 14 256 y1 = Some y2.
Proof. apply some_eq. vm_compute. done. Qed.

Lemma y2_rq_eq : runqueue y2 = Some y2_rq.
Proof. apply some_eq. vm_compute. done. Qed.
Lemma y2_inv : curthread y2 <> 0 /\ exists R, tinv y2 R [] [] /\ Queue.size y2_rq = Z.of_nat (length R) + 1.
Proof.
  destruct y1_inv as (Hc & R & I).
  destruct (mallocs_inv 14 256 y1 R [] [] y2 I) as [I2 Hc2]; [unfold KMALLOC_MAX; lia|exact y2_eq|].
  rewrite Hc2. split; [exact Hc|]. exists R. split; [exact I2|].
  rewrite (tinv_ready y2 R [] [] y2_rq I2 y2_rq_eq). computed.
Qed.
Definition y2_h := after (heap0 37) (kmalloc (2 * Queue.size y2_rq * sizeof_word) (heap y2)).
Lemma y2_full : kmalloc (2 * Queue.size y2_rq * sizeof_word) (heap y2) = Done 0 y2_h.
Proof. apply done_eq. computed. Qed.

Lemma thread_yield_can_panic_witness : thread_yield y2 = Panic.
Proof.
  destruct y2_inv as (Hc & R & I & Hsz).
  exact (thread_yield_can_panic y2 R [] [] y2_rq y2_h I Hc y2_rq_eq Hsz y2_full).
Defined.

(** ** Synchronization *)

Definition k0 : ksys Kheap.kheap unit := ksys_init x0.
Lemma k0_ok : kok 0 ∅ k0.
Proof. apply ksys_init_ok; [apply x0_inv|computed]. Qed.

(** One call; the address of the clock's variable and the clock rate do not
    matter to these runs. *)
Definition kcall (op : kop) := run_kop (H := Kheap.kheap) (VN := unit) 0 100 op.

Ltac call_ok := vm_compute; repeat split; (done || (intros; discriminate) || (eexists; reflexivity)).

Lemma kcall_reach k tr k1 op ev k2 :
  kreach 0 100 k tr k1 -> kop_ok 0 k1 op ->
  match kcall op k1 with Done ev' _ => ev' = ev | _ => False end -> k2 = after k0 (kcall op k1) ->
  kreach 0 100 k (tr ++ ev) k2.
Proof.
  intros Hr Hok E ->. eapply kreach_done; [exact Hr|exact Hok|]. exact (done_eq k0 (kcall op k1) ev E).
Qed.

(** A lock, taken, released and taken again. *)
Definition lk : Z := result 0 ((r ← lock_create 4; mret (default 0 r)) k0).
Definition k1 := after k0 (kcall (KLockCreate 4) k0).
Definition k2 := after k0 (kcall (KAcquire lk) k1).
Definition k3 := after k0 (kcall (KRelease lk) k2).
Definition k4 := after k0 (kcall (KAcquire lk) k3).
Lemma k1_reach : kreach 0 100 k0 [EvLock lk] k1.
Proof.
  exact (kcall_reach k0 [] k0 (KLockCreate 4) [EvLock lk] k1 (kreach_refl _ _ _) ltac:(call_ok) ltac:(computed) ltac:(reflexivity)).
Qed.
Lemma k2_reach : kreach 0 100 k0 [EvLock lk; EvAcquire me lk] k2.
Proof.
  exact (kcall_reach k0 [EvLock lk] k1 (KAcquire lk) [EvAcquire me lk] k2 k1_reach ltac:(call_ok) ltac:(computed) ltac:(reflexivity)).
Qed.
Lemma k3_reach : kreach 0 100 k0 [EvLock lk; EvAcquire me lk; EvRelease me lk] k3.
Proof.
  exact (kcall_reach k0 [EvLock lk; EvAcquire me lk] k2 (KRelease lk) [EvRelease me lk] k3 k2_reach ltac:(call_ok) ltac:(computed) ltac:(reflexivity)).
Qed.
Lemma k4_reach :
  kreach 0 100 k0 ([EvLock lk] ++ EvAcquire me lk :: [EvRelease me lk] ++ EvAcquire me lk :: []) k4.
Proof.
  exact (kcall_reach k0 [EvLock lk; EvAcquire me lk; EvRelease me lk] k3 (KAcquire lk) [EvAcquire me lk] k4
    k3_reach ltac:(call_ok) ltac:(computed) ltac:(reflexivity)).
Qed.

Lemma lock_mutual_exclusion_witness : EvRelease me lk ∈ [EvRelease me lk].
Proof.
  exact (lock_mutual_exclusion 0 100 ∅ k0 k4 [EvLock lk] [EvRelease me lk] [] me me lk k0_ok k4_reach).
Defined.

Lemma synch_ops_refine_witness : exists F R S Zs,
  kinv 0 F k0 R S Zs /\
  ((kcall (KLockCreate 4) k0 = Panic /\ ~ roomy (ts k0)) \/
   (exists s', kcall (KLockCreate 4) k0 = Fail ENOMEM s' /\ (exists F', kok 0 F' s') /\ abs s' = abs k0) \/
   (exists ev s', kcall (KLockCreate 4) k0 = Done ev s' /\ (exists F', kok 0 F' s') /\ asteps ev (abs k0) (abs s'))).
Proof.
  destruct k0_ok as (R & S & Zs & K). exists ∅, R, S, Zs. split; [exact K|].
  apply (synch_ops_refine 0 100 ∅ k0 R S Zs (KLockCreate 4) K). call_ok.
Defined.

(** A semaphore of count one: down and up again. *)
Definition sp : Z := result 0 ((r ← sem_create 4 1; mret (default 0 r)) k0).
Definition s1 := after k0 (kcall (KSemCreate 4 1) k0).
Definition s2 := after k0 (kcall (KP sp) s1).
Definition s3 := after k0 (kcall (KV sp) s2).
Lemma s1_ok : exists F, kok 0 F s1.
Proof.
  assert (Hr : kreach 0 100 k0 ([] ++ [EvSem sp 1]) s1).
  { exact (kcall_reach k0 [] k0 (KSemCreate 4 1) [EvSem sp 1] s1 (kreach_refl _ _ _) ltac:(call_ok) ltac:(computed) ltac:(reflexivity)). }
  apply (kreach_ok 0 100 ∅ k0 _ s1 k0_ok Hr).
Qed.
Lemma s2_reach : kreach 0 100 s1 [EvP me sp] s2.
Proof.
  exact (kcall_reach s1 [] s1 (KP sp) [EvP me sp] s2 (kreach_refl _ _ _) ltac:(call_ok) ltac:(computed) ltac:(reflexivity)).
Qed.
Lemma s3_reach : kreach 0 100 s1 ([EvP me sp] ++ [EvV me sp]) s3.
Proof.
  assert (Hok : kop_ok 0 s2 (KV sp)).
  { refine (conj _ (conj _ (ex_intro _ 0 (conj _ _)))); computed. }
  exact (kcall_reach s1 [EvP me sp] s2 (KV sp) [EvV me sp] s3 s2_reach Hok ltac:(computed) ltac:(reflexivity)).
Qed.

Lemma semaphore_counts_witness :
  counts s3 !! sp = Some (1 + completed_V sp ([EvP me sp] ++ [EvV me sp]) - completed_P sp ([EvP me sp] ++ [EvV me sp])) /\
  completed_P sp ([EvP me sp] ++ [EvV me sp]) <= 1 + completed_V sp ([EvP me sp] ++ [EvV me sp]).
Proof.
  destruct s1_ok as [F K].
  apply (semaphore_counts 0 100 F s1 s3 ([EvP me sp] ++ [EvV me sp]) sp 1 K s3_reach); [computed|].
  intros [?|[?|?%elem_of_nil]%elem_of_cons]%elem_of_cons; done.
Defined.

(** A semaphore of count zero, and the thread that waits for it. *)
Definition zp : Z := result 0 ((r ← sem_create 4 0; mret (default 0 r)) k0).
Definition z1 := after k0 (kcall (KSemCreate 4 0) k0).
Definition z2 := after k0 (kcall (KP zp) z1).
Definition z2_sl := default empty_array (sleepers (ts z2)).
Lemma z1_reach : kreach 0 100 k0 [EvSem zp 0] z1.
Proof.
  exact (kcall_reach k0 [] k0 (KSemCreate 4 0) [EvSem zp 0] z1 (kreach_refl _ _ _) ltac:(call_ok) ltac:(computed) ltac:(reflexivity)).
Qed.
Lemma z2_reach : kreach 0 100 k0 ([EvSem zp 0] ++ []) z2.
Proof.
  exact (kcall_reach k0 [EvSem zp 0] z1 (KP zp) [] z2 z1_reach ltac:(call_ok) ltac:(computed) ltac:(reflexivity)).
Qed.

Lemma no_lost_wakeup_witness :
  exists w th, waits z2 !! me = Some w /\ threads (ts z2) !! me = Some th /\
    sleeping_on 0 w = Some (t_sleepaddr th) /\ blocked z2 w.
Proof.
  apply (no_lost_wakeup 0 100 ∅ k0 z2 ([EvSem zp 0] ++ []) z2_sl me k0_ok z2_reach); [computed|].
  vm_compute. left.
Defined.

Lemma lock_destroy_panics_witness : lock_destroy lk k1 = Panic.
Proof.
  destruct (kreach_ok 0 100 ∅ k0 [EvLock lk] k1 k0_ok k1_reach) as [(F & R & S & Zs & K) _].
  destruct (ki_thr _ _ _ _ _ _ _ K) as (B & sl & zs & rq & I).
  destruct (tb_heap _ _ _ _ _ _ _ _ (ti_tbl _ _ _ _ _ _ _ _ I)) as [_ Hr].
  assert (E : exists y, locks k1 !! lk = Some y /\ available y = 1) by (vm_compute; eexists; split; reflexivity).
  destruct E as (y & Hy & Ha).
  apply (lock_destroy_panics k1 (B ∪ F) lk y Hr); [computed|exact Hy|exact Ha].
Defined.

End Examples.
