(* ===== verification/ExamplesFs.v ===== *)
(** * Concrete inputs: user memory, disk and file system

    The inputs at which the hypotheses of the theorems on user memory, on the disk
    driver and on the file system hold: a disk of twelve sectors with a file on it that has
    a direct and an indirect block, mounted on the kernel of Examples.v. *)

From S2P Require Import Prelude Kmalloc Array Bitmap Kheap Thread Synch SynchInv ThreadInv Boot Uio Blockdev Lhd Vnode Sfs SfsBlock SfsFile SfsIo SfsTrunc SfsDir SfsVol FsKernel EmuKernel Examples.
Import Bitmap Uio Vnode Sfs SfsBlock SfsFile SfsIo SfsTrunc SfsDir SfsVol FsKernel.
#[local] Existing Instances Lhd.lhd_device Lhd.lhd_spec Boot.no_vnodes Boot.no_vnodes_laws.

Module ExamplesFs.

(** ** User memory *)

(** A page of user memory with the string ``ab'' at 4100. *)
Definition m0 : gmap Z Z := {[4100 := 97; 4101 := 98; 4102 := 0; 4103 := 7]}.
Definition c0 : uctx := mkuctx m0 5 false.

Lemma copyinstr_correct_witness :
  exists d, cstr d /\ ubytes m0 4100 (length d) = Some d /\
    copyinstr 4100 (Z.of_nat 2) 8 (replicate 10 1, c0) = Done (Z.of_nat (length d)) (list_inserts 2 d (replicate 10 1), c0).
Proof.
  destruct (copyinstr_correct (replicate 10 1) c0 4100 2 8) as [(d & Hd & _ & _ & Hu & E)|[(d & k' & _ & _ & _ & _ & E & _)|(_ & k' & E & _)]];
    try (vm_compute; done); try (vm_compute; split; done).
  exists d. split; [exact Hd|]. split; [exact Hu|exact E].
Defined.

Lemma user_copy_correct_witness :
  copyin 4100 (Z.of_nat 1) 4 (replicate 6 1, c0) = Done tt (list_inserts 1 [97; 98; 0; 7] (replicate 6 1), c0).
Proof.
  pose proof (user_copy_correct (replicate 6 1) c0 4100 1 4 eq_refl ltac:(lia) ltac:(lia) ltac:(simpl; lia)) as H.
  change (uread c0 4100 4) with (Some [97; 98; 0; 7]) in H. exact (proj1 H).
Defined.

Definition u0 : uio := mkuio 4100 [] 4 0 4 UIO_USERSPACE UIO_WRITE 5.
Lemma u0_ok : uio_ok c0 u0.
Proof. unfold uio_ok. vm_compute. repeat split; intros; discriminate. Qed.


(** ** Cards *)

(** The first 512 bytes, filled up with zeros. *)
Definition fit (x : list Z) : list Z := take 512 (x ++ zero_block).
Lemma length_fit x : length (fit x) = 512%nat.
Proof. unfold fit. rewrite length_take, length_app. change (length zero_block) with 512%nat. lia. Qed.
Lemma fit_id x : length x = 512%nat -> fit x = x.
Proof. intros H. unfold fit. rewrite take_app_le by lia. apply take_ge. lia. Qed.

(** A card in working order. *)
Record card := mkcard { image : list (list Z) }.
#[export] Instance card_hw : Lhd.LhdCard card := {
  Lhd.card_run := fun w b buf hw =>
    if w : bool then (Lhd.LHD_OK, buf, mkcard (<[Z.to_nat b := buf]> (image hw)))
    else (Lhd.LHD_OK, fit (default [] (image hw !! Z.to_nat b)), hw);
}.
#[export] #[refine] Instance card_hw_spec : Lhd.LhdCardSpec card := {|
  Lhd.card_sectors := fun hw => fit <$> image hw;
|}.
Proof.
  - intros hw b x. rewrite list_lookup_fmap. destruct (image hw !! b); simpl; [|done]. intros [= <-]. apply length_fit.
  - intros hw b buf x. rewrite list_lookup_fmap. intros Hx Hl. eexists _, _, hw. split; [reflexivity|]. split; [done|]. left.
    split; [done|]. rewrite Nat2Z.id. destruct (image hw !! b); simpl in *; by simplify_eq.
  - intros hw b buf x Hx Hl. exists Lhd.LHD_OK, buf, (mkcard (<[b := buf]> (image hw))), buf. simpl. rewrite Nat2Z.id.
    split; [done|]. split; [done|]. split; [|by left]. rewrite list_fmap_insert. by rewrite fit_id.
Defined.
Lemma card_hw_sound hw : Lhd.card_sound (HW := card) hw.
Proof. intros n. revert hw. induction n as [|n IH]; intros hw; [done|]. by intros b buf x _ _. Qed.

(** A card that cannot write. *)
Record worn := mkworn { worn_image : list (list Z) }.
#[export] Instance worn_hw : Lhd.LhdCard worn := {
  Lhd.card_run := fun w b buf hw =>
    if w : bool then (Lhd.LHD_MEDIA, buf, hw)
    else (Lhd.LHD_OK, fit (default [] (worn_image hw !! Z.to_nat b)), hw);
}.
#[export] #[refine] Instance worn_hw_spec : Lhd.LhdCardSpec worn := {|
  Lhd.card_sectors := fun hw => fit <$> worn_image hw;
|}.
Proof.
  - intros hw b x. rewrite list_lookup_fmap. destruct (worn_image hw !! b); simpl; [|done]. intros [= <-]. apply length_fit.
  - intros hw b buf x. rewrite list_lookup_fmap. intros Hx Hl. eexists _, _, hw. split; [reflexivity|]. split; [done|]. left.
    split; [done|]. rewrite Nat2Z.id. destruct (worn_image hw !! b); simpl in *; by simplify_eq.
  - intros hw b buf x Hx Hl. exists Lhd.LHD_MEDIA, buf, hw, x. simpl. split; [done|]. split; [done|]. split; [|by right].
    by rewrite list_insert_id.
Defined.

Definition lhd_on {HW} (hw : HW) (n : Z) : Lhd.lhd_softc HW := Lhd.mklhd hw zero_block 0 0 None 1 0 n.

Lemma lhd_io_safe_witness :
  exists l' c' u', Lhd.lhd_ok l' /\ uio_ok c' u' /\
    Lhd.lhd_io (lhd_on (mkcard [[]; []]) 2, (c0, mk_kuio zero_block 512 513 UIO_READ)) = Fail EINVAL (l', (c', u')).
Proof.
  destruct (Lhd.lhd_io_safe (lhd_on (mkcard [[]; []]) 2) c0 (mk_kuio zero_block 512 513 UIO_READ)) as
    (l' & c' & u' & Hl & Hu & _ & _ & H).
  - unfold Lhd.lhd_ok. vm_compute. repeat split; done.
  - apply kuio_ok; [done|lia|simpl; vm_compute; done].
  - simpl. lia.
  - exists l', c', u'. split; [exact Hl|]. split; [exact Hu|]. rewrite decide_False in H by (vm_compute; intros (? & _); done).
    exact (proj1 H).
Defined.


(** ** A volume *)

Definition super0 : sfs_super := mksuper SFS_MAGIC 12 (replicate 32 0) (replicate 118 0).

(** A file of 7780 bytes: its first block is in sector 4, the blocks between are holes,
    and block 15 is in sector 6, listed in the indirect block in sector 5. *)
Definition inode0 : sfs_inode := mkinode 7780 SFS_TYPE_FILE 1 (4 :: replicate 14 0) 5 (replicate 110 0).
Definition entry0 : sfs_dir := mkdir 3 (102 :: replicate 59 0).

Definition image0 : list (list Z) :=
  [super_bytes super0; []; []; inode_bytes inode0; [1; 2; 3]; bytes_of (6 :: replicate 127 0); [9]; []; []; []; []; []].

(** Sectors 0 to 6 are in use, 7 to 11 free. *)
Definition map0 : bitmap := mkbitmap 1 4096 2 (127 :: 240 :: replicate 510 255).

Definition file0 : sfs_vnode := mksv (mkvnode 1 0 Examples.lk 100 200 (Some sfs_fileops)) inode0 3 false.
Definition fs0 : sfs_fs kernel (Lhd.lhd_softc card) :=
  mksfs Examples.k1 c0 (lhd_on (mkcard image0) 12) 100 super0 false (Array.mkarray 300 1 1 304 [Some 200]) {[200 := file0]} map0 false.

Lemma bits_range m a b : forallb (bit m) (Z.of_nat <$> seq a b) = true ->
  forall i, Z.of_nat a <= i < Z.of_nat (a + b) -> bit m i = true.
Proof.
  intros H i Hi. rewrite forallb_forall in H. apply H. apply list_elem_of_In, list_elem_of_fmap. exists (Z.to_nat i).
  split; [lia|]. apply elem_of_seq. lia.
Qed.

Lemma map0_wf : wf map0.
Proof.
  split; [by vm_compute|by vm_compute| |].
  - apply Forall_cons; split; [lia|]. apply Forall_cons; split; [lia|]. apply Forall_replicate. lia.
  - intros i Hi. change (nbits map0) with 4096 in Hi. change (BITS_PER_WORD * Z.of_nat (length (v map0))) with 4096 in Hi. lia.
Qed.

Lemma fs0_ok : vol_ok Sound fs0.
Proof.
  split.
  - split; [unfold Lhd.lhd_ok; vm_compute; repeat split; done|intros _; apply card_hw_sound].
  - done.
  - exact map0_wf.
  - change (length (disk fs0)) with 12%nat. simpl. lia.
  - simpl. lia.
  - simpl. lia.
  - simpl. intros b Hb. apply (bits_range map0 12 4084); [vm_compute; reflexivity|lia].
  - vm_compute. reflexivity.
Qed.

Lemma fs0_blocks : blocks (disk fs0) inode0 = [5; 4; 6].
Proof. vm_compute. reflexivity. Qed.

Lemma fs0_file : file_ok fs0 200 file0.
Proof.
  split; [by vm_compute|done| |]; simpl sv_i; rewrite fs0_blocks.
  - apply (bool_decide_unpack (NoDup [5; 4; 6])). vm_compute. done.
  - intros b Hb. simpl in Hb. assert (b = 5 \/ b = 4 \/ b = 6) as Hc.
    { rewrite !elem_of_cons in Hb. destruct Hb as [?|[?|[?|Hb]]]; auto. by apply elem_of_nil in Hb. }
    destruct Hc as [->|[->| ->]]; (split; [simpl; lia|vm_compute; reflexivity]).
Qed.

Definition word_okb (w : Z) : bool := (0 <=? w) && (w <? 2 ^ 32).
Lemma words_ok ws : forallb word_okb ws = true -> Forall word_ok ws.
Proof.
  intros H. apply Forall_forall. intros w Hw. rewrite forallb_forall in H. apply list_elem_of_In, H in Hw.
  unfold word_okb in Hw. unfold word_ok. lia.
Qed.

Lemma sfs_format_roundtrip_witness :
  (length (super_bytes super0) = Z.to_nat SFS_BLOCKSIZE /\ super_of_bytes (super_bytes super0) = super0) /\
  (length (inode_bytes inode0) = Z.to_nat SFS_BLOCKSIZE /\ inode_of_bytes (inode_bytes inode0) = inode0) /\
  (length (dir_bytes entry0) = Z.to_nat sizeof_sfs_dir /\ dir_of_bytes (dir_bytes entry0) = entry0).
Proof.
  apply (sfs_format_roundtrip super0 inode0 entry0).
  - refine (conj _ (conj _ (conj _ (conj _ _)))); [by vm_compute|by vm_compute|done|done|by apply words_ok].
  - refine (conj _ (conj _ (conj _ (conj _ (conj _ (conj _ (conj _ _)))))));
      [by vm_compute|by vm_compute|by vm_compute|done|by apply words_ok|by vm_compute|done|by apply words_ok].
  - unfold dir_ok, word_ok. simpl. split; [lia|done].
Defined.

Definition fsw : sfs_fs kernel (Lhd.lhd_softc worn) :=
  mksfs Examples.k1 c0 (lhd_on (mkworn [[]; [5]]) 2) 100 super0 false (Array.mkarray 300 0 0 0 []) ∅ map0 false.

Lemma sfs_wblock_loses_write_witness :
  exists s', sfs_wblock zero_block (Z.of_nat 1) fsw = Done tt s' /\ Lhd.lh_card (s_dev s') = mkworn [[]; [5]].
Proof.
  destruct (sfs_wblock_loses_write fsw zero_block (fit [5]) 1) as (s' & E & Hc); try done.
  exists s'. split; [exact E|exact Hc].
Defined.


(** ** Files *)

Definition data0 : list Z := [65; 66; 67].
Definition wr0 : uio := mk_kuio data0 3 510 UIO_WRITE.
Definition rd0 : uio := mk_kuio [0; 0; 0] 3 1 UIO_READ.

Lemma wr0_ok : io_ok fs0 wr0.
Proof. split; [apply kuio_ok; [done|lia|simpl; lia]|]. simpl. lia. Qed.
Lemma rd0_ok : io_ok fs0 rd0.
Proof. split; [apply kuio_ok; [done|lia|simpl; lia]|]. simpl. lia. Qed.

Lemma sfs_write_correct_witness :
  exists sv' s' (k : nat), grows Sound 200 file0 sv' fs0 s' /\
    sfi_size (sv_i sv') = Z.max 7780 (510 + Z.of_nat k) /\
    (sfs_write 200 (fs0, wr0) = Done tt (s', advance (Z.of_nat k) wr0) /\ Z.of_nat k = 3 \/
     exists e, sfs_write 200 (fs0, wr0) = Fail e (s', advance (Z.of_nat k) wr0)).
Proof.
  destruct (sfs_write_correct fs0 200 file0 wr0 fs0_ok fs0_file wr0_ok eq_refl ltac:(simpl; lia)
    ltac:(vm_compute; split; done)) as (sv' & s' & k & data & G & _ & _ & Hs & _ & H).
  exists sv', s', k. split; [exact G|]. split; [exact Hs|].
  destruct H as [(E & Hk & _)|(e & E & _)]; [left; split; [exact E|exact Hk]|right; exists e; exact E].
Defined.

Lemma sfs_read_correct_witness :
  exists d, same_data Sound (s_dev fs0) d /\
    ((exists c u', sfs_read 200 (fs0, rd0) = Done tt (after_read fs0 d c, advance 3 u') /\
        poke c0 rd0 (fbytes (disk fs0) inode0 1 3) = Some (c, u')) \/
     (exists e m u', sfs_read 200 (fs0, rd0) = Fail e (after_read fs0 d (set_umem m c0), u') /\
        (e = EIO \/ e = EFAULT /\ poke c0 rd0 (fbytes (disk fs0) inode0 1 3) = None))).
Proof.
  pose proof (sfs_read_correct fs0 200 file0 rd0 fs0_ok fs0_file rd0_ok eq_refl ltac:(simpl; lia) ltac:(vm_compute; split; done)) as H.
  cbv zeta in H. rewrite decide_False in H by (simpl; lia). exact H.
Defined.

Definition wrote0 := Boot.after (fs0, wr0) (sfs_write 200 (fs0, wr0)).
Lemma wrote0_eq : sfs_write 200 (fs0, wr0) = Done tt (wrote0.1, wrote0.2).
Proof. rewrite <- surjective_pairing. apply Examples.done_eq. vm_compute. done. Qed.

Lemma sfs_write_then_read_witness :
  exists s2,
    (exists u2, sfs_read 200 (wrote0.1, mk_kuio [0; 0; 0] 3 510 UIO_READ) = Done tt (s2, u2) /\
       iov_kbuf u2 = data0 /\ uio_resid u2 = 0) \/
    (exists u2, sfs_read 200 (wrote0.1, mk_kuio [0; 0; 0] 3 510 UIO_READ) = Fail EIO (s2, u2)).
Proof.
  apply (sfs_write_then_read fs0 wrote0.1 200 file0 data0 [0; 0; 0] 510 wrote0.2 fs0_ok fs0_file);
    [vm_compute; split; done|done|done|lia|vm_compute; done|exact wrote0_eq].
Defined.


Lemma sfs_truncate_frees_all_witness :
  (exists s', sfs_truncate 200 0 fs0 = Fail EIO s') \/
  exists sv' s', sfs_truncate 200 0 fs0 = Done tt s' /\ s_objs s' !! 200 = Some sv' /\
    blocks (disk s') (sv_i sv') = [] /\ sfi_size (sv_i sv') = 0 /\
    forall b, 0 <= b -> bit (s_freemap s') b = if decide (b ∈ blocks (disk fs0) inode0) then false else bit map0 b.
Proof. apply (sfs_truncate_frees_all fs0 200 file0 fs0_ok fs0_file). Defined.

Lemma sfs_truncate_keeps_block_witness :
  (exists s', sfs_truncate 200 (512 * Z.of_nat 15) fs0 = Fail EIO s') \/
  exists sv' s', sfs_truncate 200 (512 * Z.of_nat 15) fs0 = Done tt s' /\ s_objs s' !! 200 = Some sv' /\
    sfi_size (sv_i sv') = 512 * Z.of_nat 15 /\ fblock (disk s') (sv_i sv') 15 = fblock (disk fs0) inode0 15 /\
    bit (s_freemap s') (fblock (disk fs0) inode0 15) = true.
Proof.
  apply (sfs_truncate_keeps_block fs0 200 file0 15 fs0_ok fs0_file); [unfold NBLOCKS; lia|vm_compute; done].
Defined.


(** ** Volumes *)

Lemma k1_heap : exists B, heap_rep Examples.k1 B.
Proof.
  destruct (SynchInv.SynchInv.kreach_ok 0 100 ∅ Examples.k0 [SynchInv.SynchInv.EvLock Examples.lk] Examples.k1 Examples.k0_ok Examples.k1_reach)
    as [(F & K) _].
  exact (kernel_heap 0 F Examples.k1 K).
Qed.

Lemma k1_idle : idle_lock 0 Examples.k1 Examples.lk.
Proof.
  destruct (SynchInv.SynchInv.kreach_ok 0 100 ∅ Examples.k0 [SynchInv.SynchInv.EvLock Examples.lk] Examples.k1 Examples.k0_ok Examples.k1_reach)
    as [K _].
  split; [exact K|]. split; [vm_compute; discriminate|vm_compute; reflexivity].
Qed.

Lemma lk_nz : Examples.lk <> 0.
Proof. vm_compute. discriminate. Qed.

Lemma k1_room : EmuKernel.roomy_rq Examples.k1.
Proof. unfold EmuKernel.roomy_rq, SynchInv.SynchInv.room_rq. vm_compute. eexists. split; [reflexivity|done]. Qed.

(** The disk with its map, and the volume with its map not written yet and a file
    loaded whose inode was changed. *)
Definition disk1 : Lhd.lhd_softc card := lhd_on (mkcard (<[2%nat := v map0]> image0)) 12.
Definition inode1 : sfs_inode := mkinode 7790 SFS_TYPE_FILE 2 (4 :: replicate 14 0) 5 (replicate 110 0).
Definition file1 : sfs_vnode := mksv (mkvnode 1 0 Examples.lk 100 200 (Some sfs_fileops)) inode1 3 true.
Definition fs1 : sfs_fs kernel (Lhd.lhd_softc card) :=
  mksfs Examples.k1 c0 (lhd_on (mkcard image0) 12) 100 super0 false (Array.mkarray 300 1 1 304 [Some 200]) {[200 := file1]} map0 true.

Lemma fs1_ok : vol_ok Sound fs1.
Proof. pose proof fs0_ok as []. by split. Qed.

Lemma super0_ok : super_ok super0.
Proof. refine (conj _ (conj _ (conj _ (conj _ _)))); [by vm_compute|by vm_compute|done|done|by apply words_ok]. Qed.

Lemma fs1_layout : layout fs1.
Proof. split; [exact super0_ok|done|done|vm_compute; reflexivity|vm_compute; discriminate]. Qed.

Lemma fs1_stored : stored fs1.
Proof. split; [intros _; vm_compute; reflexivity|done]. Qed.

Lemma disk1_ok : dev_ok Sound disk1.
Proof. split; [unfold Lhd.lhd_ok; vm_compute; repeat split; done|intros _; apply card_hw_sound]. Qed.

Lemma disk1_mountable : mountable disk1 super0 (v map0).
Proof.
  split.
  - exists (super_bytes super0). split; vm_compute; reflexivity.
  - intros _. vm_compute. repeat split; discriminate.
  - intros _. split; [vm_compute; reflexivity|]. intros [|j] Hj; [vm_compute; reflexivity|].
    change (mapsize (sp_nblocks super0)) with 1%nat in Hj. lia.
Qed.

Lemma sfs_domount_correct_witness : exists B d' k', same_data Sound disk1 d' /\
  ((exists e, sfs_domount (Examples.k1, (c0, disk1)) = Fail e (k', (c0, d')) /\ heap_rep k' B /\ mount_error super0 e) \/
   (exists s, sfs_domount (Examples.k1, (c0, disk1)) = Done s (k', (c0, d')) /\ s_kern s = k' /\ s_ctx s = c0 /\ s_dev s = d' /\
      mounted super0 (v map0) s)).
Proof.
  destruct k1_heap as [B R]. exists B.
  exact (sfs_domount_correct Examples.k1 c0 disk1 B super0 (v map0) R disk1_ok eq_refl disk1_mountable).
Defined.

#[local] Existing Instances EmuKernel.kernel_lock_spec EmuKernel.kernel_lock_frame.

Lemma fs1_in p : in_table fs1 p -> p = 200.
Proof. intros (j & Hj & E). destruct j as [|j]; [by injection E|]. simpl in Hj. lia. Qed.

Lemma fs1_vnode : vnode_ok (LockSpec0 := EmuKernel.kernel_lock_spec 0) fs1 200 file1.
Proof.
  split.
  - reflexivity.
  - split; discriminate.
  - eexists. reflexivity.
  - discriminate.
  - split; [reflexivity|discriminate].
  - split; [exact k1_idle|]. split; [exact lk_nz|exact k1_room].
  - refine (conj _ (conj _ (conj _ (conj _ (conj _ (conj _ (conj _ _)))))));
      [by vm_compute|by vm_compute|by vm_compute|done|by apply words_ok|by vm_compute|done|by apply words_ok].
  - right. apply Z.leb_le. reflexivity.
  - split; reflexivity.
  - discriminate.
Qed.

Lemma fs1_table : vtable_ok (LockSpec0 := EmuKernel.kernel_lock_spec 0) fs1.
Proof.
  split.
  - split; simpl; unfold Array.MAXGUYS; try done; lia.
  - intros [|j] Hj; [by exists 200|]. simpl in Hj. lia.
  - intros p ->%fs1_in. exists file1. exact fs1_vnode.
  - by intros p q sv sv' ->%fs1_in ->%fs1_in.
Qed.

Lemma sync_mount_roundtrip_witness : exists B s1, sfs_sync fs1 = Done tt s1 /\ exists k' d',
  ((exists e, sfs_domount (Examples.k1, (c0, s_dev s1)) = Fail e (k', (c0, d')) /\ heap_rep k' B /\ (e = ENOMEM \/ e = EIO)) \/
   (exists s', sfs_domount (Examples.k1, (c0, s_dev s1)) = Done s' (k', (c0, d')) /\ s_super s' = super0 /\
      (forall b, bit (s_freemap s') b = bit map0 b) /\ inode_of_bytes <$> disk s' !! 3%nat = Some inode1)).
Proof.
  destruct k1_heap as [B R]. exists B.
  destruct (sync_mount_roundtrip (LockSpec0 := EmuKernel.kernel_lock_spec 0) fs1 Examples.k1 c0 B fs1_ok fs1_layout fs1_stored fs1_table R eq_refl)
    as (s1 & E & _ & k' & d' & H).
  exists s1. split; [exact E|]. exists k', d'. destruct H as [H|(s' & Em & Hs & _ & Hb & _ & _ & _ & Hi)]; [left; exact H|right].
  exists s'. split; [exact Em|]. split; [exact Hs|]. split; [exact Hb|].
  refine (Hi 200 file1 _ eq_refl). exists 0%nat. split; [simpl; lia|reflexivity].
Defined.


(** ** Directories *)

(** A directory of two slots in sector 7: the name ``f'' for inode 3, and an empty slot. *)
Definition inode2 : sfs_inode := mkinode 128 SFS_TYPE_DIR 1 (7 :: replicate 14 0) 0 (replicate 110 0).
Definition image2 : list (list Z) := <[7%nat := dir_bytes entry0 ++ dir_bytes (new_entry 0 [])]> image0.
Definition map2 : bitmap := mkbitmap 1 4096 2 (255 :: 240 :: replicate 510 255).
Definition dir2 : sfs_vnode := mksv (mkvnode 1 0 Examples.lk 100 200 (Some sfs_dirops)) inode2 1 false.
Definition fs2 : sfs_fs kernel (Lhd.lhd_softc card) :=
  mksfs Examples.k1 c0 (lhd_on (mkcard image2) 12) 100 super0 false (Array.mkarray 300 1 1 304 [Some 200]) {[200 := dir2]} map2 false.

Lemma fs2_ok : vol_ok Sound fs2.
Proof.
  split.
  - split; [unfold Lhd.lhd_ok; vm_compute; repeat split; done|intros _; apply card_hw_sound].
  - done.
  - split; [by vm_compute|by vm_compute| |].
    + apply Forall_cons; split; [lia|]. apply Forall_cons; split; [lia|]. apply Forall_replicate. lia.
    + intros i Hi. change (nbits (s_freemap fs2)) with 4096 in Hi.
      change (BITS_PER_WORD * Z.of_nat (length (v (s_freemap fs2)))) with 4096 in Hi. lia.
  - change (length (disk fs2)) with 12%nat. simpl. lia.
  - simpl. lia.
  - simpl. lia.
  - simpl. intros b Hb. apply (bits_range map2 12 4084); [vm_compute; reflexivity|lia].
  - vm_compute. reflexivity.
Qed.

Lemma fs2_blocks : blocks (disk fs2) inode2 = [7].
Proof. vm_compute. reflexivity. Qed.

Lemma fs2_slot1 : sfd_ino (dent (disk fs2) inode2 1) = SFS_NOINO.
Proof. vm_compute. reflexivity. Qed.

Lemma fs2_slot0 : slot_binds (disk fs2) inode2 0 [102] 3.
Proof. split; [apply Nat.ltb_lt; vm_compute; reflexivity|]. split; [done|]. split; vm_compute; reflexivity. Qed.

Lemma fs2_dir : dirfile_ok fs2 200 dir2.
Proof.
  split; [split; [by vm_compute|done| |]; simpl sv_i; rewrite fs2_blocks|done|vm_compute; split; discriminate|done|].
  - apply NoDup_singleton.
  - intros b ->%list_elem_of_singleton. split; [simpl; lia|vm_compute; reflexivity].
  - simpl sv_i. assert (Hz : forall j name i, slot_binds (disk fs2) inode2 j name i -> j = 0%nat).
    { intros j name i (Hj & Hi & E & _). change (nslots inode2) with 2%nat in Hj. destruct j as [|[|j]]; [done| |lia].
      rewrite fs2_slot1 in E. congruence. }
    intros j k name i1 i2 H1 H2. by rewrite (Hz _ _ _ H1), (Hz _ _ _ H2).
Qed.

Lemma sfs_dir_findname_correct_witness : exists d, same_data Sound (s_dev fs2) d /\
  ((exists ino (j : nat) empty, sfs_dir_findname 200 [102] fs2 = Done (Some (ino, Z.of_nat j), empty) (set_dev d fs2) /\
      slot_binds (disk fs2) inode2 j [102] ino) \/
   (exists m, sfs_dir_findname 200 [102] fs2 = Fail EIO (after_read fs2 d (set_umem m c0)))).
Proof.
  destruct (sfs_dir_findname_correct fs2 200 dir2 [102] fs2_ok fs2_dir) as (d & Hd & [H|[(e & _ & Hno & _)|H]]).
  - exists d. split; [exact Hd|]. left. exact H.
  - destruct (Hno 3). exists 0%nat. exact fs2_slot0.
  - exists d. split; [exact Hd|]. right. exact H.
Defined.

Lemma sfs_dir_link_correct_witness : exists sv' s', s_objs s' !! 200 = Some sv' /\
  ((exists e, sfs_dir_link 200 [103] 5 fs2 = Fail e s' /\
      forall nm i, binds (disk s') (sv_i sv') nm i <-> binds (disk fs2) inode2 nm i) \/
   (exists slot, sfs_dir_link 200 [103] 5 fs2 = Done slot s' /\
      forall nm i, binds (disk s') (sv_i sv') nm i <-> nm = [103] /\ i = 5 \/ binds (disk fs2) inode2 nm i)).
Proof.
  assert (H0 : 0 ∉ [103]) by (intros H%list_elem_of_singleton; done).
  destruct (sfs_dir_link_correct fs2 200 dir2 [103] 5 fs2_ok fs2_dir H0 ltac:(by vm_compute) ltac:(done))
    as (sv' & s' & _ & Ho & _ & [(e & E & _ & H)|(slot & E & _ & _ & H)]); exists sv', s'; (split; [exact Ho|]).
  - left. exists e. split; [exact E|exact H].
  - right. exists slot. split; [exact E|exact H].
Defined.

Lemma sfs_dir_unlink_correct_witness : exists sv' s', grows Sound 200 dir2 sv' fs2 s' /\ dirfile_ok s' 200 sv' /\
  ((sfs_dir_unlink 200 (Z.of_nat 0) fs2 = Done tt s' /\
    forall nm i, binds (disk s') (sv_i sv') nm i <-> binds (disk fs2) inode2 nm i /\ nm <> [102]) \/
   (exists e, sfs_dir_unlink 200 (Z.of_nat 0) fs2 = Fail e s' /\ (e = ENOSPC \/ e = EIO) /\
    forall nm i, binds (disk s') (sv_i sv') nm i <-> binds (disk fs2) inode2 nm i)).
Proof. exact (sfs_dir_unlink_correct fs2 200 dir2 0 [102] 3 fs2_ok fs2_dir fs2_slot0). Defined.


(** ** The last reference *)

Lemma fs0_quiet : quiet 0 fs0 200 file0.
Proof. split; [reflexivity|exact k1_idle|exact lk_nz]. Qed.

Lemma fs0_table : table_ok fs0.
Proof.
  split; [split; simpl; unfold Array.MAXGUYS; try done; lia|]. intros [|n] Hn; [by exists 200|].
  change (Z.to_nat (Array.num (s_vnodes fs0))) with 1%nat in Hn. lia.
Qed.

Lemma last_decref_panics_witness : VOP_DECREF 200 fs0 = Panic.
Proof.
  apply (last_decref_panics 0 fs0 200 file0 sfs_fileops fs0_quiet fs0_table); done.
Defined.

End ExamplesFs.
