(* ===== verification/ExamplesVm.v ===== *)
(** * Concrete inputs for virtual memory

    An address space built by running the definitions, and the theorems of VmInv.v on it. *)

From S2P Require Import Prelude Kmalloc Ram Kheap Thread Boot Vm VmInv.
Import Ram Thread Boot Vm VmInv.

Module ExamplesVm.

(** A machine with 64 pages and one thread, its TLB reset from all zero. *)
Definition th0 : thread := mkthread (mkpcb AtStart 0) 0 0 0 0 [] 0 0.
Definition tlb0 : list (Z * Z) := replicate 64 (0, 0).
Definition v0 : vmsys unit :=
  mkvm (mktsys (heap0 64) {[500 := th0]} 500 0 None None None 1 0 0 tt) ∅ (default [] (TLB_Reset tlb0)) ∅.

Lemma v0_boot : vm_boot v0.
Proof.
  split.
  - exists ∅. apply heap0_rep. lia.
  - done.
  - intros t th Ht. change (({[500 := th0]} : gmap Z thread) !! t = Some th) in Ht.
    apply lookup_singleton_Some in Ht as [_ <-]. done.
  - exists tlb0. split; [done|]. vm_compute. reflexivity.
Qed.

(** A program with one page of code at 0x400000 and one of data at 0x10000000. *)
Definition ap : Z := result 0 (as_create v0).
Definition v1 := after v0 (as_create v0).
Definition v2 := after v0 (as_define_region ap 4194304 100 v1).
Definition v3 := after v0 (as_define_region ap 268435456 4096 v2).
Definition v4 := after v0 (as_prepare_load ap v3).
Definition v5 := after v0 (enter_space ap v4).
Definition a2 : addrspace := default no_as (spaces v2 !! ap).
Definition a5 : addrspace := default no_as (spaces v5 !! ap).

Lemma ran_after {S A} (d : S) (o : outcome S A) :
  match o with Done _ _ | Fail _ _ => True | _ => False end -> ran o (after d o).
Proof. by destruct o. Qed.

Lemma done_tt {S} (d : S) (o : outcome S unit) : match o with Done _ _ => True | _ => False end -> o = Done tt (after d o).
Proof. by destruct o as [[]| | | |]. Qed.

Lemma done_result {S} (d : S) (o : outcome S Z) : match o with Done _ _ => True | _ => False end -> o = Done (result 0 o) (after d o).
Proof. by destruct o. Qed.

Lemma v5_reach : rtc vm_step v0 v5.
Proof.
  apply (rtc_l _ v0 v1). { apply (st_create v0 v1 ap). apply done_result. by vm_compute. }
  apply (rtc_l _ v1 v2).
  { apply (st_define v1 v2 ap no_as 4194304 100); [by vm_compute|by vm_compute|unfold seg_fits, SEGMAX, MAXPAGES, PAGE_SIZE; lia|]. apply ran_after. by vm_compute. }
  apply (rtc_l _ v2 v3).
  { apply (st_define v2 v3 ap a2 268435456 4096); [by vm_compute|by vm_compute|unfold seg_fits, SEGMAX, MAXPAGES, PAGE_SIZE; lia|]. apply ran_after. by vm_compute. }
  apply (rtc_l _ v3 v4).
  { apply (st_prepare v3 v4 ap (default no_as (spaces v3 !! ap))); [by vm_compute|by vm_compute|]. apply ran_after. by vm_compute. }
  apply (rtc_l _ v4 v5); [|apply rtc_refl].
  apply (st_enter v4 v5 ap (default no_as (spaces v4 !! ap))); [by vm_compute| |apply done_tt; by vm_compute].
  exists th0. split; by vm_compute.
Qed.

Lemma v5_space : spaces v5 !! ap = Some a5.
Proof. by vm_compute. Qed.
Lemma v5_current : current v5 ap.
Proof. exists (set_vmspace ap th0). split; by vm_compute. Qed.
Lemma a5_loaded : loaded a5.
Proof. vm_compute. split_and!; intros H; discriminate H. Qed.

Lemma user_memory_isolated_witness :
  (forall p a w va pa, current v5 p -> spaces v5 !! p = Some a -> 0 <= va < USERTOP -> mmu (tlb v5) w va = inr pa -> paddr v5 p va = Some pa) /\
  (forall p q va wa pa, paddr v5 p va = Some pa -> paddr v5 q wa = Some pa -> p = q /\ va = wa).
Proof. destruct (user_memory_isolated v0 v5 v0_boot v5_reach) as (H1 & H2 & _). exact (conj H1 H2). Defined.

Lemma user_memory_correct_witness : exists B,
  ((exists s', store_byte 268435460 7 v5 = Done tt s' /\ vm_ok s' B /\ view s' ap 268435460 = Some 7 /\
      forall q wa, (q, wa) <> (ap, 268435460) -> view s' q wa = view v5 q wa) \/
   (store_byte 268435460 7 v5 = Fail EFAULT v5 /\
    (translate a5 268435460 = None \/ Forall (fun e => tlb_valid e /\ ~ tlb_match (page 268435460) e) (tlb v5)))).
Proof.
  destruct (reachable_ok v0 v5 v0_boot v5_reach) as [B O]. exists B.
  apply (user_memory_correct v5 B ap a5 268435460 7 O v5_current v5_space a5_loaded). by vm_compute.
Defined.

Lemma as_copy_correct_witness :
  (exists q s' B', as_copy ap v5 = Done q s' /\ vm_ok s' B' /\ spaces v5 !! q = None /\
     (forall va, view s' q va = view v5 ap va) /\ (forall r va, r <> q -> view s' r va = view v5 r va)) \/
  (exists s' B', as_copy ap v5 = Fail ENOMEM s' /\ vm_ok s' B' /\ spaces s' = spaces v5 /\
     forall r va, view s' r va = view v5 r va).
Proof.
  destruct (reachable_ok v0 v5 v0_boot v5_reach) as [B O].
  exact (as_copy_correct v5 B ap a5 O v5_space a5_loaded).
Defined.

Lemma TLB_Reset_terminates_witness :
  exists t', TLB_Reset tlb0 = Some t' /\ length t' = Z.to_nat NUM_TLB /\ Forall dead t' /\
    (forall j k e f, t' !! j = Some e -> t' !! k = Some f -> epage e = epage f -> j = k) /\
    (forall j e i, t' !! j = Some e -> 0 <= i < NUM_TLB -> epage e <> TLBHI_INVALID i).
Proof. exact (TLB_Reset_terminates tlb0 eq_refl). Defined.

End ExamplesVm.
