(* ===== verification/ExamplesVfs.v ===== *)
(** * Concrete inputs: the name space

    The kernel of Examples.v with the null device and a disk that holds a volume, named
    ``vol'', with one file, ``f''; the table of devices is built by the code. *)

From S2P Require Import Prelude Kmalloc Array Bitmap Kheap Thread Synch SynchInv ThreadInv Boot Uio Blockdev Lhd Vnode Vfs VfsPath VfsList Sfs Devfs FsKernel Examples ExamplesFs.
Import Uio Vnode Vfs VfsPath VfsList Devfs FsKernel.
#[local] Existing Instances Lhd.lhd_device Boot.no_vnodes Boot.no_vnodes_laws ExamplesFs.card_hw.

Module ExamplesVfs.

Abbreviation world0 := (world kernel (Lhd.lhd_softc ExamplesFs.card)).

Definition root_inode : Sfs.sfs_inode := Sfs.mkinode 64 Sfs.SFS_TYPE_DIR 1 (3 :: replicate 14 0) 0 (replicate 110 0).
Definition file_inode : Sfs.sfs_inode := Sfs.mkinode 3 Sfs.SFS_TYPE_FILE 1 (5 :: replicate 14 0) 0 (replicate 110 0).
Definition vol_super : Sfs.sfs_super := Sfs.mksuper Sfs.SFS_MAGIC 12 ([118; 111; 108] ++ replicate 29 0) (replicate 118 0).
Definition image : list (list Z) :=
  [Sfs.super_bytes vol_super; Sfs.inode_bytes root_inode; 63 :: 240 :: replicate 510 255;
   Sfs.dir_bytes (Sfs.mkdir 4 (102 :: replicate 59 0)); Sfs.inode_bytes file_inode; [1; 2; 3]; []; []; []; []; []; []].

(** The disk is the device at address 5000. *)
Definition w0 : world0 :=
  mkworld Examples.k0 ExamplesFs.c0 {[5000 := Disk (ExamplesFs.lhd_on (ExamplesFs.mkcard image) 12)]} ∅ ∅.
Definition s00 : vfs world0 := mkvfs w0 (Array.mkarray 0 0 0 0 []) ∅ 0 0 0 0.

Definition lhd0 : list Z := [108; 104; 100; 48].
Definition boot : M (vfs world0) unit := vfs_bootstrap ;; vfs_adddev lhd0 5000 true.
Definition s0 := Boot.after s00 (boot s00).
Definition s1 := Boot.after s00 (vfs_mount lhd0 sfs_mountfunc s0).

(** The volume, whose root directory is then in use as the boot file system. *)
Definition vol : list Z := [118; 111; 108].
Definition s2 := Boot.after s00 (vfs_setbootfs vol s1).

(** ** References *)

(** The same state with an empty record of the references. *)
Definition logged_of (s : vfs world0) : vfs (world0 * list event) :=
  mkvfs (v_w s, []) (v_knowndevs s) (v_kds s) (v_lock s) 0 (v_bootlock s) (v_cwd s).

Definition open_f : vcall (W := world0) := COpen (vol ++ [COLON; 102]) O_RDONLY.
Definition opened : Z := default 0 (Boot.result None (run_vcall open_f (logged_of s2))).
Definition s3 := Boot.after (logged_of s2) (run_vcall open_f (logged_of s2)).

Lemma open_f_eq : run_vcall open_f (logged_of s2) = Done (Some opened) s3.
Proof. unfold s3. apply Examples.done_eq. vm_compute. reflexivity. Qed.
Lemma opened_nz : opened <> 0.
Proof. vm_compute. discriminate. Qed.

Lemma vfs_refs_balanced_witness :
  run_vcall open_f (logged_of s2) = Done (Some opened) s3 /\ held s3 opened =
    held (logged_of s2) opened + returned (Some opened) opened - handed open_f opened + one 0 opened.
Proof.
  split; [exact open_f_eq|]. pose proof (vfs_refs_balanced open_f (logged_of s2)) as H. revert H. rewrite open_f_eq.
  intros (x & -> & H). exact (H opened opened_nz).
Defined.

(** A device whose name is taken: the vnode made for it is left over, with its reference. *)
Definition add_again := run_vcall (CAdddev lhd0 6000 true) (logged_of s2).
Definition vnodes_left : list Z :=
  match add_again with Fail EEXIST s => (fun v => held s v) <$> remove_dups (omap (fun e => match e with Got v => Some v | _ => None end) (v_w s).2) | _ => [] end.
Lemma adddev_leaves_vnode : vnodes_left = [1].
Proof. by vm_compute. Qed.

(** ** Paths *)

Lemma getdevice_correct_witness :
  getdevice (vol ++ COLON :: [SLASH; 102]) s2 = (v ← vfs_getroot vol; mret ([102], v)) s2.
Proof.
  destruct (getdevice_correct s2 vol [SLASH; 102]) as (H & _).
  - repeat (apply Forall_cons; split; [intros [?|?]; discriminate|]). by apply Forall_nil.
  - exact (H ltac:(done)).
Defined.

(** ** The table *)

(** The running thread holds the lock of the table; a character device named ``vol'' and the disk
    are known. *)
Definition kd_a : knowndev := mkkd vol None 6000 7000 0.
Definition kd_b : knowndev := mkkd lhd0 (Some (lhd0 ++ raw_suffix)) 5000 7001 0.
Definition w2 : world0 := mkworld Examples.k2 (w_ctx w0) (w_devs w0) ∅ ∅.
Definition t2 : vfs world0 :=
  mkvfs w2 (Array.mkarray 300 2 2 304 [Some 10; Some 20]) {[10 := kd_a; 20 := kd_b]} Examples.lk 0 0 0.
Definition L2 : list (Z * knowndev) := [(10, kd_a); (20, kd_b)].

Lemma distinct_nil (w : world0) : distinct w [].
Proof. intros i j p q a b n Hi. by rewrite lookup_nil in Hi. Qed.

Lemma no_clash (w : world0) L kd : clashes w L (names w kd) = false ->
  forall i q b n, L !! i = Some (q, b) -> named w b n -> ~ named w kd n.
Proof.
  intros Hc i q b n Hi Hb Hk. assert (clashes w L (names w kd) = true) as Ht; [|congruence].
  apply clashes_spec. by exists i, q, b, n.
Qed.

Lemma L2_table : dev_table t2 L2.
Proof.
  constructor; [split; simpl; done|done| |].
  - intros [|[|[|i]]] p kd Hi; simpl in Hi; simplify_eq; done.
  - intros [|[|[|i]]] p kd Hi; simpl in Hi; simplify_eq; intros Hf; by destruct Hf.
Qed.

Lemma L2_distinct : distinct w2 L2.
Proof.
  apply (distinct_snoc w2 [(10, kd_a)] 20 kd_b); [apply (distinct_snoc w2 [] 10 kd_a); [apply distinct_nil|]|]; by apply no_clash.
Qed.

Lemma t2_holds : Vfs.lock_do_i_hold (v_lock t2) (v_w t2) = Done 1 (v_w t2).
Proof. vm_compute. reflexivity. Qed.

Lemma vfs_getroot_correct_witness :
  vfs_getroot vol t2 = locked (serve w2 kd_a vol) t2 /\ vfs_getroot [99] t2 = locked (fail ENODEV) t2.
Proof.
  split.
  - apply (proj1 (vfs_getroot_correct t2 L2 vol L2_table L2_distinct) 0%nat 10 kd_a eq_refl). by left.
  - apply (proj2 (vfs_getroot_correct t2 L2 [99] L2_table L2_distinct)).
    intros [|[|[|i]]] p kd Hi; simpl in Hi; simplify_eq; by intros [?|[?|?]].
Defined.

(** The volume mounted on the disk. *)
Definition vol_at : Z := Boot.result 0 (sfs_mountfunc 5000 w2).
Definition w3 : world0 := Boot.after w2 (sfs_mountfunc 5000 w2).

Lemma w3_eq : sfs_mountfunc 5000 w2 = Done vol_at w3.
Proof. unfold w3. apply Examples.done_eq. vm_compute. reflexivity. Qed.

Lemma w3_volumes g : g <> vol_at -> volumes w3 g = volumes w2 g.
Proof.
  intros Hg. cbn [volumes devfs_volnames]. unfold volume_names.
  assert (E : delete vol_at (w_vols w3) = ∅) by (vm_compute; reflexivity).
  assert (Hn : w_vols w3 !! g = None) by (rewrite <- (lookup_delete_ne (w_vols w3) vol_at g) by done; by rewrite E).
  by rewrite Hn.
Qed.

Lemma vfs_mount_hides_witness :
  exists s', mount_body lhd0 sfs_mountfunc t2 = Done tt s' /\
    ~ distinct (v_w s') (<[1%nat := (20, set_fs vol_at kd_b)]> L2) /\
    vfs_getroot vol s' = locked (serve (v_w s') kd_a vol) s'.
Proof.
  destruct (vfs_mount_hides t2 L2 0 1 10 kd_a 20 kd_b sfs_mountfunc vol_at w3) as (s' & H1 & _ & H2 & H3).
  - exact L2_table.
  - exact L2_distinct.
  - apply (bool_decide_unpack (NoDup [10; 20])). by vm_compute.
  - exact t2_holds.
  - reflexivity.
  - reflexivity.
  - lia.
  - done.
  - done.
  - done.
  - exact w3_eq.
  - by vm_compute.
  - exact w3_volumes.
  - intros [|[|[|i]]] p kd Hi; simpl in Hi; simplify_eq; by vm_compute.
  - by vm_compute.
  - exists s'. split; [exact H1|]. split; [exact H2|exact H3].
Defined.

(** ** Adding a device *)

(** An empty table, allocated in the kernel of [w2]. *)
Definition tab_at : Z := Boot.result 0 (kmalloc Array.sizeof_array Examples.k2).
Definition k2a : kernel := Boot.after Examples.k2 (kmalloc Array.sizeof_array Examples.k2).
Lemma k2a_eq : kmalloc Array.sizeof_array Examples.k2 = Done tab_at k2a.
Proof. unfold k2a. apply Examples.done_eq. vm_compute. reflexivity. Qed.

Lemma tab_at_nz : tab_at <> 0.
Proof. vm_compute. discriminate. Qed.

Lemma Done_inj {S A} {a b : A} {s t : S} : Done a s = Done b t -> a = b /\ s = t.
Proof. by intros [=]. Qed.

Lemma k2a_rep : exists B, heap_rep k2a B /\ B !! tab_at = Some Array.sizeof_array.
Proof.
  destruct (SynchInv.SynchInv.kreach_ok _ _ _ _ _ _ Examples.k0_ok Examples.k2_reach) as [[F Hk] _].
  destruct (kernel_heap 0 F Examples.k2 Hk) as [B R].
  destruct (kmalloc_spec Examples.k2 B Array.sizeof_array R ltac:(by vm_compute)) as [(h & E & _)|(p & h & E & Hp & HB & R')].
  - destruct (Done_inj (eq_trans (eq_sym k2a_eq) E)) as [Ha _]. by destruct tab_at_nz.
  - destruct (Done_inj (eq_trans (eq_sym k2a_eq) E)) as [<- <-]. exists (<[tab_at := Array.sizeof_array]> B).
    split; [exact R'|]. apply lookup_insert_eq.
Qed.

Definition t3 : vfs world0 :=
  mkvfs (set_kern k2a w2) (Array.mkarray tab_at 0 0 0 []) {[20 := kd_b]} Examples.lk 0 0 0.

Lemma t3_holds : Vfs.lock_do_i_hold (v_lock t3) (v_w t3) = Done 1 (v_w t3).
Proof. vm_compute. reflexivity. Qed.

Lemma add_checked_unique_witness :
  exists s', dev_table s' [(20, kd_b)] /\ distinct (v_w s') [(20, kd_b)] /\
    add_checked 20 lhd0 (Some (lhd0 ++ raw_suffix)) None t3 = Done tt s'.
Proof.
  destruct k2a_rep as (B & R & HB).
  pose proof (add_checked_unique t3 [] B 20 kd_b) as H. cbv zeta in H.
  assert (E : match add_checked 20 lhd0 (Some (lhd0 ++ raw_suffix)) None t3 with Done _ _ => True | _ => False end) by by vm_compute.
  change (add_checked 20 (kd_name kd_b) (kd_rawname kd_b) (vol_of (v_w t3) kd_b) t3) with
    (add_checked 20 lhd0 (Some (lhd0 ++ raw_suffix)) None t3) in H.
  destruct (add_checked _ _ _ _ t3) as [[] s'| | | |]; try done. exists s'.
  destruct H as (_ & H1 & H2 & _); [..|split; [exact H1|split; [exact H2|reflexivity]]].
  - constructor; [by split|done|..]; intros i p kd Hi; by rewrite lookup_nil in Hi.
  - apply distinct_nil.
  - exact t3_holds.
  - exact R.
  - split; [exact HB|done|by vm_compute].
  - by vm_compute.
  - done.
  - intros Hf. by destruct Hf.
Defined.

End ExamplesVfs.
