(* ===== verification/ExamplesMk.v ===== *)
(** * Concrete inputs: making a file system

    A disk image in memory whose calls move a few bytes at a time and are interrupted. *)

From Stdlib Require Import ZifyNat.
From S2P Require Import Prelude Kmalloc Array Bitmap Kheap Thread Synch Boot Uio Blockdev Lhd Vnode Sfs SfsBlock SfsVol FsKernel Examples ExamplesFs Mksfs MksfsVol.
Import Uio Vnode Sfs SfsBlock SfsVol FsKernel Mksfs MksfsVol.
#[local] Existing Instances Lhd.lhd_device Lhd.lhd_spec Boot.no_vnodes ExamplesFs.card_hw ExamplesFs.card_hw_spec.

Module ExamplesMk.

(** The bytes, the position and the interruptions to come. *)
Record memfile := mkmem { m_bytes : list Z; m_pos : nat; m_intr : nat }.

(** At most 200 bytes are moved by one call; a call of [write] may be interrupted. *)
Definition mem_write (data : list Z) (h : memfile) : iores * memfile :=
  match m_intr h with
  | S k => (Again, mkmem (m_bytes h) (m_pos h) k)
  | O => let n := Nat.min 200 (length data) in
      (Moved (Z.of_nat n) [], mkmem (list_inserts (m_pos h) (take n data) (m_bytes h)) (m_pos h + n) 0)
  end.
Definition mem_read (n : Z) (h : memfile) : iores * memfile :=
  let k := Nat.min 200 (Z.to_nat n) in
  (Moved (Z.of_nat k) (take k (drop (m_pos h) (m_bytes h))), mkmem (m_bytes h) (m_pos h + k) (m_intr h)).

#[export] Instance mem_host : Host memfile := {
  sys_open := fun h => (true, mkmem (m_bytes h) 0 (m_intr h));
  sys_size := fun h => Some (Z.of_nat (length (m_bytes h)));
  sys_lseek := fun o h => (true, mkmem (m_bytes h) (Z.to_nat o) (m_intr h));
  sys_read := mem_read;
  sys_write := mem_write;
  sys_close := fun h => (true, h);
}.

#[export] #[refine] Instance mem_spec : HostSpec memfile := {|
  h_bytes := m_bytes; h_pos := m_pos; h_tries := m_intr; h_ready := fun _ => True;
|}.
Proof.
  - done.
  - intros h o _ Ho. exists (mkmem (m_bytes h) o (m_intr h)). split; [cbn [sys_lseek mem_host]; by rewrite Nat2Z.id|]. done.
  - intros h data _ Hd Hl. cbn [sys_write mem_host]. unfold mem_write. destruct (m_intr h) as [|k] eqn:E.
    + left. assert (length data <> 0)%nat by (by destruct data). eexists _, _, []. split; [reflexivity|]. split; [lia|]. cbn [m_bytes m_pos m_intr].
      split; [done|]. split; [done|]. split; [done|lia].
    + right. eexists. split; [reflexivity|]. cbn. split; [done|]. split; [done|]. lia.
  - intros h n _ Hn Hl. left. cbn [sys_read mem_host]. unfold mem_read. rewrite Nat2Z.id. eexists _, _. split; [reflexivity|].
    split; [lia|]. done.
  - intros h _. by exists h.
Defined.

(** An image of three blocks, with its header. *)
Definition image3 : memfile := mkmem (HOSTSTRING ++ replicate (2048 - 21) 7) 5 3.
Definition prog3 : prog := mkprog image3 false 0 empty_buf.

Lemma image3_file : disk_file true image3 3.
Proof.
  split; [by vm_compute|]. eexists. split; [reflexivity|]. split; [done|]. split; [done|]. split; [done|].
  eexists _, _, _. split; [reflexivity|]. split; [done|]. split; [done|]. split; [done|]. by vm_compute.
Qed.

Lemma mksfs_mount_roundtrip_witness :
  exists p' : prog, main true 600 [118; 58] prog3 = Done 0 p' /\
    (forall c, (c < 1 \/ 1 + 2 + mapsize 3 <= c)%nat -> sector (m_bytes (p_host p')) c = sector (m_bytes image3) c).
Proof.
  destruct (mksfs_mount_roundtrip (K := kernel) (D := Lhd.lhd_softc ExamplesFs.card) Blockdev.Worn true 600 [118; 58] [118] 3 prog3) as (p' & E & H & _).
  - reflexivity.
  - reflexivity.
  - exact image3_file.
  - by vm_compute.
  - reflexivity.
  - simpl. lia.
  - intros Hin. apply list_elem_of_singleton in Hin. done.
  - simpl. lia.
  - exists p'. split; [exact E|exact H].
Defined.

End ExamplesMk.
