(* ===== verification/ExamplesStop.v ===== *)
(** * Concrete inputs: the intersection

    The kernel of Examples.v, the locks of the three segments, two queues and a vehicle, all made
    by the code. *)

From S2P Require Import Prelude Kmalloc Kheap Thread Synch SynchInv Boot FsKernel Stoplight StoplightInv Examples.
Import SynchInv.SynchInv (holders, kreach, EvAcquire, EvRelease).
Import Boot Stoplight.Stoplight StoplightInv.StoplightInv.

Module ExamplesStop.

Definition res {S X} (d : X) (o : outcome S (X + code X)) : X := match o with Done (inl x) _ => x | _ => d end.
Ltac computed := vm_compute; reflexivity.

(** The kernel with interrupts on. *)
Definition k0 : kernel := after Examples.k0 (Synch.kt Thread.spl0 Examples.k0).
Lemma kspl_ok : SynchInv.SynchInv.kok 0 ∅ k0.
Proof.
  destruct Examples.k0_ok as (R & S & Zs & K). exists R, S, Zs. apply (SynchInv.SynchInv.kinv_spl 0 None ∅ Examples.k0); [done|].
  by vm_compute.
Qed.
Definition s00 : st := mkst k0 ∅ ∅ ∅ 0 0 0 0 0 0 0 [].
Lemma s00_run : running 0 s00.
Proof. split; [exists ∅; apply kspl_ok|]. by vm_compute. Qed.

(** The locks of the segments. *)
Definition ab := res 0 (exec (lock_create 6) s00).
Definition s01 := after s00 (exec (lock_create 6) s00).
Definition bc := res 0 (exec (lock_create 6) s01).
Definition s02 := after s00 (exec (lock_create 6) s01).
Definition ca := res 0 (exec (lock_create 6) s02).
Definition s03 := after s00 (exec (lock_create 6) s02).
Definition s0 := set_isegs ab bc ca s03.

Lemma locked_run s l s' : running 0 s -> exec (lock_create 6) s = Done (inl l) s' -> running 0 s'.
Proof.
  intros Hr E. destruct (lock_create_step 0 s 6 Hr ltac:(lia)) as (l' & s1 & E' & H). rewrite E in E'. injection E' as <- <-.
  destruct H as [(_ & h & S & _)|(_ & _ & S)]; exact (sp_run _ _ _ _ S).
Qed.

Lemma isegs_run x y z s : running 0 s -> running 0 (set_isegs x y z s).
Proof. done. Qed.

Lemma s0_run : running 0 s0.
Proof.
  assert (H1 : running 0 s01) by (apply (locked_run s00 ab); [apply s00_run|unfold s01; apply Examples.done_eq; computed]).
  assert (H2 : running 0 s02) by (apply (locked_run s01 bc); [apply H1|unfold s02; apply Examples.done_eq; computed]).
  unfold s0. apply isegs_run, (locked_run s02 ca s03 H2 ltac:(unfold s03; apply Examples.done_eq; computed)).
Qed.

(** Two queues. *)
Definition q1 := res 0 (exec Queue_init s0).
Definition s1 := after s00 (exec Queue_init s0).
Lemma s1_eq : exec Queue_init s0 = Done (inl q1) s1.
Proof. unfold s1. apply Examples.done_eq. computed. Qed.
Definition q2 := res 0 (exec Queue_init s1).
Definition s2 := after s00 (exec Queue_init s1).
Lemma s2_eq : exec Queue_init s1 = Done (inl q2) s2.
Proof. unfold s2. apply Examples.done_eq. computed. Qed.

(** A car from A that turns left. *)
Definition v1 := res 0 (exec (Vehicle_create 1 CAR A L) s2).
Definition s3 := after s00 (exec (Vehicle_create 1 CAR A L) s2).
Lemma s3_eq : exec (Vehicle_create 1 CAR A L) s2 = Done (inl v1) s3.
Proof. unfold s3. apply Examples.done_eq. computed. Qed.

Lemma s2_run : running 0 s2.
Proof.
  destruct (Queue_init_spec 0 s0 q1 s1 s0_run s1_eq ltac:(by vm_compute)) as (d & l & _ & _ & _ & H1 & _).
  by destruct (Queue_init_spec 0 s1 q2 s2 H1 s2_eq ltac:(by vm_compute)) as (d' & l' & _ & _ & _ & H2 & _).
Qed.
Lemma s3_run : running 0 s3.
Proof.
  destruct (create_made 0 s2 1 CAR A L v1 s3 s2_run s3_eq ltac:(by vm_compute)) as (l & a & M).
  exact (md_run _ _ _ _ _ _ _ _ _ _ M).
Qed.

Definition the {X} (d : X) (o : option X) : X := match o with Some x => x | None => d end.
Definition x1 := the (mkQueue 0 0 0) (queues s3 !! q1).
Definition x2 := the (mkQueue 0 0 0) (queues s3 !! q2).
Definition l1 := the 0 (lock_of s3 (head x1)).
Definition l2 := the 0 (lock_of s3 (head x2)).
Definition lv := the 0 (lock_of s3 v1).

Lemma s3_q1 : rep s3 q1 x1 [].
Proof.
  split; [computed|vm_compute; by eexists|computed|]. apply NoDup_singleton.
Qed.

Lemma Queue_produce_appends_witness :
  exists s' x', exec (Queue_produce q1 v1) s3 = Done (inl (s32 (size x1 + 1))) s' /\ rep s' q1 x' [v1] /\
    size x' = s32 (size x1 + 1) /\ (forall q', q' <> q1 -> queues s' !! q' = queues s3 !! q') /\
    running 0 s' /\ holders (kern s') = <[l1 := cur s3]> (holders (kern s3)).
Proof.
  apply (Queue_produce_appends 0 s3 q1 x1 [] v1 l1 lv 0 s3_run s3_q1);
    try (vm_compute; done); try (vm_compute; discriminate).
  intros H%list_elem_of_singleton. by vm_compute in H.
Defined.

(** The car in the first queue, its locks free. *)
Definition d1 := the (mkVehicle None None None None None None None) (vehicles s3 !! head x1).
Definition y1 := mkQueue (head x1) v1 1.
Definition s4 := set_queues (<[q1 := y1]> (queues s3)) (set_vehicles (<[head x1 := set_next (Some v1) d1]> (vehicles s3)) s3).

Lemma moved_run Q V s : running 0 s -> running 0 (set_queues Q (set_vehicles V s)).
Proof. done. Qed.
Lemma s4_run : running 0 s4.
Proof. unfold s4. apply moved_run, s3_run. Qed.

Lemma s4_q1 : rep s4 q1 y1 [v1].
Proof.
  split; [computed| |computed|].
  - exists (set_next (Some v1) d1). split; [computed|]. split; [computed|]. split; [by vm_compute|]. vm_compute. by eexists.
  - apply (bool_decide_unpack _). by vm_compute.
Qed.

Lemma s4_moving : moving s4 q1 q2 y1 x2 v1 [] l1 l2 lv.
Proof.
  split; [apply s4_q1| |by vm_compute|by vm_compute|by vm_compute|by vm_compute].
  split; [computed|vm_compute; by eexists|computed|]. apply NoDup_singleton.
Qed.


Lemma s4_segs : segs_ok s4.
Proof. intros []; (split; [by vm_compute|]); vm_compute; by eexists. Qed.

Lemma s4_waiting : Forall2 (waiting s4) [v1] [lv].
Proof.
  constructor; [|constructor]. split; [by vm_compute..|intros []; by vm_compute|]. exists A, L. by vm_compute.
Qed.

Lemma search_keeps_locks_witness :
  exec (Scheduler_search_for_next_serviceable_vehicle 1 q1) s4 = Panic \/
  exists k, exec (Scheduler_search_for_next_serviceable_vehicle 1 q1) s4 = Done (inl SUCCESS) (set_kern k s4) /\
    running 0 (set_kern k s4) /\ holders k !! l1 = Some 0 /\ (forall l, l ∈ [lv] -> holders k !! l = Some (cur s4)) /\
    (forall l, l ∉ [l1; lv] -> holders k !! l = holders (kern s4) !! l).
Proof.
  apply (search_keeps_locks 0 1 s4 q1 y1 [v1] [lv] l1 s4_run s4_segs s4_q1); [by vm_compute..|intros []; by vm_compute|exact s4_waiting| |done].
  apply (bool_decide_unpack _). by vm_compute.
Defined.

(** The queue as the waiting zone of the cars. *)
Definition r5 := res 0 (exec (Queue_produce q1 v1) s3).
Definition s5 := after s00 (exec (Queue_produce q1 v1) s3).
Lemma s5_eq : exec (Queue_produce q1 v1) s3 = Done (inl r5) s5.
Proof. unfold s5. apply Examples.done_eq. computed. Qed.

Lemma outcome_same {S X} (o : outcome S X) a s a' s' : o = Done a s -> o = Done a' s' -> s = s'.
Proof. by intros -> [= _ ->]. Qed.

Lemma s5_keeps : keeps 0 s3 s5 v1.
Proof.
  destruct (produce_spec 0 s3 q1 x1 [] v1 l1 lv 0 s3_run s3_q1) as (s' & E & Hr & _);
    [by vm_compute|by vm_compute|intros H%list_elem_of_singleton; by vm_compute in H|by vm_compute..|].
  rewrite (outcome_same _ _ _ _ _ E s5_eq) in Hr. split; [exact Hr|by vm_compute|].
  exists (the (mkVehicle None None None None None None None) (vehicles s3 !! v1)), (the (mkVehicle None None None None None None None) (vehicles s5 !! v1)).
  clear. do 6 (split; [computed|]). computed.
Qed.

Lemma approachintersection_panics_witness : exec (approachintersection (Queue_produce q1) 0 1 1 1) s2 = Panic.
Proof.
  apply (approachintersection_panics 0 (Queue_produce q1) 0 1 1 1 s2 v1 s3 r5 s5 s2_run);
    [by vm_compute|exact s3_eq|by vm_compute|exact s5_eq|exact s5_keeps].
Defined.

End ExamplesStop.
