(* ===== verification/ExamplesLib.v ===== *)
(** * Concrete inputs: the C library

    A memory of 64 bytes with a format, a string and room for a buffer. *)

From S2P Require Import Prelude Libc LibcStr Printf PrintfSpec.
Import Libc LibcStr Printf PrintfSpec.

Module ExamplesLib.

(** "%s=%#05x" at 4, "ab" at 16 and 32 bytes of zeros from 32. *)
Definition fmt_text : list Z := [37; 115; 61; 37; 35; 48; 53; 120].
Definition m0 : gmap Z Z := write 0 (replicate 64 0) ∅.
Definition m1 : gmap Z Z := write 4 fmt_text (write 16 [97; 98] m0).

Lemma m_mapped l p q m n a : m = write p l (write q n (write 0 (replicate 64 0) ∅)) -> 0 <= a < 64 -> is_Some (m !! a).
Proof.
  intros -> Ha. rewrite !write_lookup. case_decide; [apply lookup_lt_is_Some; lia|]. case_decide; [apply lookup_lt_is_Some; lia|].
  rewrite decide_True by (rewrite length_replicate; lia). apply lookup_lt_is_Some. rewrite length_replicate. lia.
Qed.

Lemma m1_mapped p n : 0 <= p -> p + n <= 64 -> mapped m1 p n.
Proof. intros ? ? a Ha. by apply (m_mapped fmt_text 4 16 m1 [97; 98]); [|lia]. Qed.

Ltac in_memory := intros i b Hi; repeat (destruct i as [|i]; [by injection Hi as <-|]); by destruct i.
Ltac is_string := split; [in_memory|repeat constructor; lia].

(** Overlapping blocks, upwards. *)
Lemma memmove_correct_witness :
  memmove 6 4 8 m1 = Done 6 (write 6 fmt_text m1).
Proof.
  apply (memmove_correct m1 6 4 fmt_text).
  - unfold fmt_text. in_memory.
  - apply m1_mapped; cbn; lia.
  - unfold fmt_text, byte. repeat constructor; lia.
Defined.

Definition items : list item :=
  [Str plain 16 [97; 98]; Lit 61; Num (mkflags true false true false [5]) Hex 255].

(** "ab=0x0ff" in a buffer of six bytes. *)
Lemma snprintf_correct_witness :
  exists m', snprintf 32 6 4 [16; 255] m1 = Done 8 m' /\ agree m1 m' 32 38 /\ holds m' 32 [97; 98; 61; 48; 120; 0].
Proof.
  destruct (snprintf_correct m1 32 6 4 items []) as (m' & E & Ha & Hh).
  - lia.
  - apply m1_mapped; lia.
  - change (format_text items) with fmt_text. unfold fmt_text. is_string.
  - left. change (format_text items) with fmt_text. cbn. lia.
  - constructor; [split; [by repeat constructor|]; split; [cbn; lia|]; is_string|].
    constructor; [cbn; lia|]. constructor; [|constructor]. split; [done|]. split; [repeat constructor; lia|]. by vm_compute.
  - constructor; [right; left; cbn; lia|]. by repeat constructor.
  - by vm_compute.
  - exists m'. split; [exact E|]. split; [exact Ha|]. by apply Hh.
Defined.

(** Where the machine differs from the manual and from C: the text in a buffer of eight bytes, and the length. *)
Definition prints (fmt : list Z) (arg : Z) : option (Z * list Z) :=
  match snprintf 32 8 4 [arg] (write 4 fmt m0) with
  | Done n m => Some (n, (fun i => default 0 (m !! (32 + i))) <$> seqZ 0 8)
  | _ => None
  end.

(** "%X" of 255 prints an "X". *)
Lemma upper_hex_deviates : prints [37; 88] 255 = Some (1, [88; 0; 0; 0; 0; 0; 0; 0]).
Proof. by vm_compute. Qed.
(** "%-05d" of 7 prints "70000". *)
Lemma left_zero_deviates : prints [37; 45; 48; 53; 100] 7 = Some (5, [55; 48; 48; 48; 48; 0; 0; 0]).
Proof. by vm_compute. Qed.
(** "a%c" of 0 prints the "a" alone. *)
Lemma char_zero_deviates : prints [97; 37; 99] 0 = Some (1, [97; 0; 0; 0; 0; 0; 0; 0]).
Proof. by vm_compute. Qed.

Definition m2 : gmap Z Z := write 4 percent_d (write 16 [97; 98] m0).

Lemma print_atoi_roundtrip_witness :
  exists c m', snprintf 32 12 4 [- 2 ^ 31] m2 = Done c m' /\ atoi 32 m' = Done (- 2 ^ 31) m'.
Proof.
  apply (print_atoi_roundtrip m2 32 4 (- 2 ^ 31)).
  - lia.
  - intros a Ha. apply (m_mapped percent_d 4 16 m2 [97; 98]); [done|lia].
  - unfold percent_d. is_string.
  - left. cbn. lia.
Defined.

End ExamplesLib.
