(* ===== verification/ExamplesMenu.v ===== *)
(** * Concrete inputs: the menu

    The kernel of ExamplesVfs.v before the volume is mounted; a memory with a command line and the
    literals of the menu. *)

From S2P Require Import Prelude Kmalloc Boot Uio Blockdev Lhd Vnode Vfs Devfs FsKernel Examples ExamplesFs ExamplesVfs Libc LibcStr Kgets Menu MenuSpec.
Import Devfs FsKernel Libc LibcStr Kgets Menu MenuSpec.
#[local] Existing Instances Lhd.lhd_device Boot.no_vnodes Boot.no_vnodes_laws ExamplesFs.card_hw.

Module ExamplesMenu.

(** ** Keys *)

Definition m0 : gmap Z Z := write 32 (replicate 8 0) ∅.

(** "ab", backspace, "c d", erase word, "efghijk" and return: the line is "ac efgh". *)
Definition keys : list Z := [97; 98; 8; 99; 32; 100; 23; 101; 102; 103; 104; 105; 106; 107; 13; 120].

Lemma kgets_correct_witness :
  exists m', agree m0 m' 32 40 /\ kgets keys 32 8 m0 = Done (Some [120]) m' /\ cstr m' 32 [97; 99; 32; 101; 102; 103; 104].
Proof.
  destruct (kgets_correct keys m0 32 8) as (m' & A & E & Hs & _).
  - lia.
  - intros a Ha. unfold m0. rewrite write_lookup, decide_True by (rewrite length_replicate; lia). apply lookup_lt_is_Some. rewrite length_replicate. lia.
  - by exists m'.
Defined.

(** ** A line *)

(** Each literal has 16 bytes from 4096 on. *)
Definition pool : list (list Z) := literals ++ [bytes "sfs"; bytes "/bin/sh"].
Definition index (l : list Z) : nat := from_option fst (length pool) (list_find (l =.) pool).
Definition lit (l : list Z) : Z := 4096 + 16 * Z.of_nat (index l).

Definition line : list Z := bytes "mount sfs lhd0:; bootfs vol; what".
Definition m1 : gmap Z Z := foldr (fun l => write (lit l) (l ++ [0])) (write 32 (line ++ [0]) ∅) pool.

Definition cstrb (m : gmap Z Z) (p : Z) (l : list Z) : bool :=
  forallb (fun x => bool_decide (m !! (p + Z.of_nat x.1) = Some x.2)) (imap pair (l ++ [0])) && forallb (fun b => bool_decide (0 < b < 2 ^ 8)) l.

Lemma cstrb_ok m p l : cstrb m p l = true -> cstr m p l.
Proof.
  unfold cstrb. rewrite andb_true_iff, !forallb_forall. intros [H1 H2]. split.
  - intros i b E. specialize (H1 (i, b)). rewrite bool_decide_eq_true in H1. apply H1, list_elem_of_In, list_elem_of_lookup. exists i.
    by rewrite list_lookup_imap, E.
  - apply Forall_forall. intros b Hb%list_elem_of_In. specialize (H2 b Hb). by rewrite bool_decide_eq_true in H2.
Qed.

Lemma literals_in : lits_in lit m1 32 (32 + Z.of_nat (length line) + 1).
Proof.
  assert (H : forallb (fun s => cstrb m1 (lit s) s) literals = true) by (vm_compute; reflexivity). rewrite forallb_forall in H.
  intros s Hs. split; [unfold lit; lia|]. split; [by apply cstrb_ok, H, list_elem_of_In|]. right. unfold lit. cbn. lia.
Qed.

Definition quiet : M (gmap Z Z * Vfs.vfs ExamplesVfs.world0) unit := mret tt.

Lemma menu_execute_correct_witness :
  executes kmemL (run lit (fun _ _ => quiet) Devfs.sfs_mountfunc quiet quiet (fun _ _ => quiet)) 32 (32 + Z.of_nat (length line) + 1) true
    [[bytes "mount"; bytes "sfs"; bytes "lhd0:"]; [bytes "bootfs"; bytes "vol"]; [bytes "what"]] (m1, ExamplesVfs.s0)
    (menu_execute kmemL lit (run lit (fun _ _ => quiet) Devfs.sfs_mountfunc quiet quiet (fun _ _ => quiet)) 32 true (m1, ExamplesVfs.s0)).
Proof.
  apply (menu_execute_correct lit (fun _ _ => quiet) Devfs.sfs_mountfunc quiet quiet (fun _ _ => quiet) 32 line true (m1, ExamplesVfs.s0)).
  - lia.
  - by vm_compute.
  - apply cstrb_ok. vm_compute. reflexivity.
  - exact literals_in.
  - split; [intros _ _|..]; try apply leaves_ret. intros c args ws s s1 a _ _ _ [[? [= _ <-]]|[? [=]]]; done.
Defined.

End ExamplesMenu.
