(* ===== verification/ExamplesProg.v ===== *)
(** * Concrete inputs: programs

    A program of two segments in a file of the volume of ExamplesFs.v, and the empty address space of a
    new process on the machine of ExamplesVm.v. *)

From S2P Require Import Prelude Kmalloc Array Ram Kheap Thread Boot Vm VmInv Uio Blockdev Lhd Vnode Sfs SfsBlock SfsFile SfsIo SynchInv FsKernel Loadelf LoadelfSpec Runprogram RunprogramSpec Examples ExamplesFs ExamplesVm.
Import Uio Vnode Sfs SfsBlock SfsFile SfsIo FsKernel Vm VmInv Loadelf LoadelfSpec Runprogram RunprogramSpec ExamplesFs ExamplesVm.
#[local] Existing Instances Lhd.lhd_device Lhd.lhd_spec Boot.no_vnodes Boot.no_vnodes_laws.

Module ExamplesProg.

(** ** The file *)

Definition w16 (n : Z) : list Z := [n / 256; n mod 256].
Definition w32 (n : Z) : list Z := w16 (n / 65536) ++ w16 (n mod 65536).

Definition phdr (off va filesz memsz flags : Z) : list Z :=
  w32 PT_LOAD ++ w32 off ++ w32 va ++ w32 va ++ w32 filesz ++ w32 memsz ++ w32 flags ++ w32 4096.

(** Four bytes of code at 0x400000; four bytes of data and four of zeros at 0x10000000. *)
Definition prog : list Z :=
  [127; 69; 76; 70; 1; 2; 1] ++ replicate 9 0 ++ w16 2 ++ w16 8 ++ w32 1 ++ w32 4194304 ++ w32 52 ++ w32 0 ++ w32 0 ++
  w16 52 ++ w16 32 ++ w16 2 ++ w16 0 ++ w16 0 ++ w16 0 ++
  phdr 116 4194304 4 4 5 ++ phdr 120 268435456 4 8 6 ++ [3; 224; 0; 8] ++ [1; 2; 3; 4].

Definition ph1 : Elf_Phdr := mkphdr 1 116 4194304 4 4 5.
Definition ph2 : Elf_Phdr := mkphdr 1 120 268435456 4 8 6.

Lemma prog_header : header prog = Some (mkehdr ([127; 69; 76; 70; 1; 2; 1] ++ replicate 9 0) 2 8 1 4194304 52 32 2).
Proof. by vm_compute. Qed.
Lemma prog_image : LoadelfSpec.image prog = Some (4194304, [ph1; ph2]).
Proof. by vm_compute. Qed.

Lemma prog_placed : placed prog.
Proof.
  assert (Hi : forall i, 0 <= i < 2 -> i = 0 \/ i = 1) by lia. split; intros eh i.
  - rewrite prog_header. intros [= <-]. cbn [e_phnum]. intros [->| ->]%Hi; vm_compute; split; done.
  - intros b. rewrite prog_header. intros [= <-]. cbn [e_phnum]. intros [->| ->]%Hi Hb _; vm_compute in Hb; injection Hb as <-; vm_compute; repeat split; done.
Qed.

Definition pinode : sfs_inode := mkinode 124 SFS_TYPE_FILE 1 (4 :: replicate 14 0) 0 (replicate 110 0).
Definition pimage : list (list Z) :=
  [super_bytes super0; []; []; inode_bytes pinode; prog; []; []; []; []; []; []; []].
Definition pfile : sfs_vnode := mksv (mkvnode 1 1 Examples.lk 100 200 (Some sfs_fileops)) pinode 3 false.
Definition pfs : sfs_fs kernel (Lhd.lhd_softc card) :=
  mksfs Examples.k1 c0 (lhd_on (mkcard pimage) 12) 100 super0 false (Array.mkarray 300 1 1 304 [Some 200]) {[200 := pfile]} map0 false.

Lemma pfs_ok : vol_ok Sound pfs.
Proof.
  split.
  - split; [unfold Lhd.lhd_ok; vm_compute; repeat split; done|intros _; apply card_hw_sound].
  - done.
  - exact map0_wf.
  - change (length (disk pfs)) with 12%nat. simpl. lia.
  - simpl. lia.
  - simpl. lia.
  - simpl. intros b Hb. apply (bits_range map0 12 4084); [vm_compute; reflexivity|lia].
  - vm_compute. reflexivity.
Qed.

Lemma pfs_file : file_ok pfs 200 pfile.
Proof.
  assert (Hb : blocks (disk pfs) pinode = [4]) by (vm_compute; reflexivity).
  split; [by vm_compute|done| |]; simpl sv_i; rewrite Hb; [apply NoDup_singleton|].
  intros b ->%list_elem_of_singleton. split; [simpl; lia|vm_compute; reflexivity].
Qed.

(** ** The address space *)

Definition ventered := Boot.after v0 (enter_space ap v1).
Definition pst0 : pstate := mkps pfs ventered.

Lemma ventered_reach : rtc vm_step v0 ventered.
Proof.
  apply (rtc_l _ v0 v1). { apply (st_create v0 v1 ap). apply done_result. by vm_compute. }
  apply (rtc_l _ v1 ventered); [|apply rtc_refl].
  apply (st_enter v1 ventered ap no_as); [by vm_compute| |apply done_tt; by vm_compute]. exists th0. split; by vm_compute.
Qed.

Lemma pst0_ready : ready_at (w := Sound) 200 prog false [] pst0.
Proof.
  split.
  - split; [exact (reachable_ok v0 ventered v0_boot ventered_reach)|]. exists no_as. split; [by vm_compute|done].
  - exact pfs_ok.
  - exists pfile. split; [exact pfs_file|]. split; [vm_compute; split; done|by vm_compute].
  - intros c d u. by vm_compute.
Qed.


(** ** Running it *)

(** A kernel whose only file is the program, with the number of times each vnode is open. *)
Record rstate := mkrs { rs_prog : pstate (K := kernel) (D := Lhd.lhd_softc card) (V := unit); rs_opens : Z -> Z }.
Definition progL : lens rstate pstate := Lens rs_prog (fun x s => mkrs x (rs_opens s)).
Definition rvmL : lens rstate (vmsys unit) := Lens (fun s => ps_vm (rs_prog s)) (fun x s => mkrs (mkps (ps_fs (rs_prog s)) x) (rs_opens s)).

Definition prog_ioL : lens (rstate * uio) (pstate * uio) :=
  Lens (fun x => (rs_prog x.1, x.2)) (fun y x => (mkrs y.1 (rs_opens x.1), y.2)).

Definition count (v n : Z) : M rstate unit := fun s => Done tt (mkrs (rs_prog s) (fun q => rs_opens s q + if decide (q = v) then n else 0)).

#[export] Instance rs_program : Program rstate := {|
  pr_space s := pr_space (rs_prog s);
  VOP_READ v := zoom prog_ioL (VOP_READ v);
  uiomovezeros n := zoom prog_ioL (Loadelf.uiomovezeros n);
  as_define_region p va sz := zoom progL (as_define_region p va sz);
  as_prepare_load p := zoom progL (as_prepare_load p);
  as_complete_load p := zoom progL (as_complete_load p);
|}.

#[export] Instance rs_runner : Runner rstate := {|
  vfs_open name _ := if decide (name = [112; 114; 111; 103]) then count 200 1 ;; mret 200 else fail ENOENT;
  vfs_close v := count v (-1);
  as_create := zoom rvmL Vm.as_create;
  set_vmspace p := zoom rvmL (cur ← gets (fun s => Thread.curthread (vts s)); vt (Thread.upd_thread cur (Thread.set_vmspace p)));
  as_activate := zoom rvmL Vm.as_activate;
  as_define_stack p := zoom rvmL (Vm.as_define_stack p);
|}.

#[export] #[refine] Instance rs_runner_spec : RunnerSpec rstate := {| opens := rs_opens |}.
Proof.
  - intros name flags s. cbn. case_decide; [|done]. intros q. cbn. done.
  - intros v s. cbn. intros q. case_decide; lia.
  - intros v. by apply keeps_zoom.
  - intros n. by apply keeps_zoom.
  - intros p va sz. by apply keeps_zoom.
  - intros p. by apply keeps_zoom.
  - intros p. by apply keeps_zoom.
  - by apply keeps_zoom.
  - intros p. by apply keeps_zoom.
  - by apply keeps_zoom.
  - intros p. by apply keeps_zoom.
Defined.

Definition rs0 : rstate := mkrs (mkps pfs v0) (fun _ => 0).

Section void.
Import Kheap.

(** [as_create] returns NULL where memory is short, it has no other error. *)
Lemma blocktype_void l sz : forall i, nofail (blocktype_from l i sz).
Proof. induction l as [|x l IH]; intros i; cbn [blocktype_from]; nofail. Qed.
Lemma find_free_void n t : forall pr, nofail (find_free n t pr).
Proof. induction n as [|n IH]; intros pr; unfold find_free; fold find_free; unfold get_pr; nofail. Qed.
Lemma init_freelist_void n fla sz : forall i fl, nofail (init_freelist n i fla sz fl).
Proof. induction n as [|n IH]; intros i fl; unfold init_freelist; fold init_freelist; unfold store; nofail. Qed.
Lemma alloc_ref_void n i : forall k j, nofail (alloc_ref_bit n i k j).
Proof. induction n as [|n IH]; intros k j; unfold alloc_ref_bit; fold alloc_ref_bit; nofail. Qed.
Lemma allocpageref_void n : forall i, nofail (alloc_ref_word n i).
Proof. pose proof alloc_ref_void. induction n as [|n IH]; intros i; unfold alloc_ref_word; fold alloc_ref_word; nofail. Qed.
Lemma doalloc_void i : nofail (doalloc i).
Proof. unfold doalloc, upd_pr, get_pr, load. nofail. Qed.
#[local] Hint Resolve blocktype_void find_free_void allocpageref_void init_freelist_void doalloc_void : nofail.

Lemma kmalloc_void sz : nofail (kmalloc sz).
Proof.
  unfold kmalloc, subpage_kmalloc, new_page, Ram.alloc_kpages, Ram.getppages, Ram.ram_stealmem, blocktype,
    allocpageref, freepageref, upd_pr, get_pr, store. nofail.
Qed.

Lemma nofail_for {S} n : forall i (body : Z -> M S unit), (forall j, nofail (body j)) -> nofail (for_n n i body).
Proof. induction n as [|n IH]; intros i body H; cbn [for_n]; nofail. Qed.

Lemma rs0_create : nofail (as_create (S := rstate)).
Proof. apply nofail_zoom. unfold Vm.as_create, put_as, vh, vt. pose proof kmalloc_void. nofail. Qed.
Lemma rs0_vmspace p : nofail (set_vmspace (S := rstate) p).
Proof. apply nofail_zoom. unfold vt, Thread.upd_thread, Thread.get_thread. nofail. Qed.
Lemma rs0_activate : nofail (as_activate (S := rstate)).
Proof.
  apply nofail_zoom. unfold Vm.as_activate, vt, Thread.splhigh, Thread.splx. pose proof @nofail_for.
  repeat (apply nofail_bind; [|intros ?]); try (apply nofail_for; intros j; unfold TLB_Write); nofail.
Qed.

End void.

Lemma runprogram_closes_witness : balanced rs0 (runprogram [112; 114; 111; 103] rs0).
Proof. exact (runprogram_closes [112; 114; 111; 103] rs0 rs0_create rs0_vmspace rs0_activate). Defined.

End ExamplesProg.
