(* ===== verification/ExamplesEmu.v ===== *)
(** * Concrete inputs: the emulator file system

    A host that delivers at most three bytes at a time, on the kernel of Examples.v. *)

From S2P Require Import Prelude Kmalloc Array Kheap Thread Synch SynchInv Boot Uio Vnode Devfs SfsBlock FsKernel Emu EmuSpec EmuHandles EmuKernel Examples ExamplesFs.
Import Uio Vnode FsKernel Emu EmuSpec EmuHandles EmuKernel.
#[local] Existing Instances Boot.no_vnodes Boot.no_vnodes_laws.

Module ExamplesEmu.

(** ** The card *)

(** The open files; the handle 5 is given to a new one, which is empty. *)
Record host := mkhost { h_files : gmap Z (list Z) }.

Definition opens_file (op : Z) : Prop := op = EMU_OP_OPEN \/ op = EMU_OP_CREATE \/ op = EMU_OP_EXCLCREATE.

Definition host_run (op : Z) (r : regs) (buf : list Z) (hw : host) : Z * regs * list Z * host :=
  let h := REG_HANDLE r in let o := Z.to_nat (REG_OFFSET r) in let n := Z.to_nat (REG_IOLEN r) in
  if decide (opens_file op) then
    if decide (is_Some (h_files hw !! 5)) then (EMU_RES_NOHANDLES, r, buf, hw)
    else (EMU_RES_SUCCESS, mkregs 5 0 0, buf, mkhost (<[5 := []]> (h_files hw)))
  else if decide (op = EMU_OP_CLOSE) then (EMU_RES_SUCCESS, r, buf, mkhost (delete h (h_files hw)))
  else match h_files hw !! h with
  | None => (EMU_RES_BADHANDLE, r, buf, hw)
  | Some d =>
      if decide (op = EMU_OP_READ) then
        let k := Nat.min (Nat.min n 3) (length d - o) in
        (EMU_RES_SUCCESS, mkregs h (Z.of_nat (o + k)) (Z.of_nat k), take k (drop o d) ++ drop k buf, hw)
      else if decide (op = EMU_OP_WRITE) then (EMU_RES_SUCCESS, r, buf, mkhost (<[h := overlay d o (take n buf)]> (h_files hw)))
      else (EMU_RES_UNSUPP, r, buf, hw)
  end.

#[export] Instance host_card : EmuCard host := { emu_run := host_run }.

#[export] #[refine] Instance host_spec : EmuCardSpec host := {| emu_files := h_files |}.
Proof.
  - intros hw h d o n buf Hd Hn Hb. cbn [emu_run host_card]. unfold host_run. cbn [REG_HANDLE REG_OFFSET REG_IOLEN]. rewrite !Nat2Z.id.
    rewrite decide_False by (intros [?|[?|?]]; done). rewrite decide_False by done. rewrite Hd, decide_True by done.
    set (k := Nat.min (Nat.min n 3) (length d - o)). eexists _, _, _, _. split; [done|]. split; [done|]. assert (HM : EMU_MAXIO = 16384) by done.
    assert (Hl : length (take k (drop o d)) = k) by (rewrite length_take, length_drop; lia). split; [rewrite length_app, Hl, length_drop; lia|].
    right. right. split; [done|]. exists k. split; [lia|]. cbn [REG_IOLEN REG_OFFSET]. split; [done|]. split; [done|]. split; [by apply take_app_length'|]. lia.
  - intros hw h d o n buf Hd Hn Hb. cbn [emu_run host_card]. unfold host_run. cbn [REG_HANDLE REG_OFFSET REG_IOLEN]. rewrite !Nat2Z.id.
    rewrite decide_False by (intros [?|[?|?]]; done). rewrite decide_False by done. rewrite Hd, decide_False, decide_True by done.
    eexists _, _, _, _, _. split; [done|]. split; [done|]. split; [done|]. by right; right; right.
Defined.

#[export] #[refine] Instance host_handles : EmuHandles host := {| opened hw := dom (h_files hw) |}.
Proof.
  - intros op r buf hw Hop. cbn [emu_run host_card]. unfold host_run. rewrite decide_True by done. destruct (decide (is_Some _)); [by rewrite decide_False|].
    rewrite decide_True by done. cbn [REG_HANDLE h_files]. split; [lia|]. by rewrite dom_insert_L.
  - intros r buf hw. cbn [emu_run host_card]. unfold host_run. rewrite decide_False by (intros [?|[?|?]]; done). rewrite decide_True by done.
    rewrite decide_True by done. cbn [h_files]. by rewrite dom_delete_L.
Defined.

#[local] Existing Instance kernel_lock_spec.

(** ** A file *)

Definition root : emufs_vnode := mkev (mkvnode 1 0 Examples.lk 100 300 (Some dirops)) 0.
Definition file : emufs_vnode := mkev (mkvnode 1 0 Examples.lk 100 200 (Some fileops)) 3.
Definition host0 : host := mkhost {[0 := []; 3 := [72; 101; 108; 108; 111]]}.
Definition soft0 : emu_softc host := mkemu host0 (mkregs 0 0 0) 0 0 Examples.lk 0 (replicate (Z.to_nat EMU_MAXIO) 0) 0.
Definition emu0 : emufs_fs kernel host :=
  mkemufs Examples.k1 ExamplesFs.c0 soft0 100 300 (Array.mkarray 304 2 2 308 [Some 300; Some 200]) {[300 := root; 200 := file]}.


Lemma emu0_idle : idle (LockSpec0 := kernel_lock_spec 0) emu0.
Proof. split; [|done|apply length_replicate]. split; [exact ExamplesFs.k1_idle|]. split; [exact ExamplesFs.lk_nz|exact ExamplesFs.k1_room]. Qed.

Definition rd : uio := mk_kuio (replicate 8 0) 8 1 UIO_READ.
Definition wr : uio := mk_kuio [105; 33] 2 4 UIO_WRITE.

Lemma rd_transfer : transfer (LockSpec0 := kernel_lock_spec 0) emu0 rd 200 file [72; 101; 108; 108; 111].
Proof. split; [exact emu0_idle|done|cbn; lia|done|apply SfsBlock.SfsBlock.kuio_ok; [done|lia|cbn; lia]|cbn; lia|cbn; lia]. Qed.
Lemma wr_transfer : transfer (LockSpec0 := kernel_lock_spec 0) emu0 wr 200 file [72; 101; 108; 108; 111].
Proof. split; [exact emu0_idle|done|cbn; lia|done|apply SfsBlock.SfsBlock.kuio_ok; [done|lia|cbn; lia]|cbn; lia|cbn; lia]. Qed.

(** From position 1, eight bytes: the four that are left. *)
Lemma emufs_read_correct_witness : delivers (LockSpec0 := kernel_lock_spec 0) emu0 rd [101; 108; 108; 111] (emufs_read 200 (emu0, rd)).
Proof. exact (emufs_read_correct (LockSpec0 := kernel_lock_spec 0) emu0 rd 200 file [72; 101; 108; 108; 111] rd_transfer eq_refl). Defined.

(** "i!" over the last byte and past the end. *)
Lemma emufs_write_correct_witness : stores (LockSpec0 := kernel_lock_spec 0) emu0 wr 3 [72; 101; 108; 108; 111] 4 (Some [105; 33]) (emufs_write 200 (emu0, wr)).
Proof. exact (emufs_write_correct (LockSpec0 := kernel_lock_spec 0) emu0 wr 200 file [72; 101; 108; 108; 111] wr_transfer eq_refl ltac:(cbn; lia)). Defined.

Lemma emu0_tabled : tabled emu0.
Proof.
  intros h Hh. change (handles emu0) with (dom (h_files host0)) in Hh. unfold host0 in Hh. cbn [h_files] in Hh.
  rewrite dom_insert_L, dom_singleton_L in Hh. apply elem_of_union in Hh as [->%elem_of_singleton| ->%elem_of_singleton].
  - exists 0, 300. split; [cbn; lia|done].
  - exists 1, 200. split; [cbn; lia|done].
Qed.

Lemma emufs_handles_kept_witness : kept emu0 (emufs_lookup 300 [97] emu0) /\ kept emu0 (emufs_creat 300 [97] true emu0).
Proof. exact (emufs_handles_kept emu0 300 [97] true eq_refl emu0_tabled). Defined.

End ExamplesEmu.
